(* ===== verification/_CoqProject ===== *)
-Q . S2P
Prelude.v
Ebpf.v
Memory.v
Vm.v
Interp.v
InterpProps.v
ValidateInsts.v
ValidateCfg.v
ExecSafety.v
RegState.v
AluRange.v
ValidateAccesses.v
WalkProps.v
JumpSound.v
AluSound.v
Helpers.v
AccessSound.v
Lookup3.v
Lookup3Props.v
MapDef.v
ArrayMap.v
HashMap.v
BloomFilter.v
CountMin.v
Maps.v
Loader.v
LoaderProps.v
LoaderInv.v
Reconnect.v
ReconnectProps.v
X86.v
JitEnc.v
Jit.v
JitEmit.v
JitAsm.v
JitCode.v
JitRun.v
JitAlu.v
JitSim.v
JitInst.v
JitSound.v
JitCorrect.v
BpfProg.v
OfpBuf.v
OfpBufProps.v
DpPacket.v
DpPacketProps.v
OfpMsgs.v
OfpMsgsProps.v
OfpBpf.v
OfpBpfProps.v
OfpPrint.v
Hex.v
BpfControl.v
BpfControlProps.v
BpfControlMaps.v
BpfDump.v
BpfDatapath.v
CStrings.v
OfpCtl.v
OfpCtlProps.v
BpfAction.v
BpfActionProps.v
Mempool.v
R2p2.v
R2p2Bufs.v
R2p2Spec.v
R2p2Server.v
R2p2Client.v
R2p2Props.v
R2p2Rpc.v
StpState.v
Stp.v
StpBase.v
StpSelect.v
StpInv.v
StpSteps.v
StpStates.v
StpOps.v
StpProps.v
