(* ===== verification/Prelude.v ===== *)
(** * P4rt-OVS BPF and R2P2: a verification development

    P4rt-OVS extends Open vSwitch with BPF programs that the controller injects at
    run time.  The code is under src/p4rt-ovs: lib/bpf, lib/bpf.c and lib/bpf.h hold
    the machine, its verifier, its compiler, its maps and its loader; lib/ofp-bpf.c,
    lib/ofp-msgs.c and lib/ofpbuf.c the messages of the controller;
    ofproto/ofproto.c the handlers of these messages; lib/odp-execute.c the action
    that runs a program on packets, lib/dp-packet.c the packets.  A load message carries an ELF object
    ([ofputil_decode_bpf_load_prog], [handle_bpf_load_prog]); its relocations create
    maps and bind helpers ([ubpf_load_elf]), the text is verified ([validate]),
    installed ([ubpf_load]) and compiled ([ubpf_compile]); the switch then runs it
    ([odp_execute_bpf_prog]), with the helpers of bpf.c giving access to the maps;
    further messages update, delete and dump the entries of the maps.

    R2P2 (src/r2p2/r2p2) is a second program: remote calls over datagrams.  An endpoint
    cuts requests and replies into packets ([r2p2_prepare_msg]), gathers them
    ([handle_request], [handle_response]) in buffers and pairs from pools (mempool.c), and
    hands them to the application; linux-backend.c has its sockets and timers.

    ** Files

    - Prelude: this header; machine integers with their wrap-around, shifts and
      divisions with their undefined cases, the result type [res] with its [Undef]
      for runs that leave the C semantics, and the hint databases.
    - Ebpf (ebpf.h): opcodes, instructions, their encoding as bytes.
    - Memory: byte-addressed memory with little-endian accesses.
    - Vm (ubpf_int.h, ubpf_vm.c): the machine object, its tables of helpers and maps.
    - Interp (ubpf_vm.c): [ubpf_exec] and [bounds_check].  InterpProps: what the
      instructions compute, what an execution can write, what the bounds check
      accepts.
    - ValidateInsts, ValidateCfg (ubpf_vm.c): the first two passes of the verifier,
      each shown to decide a declarative property.  ExecSafety: what their
      acceptance guarantees of an execution (termination, the remaining hazards).
    - RegState, AluRange, ValidateAccesses (ubpf_vm.c): the third pass, an abstract
      interpretation with signed and unsigned ranges per register, over all paths;
      [validate] and [ubpf_load].  WalkProps: the pass terminates, what [ubpf_load]
      installs.  JumpSound, AluSound, AccessSound: soundness of the ranges against
      the interpreter, of memory accesses and of helper arguments, with the
      operations and programs for which it fails.
    - Helpers (bpf.c): prototypes and registration of the helpers.
    - Lookup3 (lookup3.c): the hash functions.  Lookup3Props: the variants agree,
      [mix] is reversible, the identities of the comments, the self-test vectors.
    - MapDef, ArrayMap, HashMap, BloomFilter, CountMin (ubpf_array.c, ubpf_hashmap.c,
      ubpf_hashmap.h, ubpf_bf.c, ubpf_countmin.c): the four kinds of map, each with
      its abstract specification.
    - Maps (bpf.c): operation tables and the map helpers; the class [KeyedMap] is
      the interface against which the helpers and the update messages are verified,
      with instances for arrays and hash maps.
    - Loader (ubpf_loader.c): ELF parsing, relocations, [ubpf_load_elf].
      LoaderProps: parsing stays inside the file, relocations patch what they name,
      a load installs only verified programs.  LoaderInv: invariants of the loader's
      state; the registered maps are the ones that were created.
    - X86: the instructions of x86-64 that the compiler emits, as a decoder and a
      step function; a call of a helper is one step.  JitEnc, Jit
      (ubpf_jit_x86_64.h, ubpf_jit_x86_64.c): the emitters, [translate] and
      [ubpf_compile].  JitEmit, JitAsm, JitCode: the emitted bytes decode to a
      listing, with every jump resolved.  JitRun, JitAlu, JitSim, JitInst, JitSound,
      JitCorrect: a simulation between the interpreter and the compiled code, and the
      programs on which the two differ.
    - BpfProg (bpf.c): [load_bpf_prog].
    - OfpBuf (ofpbuf.c, ofpbuf.h): buffers in blocks of memory; OfpBufProps: a buffer
      refines the string of its bytes.
    - DpPacket (dp-packet.c, dp-packet.h, bpf.c): packets, built without DPDK, and the
      helpers that work on them.  DpPacketProps: a packet of less than 2^16 - 1 bytes
      refines the string of its bytes, the layer offsets follow their bytes, what
      [ubpf_adjust_head] does inside and outside these bounds.
    - OfpMsgs (ofp-msgs.c): headers of messages; OfpMsgsProps: writing and reading
      them, for any table of message types.  OfpBpf (ofp-bpf.c, orange-ext.h): the
      messages for programs; the class [Struct] is the layout of a structure.
      OfpBpfProps: what is encoded is decoded.  OfpPrint (ofp-print.c): the text of a
      dumped map.  Hex (util.c, ofpbuf.c, dp-packet.c): bytes read from such a text.
    - BpfControl (ofproto.c): the table of programs and the handlers.
      BpfControlProps: an invariant of all reachable states, loading and unloading.
      BpfControlMaps: updates and deletions from the controller to the map.  BpfDump:
      a dump from the request to the text.
    - BpfDatapath (odp-execute.c, packets.c, bpf.h): the action on a batch.
    - CStrings (util.c, ofp-parse.c): numbers read from text, as the C library reads them.
      OfpCtl (utilities/ovs-ofctl.c, command-line.c): the commands of ovs-ofctl for programs
      and maps, from the words of the command to the request.  OfpCtlProps: each is decoded
      by the switch to what was typed, an update reaches the map, and the command lines that
      go wrong.
    - BpfAction (ofp-actions.c, ofproto-dpif-xlate.c, netlink.c, odp-util.c): the action that
      runs a program, in text, in messages, in flows and, translated, in the datapath.
      BpfActionProps: the datapath reads the machine whose id the flow has, the formats keep
      the id, and what becomes of flows whose program is gone.
    - Reconnect (reconnect.c): the state machine that keeps the connection to the
      controller; ReconnectProps: its invariant, its timers, its backoff.
    - StpState, Stp (stp.c, stp.h): the spanning tree protocol of a bridge; [None] is an
      [int] that overflows.  The packets it sends are those of DpPacket; [sent] keeps
      them.  StpBase: which fields matter to the others (an equivalence of states), and
      the frame of a message.  StpSelect: what the selections of roots, designated ports
      and states compute.  StpInv: the invariant.  StpSteps: time, messages, management and
      creation keep it.  StpStates: which changes of state
      are possible.  StpOps: a bridge in any sequence of operations.  StpProps: the root
      port, messages between bridges, the counting of time, the report of changes.
    - Mempool (r2p2: mempool.c): pools of objects and the lists through them; allocation
      ends, and the lists are what their links say.  R2p2 (r2p2-common.c, linux-backend.c and
      their headers): an endpoint, as a state and operations in a monad with failed
      assertions, endless searches and undefined behaviour; what it sends and calls is
      appended to [out].  R2p2Bufs: messages in chains of buffers, each buffer owned by one;
      the readers of messages; the packets that [r2p2_prepare_msg] makes.
    - R2p2Spec: the abstract endpoint, with calls, incomplete requests and requests of the
      application as values; the relation [sim] between the two; the packet that is being
      treated.  R2p2Server: requests.  R2p2Client: replies.  R2p2Props: calls of the
      application and timers, what is in use; the code implements the abstract endpoint, and
      nothing leaks.  R2p2Rpc: calls between two endpoints, and the datagrams that end one.

    ** Conventions

    A [w]-bit integer is a [Z]; conversions ([u8], [u32], [s64], ...) are written where
    C converts.  Pointers are addresses, or offsets into the buffer they point to; an
    access outside the buffer is [None] or [Undef], never a default value.  Errors
    that the C code reports are constructors ([verr], [lerr], [ofperr], [jerr]), a
    failed assertion is a value too, and every status returned is kept.  Registers
    that C leaves uninitialised are arguments: the initial registers of [ubpf_exec],
    and [indet] for the range that [update_min_max_alu_op] reads before writing it.
    Memory from the allocator is named by arguments ([fresh], [str_addr], [spare]),
    its contents by [junk]; allocation does not fail.  The host is little-endian.
    Code outside the modelled files is an argument too: the external functions of
    the machine, with [ext_ok] stating which memory they may write, and the table of
    message types that a script generates, with [table_ok] stating what it enforces; and
    whether the kernel takes a datagram ([sendto_ok]).

    ** Fuel

    [ubpf_exec] and [exec_loop] take a number of steps; for accepted programs
    one step per instruction is proved to be enough.  [validate_cfg] gives its search
    a bound on visits that is proved to be enough for every non-empty program.
    [validate_accesses] walks 2^n iterations at most, proved enough for programs the
    earlier passes accept.  [hash_blocks] takes the length of the key.  The compiler
    walks the instructions with their number as fuel, which is proved enough, and
    writes into a buffer of 65536 bytes, as the code does.  Searches of a pool visit each
    slot once, after which they would start again; chains of buffers and lists of pairs are
    followed for one step more than there are buffers ([CHAIN]) and pairs ([POOL]), so that
    only a cycle uses it up; [r2p2_prepare_msg] takes a round per byte and per part.  That
    these never run out is part of [endpoint_refines].

    ** Not modelled

    [ubpf_destroy] and the freeing of memory, the helpers that need the clock or the
    log, diagnostics on stderr and log messages, multipart messages, the printed
    reply to a show request (it formats times), the translation of all other actions,
    the list and the reference counts of bridges and a client of the spanning tree
    that calls back while it sends, Raft, timestamps, the router and DPDK of R2P2 and
    callbacks that call back into it at once, and the other programs of the repository. *)

From Stdlib Require Export ZArith Lia.
From stdpp Require Export base numbers option list gmap strings.

#[global] Open Scope Z_scope.

(** ** Fixed-width integers

    A [w]-bit unsigned C integer is a [Z] in [0, 2^w); a signed one is a [Z]
    in [-2^(w-1), 2^(w-1)).  Conversions are written out. *)

Definition wrap (w x : Z) : Z := x mod 2 ^ w.

Definition sext (w x : Z) : Z :=
  let y := wrap w x in if y <? 2 ^ (w - 1) then y else y - 2 ^ w.

Abbreviation u8 := (wrap 8).
Abbreviation u16 := (wrap 16).
Abbreviation u32 := (wrap 32).
Abbreviation u64 := (wrap 64).
Abbreviation s16 := (sext 16).
Abbreviation s32 := (sext 32).
Abbreviation s64 := (sext 64).

Definition UINT8_MAX : Z := 2 ^ 8 - 1.
Definition UINT32_MAX : Z := 2 ^ 32 - 1.
Definition UINT64_MAX : Z := 2 ^ 64 - 1.
Definition INT64_MAX : Z := 2 ^ 63 - 1.
Definition INT64_MIN : Z := - 2 ^ 63.

Definition in_u (w x : Z) : Prop := 0 <= x < 2 ^ w.
Definition in_s (w x : Z) : Prop := - 2 ^ (w - 1) <= x < 2 ^ (w - 1).

(** [consts] holds the [#define]s of the sources, for [clia]. *)
Create HintDb consts.
Ltac clia := autounfold with consts in *; lia.

Create HintDb word.
Create Rewrite HintDb word.

Lemma wrap_range w x : 0 <= w -> in_u w (wrap w x).
Proof.
  intros Hw. unfold in_u, wrap. apply Z.mod_pos_bound, Z.pow_pos_nonneg; lia.
Qed.

Lemma wrap_small w x : in_u w x -> wrap w x = x.
Proof. intros H. apply Z.mod_small, H. Qed.

Lemma wrap_idem w x : wrap w (wrap w x) = wrap w x.
Proof. apply Zmod_mod. Qed.

Lemma wrap_add_l w x y : wrap w (wrap w x + y) = wrap w (x + y).
Proof. apply Zplus_mod_idemp_l. Qed.

Lemma wrap_add_r w x y : wrap w (x + wrap w y) = wrap w (x + y).
Proof. apply Zplus_mod_idemp_r. Qed.

Lemma wrap_sub_l w x y : wrap w (wrap w x - y) = wrap w (x - y).
Proof. apply Zminus_mod_idemp_l. Qed.

Lemma wrap_sub_r w x y : wrap w (x - wrap w y) = wrap w (x - y).
Proof. apply Zminus_mod_idemp_r. Qed.

Lemma wrap_wrap_le w w' x : 0 <= w <= w' -> wrap w (wrap w' x) = wrap w x.
Proof.
  intros H. unfold wrap. apply Z.mod_mod_divide.
  exists (2 ^ (w' - w)). rewrite <- Z.pow_add_r by lia. f_equal; lia.
Qed.

Lemma sext_range w x : 0 < w -> in_s w (sext w x).
Proof.
  intros Hw. unfold in_s, sext.
  pose proof (wrap_range w x ltac:(lia)) as Hr. unfold in_u in Hr.
  assert (2 ^ w = 2 * 2 ^ (w - 1)) as E
    by (rewrite <- Z.pow_succ_r by lia; f_equal; lia).
  destruct (Z.ltb_spec (wrap w x) (2 ^ (w - 1))); lia.
Qed.

Lemma wrap_sext w x : 0 < w -> wrap w (sext w x) = wrap w x.
Proof.
  intros Hw. unfold sext. destruct (_ <? _).
  - apply wrap_idem.
  - unfold wrap at 1. replace (wrap w x - 2 ^ w) with (wrap w x + -1 * 2 ^ w) by lia.
    rewrite Z_mod_plus_full. apply wrap_idem.
Qed.

Lemma sext_wrap w x : sext w (wrap w x) = sext w x.
Proof. unfold sext. now rewrite wrap_idem. Qed.

Lemma sext_small w x : 0 < w -> in_s w x -> sext w x = x.
Proof.
  intros Hw Hx. unfold in_s in Hx. unfold sext, wrap.
  assert (2 ^ w = 2 * 2 ^ (w - 1)) as E
    by (rewrite <- Z.pow_succ_r by lia; f_equal; lia).
  destruct (Z.leb_spec 0 x).
  - rewrite Z.mod_small by lia. destruct (Z.ltb_spec x (2 ^ (w - 1))); lia.
  - assert (x mod 2 ^ w = x + 2 ^ w) as ->.
    { rewrite <- (Z.mod_small (x + 2 ^ w) (2 ^ w)) by lia.
      rewrite <- (Z_mod_plus_full x 1 (2 ^ w)). f_equal; lia. }
    destruct (Z.ltb_spec (x + 2 ^ w) (2 ^ (w - 1))); lia.
Qed.

#[export] Hint Resolve wrap_range sext_range : word.
#[export] Hint Rewrite wrap_idem wrap_add_l wrap_add_r wrap_sub_l wrap_sub_r
  sext_wrap : word.

(** Closes a range goal on a concrete width by unfolding the conversions and
    splitting on the comparison inside [sext]. *)
Ltac word_lia :=
  unfold in_u, in_s, sext, wrap, UINT32_MAX, UINT64_MAX, INT64_MAX, INT64_MIN in *;
  repeat match goal with
  | |- context [Z.ltb ?x ?y] => destruct (Z.ltb_spec x y)
  | H : context [Z.ltb ?x ?y] |- _ => destruct (Z.ltb_spec x y)
  end;
  Z.div_mod_to_equations; lia.

(** ** Shifts and divisions at their width

    C leaves a shift by a negative count or by at least the width of the
    (promoted) left operand undefined, and a division by zero too: [None]. *)

Definition shl (w x n : Z) : option Z :=
  if (0 <=? n) && (n <? w) then Some (wrap w (Z.shiftl x n)) else None.

Definition shr (w x n : Z) : option Z :=
  if (0 <=? n) && (n <? w) then Some (Z.shiftr x n) else None.

Definition udiv (x y : Z) : option Z := if y =? 0 then None else Some (x / y).
Definition umod (x y : Z) : option Z := if y =? 0 then None else Some (x mod y).

Lemma shl_range w x n y : shl w x n = Some y -> 0 <= w -> in_u w y.
Proof. unfold shl. case_match; [|done]. intros [= <-] Hw. by apply wrap_range. Qed.

Lemma shr_range w x n y : shr w x n = Some y -> in_u w x -> in_u w y.
Proof.
  unfold shr, in_u. case_match eqn:E; [|done]. intros [= <-] Hx.
  apply andb_true_iff in E as [E1%Z.leb_le E2]. rewrite Z.shiftr_div_pow2 by lia.
  pose proof (Z.pow_pos_nonneg 2 n ltac:(lia) ltac:(lia)).
  split; [apply Z.div_pos; lia|].
  apply Z.div_lt_upper_bound; nia.
Qed.

Lemma udiv_range w x y z : udiv x y = Some z -> in_u w x -> 0 <= y -> in_u w z.
Proof.
  unfold udiv, in_u. case_match eqn:E; [done|]. intros [= <-] Hx Hy.
  apply Z.eqb_neq in E. split; [apply Z.div_pos; lia|].
  apply Z.div_lt_upper_bound; nia.
Qed.

Lemma umod_range w x y z : umod x y = Some z -> in_u w x -> 0 <= y -> in_u w z.
Proof.
  unfold umod, in_u. case_match eqn:E; [done|]. intros [= <-] Hx Hy.
  apply Z.eqb_neq in E. pose proof (Z.mod_pos_bound x y ltac:(lia)).
  pose proof (Z.mod_le x y ltac:(lia) ltac:(lia)). lia.
Qed.

(** Bitwise operations stay in range. *)

Lemma testbit_out w x i : in_u w x -> 0 <= w <= i -> Z.testbit x i = false.
Proof.
  intros Hx Hi. rewrite <- (Z.mod_small x (2 ^ w)) by exact Hx.
  apply Z.mod_pow2_bits_high. lia.
Qed.

Lemma in_u_bits w x :
  0 <= w -> 0 <= x -> (forall i, w <= i -> Z.testbit x i = false) -> in_u w x.
Proof.
  intros Hw Hx Hb. unfold in_u. split; [done|].
  destruct (Z.eq_dec x 0) as [->|Hn]; [apply Z.pow_pos_nonneg; lia|].
  apply Z.log2_lt_pow2; [lia|].
  destruct (Z.ltb_spec (Z.log2 x) w) as [?|Hge]; [done|].
  specialize (Hb (Z.log2 x) Hge). rewrite Z.bit_log2 in Hb by lia. done.
Qed.

Lemma land_range w x y : 0 <= w -> in_u w x -> 0 <= y -> in_u w (Z.land x y).
Proof.
  intros Hw Hx Hy. apply in_u_bits; [done| |].
  - apply Z.land_nonneg. left. apply Hx.
  - intros i Hi. rewrite Z.land_spec, (testbit_out w x i) by (done || lia). done.
Qed.

Lemma lor_range w x y : 0 <= w -> in_u w x -> in_u w y -> in_u w (Z.lor x y).
Proof.
  intros Hw Hx Hy. apply in_u_bits; [done| |].
  - apply Z.lor_nonneg. split; [apply Hx|apply Hy].
  - intros i Hi.
    rewrite Z.lor_spec, (testbit_out w x i), (testbit_out w y i) by (done || lia).
    done.
Qed.

Lemma lxor_range w x y : 0 <= w -> in_u w x -> in_u w y -> in_u w (Z.lxor x y).
Proof.
  intros Hw Hx Hy. apply in_u_bits; [done| |].
  - apply Z.lxor_nonneg. split; intros; [apply Hy|apply Hx].
  - intros i Hi.
    rewrite Z.lxor_spec, (testbit_out w x i), (testbit_out w y i) by (done || lia).
    done.
Qed.

Lemma in_u_mono w w' x : 0 <= w <= w' -> in_u w x -> in_u w' x.
Proof.
  intros Hw Hx. unfold in_u in *. pose proof (Z.pow_le_mono_r 2 w w'). lia.
Qed.

#[export] Hint Extern 2 (_ <= _) => lia : word.
#[export] Hint Resolve land_range lor_range lxor_range shl_range shr_range
  udiv_range umod_range : word.

(** ** Results

    [Err] is a failure the code reports; [Undef] is a run that leaves the C
    semantics: an access outside an object, a division by zero, a shift by
    too much, a call through a null pointer. *)

Inductive res (E A : Type) : Type :=
| Ok (a : A)
| Err (e : E)
| Undef.

Arguments Ok {E A} a.
Arguments Err {E A} e.
Arguments Undef {E A}.

Definition res_bind {E A B} (c : res E A) (k : A -> res E B) : res E B :=
  match c with
  | Ok a => k a
  | Err e => Err e
  | Undef => Undef
  end.

Definition res_of {E A} (o : option A) : res E A :=
  match o with Some a => Ok a | None => Undef end.

Declare Scope res_scope.
Delimit Scope res_scope with res.
Notation "'let!' x ':=' c 'in' k" := (res_bind c (fun x => k))
  (at level 10, x pattern, c at level 100, k at level 200)
  : res_scope.
Notation "'check!' b 'else' e ; k" := (if b then k else Err e)
  (at level 10, b at level 99, e at level 99, k at level 200) : res_scope.
#[global] Open Scope res_scope.

Lemma res_bind_Ok {E A B} (c : res E A) (k : A -> res E B) b :
  res_bind c k = Ok b <-> exists a, c = Ok a /\ k a = Ok b.
Proof.
  destruct c; simpl; split; [intros ?; eauto|..]; try (intros ?; discriminate);
    intros (a' & E1 & E2); by simplify_eq.
Qed.

Lemma res_of_Ok {E A} (o : option A) (a : A) :
  res_of (E:=E) o = Ok a <-> o = Some a.
Proof. destruct o; simpl; naive_solver. Qed.

(** Opens every successful bind, lookup and conditional of the hypotheses. *)
Ltac res_inv :=
  repeat match goal with
  | H : res_bind _ _ = Ok _ |- _ =>
      apply res_bind_Ok in H;
      let a := fresh "a" in let E := fresh "E" in destruct H as (a & E & H)
  | H : res_of _ = Ok _ |- _ => apply res_of_Ok in H
  | H : Ok _ = Ok _ |- _ => injection H as H; subst
  | H : Err _ = Ok _ |- _ => discriminate H
  | H : Undef = Ok _ |- _ => discriminate H
  | H : (if ?b then _ else _) = Ok _ |- _ => destruct b eqn:?
  | H : match ?x with _ => _ end = Ok _ |- _ => destruct x eqn:?
  end.
