(* ===== verification/Ebpf.v ===== *)
(** * The instruction set (lib/bpf/ebpf.h)

    The field masks and the opcodes as the header builds them, the instruction
    structure, and its eight-byte encoding on the little-endian targets that
    the JIT and the loader support. *)

From S2P Require Import Prelude.

(** ** Opcode fields *)

Definition EBPF_ALU_OP_MASK : Z := 0xf0.
Definition EBPF_CLS_LD : Z := 0x00.
Definition EBPF_CLS_LDX : Z := 0x01.
Definition EBPF_CLS_ST : Z := 0x02.
Definition EBPF_CLS_STX : Z := 0x03.
Definition EBPF_CLS_ALU : Z := 0x04.
Definition EBPF_CLS_JMP : Z := 0x05.
Definition EBPF_CLS_ALU64 : Z := 0x07.
Definition EBPF_SRC_IMM : Z := 0x00.
Definition EBPF_SRC_REG : Z := 0x08.
Definition EBPF_SIZE_W : Z := 0x00.
Definition EBPF_SIZE_H : Z := 0x08.
Definition EBPF_SIZE_B : Z := 0x10.
Definition EBPF_SIZE_DW : Z := 0x18.
Definition EBPF_MODE_IMM : Z := 0x00.
Definition EBPF_MODE_ABS : Z := 0x20.
Definition EBPF_MODE_IND : Z := 0x40.
Definition EBPF_MODE_MEM : Z := 0x60.
Definition EBPF_MODE_XADD : Z := 0xc0.
Definition EBPF_ALU_ADD : Z := 0x00.
Definition EBPF_ALU_SUB : Z := 0x10.
Definition EBPF_ALU_MUL : Z := 0x20.
Definition EBPF_ALU_DIV : Z := 0x30.
Definition EBPF_ALU_OR : Z := 0x40.
Definition EBPF_ALU_AND : Z := 0x50.
Definition EBPF_ALU_LSH : Z := 0x60.
Definition EBPF_ALU_RSH : Z := 0x70.
Definition EBPF_ALU_NEG : Z := 0x80.
Definition EBPF_ALU_MOD : Z := 0x90.
Definition EBPF_ALU_XOR : Z := 0xa0.
Definition EBPF_ALU_MOV : Z := 0xb0.
Definition EBPF_ALU_ARSH : Z := 0xc0.
Definition EBPF_ALU_END : Z := 0xd0.
Definition EBPF_JMP_JA : Z := 0x00.
Definition EBPF_JMP_JEQ : Z := 0x10.
Definition EBPF_JMP_JGT : Z := 0x20.
Definition EBPF_JMP_JGE : Z := 0x30.
Definition EBPF_JMP_JSET : Z := 0x40.
Definition EBPF_JMP_JNE : Z := 0x50.
Definition EBPF_JMP_JSGT : Z := 0x60.
Definition EBPF_JMP_JSGE : Z := 0x70.
Definition EBPF_JMP_CALL : Z := 0x80.
Definition EBPF_JMP_EXIT : Z := 0x90.

Definition EBPF_CLASS (opcode : Z) : Z := Z.land opcode 0x07.
Definition EBPF_SRC (opcode : Z) : Z := Z.land opcode 0x08.
Definition EBPF_SIZE (opcode : Z) : Z := Z.land opcode 0x18.
Definition EBPF_OP (opcode : Z) : Z := Z.land opcode 0xf0.

(** ** Opcodes

    One constructor per EBPF_OP_ macro, so that a C [switch] on the opcode is
    a [match] on [op_of_opcode]. *)

Inductive ebpf_op : Set :=
| EBPF_OP_ADD_IMM
| EBPF_OP_ADD_REG
| EBPF_OP_SUB_IMM
| EBPF_OP_SUB_REG
| EBPF_OP_MUL_IMM
| EBPF_OP_MUL_REG
| EBPF_OP_DIV_IMM
| EBPF_OP_DIV_REG
| EBPF_OP_OR_IMM
| EBPF_OP_OR_REG
| EBPF_OP_AND_IMM
| EBPF_OP_AND_REG
| EBPF_OP_LSH_IMM
| EBPF_OP_LSH_REG
| EBPF_OP_RSH_IMM
| EBPF_OP_RSH_REG
| EBPF_OP_NEG
| EBPF_OP_MOD_IMM
| EBPF_OP_MOD_REG
| EBPF_OP_XOR_IMM
| EBPF_OP_XOR_REG
| EBPF_OP_MOV_IMM
| EBPF_OP_MOV_REG
| EBPF_OP_ARSH_IMM
| EBPF_OP_ARSH_REG
| EBPF_OP_LE
| EBPF_OP_BE
| EBPF_OP_ADD64_IMM
| EBPF_OP_ADD64_REG
| EBPF_OP_SUB64_IMM
| EBPF_OP_SUB64_REG
| EBPF_OP_MUL64_IMM
| EBPF_OP_MUL64_REG
| EBPF_OP_DIV64_IMM
| EBPF_OP_DIV64_REG
| EBPF_OP_OR64_IMM
| EBPF_OP_OR64_REG
| EBPF_OP_AND64_IMM
| EBPF_OP_AND64_REG
| EBPF_OP_LSH64_IMM
| EBPF_OP_LSH64_REG
| EBPF_OP_RSH64_IMM
| EBPF_OP_RSH64_REG
| EBPF_OP_NEG64
| EBPF_OP_MOD64_IMM
| EBPF_OP_MOD64_REG
| EBPF_OP_XOR64_IMM
| EBPF_OP_XOR64_REG
| EBPF_OP_MOV64_IMM
| EBPF_OP_MOV64_REG
| EBPF_OP_ARSH64_IMM
| EBPF_OP_ARSH64_REG
| EBPF_OP_LDABSB
| EBPF_OP_LDABSH
| EBPF_OP_LDABSW
| EBPF_OP_LDABSDW
| EBPF_OP_LDINDB
| EBPF_OP_LDINDH
| EBPF_OP_LDINDW
| EBPF_OP_LDINDDW
| EBPF_OP_LDXW
| EBPF_OP_LDXH
| EBPF_OP_LDXB
| EBPF_OP_LDXDW
| EBPF_OP_STW
| EBPF_OP_STH
| EBPF_OP_STB
| EBPF_OP_STDW
| EBPF_OP_STXW
| EBPF_OP_STXH
| EBPF_OP_STXB
| EBPF_OP_STXDW
| EBPF_OP_LDDW
| EBPF_OP_JA
| EBPF_OP_JEQ_IMM
| EBPF_OP_JEQ_REG
| EBPF_OP_JGT_IMM
| EBPF_OP_JGT_REG
| EBPF_OP_JGE_IMM
| EBPF_OP_JGE_REG
| EBPF_OP_JSET_REG
| EBPF_OP_JSET_IMM
| EBPF_OP_JNE_IMM
| EBPF_OP_JNE_REG
| EBPF_OP_JSGT_IMM
| EBPF_OP_JSGT_REG
| EBPF_OP_JSGE_IMM
| EBPF_OP_JSGE_REG
| EBPF_OP_CALL
| EBPF_OP_EXIT.

Definition opcode_of (o : ebpf_op) : Z :=
  match o with
  | EBPF_OP_ADD_IMM => Z.lor (Z.lor EBPF_CLS_ALU EBPF_SRC_IMM) EBPF_ALU_ADD
  | EBPF_OP_ADD_REG => Z.lor (Z.lor EBPF_CLS_ALU EBPF_SRC_REG) EBPF_ALU_ADD
  | EBPF_OP_SUB_IMM => Z.lor (Z.lor EBPF_CLS_ALU EBPF_SRC_IMM) EBPF_ALU_SUB
  | EBPF_OP_SUB_REG => Z.lor (Z.lor EBPF_CLS_ALU EBPF_SRC_REG) EBPF_ALU_SUB
  | EBPF_OP_MUL_IMM => Z.lor (Z.lor EBPF_CLS_ALU EBPF_SRC_IMM) EBPF_ALU_MUL
  | EBPF_OP_MUL_REG => Z.lor (Z.lor EBPF_CLS_ALU EBPF_SRC_REG) EBPF_ALU_MUL
  | EBPF_OP_DIV_IMM => Z.lor (Z.lor EBPF_CLS_ALU EBPF_SRC_IMM) EBPF_ALU_DIV
  | EBPF_OP_DIV_REG => Z.lor (Z.lor EBPF_CLS_ALU EBPF_SRC_REG) EBPF_ALU_DIV
  | EBPF_OP_OR_IMM => Z.lor (Z.lor EBPF_CLS_ALU EBPF_SRC_IMM) EBPF_ALU_OR
  | EBPF_OP_OR_REG => Z.lor (Z.lor EBPF_CLS_ALU EBPF_SRC_REG) EBPF_ALU_OR
  | EBPF_OP_AND_IMM => Z.lor (Z.lor EBPF_CLS_ALU EBPF_SRC_IMM) EBPF_ALU_AND
  | EBPF_OP_AND_REG => Z.lor (Z.lor EBPF_CLS_ALU EBPF_SRC_REG) EBPF_ALU_AND
  | EBPF_OP_LSH_IMM => Z.lor (Z.lor EBPF_CLS_ALU EBPF_SRC_IMM) EBPF_ALU_LSH
  | EBPF_OP_LSH_REG => Z.lor (Z.lor EBPF_CLS_ALU EBPF_SRC_REG) EBPF_ALU_LSH
  | EBPF_OP_RSH_IMM => Z.lor (Z.lor EBPF_CLS_ALU EBPF_SRC_IMM) EBPF_ALU_RSH
  | EBPF_OP_RSH_REG => Z.lor (Z.lor EBPF_CLS_ALU EBPF_SRC_REG) EBPF_ALU_RSH
  | EBPF_OP_NEG => Z.lor EBPF_CLS_ALU EBPF_ALU_NEG
  | EBPF_OP_MOD_IMM => Z.lor (Z.lor EBPF_CLS_ALU EBPF_SRC_IMM) EBPF_ALU_MOD
  | EBPF_OP_MOD_REG => Z.lor (Z.lor EBPF_CLS_ALU EBPF_SRC_REG) EBPF_ALU_MOD
  | EBPF_OP_XOR_IMM => Z.lor (Z.lor EBPF_CLS_ALU EBPF_SRC_IMM) EBPF_ALU_XOR
  | EBPF_OP_XOR_REG => Z.lor (Z.lor EBPF_CLS_ALU EBPF_SRC_REG) EBPF_ALU_XOR
  | EBPF_OP_MOV_IMM => Z.lor (Z.lor EBPF_CLS_ALU EBPF_SRC_IMM) EBPF_ALU_MOV
  | EBPF_OP_MOV_REG => Z.lor (Z.lor EBPF_CLS_ALU EBPF_SRC_REG) EBPF_ALU_MOV
  | EBPF_OP_ARSH_IMM => Z.lor (Z.lor EBPF_CLS_ALU EBPF_SRC_IMM) EBPF_ALU_ARSH
  | EBPF_OP_ARSH_REG => Z.lor (Z.lor EBPF_CLS_ALU EBPF_SRC_REG) EBPF_ALU_ARSH
  | EBPF_OP_LE => Z.lor (Z.lor EBPF_CLS_ALU EBPF_SRC_IMM) EBPF_ALU_END
  | EBPF_OP_BE => Z.lor (Z.lor EBPF_CLS_ALU EBPF_SRC_REG) EBPF_ALU_END
  | EBPF_OP_ADD64_IMM => Z.lor (Z.lor EBPF_CLS_ALU64 EBPF_SRC_IMM) EBPF_ALU_ADD
  | EBPF_OP_ADD64_REG => Z.lor (Z.lor EBPF_CLS_ALU64 EBPF_SRC_REG) EBPF_ALU_ADD
  | EBPF_OP_SUB64_IMM => Z.lor (Z.lor EBPF_CLS_ALU64 EBPF_SRC_IMM) EBPF_ALU_SUB
  | EBPF_OP_SUB64_REG => Z.lor (Z.lor EBPF_CLS_ALU64 EBPF_SRC_REG) EBPF_ALU_SUB
  | EBPF_OP_MUL64_IMM => Z.lor (Z.lor EBPF_CLS_ALU64 EBPF_SRC_IMM) EBPF_ALU_MUL
  | EBPF_OP_MUL64_REG => Z.lor (Z.lor EBPF_CLS_ALU64 EBPF_SRC_REG) EBPF_ALU_MUL
  | EBPF_OP_DIV64_IMM => Z.lor (Z.lor EBPF_CLS_ALU64 EBPF_SRC_IMM) EBPF_ALU_DIV
  | EBPF_OP_DIV64_REG => Z.lor (Z.lor EBPF_CLS_ALU64 EBPF_SRC_REG) EBPF_ALU_DIV
  | EBPF_OP_OR64_IMM => Z.lor (Z.lor EBPF_CLS_ALU64 EBPF_SRC_IMM) EBPF_ALU_OR
  | EBPF_OP_OR64_REG => Z.lor (Z.lor EBPF_CLS_ALU64 EBPF_SRC_REG) EBPF_ALU_OR
  | EBPF_OP_AND64_IMM => Z.lor (Z.lor EBPF_CLS_ALU64 EBPF_SRC_IMM) EBPF_ALU_AND
  | EBPF_OP_AND64_REG => Z.lor (Z.lor EBPF_CLS_ALU64 EBPF_SRC_REG) EBPF_ALU_AND
  | EBPF_OP_LSH64_IMM => Z.lor (Z.lor EBPF_CLS_ALU64 EBPF_SRC_IMM) EBPF_ALU_LSH
  | EBPF_OP_LSH64_REG => Z.lor (Z.lor EBPF_CLS_ALU64 EBPF_SRC_REG) EBPF_ALU_LSH
  | EBPF_OP_RSH64_IMM => Z.lor (Z.lor EBPF_CLS_ALU64 EBPF_SRC_IMM) EBPF_ALU_RSH
  | EBPF_OP_RSH64_REG => Z.lor (Z.lor EBPF_CLS_ALU64 EBPF_SRC_REG) EBPF_ALU_RSH
  | EBPF_OP_NEG64 => Z.lor EBPF_CLS_ALU64 EBPF_ALU_NEG
  | EBPF_OP_MOD64_IMM => Z.lor (Z.lor EBPF_CLS_ALU64 EBPF_SRC_IMM) EBPF_ALU_MOD
  | EBPF_OP_MOD64_REG => Z.lor (Z.lor EBPF_CLS_ALU64 EBPF_SRC_REG) EBPF_ALU_MOD
  | EBPF_OP_XOR64_IMM => Z.lor (Z.lor EBPF_CLS_ALU64 EBPF_SRC_IMM) EBPF_ALU_XOR
  | EBPF_OP_XOR64_REG => Z.lor (Z.lor EBPF_CLS_ALU64 EBPF_SRC_REG) EBPF_ALU_XOR
  | EBPF_OP_MOV64_IMM => Z.lor (Z.lor EBPF_CLS_ALU64 EBPF_SRC_IMM) EBPF_ALU_MOV
  | EBPF_OP_MOV64_REG => Z.lor (Z.lor EBPF_CLS_ALU64 EBPF_SRC_REG) EBPF_ALU_MOV
  | EBPF_OP_ARSH64_IMM => Z.lor (Z.lor EBPF_CLS_ALU64 EBPF_SRC_IMM) EBPF_ALU_ARSH
  | EBPF_OP_ARSH64_REG => Z.lor (Z.lor EBPF_CLS_ALU64 EBPF_SRC_REG) EBPF_ALU_ARSH
  | EBPF_OP_LDABSB => Z.lor (Z.lor EBPF_CLS_LD EBPF_MODE_ABS) EBPF_SIZE_B
  | EBPF_OP_LDABSH => Z.lor (Z.lor EBPF_CLS_LD EBPF_MODE_ABS) EBPF_SIZE_H
  | EBPF_OP_LDABSW => Z.lor (Z.lor EBPF_CLS_LD EBPF_MODE_ABS) EBPF_SIZE_W
  | EBPF_OP_LDABSDW => Z.lor (Z.lor EBPF_CLS_LD EBPF_MODE_ABS) EBPF_SIZE_DW
  | EBPF_OP_LDINDB => Z.lor (Z.lor EBPF_CLS_LD EBPF_MODE_IND) EBPF_SIZE_B
  | EBPF_OP_LDINDH => Z.lor (Z.lor EBPF_CLS_LD EBPF_MODE_IND) EBPF_SIZE_H
  | EBPF_OP_LDINDW => Z.lor (Z.lor EBPF_CLS_LD EBPF_MODE_IND) EBPF_SIZE_W
  | EBPF_OP_LDINDDW => Z.lor (Z.lor EBPF_CLS_LD EBPF_MODE_IND) EBPF_SIZE_DW
  | EBPF_OP_LDXW => Z.lor (Z.lor EBPF_CLS_LDX EBPF_MODE_MEM) EBPF_SIZE_W
  | EBPF_OP_LDXH => Z.lor (Z.lor EBPF_CLS_LDX EBPF_MODE_MEM) EBPF_SIZE_H
  | EBPF_OP_LDXB => Z.lor (Z.lor EBPF_CLS_LDX EBPF_MODE_MEM) EBPF_SIZE_B
  | EBPF_OP_LDXDW => Z.lor (Z.lor EBPF_CLS_LDX EBPF_MODE_MEM) EBPF_SIZE_DW
  | EBPF_OP_STW => Z.lor (Z.lor EBPF_CLS_ST EBPF_MODE_MEM) EBPF_SIZE_W
  | EBPF_OP_STH => Z.lor (Z.lor EBPF_CLS_ST EBPF_MODE_MEM) EBPF_SIZE_H
  | EBPF_OP_STB => Z.lor (Z.lor EBPF_CLS_ST EBPF_MODE_MEM) EBPF_SIZE_B
  | EBPF_OP_STDW => Z.lor (Z.lor EBPF_CLS_ST EBPF_MODE_MEM) EBPF_SIZE_DW
  | EBPF_OP_STXW => Z.lor (Z.lor EBPF_CLS_STX EBPF_MODE_MEM) EBPF_SIZE_W
  | EBPF_OP_STXH => Z.lor (Z.lor EBPF_CLS_STX EBPF_MODE_MEM) EBPF_SIZE_H
  | EBPF_OP_STXB => Z.lor (Z.lor EBPF_CLS_STX EBPF_MODE_MEM) EBPF_SIZE_B
  | EBPF_OP_STXDW => Z.lor (Z.lor EBPF_CLS_STX EBPF_MODE_MEM) EBPF_SIZE_DW
  | EBPF_OP_LDDW => Z.lor (Z.lor EBPF_CLS_LD EBPF_MODE_IMM) EBPF_SIZE_DW
  | EBPF_OP_JA => Z.lor EBPF_CLS_JMP EBPF_JMP_JA
  | EBPF_OP_JEQ_IMM => Z.lor (Z.lor EBPF_CLS_JMP EBPF_SRC_IMM) EBPF_JMP_JEQ
  | EBPF_OP_JEQ_REG => Z.lor (Z.lor EBPF_CLS_JMP EBPF_SRC_REG) EBPF_JMP_JEQ
  | EBPF_OP_JGT_IMM => Z.lor (Z.lor EBPF_CLS_JMP EBPF_SRC_IMM) EBPF_JMP_JGT
  | EBPF_OP_JGT_REG => Z.lor (Z.lor EBPF_CLS_JMP EBPF_SRC_REG) EBPF_JMP_JGT
  | EBPF_OP_JGE_IMM => Z.lor (Z.lor EBPF_CLS_JMP EBPF_SRC_IMM) EBPF_JMP_JGE
  | EBPF_OP_JGE_REG => Z.lor (Z.lor EBPF_CLS_JMP EBPF_SRC_REG) EBPF_JMP_JGE
  | EBPF_OP_JSET_REG => Z.lor (Z.lor EBPF_CLS_JMP EBPF_SRC_REG) EBPF_JMP_JSET
  | EBPF_OP_JSET_IMM => Z.lor (Z.lor EBPF_CLS_JMP EBPF_SRC_IMM) EBPF_JMP_JSET
  | EBPF_OP_JNE_IMM => Z.lor (Z.lor EBPF_CLS_JMP EBPF_SRC_IMM) EBPF_JMP_JNE
  | EBPF_OP_JNE_REG => Z.lor (Z.lor EBPF_CLS_JMP EBPF_SRC_REG) EBPF_JMP_JNE
  | EBPF_OP_JSGT_IMM => Z.lor (Z.lor EBPF_CLS_JMP EBPF_SRC_IMM) EBPF_JMP_JSGT
  | EBPF_OP_JSGT_REG => Z.lor (Z.lor EBPF_CLS_JMP EBPF_SRC_REG) EBPF_JMP_JSGT
  | EBPF_OP_JSGE_IMM => Z.lor (Z.lor EBPF_CLS_JMP EBPF_SRC_IMM) EBPF_JMP_JSGE
  | EBPF_OP_JSGE_REG => Z.lor (Z.lor EBPF_CLS_JMP EBPF_SRC_REG) EBPF_JMP_JSGE
  | EBPF_OP_CALL => Z.lor EBPF_CLS_JMP EBPF_JMP_CALL
  | EBPF_OP_EXIT => Z.lor EBPF_CLS_JMP EBPF_JMP_EXIT
  end.

Definition all_ops : list ebpf_op :=
  [EBPF_OP_ADD_IMM; EBPF_OP_ADD_REG; EBPF_OP_SUB_IMM; EBPF_OP_SUB_REG;
   EBPF_OP_MUL_IMM; EBPF_OP_MUL_REG; EBPF_OP_DIV_IMM; EBPF_OP_DIV_REG;
   EBPF_OP_OR_IMM; EBPF_OP_OR_REG; EBPF_OP_AND_IMM; EBPF_OP_AND_REG;
   EBPF_OP_LSH_IMM; EBPF_OP_LSH_REG; EBPF_OP_RSH_IMM; EBPF_OP_RSH_REG;
   EBPF_OP_NEG; EBPF_OP_MOD_IMM; EBPF_OP_MOD_REG; EBPF_OP_XOR_IMM;
   EBPF_OP_XOR_REG; EBPF_OP_MOV_IMM; EBPF_OP_MOV_REG; EBPF_OP_ARSH_IMM;
   EBPF_OP_ARSH_REG; EBPF_OP_LE; EBPF_OP_BE; EBPF_OP_ADD64_IMM;
   EBPF_OP_ADD64_REG; EBPF_OP_SUB64_IMM; EBPF_OP_SUB64_REG; EBPF_OP_MUL64_IMM;
   EBPF_OP_MUL64_REG; EBPF_OP_DIV64_IMM; EBPF_OP_DIV64_REG; EBPF_OP_OR64_IMM;
   EBPF_OP_OR64_REG; EBPF_OP_AND64_IMM; EBPF_OP_AND64_REG; EBPF_OP_LSH64_IMM;
   EBPF_OP_LSH64_REG; EBPF_OP_RSH64_IMM; EBPF_OP_RSH64_REG; EBPF_OP_NEG64;
   EBPF_OP_MOD64_IMM; EBPF_OP_MOD64_REG; EBPF_OP_XOR64_IMM; EBPF_OP_XOR64_REG;
   EBPF_OP_MOV64_IMM; EBPF_OP_MOV64_REG; EBPF_OP_ARSH64_IMM; EBPF_OP_ARSH64_REG;
   EBPF_OP_LDABSB; EBPF_OP_LDABSH; EBPF_OP_LDABSW; EBPF_OP_LDABSDW;
   EBPF_OP_LDINDB; EBPF_OP_LDINDH; EBPF_OP_LDINDW; EBPF_OP_LDINDDW;
   EBPF_OP_LDXW; EBPF_OP_LDXH; EBPF_OP_LDXB; EBPF_OP_LDXDW;
   EBPF_OP_STW; EBPF_OP_STH; EBPF_OP_STB; EBPF_OP_STDW;
   EBPF_OP_STXW; EBPF_OP_STXH; EBPF_OP_STXB; EBPF_OP_STXDW;
   EBPF_OP_LDDW; EBPF_OP_JA; EBPF_OP_JEQ_IMM; EBPF_OP_JEQ_REG;
   EBPF_OP_JGT_IMM; EBPF_OP_JGT_REG; EBPF_OP_JGE_IMM; EBPF_OP_JGE_REG;
   EBPF_OP_JSET_REG; EBPF_OP_JSET_IMM; EBPF_OP_JNE_IMM; EBPF_OP_JNE_REG;
   EBPF_OP_JSGT_IMM; EBPF_OP_JSGT_REG; EBPF_OP_JSGE_IMM; EBPF_OP_JSGE_REG;
   EBPF_OP_CALL; EBPF_OP_EXIT].

Definition op_of_opcode (opcode : Z) : option ebpf_op :=
  List.find (fun o => opcode_of o =? opcode) all_ops.

(** Every opcode value names one constructor: the C [switch] statements have
    no duplicate label. *)
Lemma op_of_opcode_of o : op_of_opcode (opcode_of o) = Some o.
Proof. destruct o; vm_compute; reflexivity. Qed.

Lemma op_of_opcode_Some opcode o : op_of_opcode opcode = Some o <-> opcode_of o = opcode.
Proof.
  split.
  - intros H. apply List.find_some in H as [_ H]. by apply Z.eqb_eq.
  - intros <-. apply op_of_opcode_of.
Qed.

Lemma opcode_of_inj o o' : opcode_of o = opcode_of o' -> o = o'.
Proof. intros H. apply op_of_opcode_Some in H. rewrite op_of_opcode_of in H. congruence. Qed.

(** ** Instructions *)

Record ebpf_inst : Set := mk_inst {
  opcode : Z;
  dst : Z;
  src : Z;
  offset : Z;
  imm : Z
}.

#[export] Instance ebpf_inst_eq_dec : EqDecision ebpf_inst.
Proof. solve_decision. Defined.

Definition wf_inst (i : ebpf_inst) : Prop :=
  in_u 8 (opcode i) /\ in_u 4 (dst i) /\ in_u 4 (src i) /\
  in_s 16 (offset i) /\ in_s 32 (imm i).

(** The bit-fields [dst] and [src] are the low and the high nibble of the
    second byte; [offset] and [imm] are little-endian two's complement. *)
Definition bytes_of_inst (i : ebpf_inst) : list Z :=
  [opcode i; Z.lor (dst i) (Z.shiftl (src i) 4);
   u8 (offset i); u8 (Z.shiftr (offset i) 8);
   u8 (imm i); u8 (Z.shiftr (imm i) 8);
   u8 (Z.shiftr (imm i) 16); u8 (Z.shiftr (imm i) 24)].

Definition inst_of_bytes (b0 b1 b2 b3 b4 b5 b6 b7 : Z) : ebpf_inst :=
  mk_inst b0 (Z.land b1 0xf) (Z.shiftr b1 4)
    (s16 (b2 + Z.shiftl b3 8))
    (s32 (b4 + Z.shiftl b5 8 + Z.shiftl b6 16 + Z.shiftl b7 24)).

(** [memcpy] of a code buffer into an array of instructions; a trailing
    partial instruction is not an element of the array. *)
Fixpoint insts_of_bytes (bs : list Z) : list ebpf_inst :=
  match bs with
  | b0 :: b1 :: b2 :: b3 :: b4 :: b5 :: b6 :: b7 :: rest =>
      inst_of_bytes b0 b1 b2 b3 b4 b5 b6 b7 :: insts_of_bytes rest
  | _ => []
  end.

(** ** The encoding is faithful *)

Lemma nibbles_lo d s : in_u 4 d -> Z.land (Z.lor d (Z.shiftl s 4)) 0xf = d.
Proof.
  intros Hd. change 0xf with (Z.ones 4). apply Z.bits_inj'. intros n Hn.
  rewrite Z.land_spec, Z.lor_spec, Z.shiftl_spec by lia.
  destruct (Z.ltb_spec n 4).
  - rewrite Z.ones_spec_low, (Z.testbit_neg_r s) by lia.
    by rewrite orb_false_r, andb_true_r.
  - rewrite Z.ones_spec_high, andb_false_r by lia.
    symmetry. apply (testbit_out 4); [done|lia].
Qed.

Lemma nibbles_hi d s : in_u 4 d -> Z.shiftr (Z.lor d (Z.shiftl s 4)) 4 = s.
Proof.
  intros Hd. rewrite Z.shiftr_lor, Z.shiftr_shiftl_l by lia.
  rewrite (Z.shiftr_div_pow2 d), Z.div_small by (lia || exact Hd).
  by rewrite Z.lor_0_l, Z.shiftl_0_r.
Qed.

Lemma le16 x : u8 x + Z.shiftl (u8 (Z.shiftr x 8)) 8 = u16 x.
Proof.
  unfold wrap. rewrite Z.shiftl_mul_pow2, Z.shiftr_div_pow2 by lia.
  replace (2 ^ 16) with (2 ^ 8 * 2 ^ 8) by lia. rewrite Z.rem_mul_r by lia. lia.
Qed.

Lemma le32 x :
  u8 x + Z.shiftl (u8 (Z.shiftr x 8)) 8 + Z.shiftl (u8 (Z.shiftr x 16)) 16
    + Z.shiftl (u8 (Z.shiftr x 24)) 24 = u32 x.
Proof.
  rewrite le16. unfold wrap. rewrite !Z.shiftl_mul_pow2, !Z.shiftr_div_pow2 by lia.
  replace (2 ^ 32) with (2 ^ 16 * (2 ^ 8 * 2 ^ 8)) by lia.
  rewrite (Z.rem_mul_r x (2 ^ 16)) by lia.
  rewrite (Z.rem_mul_r (x / 2 ^ 16)) by lia.
  rewrite Z.div_div by lia. change (2 ^ 16 * 2 ^ 8) with (2 ^ 24). lia.
Qed.

Lemma inst_bytes_roundtrip i :
  wf_inst i -> insts_of_bytes (bytes_of_inst i) = [i].
Proof.
  destruct i as [o d s off im]. unfold wf_inst. simpl. intros (Ho & Hd & Hs & Hoff & Him).
  unfold inst_of_bytes. rewrite nibbles_lo, nibbles_hi, le16, le32 by done.
  rewrite !sext_wrap, !sext_small by (lia || done). done.
Qed.

Lemma insts_bytes_app i bs :
  wf_inst i -> insts_of_bytes (bytes_of_inst i ++ bs) = i :: insts_of_bytes bs.
Proof.
  intros Hi. apply inst_bytes_roundtrip in Hi. simpl in *. by injection Hi as ->.
Qed.

Lemma wf_inst_of_bytes b0 b1 b2 b3 b4 b5 b6 b7 :
  in_u 8 b0 -> in_u 8 b1 -> wf_inst (inst_of_bytes b0 b1 b2 b3 b4 b5 b6 b7).
Proof.
  intros H0 H1. unfold wf_inst, inst_of_bytes; simpl. repeat split.
  1,2: apply H0.
  - apply Z.land_nonneg. lia.
  - change 0xf with (Z.ones 4). rewrite Z.land_ones by lia. word_lia.
  - apply Z.shiftr_nonneg. apply H1.
  - rewrite Z.shiftr_div_pow2 by lia. word_lia.
  - apply sext_range. lia.
  - apply sext_range. lia.
  - apply sext_range. lia.
  - apply sext_range. lia.
Qed.

(** A buffer of well-formed instructions decodes to those instructions: what
    [memcpy] leaves in [vm->insts] is the program that was encoded. *)
Lemma insts_bytes_roundtrip l :
  Forall wf_inst l -> insts_of_bytes (concat (bytes_of_inst <$> l)) = l.
Proof.
  induction 1 as [|i l Hi _ IH]; [done|].
  rewrite fmap_cons. cbn [concat]. by rewrite insts_bytes_app, IH.
Qed.

Lemma length_insts_of_bytes n bs :
  length bs = (8 * n)%nat -> length (insts_of_bytes bs) = n.
Proof.
  revert bs. induction n as [|n IH]; intros bs Hl.
  - by destruct bs.
  - do 8 (destruct bs as [|? bs]; [simpl in Hl; lia|]).
    cbn [insts_of_bytes length]. f_equal. apply IH. simpl in Hl. lia.
Qed.
