(* ===== verification/Memory.v ===== *)
(** * Byte-addressed memory

    The interpreter and the helper functions read and write raw addresses: the
    memory is a finite map from 64-bit addresses to byte values, and an access
    to an address outside its domain has no meaning ([None]).  Multi-byte
    accesses are little-endian, as on the x86-64 target of the JIT. *)

From S2P Require Import Prelude.

Abbreviation memory := (gmap Z Z).

Definition wf_memory (m : memory) : Prop := forall a b, m !! a = Some b -> in_u 8 b.

(** [*(uintN_t * )a] for [n] bytes. *)
Fixpoint load_le (m : memory) (a : Z) (n : nat) : option Z :=
  match n with
  | O => Some 0
  | S n' =>
      b ← m !! a;
      r ← load_le m (a + 1) n';
      Some (b + 256 * r)
  end.

(** [*(uintN_t * )a = v] for [n] bytes. *)
Fixpoint store_le (m : memory) (a : Z) (n : nat) (v : Z) : option memory :=
  match n with
  | O => Some m
  | S n' =>
      match m !! a with
      | Some _ => store_le (<[a := u8 v]> m) (a + 1) n' (v / 256)
      | None => None
      end
  end.

Definition mapped (m : memory) (a : Z) (n : nat) : Prop :=
  forall i, a <= i < a + Z.of_nat n -> is_Some (m !! i).

Lemma load_le_mapped m a n : mapped m a n <-> is_Some (load_le m a n).
Proof.
  revert a. induction n as [|n IH]; intros a; simpl.
  - split; [eauto|]. intros _ i Hi. lia.
  - split.
    + intros H. destruct (H a ltac:(lia)) as [b Hb]. rewrite Hb. simpl.
      destruct (proj1 (IH (a + 1))) as [r Hr].
      { intros i Hi. apply H. lia. }
      rewrite Hr. simpl. eauto.
    + intros [v Hv] i Hi. destruct (m !! a) as [b|] eqn:Hb; [|done]. simpl in Hv.
      destruct (load_le m (a + 1) n) as [r|] eqn:Hr; [|done].
      destruct (Z.eq_dec i a) as [->|Hne]; [eauto|].
      apply (proj2 (IH (a + 1))); [eauto|lia].
Qed.

Lemma load_le_range m a n v :
  wf_memory m -> load_le m a n = Some v -> 0 <= v < 256 ^ Z.of_nat n.
Proof.
  intros Hm. revert a v. induction n as [|n IH]; intros a v; simpl.
  - intros [= <-]. lia.
  - destruct (m !! a) as [b|] eqn:Hb; [|done]. simpl.
    destruct (load_le m (a + 1) n) as [r|] eqn:Hr; [|done]. intros [= <-].
    specialize (IH _ _ Hr). specialize (Hm _ _ Hb). unfold in_u in Hm.
    rewrite Nat2Z.inj_succ, Z.pow_succ_r by lia. lia.
Qed.

Lemma store_le_mapped m a n v : mapped m a n <-> is_Some (store_le m a n v).
Proof.
  revert m a v. induction n as [|n IH]; intros m a v; simpl.
  - split; [eauto|]. intros _ i Hi. lia.
  - destruct (m !! a) as [b|] eqn:Hb.
    + rewrite <- IH. split.
      * intros H i Hi. rewrite lookup_insert_ne by lia. apply H. lia.
      * intros H i Hi. destruct (Z.eq_dec i a) as [->|Hne]; [eauto|].
        specialize (H i ltac:(lia)). by rewrite lookup_insert_ne in H by lia.
    + split; [|by intros [? ?]]. intros H. destruct (H a ltac:(lia)). congruence.
Qed.

(** A store changes nothing outside its range and keeps the domain. *)
Lemma store_le_frame m a n v m' i :
  store_le m a n v = Some m' -> ~ (a <= i < a + Z.of_nat n) -> m' !! i = m !! i.
Proof.
  revert m a v. induction n as [|n IH]; intros m a v; simpl.
  - by intros [= <-].
  - destruct (m !! a) as [b|]; [|done]. intros H Hi.
    rewrite (IH _ _ _ H) by lia. apply lookup_insert_ne. lia.
Qed.

Lemma store_le_dom m a n v m' : store_le m a n v = Some m' -> dom m' = dom m.
Proof.
  revert m a v. induction n as [|n IH]; intros m a v; simpl.
  - by intros [= <-].
  - destruct (m !! a) as [b|] eqn:Hb; [|done]. intros H.
    rewrite (IH _ _ _ H). rewrite dom_insert_L.
    apply subseteq_union_1_L, singleton_subseteq_l, elem_of_dom. eauto.
Qed.

Lemma store_le_wf m a n v m' : wf_memory m -> store_le m a n v = Some m' -> wf_memory m'.
Proof.
  revert m a v. induction n as [|n IH]; intros m a v Hm; simpl.
  - by intros [= <-].
  - destruct (m !! a); [|done]. apply IH. intros i b.
    destruct (decide (a = i)) as [->|Hne].
    + rewrite lookup_insert_eq. intros [= <-]. apply wrap_range. lia.
    + rewrite lookup_insert_ne by done. apply Hm.
Qed.

Lemma load_le_ext m m' a n :
  (forall i, a <= i < a + Z.of_nat n -> m' !! i = m !! i) ->
  load_le m' a n = load_le m a n.
Proof.
  revert a. induction n as [|n IH]; intros a H; simpl; [done|].
  rewrite (H a) by lia. rewrite (IH (a + 1)); [done|]. intros i Hi. apply H. lia.
Qed.

(** Reading back what was stored gives the value modulo the access width. *)
Lemma load_store_le m a n v m' :
  store_le m a n v = Some m' -> load_le m' a n = Some (v mod 256 ^ Z.of_nat n).
Proof.
  revert m a v. induction n as [|n IH]; intros m a v; simpl.
  - intros _. by rewrite Z.mod_1_r.
  - destruct (m !! a) as [b|]; [|done]. intros H.
    rewrite (store_le_frame _ _ _ _ _ a H) by lia. rewrite lookup_insert_eq. simpl.
    rewrite (IH _ _ _ H). simpl. f_equal.
    rewrite Nat2Z.inj_succ, Z.pow_succ_r by lia. unfold wrap.
    change (2 ^ 8) with 256. rewrite Z.rem_mul_r; [done|lia|].
    apply Z.pow_pos_nonneg; lia.
Qed.
