(* ===== verification/Vm.v ===== *)
(** * The virtual machine object (lib/bpf/ubpf_int.h, lib/bpf/ubpf_vm.c)

    [ubpf_vm] with its tables of external functions and maps, and the
    operations that register and look up entries.  An external function is the
    C function behind the pointer: it receives the five argument registers and
    the memory and, unless it faults, returns its result and the memory it
    leaves.  The fields that only the JIT uses are not part of the record. *)

From S2P Require Import Prelude Ebpf Memory.

Definition MAX_INSTS : Z := 65536.
Definition STACK_SIZE : Z := 1024.
Definition NB_FUNC_ARGS : Z := 5.
Definition MAX_SIZE_ARG : Z := 8.
Definition UBPF_ADJUST_HEAD_ID : Z := 8.
Definition BPF_PSEUDO_MAP_FD : Z := 1.
Definition MAX_EXT_FUNCS : Z := 64.
Definition MAX_EXT_MAPS : Z := 64.
Definition NB_REGS : Z := 11.
#[export] Hint Unfold MAX_INSTS STACK_SIZE NB_FUNC_ARGS MAX_SIZE_ARG UBPF_ADJUST_HEAD_ID
  BPF_PSEUDO_MAP_FD MAX_EXT_FUNCS MAX_EXT_MAPS NB_REGS : consts.

(** [enum ubpf_reg_type]: flags that prototypes combine with [|]. *)
Definition UNINIT : Z := 0.
Definition UNKNOWN : Z := 1.
Definition NULL_VALUE : Z := 2.
Definition IMM : Z := 4.
Definition MAP_PTR : Z := 8.
Definition MAP_VALUE_PTR : Z := 16.
Definition PKT_PTR : Z := 32.
Definition PKT_SIZE : Z := 64.
Definition STACK_PTR : Z := 128.
Definition CTX_PTR : Z := 256.
#[export] Hint Unfold UNINIT UNKNOWN NULL_VALUE IMM MAP_PTR MAP_VALUE_PTR PKT_PTR PKT_SIZE
  STACK_PTR CTX_PTR : consts.

(** [enum ubpf_arg_size]. *)
Definition SIZE_64 : Z := 0.
Definition SIZE_MAP_KEY : Z := 1.
Definition SIZE_MAP_VALUE : Z := 2.
Definition SIZE_PTR_MAX : Z := 3.
#[export] Hint Unfold SIZE_64 SIZE_MAP_KEY SIZE_MAP_VALUE SIZE_PTR_MAX : consts.

Definition ext_func : Type := list Z -> memory -> option (Z * memory).

Record ubpf_func_proto : Type := mk_proto {
  func : option ext_func;
  arg_types : list Z;
  arg_sizes : list Z;
  ret : Z
}.

(** What [xcalloc] leaves in an unused slot of [ext_funcs]. *)
Definition null_proto : ubpf_func_proto :=
  mk_proto None (replicate 5 UNINIT) (replicate 5 SIZE_64) UNINIT.

(** [ext_maps] holds pointers: addresses, 0 for NULL. *)
Record ubpf_vm : Type := mk_vm {
  prog_id : Z;
  insts : option (list ebpf_inst);
  num_insts : Z;
  ext_funcs : list ubpf_func_proto;
  ext_func_names : list (option string);
  ext_maps : list Z;
  ext_map_names : list (option string);
  nb_maps : Z;
  loaded_at : Z
}.

Definition ubpf_create (prog_id : Z) : ubpf_vm :=
  mk_vm prog_id None 0
    (replicate (Z.to_nat MAX_EXT_FUNCS) null_proto)
    (replicate (Z.to_nat MAX_EXT_FUNCS) None)
    (replicate (Z.to_nat MAX_EXT_MAPS) 0)
    (replicate (Z.to_nat MAX_EXT_MAPS) None)
    0 0.

(** Returns the C status (0 or -1) and the updated machine. *)
Definition ubpf_register_function (vm : ubpf_vm) (idx : Z) (name : string)
    (proto : ubpf_func_proto) : Z * ubpf_vm :=
  if MAX_EXT_FUNCS <=? idx then (-1, vm)
  else
    (0, mk_vm (prog_id vm) (insts vm) (num_insts vm)
          (<[Z.to_nat idx := proto]> (ext_funcs vm))
          (<[Z.to_nat idx := Some name]> (ext_func_names vm))
          (ext_maps vm) (ext_map_names vm) (nb_maps vm) (loaded_at vm)).

Definition ubpf_register_map (vm : ubpf_vm) (name : string) (map : Z) : Z * ubpf_vm :=
  let idx := nb_maps vm in
  if MAX_EXT_MAPS <=? idx then (-1, vm)
  else
    (0, mk_vm (prog_id vm) (insts vm) (num_insts vm) (ext_funcs vm) (ext_func_names vm)
          (<[Z.to_nat idx := map]> (ext_maps vm))
          (<[Z.to_nat idx := Some name]> (ext_map_names vm))
          (u16 (nb_maps vm + 1)) (loaded_at vm)).

(** [other && !strcmp(other, name)]. *)
Definition name_matches (name : string) (other : option string) : bool :=
  match other with Some o => String.eqb o name | None => false end.

(** The scan of a name table: the first matching index from [i] on. *)
Fixpoint scan_names (name : string) (names : list (option string)) (i : Z) : option Z :=
  match names with
  | [] => None
  | o :: rest => if name_matches name o then Some i else scan_names name rest (i + 1)
  end.

(** Returns [unsigned int]: the C [-1] is [UINT32_MAX]. *)
Definition ubpf_lookup_registered_function (vm : ubpf_vm) (name : string) : Z :=
  match scan_names name (ext_func_names vm) 0 with
  | Some i => i
  | None => UINT32_MAX
  end.

(** Returns the pointer, 0 for NULL. *)
Definition ubpf_lookup_registered_map (vm : ubpf_vm) (name : string) : Z :=
  match scan_names name (ext_map_names vm) 0 with
  | Some i => default 0 (ext_maps vm !! Z.to_nat i)
  | None => 0
  end.

(** ** Well-formed machines *)

Record wf_vm (vm : ubpf_vm) : Prop := {
  wf_funcs : length (ext_funcs vm) = Z.to_nat MAX_EXT_FUNCS;
  wf_func_names : length (ext_func_names vm) = Z.to_nat MAX_EXT_FUNCS;
  wf_maps : length (ext_maps vm) = Z.to_nat MAX_EXT_MAPS;
  wf_map_names : length (ext_map_names vm) = Z.to_nat MAX_EXT_MAPS;
  wf_nb_maps : 0 <= nb_maps vm <= MAX_EXT_MAPS;
  (* the slots from [nb_maps] on are still empty *)
  wf_free_names : forall i, nb_maps vm <= Z.of_nat i < MAX_EXT_MAPS ->
                            ext_map_names vm !! i = Some None
}.

Lemma wf_ubpf_create p : wf_vm (ubpf_create p).
Proof.
  split; unfold ubpf_create; cbn -[replicate]; rewrite ?length_replicate; try done.
  intros i Hi. apply lookup_replicate_2. clia.
Qed.

Lemma scan_names_spec name names i j :
  scan_names name names i = Some j ->
  i <= j /\ exists o, names !! Z.to_nat (j - i) = Some (Some o) /\ o = name.
Proof.
  revert i. induction names as [|o names IH]; intros i; simpl; [done|].
  destruct (name_matches name o) eqn:E.
  - intros [= <-]. rewrite Z.sub_diag. split; [lia|]. destruct o as [o|]; [|done].
    apply String.eqb_eq in E. simpl. eauto.
  - intros H%IH. destruct H as (Hle & o' & Ho' & ->). split; [lia|].
    exists name. split; [|done].
    replace (Z.to_nat (j - i)) with (S (Z.to_nat (j - (i + 1)))) by lia. done.
Qed.

Lemma scan_names_None name names i :
  scan_names name names i = None <-> forall k, names !! k <> Some (Some name).
Proof.
  revert i. induction names as [|o names IH]; intros i; simpl.
  - split; [intros _ k; by rewrite lookup_nil|done].
  - destruct (name_matches name o) eqn:E.
    + split; [done|]. intros H. destruct o as [o|]; [|done].
      apply String.eqb_eq in E as ->. by specialize (H 0%nat).
    + rewrite IH. split; intros H k.
      * destruct k as [|k]; [|apply H]. simpl. intros [= ->]. simpl in E.
        by rewrite String.eqb_refl in E.
      * apply (H (S k)).
Qed.

Lemma scan_names_insert_fresh name names k i :
  (forall j, names !! j <> Some (Some name)) -> (k < length names)%nat ->
  scan_names name (<[k := Some name]> names) i = Some (i + Z.of_nat k).
Proof.
  revert k i. induction names as [|o names IH]; intros k i Hf Hk; simpl in *; [lia|].
  destruct k as [|k]; simpl.
  - rewrite String.eqb_refl. f_equal. lia.
  - destruct (name_matches name o) eqn:E.
    { destruct o as [o|]; [|done]. apply String.eqb_eq in E as ->.
      by specialize (Hf 0%nat). }
    rewrite IH; [f_equal; lia| |lia]. intros j. apply (Hf (S j)).
Qed.

Lemma scan_names_insert_other name name' names k i :
  name' <> name -> names !! k = Some None ->
  scan_names name (<[k := Some name']> names) i = scan_names name names i.
Proof.
  intros Hne. revert k i. induction names as [|o names IH]; intros k i Hk; simpl in *; [done|].
  destruct k as [|k]; simpl.
  - injection Hk as ->. simpl.
    destruct (String.eqb_spec name' name); [done|reflexivity].
  - destruct (name_matches name o); [done|]. by apply IH.
Qed.

Lemma ubpf_register_function_wf vm idx name proto :
  wf_vm vm -> wf_vm (ubpf_register_function vm idx name proto).2.
Proof.
  intros [H1 H2 H3 H4 H5 H6]. unfold ubpf_register_function.
  case_match; [by split|]. split; simpl; rewrite ?length_insert; done.
Qed.

Lemma ubpf_register_map_wf vm name map :
  wf_vm vm -> wf_vm (ubpf_register_map vm name map).2.
Proof.
  intros [H1 H2 H3 H4 H5 H6]. unfold ubpf_register_map.
  destruct (Z.leb_spec MAX_EXT_MAPS (nb_maps vm)); [by split|].
  assert (u16 (nb_maps vm + 1) = nb_maps vm + 1) as E
    by (apply wrap_small; unfold in_u; clia).
  split; simpl; rewrite ?length_insert, ?E; try done; [clia|].
  intros i Hi. rewrite list_lookup_insert_ne by lia. apply H6. lia.
Qed.

(** A registered map is found under its name, and the registration fails
    exactly when the table is full. *)
Lemma register_map_lookup vm name map :
  wf_vm vm ->
  (forall k, ext_map_names vm !! k <> Some (Some name)) ->
  match ubpf_register_map vm name map with
  | (r, vm') =>
      (r = -1 /\ nb_maps vm = MAX_EXT_MAPS /\ vm' = vm) \/
      (r = 0 /\ nb_maps vm' = nb_maps vm + 1 /\
       ubpf_lookup_registered_map vm' name = map /\
       forall name', name' <> name ->
         ubpf_lookup_registered_map vm' name' = ubpf_lookup_registered_map vm name')
  end.
Proof.
  intros Hwf Hfresh. pose proof Hwf as [H1 H2 H3 H4 H5 H6].
  unfold ubpf_register_map. destruct (Z.leb_spec MAX_EXT_MAPS (nb_maps vm)) as [Hf|Hf].
  - left. repeat split. lia.
  - right. split; [done|]. split; [simpl; apply wrap_small; unfold in_u; clia|].
    unfold ubpf_lookup_registered_map; simpl. split.
    + rewrite scan_names_insert_fresh by (try done; clia).
      replace (Z.to_nat (0 + Z.of_nat (Z.to_nat (nb_maps vm)))) with (Z.to_nat (nb_maps vm)) by lia.
      rewrite list_lookup_insert_eq by clia. done.
    + intros name' Hne. rewrite scan_names_insert_other by (try done; apply H6; lia).
      destruct (scan_names name' (ext_map_names vm) 0) as [j|] eqn:E; [|done].
      apply scan_names_spec in E as (Hj & o & Ho & ->).
      rewrite list_lookup_insert_ne; [done|]. intros Heq.
      rewrite Z.sub_0_r, <- Heq, H6 in Ho by lia. done.
Qed.

(** The lookup of a function returns the first slot holding the name, and
    [UINT32_MAX] exactly when no slot holds it. *)
Lemma lookup_registered_function_spec vm name :
  wf_vm vm ->
  let i := ubpf_lookup_registered_function vm name in
  (i = UINT32_MAX /\ (forall k, ext_func_names vm !! k <> Some (Some name))) \/
  (0 <= i < MAX_EXT_FUNCS /\ ext_func_names vm !! Z.to_nat i = Some (Some name)).
Proof.
  intros Hwf. unfold ubpf_lookup_registered_function. cbv zeta.
  destruct (scan_names name (ext_func_names vm) 0) as [j|] eqn:E.
  - right. apply scan_names_spec in E as (Hj & o & Ho & ->).
    rewrite Z.sub_0_r in Ho. split; [|done].
    apply lookup_lt_Some in Ho. rewrite (wf_func_names vm Hwf) in Ho. clia.
  - left. split; [done|]. by eapply scan_names_None.
Qed.
