(* ===== verification/Interp.v ===== *)
(** * The interpreter (lib/bpf/ubpf_vm.c, [ubpf_exec] and [bounds_check])

    Registers are 64-bit unsigned, the program counter is a [uint16_t], and
    memory is byte-addressed.  The [switch] of the C loop is cut where the
    source groups its cases: 32-bit ALU, 64-bit ALU, loads and stores, jumps;
    each group is a function that answers [None] for an opcode it does not
    handle.  An opcode with no [case] does nothing, as in C. *)

From S2P Require Import Prelude Ebpf Memory Vm.

(** ** State *)

(** Where the program's context and its stack live. *)
Record exec_env : Type := mk_env {
  mem_base : Z;
  mem_len : Z;
  stack_base : Z
}.

Record exec_state : Type := mk_state {
  pc : Z;
  reg : list Z;
  mem : memory
}.

(** One iteration of the loop: go on, return a value, or leave the C
    semantics. *)
Inductive step_result : Type :=
| Continue (st : exec_state)
| Return (v : Z) (m : memory)
| Crash.

Definition rget (r : list Z) (i : Z) : Z := default 0 (r !! Z.to_nat i).
Definition rset (r : list Z) (i v : Z) : list Z := <[Z.to_nat i := v]> r.

(** ** Arithmetic *)

(** The value an ALU case assigns to [reg[inst.dst]], the early return on a
    zero divisor, or an undefined operation. *)
Inductive alu_result : Type :=
| AVal (v : Z)
| ADivZero
| AUndef.

Definition alu_opt (f : Z -> Z) (o : option Z) : alu_result :=
  match o with Some v => AVal (f v) | None => AUndef end.

(** [reg[inst.dst] &= UINT32_MAX]. *)
Definition mask32 (x : Z) : Z := Z.land x UINT32_MAX.

Definition bswap16 (x : Z) : Z :=
  Z.lor (Z.shiftl (u8 x) 8) (u8 (Z.shiftr x 8)).
Definition bswap32 (x : Z) : Z :=
  Z.lor (Z.shiftl (bswap16 x) 16) (bswap16 (Z.shiftr x 16)).
Definition bswap64 (x : Z) : Z :=
  Z.lor (Z.shiftl (bswap32 x) 32) (bswap32 (Z.shiftr x 32)).

(** [d] is [reg[inst.dst]], [s] is [reg[inst.src]], [i] is [inst.imm] (an
    [int32_t], converted to [uint64_t] where it meets a register). *)
Definition exec_alu32 (o : ebpf_op) (d s i : Z) : option alu_result :=
  match o with
  | EBPF_OP_ADD_IMM => Some (AVal (mask32 (u64 (d + i))))
  | EBPF_OP_ADD_REG => Some (AVal (mask32 (u64 (d + s))))
  | EBPF_OP_SUB_IMM => Some (AVal (mask32 (u64 (d - i))))
  | EBPF_OP_SUB_REG => Some (AVal (mask32 (u64 (d - s))))
  | EBPF_OP_MUL_IMM => Some (AVal (mask32 (u64 (d * i))))
  | EBPF_OP_MUL_REG => Some (AVal (mask32 (u64 (d * s))))
  | EBPF_OP_DIV_IMM => Some (alu_opt mask32 (udiv (u32 d) (u32 i)))
  | EBPF_OP_DIV_REG =>
      Some (if s =? 0 then ADivZero else alu_opt mask32 (udiv (u32 d) (u32 s)))
  | EBPF_OP_OR_IMM => Some (AVal (mask32 (Z.lor d (u64 i))))
  | EBPF_OP_OR_REG => Some (AVal (mask32 (Z.lor d s)))
  | EBPF_OP_AND_IMM => Some (AVal (mask32 (Z.land d (u64 i))))
  | EBPF_OP_AND_REG => Some (AVal (mask32 (Z.land d s)))
  | EBPF_OP_LSH_IMM => Some (alu_opt mask32 (shl 64 d i))
  | EBPF_OP_LSH_REG => Some (alu_opt mask32 (shl 64 d s))
  | EBPF_OP_RSH_IMM => Some (alu_opt mask32 (shr 32 (u32 d) i))
  | EBPF_OP_RSH_REG => Some (alu_opt mask32 (shr 32 (u32 d) s))
  | EBPF_OP_NEG => Some (AVal (mask32 (u64 (- d))))
  | EBPF_OP_MOD_IMM => Some (alu_opt mask32 (umod (u32 d) (u32 i)))
  | EBPF_OP_MOD_REG =>
      Some (if s =? 0 then ADivZero else alu_opt (fun x => x) (umod (u32 d) (u32 s)))
  | EBPF_OP_XOR_IMM => Some (AVal (mask32 (Z.lxor d (u64 i))))
  | EBPF_OP_XOR_REG => Some (AVal (mask32 (Z.lxor d s)))
  | EBPF_OP_MOV_IMM => Some (AVal (mask32 (u64 i)))
  | EBPF_OP_MOV_REG => Some (AVal (mask32 s))
  | EBPF_OP_ARSH_IMM => Some (alu_opt (fun x => mask32 (u64 x)) (shr 32 (s32 d) i))
  | EBPF_OP_ARSH_REG => Some (alu_opt (fun x => mask32 (u64 x)) (shr 32 (s32 d) (u32 s)))
  | EBPF_OP_LE =>
      Some (AVal (if i =? 16 then u16 d
                  else if i =? 32 then u32 d
                  else if i =? 64 then u64 d else d))
  | EBPF_OP_BE =>
      Some (AVal (if i =? 16 then bswap16 (u16 d)
                  else if i =? 32 then bswap32 (u32 d)
                  else if i =? 64 then bswap64 (u64 d) else d))
  | _ => None
  end.

Definition exec_alu64 (o : ebpf_op) (d s i : Z) : option alu_result :=
  match o with
  | EBPF_OP_ADD64_IMM => Some (AVal (u64 (d + i)))
  | EBPF_OP_ADD64_REG => Some (AVal (u64 (d + s)))
  | EBPF_OP_SUB64_IMM => Some (AVal (u64 (d - i)))
  | EBPF_OP_SUB64_REG => Some (AVal (u64 (d - s)))
  | EBPF_OP_MUL64_IMM => Some (AVal (u64 (d * i)))
  | EBPF_OP_MUL64_REG => Some (AVal (u64 (d * s)))
  | EBPF_OP_DIV64_IMM => Some (alu_opt (fun x => x) (udiv d (u64 i)))
  | EBPF_OP_DIV64_REG =>
      Some (if s =? 0 then ADivZero else alu_opt (fun x => x) (udiv d s))
  | EBPF_OP_OR64_IMM => Some (AVal (Z.lor d (u64 i)))
  | EBPF_OP_OR64_REG => Some (AVal (Z.lor d s))
  | EBPF_OP_AND64_IMM => Some (AVal (Z.land d (u64 i)))
  | EBPF_OP_AND64_REG => Some (AVal (Z.land d s))
  | EBPF_OP_LSH64_IMM => Some (alu_opt (fun x => x) (shl 64 d i))
  | EBPF_OP_LSH64_REG => Some (alu_opt (fun x => x) (shl 64 d s))
  | EBPF_OP_RSH64_IMM => Some (alu_opt (fun x => x) (shr 64 d i))
  | EBPF_OP_RSH64_REG => Some (alu_opt (fun x => x) (shr 64 d s))
  | EBPF_OP_NEG64 => Some (AVal (u64 (- d)))
  | EBPF_OP_MOD64_IMM => Some (alu_opt (fun x => x) (umod d (u64 i)))
  | EBPF_OP_MOD64_REG =>
      Some (if s =? 0 then ADivZero else alu_opt (fun x => x) (umod d s))
  | EBPF_OP_XOR64_IMM => Some (AVal (Z.lxor d (u64 i)))
  | EBPF_OP_XOR64_REG => Some (AVal (Z.lxor d s))
  | EBPF_OP_MOV64_IMM => Some (AVal (u64 i))
  | EBPF_OP_MOV64_REG => Some (AVal s)
  | EBPF_OP_ARSH64_IMM => Some (alu_opt u64 (shr 64 (s64 d) i))
  | EBPF_OP_ARSH64_REG => Some (alu_opt u64 (shr 64 (s64 d) s))
  | _ => None
  end.

(** ** Memory accesses *)

Definition bounds_check (addr size mem mem_len stack : Z) : bool :=
  if negb (mem =? 0) && ((mem <=? addr) && (u64 (addr + size) <=? u64 (mem + mem_len)))
  then true
  else if (stack <=? addr) && (u64 (addr + size) <=? u64 (stack + STACK_SIZE))
  then true
  else false.

Definition env_check (env : exec_env) (addr size : Z) : bool :=
  bounds_check addr size (mem_base env) (mem_len env) (stack_base env).

(** BOUNDS_CHECK_LOAD(n), then [reg[inst.dst] = *(uintN_t * )addr]. *)
Definition exec_load (env : exec_env) (i : ebpf_inst) (n : nat) (st : exec_state) : step_result :=
  let addr := u64 (rget (reg st) (src i) + offset i) in
  if env_check env addr (Z.of_nat n) then
    match load_le (mem st) addr n with
    | Some v => Continue (mk_state (pc st) (rset (reg st) (dst i) v) (mem st))
    | None => Crash
    end
  else Return UINT64_MAX (mem st).

(** BOUNDS_CHECK_STORE(n), then [*(uintN_t * )addr = v]. *)
Definition exec_store (env : exec_env) (i : ebpf_inst) (n : nat) (v : Z) (st : exec_state) : step_result :=
  let addr := u64 (rget (reg st) (dst i) + offset i) in
  if env_check env addr (Z.of_nat n) then
    match store_le (mem st) addr n v with
    | Some m => Continue (mk_state (pc st) (reg st) m)
    | None => Crash
    end
  else Return UINT64_MAX (mem st).

(** [st] is the state after [pc++]. *)
Definition exec_mem (env : exec_env) (prog : list ebpf_inst) (o : ebpf_op)
    (i : ebpf_inst) (st : exec_state) : option step_result :=
  let s := rget (reg st) (src i) in
  match o with
  | EBPF_OP_LDXW => Some (exec_load env i 4 st)
  | EBPF_OP_LDXH => Some (exec_load env i 2 st)
  | EBPF_OP_LDXB => Some (exec_load env i 1 st)
  | EBPF_OP_LDXDW => Some (exec_load env i 8 st)
  | EBPF_OP_STW => Some (exec_store env i 4 (imm i) st)
  | EBPF_OP_STH => Some (exec_store env i 2 (imm i) st)
  | EBPF_OP_STB => Some (exec_store env i 1 (imm i) st)
  | EBPF_OP_STDW => Some (exec_store env i 8 (imm i) st)
  | EBPF_OP_STXW => Some (exec_store env i 4 s st)
  | EBPF_OP_STXH => Some (exec_store env i 2 s st)
  | EBPF_OP_STXB => Some (exec_store env i 1 s st)
  | EBPF_OP_STXDW => Some (exec_store env i 8 s st)
  | EBPF_OP_LDDW =>
      Some match prog !! Z.to_nat (pc st) with
           | Some i2 =>
               let v := Z.lor (u32 (imm i)) (u64 (Z.shiftl (imm i2) 32)) in
               Continue (mk_state (u16 (pc st + 1)) (rset (reg st) (dst i) v) (mem st))
           | None => Crash
           end
  | _ => None
  end.

(** ** Jumps *)

(** The condition of a conditional jump; the immediate is compared as the C
    conversions make it: sign-extended to 64 bits for JEQ, JNE and JSET,
    zero-extended from 32 bits for JGT and JGE, as a signed integer for JSGT
    and JSGE. *)
Definition jump_taken (o : ebpf_op) (d s i : Z) : option bool :=
  match o with
  | EBPF_OP_JA => Some true
  | EBPF_OP_JEQ_IMM => Some (d =? u64 i)
  | EBPF_OP_JEQ_REG => Some (d =? s)
  | EBPF_OP_JGT_IMM => Some (u32 i <? d)
  | EBPF_OP_JGT_REG => Some (s <? d)
  | EBPF_OP_JGE_IMM => Some (u32 i <=? d)
  | EBPF_OP_JGE_REG => Some (s <=? d)
  | EBPF_OP_JSET_IMM => Some (negb (Z.land d (u64 i) =? 0))
  | EBPF_OP_JSET_REG => Some (negb (Z.land d s =? 0))
  | EBPF_OP_JNE_IMM => Some (negb (d =? u64 i))
  | EBPF_OP_JNE_REG => Some (negb (d =? s))
  | EBPF_OP_JSGT_IMM => Some (i <? s64 d)
  | EBPF_OP_JSGT_REG => Some (s64 s <? s64 d)
  | EBPF_OP_JSGE_IMM => Some (i <=? s64 d)
  | EBPF_OP_JSGE_REG => Some (s64 s <=? s64 d)
  | _ => None
  end.

(** [vm->ext_funcs[inst.imm].func(reg[1], ..., reg[5])]. *)
Definition exec_call (vm : ubpf_vm) (i : ebpf_inst) (st : exec_state) : step_result :=
  if imm i <? 0 then Crash
  else
    match ext_funcs vm !! Z.to_nat (imm i) with
    | Some p =>
        match func p with
        | Some f =>
            match f [rget (reg st) 1; rget (reg st) 2; rget (reg st) 3;
                     rget (reg st) 4; rget (reg st) 5] (mem st) with
            | Some (v, m) => Continue (mk_state (pc st) (rset (reg st) 0 (u64 v)) m)
            | None => Crash
            end
        | None => Crash
        end
    | None => Crash
    end.

Definition exec_jmp (vm : ubpf_vm) (o : ebpf_op) (i : ebpf_inst) (st : exec_state) : option step_result :=
  match o with
  | EBPF_OP_EXIT => Some (Return (rget (reg st) 0) (mem st))
  | EBPF_OP_CALL => Some (exec_call vm i st)
  | _ =>
      match jump_taken o (rget (reg st) (dst i)) (rget (reg st) (src i)) (imm i) with
      | Some b =>
          Some (Continue (mk_state (if b then u16 (pc st + offset i) else pc st)
                            (reg st) (mem st)))
      | None => None
      end
  end.

(** ** The loop *)

Definition exec_alu (o : ebpf_op) (i : ebpf_inst) (st : exec_state) : option step_result :=
  let d := rget (reg st) (dst i) in
  let s := rget (reg st) (src i) in
  let run (r : alu_result) :=
    match r with
    | AVal v => Continue (mk_state (pc st) (rset (reg st) (dst i) v) (mem st))
    | ADivZero => Return UINT64_MAX (mem st)
    | AUndef => Crash
    end in
  match exec_alu32 o d s (imm i) with
  | Some r => Some (run r)
  | None => run <$> exec_alu64 o d s (imm i)
  end.

(** One iteration: fetch, [pc++], dispatch. *)
Definition exec_step (vm : ubpf_vm) (env : exec_env) (prog : list ebpf_inst)
    (st : exec_state) : step_result :=
  match prog !! Z.to_nat (pc st) with
  | None => Crash
  | Some i =>
      let st1 := mk_state (u16 (pc st + 1)) (reg st) (mem st) in
      match op_of_opcode (opcode i) with
      | None => Continue st1
      | Some o =>
          match exec_alu o i st1 with
          | Some r => r
          | None =>
              match exec_mem env prog o i st1 with
              | Some r => r
              | None =>
                  match exec_jmp vm o i st1 with
                  | Some r => r
                  | None => Continue st1
                  end
              end
          end
      end
  end.

Inductive exec_result : Type :=
| Returned (v : Z) (m : memory)
| Crashed
| OutOfFuel.

Fixpoint exec_loop (fuel : nat) (vm : ubpf_vm) (env : exec_env) (prog : list ebpf_inst)
    (st : exec_state) : exec_result :=
  match fuel with
  | O => OutOfFuel
  | S fuel' =>
      match exec_step vm env prog st with
      | Continue st' => exec_loop fuel' vm env prog st'
      | Return v m => Returned v m
      | Crash => Crashed
      end
  end.

(** [regs0] is what the uninitialised array [reg] holds on entry. *)
Definition ubpf_exec (fuel : nat) (vm : ubpf_vm) (env : exec_env) (regs0 : list Z)
    (m : memory) : exec_result :=
  match insts vm with
  | None => Returned UINT64_MAX m
  | Some prog =>
      exec_loop fuel vm env prog
        (mk_state 0
           (rset (rset regs0 1 (mem_base env)) 10 (u64 (stack_base env + STACK_SIZE)))
           m)
  end.
