(* ===== verification/InterpProps.v ===== *)
(** * What the interpreter guarantees

    The 32-bit and the 64-bit ALU groups of [ubpf_exec] implement one
    width-parametric arithmetic; every step keeps registers, program counter
    and memory in range; memory outside the two regions the bounds check knows
    is only ever changed by external functions. *)

From S2P Require Import Prelude Ebpf Memory Vm Interp.

(** ** A width-parametric ALU *)

Inductive alu_kind : Set :=
| KAdd | KSub | KMul | KDiv | KOr | KAnd | KLsh | KRsh | KNeg | KMod | KXor | KMov | KArsh.

(** Width, operation, and whether the operand is the source register. *)
Definition alu_classify (o : ebpf_op) : option (Z * alu_kind * bool) :=
  let w := if EBPF_CLASS (opcode_of o) =? EBPF_CLS_ALU then Some 32
           else if EBPF_CLASS (opcode_of o) =? EBPF_CLS_ALU64 then Some 64 else None in
  let k :=
    let op := EBPF_OP (opcode_of o) in
    if op =? EBPF_ALU_ADD then Some KAdd else if op =? EBPF_ALU_SUB then Some KSub
    else if op =? EBPF_ALU_MUL then Some KMul else if op =? EBPF_ALU_DIV then Some KDiv
    else if op =? EBPF_ALU_OR then Some KOr else if op =? EBPF_ALU_AND then Some KAnd
    else if op =? EBPF_ALU_LSH then Some KLsh else if op =? EBPF_ALU_RSH then Some KRsh
    else if op =? EBPF_ALU_NEG then Some KNeg else if op =? EBPF_ALU_MOD then Some KMod
    else if op =? EBPF_ALU_XOR then Some KXor else if op =? EBPF_ALU_MOV then Some KMov
    else if op =? EBPF_ALU_ARSH then Some KArsh else None in
  w ← w; k ← k; Some (w, k, EBPF_SRC (opcode_of o) =? EBPF_SRC_REG).

(** The arithmetic of [w]-bit registers: [x] and [y] are [w]-bit values. *)
Definition alu_spec (w : Z) (k : alu_kind) (x y : Z) : option Z :=
  match k with
  | KAdd => Some (wrap w (x + y))
  | KSub => Some (wrap w (x - y))
  | KMul => Some (wrap w (x * y))
  | KDiv => udiv x y
  | KOr => Some (Z.lor x y)
  | KAnd => Some (Z.land x y)
  | KLsh => shl w x y
  | KRsh => shr w x y
  | KNeg => Some (wrap w (- x))
  | KMod => umod x y
  | KXor => Some (Z.lxor x y)
  | KMov => Some y
  | KArsh => wrap w <$> shr w (sext w x) y
  end.

Definition is_shift (k : alu_kind) : bool :=
  match k with KLsh | KRsh | KArsh => true | _ => false end.

Lemma mask32_wrap x : mask32 x = u32 x.
Proof. unfold mask32, UINT32_MAX, wrap. change (2 ^ 32 - 1) with (Z.ones 32). by rewrite Z.land_ones. Qed.

(** Truncation commutes with the operations the 32-bit group computes in 64 bits. *)
Lemma wrap_bits w x i : 0 <= w -> 0 <= i ->
  Z.testbit (wrap w x) i = (i <? w) && Z.testbit x i.
Proof.
  intros Hw Hi. unfold wrap. destruct (Z.ltb_spec i w).
  - by rewrite Z.mod_pow2_bits_low.
  - by rewrite Z.mod_pow2_bits_high.
Qed.

Ltac bits_ext :=
  apply Z.bits_inj'; intros ?b ?Hb;
  rewrite ?Z.land_spec, ?Z.lor_spec, ?Z.lxor_spec, ?wrap_bits,
    ?Z.land_spec, ?Z.lor_spec, ?Z.lxor_spec, ?wrap_bits by lia.

Lemma wrap_lor w x y : 0 <= w -> wrap w (Z.lor x y) = Z.lor (wrap w x) (wrap w y).
Proof. intros. bits_ext. by destruct (_ <? _). Qed.
Lemma wrap_land w x y : 0 <= w -> wrap w (Z.land x y) = Z.land (wrap w x) (wrap w y).
Proof. intros. bits_ext. by destruct (_ <? _). Qed.
Lemma wrap_lxor w x y : 0 <= w -> wrap w (Z.lxor x y) = Z.lxor (wrap w x) (wrap w y).
Proof. intros. bits_ext. by destruct (_ <? _). Qed.

Lemma wrap_mul w x y : wrap w (wrap w x * wrap w y) = wrap w (x * y).
Proof. unfold wrap. by rewrite <- Zmult_mod. Qed.

Lemma wrap_mul_r w x y : wrap w (x * wrap w y) = wrap w (x * y).
Proof. apply Zmult_mod_idemp_r. Qed.

Lemma wrap_opp w x : wrap w (- wrap w x) = wrap w (- x).
Proof. rewrite <- !Z.sub_0_l. apply wrap_sub_r. Qed.

Lemma wrap_shl w x n : 0 <= w -> 0 <= n -> wrap w (Z.shiftl (wrap w x) n) = wrap w (Z.shiftl x n).
Proof.
  intros. rewrite !Z.shiftl_mul_pow2 by lia. rewrite <- (wrap_mul w (wrap w x)), wrap_idem.
  apply wrap_mul.
Qed.

#[export] Hint Rewrite mask32_wrap : word.

(** The ALU result of an instruction: the 32-bit group, else the 64-bit one. *)
Definition alu_value (o : ebpf_op) (d s i : Z) : option alu_result :=
  match exec_alu32 o d s i with Some r => Some r | None => exec_alu64 o d s i end.

Lemma shl32_64 d n :
  0 <= n < 32 -> option_map mask32 (shl 64 d n) = shl 32 (u32 d) n.
Proof.
  intros Hn. unfold shl.
  replace ((0 <=? n) && (n <? 64)) with true by lia.
  replace ((0 <=? n) && (n <? 32)) with true by lia. simpl.
  rewrite mask32_wrap, wrap_wrap_le, wrap_shl by lia. done.
Qed.

Lemma alu_opt_map f o : alu_opt f o = match option_map f o with Some v => AVal v | None => AUndef end.
Proof. by destruct o. Qed.

(** The two agree on a value, or the code stops where the operation has none. *)
Definition alu_agrees (r : option alu_result) (v : option Z) : Prop :=
  match v with
  | Some v => r = Some (AVal v)
  | None => r = Some ADivZero \/ r = Some AUndef
  end.

Lemma alu_agrees_opt f o v :
  option_map f o = v -> alu_agrees (Some (alu_opt f o)) v.
Proof. intros <-. rewrite alu_opt_map. destruct (option_map f o); simpl; auto. Qed.

Lemma alu_agrees_id f o :
  (forall v, o = Some v -> f v = v) -> alu_agrees (Some (alu_opt f o)) o.
Proof. intros H. apply alu_agrees_opt. destruct o; simpl; [by rewrite H|done]. Qed.

(** The early return on a zero divisor register agrees with a division that
    has no value. *)
Lemma alu_agrees_divzero (s : Z) r v :
  (s = 0 -> v = None) -> alu_agrees (Some r) v ->
  alu_agrees (Some (if s =? 0 then ADivZero else r)) v.
Proof.
  intros H0 Hr. destruct (Z.eqb_spec s 0) as [->|]; [|done].
  rewrite H0 by done. simpl. auto.
Qed.

Lemma mask32_small v : in_u 32 v -> mask32 v = v.
Proof. intros. by rewrite mask32_wrap, wrap_small. Qed.

Lemma wrap_nonneg w x : 0 <= w -> 0 <= wrap w x.
Proof. intros. by apply wrap_range. Qed.

#[export] Hint Resolve alu_agrees_id alu_agrees_divzero mask32_small wrap_nonneg : word.

(** The cases the rewriting of truncations leaves: quotients and shifts. *)
Ltac alu_tail :=
  match goal with
  | |- alu_agrees (Some (if _ =? 0 then _ else _)) _ =>
      apply alu_agrees_divzero; [by intros ->|alu_tail]
  | |- alu_agrees (Some (alu_opt _ ?o)) ?o =>
      apply alu_agrees_id; intros; first [reflexivity | apply mask32_small; solve [eauto with word]]
  | |- alu_agrees (Some (alu_opt _ (shl 64 _ _))) _ =>
      apply alu_agrees_opt; by apply shl32_64
  | |- alu_agrees (Some (alu_opt _ (shr _ _ _))) (_ <$> _) =>
      apply alu_agrees_opt; rewrite ?sext_wrap; destruct (shr _ _ _); simpl;
      [by rewrite ?mask32_wrap, ?wrap_wrap_le by lia|done]
  end.

Ltac alu_cases H Hy :=
  match type of H with alu_classify ?o = _ => destruct o end;
  vm_compute in H; try discriminate H; simplify_eq H; intros; subst; cbn [is_shift] in Hy;
  try specialize (Hy eq_refl); cbn [exec_alu32 exec_alu64 alu_spec];
  first [ simpl; rewrite ?mask32_wrap, ?wrap_wrap_le, ?wrap_add_l, ?wrap_add_r, ?wrap_sub_l,
            ?wrap_sub_r, ?wrap_mul, ?wrap_mul_r, ?wrap_opp, ?wrap_lor, ?wrap_land, ?wrap_lxor,
            ?wrap_wrap_le, ?wrap_idem by lia; reflexivity
        | alu_tail
        | match type of Hy with
          | 0 <= ?y < ?w => rewrite (wrap_small w y) by word_lia; alu_tail
          end ].

Lemma alu32_agrees o k r d s i :
  alu_classify o = Some (32, k, r) ->
  (is_shift k = true -> 0 <= (if r then s else i) < 32) ->
  alu_agrees (exec_alu32 o d s i) (alu_spec 32 k (u32 d) (u32 (if r then s else i))).
Proof. intros H Hy. alu_cases H Hy. Qed.

Lemma alu64_agrees o k r d s i :
  alu_classify o = Some (64, k, r) ->
  in_u 64 d -> in_u 64 s ->
  (is_shift k = true -> 0 <= (if r then s else i) < 64) ->
  alu_agrees (exec_alu64 o d s i) (alu_spec 64 k (u64 d) (u64 (if r then s else i))).
Proof.
  intros H Hd Hs Hy. rewrite (wrap_small 64 d) by done.
  destruct r; [rewrite (wrap_small 64 s) by done|]; alu_cases H Hy.
Qed.

Lemma alu_classify_width o w k r :
  alu_classify o = Some (w, k, r) ->
  w = 32 \/ (w = 64 /\ forall d s i, exec_alu32 o d s i = None).
Proof.
  intros H. destruct o; vm_compute in H; try discriminate H; simplify_eq H; intros; subst;
    first [by left | right; split; [done|reflexivity]].
Qed.

Lemma alu32_defined o k r d s i :
  alu_classify o = Some (32, k, r) -> is_Some (exec_alu32 o d s i).
Proof.
  intros H. destruct o; vm_compute in H; try discriminate H; eexists; reflexivity.
Qed.



(** the 32-bit divisions test the whole 64-bit divisor register but divide
    by its low half: a divisor whose low half is zero passes the test and the
    division is undefined. *)
Theorem div32_low_half_zero d s i :
  in_u 64 s -> s <> 0 -> u32 s = 0 ->
  exec_alu32 EBPF_OP_DIV_REG d s i = Some AUndef /\
  exec_alu32 EBPF_OP_MOD_REG d s i = Some AUndef.
Proof.
  intros Hs Hn Hl. simpl. rewrite Hl.
  destruct (Z.eqb_spec s 0); [done|]. split; reflexivity.
Qed.

Lemma div32_low_half_zero_witness :
  exec_alu32 EBPF_OP_DIV_REG 7 (2 ^ 32) 0 = Some AUndef /\
  exec_alu32 EBPF_OP_MOD_REG 7 (2 ^ 32) 0 = Some AUndef.
Proof. apply div32_low_half_zero; [unfold in_u; lia|lia|reflexivity]. Defined.

(** ** The bounds check *)

Definition in_region (base len a n : Z) : Prop := base <= a /\ a + n <= base + len.

(** The regions are where the allocator can put them: not at 0 for the stack,
    and not past the end of the address space. *)
Record wf_env (env : exec_env) : Prop := {
  wf_mem : 0 <= mem_base env /\ 0 <= mem_len env /\ mem_base env + mem_len env < 2 ^ 64;
  wf_stack : 0 <= stack_base env /\ stack_base env + STACK_SIZE < 2 ^ 64
}.

Definition accessible (env : exec_env) (a n : Z) : Prop :=
  (mem_base env <> 0 /\ in_region (mem_base env) (mem_len env) a n) \/
  in_region (stack_base env) STACK_SIZE a n.

Lemma env_check_no_wrap env a n :
  wf_env env -> 0 <= a -> 0 <= n -> a + n < 2 ^ 64 ->
  env_check env a n = true <-> accessible env a n.
Proof.
  intros [[? [? ?]] [? ?]] Ha Hn Hw. unfold env_check, bounds_check, accessible, in_region.
  rewrite !(wrap_small 64) by (unfold in_u; clia).
  repeat case_match; lia.
Qed.

(** the bounds check accepts an access that does not wrap around the
    address space exactly when it lies inside the context or inside the stack;
    an access that wraps is accepted whatever the regions hold. *)
Theorem bounds_check_exact env a n :
  wf_env env -> in_u 64 a -> 0 < n <= 8 ->
  if a + n <? 2 ^ 64
  then env_check env a n = true <-> accessible env a n
  else stack_base env <= a -> env_check env a n = true.
Proof.
  intros He Ha Hn. destruct (Z.ltb_spec (a + n) (2 ^ 64)).
  - unfold in_u in Ha. apply env_check_no_wrap; lia || done.
  - intros Hst. destruct He as [_ [? ?]]. unfold env_check, bounds_check.
    assert (u64 (a + n) = a + n - 2 ^ 64) as -> by word_lia.
    rewrite (wrap_small 64 (stack_base env + _)) by (unfold in_u; clia).
    destruct (_ && _); [done|].
    destruct (Z.leb_spec (stack_base env) a); [|lia].
    destruct (Z.leb_spec (a + n - 2 ^ 64) (stack_base env + STACK_SIZE)); [done|].
    unfold in_u in Ha. clia.
Qed.

Lemma bounds_check_exact_witness :
  let env := mk_env 4096 64 8192 in
  wf_env env /\ env_check env (2 ^ 64 - 1) 1 = true /\ ~ accessible env (2 ^ 64 - 1) 1.
Proof.
  split; [split; simpl; clia|]. split.
  - apply (bounds_check_exact (mk_env 4096 64 8192) (2 ^ 64 - 1) 1);
      [split; simpl; clia|unfold in_u; lia|lia|simpl; lia].
  - unfold accessible, in_region; simpl. clia.
Defined.

(** ** Machine states stay in range *)

Record wf_state (st : exec_state) : Prop := {
  wf_regs_len : length (reg st) = 16%nat;
  wf_regs : Forall (in_u 64) (reg st);
  wf_pc : in_u 16 (pc st);
  wf_mem_bytes : wf_memory (mem st)
}.

Lemma shiftl_range w n x : in_u w x -> 0 <= w -> 0 <= n -> in_u (w + n) (Z.shiftl x n).
Proof.
  unfold in_u. intros. rewrite Z.shiftl_mul_pow2, Z.pow_add_r by lia.
  pose proof (Z.pow_pos_nonneg 2 n). nia.
Qed.

Lemma bswap16_range x : in_u 16 (bswap16 x).
Proof.
  apply lor_range; [lia| |].
  - apply (shiftl_range 8 8); auto with word.
  - apply (in_u_mono 8); auto with word.
Qed.
Lemma bswap32_range x : in_u 32 (bswap32 x).
Proof.
  apply lor_range; [lia| |].
  - apply (shiftl_range 16 16); auto using bswap16_range with word.
  - apply (in_u_mono 16); auto using bswap16_range with word.
Qed.
Lemma bswap64_range x : in_u 64 (bswap64 x).
Proof.
  apply lor_range; [lia| |].
  - apply (shiftl_range 32 32); auto using bswap32_range with word.
  - apply (in_u_mono 32); auto using bswap32_range with word.
Qed.

Lemma u64_small_width w x : 0 <= w <= 64 -> in_u 64 (wrap w x).
Proof. intros. apply (in_u_mono w); [lia|]. apply wrap_range. lia. Qed.

Lemma mask32_range x : in_u 64 (mask32 x).
Proof. rewrite mask32_wrap. apply u64_small_width. lia. Qed.

Lemma in_u_32_64 x : in_u 32 x -> in_u 64 x.
Proof. apply in_u_mono. lia. Qed.

Lemma alu_opt_range f o v :
  (forall x, o = Some x -> in_u 64 (f x)) -> alu_opt f o = AVal v -> in_u 64 v.
Proof. destruct o as [x|]; simpl; [|done]. intros H [= <-]. auto. Qed.

(** Proves [in_u 64 e] by the shape of [e]. *)
Ltac u64_range :=
  lazymatch goal with
  | |- in_u 64 (mask32 _) => apply mask32_range
  | |- in_u 64 (wrap _ _) => apply u64_small_width; lia
  | |- in_u 64 (Z.lor _ _) => apply lor_range; [lia|u64_range|u64_range]
  | |- in_u 64 (Z.lxor _ _) => apply lxor_range; [lia|u64_range|u64_range]
  | |- in_u 64 (Z.land _ _) => apply land_range; [lia|u64_range|first [apply wrap_nonneg; lia|lia]]
  | |- in_u 64 (bswap16 _) => apply (in_u_mono 16); [lia|apply bswap16_range]
  | |- in_u 64 (bswap32 _) => apply in_u_32_64, bswap32_range
  | |- in_u 64 (bswap64 _) => apply bswap64_range
  | H : shl 64 _ _ = Some ?x |- in_u 64 ?x => apply (shl_range _ _ _ _ H); lia
  | H : shr 64 _ _ = Some ?x |- in_u 64 ?x => apply (shr_range _ _ _ _ H); u64_range
  | H : udiv _ _ = Some ?x |- in_u 64 ?x =>
      apply (udiv_range 64 _ _ _ H); [u64_range|first [apply wrap_nonneg; lia|lia]]
  | H : umod _ _ = Some ?x |- in_u 64 ?x =>
      apply (umod_range 64 _ _ _ H); [u64_range|first [apply wrap_nonneg; lia|lia]]
  | |- _ => assumption
  end.

Lemma alu_value_range o d s i v :
  in_u 64 d -> in_u 64 s -> alu_value o d s i = Some (AVal v) -> in_u 64 v.
Proof.
  intros Hd Hs. unfold alu_value. assert (0 <= s) by apply Hs.
  destruct o; cbn [exec_alu32 exec_alu64]; try discriminate.
  all: try (destruct (s =? 0); [discriminate|]).
  all: intros HH; first
    [ injection HH as <-; repeat case_match; u64_range
    | injection HH as HH; revert HH; apply alu_opt_range; intros ? ?; u64_range ].
Qed.

(** ** Steps preserve the state invariant and the memory outside the regions *)

(** Addresses of a user process: the last byte of the address space is never
    mapped. *)
Definition user_memory (m : memory) : Prop :=
  forall a, is_Some (m !! a) -> 0 <= a < 2 ^ 64 - 1.

Definition region_addr (env : exec_env) (a : Z) : Prop :=
  mem_base env <= a < mem_base env + mem_len env \/
  stack_base env <= a < stack_base env + STACK_SIZE.

(** [m'] differs from [m] only at addresses in the regions or in [W]. *)
Definition frame (env : exec_env) (W : Z -> Prop) (m m' : memory) : Prop :=
  forall a, ~ region_addr env a -> ~ W a -> m' !! a = m !! a.

Lemma rget_range r i : Forall (in_u 64) r -> in_u 64 (rget r i).
Proof.
  intros H. unfold rget. destruct (r !! Z.to_nat i) as [v|] eqn:E; simpl.
  - by eapply Forall_lookup_1 in H.
  - unfold in_u. lia.
Qed.

Lemma wf_state_set st p i v :
  wf_state st -> in_u 16 p -> in_u 64 v -> wf_state (mk_state p (rset (reg st) i v) (mem st)).
Proof.
  intros [H1 H2 H3 H4] Hp Hv. split; simpl; try done.
  - unfold rset. by rewrite length_insert.
  - by apply Forall_insert.
Qed.

Lemma wf_state_pc st p : wf_state st -> in_u 16 p -> wf_state (mk_state p (reg st) (mem st)).
Proof. intros [H1 H2 H3 H4] Hp. by split. Qed.

Lemma load_le_u64 m a n v : (n <= 8)%nat -> wf_memory m -> load_le m a n = Some v -> in_u 64 v.
Proof.
  intros Hn Hm Hv. apply load_le_range in Hv; [|done]. unfold in_u.
  assert (256 ^ Z.of_nat n <= 256 ^ 8) by (apply Z.pow_le_mono_r; lia). lia.
Qed.

Section Steps.
Context (vm : ubpf_vm) (env : exec_env) (prog : list ebpf_inst) (W : Z -> Prop).
Context (Henv : wf_env env).

(** The contract of the external functions. *)
Definition ext_ok : Prop :=
  forall p f args m v m',
    p ∈ ext_funcs vm -> func p = Some f -> f args m = Some (v, m') ->
    wf_memory m -> user_memory m ->
    wf_memory m' /\ user_memory m' /\ frame env W m m'.

Definition good (m0 : memory) (st : exec_state) : Prop :=
  wf_state st /\ user_memory (mem st) /\ frame env W m0 (mem st).

Definition step_good (m0 : memory) (r : step_result) : Prop :=
  match r with
  | Continue st => good m0 st
  | Return v m => in_u 64 v /\ wf_memory m /\ user_memory m /\ frame env W m0 m
  | Crash => True
  end.

Lemma good_return m0 st v : good m0 st -> in_u 64 v -> step_good m0 (Return v (mem st)).
Proof. intros ([H1 H2 H3 H4] & Hu & Hf) Hv. by split_and!. Qed.

Lemma good_set m0 st p i v :
  good m0 st -> in_u 16 p -> in_u 64 v ->
  step_good m0 (Continue (mk_state p (rset (reg st) i v) (mem st))).
Proof. intros (H & Hu & Hf) Hp Hv. split_and!; try done. by apply wf_state_set. Qed.

Lemma max_u64 : in_u 64 UINT64_MAX.
Proof. unfold in_u, UINT64_MAX. lia. Qed.

Lemma exec_alu_good m0 o i st r :
  good m0 st -> exec_alu o i st = Some r -> step_good m0 r.
Proof.
  intros Hg. pose proof Hg as ([H1 H2 H3 H4] & Hu & Hf). unfold exec_alu.
  pose proof (fun v => alu_value_range o _ _ (imm i) v
    (rget_range _ (dst i) H2) (rget_range _ (src i) H2)) as Hv.
  unfold alu_value in Hv. destruct (exec_alu32 _ _ _ _) as [a|].
  - intros [= <-]. destruct a; [|by apply good_return, max_u64|done].
    by apply good_set; [..|apply Hv].
  - destruct (exec_alu64 _ _ _ _) as [a|]; simpl; [|done]. intros [= <-].
    destruct a; [|by apply good_return, max_u64|done].
    by apply good_set; [..|apply Hv].
Qed.

Lemma exec_load_good m0 i n st :
  (n <= 8)%nat -> good m0 st -> step_good m0 (exec_load env i n st).
Proof.
  intros Hn Hg. pose proof Hg as ([H1 H2 H3 H4] & Hu & Hf). unfold exec_load.
  case_match; [|by apply good_return, max_u64].
  destruct (load_le _ _ _) as [v|] eqn:E; [|done].
  apply good_set; try done. by eapply load_le_u64.
Qed.

(** A store that succeeds touches the regions only. *)
Lemma store_frame m a n v m' :
  (0 < n)%nat -> 0 <= a -> user_memory m -> env_check env a (Z.of_nat n) = true ->
  store_le m a n v = Some m' -> user_memory m' /\ forall W', frame env W' m m'.
Proof.
  intros Hn Ha Hu Hc Hst.
  assert (mapped m a n) as Hm by (apply (store_le_mapped _ _ _ v); eauto).
  destruct (Hu (a + Z.of_nat n - 1)) as [_ Hlt]; [apply Hm; lia|].
  apply env_check_no_wrap in Hc; [|done|lia..]. split.
  - intros b Hb. apply Hu. rewrite <- elem_of_dom in Hb |- *.
    by rewrite (store_le_dom _ _ _ _ _ Hst) in Hb.
  - intros W' b Hb _. apply (store_le_frame _ _ _ _ _ _ Hst). intros Hr. apply Hb.
    unfold accessible, in_region, region_addr in *. lia.
Qed.

Lemma frame_trans m m' m'' : frame env W m m' -> frame env W m' m'' -> frame env W m m''.
Proof. intros H1 H2 a Ha HW. rewrite H2, H1; done. Qed.

Lemma exec_store_good m0 i n v st :
  (0 < n)%nat -> good m0 st -> step_good m0 (exec_store env i n v st).
Proof.
  intros Hn Hg. pose proof Hg as ([H1 H2 H3 H4] & Hu & Hf). unfold exec_store.
  destruct (env_check _ _ _) eqn:Hc; [|by apply good_return, max_u64].
  destruct (store_le _ _ _ _) as [m'|] eqn:E; [|done].
  destruct (store_frame _ _ _ _ _ Hn (wrap_nonneg 64 _ ltac:(lia)) Hu Hc E) as [Hu' Hf'].

  split_and!; [split; simpl; try done|done|].
  - by eapply store_le_wf.
  - by eapply frame_trans.
Qed.

Lemma exec_mem_good m0 o i st r :
  good m0 st -> exec_mem env prog o i st = Some r -> step_good m0 r.
Proof.
  intros Hg. pose proof Hg as ([H1 H2 H3 H4] & Hu & Hf).
  destruct o; cbn [exec_mem]; try discriminate; intros [= <-].
  all: first [apply exec_load_good; [lia|done] | apply exec_store_good; [lia|done] | idtac].
  case_match; [|done]. apply good_set; [done|auto with word|].
  apply lor_range; [lia|apply u64_small_width; lia|auto with word].
Qed.

Context (Hext : ext_ok).

Lemma exec_call_good m0 i st : good m0 st -> step_good m0 (exec_call vm i st).
Proof.
  intros Hg. pose proof Hg as ([H1 H2 H3 H4] & Hu & Hf). unfold exec_call.
  case_match; [done|]. destruct (ext_funcs vm !! _) as [p|] eqn:Ep; [|done].
  destruct (func p) as [f|] eqn:Ef; [|done].
  destruct (f _ _) as [[v m']|] eqn:Ec; [|done].
  destruct (Hext p f _ _ _ _ (list_elem_of_lookup_2 _ _ _ Ep) Ef Ec H4 Hu)
    as (Hw & Hu' & Hf').
  split_and!; [|done|by eapply frame_trans].
  split; simpl; try done; [unfold rset; by rewrite length_insert|].
  apply Forall_insert; [done|auto with word].
Qed.

Lemma exec_jmp_good m0 o i st r :
  good m0 st -> exec_jmp vm o i st = Some r -> step_good m0 r.
Proof.
  intros Hg. pose proof Hg as ([H1 H2 H3 H4] & Hu & Hf).
  assert (forall b : bool, good m0 (mk_state (if b then u16 (pc st + offset i) else pc st)
                                      (reg st) (mem st))) as Hj.
  { intros b. split_and!; try done. apply wf_state_pc; [done|].
    destruct b; auto with word. }
  destruct o; cbn [exec_jmp jump_taken]; try discriminate; intros [= <-];
    first [apply (Hj true) | apply Hj | by apply exec_call_good
          | by apply good_return; [|apply rget_range] ].
Qed.

Lemma exec_step_good m0 st : good m0 st -> step_good m0 (exec_step vm env prog st).
Proof.
  intros Hg. unfold exec_step. case_match; [|done].
  set (st1 := mk_state _ _ _).
  assert (good m0 st1) as Hg1.
  { destruct Hg as (Hw & Hu & Hf). split_and!; try done.
    apply wf_state_pc; auto with word. }
  case_match; [|done].
  destruct (exec_alu _ _ _) eqn:?; [by eapply exec_alu_good|].
  destruct (exec_mem _ _ _ _ _) eqn:?; [by eapply exec_mem_good|].
  destruct (exec_jmp _ _ _ _) eqn:?; [by eapply exec_jmp_good|done].
Qed.

Lemma exec_loop_good fuel m0 st :
  good m0 st ->
  match exec_loop fuel vm env prog st with
  | Returned v m => in_u 64 v /\ wf_memory m /\ user_memory m /\ frame env W m0 m
  | _ => True
  end.
Proof.
  revert st. induction fuel as [|fuel IH]; intros st Hg; simpl; [done|].
  apply exec_step_good in Hg. destruct (exec_step _ _ _ _); [|exact Hg|done].
  by apply IH.
Qed.
End Steps.

Lemma wf_entry env regs0 m :
  wf_env env -> length regs0 = 16%nat -> Forall (in_u 64) regs0 -> wf_memory m ->
  wf_state (mk_state 0
    (rset (rset regs0 1 (mem_base env)) 10 (u64 (stack_base env + STACK_SIZE))) m).
Proof.
  intros [[? [? ?]] _] Hl Hr Hm. split; simpl; try done.
  - unfold rset. by rewrite !length_insert.
  - unfold rset. apply Forall_insert; [apply Forall_insert; [done|]|auto with word].
    unfold in_u. lia.
Qed.

(** C2: whatever the program, the registers' initial contents and the fuel, a
    run of the interpreter that returns gives a 64-bit value and leaves every
    byte outside the context and the stack as it was, apart from the bytes the
    external functions may write. *)
Theorem ubpf_exec_confined fuel vm env W regs0 m v m' :
  wf_env env -> ext_ok vm env W ->
  length regs0 = 16%nat -> Forall (in_u 64) regs0 -> wf_memory m -> user_memory m ->
  ubpf_exec fuel vm env regs0 m = Returned v m' ->
  in_u 64 v /\ wf_memory m' /\ frame env W m m'.
Proof.
  intros He Hx Hl Hr Hm Hu. unfold ubpf_exec. destruct (insts vm) as [prog|].
  - intros H. pose proof (exec_loop_good vm env prog W He Hx fuel m _
      (conj (wf_entry env regs0 m He Hl Hr Hm) (conj Hu (fun a _ _ => eq_refl)))) as Hg.
    rewrite H in Hg. tauto.
  - intros [= <- <-]. split_and!; [apply max_u64|done|done].
Qed.

(** ** A concrete run *)

Definition mk_op (o : ebpf_op) (d s off im : Z) : ebpf_inst := mk_inst (opcode_of o) d s off im.

(** [r0 = 5; *(u64 * )(r10 - 8) = r0; exit], with the sixteen top bytes of the
    stack mapped. *)
Definition demo_prog : list ebpf_inst :=
  [mk_op EBPF_OP_MOV64_IMM 0 0 0 5; mk_op EBPF_OP_STXDW 10 0 (-8) 0;
   mk_op EBPF_OP_EXIT 0 0 0 0].
Definition demo_vm : ubpf_vm :=
  let vm := ubpf_create 1 in
  mk_vm (prog_id vm) (Some demo_prog) 3 (ext_funcs vm) (ext_func_names vm) (ext_maps vm) (ext_map_names vm) (nb_maps vm)
    (loaded_at vm).
Definition demo_env : exec_env := mk_env 4096 64 8192.
Definition demo_mem : memory :=
  list_to_map ((fun i => (8192 + 1008 + Z.of_nat i, 0)) <$> seq 0 16).

Lemma ext_ok_no_funcs vm env W : (forall p, p ∈ ext_funcs vm -> func p = None) -> ext_ok vm env W.
Proof. intros H p f args m v m' Hp Hf. rewrite (H p Hp) in Hf. done. Qed.

Lemma no_funcs_demo p : p ∈ ext_funcs demo_vm -> func p = None.
Proof. intros Hp. by apply elem_of_replicate in Hp as [-> _]. Qed.

Lemma demo_mem_lookup a b : demo_mem !! a = Some b -> 9200 <= a < 9216 /\ b = 0.
Proof.
  intros H. apply elem_of_list_to_map_2 in H.
  apply list_elem_of_fmap in H as (i & [= -> ->] & Hi%elem_of_seq). lia.
Qed.

Lemma ubpf_exec_confined_witness :
  exists m', ubpf_exec 3 demo_vm demo_env (replicate 16 7) demo_mem = Returned 5 m' /\
             frame demo_env (fun _ => False) demo_mem m'.
Proof.
  eexists. split; [vm_compute; reflexivity|].
  apply (ubpf_exec_confined 3 demo_vm demo_env (fun _ => False) (replicate 16 7) demo_mem 5).
  - split; simpl; clia.
  - apply ext_ok_no_funcs, no_funcs_demo.
  - reflexivity.
  - apply Forall_replicate. unfold in_u. lia.
  - intros a b H%demo_mem_lookup. unfold in_u. lia.
  - intros a [b H%demo_mem_lookup]. lia.
  - vm_compute. reflexivity.
Defined.
