(* ===== verification/ValidateInsts.v ===== *)
(** * First pass of the verifier: instruction shapes
      (lib/bpf/ubpf_vm.c, [validate_instructions])

    A linear sweep over the program that skips the second slot of every LDDW.
    The main theorem says exactly which programs it accepts. *)

From S2P Require Import Prelude Ebpf Memory Vm Interp InterpProps.

(** The messages [ubpf_error] formats, with their arguments. *)
Inductive verr : Type :=
| ETooManyInsts
| EAlreadyLoaded
| ECodeLen
| EInvalidShift (pc : Z)
| EInvalidEndian (pc : Z)
| EIncompleteLddw (pc : Z)
| EJumpOutOfBounds (pc : Z)
| EJumpMiddleLddw (pc : Z)
| EInvalidCall (pc : Z)
| ENoSuchFunction (func pc : Z)
| EDivisionByZero (pc : Z)
| EUnknownOpcode (op pc : Z)
| EInvalidSrc (pc : Z)
| EInvalidDst (pc : Z)
| EBackEdge (v u : Z)
| EInvalidRegister (regno pc : Z)
| EUninitRegister (regno pc : Z)
| ER10ReadOnly
| EArgType (func arg pc expected got : Z)
| EArgSizeValue (func arg pc : Z)
| EArgSizePointer (func arg pc : Z)
| EArgNext (func arg pc : Z)
| ER1NotMap (pc : Z)
| EPktAccess (a b range pc : Z)
| ECtxAccess (pc : Z)
| EStackVariable (pc arg : Z)
| EStackAccess (pc : Z)
| EStackUninit (pc : Z)
| EMapUnbounded (pc : Z)
| EMapMissing (regno pc : Z)
| EMapAccess (pc : Z)
| EMemAccess (pc : Z)
| EPointerArith (pc : Z).

(** The opcodes that write through [inst.dst], so that R10 is allowed there. *)
Definition op_is_store (o : ebpf_op) : bool :=
  match o with
  | EBPF_OP_STW | EBPF_OP_STH | EBPF_OP_STB | EBPF_OP_STDW
  | EBPF_OP_STXW | EBPF_OP_STXH | EBPF_OP_STXB | EBPF_OP_STXDW => true
  | _ => false
  end.

(** The [switch]: what each opcode requires at index [i]. *)
Definition check_opcode (vm : ubpf_vm) (prog : list ebpf_inst) (i : Z) (inst : ebpf_inst)
    (o : ebpf_op) : res verr unit :=
  match o with
  | EBPF_OP_LSH_IMM | EBPF_OP_RSH_IMM | EBPF_OP_ARSH_IMM =>
      if (imm inst <? 0) || (32 <=? imm inst) then Err (EInvalidShift i) else Ok tt
  | EBPF_OP_LE | EBPF_OP_BE =>
      if negb (imm inst =? 16) && negb (imm inst =? 32) && negb (imm inst =? 64)
      then Err (EInvalidEndian i) else Ok tt
  | EBPF_OP_LSH64_IMM | EBPF_OP_RSH64_IMM | EBPF_OP_ARSH64_IMM =>
      if (imm inst <? 0) || (64 <=? imm inst) then Err (EInvalidShift i) else Ok tt
  | EBPF_OP_LDDW =>
      match prog !! Z.to_nat (i + 1) with
      | None => Err (EIncompleteLddw i)
      | Some next => if negb (opcode next =? 0) then Err (EIncompleteLddw i) else Ok tt
      end
  | EBPF_OP_JA
  | EBPF_OP_JEQ_REG | EBPF_OP_JEQ_IMM | EBPF_OP_JGT_REG | EBPF_OP_JGT_IMM
  | EBPF_OP_JGE_REG | EBPF_OP_JGE_IMM | EBPF_OP_JSET_REG | EBPF_OP_JSET_IMM
  | EBPF_OP_JNE_REG | EBPF_OP_JNE_IMM | EBPF_OP_JSGT_IMM | EBPF_OP_JSGT_REG
  | EBPF_OP_JSGE_IMM | EBPF_OP_JSGE_REG =>
      let new_pc := i + 1 + offset inst in
      if new_pc <? 0 then Err (EJumpOutOfBounds i)
      else
        match prog !! Z.to_nat new_pc with
        | None => Err (EJumpOutOfBounds i)
        | Some t => if opcode t =? 0 then Err (EJumpMiddleLddw i) else Ok tt
        end
  | EBPF_OP_CALL =>
      if (imm inst <? 0) || (MAX_EXT_FUNCS <=? imm inst) then Err (EInvalidCall i)
      else
        match ext_funcs vm !! Z.to_nat (imm inst) with
        | None => Undef
        | Some p =>
            match func p with
            | None => Err (ENoSuchFunction (imm inst) i)
            | Some _ => Ok tt
            end
        end
  | EBPF_OP_DIV_IMM | EBPF_OP_MOD_IMM | EBPF_OP_DIV64_IMM | EBPF_OP_MOD64_IMM =>
      if imm inst =? 0 then Err (EDivisionByZero i) else Ok tt
  | _ => Ok tt
  end.

(** The register checks after the [switch]. *)
Definition check_regs (i : Z) (inst : ebpf_inst) (store : bool) : res verr unit :=
  if 10 <? src inst then Err (EInvalidSrc i)
  else if (9 <? dst inst) && negb (store && (dst inst =? 10)) then Err (EInvalidDst i)
  else Ok tt.

Definition op_is_lddw (o : ebpf_op) : bool :=
  match o with EBPF_OP_LDDW => true | _ => false end.

(** One iteration at index [i]; [i'] is [i] after the [i++] of the LDDW case,
    which the register messages report. *)
Definition check_inst (vm : ubpf_vm) (prog : list ebpf_inst) (i : Z) (inst : ebpf_inst) : res verr bool :=
  match op_of_opcode (opcode inst) with
  | None => Err (EUnknownOpcode (opcode inst) i)
  | Some o =>
      let! _ := check_opcode vm prog i inst o in
      let! _ := check_regs (if op_is_lddw o then i + 1 else i) inst (op_is_store o) in
      Ok (op_is_lddw o)
  end.

(** The sweep; [rest] is the suffix of [prog] from index [i]. *)
Fixpoint validate_from (vm : ubpf_vm) (prog : list ebpf_inst) (i : Z)
    (rest : list ebpf_inst) : res verr unit :=
  match rest with
  | [] => Ok tt
  | inst :: rest1 =>
      match check_inst vm prog i inst with
      | Ok false => validate_from vm prog (i + 1) rest1
      | Ok true =>
          match rest1 with
          | [] => Ok tt
          | _ :: rest2 => validate_from vm prog (i + 2) rest2
          end
      | Err e => Err e
      | Undef => Undef
      end
  end.

Definition validate_instructions (vm : ubpf_vm) (prog : list ebpf_inst) : res verr unit :=
  validate_from vm prog 0 prog.

(** ** What an accepted instruction satisfies

    Stated with the interpreter's own notions: these are the side conditions
    under which a step of [ubpf_exec] has a meaning. *)

Record opcode_ok (vm : ubpf_vm) (prog : list ebpf_inst) (i : Z) (inst : ebpf_inst)
    (o : ebpf_op) : Prop := {
  ok_shift : forall w k, alu_classify o = Some (w, k, false) -> is_shift k = true ->
                         0 <= imm inst < w;
  ok_div : forall w k, alu_classify o = Some (w, k, false) -> k = KDiv \/ k = KMod ->
                       imm inst <> 0;
  ok_end : o = EBPF_OP_LE \/ o = EBPF_OP_BE ->
           imm inst = 16 \/ imm inst = 32 \/ imm inst = 64;
  ok_lddw : o = EBPF_OP_LDDW ->
            exists next, prog !! Z.to_nat (i + 1) = Some next /\ opcode next = 0;
  ok_jump : is_Some (jump_taken o 0 0 0) ->
            0 <= i + 1 + offset inst /\
            exists t, prog !! Z.to_nat (i + 1 + offset inst) = Some t /\ opcode t <> 0;
  ok_call : o = EBPF_OP_CALL ->
            0 <= imm inst < MAX_EXT_FUNCS /\
            exists p f, ext_funcs vm !! Z.to_nat (imm inst) = Some p /\ func p = Some f
}.

Definition regs_ok (inst : ebpf_inst) (o : ebpf_op) : Prop :=
  src inst <= 10 /\ (dst inst <= 9 \/ (op_is_store o = true /\ dst inst = 10)).

Definition inst_ok (vm : ubpf_vm) (prog : list ebpf_inst) (i : Z) (inst : ebpf_inst) : Prop :=
  exists o, op_of_opcode (opcode inst) = Some o /\ opcode_ok vm prog i inst o /\ regs_ok inst o.

Lemma check_opcode_sound vm prog i inst o :
  check_opcode vm prog i inst o = Ok tt -> opcode_ok vm prog i inst o.
Proof.
  intros H. destruct o; cbn [check_opcode] in H; split; intros.
  all: try match goal with
    | Hc : alu_classify _ = Some _ |- _ => vm_compute in Hc; simplify_eq Hc; intros; subst
    | Hc : _ \/ _ |- _ => destruct Hc; discriminate
    | Hc : _ = _ |- _ => discriminate Hc
    | Hc : is_Some (jump_taken _ _ _ _) |- _ => destruct Hc as [? Hc]; discriminate Hc
    end.
  all: try discriminate.
  all: try match goal with Hc : _ = KDiv \/ _ |- _ => destruct Hc; discriminate Hc || discriminate end.
  all: repeat case_match; try discriminate; try lia; eauto.
  all: first [ eexists; split; [done|lia]
             | split; [lia|]; first [by eauto | eexists; split; [done|lia]] ].
Qed.

Lemma check_opcode_complete vm prog i inst o :
  opcode_ok vm prog i inst o -> check_opcode vm prog i inst o = Ok tt.
Proof.
  intros [Hs Hd He Hl Hj Hc]. destruct o; cbn [check_opcode]; try reflexivity.
  all: try (specialize (Hs _ _ eq_refl eq_refl); case_match; [lia|done]).
  all: try (specialize (Hd _ _ eq_refl (or_introl eq_refl)); case_match; [lia|done]).
  all: try (specialize (Hd _ _ eq_refl (or_intror eq_refl)); case_match; [lia|done]).
  all: try (specialize (He (or_introl eq_refl)); case_match; [lia|done]).
  all: try (specialize (He (or_intror eq_refl)); case_match; [lia|done]).
  all: try (destruct (Hl eq_refl) as (n & -> & ->); done).
  all: try (destruct (Hj ltac:(eexists; reflexivity)) as (H0 & t & Ht & Hne);
            rewrite Ht; repeat case_match; lia || done).
  destruct (Hc eq_refl) as (Hr & p & f & Hp & Hf). rewrite Hp, Hf. case_match; [lia|done].
Qed.

Lemma check_inst_iff vm prog i inst b :
  check_inst vm prog i inst = Ok b <->
  exists o, op_of_opcode (opcode inst) = Some o /\ opcode_ok vm prog i inst o /\
            regs_ok inst o /\ b = op_is_lddw o.
Proof.
  unfold check_inst, regs_ok. destruct (op_of_opcode (opcode inst)) as [o|];
    [|by split; [|intros (o & [=] & _)]].
  split.
  - intros H. res_inv. destruct a. exists o. split_and!; try done.
    + by apply check_opcode_sound.
    + unfold check_regs in *. res_inv. lia.
    + unfold check_regs in *. res_inv. destruct (op_is_store o); simpl in *; lia.
  - intros (o' & [= <-] & Hok & Hr & ->). rewrite check_opcode_complete by done. simpl.
    unfold check_regs. destruct (Z.ltb_spec 10 (src inst)); [lia|].
    destruct (Z.ltb_spec 9 (dst inst)); simpl; [|done].
    destruct Hr as (_ & [Hr|[-> ->]]); [lia|done].
Qed.

(** ** The sweep *)

Definition is_lddw (inst : ebpf_inst) : bool := opcode inst =? opcode_of EBPF_OP_LDDW.

(** The programs the pass accepts: a slot with opcode 0 is the second half of
    an LDDW, every other slot is a well-formed instruction. *)
Definition insts_ok (vm : ubpf_vm) (prog : list ebpf_inst) : Prop :=
  forall i inst, prog !! i = Some inst ->
    if opcode inst =? 0
    then exists p, i <> 0%nat /\ prog !! (i - 1)%nat = Some p /\ is_lddw p = true
    else inst_ok vm prog (Z.of_nat i) inst.

Lemma op_of_opcode_0 : op_of_opcode 0 = None.
Proof. reflexivity. Qed.

Lemma is_lddw_op inst o :
  op_of_opcode (opcode inst) = Some o -> op_is_lddw o = is_lddw inst.
Proof.
  intros H%op_of_opcode_Some. unfold is_lddw. rewrite <- H.
  destruct o; vm_compute; reflexivity.
Qed.

Lemma inst_ok_opcode vm prog i inst : inst_ok vm prog i inst -> opcode inst <> 0.
Proof. intros (o & Ho & _) H0. by rewrite H0 in Ho. Qed.

Lemma is_lddw_nonzero inst : is_lddw inst = true -> (opcode inst =? 0) = false.
Proof. unfold is_lddw. intros ->%Z.eqb_eq. reflexivity. Qed.

Lemma check_inst_inst_ok vm prog i inst b :
  check_inst vm prog i inst = Ok b <-> inst_ok vm prog i inst /\ b = is_lddw inst.
Proof.
  rewrite check_inst_iff. unfold inst_ok. split.
  - intros (o & Ho & H1 & H2 & ->). erewrite is_lddw_op by done. eauto 6.
  - intros ((o & Ho & H1 & H2) & ->). exists o. by erewrite is_lddw_op by done.
Qed.

Lemma inst_ok_lddw_next vm prog i inst :
  inst_ok vm prog i inst -> is_lddw inst = true ->
  exists next, prog !! Z.to_nat (i + 1) = Some next /\ opcode next = 0.
Proof.
  intros (o & Ho & Hok & _) Hl. apply (ok_lddw _ _ _ _ _ Hok).
  apply op_of_opcode_Some in Ho. unfold is_lddw in Hl. apply Z.eqb_eq in Hl.
  apply opcode_of_inj. congruence.
Qed.

(** The suffix [rest] starts at index [i] of [prog]. *)
Definition suffix_at (prog : list ebpf_inst) (i : nat) (rest : list ebpf_inst) : Prop :=
  forall k, rest !! k = prog !! (i + k)%nat.

Lemma suffix_at_cons prog i inst rest :
  suffix_at prog i (inst :: rest) -> prog !! i = Some inst /\ suffix_at prog (S i) rest.
Proof.
  intros H. split.
  - rewrite <- (Nat.add_0_r i). symmetry. exact (H 0%nat).
  - intros k. specialize (H (S k)). simpl in H. rewrite H. f_equal. lia.
Qed.

(** A slot the sweep reaches is not the second half of an LDDW. *)
Definition not_second (prog : list ebpf_inst) (i : nat) : Prop :=
  forall p, i <> 0%nat -> prog !! (i - 1)%nat = Some p -> is_lddw p = false.

Definition insts_ok_from (vm : ubpf_vm) (prog : list ebpf_inst) (i : nat) : Prop :=
  forall k inst, (i <= k)%nat -> prog !! k = Some inst ->
    if opcode inst =? 0
    then exists p, k <> 0%nat /\ prog !! (k - 1)%nat = Some p /\ is_lddw p = true
    else inst_ok vm prog (Z.of_nat k) inst.

Lemma insts_ok_from_S vm prog i inst :
  prog !! i = Some inst -> inst_ok vm prog (Z.of_nat i) inst ->
  insts_ok_from vm prog i <-> insts_ok_from vm prog (S i).
Proof.
  intros Hi Hok. split; intros H k ins Hk Hl; [apply H; [lia|done]|].
  destruct (decide (k = i)) as [->|Hne]; [|apply H; [lia|done]].
  rewrite Hi in Hl. injection Hl as ->.
  apply inst_ok_opcode in Hok as Hn. by case_match; [lia|].
Qed.

Lemma insts_ok_from_skip vm prog i inst next :
  prog !! i = Some inst -> is_lddw inst = true ->
  prog !! S i = Some next -> opcode next = 0 ->
  insts_ok_from vm prog (S i) <-> insts_ok_from vm prog (S (S i)).
Proof.
  intros Hi Hl Hn H0. split; intros H k ins Hk Hlk; [apply H; [lia|done]|].
  destruct (decide (k = S i)) as [->|Hne]; [|apply H; [lia|done]].
  rewrite Hn in Hlk. injection Hlk as ->. rewrite H0. simpl.
  exists inst. rewrite Nat.sub_0_r. auto.
Qed.

Lemma not_second_S prog i inst :
  prog !! i = Some inst -> is_lddw inst = false -> not_second prog (S i).
Proof. intros Hi Hl p _ Hp. rewrite Nat.sub_succ, Nat.sub_0_r, Hi in Hp. congruence. Qed.

(** A slot the sweep reaches that fails its check makes the program bad. *)
Lemma insts_ok_from_head vm prog i inst :
  prog !! i = Some inst -> not_second prog i -> insts_ok_from vm prog i ->
  inst_ok vm prog (Z.of_nat i) inst.
Proof.
  intros Hi Hns H. specialize (H i inst ltac:(lia) Hi). case_match; [|done].
  destruct H as (p & Hne & Hp & Hl). by rewrite (Hns p Hne Hp) in Hl.
Qed.

Lemma validate_from_iff vm prog n i rest :
  (length rest <= n)%nat -> suffix_at prog i rest -> not_second prog i ->
  validate_from vm prog (Z.of_nat i) rest = Ok tt <-> insts_ok_from vm prog i.
Proof.
  revert i rest. induction n as [|n IH]; intros i rest Hn Hs Hns.
  all: destruct rest as [|inst rest].
  all: try (split; [|done]; intros _ k ins Hk Hl; specialize (Hs (k - i)%nat);
            replace (i + (k - i))%nat with k in Hs by lia; by rewrite Hl in Hs).
  { simpl in Hn. lia. }
  apply suffix_at_cons in Hs as [Hi Hs]. cbn [validate_from]. simpl in Hn.
  destruct (check_inst vm prog (Z.of_nat i) inst) as [b|e|] eqn:Hc.
  - apply check_inst_inst_ok in Hc as [Hok ->].
    rewrite insts_ok_from_S by done. destruct (is_lddw inst) eqn:Hl.
    + destruct (inst_ok_lddw_next _ _ _ _ Hok Hl) as (next & Hnx & H0).
      replace (Z.to_nat (Z.of_nat i + 1)) with (S i) in Hnx by lia.
      destruct rest as [|x rest].
      { specialize (Hs 0%nat). rewrite Nat.add_0_r, Hnx in Hs. done. }
      apply suffix_at_cons in Hs as [Hx Hs]. rewrite Hnx in Hx. injection Hx as <-.
      rewrite insts_ok_from_skip by done.
      replace (Z.of_nat i + 2) with (Z.of_nat (S (S i))) by lia.
      simpl in Hn. apply IH; [lia|done|].
      apply (not_second_S _ _ next); [done|]. unfold is_lddw. by rewrite H0.
    + replace (Z.of_nat i + 1) with (Z.of_nat (S i)) by lia.
      apply IH; [lia|done|]. by apply (not_second_S _ _ inst).
  - split; [done|]. intros H. pose proof (insts_ok_from_head _ _ _ _ Hi Hns H) as Hok.
    rewrite (proj2 (check_inst_inst_ok _ _ _ _ _) (conj Hok eq_refl)) in Hc. done.
  - split; [done|]. intros H. pose proof (insts_ok_from_head _ _ _ _ Hi Hns H) as Hok.
    rewrite (proj2 (check_inst_inst_ok _ _ _ _ _) (conj Hok eq_refl)) in Hc. done.
Qed.

Lemma validate_instructions_insts_ok vm prog :
  validate_instructions vm prog = Ok tt <-> insts_ok vm prog.
Proof.
  unfold validate_instructions. rewrite (validate_from_iff vm prog (length prog) 0 prog).
  - split; intros H.
    + intros i inst Hi. apply H; [lia|done].
    + intros k inst _. apply H.
  - lia.
  - done.
  - intros p H. done.
Qed.

Lemma check_inst_defined vm prog i inst :
  wf_vm vm -> check_inst vm prog i inst <> Undef.
Proof.
  intros Hwf. unfold check_inst. case_match; [|done].
  assert (check_opcode vm prog i inst e <> Undef) as Hc.
  { destruct e; cbn [check_opcode]; repeat case_match; try done.
    intros _. match goal with Hf : ext_funcs vm !! _ = None |- _ => apply lookup_ge_None in Hf end.
    rewrite (wf_funcs vm Hwf) in *. lia. }
  destruct (check_opcode _ _ _ _ _); simpl; try done.
  unfold check_regs. by repeat case_match.
Qed.

Lemma validate_from_defined vm prog n i rest :
  (length rest <= n)%nat -> wf_vm vm -> validate_from vm prog i rest <> Undef.
Proof.
  intros Hn Hwf. revert i rest Hn.
  induction n as [|n IH]; intros i [|inst rest] Hn; simpl in *; try done; [lia|].
  pose proof (check_inst_defined vm prog i inst Hwf).
  destruct (check_inst vm prog i inst) as [[]|e|]; try done.
  - destruct rest; [done|]. apply IH. simpl in Hn. lia.
  - apply IH. lia.
Qed.

(** C14: the first pass accepts exactly the programs in which every slot with
    opcode 0 is the second half of an LDDW and every other slot has a known
    opcode, registers in range, shift counts below the operand width, non-zero
    immediate divisors, jumps that land inside the program and not inside an
    LDDW, and calls to registered functions; and it always answers. *)
Theorem validate_instructions_exact vm prog :
  wf_vm vm ->
  (validate_instructions vm prog = Ok tt <-> insts_ok vm prog) /\
  validate_instructions vm prog <> Undef.
Proof.
  intros Hwf. split; [apply validate_instructions_insts_ok|].
  by apply (validate_from_defined _ _ (length prog)).
Qed.

Lemma validate_instructions_exact_witness :
  insts_ok (ubpf_create 1)
    [mk_op EBPF_OP_LDDW 1 0 0 7; mk_inst 0 0 0 0 9; mk_op EBPF_OP_EXIT 0 0 0 0].
Proof.
  apply (validate_instructions_exact (ubpf_create 1) _ (wf_ubpf_create 1)).
  reflexivity.
Defined.
