(* ===== verification/ValidateCfg.v ===== *)
(** * Second pass of the verifier: the control-flow graph has no cycle
      (lib/bpf/ubpf_vm.c, [explore_cfg_edge] and [validate_cfg])

    An iterative depth-first search with an explicit stack, a status per
    instruction and, per instruction, the last branch taken out of it.  The
    arrays have [num_insts] entries; an access past their end is [Undef].

    The search is proved to be a decision procedure: it always ends, accepts
    only acyclic graphs and rejects only graphs with a reachable cycle. *)

From S2P Require Import Prelude Ebpf Memory Vm ValidateInsts.

Inductive vertex_status : Set := UNDISCOVERED | DISCOVERED | EXPLORED.

#[export] Instance vertex_status_eq_dec : EqDecision vertex_status.
Proof. solve_decision. Defined.

(** [edge_status]: 0 is UNLABELED, 1 and 2 are BRANCH1_LABELED and
    BRANCH2_LABELED. *)
Record cfg_state : Type := mk_cfg {
  vertices : list vertex_status;
  edges : list nat;
  stack : list nat
}.

Definition at_least_discovered (s : vertex_status) : bool :=
  match s with UNDISCOVERED => false | _ => true end.

(** Returns the C result (1: [u] is to be pushed, 0: nothing to do) with the
    updated labels; the result -1 is the error. *)
Definition explore_cfg_edge (vs : list vertex_status) (es : list nat) (v u branch : nat)
    : res verr (Z * list vertex_status * list nat) :=
  match vs !! v, es !! v with
  | Some sv, Some ev =>
      if at_least_discovered sv && (branch <=? ev)%nat then Ok (0, vs, es)
      else
        match vs !! u with
        | Some UNDISCOVERED => Ok (1, <[u := DISCOVERED]> (<[v := DISCOVERED]> vs), <[v := branch]> es)
        | Some EXPLORED => Ok (0, <[v := DISCOVERED]> vs, <[v := branch]> es)
        | Some DISCOVERED => Err (EBackEdge (Z.of_nat v) (Z.of_nat u))
        | None => Undef
        end
  | _, _ => Undef
  end.

(** The edges the loop body tries out of [v], in order; the [k]-th has label
    [k + 1].  The target is computed in [uint32_t]. *)
Definition cfg_succs (inst : ebpf_inst) (v : nat) : list nat :=
  let u := u32 (Z.of_nat v + 1) in
  if EBPF_CLASS (opcode inst) =? EBPF_CLS_JMP then
    if EBPF_OP (opcode inst) =? EBPF_JMP_JA then [Z.to_nat (u32 (u + offset inst))]
    else if EBPF_OP (opcode inst) =? EBPF_JMP_CALL then [Z.to_nat u]
    else if EBPF_OP (opcode inst) =? EBPF_JMP_EXIT then []
    else [Z.to_nat u; Z.to_nat (u32 (u + offset inst))]
  else [Z.to_nat u].

(** Tries the edges in turn, and stops at the first that reaches a new vertex. *)
Fixpoint explore_edges (vs : list vertex_status) (es : list nat) (v branch : nat)
    (us : list nat) : res verr (option nat * list vertex_status * list nat) :=
  match us with
  | [] => Ok (None, vs, es)
  | u :: us' =>
      let! (r, vs', es') := explore_cfg_edge vs es v u branch in
      if r =? 1 then Ok (Some u, vs', es') else explore_edges vs' es' v (S branch) us'
  end.

(** One iteration with [v] on top of the stack. *)
Definition cfg_visit (prog : list ebpf_inst) (v : nat) (st : cfg_state) : res verr cfg_state :=
  match prog !! v with
  | None => Undef
  | Some inst =>
      let! (r, vs, es) := explore_edges (vertices st) (edges st) v 1 (cfg_succs inst v) in
      match r with
      | Some u =>
          (* [s[++s_idx] = u]: the array has [num_insts] entries *)
          if (length (stack st) <? length prog)%nat
          then Ok (mk_cfg vs es (u :: stack st))
          else Undef
      | None =>
          match vs !! v with
          | Some _ => Ok (mk_cfg (<[v := EXPLORED]> vs) es (tail (stack st)))
          | None => Undef
          end
      end
  end.

Fixpoint cfg_loop (fuel : nat) (prog : list ebpf_inst) (st : cfg_state) : option (res verr unit) :=
  match stack st with
  | [] => Some (Ok tt)
  | v :: _ =>
      match fuel with
      | O => None
      | S fuel' =>
          match cfg_visit prog v st with
          | Ok st' => cfg_loop fuel' prog st'
          | Err e => Some (Err e)
          | Undef => Some Undef
          end
      end
  end.

Definition cfg_init (n : nat) : cfg_state :=
  mk_cfg (<[0%nat := DISCOVERED]> (replicate n UNDISCOVERED)) (replicate n 0%nat) [0%nat].

(** Twice the number of instructions is enough fuel: [cfg_loop_enough_fuel]. *)
Definition validate_cfg (prog : list ebpf_inst) : res verr unit :=
  if (length prog =? 0)%nat then Undef
  else default Undef (cfg_loop (2 * length prog) prog (cfg_init (length prog))).

(** ** The graph *)

Definition succs (prog : list ebpf_inst) (v : nat) : list nat :=
  match prog !! v with Some inst => cfg_succs inst v | None => [] end.

Definition cfg_edge (prog : list ebpf_inst) (v u : nat) : Prop := u ∈ succs prog v.

(** [topo prog L]: every vertex of [L] is an instruction, occurs once, and all
    its successors come later in [L]. *)
Inductive topo (prog : list ebpf_inst) : list nat -> Prop :=
| topo_nil : topo prog []
| topo_cons v L :
    (v < length prog)%nat -> v ∉ L -> (forall u, cfg_edge prog v u -> u ∈ L) ->
    topo prog L -> topo prog (v :: L).

Inductive path (prog : list ebpf_inst) : nat -> nat -> Prop :=
| path_refl v : path prog v v
| path_step v u w : cfg_edge prog v u -> path prog u w -> path prog v w.

Lemma path_snoc prog v u w : path prog v u -> cfg_edge prog u w -> path prog v w.
Proof.
  induction 1 as [|v x u Hvx _ IH]; intros He.
  - eapply path_step; [done|constructor].
  - eapply path_step; eauto.
Qed.

Lemma path_trans prog v u w : path prog v u -> path prog u w -> path prog v w.
Proof. induction 1; [done|]. intros. eapply path_step; eauto. Qed.

Lemma topo_path prog L v u : topo prog L -> v ∈ L -> path prog v u -> u ∈ L.
Proof.
  intros HL Hv Hp. revert L HL Hv. induction Hp as [|v x u Hvx _ IH]; intros L HL Hv; [done|].
  induction HL as [|y L Hlt Hn Hs HL IHL].
  - by apply not_elem_of_nil in Hv.
  - apply elem_of_cons in Hv as [->|Hv].
    + apply elem_of_cons. right. by apply (IH L), Hs.
    + apply elem_of_cons. right. auto.
Qed.

(** A cycle cannot pass through a topologically ordered list. *)
Lemma topo_acyclic prog L v u :
  topo prog L -> v ∈ L -> cfg_edge prog v u -> ~ path prog u v.
Proof.
  induction 1 as [|y L Hlt Hn Hs HL IHL]; intros Hv He Hp.
  - by apply not_elem_of_nil in Hv.
  - apply elem_of_cons in Hv as [->|Hv].
    + apply Hn. eapply topo_path; eauto.
    + by apply IHL.
Qed.

(** ** The search invariant *)

Definition done_upto (prog : list ebpf_inst) (L : list nat) (v k : nat) : Prop :=
  forall j u, (j < k)%nat -> succs prog v !! j = Some u -> u ∈ L.

(** Labels along the stack: the top vertex has finished the branches it has
    labelled; a vertex below another has just taken the edge to it. *)
Fixpoint stack_ok (prog : list ebpf_inst) (L es : list nat) (above : option nat)
    (stk : list nat) : Prop :=
  match stk with
  | [] => True
  | v :: rest =>
      match above with
      | None => exists k, es !! v = Some k /\ done_upto prog L v k
      | Some w => exists k, es !! v = Some (S k) /\ succs prog v !! k = Some w /\
                            done_upto prog L v k
      end /\ stack_ok prog L es (Some v) rest
  end.

Record inv (prog : list ebpf_inst) (L : list nat) (st : cfg_state) : Prop := {
  i_vlen : length (vertices st) = length prog;
  i_elen : length (edges st) = length prog;
  i_expl : forall v, vertices st !! v = Some EXPLORED <-> v ∈ L;
  i_disc : forall v, vertices st !! v = Some DISCOVERED <-> v ∈ stack st;
  i_nodup : NoDup (stack st);
  i_topo : topo prog L;
  i_fresh : forall v, vertices st !! v = Some UNDISCOVERED -> edges st !! v = Some 0%nat;
  i_stack : stack_ok prog L (edges st) None (stack st);
  i_path : forall v, v ∈ stack st -> path prog 0 v;
  i_zero : 0%nat ∈ L \/ 0%nat ∈ stack st
}.

Lemma stack_ok_insert prog L es above v k stk :
  v ∉ stk -> stack_ok prog L es above stk -> stack_ok prog L (<[v := k]> es) above stk.
Proof.
  revert above. induction stk as [|w stk IH]; intros above Hv; simpl; [done|].
  apply not_elem_of_cons in Hv as [Hne Hv]. intros [Hw Hs]. split; [|by apply IH].
  destruct above; by rewrite list_lookup_insert_ne by done.
Qed.

Lemma done_upto_cons prog L v w k : done_upto prog L v k -> done_upto prog (w :: L) v k.
Proof. intros H j u Hj Hu. apply elem_of_cons. right. by apply (H j). Qed.

Lemma stack_ok_cons prog L es w v stk :
  stack_ok prog L es (Some w) stk -> stack_ok prog (v :: L) es (Some w) stk.
Proof.
  revert w. induction stk as [|x stk IH]; intros w; simpl; [done|].
  intros [(k & H1 & H2 & H3) Hs]. split; [|by apply IH].
  exists k. split_and!; try done. by apply done_upto_cons.
Qed.

Lemma stack_ok_pop prog L es v stk :
  stack_ok prog L es (Some v) stk -> stack_ok prog (v :: L) es None stk.
Proof.
  destruct stk as [|x stk]; simpl; [done|].
  intros [(k & H1 & H2 & H3) Hs]. split; [|by apply stack_ok_cons].
  exists (S k). split; [done|]. intros j u Hj Hu.
  destruct (decide (j = k)) as [->|Hne].
  - rewrite H2 in Hu. injection Hu as ->. apply elem_of_cons. by left.
  - apply (done_upto_cons _ _ _ v) in H3. apply (H3 j); [lia|done].
Qed.

Section Search.
Context (prog : list ebpf_inst).

Lemma inv_top L vs es v rest :
  inv prog L (mk_cfg vs es (v :: rest)) ->
  vs !! v = Some DISCOVERED /\ (v < length prog)%nat /\ (v ∉ rest) /\ (v ∉ L) /\
  exists k, es !! v = Some k /\ done_upto prog L v k.
Proof.
  intros [H1 H2 H3 H4 H5 H6 H7 H8 H9 H10]. simpl in *.
  assert (vs !! v = Some DISCOVERED) as Hd by (apply H4, elem_of_cons; auto).
  apply NoDup_cons in H5 as [Hn _]. destruct H8 as [Hk _].
  split_and!; try done.
  - rewrite <- H1. by eapply lookup_lt_Some.
  - rewrite <- H3. congruence.
Qed.

Lemma inv_label L vs es v rest k :
  inv prog L (mk_cfg vs es (v :: rest)) -> done_upto prog L v k ->
  inv prog L (mk_cfg vs (<[v := k]> es) (v :: rest)).
Proof.
  intros Hi Hk. destruct (inv_top _ _ _ _ _ Hi) as (Hd & Hlt & Hnr & HnL & _).
  destruct Hi as [H1 H2 H3 H4 H5 H6 H7 H8 H9 H10]. simpl in *.
  split; simpl; try done.
  - by rewrite length_insert.
  - intros w Hw. rewrite list_lookup_insert_ne by congruence. auto.
  - split; [|apply stack_ok_insert; tauto].
    exists k. by rewrite list_lookup_insert_eq by lia.
Qed.

Lemma inv_push L vs es v rest u j :
  inv prog L (mk_cfg vs es (v :: rest)) -> vs !! u = Some UNDISCOVERED ->
  succs prog v !! j = Some u -> done_upto prog L v j ->
  inv prog L (mk_cfg (<[u := DISCOVERED]> vs) (<[v := S j]> es) (u :: v :: rest)).
Proof.
  intros Hi Hu Hj Hk. destruct (inv_top _ _ _ _ _ Hi) as (Hd & Hlt & Hnr & HnL & _).
  destruct Hi as [H1 H2 H3 H4 H5 H6 H7 H8 H9 H10]. simpl in *.
  assert (u < length vs)%nat as Hul by (by eapply lookup_lt_Some).
  assert (u <> v) as Hne by congruence.
  split; simpl; try done.
  - by rewrite length_insert.
  - by rewrite length_insert.
  - intros w. destruct (decide (u = w)) as [->|Hw].
    + rewrite list_lookup_insert_eq, <- H3 by lia. split; congruence.
    + by rewrite list_lookup_insert_ne.
  - intros w. rewrite elem_of_cons. destruct (decide (u = w)) as [->|Hw].
    + rewrite list_lookup_insert_eq by lia. tauto.
    + rewrite list_lookup_insert_ne, H4 by done. intuition congruence.
  - apply NoDup_cons. split; [|done]. rewrite <- H4. congruence.
  - intros w. destruct (decide (u = w)) as [->|Hw].
    + rewrite list_lookup_insert_eq by lia. done.
    + rewrite list_lookup_insert_ne by done. intros Hf.
      rewrite list_lookup_insert_ne by congruence. auto.
  - split_and!.
    + exists 0%nat. rewrite list_lookup_insert_ne by done. split; [auto|]. intros ??. lia.
    + exists j. rewrite list_lookup_insert_eq by lia. auto.
    + apply stack_ok_insert; [done|]. apply H8.
  - intros w [->|Hw]%elem_of_cons; [|auto]. apply (path_snoc _ _ v).
    + apply H9, elem_of_cons. auto.
    + by apply list_elem_of_lookup_2 in Hj.
  - destruct H10 as [?|?]; [auto|right]. apply elem_of_cons. auto.
Qed.

Lemma inv_pop L vs es v rest :
  inv prog L (mk_cfg vs es (v :: rest)) -> (forall u, cfg_edge prog v u -> u ∈ L) ->
  inv prog (v :: L) (mk_cfg (<[v := EXPLORED]> vs) es rest).
Proof.
  intros Hi Hs. destruct (inv_top _ _ _ _ _ Hi) as (Hd & Hlt & Hnr & HnL & _).
  destruct Hi as [H1 H2 H3 H4 H5 H6 H7 H8 H9 H10]. simpl in *.
  split; simpl; try done.
  - by rewrite length_insert.
  - intros w. rewrite elem_of_cons. destruct (decide (v = w)) as [->|Hw].
    + rewrite list_lookup_insert_eq by lia. tauto.
    + rewrite list_lookup_insert_ne, H3 by done. intuition congruence.
  - intros w. destruct (decide (v = w)) as [->|Hw].
    + rewrite list_lookup_insert_eq by lia. split; [done|]. tauto.
    + rewrite list_lookup_insert_ne, H4, elem_of_cons by done. intuition congruence.
  - by apply NoDup_cons in H5 as [_ ?].
  - by constructor.
  - intros w. destruct (decide (v = w)) as [->|Hw].
    + by rewrite list_lookup_insert_eq by lia.
    + rewrite list_lookup_insert_ne by done. auto.
  - apply stack_ok_pop, H8.
  - intros w Hw. apply H9, elem_of_cons. auto.
  - rewrite elem_of_cons in *. tauto.
Qed.

Lemma topo_NoDup L : topo prog L -> NoDup L.
Proof. induction 1; [constructor|by apply NoDup_cons]. Qed.

Lemma topo_lt L v : topo prog L -> v ∈ L -> (v < length prog)%nat.
Proof.
  induction 1; intros Hv; [by apply not_elem_of_nil in Hv|].
  apply elem_of_cons in Hv as [->|Hv]; auto.
Qed.

Lemma inv_bound L st : inv prog L st -> (length L + length (stack st) <= length prog)%nat.
Proof.
  intros [H1 H2 H3 H4 H5 H6 H7 H8 H9 H10].
  rewrite <- length_app, <- (length_seq (length prog) 0).
  apply submseteq_length, NoDup_submseteq.
  - apply NoDup_app. split_and!; [by apply topo_NoDup| |done].
    intros v Hv%H3 Hs%H4. congruence.
  - intros v [Hv|Hv]%elem_of_app; apply elem_of_seq.
    + apply topo_lt in Hv; [lia|done].
    + apply H4, lookup_lt_Some in Hv. lia.
Qed.

Lemma drop_cons_lookup {A} (l : list A) j x l' :
  x :: l' = drop j l -> l !! j = Some x /\ l' = drop (S j) l.
Proof.
  intros H. split.
  - rewrite <- (Nat.add_0_r j), <- lookup_drop, <- H. done.
  - rewrite <- Nat.add_1_r, <- drop_drop, <- H. done.
Qed.

Lemma done_upto_S L v j u :
  done_upto prog L v j -> succs prog v !! j = Some u -> u ∈ L -> done_upto prog L v (S j).
Proof.
  intros Hd Hu HL i w Hi Hw. destruct (decide (i = j)) as [->|Hne]; [congruence|].
  apply (Hd i); [lia|done].
Qed.

Lemma explore_edges_spec L es vs v rest j us :
  inv prog L (mk_cfg vs es (v :: rest)) ->
  us = drop j (succs prog v) -> done_upto prog L v j ->
  match explore_edges vs es v (S j) us with
  | Ok (Some u, vs', es') => inv prog L (mk_cfg vs' es' (u :: v :: rest))
  | Ok (None, vs', es') =>
      inv prog L (mk_cfg vs' es' (v :: rest)) /\ forall u, cfg_edge prog v u -> u ∈ L
  | Err e => exists u, e = EBackEdge (Z.of_nat v) (Z.of_nat u) /\
                       cfg_edge prog v u /\ u ∈ v :: rest
  | Undef => exists u, cfg_edge prog v u /\ (length prog <= u)%nat
  end.
Proof.
  revert j es vs. induction us as [|u us IH]; intros j es vs Hi Hus Hd.
  { simpl. split; [done|]. intros u Hu. apply list_elem_of_lookup in Hu as [i Hi'].
    apply (Hd i); [|done]. apply lookup_lt_Some in Hi'.
    symmetry in Hus. apply (f_equal length) in Hus. rewrite length_drop in Hus. simpl in Hus. lia. }
  apply drop_cons_lookup in Hus as [Hj Hus].
  destruct (inv_top _ _ _ _ _ Hi) as (Hv & Hlt & Hnr & HnL & k & Hk & Hdk).
  cbn [explore_edges]. unfold explore_cfg_edge at 1. rewrite Hv, Hk.
  cbn [at_least_discovered andb].
  destruct (Nat.leb_spec (S j) k).
  { simpl. apply IH; [done|done|]. eapply done_upto_S; [done|done|].
    apply (Hdk j); [lia|done]. }
  assert (cfg_edge prog v u) as He by (by eapply list_elem_of_lookup_2).
  destruct (vs !! u) as [[]|] eqn:Hu; simpl.
  - rewrite (list_insert_id vs v) by done. by apply inv_push.
  - exists u. split_and!; try done. by apply (i_disc _ _ _ Hi).
  - rewrite (list_insert_id vs v) by done.
    assert (done_upto prog L v (S j)) as Hd'.
    { eapply done_upto_S; [done|done|]. by apply (i_expl _ _ _ Hi). }
    apply IH; [by apply inv_label|done|done].
  - exists u. split; [done|]. apply lookup_ge_None in Hu.
    by rewrite <- (i_vlen _ _ _ Hi).
Qed.

(** The number of iterations left: two per undiscovered vertex, one per
    vertex on the stack. *)
Definition measure (L : list nat) (st : cfg_state) : nat :=
  2 * (length prog - length L - length (stack st)) + length (stack st).

(** A cycle that execution can reach. *)
Definition reachable_cycle : Prop :=
  exists v u, path prog 0 v /\ cfg_edge prog v u /\ path prog u v.

(** Control reaches an edge that leaves the program. *)
Definition falls_off : Prop :=
  exists v u, path prog 0 v /\ cfg_edge prog v u /\ (length prog <= u)%nat.

Lemma stack_path L es above v stk u :
  stack_ok prog L es above (v :: stk) -> u ∈ v :: stk -> path prog u v.
Proof.
  revert above v. induction stk as [|w stk IH]; intros above v Hs Hu.
  - apply list_elem_of_singleton in Hu as ->. constructor.
  - apply elem_of_cons in Hu as [->|Hu]; [constructor|].
    destruct Hs as [_ Hs]. pose proof Hs as [(k & _ & Hk & _) _].
    apply (path_snoc _ _ w); [by eapply IH|by eapply list_elem_of_lookup_2].
Qed.

Lemma cfg_visit_spec L vs es v rest :
  inv prog L (mk_cfg vs es (v :: rest)) ->
  match cfg_visit prog v (mk_cfg vs es (v :: rest)) with
  | Ok st' => exists L', inv prog L' st' /\
                (measure L' st' < measure L (mk_cfg vs es (v :: rest)))%nat
  | Err e => (exists u w, e = EBackEdge u w) /\ reachable_cycle
  | Undef => falls_off
  end.
Proof.
  intros Hi. destruct (inv_top _ _ _ _ _ Hi) as (Hv & Hlt & Hnr & HnL & _).
  assert (path prog 0 v) as Hp by (apply (i_path _ _ _ Hi), elem_of_cons; auto).
  unfold cfg_visit. destruct (lookup_lt_is_Some_2 prog v Hlt) as [inst Hin]. rewrite Hin.
  assert (succs prog v = cfg_succs inst v) as Hsu by (unfold succs; by rewrite Hin).
  pose proof (explore_edges_spec L es vs v rest 0 (succs prog v) Hi eq_refl) as He.
  specialize (He ltac:(intros ???; lia)). rewrite Hsu in He.
  cbn [vertices edges stack]. pose proof (inv_bound _ _ Hi) as Hb. simpl in Hb.
  destruct (explore_edges _ _ _ _ _) as [[[[u|] vs'] es']|e|]; simpl in *.
  - pose proof (inv_bound _ _ He) as Hb'. simpl in Hb'.
    destruct (Nat.ltb_spec (S (length rest)) (length prog)); [|lia].
    exists L. split; [done|]. unfold measure. simpl. lia.
  - destruct He as [Hi' Hall]. destruct (inv_top _ _ _ _ _ Hi') as (Hv' & _). rewrite Hv'.
    exists (v :: L). split; [by apply inv_pop|]. unfold measure. simpl. lia.
  - destruct He as (u & -> & He & Hu). split; [eauto|].
    exists v, u. split_and!; try done. by eapply stack_path; [apply Hi|].
  - destruct He as (u & He & Hu). by exists v, u.
Qed.
End Search.

Lemma cfg_loop_spec prog fuel L st :
  inv prog L st -> (measure prog L st <= fuel)%nat ->
  exists r, cfg_loop fuel prog st = Some r /\
    match r with
    | Ok _ => exists L', topo prog L' /\ 0%nat ∈ L'
    | Err e => (exists u w, e = EBackEdge u w) /\ reachable_cycle prog
    | Undef => falls_off prog
    end.
Proof.
  revert L st. induction fuel as [|fuel IH]; intros L [vs es [|v rest]] Hi Hm.
  all: try (exists (Ok tt); split; [done|]; exists L; split; [apply Hi|];
            destruct (i_zero _ _ _ Hi) as [?|Hz]; [done|]; by apply not_elem_of_nil in Hz).
  - unfold measure in Hm. simpl in Hm. lia.
  - pose proof (cfg_visit_spec prog L vs es v rest Hi) as Hv.
    cbn [cfg_loop stack]. destruct (cfg_visit _ _ _) as [st'|e|]; [|by eauto..].
    destruct Hv as (L' & Hi' & Hlt). apply (IH L'); [done|lia].
Qed.

Lemma inv_init prog : (0 < length prog)%nat -> inv prog [] (cfg_init (length prog)).
Proof.
  intros Hn. split; simpl.
  - by rewrite length_insert, length_replicate.
  - by rewrite length_replicate.
  - intros v. split; [|by intros ?%not_elem_of_nil].
    intros [Hx|[_ Hx]]%list_lookup_insert_Some; [by destruct Hx as (_ & [=] & _)|].
    by apply lookup_replicate in Hx as [[=] _].
  - intros v. rewrite list_elem_of_singleton. split.
    + intros [Hx|[_ Hx]]%list_lookup_insert_Some; [by destruct Hx as (-> & _)|].
      by apply lookup_replicate in Hx as [[=] _].
    + intros ->. apply list_lookup_insert_eq. by rewrite length_replicate.
  - apply NoDup_singleton.
  - constructor.
  - intros v Hv. apply lookup_replicate_2.
    apply lookup_lt_Some in Hv. by rewrite length_insert, length_replicate in Hv.
  - split; [|done]. exists 0%nat. split; [by apply lookup_replicate_2|]. intros ??. lia.
  - intros v ->%list_elem_of_singleton. constructor.
  - right. by apply list_elem_of_singleton.
Qed.

Lemma validate_cfg_spec prog :
  prog <> [] ->
  match validate_cfg prog with
  | Ok _ => exists L, topo prog L /\ 0%nat ∈ L
  | Err e => (exists u w, e = EBackEdge u w) /\ reachable_cycle prog
  | Undef => falls_off prog
  end.
Proof.
  intros Hne. unfold validate_cfg. destruct prog as [|i0 prog]; [done|]. clear Hne.
  set (p := i0 :: prog). change (length p =? 0)%nat with false. cbv iota.
  destruct (cfg_loop_spec p (2 * length p) [] (cfg_init (length p))) as (r & -> & Hr).
  - apply inv_init. simpl. lia.
  - unfold measure. simpl. lia.
  - exact Hr.
Qed.

(** A topological order rules out both ways to reject. *)
Lemma topo_no_cycle prog L :
  topo prog L -> 0%nat ∈ L -> ~ reachable_cycle prog /\ ~ falls_off prog.
Proof.
  intros HL H0. split.
  - intros (v & u & Hp & He & Hc).
    apply (topo_acyclic prog L v u); try done. by eapply topo_path.
  - intros (v & u & Hp & He & Hu).
    assert (u ∈ L) as HuL by (eapply topo_path; [done|exact H0|by eapply path_snoc]).
    pose proof (topo_lt prog L u HL HuL). lia.
Qed.

(** C15: the depth-first search decides the property it is there for: on a
    non-empty program it always ends, it accepts exactly when no cycle and no
    edge out of the program can be reached from the first instruction, a
    back-edge error is a real cycle, and it steps outside its arrays only when
    control can run off the program. *)
Theorem validate_cfg_exact prog :
  prog <> [] ->
  (validate_cfg prog = Ok tt <-> ~ reachable_cycle prog /\ ~ falls_off prog) /\
  (forall e, validate_cfg prog = Err e -> (exists v u, e = EBackEdge v u) /\ reachable_cycle prog) /\
  (validate_cfg prog = Undef -> falls_off prog).
Proof.
  intros Hne. pose proof (validate_cfg_spec prog Hne) as H.
  destruct (validate_cfg prog) as [[]|e|].
  - destruct H as (L & HL & H0). split; [|done].
    split; [intros _; by eapply topo_no_cycle|done].
  - destruct H as [He H]. split; [split; [done|tauto]|]. split; [|done].
    intros e' [= <-]. done.
  - split; [split; [done|tauto]|]. split; done.
Qed.

Lemma validate_cfg_exact_witness :
  reachable_cycle [mk_inst 0xb7 0 0 0 0; mk_inst 0x05 0 0 (-2) 0].
Proof.
  apply (validate_cfg_exact [mk_inst 0xb7 0 0 0 0; mk_inst 0x05 0 0 (-2) 0])
    with (e := EBackEdge 1 0); [done|vm_compute; reflexivity].
Defined.

(** the first pass accepts a program that runs off its end, and the second
    one then reads past its status array. *)
Theorem falls_off_not_rejected vm :
  let prog := [mk_inst (opcode_of EBPF_OP_MOV64_IMM) 0 0 0 0] in
  validate_instructions vm prog = Ok tt /\ validate_cfg prog = Undef.
Proof. split; vm_compute; reflexivity. Qed.
