(* ===== verification/ExecSafety.v ===== *)
(** * Verified programs terminate

    The two static passes are connected to the interpreter: a program that
    [validate_instructions] and [validate_cfg] accept makes [ubpf_exec] stop
    after at most one step per instruction, whatever the registers, the memory
    and the external functions do; and the only ways a step of such a program
    can leave the C semantics are listed. *)

From S2P Require Import Prelude Ebpf Memory Vm Interp InterpProps ValidateInsts ValidateCfg.

(** ** Where a step goes *)

Lemma exec_alu_pc o i st st' : exec_alu o i st = Some (Continue st') -> pc st' = pc st.
Proof.
  unfold exec_alu. destruct (exec_alu32 _ _ _ _) as [[]|]; simpl.
  1-3: by intros [= <-].
  destruct (exec_alu64 _ _ _ _) as [[]|]; simpl; by intros [= <-].
Qed.

Lemma exec_load_pc env i n st st' : exec_load env i n st = Continue st' -> pc st' = pc st.
Proof. unfold exec_load. repeat case_match; by intros [= <-]. Qed.

Lemma exec_store_pc env i n v st st' : exec_store env i n v st = Continue st' -> pc st' = pc st.
Proof. unfold exec_store. repeat case_match; by intros [= <-]. Qed.

Lemma exec_mem_pc env prog o i st st' :
  exec_mem env prog o i st = Some (Continue st') ->
  pc st' = if op_is_lddw o then u16 (pc st + 1) else pc st.
Proof.
  destruct o; cbn [exec_mem op_is_lddw]; try discriminate; intros H; injection H as H.
  all: try by eapply exec_load_pc.
  all: try by eapply exec_store_pc.
  case_match; [|done]. by injection H as <-.
Qed.

Lemma exec_call_pc vm i st st' : exec_call vm i st = Continue st' -> pc st' = pc st.
Proof. unfold exec_call. repeat case_match; by intros [= <-]. Qed.

(** The program counters an instruction can continue at, [p] being its own. *)
Definition next_pcs (inst : ebpf_inst) (o : ebpf_op) (p : Z) : list Z :=
  let next := u16 (p + 1) in
  let jump := u16 (next + offset inst) in
  if op_is_lddw o then [u16 (next + 1)]
  else match jump_taken o 0 0 0 with
       | Some _ => match o with EBPF_OP_JA => [jump] | _ => [next; jump] end
       | None => match o with EBPF_OP_EXIT => [] | _ => [next] end
       end.

Lemma exec_jmp_pc vm o i st st' :
  exec_jmp vm o i st = Some (Continue st') ->
  op_is_lddw o = false /\
  match jump_taken o 0 0 0 with
  | Some _ =>
      match o with
      | EBPF_OP_JA => pc st' = u16 (pc st + offset i)
      | _ => pc st' = pc st \/ pc st' = u16 (pc st + offset i)
      end
  | None => match o with EBPF_OP_EXIT => False | _ => pc st' = pc st end
  end.
Proof.
  destruct o; cbn [exec_jmp jump_taken op_is_lddw]; try discriminate; intros H;
    injection H as H.
  all: try (split; [done|]; by eapply exec_call_pc).
  all: try (subst; split; [done|]; simpl; case_match; auto).
  by subst.
Qed.

Lemma exec_step_next vm env prog st st' :
  exec_step vm env prog st = Continue st' ->
  exists inst, prog !! Z.to_nat (pc st) = Some inst /\
    match op_of_opcode (opcode inst) with
    | Some o => pc st' ∈ next_pcs inst o (pc st)
    | None => pc st' = u16 (pc st + 1)
    end.
Proof.
  unfold exec_step. destruct (prog !! _) as [inst|] eqn:Hi; [|done].
  intros H. exists inst. split; [done|].
  destruct (op_of_opcode (opcode inst)) as [o|]; [|by injection H as <-].
  destruct (exec_alu o inst _) as [r|] eqn:Ea.
  { subst. pose proof (exec_alu_pc _ _ _ _ Ea) as Hp. simpl in Hp.
    destruct o; try discriminate; rewrite Hp; apply list_elem_of_singleton; reflexivity. }
  destruct (exec_mem _ _ o inst _) as [r|] eqn:Em.
  { subst. pose proof (exec_mem_pc _ _ _ _ _ _ Em) as Hp. simpl in Hp.
    destruct o; try discriminate; simpl in Hp; rewrite Hp; apply list_elem_of_singleton; reflexivity. }
  destruct (exec_jmp _ o inst _) as [r|] eqn:Ej.
  - subst. apply exec_jmp_pc in Ej as [Hl Hj]. unfold next_pcs. rewrite Hl. simpl in Hj.
    destruct o; cbn [jump_taken] in *; try done; try (apply list_elem_of_singleton; done);
      rewrite elem_of_cons, list_elem_of_singleton; tauto.
  - injection H as <-. unfold next_pcs. simpl.
    destruct o; try discriminate; apply list_elem_of_singleton; reflexivity.
Qed.

(** ** Steps follow the edges of the graph *)

Lemma cfg_succs_op inst o v :
  op_of_opcode (opcode inst) = Some o ->
  let next := u32 (Z.of_nat v + 1) in
  let jump := u32 (next + offset inst) in
  cfg_succs inst v =
    match jump_taken o 0 0 0 with
    | Some _ =>
        match o with EBPF_OP_JA => [Z.to_nat jump] | _ => [Z.to_nat next; Z.to_nat jump] end
    | None => match o with EBPF_OP_EXIT => [] | _ => [Z.to_nat next] end
    end.
Proof.
  intros H%op_of_opcode_Some. unfold cfg_succs. rewrite <- H. destruct o; reflexivity.
Qed.

(** A slot that holds an instruction, not the second half of an LDDW. *)
Definition starts (prog : list ebpf_inst) (v : nat) : Prop :=
  exists inst, prog !! v = Some inst /\ opcode inst <> 0.

Section Accepted.
Context (vm : ubpf_vm) (prog : list ebpf_inst).
Context (Hok : insts_ok vm prog) (Hlen : Z.of_nat (length prog) < MAX_INSTS).

Lemma starts_next v inst :
  prog !! v = Some inst -> is_lddw inst = false -> (S v < length prog)%nat ->
  starts prog (S v).
Proof using Hok.
  intros Hv Hl Hlt. destruct (lookup_lt_is_Some_2 prog (S v) Hlt) as [i' Hi'].
  exists i'. split; [done|]. intros H0. specialize (Hok _ _ Hi'). rewrite H0 in Hok.
  simpl in Hok. destruct Hok as (p & _ & Hp & Hpl). rewrite Nat.sub_0_r in Hp.
  congruence.
Qed.

Lemma accepted_op v inst o :
  prog !! v = Some inst -> op_of_opcode (opcode inst) = Some o ->
  opcode_ok vm prog (Z.of_nat v) inst o.
Proof using Hok.
  intros Hv Ho. specialize (Hok _ _ Hv). destruct (Z.eqb_spec (opcode inst) 0) as [E|E].
  - by rewrite E, op_of_opcode_0 in Ho.
  - destruct Hok as (o' & Ho' & Hoo & _). congruence.
Qed.

Lemma pc_small v : (v < length prog)%nat ->
  u16 (Z.of_nat v + 1) = Z.of_nat (S v) /\ u32 (Z.of_nat v + 1) = Z.of_nat (S v).
Proof using Hlen. intros. split; rewrite wrap_small by (unfold in_u; clia); lia. Qed.

(** The target of an accepted jump. *)
Lemma jump_target v inst o :
  prog !! v = Some inst -> op_of_opcode (opcode inst) = Some o ->
  is_Some (jump_taken o 0 0 0) ->
  exists t, u16 (Z.of_nat (S v) + offset inst) = Z.of_nat t /\
            u32 (Z.of_nat (S v) + offset inst) = Z.of_nat t /\ starts prog t.
Proof using Hok Hlen.
  intros Hv Ho Hj.
  destruct (ok_jump _ _ _ _ _ (accepted_op _ _ _ Hv Ho) Hj) as (H0 & t & Ht & Hn0).
  pose proof (lookup_lt_Some _ _ _ Ht) as Htl.
  exists (Z.to_nat (Z.of_nat v + 1 + offset inst)).
  split_and!; [rewrite wrap_small by (unfold in_u; clia); lia..|]. by exists t.
Qed.

(** Outside LDDW the interpreter and the graph have the same successors. *)
Lemma next_pcs_succs v inst o :
  prog !! v = Some inst -> op_of_opcode (opcode inst) = Some o -> op_is_lddw o = false ->
  next_pcs inst o (Z.of_nat v) = Z.of_nat <$> cfg_succs inst v.
Proof using Hok Hlen.
  intros Hv Ho Hl. pose proof (lookup_lt_Some _ _ _ Hv) as Hlt.
  rewrite (cfg_succs_op inst o v Ho). unfold next_pcs. rewrite Hl.
  destruct (pc_small v Hlt) as [-> ->].
  destruct (jump_taken o 0 0 0) as [b|] eqn:Hj.
  - destruct (jump_target v inst o Hv Ho ltac:(eauto)) as (t & -> & -> & _).
    rewrite !Nat2Z.id. by destruct o.
  - rewrite Nat2Z.id. by destruct o.
Qed.

Lemma succs_start v inst o u :
  prog !! v = Some inst -> op_of_opcode (opcode inst) = Some o -> op_is_lddw o = false ->
  u ∈ cfg_succs inst v -> (u < length prog)%nat -> starts prog u.
Proof using Hok Hlen.
  intros Hv Ho Hl Hu Hul. pose proof (lookup_lt_Some _ _ _ Hv) as Hlt.
  assert (S v = u -> starts prog u) as Hnext.
  { intros <-. apply (starts_next v inst); [done| |done]. by rewrite <- (is_lddw_op _ _ Ho). }
  rewrite (cfg_succs_op inst o v Ho) in Hu. destruct (pc_small v Hlt) as [_ E].
  rewrite E, Nat2Z.id in Hu. destruct (jump_taken o 0 0 0) as [b|] eqn:Hj.
  - destruct (jump_target v inst o Hv Ho ltac:(eauto)) as (t & _ & E' & Ht).
    rewrite E', Nat2Z.id in Hu.
    assert (u ∈ [S v; t]) as [Hx|Hx%list_elem_of_singleton]%elem_of_cons
      by (destruct o; rewrite ?elem_of_cons in *; tauto).
    + by apply Hnext.
    + by subst.
  - assert (u ∈ [S v]) as Hx%list_elem_of_singleton
      by (destruct o; try done; by apply not_elem_of_nil in Hu).
    by apply Hnext.
Qed.

Lemma lddw_succs v inst :
  prog !! v = Some inst -> op_of_opcode (opcode inst) = Some EBPF_OP_LDDW ->
  cfg_edge prog v (S v) /\ cfg_edge prog (S v) (S (S v)) /\
  next_pcs inst EBPF_OP_LDDW (Z.of_nat v) = [Z.of_nat (S (S v))] /\
  ((S (S v) < length prog)%nat -> starts prog (S (S v))).
Proof using Hok Hlen.
  intros Hv Ho. pose proof (lookup_lt_Some _ _ _ Hv) as Hlt.
  destruct (ok_lddw _ _ _ _ _ (accepted_op _ _ _ Hv Ho) eq_refl) as (nx & Hnx & H0).
  replace (Z.to_nat (Z.of_nat v + 1)) with (S v) in Hnx by lia.
  pose proof (lookup_lt_Some _ _ _ Hnx) as Hlt'.
  destruct (pc_small v Hlt) as [E1 E2]. destruct (pc_small (S v) Hlt') as [E3 E4].
  unfold cfg_edge, succs. rewrite Hv, Hnx, (cfg_succs_op _ _ _ Ho). split_and!.
  - simpl. rewrite E2, Nat2Z.id. by apply list_elem_of_singleton.
  - unfold cfg_succs. rewrite H0. simpl. rewrite E4, Nat2Z.id. by apply list_elem_of_singleton.
  - unfold next_pcs. simpl. by rewrite E1, E3.
  - apply (starts_next (S v) nx); [done|]. unfold is_lddw. by rewrite H0.
Qed.

(** Every continuation of an accepted instruction lies in any topologically
    ordered list that contains its successors. *)
Lemma next_pcs_follow L v inst o p :
  topo prog L -> prog !! v = Some inst -> op_of_opcode (opcode inst) = Some o ->
  (forall u, cfg_edge prog v u -> u ∈ L) ->
  p ∈ next_pcs inst o (Z.of_nat v) ->
  exists v', p = Z.of_nat v' /\ v' ∈ L /\ starts prog v'.
Proof using Hok Hlen.
  intros HL Hv Ho Hcl Hp. destruct (op_is_lddw o) eqn:Hl.
  - assert (o = EBPF_OP_LDDW) as -> by (by destruct o).
    destruct (lddw_succs v inst Hv Ho) as (He1 & He2 & Hn & Hst). rewrite Hn in Hp.
    apply list_elem_of_singleton in Hp as ->.
    assert (S (S v) ∈ L) as HSS.
    { eapply topo_path; [done|exact (Hcl _ He1)|]. eapply path_step; [done|constructor]. }
    exists (S (S v)). split_and!; try done. apply Hst. by eapply topo_lt.
  - rewrite (next_pcs_succs v inst o) in Hp by done.
    apply list_elem_of_fmap in Hp as (u & -> & Hu). exists u.
    assert (u ∈ L) as HuL by (apply Hcl; unfold cfg_edge, succs; by rewrite Hv).
    split_and!; try done. eapply succs_start; [done..|]. by eapply topo_lt.
Qed.

Lemma exec_loop_terminates env L v st fuel :
  topo prog L -> v ∈ L -> starts prog v -> pc st = Z.of_nat v ->
  (length L <= fuel)%nat -> exec_loop fuel vm env prog st <> OutOfFuel.
Proof using Hok Hlen.
  intros HL. revert v st fuel. induction HL as [|w L Hlt Hn Hcl HL IH];
    intros v st fuel Hv Hst Hpc Hf; [by apply not_elem_of_nil in Hv|].
  apply elem_of_cons in Hv as [->|Hv]; [|apply (IH v); try done; simpl in Hf; lia].
  destruct fuel as [|fuel]; simpl in Hf; [lia|]. simpl.
  destruct (exec_step vm env prog st) as [st'| |] eqn:Hs; [|done..].
  apply exec_step_next in Hs as (inst & Hi & Hnx). rewrite Hpc, Nat2Z.id in Hi.
  destruct Hst as (i' & Hi' & Hn0). rewrite Hi in Hi'. injection Hi' as <-.
  destruct (op_of_opcode (opcode inst)) as [o|] eqn:Ho.
  - rewrite Hpc in Hnx.
    destruct (next_pcs_follow L w inst o _ HL Hi Ho Hcl Hnx) as (v' & Hp' & HvL & Hs').
    apply (IH v'); try done. lia.
  - specialize (Hok _ _ Hi). destruct (Z.eqb_spec (opcode inst) 0); [done|].
    destruct Hok as (o & Ho' & _). congruence.
Qed.
End Accepted.

Lemma topo_length prog L : topo prog L -> (length L <= length prog)%nat.
Proof.
  intros HL. rewrite <- (length_seq (length prog) 0).
  apply submseteq_length, NoDup_submseteq; [by eapply topo_NoDup|].
  intros v Hv. apply elem_of_seq. pose proof (topo_lt _ _ _ HL Hv). lia.
Qed.

Lemma accepted_terminates vm prog env regs0 m :
  insts vm = Some prog -> Z.of_nat (length prog) < MAX_INSTS ->
  insts_ok vm prog -> validate_cfg prog = Ok tt ->
  ubpf_exec (length prog) vm env regs0 m <> OutOfFuel.
Proof.
  intros Hi Hlen Hv Hc. assert (prog <> []) as Hne by (by intros ->).
  pose proof (validate_cfg_spec prog Hne) as H. rewrite Hc in H.
  destruct H as (L & HL & H0). unfold ubpf_exec. rewrite Hi.
  apply (exec_loop_terminates vm prog Hv Hlen env L 0); try done; [|by apply topo_length].
  destruct prog as [|i0 prog]; [done|]. exists i0. split; [done|].
  intros E. specialize (Hv 0%nat i0 eq_refl). rewrite E in Hv. by destruct Hv as (? & ? & _).
Qed.

(** C1: a program that the first two passes of the verifier accept runs to its
    end: [ubpf_exec] stops within one step per instruction, for every context,
    stack, initial register contents and behaviour of the external functions. *)
Theorem ubpf_exec_terminates vm prog env regs0 m :
  insts vm = Some prog -> Z.of_nat (length prog) < MAX_INSTS ->
  validate_instructions vm prog = Ok tt -> validate_cfg prog = Ok tt ->
  ubpf_exec (length prog) vm env regs0 m <> OutOfFuel.
Proof.
  intros Hi Hlen Hv Hc. apply validate_instructions_insts_ok in Hv.
  by apply accepted_terminates.
Qed.

Lemma ubpf_exec_terminates_witness :
  ubpf_exec (length demo_prog) demo_vm demo_env (replicate 16 7) ∅ <> OutOfFuel.
Proof.
  apply (ubpf_exec_terminates demo_vm demo_prog demo_env (replicate 16 7) ∅);
    [reflexivity|vm_compute; reflexivity|vm_compute; reflexivity|vm_compute; reflexivity].
Defined.

(** ** What can still go wrong in an accepted program *)

(** The operand [s] is the source register. *)
Definition alu_hazard (o : ebpf_op) (s : Z) : Prop :=
  exists w k, alu_classify o = Some (w, k, true) /\
    ((is_shift k = true /\ ~ (0 <= s < w)) \/
     (w = 32 /\ (k = KDiv \/ k = KMod) /\ s <> 0 /\ u32 s = 0)).

Lemma alu_opt_undef f o : alu_opt f o = AUndef -> o = None.
Proof. by destruct o. Qed.

Lemma shl_None w x n : shl w x n = None -> ~ (0 <= n < w).
Proof. unfold shl. case_match; [done|lia]. Qed.
Lemma shr_None w x n : shr w x n = None -> ~ (0 <= n < w).
Proof. unfold shr. case_match; [done|lia]. Qed.
Lemma udiv_None x y : udiv x y = None -> y = 0.
Proof. unfold udiv. case_match; [lia|done]. Qed.
Lemma umod_None x y : umod x y = None -> y = 0.
Proof. unfold umod. case_match; [lia|done]. Qed.

Lemma wrap_zero_imm w i : 32 <= w -> in_s 32 i -> wrap w i = 0 -> i = 0.
Proof.
  intros Hw Hi H0. assert (wrap 32 (wrap w i) = wrap 32 i) as E by (apply wrap_wrap_le; lia).
  rewrite H0 in E. clear H0. unfold in_s in Hi. word_lia.
Qed.

Lemma alu_undef_hazard vm prog p inst o d s :
  opcode_ok vm prog p inst o -> in_s 32 (imm inst) -> in_u 64 s ->
  alu_value o d s (imm inst) = Some AUndef -> alu_hazard o s.
Proof.
  intros [Hs Hd _ _ _ _] Hi Hu. unfold alu_value, alu_hazard.
  destruct o; cbn [exec_alu32 exec_alu64]; try discriminate.
  all: try (destruct (Z.eqb_spec s 0); [discriminate|]).
  all: intros HH; injection HH as HH; apply alu_opt_undef in HH.
  all: first [apply shl_None in HH | apply shr_None in HH | apply udiv_None in HH
             | apply umod_None in HH].
  all: try (exfalso; pose proof (Hs _ _ eq_refl eq_refl); lia).
  all: try (exfalso; eapply Hd; [reflexivity|auto|eapply wrap_zero_imm; [|done|exact HH]; lia]).
  all: eexists _, _; split; [reflexivity|]; simpl.
  all: try (right; by auto).
  all: left; split; [done|]; unfold in_u in Hu; word_lia.
Qed.

(** The causes of a crash at instruction [inst], whose opcode is [o]. *)
Inductive crash_cause (vm : ubpf_vm) (env : exec_env) (inst : ebpf_inst) (o : ebpf_op)
    (st : exec_state) : Prop :=
| crash_alu : alu_hazard o (rget (reg st) (src inst)) -> crash_cause vm env inst o st
| crash_access r n :
    r = src inst \/ r = dst inst ->
    env_check env (u64 (rget (reg st) r + offset inst)) (Z.of_nat n) = true ->
    ~ mapped (mem st) (u64 (rget (reg st) r + offset inst)) n ->
    crash_cause vm env inst o st
| crash_call p f :
    o = EBPF_OP_CALL -> ext_funcs vm !! Z.to_nat (imm inst) = Some p -> func p = Some f ->
    f [rget (reg st) 1; rget (reg st) 2; rget (reg st) 3; rget (reg st) 4; rget (reg st) 5]
      (mem st) = None ->
    crash_cause vm env inst o st.

Lemma exec_load_crash env i n st :
  exec_load env i n st = Crash ->
  env_check env (u64 (rget (reg st) (src i) + offset i)) (Z.of_nat n) = true /\
  ~ mapped (mem st) (u64 (rget (reg st) (src i) + offset i)) n.
Proof.
  unfold exec_load. destruct (env_check _ _ _); [|done].
  destruct (load_le _ _ _) eqn:E; [done|]. intros _. split; [done|].
  rewrite load_le_mapped, E. by intros [? ?].
Qed.

Lemma exec_store_crash env i n v st :
  exec_store env i n v st = Crash ->
  env_check env (u64 (rget (reg st) (dst i) + offset i)) (Z.of_nat n) = true /\
  ~ mapped (mem st) (u64 (rget (reg st) (dst i) + offset i)) n.
Proof.
  unfold exec_store. destruct (env_check _ _ _); [|done].
  destruct (store_le _ _ _ _) eqn:E; [done|]. intros _. split; [done|].
  rewrite (store_le_mapped _ _ _ v), E. by intros [? ?].
Qed.

(** C16: a step of a program the first pass accepts leaves the C semantics only
    through a shift by a register that holds too large a count, a 32-bit
    division by a register whose low half is zero, an access that passes the
    bounds check without being mapped, or an external function that fails. *)
Theorem accepted_step_crash vm env prog st :
  validate_instructions vm prog = Ok tt -> Forall wf_inst prog ->
  Z.of_nat (length prog) < MAX_INSTS -> wf_state st ->
  starts prog (Z.to_nat (pc st)) ->
  exec_step vm env prog st = Crash ->
  exists inst o, prog !! Z.to_nat (pc st) = Some inst /\
    op_of_opcode (opcode inst) = Some o /\ crash_cause vm env inst o st.
Proof.
  intros Hv Hwf Hlen Hst (inst & Hi & Hn0). apply validate_instructions_insts_ok in Hv.
  unfold exec_step. rewrite Hi.
  destruct (op_of_opcode (opcode inst)) as [o|] eqn:Ho; [|done].
  pose proof (accepted_op vm prog Hv _ _ _ Hi Ho) as Hoo.
  pose proof (Forall_lookup_1 _ _ _ _ Hwf Hi) as (_ & _ & _ & _ & Him).
  set (st1 := mk_state _ _ _). intros H. exists inst, o. split_and!; try done.
  destruct (exec_alu o inst st1) as [r|] eqn:Ea.
  { subst. apply crash_alu. apply (alu_undef_hazard _ _ _ _ _ (rget (reg st) (dst inst)) _ Hoo Him).
    - apply rget_range, Hst.
    - unfold exec_alu in Ea. unfold alu_value. simpl in Ea.
      destruct (exec_alu32 _ _ _ _) as [[]|]; try done.
      by destruct (exec_alu64 _ _ _ _) as [[]|]. }
  destruct (exec_mem env prog o inst st1) as [r|] eqn:Em.
  { subst. destruct o; cbn [exec_mem] in Em; try discriminate; injection Em as Em.
    all: try (apply exec_load_crash in Em as [? ?];
              by eapply (crash_access _ _ _ _ _ (src inst)); [left|..]).
    all: try (apply exec_store_crash in Em as [? ?];
              by eapply (crash_access _ _ _ _ _ (dst inst)); [right|..]).
    destruct (ok_lddw _ _ _ _ _ Hoo eq_refl) as (nx & Hnx & _). exfalso.
    pose proof (lookup_lt_Some _ _ _ Hi). destruct Hst as [_ _ [? ?] _].
    subst st1. simpl in Em. rewrite wrap_small in Em by (unfold in_u; clia).
    replace (Z.of_nat (Z.to_nat (pc st)) + 1) with (pc st + 1) in Hnx by lia.
    by rewrite Hnx in Em. }
  destruct (exec_jmp vm o inst st1) as [r|] eqn:Ej; [subst|done].
  destruct o; cbn [exec_jmp jump_taken] in Ej; try discriminate.
  destruct (ok_call _ _ _ _ _ Hoo eq_refl) as (Hr & p & f & Hp & Hf).
  apply (crash_call _ _ _ _ _ p f); try done.
  injection Ej as Ej. unfold exec_call in Ej. rewrite Hp, Hf in Ej. simpl in Ej.
  destruct (imm inst <? 0) eqn:E; [lia|].
  by destruct (f _ _) as [[]|].
Qed.

Lemma accepted_step_crash_witness :
  exists inst o,
    [mk_op EBPF_OP_LSH64_REG 0 1 0 0; mk_op EBPF_OP_EXIT 0 0 0 0] !! 0%nat = Some inst /\
    op_of_opcode (opcode inst) = Some o /\
    crash_cause demo_vm demo_env inst o (mk_state 0 (replicate 16 100) ∅).
Proof.
  apply (accepted_step_crash demo_vm demo_env
           [mk_op EBPF_OP_LSH64_REG 0 1 0 0; mk_op EBPF_OP_EXIT 0 0 0 0]
           (mk_state 0 (replicate 16 100) ∅)).
  - vm_compute. reflexivity.
  - repeat constructor; vm_compute; done.
  - vm_compute. reflexivity.
  - split; try done. repeat constructor; vm_compute; done.
  - eexists. split; [reflexivity|]. vm_compute. done.
  - vm_compute. reflexivity.
Defined.
