(* ===== verification/RegState.v ===== *)
(** * Third pass of the verifier, part 1: what is known of a register
      (lib/bpf/ubpf_vm.c)

    A register is described by a type, the map it points into, a signed and an
    unsigned interval.  This file holds the functions that create, compare and
    refine these descriptions; pointers to maps are addresses, 0 for NULL.

    Signed 64-bit sums and products are computed modulo 2^64, as the compiled
    code does; a shift count that C leaves undefined, and [clz] of 0, give
    [None]. *)

From S2P Require Import Prelude Ebpf Memory Vm ValidateInsts.

Definition REGISTER_MAX_RANGE : Z := 1024 * 1024 * 1024.

Record bpf_reg_state : Set := mk_reg {
  rtype : Z;
  rmap : Z;
  smin : Z;
  smax : Z;
  umin : Z;
  umax : Z
}.

(** What [calloc] leaves. *)
Definition zero_reg : bpf_reg_state := mk_reg UNINIT 0 0 0 0 0.

Definition set_type (t : Z) (r : bpf_reg_state) : bpf_reg_state :=
  mk_reg t (rmap r) (smin r) (smax r) (umin r) (umax r).
Definition set_smin (v : Z) (r : bpf_reg_state) : bpf_reg_state :=
  mk_reg (rtype r) (rmap r) v (smax r) (umin r) (umax r).
Definition set_smax (v : Z) (r : bpf_reg_state) : bpf_reg_state :=
  mk_reg (rtype r) (rmap r) (smin r) v (umin r) (umax r).
Definition set_umin (v : Z) (r : bpf_reg_state) : bpf_reg_state :=
  mk_reg (rtype r) (rmap r) (smin r) (smax r) v (umax r).
Definition set_umax (v : Z) (r : bpf_reg_state) : bpf_reg_state :=
  mk_reg (rtype r) (rmap r) (smin r) (smax r) (umin r) v.
Definition set_s (lo hi : Z) (r : bpf_reg_state) : bpf_reg_state := set_smin lo (set_smax hi r).
Definition set_u (lo hi : Z) (r : bpf_reg_state) : bpf_reg_state := set_umin lo (set_umax hi r).

Definition mark_bpf_reg_as_unknown : bpf_reg_state :=
  mk_reg UNKNOWN 0 INT64_MIN INT64_MAX 0 UINT64_MAX.

(** [val] is an [int32_t]. *)
Definition mark_bpf_reg_as_imm (val : Z) : bpf_reg_state :=
  mk_reg IMM 0 val val (u64 val) (u64 val).

Definition is_pointer_type (t : Z) : bool :=
  negb (Z.land t (Z.lor MAP_PTR (Z.lor MAP_VALUE_PTR (Z.lor PKT_PTR (Z.lor STACK_PTR CTX_PTR)))) =? 0).

(** ** Overflow handling *)

(** The macros MIN and MAX, after the usual conversions of their operands. *)
Definition cmin (x y : Z) : Z := if x <? y then x else y.
Definition cmax (x y : Z) : Z := if y <? x then x else y.

Definition handle_min_max_overflows (r : bpf_reg_state) (mask : Z) : bpf_reg_state :=
  let r1 :=
    if negb (Z.land (umin r) mask =? umin r) || negb (Z.land (umax r) mask =? umax r)
    then set_u 0 (cmax mask (umax r)) r
    else r in
  (* [mask >> 1] is unsigned: the comparison converts [s.max] *)
  let smax' := s64 (cmin (Z.shiftr mask 1) (u64 (smax r1))) in
  let smin' := cmax (s64 (Z.lxor (Z.shiftr mask 1) UINT64_MAX)) (smin r1) in
  set_s smin' smax' r1.

(** ** Refinement by conditional jumps *)

(** "Update pkt_range to remember it independently of registers' lifes." *)
Definition update_pkt_range (r : bpf_reg_state) (pkt_range : Z) : Z :=
  if (rtype r =? PKT_SIZE) && (pkt_range <? umin r) then umin r else pkt_range.

Definition const_reg (val : Z) (r : bpf_reg_state) : bpf_reg_state :=
  set_s (s64 val) (s64 val) (set_u val val r).

(** [val] is a [uint64_t]; results: both registers and both packet ranges. *)
Definition update_min_max_jump_imm (true_reg : bpf_reg_state) (true_pkt_range : Z)
    (false_reg : bpf_reg_state) (false_pkt_range : Z) (op val : Z)
    : bpf_reg_state * Z * bpf_reg_state * Z :=
  let '(t, f) :=
    if op =? EBPF_JMP_JEQ then (const_reg val true_reg, false_reg)
    else if op =? EBPF_JMP_JGT then
      (set_umin (u64 (val + 1)) true_reg, set_umax val false_reg)
    else if op =? EBPF_JMP_JGE then
      (set_umin val true_reg, set_umax (u64 (val - 1)) false_reg)
    else if op =? EBPF_JMP_JNE then (true_reg, const_reg val false_reg)
    else if op =? EBPF_JMP_JSGT then
      (set_smin (s64 (val + 1)) true_reg, set_smax (s64 val) false_reg)
    else if op =? EBPF_JMP_JSGE then
      (set_smin (s64 val) true_reg, set_smax (s64 (val - 1)) false_reg)
    else (true_reg, false_reg) in
  (t, update_pkt_range t true_pkt_range, f, update_pkt_range f false_pkt_range).

(** The same with the constant on the left of the comparison. *)
Definition update_min_max_jump_imm_inv (true_reg : bpf_reg_state) (true_pkt_range : Z)
    (false_reg : bpf_reg_state) (false_pkt_range : Z) (op val : Z)
    : bpf_reg_state * Z * bpf_reg_state * Z :=
  let '(t, f) :=
    if op =? EBPF_JMP_JEQ then (const_reg val true_reg, false_reg)
    else if op =? EBPF_JMP_JGT then
      (set_umax (u64 (val - 1)) true_reg, set_umin val false_reg)
    else if op =? EBPF_JMP_JGE then
      (set_umax val true_reg, set_umin (u64 (val + 1)) false_reg)
    else if op =? EBPF_JMP_JNE then (true_reg, const_reg val false_reg)
    else if op =? EBPF_JMP_JSGT then
      (set_smax (s64 (val - 1)) true_reg, set_smin (s64 val) false_reg)
    else if op =? EBPF_JMP_JSGE then
      (set_smax (s64 val) true_reg, set_smin (s64 (val + 1)) false_reg)
    else (true_reg, false_reg) in
  (t, update_pkt_range t true_pkt_range, f, update_pkt_range f false_pkt_range).

(** *** Two registers

    The C function receives four pointers; the two of one branch are the same
    object when the instruction compares a register with itself, so the model
    updates register files at the indices [d] and [s]. *)

Definition regs_get (rs : list bpf_reg_state) (i : Z) : bpf_reg_state :=
  default zero_reg (rs !! Z.to_nat i).
Definition regs_upd (i : Z) (f : bpf_reg_state -> bpf_reg_state) (rs : list bpf_reg_state)
    : list bpf_reg_state := alter f (Z.to_nat i) rs.

(** Whether [a;b] and [c;d] intersect, as the code tests it. *)
Definition intersect (a b c d : Z) : bool :=
  ((c <=? a) && (a <=? d)) || ((c <=? b) && (b <=? d)) || ((a <=? c) && (c <=? b)).

(** The JEQ case on one register file; [None] is the early [return -1]. *)
Definition equal_regs (rs : list bpf_reg_state) (d s : Z) : option (list bpf_reg_state) :=
  let r1 := regs_get rs d in
  let r2 := regs_get rs s in
  if negb (intersect (smin r1) (smax r1) (smin r2) (smax r2)) ||
     negb (intersect (umin r1) (umax r1) (umin r2) (umax r2))
  then None
  else
    let lo := cmax (smin r1) (smin r2) in
    let hi := cmin (smax r1) (smax r2) in
    Some (regs_upd s (set_s lo hi) (regs_upd d (set_s lo hi) rs)).

(** Sequential assignments to the two registers of a branch. *)
Definition jgt_true (rs : list bpf_reg_state) (d s : Z) : list bpf_reg_state :=
  let rs1 := regs_upd d (set_umin (cmax (umin (regs_get rs d)) (u64 (umin (regs_get rs s) + 1)))) rs in
  regs_upd s (set_umax (cmin (u64 (umax (regs_get rs1 d) - 1)) (umax (regs_get rs1 s)))) rs1.
Definition jgt_false (rs : list bpf_reg_state) (d s : Z) : list bpf_reg_state :=
  let rs1 := regs_upd d (set_umax (cmin (umax (regs_get rs d)) (umax (regs_get rs s)))) rs in
  regs_upd s (set_umin (cmax (umin (regs_get rs1 d)) (umin (regs_get rs1 s)))) rs1.
Definition jge_true (rs : list bpf_reg_state) (d s : Z) : list bpf_reg_state :=
  let rs1 := regs_upd d (set_umin (cmax (umin (regs_get rs d)) (umin (regs_get rs s)))) rs in
  regs_upd s (set_umax (cmin (umax (regs_get rs1 d)) (umax (regs_get rs1 s)))) rs1.
Definition jge_false (rs : list bpf_reg_state) (d s : Z) : list bpf_reg_state :=
  let rs1 := regs_upd d (set_umax (cmin (umax (regs_get rs d)) (u64 (umax (regs_get rs s) - 1)))) rs in
  regs_upd s (set_umin (cmax (u64 (umin (regs_get rs1 d) + 1)) (umin (regs_get rs1 s)))) rs1.
Definition jsgt_true (rs : list bpf_reg_state) (d s : Z) : list bpf_reg_state :=
  let rs1 := regs_upd d (set_smin (cmax (smin (regs_get rs d)) (s64 (smin (regs_get rs s) + 1)))) rs in
  regs_upd s (set_smax (cmin (s64 (smax (regs_get rs1 d) - 1)) (smax (regs_get rs1 s)))) rs1.
Definition jsgt_false (rs : list bpf_reg_state) (d s : Z) : list bpf_reg_state :=
  let rs1 := regs_upd d (set_smax (cmin (smax (regs_get rs d)) (smax (regs_get rs s)))) rs in
  regs_upd s (set_smin (cmax (smin (regs_get rs1 d)) (smin (regs_get rs1 s)))) rs1.
Definition jsge_true (rs : list bpf_reg_state) (d s : Z) : list bpf_reg_state :=
  let rs1 := regs_upd d (set_smin (cmax (smin (regs_get rs d)) (smin (regs_get rs s)))) rs in
  regs_upd s (set_smax (cmin (smax (regs_get rs1 d)) (smax (regs_get rs1 s)))) rs1.
Definition jsge_false (rs : list bpf_reg_state) (d s : Z) : list bpf_reg_state :=
  let rs1 := regs_upd d (set_smax (cmin (smax (regs_get rs d)) (s64 (smax (regs_get rs s) - 1)))) rs in
  regs_upd s (set_smin (cmax (s64 (smin (regs_get rs1 d) + 1)) (smin (regs_get rs1 s)))) rs1.

Definition pkt_range_2 (rs : list bpf_reg_state) (d s pkt_range : Z) : Z :=
  update_pkt_range (regs_get rs s) (update_pkt_range (regs_get rs d) pkt_range).

(** [tr] and [fr] are the register files of the taken and of the other branch. *)
Definition update_min_max_jump_reg (tr : list bpf_reg_state) (true_pkt_range : Z)
    (fr : list bpf_reg_state) (false_pkt_range d s op : Z)
    : list bpf_reg_state * Z * list bpf_reg_state * Z :=
  let finish tr' fr' :=
    (tr', pkt_range_2 tr' d s true_pkt_range, fr', pkt_range_2 fr' d s false_pkt_range) in
  if op =? EBPF_JMP_JEQ then
    match equal_regs tr d s with
    | Some tr' => finish tr' fr
    | None => (tr, true_pkt_range, fr, false_pkt_range)
    end
  else if op =? EBPF_JMP_JGT then finish (jgt_true tr d s) (jgt_false fr d s)
  else if op =? EBPF_JMP_JGE then finish (jge_true tr d s) (jge_false fr d s)
  else if op =? EBPF_JMP_JNE then
    match equal_regs fr d s with
    | Some fr' => finish tr fr'
    | None => (tr, true_pkt_range, fr, false_pkt_range)
    end
  else if op =? EBPF_JMP_JSGT then finish (jsgt_true tr d s) (jsgt_false fr d s)
  else if op =? EBPF_JMP_JSGE then
    (* this case returns before the packet ranges are updated *)
    (jsge_true tr d s, true_pkt_range, jsge_false fr d s, false_pkt_range)
  else finish tr fr.
