(* ===== verification/AluRange.v ===== *)
(** * Third pass of the verifier, part 2: ranges through arithmetic
      (lib/bpf/ubpf_vm.c, [compute_bitwise_and_bound] to [validate_alu_op])

    The local [nr] of [update_min_max_alu_op] is read before it is written on
    several paths; the value found there is the argument [indet].  Signed sums,
    products and left shifts are taken modulo 2^64, as the compiler does. *)

From S2P Require Import Prelude Ebpf Memory Vm ValidateInsts RegState.

(** [__builtin_clzll], undefined at 0. *)
Definition clzll (x : Z) : option Z := if x =? 0 then None else Some (63 - Z.log2 x).

Definition compute_bitwise_and_bound (a b opsize : Z) : option Z :=
  a' ← clzll a; b' ← clzll b;
  shr 64 UINT64_MAX (u64 (64 - u64 (opsize - cmax a' b'))).

Definition compute_bitwise_or_bound (a b opsize : Z) : option Z :=
  a' ← clzll a; b' ← clzll b;
  shr 64 UINT64_MAX (u64 (64 - u64 (opsize - cmin a' b'))).

Definition alu_mask (inst : ebpf_inst) : Z :=
  if EBPF_CLASS (opcode inst) =? EBPF_CLS_ALU64 then 0xffffffffffffffff else 0xffffffff.
Definition alu_opsize (inst : ebpf_inst) : Z :=
  if EBPF_CLASS (opcode inst) =? EBPF_CLS_ALU64 then 64 else 32.

Section Ops.
Context (mask opsize indet : Z).

(** Assigning a masked 64-bit value to an [int64_t]. *)
Definition smask (x : Z) : Z := s64 (Z.land (u64 x) mask).
Definition umask (x : Z) : Z := Z.land (u64 x) mask.

Definition top_s : bpf_reg_state -> bpf_reg_state :=
  set_s (s64 (Z.lxor (Z.shiftr mask 1) UINT64_MAX)) (s64 (Z.shiftr mask 1)).
(** [MAX(mask, nr.u.max)] with [nr.u.max] = [x]. *)
Definition top_u (x : Z) : bpf_reg_state -> bpf_reg_state := set_u 0 (cmax mask x).

Definition const_u (r1 r2 : bpf_reg_state) : bool :=
  (umin r1 =? umax r1) && (umin r2 =? umax r2).
Definition const_s (r1 r2 : bpf_reg_state) : bool :=
  (smin r1 =? smax r1) && (smin r2 =? smax r2).

Definition alu_add (d s : bpf_reg_state) : bpf_reg_state :=
  let numin := umask (umin d + umin s) in
  let numax := umask (umax d + umax s) in
  let nsmin := smask (smin d + smin s) in
  let nsmax := smask (smax d + smax s) in
  let d1 :=
    if ((numin <? umin d) || (numax <? umax d)) && negb (const_u d s)
    then top_u numax d else set_u numin numax d in
  if (((smin s <? 0) && (smin d <? nsmin)) || (nsmin <? smin d) ||
      (((smax s <? 0) && (smax d <? nsmax)) || (nsmax <? smax d))) && negb (const_s d s)
  then top_s d1 else set_s nsmin nsmax d1.

Definition alu_sub (d s : bpf_reg_state) : bpf_reg_state :=
  let numin := umask (umin d - umin s) in
  let numax := umask (umax d - umax s) in
  let nsmin := smask (smin d - smin s) in
  let nsmax := smask (smax d - smax s) in
  let d1 :=
    if ((umin d <? numin) || (umax d <? numax)) && negb (const_u d s)
    then top_u numax d else set_u numin numax d in
  if (((smin s <? 0) && (nsmin <? smin d)) || (smin d <? nsmin) ||
      (((smax s <? 0) && (nsmax <? smax d)) || (smax d <? nsmax))) && negb (const_s d s)
  then top_s d1 else set_s nsmin nsmax d1.

(** [mask >> opsize] is evaluated only when the first test of the [&&] holds. *)
Definition alu_mul (d s : bpf_reg_state) : option bpf_reg_state :=
  d1 ← (if const_u d s
        then Some (set_u (umask (umin d * umin s)) (umask (umax d * umax s)) d)
        else if umax d <=? Z.shiftr mask (opsize / 2) then
          lim ← shr 64 mask opsize;
          Some (if umax s <=? lim
                then set_u (u64 (umin d * umin d)) (u64 (umax d * umax s)) d
                else top_u indet d)
        else Some (top_u indet d));
  Some (if const_s d s
        then set_s (smask (smin d * smin s)) (smask (smax d * smax s)) d1
        else if (0 <=? smin d) && (0 <=? smin s)
        then set_s (s64 (smin d * smin d)) (s64 (smax d * smax s)) d1
        else top_s d1).

(** AND and OR differ in the operation and in the bound. *)
Definition alu_bitwise (op : Z -> Z -> Z) (bound : Z -> Z -> Z -> option Z)
    (d s : bpf_reg_state) : option bpf_reg_state :=
  d1 ← (if const_u d s
        then Some (set_u (op (umin d) (umin s)) (op (umax d) (umax s)) d)
        else
          m ← bound (umax d) (umax s) opsize;
          Some (set_u (op (umin d) (umin s)) m d));
  if const_s d s
  then Some (set_s (op (smin d) (smin s)) (op (smax d) (smax s)) d1)
  else if (0 <=? smin d) || (0 <=? smin s) then
    m ← bound (Z.land (u64 (smax d)) (Z.shiftr mask 1))
              (Z.land (u64 (smax s)) (Z.shiftr mask 1)) opsize;
    Some (set_s (op (smin d) (smin s)) (s64 m) d1)
  else Some (top_s d1).

Definition alu_top (d : bpf_reg_state) : bpf_reg_state := top_s (top_u indet d).

Definition alu_lsh (d s : bpf_reg_state) : option bpf_reg_state :=
  if opsize <=? umax s then Some (alu_top d)
  else
    lim ← shr 64 UINT64_MAX (u64 (64 - u64 (opsize - umax s)));
    d1 ← (if umax d <=? lim then
            lo ← shl 64 (umin d) (umin s);
            hi ← shl 64 (umax d) (umax s);
            Some (set_u lo hi d)
          else Some (top_u indet d));
    if Z.shiftr (smin d) (opsize - 1) =? 0 then
      slim ← shr 64 UINT64_MAX (u64 (64 - u64 (opsize - umax s - 1)));
      if smax d <? s64 slim then
        lo ← shl 64 (smin d) (umin s);
        hi ← shl 64 (smax d) (umax s);
        Some (set_s (s64 lo) (s64 hi) d1)
      else Some (top_s d1)
    else Some (top_s d1).

Definition alu_rsh (d s : bpf_reg_state) : option bpf_reg_state :=
  if opsize <=? umax s then Some (alu_top d)
  else
    lo ← shr 64 (umin d) (umin s);
    hi ← shr 64 (umax d) (umax s);
    let d1 := set_u lo hi d in
    if Z.shiftr (u64 (smin d)) (opsize - 1) =? 0 then
      slo ← shr 64 (smin d) (umin s);
      shi ← shr 64 (smax d) (umax s);
      Some (set_s slo shi d1)
    else Some (top_s d1).

Definition alu_range (op : Z) (d s : bpf_reg_state) : option bpf_reg_state :=
  if op =? EBPF_ALU_ADD then Some (alu_add d s)
  else if op =? EBPF_ALU_SUB then Some (alu_sub d s)
  else if op =? EBPF_ALU_MUL then alu_mul d s
  else if op =? EBPF_ALU_AND then alu_bitwise Z.land compute_bitwise_and_bound d s
  else if op =? EBPF_ALU_OR then alu_bitwise Z.lor compute_bitwise_or_bound d s
  else if op =? EBPF_ALU_LSH then alu_lsh d s
  else if op =? EBPF_ALU_RSH then alu_rsh d s
  else Some (alu_top d).
End Ops.

Definition update_min_max_alu_op (indet : Z) (regs : list bpf_reg_state) (inst : ebpf_inst)
    : option (list bpf_reg_state) :=
  let mask := alu_mask inst in
  let src_reg :=
    if EBPF_SRC (opcode inst) =? EBPF_SRC_REG
    then handle_min_max_overflows (regs_get regs (src inst)) mask
    else mark_bpf_reg_as_imm (imm inst) in
  let dst_reg := handle_min_max_overflows (regs_get regs (dst inst)) mask in
  d ← alu_range mask (alu_opsize inst) indet (EBPF_OP (opcode inst)) dst_reg src_reg;
  Some (regs_upd (dst inst) (fun _ => d) regs).
