(* ===== verification/ValidateAccesses.v ===== *)
(** * Third pass of the verifier, part 3: the walk over all paths
      (lib/bpf/ubpf_vm.c, [validate], [validate_reg_access] to
      [validate_accesses], and [ubpf_load])

    The walk keeps one abstract state per branch still to explore.  The list
    that hangs off the initial state in C is a stack: [ovs_list_push_front] and
    [ovs_list_pop_front].  Map objects are only read for their key and value
    sizes: [maps] gives these two for every live [struct ubpf_map] by address.

    [indet] is what the uninitialised local of [update_min_max_alu_op] holds
    in each state of the walk. *)

From S2P Require Import Prelude Ebpf Memory Vm ValidateInsts ValidateCfg RegState AluRange.

Record bpf_state : Type := mk_bpf {
  regs : list bpf_reg_state;
  bstack : list bpf_reg_state;
  instno : Z;
  pkt_range : Z
}.

Definition set_regs (rs : list bpf_reg_state) (st : bpf_state) : bpf_state :=
  mk_bpf rs (bstack st) (instno st) (pkt_range st).
Definition set_stack (k : list bpf_reg_state) (st : bpf_state) : bpf_state :=
  mk_bpf (regs st) k (instno st) (pkt_range st).
Definition set_instno (n : Z) (st : bpf_state) : bpf_state :=
  mk_bpf (regs st) (bstack st) n (pkt_range st).
Definition set_pkt_range (p : Z) (st : bpf_state) : bpf_state :=
  mk_bpf (regs st) (bstack st) (instno st) p.

Definition get_reg (st : bpf_state) (i : Z) : bpf_reg_state := regs_get (regs st) i.
Definition put_reg (i : Z) (r : bpf_reg_state) (st : bpf_state) : bpf_state :=
  set_regs (regs_upd i (fun _ => r) (regs st)) st.

Inductive access_type : Set := READ | WRITE.

Definition validate_reg_access (rs : list bpf_reg_state) (regno instno : Z) (t : access_type)
    : res verr unit :=
  if NB_REGS <=? regno then Err (EInvalidRegister regno instno)
  else
    match t with
    | READ => if rtype (regs_get rs regno) =? UNINIT then Err (EUninitRegister regno instno) else Ok tt
    | WRITE => if regno =? 10 then Err ER10ReadOnly else Ok tt
    end.

Definition invalidate_reg (r : bpf_reg_state) : bpf_reg_state :=
  if rtype r =? PKT_PTR then mark_bpf_reg_as_unknown else r.

Definition invalidate_pkt_pointers (st : bpf_state) : bpf_state :=
  set_stack (invalidate_reg <$> bstack st) (set_regs (invalidate_reg <$> regs st) st).

(** ** Calls *)

Record map_sizes : Type := mk_sizes { key_size : Z; value_size : Z }.

(** The [j]-loop over the bytes [lo, lo + n) of the abstract stack. *)
Fixpoint stack_initialised (k : list bpf_reg_state) (lo : Z) (n : nat) (e : verr) : res verr unit :=
  match n with
  | O => Ok tt
  | S n' =>
      match k !! Z.to_nat lo with
      | None => Undef
      | Some b => if rtype b =? UNINIT then Err e else stack_initialised k (lo + 1) n' e
      end
  end.

(** The [switch] on the type of a pointer argument of [size] bytes. *)
Definition check_pointer_arg (maps : gmap Z map_sizes) (st : bpf_state) (i size : Z)
    : res verr unit :=
  let r := get_reg st i in
  let min_val := smin r in
  let max_val := umax r in
  if rtype r =? PKT_PTR then
    if (min_val <? 0) || (pkt_range st <? u64 (size + max_val))
    then Err (EPktAccess max_val size (pkt_range st) (instno st)) else Ok tt
  else if rtype r =? CTX_PTR then
    if negb (min_val =? 0) || negb (max_val =? 0) then Err (ECtxAccess (instno st)) else Ok tt
  else if rtype r =? STACK_PTR then
    if negb (u64 min_val =? max_val) then Err (EStackVariable (instno st) i)
    else if (min_val <? - STACK_SIZE) || (0 <? min_val + size) then Err (EStackAccess (instno st))
    else stack_initialised (bstack st) (STACK_SIZE + min_val) (Z.to_nat size) (EStackUninit (instno st))
  else if rtype r =? MAP_VALUE_PTR then
    if max_val =? REGISTER_MAX_RANGE then Err (EMapUnbounded (instno st))
    else if rmap r =? 0 then Err (EMapMissing i (instno st))
    else
      let! m := res_of (maps !! rmap r) in
      if (min_val <? 0) || (value_size m <? u64 (size + max_val))
      then Err (EMapAccess (instno st)) else Ok tt
  else if (rtype r =? UNINIT) || (rtype r =? UNKNOWN) || (rtype r =? NULL_VALUE) ||
          (rtype r =? IMM) || (rtype r =? MAP_PTR) || (rtype r =? PKT_SIZE)
  then Err (EMemAccess (instno st))
  else Ok tt.

(** The size of the object the [i]-th argument points to, an [unsigned int]. *)
Definition arg_object_size (maps : gmap Z map_sizes) (st : bpf_state) (func i expected : Z)
    : res verr Z :=
  if expected =? SIZE_PTR_MAX then
    let next := get_reg st (i + 1) in
    if (rtype next =? IMM) && (MAX_SIZE_ARG <? umax next) && (umin next =? umax next)
    then Err (EArgNext func (i + 1) (instno st)) else Ok (u32 (umin next))
  else if rmap (get_reg st 1) =? 0 then Err (ER1NotMap (instno st))
  else
    let! m := res_of (maps !! rmap (get_reg st 1)) in
    Ok (if expected =? SIZE_MAP_KEY then key_size m else value_size m).

(** The body of the loop over the arguments. *)
Definition validate_arg (maps : gmap Z map_sizes) (st : bpf_state) (proto : ubpf_func_proto)
    (func i : Z) : res verr unit :=
  let r := get_reg st i in
  let! expected_type := res_of (arg_types proto !! Z.to_nat (i - 1)) in
  if negb (expected_type =? MAP_PTR) && negb (Z.land expected_type (rtype r) =? rtype r)
  then Err (EArgType func i (instno st) expected_type (rtype r))
  else
    let! expected_size := res_of (arg_sizes proto !! Z.to_nat (i - 1)) in
    if expected_size =? 0xff then Ok tt
    else if is_pointer_type (rtype r) then
      if expected_size =? SIZE_64 then Err (EArgSizeValue func i (instno st))
      else
        let! size := arg_object_size maps st func i expected_size in
        check_pointer_arg maps st i size
    else if negb (expected_size =? SIZE_64) then Err (EArgSizePointer func i (instno st))
    else Ok tt.

Fixpoint validate_args (maps : gmap Z map_sizes) (st : bpf_state) (proto : ubpf_func_proto)
    (func : Z) (args : list Z) : res verr unit :=
  match args with
  | [] => Ok tt
  | i :: args' =>
      let! _ := validate_arg maps st proto func i in
      validate_args maps st proto func args'
  end.

(** What the call leaves in the packet range and in R0. *)
Definition call_effects (st : bpf_state) (proto : ubpf_func_proto) (func : Z) : bpf_state :=
  let st1 :=
    if func =? UBPF_ADJUST_HEAD_ID then
      let st' := invalidate_pkt_pointers st in
      set_pkt_range (u64 (pkt_range st' + smin (get_reg st' 2))) st'
    else st in
  let r0 :=
    if (ret proto =? Z.lor MAP_VALUE_PTR NULL_VALUE) &&
       (default UNINIT (arg_types proto !! 0%nat) =? MAP_PTR)
    then mk_reg (ret proto) (rmap (get_reg st1 1)) 0 0 0 0
    else if ret proto =? PKT_PTR then mk_reg (ret proto) 0 0 0 0 0
    else mark_bpf_reg_as_unknown in
  put_reg 0 r0 st1.

Definition validate_call (vm : ubpf_vm) (maps : gmap Z map_sizes) (st : bpf_state) (func : Z)
    : res verr bpf_state :=
  if func <? 0 then Undef
  else
    let! proto := res_of (ext_funcs vm !! Z.to_nat func) in
    let! _ := validate_args maps st proto func [1; 2; 3; 4; 5] in
    Ok (call_effects st proto func).

(** ** Conditional jumps *)

(** The range updates: results are the state that goes on and the state of the
    branch taken. *)
Definition jump_ranges (curr other : bpf_state) (inst : ebpf_inst) : bpf_state * bpf_state :=
  let d := dst inst in
  let s := src inst in
  let op := EBPF_OP (opcode inst) in
  let dr := get_reg curr d in
  let sr := get_reg curr s in
  let scalar r := (rtype r =? UNKNOWN) || (rtype r =? PKT_SIZE) in
  let with_imm f i val :=
    let '(t, tp, fa, fp) :=
      f (get_reg other i) (pkt_range other) (get_reg curr i) (pkt_range curr) op val in
    (set_pkt_range fp (put_reg i fa curr), set_pkt_range tp (put_reg i t other)) in
  if EBPF_SRC (opcode inst) =? EBPF_SRC_REG then
    if rtype dr =? IMM then with_imm update_min_max_jump_imm_inv s (umin dr)
    else if rtype sr =? IMM then with_imm update_min_max_jump_imm d (umin sr)
    else if scalar dr && scalar sr then
      let '(t, tp, fa, fp) :=
        update_min_max_jump_reg (regs other) (pkt_range other) (regs curr) (pkt_range curr) d s op in
      (set_pkt_range fp (set_regs fa curr), set_pkt_range tp (set_regs t other))
    else (curr, other)
  else with_imm update_min_max_jump_imm d (u64 (imm inst)).

(** The null check of a map value. *)
Definition jump_null_check (inst : ebpf_inst) (st : bpf_state * bpf_state) : bpf_state * bpf_state :=
  let '(curr, other) := st in
  let d := dst inst in
  if (rtype (get_reg curr d) =? Z.lor MAP_VALUE_PTR NULL_VALUE) &&
     ((opcode inst =? opcode_of EBPF_OP_JEQ_IMM) || (opcode inst =? opcode_of EBPF_OP_JNE_IMM)) &&
     (imm inst =? 0)
  then
    let jeq := EBPF_OP (opcode inst) =? EBPF_JMP_JEQ in
    (set_regs (regs_upd d (set_type (if jeq then MAP_VALUE_PTR else NULL_VALUE)) (regs curr)) curr,
     set_regs (regs_upd d (set_type (if jeq then NULL_VALUE else MAP_VALUE_PTR)) (regs other)) other)
  else (curr, other).

(** Returns the state that goes on and the one pushed. *)
Definition validate_jump (curr : bpf_state) (inst : ebpf_inst) : res verr (bpf_state * bpf_state) :=
  let! _ := validate_reg_access (regs curr) (dst inst) (instno curr) READ in
  let! _ := (if EBPF_SRC (opcode inst) =? EBPF_SRC_REG
             then validate_reg_access (regs curr) (src inst) (instno curr) READ else Ok tt) in
  let other := set_instno (u32 (instno curr + offset inst + 1)) curr in
  Ok (jump_null_check inst (jump_ranges curr other inst)).

(** ** Arithmetic *)

(** The results of the two register checks are ignored by the source, so the
    checks do not appear. *)
Definition validate_alu_op (indet : Z) (st : bpf_state) (inst : ebpf_inst) : res verr bpf_state :=
  let op := EBPF_OP (opcode inst) in
  let from_reg := EBPF_SRC (opcode inst) =? EBPF_SRC_REG in
  let alu64 := EBPF_CLASS (opcode inst) =? EBPF_CLS_ALU64 in
  let add_sub := (op =? EBPF_ALU_SUB) || (op =? EBPF_ALU_ADD) in
  let dtype := rtype (get_reg st (dst inst)) in
  if (op =? EBPF_ALU_END) || (op =? EBPF_ALU_NEG) then Ok st
  else if op =? EBPF_ALU_MOV then
    Ok (put_reg (dst inst)
          (if from_reg
           then if alu64 then get_reg st (src inst) else mark_bpf_reg_as_unknown
           else mark_bpf_reg_as_imm (imm inst)) st)
  else if
    negb (add_sub && (dtype =? STACK_PTR) && negb from_reg && alu64) &&
    negb (add_sub && (dtype =? PKT_PTR) && alu64) &&
    negb (add_sub && (dtype =? MAP_VALUE_PTR) && negb from_reg && alu64) &&
    (is_pointer_type dtype || (from_reg && is_pointer_type (rtype (get_reg st (src inst)))))
  then Err (EPointerArith (instno st))
  else
    let! rs := res_of (update_min_max_alu_op indet (regs st) inst) in
    Ok (set_regs rs st).

(** ** Memory *)

Definition size_in_bytes (opcode : Z) : Z :=
  if EBPF_SIZE opcode =? EBPF_SIZE_B then 1
  else if EBPF_SIZE opcode =? EBPF_SIZE_H then 2
  else if EBPF_SIZE opcode =? EBPF_SIZE_W then 4
  else if EBPF_SIZE opcode =? EBPF_SIZE_DW then 8
  else -1.

(** Marks [n] bytes from [lo] on as UNKNOWN; the array has STACK_SIZE entries. *)
Fixpoint stack_clobber (k : list bpf_reg_state) (lo : Z) (n : nat) : option (list bpf_reg_state) :=
  match n with
  | O => Some k
  | S n' =>
      if (Z.to_nat lo <? length k)%nat
      then stack_clobber (alter (set_type UNKNOWN) (Z.to_nat lo) k) (lo + 1) n'
      else None
  end.

(** The loop that looks for a spilled register: it runs while [i < limit] and
    counts [i] down. *)
Fixpoint spill_scan (fuel : nat) (k : list bpf_reg_state) (i limit : Z) : option (list bpf_reg_state) :=
  if i <? limit then
    match fuel, k !! Z.to_nat i with
    | S fuel', Some b =>
        if negb (rtype b =? UNINIT) && negb (rtype b =? UNKNOWN)
        then Some (alter (set_type UNKNOWN) (Z.to_nat i) k)
        else spill_scan fuel' k (i - 1) limit
    | _, _ => None
    end
  else Some k.

Definition validate_mem_access (maps : gmap Z map_sizes) (st : bpf_state) (regno : Z)
    (inst : ebpf_inst) (t : access_type) : res verr bpf_state :=
  let size := size_in_bytes (opcode inst) in
  let r := get_reg st regno in
  let min_val := smin r in
  let max_val := umax r in
  let off := offset inst in
  if rtype r =? PKT_PTR then
    if (s64 (off + min_val) <? 0) || (pkt_range st <? u64 (off + max_val + size))
    then Err (EPktAccess (u64 (off + max_val)) size (pkt_range st) (instno st)) else Ok st
  else if rtype r =? STACK_PTR then
    if (0 <=? off) || (off <? - STACK_SIZE) then Err (EStackAccess (instno st))
    else
      let lo := STACK_SIZE + off in
      match t with
      | WRITE =>
          let! k := res_of (stack_clobber (bstack st) lo (Z.to_nat size)) in
          let! k' := res_of (spill_scan (length k) k (lo - 1) (lo - 8)) in
          Ok (set_stack k' st)
      | READ =>
          let! _ := stack_initialised (bstack st) lo (Z.to_nat size) (EStackUninit (instno st)) in
          Ok st
      end
  else if rtype r =? MAP_VALUE_PTR then
    if max_val =? REGISTER_MAX_RANGE then Err (EMapUnbounded (instno st))
    else if rmap r =? 0 then Err (EMapMissing regno (instno st))
    else
      let! m := res_of (maps !! rmap r) in
      if (s64 (off + min_val) <? 0) || (value_size m <? u64 (off + size + max_val))
      then Err (EMapAccess (instno st)) else Ok st
  else if (rtype r =? UNINIT) || (rtype r =? UNKNOWN) || (rtype r =? NULL_VALUE) ||
          (rtype r =? IMM) || (rtype r =? MAP_PTR) || (rtype r =? PKT_SIZE) || (rtype r =? CTX_PTR)
  then Err (EMemAccess (instno st))
  else Ok st.

(** ST and STX. *)
Definition validate_store (maps : gmap Z map_sizes) (st : bpf_state) (inst : ebpf_inst)
    : res verr bpf_state :=
  let! _ := validate_reg_access (regs st) (dst inst) (instno st) READ in
  let! _ := validate_reg_access (regs st) (src inst) (instno st) READ in
  let! st1 := validate_mem_access maps st (dst inst) inst WRITE in
  if (EBPF_SIZE (opcode inst) =? EBPF_SIZE_DW) && (rtype (get_reg st1 (dst inst)) =? STACK_PTR)
  then
    Ok (set_stack (<[Z.to_nat (STACK_SIZE + offset inst) := get_reg st1 (src inst)]> (bstack st1)) st1)
  else Ok st1.

(** LD and LDX, without the final [instno++]. *)
Definition validate_load (maps : gmap Z map_sizes) (prog : list ebpf_inst) (st : bpf_state)
    (inst : ebpf_inst) : res verr bpf_state :=
  let lddw := opcode inst =? opcode_of EBPF_OP_LDDW in
  let next := res_of (prog !! Z.to_nat (u32 (instno st + 1))) in
  let! _ := validate_reg_access (regs st) (dst inst) (instno st) WRITE in
  if lddw && (src inst =? BPF_PSEUDO_MAP_FD) then
    let! n := next in
    let map := Z.lor (u64 (Z.shiftl (imm n) 32)) (u32 (imm inst)) in
    Ok (set_instno (u32 (instno st + 1)) (put_reg (dst inst) (mk_reg MAP_PTR map 0 0 0 0) st))
  else
    let! _ := validate_reg_access (regs st) (src inst) (instno st) READ in
    let! st1 := validate_mem_access maps st (src inst) inst READ in
    let! r := (if (EBPF_SIZE (opcode inst) =? EBPF_SIZE_DW) &&
                  (rtype (get_reg st1 (src inst)) =? STACK_PTR)
               then res_of (bstack st1 !! Z.to_nat (STACK_SIZE + offset inst))
               else
                 let! val := (if lddw
                              then let! n := next in
                                   Ok (Z.lor (u64 (imm inst)) (u64 (Z.shiftl (imm n) 32)))
                              else Ok (u64 (imm inst))) in
                 Ok (mk_reg IMM 0 (s64 val) (s64 val) val val)) in
    let st2 := put_reg (dst inst) r st1 in
    Ok (if lddw then set_instno (u32 (instno st2 + 1)) st2 else st2).

(** ** The walk *)

Record walk : Type := mk_walk { curr : bpf_state; pending : list bpf_state }.

Definition walk_init : walk :=
  mk_walk
    (mk_bpf
       (<[10%nat := set_type STACK_PTR zero_reg]>
        (<[2%nat := mk_reg PKT_SIZE 0 INT64_MIN INT64_MAX 0 UINT64_MAX]>
         (<[1%nat := set_type CTX_PTR zero_reg]> (replicate 11 zero_reg))))
       (replicate (Z.to_nat STACK_SIZE) zero_reg) 0 0)
    [].

(** An iteration goes on with a new state or ends the pass. *)
Inductive walk_result : Type :=
| WNext (w : walk)
| WDone (r : res verr unit).

Definition walk_of (r : res verr bpf_state) (k : bpf_state -> walk_result) : walk_result :=
  match r with Ok st => k st | Err e => WDone (Err e) | Undef => WDone Undef end.

Definition advance (st : bpf_state) : bpf_state := set_instno (u32 (instno st + 1)) st.

Section Walk.
Context (vm : ubpf_vm) (maps : gmap Z map_sizes) (indet : walk -> Z) (prog : list ebpf_inst).

Definition walk_exit (w : walk) : walk_result :=
  match validate_reg_access (regs (curr w)) 0 (instno (curr w)) READ with
  | Ok _ =>
      match pending w with
      | [] => WDone (Ok tt)
      | st :: rest => WNext (mk_walk st rest)
      end
  | Err e => WDone (Err e)
  | Undef => WDone Undef
  end.

Definition walk_jmp (w : walk) (inst : ebpf_inst) : walk_result :=
  let st := curr w in
  if opcode inst =? opcode_of EBPF_OP_JA then
    WNext (mk_walk (set_instno (u32 (instno st + offset inst + 1)) st) (pending w))
  else if opcode inst =? opcode_of EBPF_OP_CALL then
    walk_of (validate_call vm maps st (imm inst)) (fun st' => WNext (mk_walk (advance st') (pending w)))
  else if opcode inst =? opcode_of EBPF_OP_EXIT then walk_exit w
  else
    match validate_jump st inst with
    | Ok (st', other) => WNext (mk_walk (advance st') (other :: pending w))
    | Err e => WDone (Err e)
    | Undef => WDone Undef
    end.

Definition walk_step (w : walk) : walk_result :=
  let st := curr w in
  let next st' := WNext (mk_walk (advance st') (pending w)) in
  match prog !! Z.to_nat (instno st) with
  | None => WDone Undef
  | Some inst =>
      let class := EBPF_CLASS (opcode inst) in
      if class =? EBPF_CLS_JMP then walk_jmp w inst
      else if (class =? EBPF_CLS_ST) || (class =? EBPF_CLS_STX)
      then walk_of (validate_store maps st inst) next
      else if (class =? EBPF_CLS_LD) || (class =? EBPF_CLS_LDX)
      then walk_of (validate_load maps prog st inst) next
      else if (class =? EBPF_CLS_ALU) || (class =? EBPF_CLS_ALU64)
      then walk_of (validate_alu_op (indet w) st inst) next
      else next st
  end.

(** At most [p] iterations, [p] in binary: the number of paths can be
    exponential in the length of the program. *)
Fixpoint walk_run (p : positive) (w : walk) : walk_result :=
  match p with
  | xH => walk_step w
  | xO q => match walk_run q w with WNext w' => walk_run q w' | d => d end
  | xI q =>
      match walk_step w with
      | WNext w1 => match walk_run q w1 with WNext w2 => walk_run q w2 | d => d end
      | d => d
      end
  end.

(** 2^n iterations are enough for n instructions: [walk_terminates]. *)
Definition validate_accesses : option (res verr unit) :=
  match walk_run (Pos.shiftl_nat 1 (length prog)) walk_init with
  | WDone r => Some r
  | WNext _ => None
  end.

Definition validate : res verr unit :=
  if MAX_INSTS <=? Z.of_nat (length prog) then Err ETooManyInsts
  else
    let! _ := validate_instructions vm prog in
    let! _ := validate_cfg prog in
    default Undef validate_accesses.
End Walk.

(** ** Loading

    [code] is the byte buffer of [code_len] bytes; [verifier] tells whether
    the build defines HAVE_BPF_VERIFIER, [now] is [time_wall_msec()].  Returns
    the C status and the machine. *)
Definition ubpf_load (verifier : bool) (maps : gmap Z map_sizes) (indet : walk -> Z) (now : Z)
    (vm : ubpf_vm) (code : list Z) : res verr (Z * ubpf_vm * option verr) :=
  match insts vm with
  | Some _ => Ok (-1, vm, Some EAlreadyLoaded)
  | None =>
      if negb (Z.of_nat (length code) mod 8 =? 0) then Ok (-1, vm, Some ECodeLen)
      else
        let prog := insts_of_bytes code in
        let install :=
          (0, mk_vm (prog_id vm) (Some prog) (u16 (Z.of_nat (length code) / 8))
                (ext_funcs vm) (ext_func_names vm) (ext_maps vm) (ext_map_names vm)
                (nb_maps vm) now, None) in
        if verifier then
          match validate vm maps indet prog with
          | Ok _ => Ok install
          | Err e => Ok (-1, vm, Some e)
          | Undef => Undef
          end
        else Ok install
  end.
