(* ===== verification/WalkProps.v ===== *)
(** * The third pass ends, and what loading does

    [walk_terminates]: on a program the first two passes accept, the walk over
    all paths stops within the 2^n iterations the model allows.  The measure
    gives an instruction of rank r in a topological order of the graph the
    weight 2^r - 1: it bounds the number of instructions on all paths from it. *)

From S2P Require Import Prelude Ebpf Memory Vm Interp InterpProps ValidateInsts ValidateCfg.
From S2P Require Import ExecSafety RegState AluRange ValidateAccesses.

(** ** The checks do not move the program counter *)

Lemma validate_call_instno vm maps st f st' :
  validate_call vm maps st f = Ok st' -> instno st' = instno st.
Proof.
  unfold validate_call. intros H. res_inv. unfold call_effects. simpl. by destruct (_ =? UBPF_ADJUST_HEAD_ID).
Qed.

Lemma validate_mem_access_keeps maps st r inst t st' :
  validate_mem_access maps st r inst t = Ok st' ->
  instno st' = instno st /\ regs st' = regs st /\ pkt_range st' = pkt_range st.
Proof. unfold validate_mem_access. intros H. by res_inv. Qed.

Lemma validate_store_instno maps st inst st' :
  validate_store maps st inst = Ok st' -> instno st' = instno st.
Proof.
  unfold validate_store. intros H. res_inv;
    by match goal with H : validate_mem_access _ _ _ _ _ = _ |- _ =>
         apply validate_mem_access_keeps in H as (? & _) end.
Qed.

Lemma validate_load_instno maps prog st inst st' :
  validate_load maps prog st inst = Ok st' ->
  instno st' = (if is_lddw inst then u32 (instno st + 1) else instno st).
Proof.
  unfold validate_load, is_lddw. cbv zeta. intros H.
  apply res_bind_Ok in H as (? & _ & H).
  destruct (opcode inst =? opcode_of EBPF_OP_LDDW); [rewrite andb_true_l in H|rewrite andb_false_l in H].
  - destruct (src inst =? BPF_PSEUDO_MAP_FD).
    + apply res_bind_Ok in H as (n & _ & H). by injection H as <-.
    + apply res_bind_Ok in H as (? & _ & H). apply res_bind_Ok in H as (st1 & Hm & H).
      apply res_bind_Ok in H as (r & _ & H). injection H as <-.
      apply validate_mem_access_keeps in Hm as (E & _). cbn [instno set_instno put_reg set_regs]. by rewrite E.
  - apply res_bind_Ok in H as (? & _ & H). apply res_bind_Ok in H as (st1 & Hm & H).
    apply res_bind_Ok in H as (r & _ & H). injection H as <-.
    by apply validate_mem_access_keeps in Hm as (E & _).
Qed.

Lemma validate_alu_op_instno i st inst st' :
  validate_alu_op i st inst = Ok st' -> instno st' = instno st.
Proof. unfold validate_alu_op. intros H. by res_inv. Qed.

Lemma jump_ranges_instno c o inst c' o' :
  jump_ranges c o inst = (c', o') -> instno c' = instno c /\ instno o' = instno o.
Proof.
  unfold jump_ranges. intros H. repeat case_match; by simplify_eq.
Qed.

Lemma validate_jump_instno st inst st' o :
  validate_jump st inst = Ok (st', o) ->
  instno st' = instno st /\ instno o = u32 (instno st + offset inst + 1).
Proof.
  unfold validate_jump. intros H.
  apply res_bind_Ok in H as (? & _ & H). apply res_bind_Ok in H as (? & _ & H).
  injection H as H. destruct (jump_ranges _ _ _) as [c1 o1] eqn:E.
  apply jump_ranges_instno in E as [E1 E2]. unfold jump_null_check in H.
  case_match; by simplify_eq.
Qed.

(** ** Where an iteration goes *)

(** What an iteration does to the set of program points: it retires the
    current one and adds those of [next]. *)
Inductive walk_moves (prog : list ebpf_inst) (w w' : walk) : Prop :=
| moves_pop :
    pending w = curr w' :: pending w' -> walk_moves prog w w'
| moves_one u :
    cfg_edge prog (Z.to_nat (instno (curr w))) u ->
    (Z.to_nat (instno (curr w')) = u \/ cfg_edge prog u (Z.to_nat (instno (curr w')))) ->
    0 <= instno (curr w') -> pending w' = pending w -> walk_moves prog w w'
| moves_two o :
    cfg_edge prog (Z.to_nat (instno (curr w))) (Z.to_nat (instno (curr w'))) ->
    cfg_edge prog (Z.to_nat (instno (curr w))) (Z.to_nat (instno o)) ->
    0 <= instno (curr w') -> 0 <= instno o -> pending w' = o :: pending w -> walk_moves prog w w'.

Lemma u32_nonneg x : 0 <= u32 x.
Proof. apply (wrap_range 32). lia. Qed.
#[local] Hint Resolve u32_nonneg : core.

Lemma walk_of_next r k w' :
  walk_of r k = WNext w' -> exists st, r = Ok st /\ k st = WNext w'.
Proof. destruct r; simpl; [eauto|done|done]. Qed.

(** ** Ranks in a topological order *)

Fixpoint rank (L : list nat) (v : nat) : Z :=
  match L with
  | [] => 0
  | x :: L' => if decide (x = v) then Z.of_nat (length L) else rank L' v
  end.

Lemma rank_le L v : 0 <= rank L v <= Z.of_nat (length L).
Proof. induction L as [|x L IH]; simpl; [lia|]. case_decide; lia. Qed.

Lemma rank_pos L v : v ∈ L -> 1 <= rank L v.
Proof.
  induction L as [|x L IH]; intros Hv; [by apply not_elem_of_nil in Hv|].
  simpl. case_decide; [lia|]. apply elem_of_cons in Hv as [->|Hv]; [done|auto].
Qed.

Lemma rank_edge prog L v u :
  topo prog L -> v ∈ L -> cfg_edge prog v u -> u ∈ L /\ rank L u < rank L v.
Proof.
  induction 1 as [|x L Hlt Hn Hs HL IH]; intros Hv He; [by apply not_elem_of_nil in Hv|].
  destruct (decide (x = v)) as [->|Hne].
  - pose proof (Hs _ He) as Hu. split; [apply elem_of_cons; by right|].
    simpl. rewrite (decide_True (P := v = v)) by done. rewrite decide_False by (intros ->; done).
    pose proof (rank_le L u). lia.
  - apply elem_of_cons in Hv as [->|Hv]; [done|]. destruct (IH Hv He) as [Hu Hr].
    split; [apply elem_of_cons; by right|]. simpl.
    rewrite (decide_False (P := x = v)) by done.
    rewrite decide_False by (intros ->; done). done.
Qed.

Lemma pow_rank n r : 1 <= r -> n <= r -> 0 <= n -> 2 ^ n <= 2 ^ r.
Proof. intros. apply Z.pow_le_mono_r; lia. Qed.

Lemma two_below a b r : 1 <= a -> 1 <= b -> a < r -> b < r -> 2 ^ a - 1 + (2 ^ b - 1) < 2 ^ r - 1.
Proof.
  intros. pose proof (Z.pow_le_mono_r 2 a (r - 1) ltac:(lia) ltac:(lia)).
  pose proof (Z.pow_le_mono_r 2 b (r - 1) ltac:(lia) ltac:(lia)).
  assert (2 ^ r = 2 * 2 ^ (r - 1)) by (rewrite <- Z.pow_succ_r by lia; f_equal; lia). lia.
Qed.

Section Terminates.
Context (vm : ubpf_vm) (maps : gmap Z map_sizes) (indet : walk -> Z) (prog : list ebpf_inst).
Context (Hok : insts_ok vm prog) (Hlen : Z.of_nat (length prog) < MAX_INSTS).

Definition pcs_nonneg (w : walk) : Prop :=
  0 <= instno (curr w) /\ Forall (fun st => 0 <= instno st) (pending w).

Lemma inst_known v inst :
  prog !! v = Some inst -> opcode inst = 0 \/ exists o, op_of_opcode (opcode inst) = Some o.
Proof using Hok.
  intros Hv. specialize (Hok _ _ Hv). destruct (Z.eqb_spec (opcode inst) 0); [by left|].
  right. destruct Hok as (o & Ho & _). eauto.
Qed.

(** A straight step of a non-jump instruction is an edge. *)
Lemma edge_straight v inst :
  0 <= v -> prog !! Z.to_nat v = Some inst -> (EBPF_CLASS (opcode inst) =? EBPF_CLS_JMP) = false ->
  cfg_edge prog (Z.to_nat v) (Z.to_nat (u32 (v + 1))).
Proof using.
  intros Hv Hi Hc. unfold cfg_edge, succs. rewrite Hi. unfold cfg_succs. rewrite Hc.
  apply list_elem_of_singleton. rewrite Z2Nat.id by done. done.
Qed.

Lemma walk_jmp_moves w w' inst :
  pcs_nonneg w -> prog !! Z.to_nat (instno (curr w)) = Some inst ->
  (EBPF_CLASS (opcode inst) =? EBPF_CLS_JMP) = true ->
  walk_jmp vm maps w inst = WNext w' -> walk_moves prog w w'.
Proof using Hok.
  intros [Hv _] Hi Hc H. destruct (inst_known _ _ Hi) as [E0|[o Ho]].
  { rewrite E0 in Hc. done. }
  pose proof (cfg_succs_op inst o (Z.to_nat (instno (curr w))) Ho) as Hs.
  rewrite Z2Nat.id in Hs by done. cbv zeta in Hs. rewrite wrap_add_l in Hs.
  assert (forall u, u ∈ cfg_succs inst (Z.to_nat (instno (curr w))) ->
            cfg_edge prog (Z.to_nat (instno (curr w))) u) as He.
  { intros u Hu. unfold cfg_edge, succs. by rewrite Hi. }
  rewrite Hs in He. clear Hs.
  apply op_of_opcode_Some in Ho. unfold walk_jmp in H. rewrite <- Ho in *.
  destruct (opcode_of o =? opcode_of EBPF_OP_JA) eqn:Eja.
  { destruct o; try discriminate. injection H as <-.
    eapply moves_one; [apply He, list_elem_of_singleton; reflexivity| |by simpl|done].
    left. simpl. do 2 f_equal. lia. }
  destruct (opcode_of o =? opcode_of EBPF_OP_CALL) eqn:Ec.
  { destruct o; try discriminate. apply walk_of_next in H as (st & Hst & [= <-]).
    apply validate_call_instno in Hst.
    eapply moves_one; [apply He, list_elem_of_singleton; reflexivity| |by simpl|done].
    left. simpl. by rewrite Hst. }
  destruct (opcode_of o =? opcode_of EBPF_OP_EXIT) eqn:Ee.
  { unfold walk_exit in H. repeat case_match; try discriminate. injection H as <-.
    by apply moves_pop. }
  destruct (validate_jump (curr w) inst) as [[st' oth]| |] eqn:Ej; [|done..].
  injection H as <-. apply validate_jump_instno in Ej as [E1 E2].
  apply (moves_two _ _ _ oth); simpl; [apply He|apply He|done|by rewrite E2|done].
  - rewrite E1. destruct o; try discriminate; apply elem_of_cons; left; reflexivity.
  - rewrite E2. replace (instno (curr w) + offset inst + 1) with (instno (curr w) + 1 + offset inst) by lia.
    destruct o; try discriminate; apply elem_of_cons; right; apply list_elem_of_singleton; reflexivity.
Qed.

Lemma walk_step_moves w w' :
  pcs_nonneg w -> walk_step vm maps indet prog w = WNext w' ->
  walk_moves prog w w'.
Proof using Hok Hlen.
  intros Hp H. unfold walk_step in H.
  destruct (prog !! _) as [inst|] eqn:Hi; [|done].
  destruct (EBPF_CLASS (opcode inst) =? EBPF_CLS_JMP) eqn:Hc; [by eapply walk_jmp_moves|].
  pose proof (edge_straight _ _ (proj1 Hp) Hi Hc) as He.
  destruct (_ || _).
  { apply walk_of_next in H as (st & Hst & [= <-]). apply validate_store_instno in Hst.
    eapply moves_one; [exact He| |by simpl|done]. left. simpl. by rewrite Hst. }
  destruct (_ || _).
  { apply walk_of_next in H as (st & Hst & [= <-]). apply validate_load_instno in Hst.
    eapply moves_one; [exact He| |by simpl|done]. simpl. rewrite Hst.
    destruct (is_lddw inst) eqn:El; [|by left]. right.
    pose proof (Hok _ _ Hi) as Hin. rewrite (is_lddw_nonzero _ El) in Hin.
    destruct (inst_ok_lddw_next _ _ _ _ Hin El) as (nx & Hnx & Hz).
    pose proof (lookup_lt_Some _ _ _ Hi). pose proof (proj1 Hp).
    assert (u32 (instno (curr w) + 1) = instno (curr w) + 1) as E
      by (apply wrap_small; unfold in_u; clia).
    rewrite E. apply (edge_straight _ nx); [lia| |by rewrite Hz].
    rewrite Z2Nat.id in Hnx by lia. exact Hnx. }
  destruct (_ || _).
  { apply walk_of_next in H as (st & Hst & [= <-]). apply validate_alu_op_instno in Hst.
    eapply moves_one; [exact He| |by simpl|done]. left. simpl. by rewrite Hst. }
  injection H as <-. eapply moves_one; [exact He|by left|by simpl|done].
Qed.

Lemma walk_moves_nonneg w w' : pcs_nonneg w -> walk_moves prog w w' -> pcs_nonneg w'.
Proof using.
  intros [H1 H2] [E|u _ _ Hn E|o _ _ Hn Ho E]; split; try done.
  - rewrite E in H2. by apply Forall_cons in H2 as [? _].
  - rewrite E in H2. by apply Forall_cons in H2 as [_ ?].
  - by rewrite E.
  - rewrite E. by constructor.
Qed.

(** ** The measure *)

Context (L : list nat) (HL : topo prog L).

Definition weight (st : bpf_state) : Z := 2 ^ rank L (Z.to_nat (instno st)) - 1.
Definition walk_weight (w : walk) : Z :=
  weight (curr w) + foldr (fun st n => weight st + n) 0 (pending w).
Definition in_order (w : walk) : Prop :=
  Z.to_nat (instno (curr w)) ∈ L /\ Forall (fun st => Z.to_nat (instno st) ∈ L) (pending w).

Lemma walk_moves_weight w w' :
  in_order w -> walk_moves prog w w' -> in_order w' /\ walk_weight w' < walk_weight w.
Proof using HL.
  intros [Hc Hp] [E|u H1 H2 _ E|o H1 H2 _ _ E]; unfold walk_weight, in_order, weight.
  - rewrite E in *. apply Forall_cons in Hp as [? ?]. split; [done|]. simpl.
    pose proof (pow_rank 1 _ (rank_pos _ _ Hc) (rank_pos _ _ Hc) ltac:(lia)). lia.
  - destruct (rank_edge _ _ _ _ HL Hc H1) as [Hu Hr]. rewrite E.
    assert (Z.to_nat (instno (curr w')) ∈ L /\
            rank L (Z.to_nat (instno (curr w'))) <= rank L u) as [Hin Hle].
    { destruct H2 as [->|H2]; [done|]. destruct (rank_edge _ _ _ _ HL Hu H2). split; [done|lia]. }
    split; [done|].
    pose proof (Z.pow_lt_mono_r 2 (rank L (Z.to_nat (instno (curr w')))) (rank L (Z.to_nat (instno (curr w))))
                  ltac:(lia) ltac:(pose proof (rank_pos _ _ Hc); lia) ltac:(lia)). lia.
  - destruct (rank_edge _ _ _ _ HL Hc H1) as [Hu Hr].
    destruct (rank_edge _ _ _ _ HL Hc H2) as [Hu2 Hr2]. rewrite E. simpl.
    split; [split; [done|by constructor]|]. unfold weight.
    pose proof (two_below _ _ _ (rank_pos _ _ Hu) (rank_pos _ _ Hu2) Hr Hr2). lia.
Qed.

Lemma walk_run_weight p w w' :
  pcs_nonneg w -> in_order w -> walk_run vm maps indet prog p w = WNext w' ->
  pcs_nonneg w' /\ in_order w' /\ walk_weight w' + Z.pos p <= walk_weight w.
Proof using Hok Hlen HL.
  assert (forall w w', pcs_nonneg w -> in_order w -> walk_step vm maps indet prog w = WNext w' ->
            pcs_nonneg w' /\ in_order w' /\ walk_weight w' + 1 <= walk_weight w) as Hstep.
  { intros w1 w2 Hn Ho Hs. pose proof (walk_step_moves _ _ Hn Hs) as Hm.
    destruct (walk_moves_weight _ _ Ho Hm). split; [by eapply walk_moves_nonneg|].
    split; [done|lia]. }
  revert w w'. induction p as [q IH|q IH|]; intros w w' Hn Ho H; cbn [walk_run] in H.
  - destruct (walk_step _ _ _ _ w) as [w1|] eqn:E1; [|done].
    destruct (Hstep _ _ Hn Ho E1) as (Hn1 & Ho1 & Hw1).
    destruct (walk_run _ _ _ _ q w1) as [w2|] eqn:E2; [|done].
    destruct (IH _ _ Hn1 Ho1 E2) as (Hn2 & Ho2 & Hw2).
    destruct (IH _ _ Hn2 Ho2 H) as (? & ? & ?). split_and!; [done..|lia].
  - destruct (walk_run _ _ _ _ q w) as [w2|] eqn:E2; [|done].
    destruct (IH _ _ Hn Ho E2) as (Hn2 & Ho2 & Hw2).
    destruct (IH _ _ Hn2 Ho2 H) as (? & ? & ?). split_and!; [done..|lia].
  - by apply Hstep.
Qed.
End Terminates.

Lemma shiftl_nat_pow n : Z.pos (Pos.shiftl_nat 1 n) = 2 ^ Z.of_nat n.
Proof.
  induction n as [|n IH]; [done|]. rewrite Nat2Z.inj_succ, Z.pow_succ_r by lia.
  rewrite <- IH. reflexivity.
Qed.

Lemma walk_init_nonneg : pcs_nonneg walk_init.
Proof. split; [done|constructor]. Qed.

Lemma validate_accesses_total vm maps indet prog L :
  insts_ok vm prog -> Z.of_nat (length prog) < MAX_INSTS ->
  topo prog L -> 0%nat ∈ L -> is_Some (validate_accesses vm maps indet prog).
Proof.
  intros Hok Hlen HL H0. unfold validate_accesses.
  destruct (walk_run _ _ _ _ _ _) as [w|r] eqn:E; [|by eexists].
  assert (in_order L walk_init) as Hio by (split; [exact H0|constructor]).
  destruct (walk_run_weight vm maps indet prog Hok Hlen L HL _ _ _ walk_init_nonneg Hio E)
    as (_ & _ & Hw).
  assert (0 <= walk_weight L w).
  { unfold walk_weight. assert (forall st, 0 <= weight L st).
    { intros st. unfold weight. pose proof (rank_le L (Z.to_nat (instno st))).
      pose proof (Z.pow_pos_nonneg 2 (rank L (Z.to_nat (instno st)))). lia. }
    pose proof (H (curr w)). induction (pending w) as [|st l IH]; simpl; [lia|].
    pose proof (H st). lia. }
  assert (walk_weight L walk_init < 2 ^ Z.of_nat (length prog)).
  { unfold walk_weight, weight. simpl.
    pose proof (rank_le L 0). pose proof (topo_length _ _ HL).
    pose proof (Z.pow_le_mono_r 2 (rank L 0) (Z.of_nat (length prog))).
    change (Z.to_nat 0) with 0%nat. lia. }
  rewrite shiftl_nat_pow in Hw. lia.
Qed.

(** C17: the walk over all paths always ends: on a program the first two passes
    accept, 2^n iterations are enough, whatever the maps, the prototypes and the
    uninitialised value the pass reads. *)
Theorem walk_terminates vm maps indet prog :
  Z.of_nat (length prog) < MAX_INSTS ->
  validate_instructions vm prog = Ok tt -> validate_cfg prog = Ok tt ->
  is_Some (validate_accesses vm maps indet prog).
Proof.
  intros Hlen Hv Hc. apply validate_instructions_insts_ok in Hv.
  assert (prog <> []) as Hne by (by intros ->).
  pose proof (validate_cfg_spec prog Hne) as H. rewrite Hc in H.
  destruct H as (L & HL & H0). by eapply validate_accesses_total.
Qed.

Definition branchy : list ebpf_inst :=
  [mk_op EBPF_OP_MOV64_IMM 0 0 0 0; mk_op EBPF_OP_JGT_IMM 2 0 1 10;
   mk_op EBPF_OP_MOV64_IMM 0 0 0 1; mk_op EBPF_OP_JGT_IMM 2 0 1 20;
   mk_op EBPF_OP_MOV64_IMM 0 0 0 2; mk_op EBPF_OP_EXIT 0 0 0 0].

Lemma walk_terminates_witness :
  is_Some (validate_accesses (ubpf_create 1) ∅ (fun _ => 0) branchy).
Proof.
  apply walk_terminates; vm_compute; reflexivity.
Defined.

(** ** Loading *)

Lemma insts_ok_ext vm vm' prog :
  ext_funcs vm' = ext_funcs vm -> insts_ok vm prog -> insts_ok vm' prog.
Proof.
  intros E Hok i inst Hi. specialize (Hok i inst Hi). case_match; [done|].
  destruct Hok as (o & Ho & [] & Hr). exists o. split_and!; [done| |done].
  constructor; try done. by rewrite E.
Qed.

Lemma validate_Ok vm maps indet prog :
  validate vm maps indet prog = Ok tt <->
  Z.of_nat (length prog) < MAX_INSTS /\ insts_ok vm prog /\ validate_cfg prog = Ok tt /\
  validate_accesses vm maps indet prog = Some (Ok tt).
Proof.
  unfold validate. rewrite <- validate_instructions_insts_ok.
  destruct (Z.leb_spec MAX_INSTS (Z.of_nat (length prog))); [split; [done|lia]|].
  rewrite res_bind_Ok. split.
  - intros ([] & H1 & H2). apply res_bind_Ok in H2 as ([] & H2 & H3). split_and!; try done.
    by destruct (validate_accesses _ _ _ _) as [r|]; simpl in H3; subst.
  - intros (_ & H1 & H2 & H3). exists tt. split; [done|]. rewrite H2. simpl. by rewrite H3.
Qed.

(** The outcomes of [ubpf_load]. *)
Definition load_outcome (maps : gmap Z map_sizes) (indet : walk -> Z) (now : Z) (vm : ubpf_vm)
    (code : list Z) (r : Z) (vm' : ubpf_vm) (e : option verr) : Prop :=
  (r = -1 /\ vm' = vm /\ is_Some e /\
   (insts vm <> None \/ Z.of_nat (length code) mod 8 <> 0 \/
    validate vm maps indet (insts_of_bytes code) <> Ok tt)) \/
  (r = 0 /\ e = None /\ insts vm = None /\ Z.of_nat (length code) mod 8 = 0 /\
   validate vm maps indet (insts_of_bytes code) = Ok tt /\
   insts vm' = Some (insts_of_bytes code) /\
   num_insts vm' = Z.of_nat (length (insts_of_bytes code)) /\
   ext_funcs vm' = ext_funcs vm /\ ext_maps vm' = ext_maps vm /\ loaded_at vm' = now).

Lemma ubpf_load_outcome maps indet now vm code r vm' e :
  ubpf_load true maps indet now vm code = Ok (r, vm', e) ->
  load_outcome maps indet now vm code r vm' e.
Proof.
  unfold ubpf_load, load_outcome. destruct (insts vm) eqn:Ei.
  { intros [= <- <- <-]. left. split_and!; try done. by left. }
  destruct (Z.eqb_spec (Z.of_nat (length code) mod 8) 0) as [Em|Em]; simpl.
  2:{ intros [= <- <- <-]. left. split_and!; try done. right. by left. }
  destruct (validate vm maps indet (insts_of_bytes code)) as [[]|e'|] eqn:Ev; [|intros [= <- <- <-]|done].
  - intros [= <- <- <-]. right. split_and!; try done. simpl.
    apply validate_Ok in Ev as [Hlen _].
    rewrite (length_insts_of_bytes (Z.to_nat (Z.of_nat (length code) / 8))) in *
      by (Z.div_mod_to_equations; lia).
    pose proof (Z.div_pos (Z.of_nat (length code)) 8 ltac:(lia) ltac:(lia)).
    rewrite wrap_small by (unfold in_u; clia). lia.
  - left. split_and!; try done. right. by right.
Qed.

Lemma load_outcome_terminates maps indet now vm code vm' e env regs0 m :
  load_outcome maps indet now vm code 0 vm' e ->
  ubpf_exec (Z.to_nat (num_insts vm')) vm' env regs0 m <> OutOfFuel.
Proof.
  intros [(? & _)|(_ & _ & _ & _ & Hv & Hi & Hn & Hf & _)]; [done|].
  apply validate_Ok in Hv as (Hlen & Hok & Hc & _). rewrite Hn, Nat2Z.id.
  apply accepted_terminates; try done. by apply (insts_ok_ext vm).
Qed.

(** [ubpf_load] with the verifier on: it installs a program exactly when the
    machine has none, the length is a multiple of eight and [validate] accepts;
    the installed program is the decoded buffer with an untruncated count, and
    every refusal leaves the machine as it was. *)
Theorem ubpf_load_spec maps indet now vm code r vm' e :
  ubpf_load true maps indet now vm code = Ok (r, vm', e) ->
  (r = -1 /\ vm' = vm /\ is_Some e /\
   (insts vm <> None \/ Z.of_nat (length code) mod 8 <> 0 \/
    validate vm maps indet (insts_of_bytes code) <> Ok tt)) \/
  (r = 0 /\ e = None /\ insts vm = None /\ Z.of_nat (length code) mod 8 = 0 /\
   validate vm maps indet (insts_of_bytes code) = Ok tt /\
   insts vm' = Some (insts_of_bytes code) /\
   num_insts vm' = Z.of_nat (length (insts_of_bytes code)) /\
   ext_funcs vm' = ext_funcs vm /\ ext_maps vm' = ext_maps vm /\ loaded_at vm' = now).
Proof. exact (ubpf_load_outcome maps indet now vm code r vm' e). Qed.

(** what loading is for: a program that [ubpf_load] installs with the
    verifier on runs to its end within [num_insts] steps. *)
Theorem loaded_program_terminates maps indet now vm code vm' e env regs0 m :
  ubpf_load true maps indet now vm code = Ok (0, vm', e) ->
  ubpf_exec (Z.to_nat (num_insts vm')) vm' env regs0 m <> OutOfFuel.
Proof. intros H. eapply load_outcome_terminates, ubpf_load_outcome, H. Qed.

(** The bytes of [branchy]. *)
Definition branchy_code : list Z := concat (bytes_of_inst <$> branchy).

Lemma ubpf_load_spec_witness :
  exists vm', ubpf_load true ∅ (fun _ => 0) 5 (ubpf_create 1) branchy_code = Ok (0, vm', None) /\
              num_insts vm' = 6.
Proof.
  eexists. split; [vm_compute; reflexivity|].
  destruct (ubpf_load_spec ∅ (fun _ => 0) 5 (ubpf_create 1) branchy_code _ _ _
              ltac:(vm_compute; reflexivity)) as [(H & _)|H]; [discriminate H|].
  destruct H as (_ & _ & _ & _ & _ & _ & H & _). exact H.
Defined.

Lemma loaded_program_terminates_witness :
  exists vm', ubpf_load true ∅ (fun _ => 0) 5 (ubpf_create 1) branchy_code = Ok (0, vm', None) /\
              ubpf_exec 6 vm' demo_env (replicate 16 7) ∅ <> OutOfFuel.
Proof.
  eexists. split; [vm_compute; reflexivity|].
  exact (loaded_program_terminates ∅ (fun _ => 0) 5 (ubpf_create 1) branchy_code _ _
           demo_env (replicate 16 7) ∅ ltac:(vm_compute; reflexivity)).
Defined.
