(* ===== verification/JumpSound.v ===== *)
(** * Third pass of the verifier: refinement by conditional jumps is sound

    [reg_in r v]: the value [v] lies in both intervals of [r].  The theorem of
    this file connects [validate_jump] with the interpreter's [jump_taken]: the
    ranges the verifier assumes on a branch hold of the registers of every run
    that takes this branch. *)

From S2P Require Import Prelude Ebpf Memory Vm Interp InterpProps ValidateInsts ValidateCfg.
From S2P Require Import ExecSafety RegState AluRange ValidateAccesses.

Record wf_reg (r : bpf_reg_state) : Prop := {
  wf_umin : in_u 64 (umin r); wf_umax : in_u 64 (umax r);
  wf_smin : in_s 64 (smin r); wf_smax : in_s 64 (smax r)
}.

Record reg_in (r : bpf_reg_state) (v : Z) : Prop := {
  in_wf : wf_reg r;
  in_u64 : in_u 64 v;
  in_ubounds : umin r <= v <= umax r;
  in_sbounds : smin r <= s64 v <= smax r
}.

(** The types whose ranges describe the value itself; a pointer's ranges
    describe its offset. *)
Definition scalar (r : bpf_reg_state) : bool :=
  (rtype r =? UNKNOWN) || (rtype r =? IMM) || (rtype r =? PKT_SIZE).

(** [rv] holds the concrete registers. *)
Definition regs_in (rs : list bpf_reg_state) (rv : list Z) : Prop :=
  length rs = Z.to_nat NB_REGS /\
  forall i, 0 <= i < NB_REGS -> scalar (regs_get rs i) = true -> reg_in (regs_get rs i) (rget rv i).

(** ** Words near their bounds *)

Lemma u64_succ x : in_u 64 x -> x < UINT64_MAX -> u64 (x + 1) = x + 1.
Proof. unfold UINT64_MAX. intros ? ?. apply wrap_small. unfold in_u in *. lia. Qed.
Lemma u64_pred x : in_u 64 x -> 0 < x -> u64 (x - 1) = x - 1.
Proof. intros ? ?. apply wrap_small. unfold in_u in *. lia. Qed.

Lemma s64_shift x k : in_s 64 (s64 x + k) -> s64 (x + k) = s64 x + k.
Proof.
  intros H. rewrite <- (sext_small 64 (s64 x + k)) by (lia || done).
  rewrite <- (sext_wrap 64 (x + k)), <- (sext_wrap 64 (s64 x + k)).
  f_equal. rewrite <- (wrap_add_l 64 x), <- (wrap_add_l 64 (s64 x)).
  by rewrite wrap_sext by lia.
Qed.

Lemma s64_in x : in_s 64 (s64 x).
Proof. apply sext_range. lia. Qed.
Lemma u64_in x : in_u 64 (u64 x).
Proof. apply wrap_range. lia. Qed.

Lemma s64_sum_in a b v : in_s 64 a -> s64 v = a + b -> in_s 64 (a + b).
Proof. intros _ <-. apply s64_in. Qed.

#[export] Hint Resolve s64_in u64_in : word.

Lemma cmax_spec x y : cmax x y = Z.max x y.
Proof. unfold cmax. destruct (Z.ltb_spec y x); lia. Qed.
Lemma cmin_spec x y : cmin x y = Z.min x y.
Proof. unfold cmin. destruct (Z.ltb_spec x y); lia. Qed.

(** ** Register files *)

Lemma regs_get_upd_eq i f rs :
  0 <= i -> (Z.to_nat i < length rs)%nat -> regs_get (regs_upd i f rs) i = f (regs_get rs i).
Proof.
  intros Hi Hl. unfold regs_get, regs_upd. rewrite list_lookup_alter_eq.
  destruct (lookup_lt_is_Some_2 rs _ Hl) as [r ->]. done.
Qed.

Lemma regs_get_upd_ne i j f rs :
  0 <= i -> 0 <= j -> i <> j -> regs_get (regs_upd i f rs) j = regs_get rs j.
Proof.
  intros Hi Hj Hne. unfold regs_get, regs_upd. rewrite list_lookup_alter_ne by lia. done.
Qed.

Lemma length_regs_upd i f rs : length (regs_upd i f rs) = length rs.
Proof. apply length_alter. Qed.

(** An update that keeps the type and the soundness of one register. *)
Lemma regs_in_upd rs rv i f :
  regs_in rs rv -> 0 <= i < NB_REGS ->
  (scalar (f (regs_get rs i)) = true ->
   (scalar (regs_get rs i) = true -> reg_in (regs_get rs i) (rget rv i)) ->
   reg_in (f (regs_get rs i)) (rget rv i)) ->
  regs_in (regs_upd i f rs) rv.
Proof.
  intros [Hl Hin] Hi Hf. split; [by rewrite length_regs_upd|]. intros j Hj.
  destruct (decide (i = j)) as [<-|Hne].
  - rewrite regs_get_upd_eq by clia. intros Hs. apply Hf; [done|]. by apply Hin.
  - rewrite regs_get_upd_ne by lia. by apply Hin.
Qed.

(** ** Comparisons *)

(** The comparison a conditional jump makes, by operation. *)
Definition jump_cond (op x y : Z) : bool :=
  if op =? EBPF_JMP_JEQ then x =? y
  else if op =? EBPF_JMP_JGT then y <? x
  else if op =? EBPF_JMP_JGE then y <=? x
  else if op =? EBPF_JMP_JNE then negb (x =? y)
  else if op =? EBPF_JMP_JSGT then s64 y <? s64 x
  else if op =? EBPF_JMP_JSGE then s64 y <=? s64 x
  else negb (Z.land x y =? 0).

(** Unfolds a conditional on the operation and opens the comparison. *)
Ltac op_cases :=
  repeat match goal with
  | |- context [if ?op =? ?c then _ else _] =>
      lazymatch op with context [cmin] => fail | _ => destruct (Z.eqb_spec op c) end
  end.

Ltac bool_hyps :=
  repeat match goal with
  | H : (_ =? _) = true |- _ => apply Z.eqb_eq in H
  | H : (_ =? _) = false |- _ => apply Z.eqb_neq in H
  | H : (_ <? _) = true |- _ => apply Z.ltb_lt in H
  | H : (_ <? _) = false |- _ => apply Z.ltb_ge in H
  | H : (_ <=? _) = true |- _ => apply Z.leb_le in H
  | H : (_ <=? _) = false |- _ => apply Z.leb_gt in H
  | H : negb _ = true |- _ => apply negb_true_iff in H
  | H : negb _ = false |- _ => apply negb_false_iff in H
  end.

Ltac reg_split :=
  match goal with H : reg_in _ _ |- _ => destruct H as [[] ? ? ?] end;
  split; [split|..]; simpl; auto; lia.

Section Refine.
Context (r : bpf_reg_state) (v : Z) (Hr : reg_in r v).

Lemma in_const val : in_u 64 val -> v = val -> reg_in (const_reg val r) v.
Proof using Hr.
  intros Hv ->. destruct Hr. split; [split|..]; simpl; auto with word; lia.
Qed.
Lemma in_set_umin x : in_u 64 x -> x <= v -> reg_in (set_umin x r) v.
Proof using Hr. intros. reg_split. Qed.
Lemma in_set_umax x : in_u 64 x -> v <= x -> reg_in (set_umax x r) v.
Proof using Hr. intros. reg_split. Qed.
Lemma in_set_smin x : in_s 64 x -> x <= s64 v -> reg_in (set_smin x r) v.
Proof using Hr. intros. reg_split. Qed.
Lemma in_set_smax x : in_s 64 x -> s64 v <= x -> reg_in (set_smax x r) v.
Proof using Hr. intros. reg_split. Qed.
Lemma in_set_s lo hi : in_s 64 lo -> in_s 64 hi -> lo <= s64 v <= hi -> reg_in (set_s lo hi r) v.
Proof using Hr. intros. reg_split. Qed.
End Refine.

(** The four shifted bounds. *)
Lemma u64_succ_le x v : in_u 64 x -> in_u 64 v -> x < v -> u64 (x + 1) <= v.
Proof. intros. rewrite u64_succ by (unfold in_u, UINT64_MAX in *; lia). lia. Qed.
Lemma u64_pred_ge x v : in_u 64 x -> in_u 64 v -> v < x -> v <= u64 (x - 1).
Proof. intros. rewrite u64_pred by (unfold in_u in *; lia). lia. Qed.
Lemma s64_succ_le x v : s64 x < s64 v -> s64 (x + 1) <= s64 v.
Proof.
  intros. pose proof (s64_in x) as H1. pose proof (s64_in v) as H2.
  rewrite s64_shift by (unfold in_s in *; lia). lia.
Qed.
Lemma s64_pred_ge x v : s64 v < s64 x -> s64 v <= s64 (x - 1).
Proof.
  intros. pose proof (s64_in x) as H1. pose proof (s64_in v) as H2.
  replace (x - 1) with (x + -1) by lia. rewrite s64_shift by (unfold in_s in *; lia). lia.
Qed.

(** ** One register against a constant *)

Section Imm.
Context (tr fr : bpf_reg_state) (tp fp op val v : Z) (Hval : in_u 64 val).

Lemma jump_imm_sound t tp' f fp' :
  update_min_max_jump_imm tr tp fr fp op val = (t, tp', f, fp') ->
  (jump_cond op v val = true -> reg_in tr v -> reg_in t v) /\
  (jump_cond op v val = false -> reg_in fr v -> reg_in f v) /\
  rtype t = rtype tr /\ rtype f = rtype fr.
Proof using Hval.
  unfold update_min_max_jump_imm, jump_cond. op_cases; intros [= <- _ <- _];
    (split_and!; [intros Hc Hr|intros Hc Hr|done|done]); bool_hyps; try done;
    pose proof (in_u64 _ _ Hr).
  - by apply in_const.
  - apply in_set_umin; auto with word. by apply u64_succ_le.
  - by apply in_set_umax.
  - by apply in_set_umin.
  - apply in_set_umax; auto with word. by apply u64_pred_ge.
  - by apply in_const.
  - apply in_set_smin; auto with word. by apply s64_succ_le.
  - apply in_set_smax; auto with word.
  - apply in_set_smin; auto with word.
  - apply in_set_smax; auto with word. by apply s64_pred_ge.
Qed.

Lemma jump_imm_inv_sound t tp' f fp' :
  update_min_max_jump_imm_inv tr tp fr fp op val = (t, tp', f, fp') ->
  (jump_cond op val v = true -> reg_in tr v -> reg_in t v) /\
  (jump_cond op val v = false -> reg_in fr v -> reg_in f v) /\
  rtype t = rtype tr /\ rtype f = rtype fr.
Proof using Hval.
  unfold update_min_max_jump_imm_inv, jump_cond. op_cases; intros [= <- _ <- _];
    (split_and!; [intros Hc Hr|intros Hc Hr|done|done]); bool_hyps; try done;
    pose proof (in_u64 _ _ Hr).
  - by apply in_const.
  - apply in_set_umax; auto with word. by apply u64_pred_ge.
  - by apply in_set_umin.
  - by apply in_set_umax.
  - apply in_set_umin; auto with word. by apply u64_succ_le.
  - by apply in_const.
  - apply in_set_smax; auto with word. by apply s64_pred_ge.
  - apply in_set_smin; auto with word.
  - apply in_set_smax; auto with word.
  - apply in_set_smin; auto with word. by apply s64_succ_le.
Qed.
End Imm.

(** ** Two registers *)

Lemma scalar_type r r' : rtype r' = rtype r -> scalar r' = scalar r.
Proof. unfold scalar. by intros ->. Qed.

Lemma scalar_upd i f rs j :
  (forall r, rtype (f r) = rtype r) -> scalar (regs_get (regs_upd i f rs) j) = scalar (regs_get rs j).
Proof.
  intros Hf. unfold regs_get, regs_upd, regs_get.
  destruct (decide (Z.to_nat i = Z.to_nat j)) as [->|Hne].
  - rewrite list_lookup_alter_eq. destruct (rs !! Z.to_nat j); [|done]. apply scalar_type, Hf.
  - by rewrite list_lookup_alter_ne.
Qed.

Lemma s64_id z : in_s 64 z -> s64 z = z.
Proof. intros. apply sext_small; [lia|done]. Qed.
Lemma s64_succ_lt a b : in_s 64 a -> a < s64 b -> s64 (a + 1) <= s64 b.
Proof. intros H ?. apply s64_succ_le. rewrite s64_id; done. Qed.
Lemma s64_pred_lt a b : in_s 64 a -> s64 b < a -> s64 b <= s64 (a - 1).
Proof. intros H ?. apply s64_pred_ge. rewrite (s64_id a); done. Qed.

Section TwoRegs.
Context (rv : list Z) (d s : Z) (Hd : 0 <= d < NB_REGS) (Hs : 0 <= s < NB_REGS).
Let x := rget rv d.
Let y := rget rv s.

Definition both_in (rs : list bpf_reg_state) : Prop :=
  regs_in rs rv /\ scalar (regs_get rs d) = true /\ scalar (regs_get rs s) = true.

Lemma both_d rs : both_in rs -> reg_in (regs_get rs d) x.
Proof using Hd. intros ((_ & H) & ? & _). by apply H. Qed.
Lemma both_s rs : both_in rs -> reg_in (regs_get rs s) y.
Proof using Hs. intros ((_ & H) & _ & ?). by apply H. Qed.

Lemma both_upd_d rs f :
  both_in rs -> (forall r, rtype (f r) = rtype r) -> reg_in (f (regs_get rs d)) x ->
  both_in (regs_upd d f rs).
Proof using Hd.
  intros (H & H1 & H2) Hf Hin. split_and!; [by apply regs_in_upd; auto|by rewrite scalar_upd..].
Qed.

Lemma both_upd_s rs f :
  both_in rs -> (forall r, rtype (f r) = rtype r) -> reg_in (f (regs_get rs s)) y ->
  both_in (regs_upd s f rs).
Proof using Hs.
  intros (H & H1 & H2) Hf Hin. split_and!; [by apply regs_in_upd; auto|by rewrite scalar_upd..].
Qed.

(** Assignments to the first, then to the second register. *)
Lemma both_two rs f g :
  both_in rs -> (forall r, rtype (f r) = rtype r) -> (forall r, rtype (g r) = rtype r) ->
  reg_in (f (regs_get rs d)) x ->
  (both_in (regs_upd d f rs) -> reg_in (g (regs_get (regs_upd d f rs) s)) y) ->
  both_in (regs_upd s g (regs_upd d f rs)).
Proof using Hd Hs.
  intros H Hf Hg H1 H2. pose proof (both_upd_d rs f H Hf H1) as Hb.
  apply both_upd_s; auto.
Qed.

(** Opens what is known of both registers in [rs], and solves a new bound. *)
Ltac facts H :=
  pose proof (both_d _ H) as []; pose proof (both_s _ H) as [];
  destruct (in_wf _ _ (both_d _ H)); destruct (in_wf _ _ (both_s _ H)).
Ltac bound :=
  rewrite ?cmax_spec, ?cmin_spec;
  first [ apply in_set_umin | apply in_set_umax | apply in_set_smin | apply in_set_smax ];
  [ first [by apply both_d | by apply both_s] |
    try (apply Z.max_case || apply Z.min_case); auto with word |
    try (apply Z.max_lub || apply Z.min_glb);
    auto using u64_succ_le, u64_pred_ge, s64_succ_le, s64_pred_ge; try lia ].
Ltac two H :=
  apply both_two; [done|done|done|facts H; bound |
    match goal with |- both_in ?r1 -> _ => generalize r1 end;
    let r1 := fresh "rs1" in let Hb := fresh in intros r1 Hb; facts Hb; bound].

Lemma jgt_true_in rs : both_in rs -> y < x -> both_in (jgt_true rs d s).
Proof using Hd Hs.
  intros H Hc. unfold jgt_true. cbv zeta. two H.
  - apply u64_succ_le; auto. lia.
  - apply u64_pred_ge; auto. lia.
Qed.
Lemma jgt_false_in rs : both_in rs -> x <= y -> both_in (jgt_false rs d s).
Proof using Hd Hs. intros H Hc. unfold jgt_false. cbv zeta. two H. Qed.
Lemma jge_true_in rs : both_in rs -> y <= x -> both_in (jge_true rs d s).
Proof using Hd Hs. intros H Hc. unfold jge_true. cbv zeta. two H. Qed.
Lemma jge_false_in rs : both_in rs -> x < y -> both_in (jge_false rs d s).
Proof using Hd Hs.
  intros H Hc. unfold jge_false. cbv zeta. two H.
  - apply u64_pred_ge; auto. lia.
  - apply u64_succ_le; auto. lia.
Qed.
Lemma jsgt_true_in rs : both_in rs -> s64 y < s64 x -> both_in (jsgt_true rs d s).
Proof using Hd Hs.
  intros H Hc. unfold jsgt_true. cbv zeta. two H.
  - apply s64_succ_lt; auto. lia.
  - apply s64_pred_lt; auto. lia.
Qed.
Lemma jsgt_false_in rs : both_in rs -> s64 x <= s64 y -> both_in (jsgt_false rs d s).
Proof using Hd Hs. intros H Hc. unfold jsgt_false. cbv zeta. two H. Qed.
Lemma jsge_true_in rs : both_in rs -> s64 y <= s64 x -> both_in (jsge_true rs d s).
Proof using Hd Hs. intros H Hc. unfold jsge_true. cbv zeta. two H. Qed.
Lemma jsge_false_in rs : both_in rs -> s64 x < s64 y -> both_in (jsge_false rs d s).
Proof using Hd Hs.
  intros H Hc. unfold jsge_false. cbv zeta. two H.
  - apply s64_pred_lt; auto. lia.
  - apply s64_succ_lt; auto. lia.
Qed.

Lemma equal_regs_in rs rs' : equal_regs rs d s = Some rs' -> both_in rs -> x = y -> both_in rs'.
Proof using Hd Hs.
  unfold equal_regs. cbv zeta. destruct (_ || _); [done|]. intros [= <-] H Hc.
  rewrite cmax_spec, cmin_spec. facts H.
  assert (forall r v, reg_in r v -> v = x ->
    reg_in (set_s (smin (regs_get rs d) `max` smin (regs_get rs s))
              (smax (regs_get rs d) `min` smax (regs_get rs s)) r) v) as Hset.
  { intros r v Hr ->. apply in_set_s; [done|by apply Z.max_case|by apply Z.min_case|].
    assert (s64 x = s64 y) by (f_equal; exact Hc). lia. }
  apply both_two; [done|done|done|by apply Hset, eq_refl; apply both_d|].
  intros Hb. apply Hset; [by apply both_s|done].
Qed.

Lemma jump_reg_sound tr tp fr fp op tr' tp' fr' fp' :
  update_min_max_jump_reg tr tp fr fp d s op = (tr', tp', fr', fp') ->
  (jump_cond op x y = true -> both_in tr -> both_in tr') /\
  (jump_cond op x y = false -> both_in fr -> both_in fr').
Proof using Hd Hs.
  unfold update_min_max_jump_reg, jump_cond.
  op_cases; repeat case_match; intros [= <- _ <- _]; split; intros Hc Hb; bool_hyps;
    eauto using jgt_true_in, jgt_false_in, jge_true_in, jge_false_in, jsgt_true_in,
      jsgt_false_in, jsge_true_in, jsge_false_in, equal_regs_in.
Qed.
End TwoRegs.

(** ** The whole jump *)

(** Registers of type IMM hold one value. *)
Definition imm_exact (rs : list bpf_reg_state) : Prop :=
  forall i, 0 <= i < NB_REGS -> rtype (regs_get rs i) = IMM ->
            umin (regs_get rs i) = umax (regs_get rs i).

(** The right operand of the comparison. *)
Definition jump_operand (inst : ebpf_inst) (rv : list Z) : Z :=
  if EBPF_SRC (opcode inst) =? EBPF_SRC_REG then rget rv (src inst) else u64 (imm inst).

Lemma jump_taken_cond inst o rv b :
  op_of_opcode (opcode inst) = Some o -> o <> EBPF_OP_JA -> in_s 32 (imm inst) ->
  (o = EBPF_OP_JGT_IMM \/ o = EBPF_OP_JGE_IMM -> 0 <= imm inst) ->
  jump_taken o (rget rv (dst inst)) (rget rv (src inst)) (imm inst) = Some b ->
  b = jump_cond (EBPF_OP (opcode inst)) (rget rv (dst inst)) (jump_operand inst rv).
Proof.
  intros Ho Hja Hi Hnn Hb. apply op_of_opcode_Some in Ho. unfold jump_operand. rewrite <- Ho.
  assert (s64 (u64 (imm inst)) = imm inst) as Es.
  { rewrite sext_wrap, sext_small; [done|lia|]. unfold in_s in *. lia. }
  assert (0 <= imm inst -> u32 (imm inst) = u64 (imm inst)) as Eu.
  { intros. rewrite !wrap_small by (unfold in_u, in_s in *; lia). done. }
  destruct o; try discriminate; try done; simpl in Hb; injection Hb as <-;
    try rewrite Eu by auto; unfold jump_cond; cbn [EBPF_OP]; simpl; rewrite ?Es; reflexivity.
Qed.

Lemma put_reg_in rs rv i r :
  regs_in rs rv -> 0 <= i < NB_REGS ->
  (scalar r = true -> reg_in r (rget rv i)) -> regs_in (regs_upd i (fun _ => r) rs) rv.
Proof. intros H Hi Hr. apply regs_in_upd; auto. Qed.

Lemma branch_in rs rv i t f (b : bool) :
  regs_in rs rv -> 0 <= i < NB_REGS ->
  (b = true -> reg_in (regs_get rs i) (rget rv i) -> reg_in t (rget rv i)) ->
  (b = false -> reg_in (regs_get rs i) (rget rv i) -> reg_in f (rget rv i)) ->
  rtype t = rtype (regs_get rs i) -> rtype f = rtype (regs_get rs i) ->
  regs_in (if b then regs_upd i (fun _ => t) rs else regs_upd i (fun _ => f) rs) rv.
Proof.
  intros Hin Hi Ht Hf T1 T2. destruct b; apply put_reg_in; auto; intros Hs;
    [apply Ht|apply Hf]; try done; apply Hin; try done.
  - by rewrite <- (scalar_type _ _ T1).
  - by rewrite <- (scalar_type _ _ T2).
Qed.

Lemma jump_ranges_sound st other inst rv c' o' :
  regs_in (regs st) rv -> imm_exact (regs st) -> regs other = regs st ->
  0 <= dst inst < NB_REGS -> 0 <= src inst < NB_REGS ->
  jump_ranges st other inst = (c', o') ->
  let b := jump_cond (EBPF_OP (opcode inst)) (rget rv (dst inst)) (jump_operand inst rv) in
  regs_in (if b then regs o' else regs c') rv.
Proof.
  intros Hin Hex Ho Hd Hs H b. unfold jump_ranges, get_reg, jump_operand in *.
  rewrite Ho in H. pose proof Hin as [_ Hin'].
  assert (forall i, 0 <= i < NB_REGS -> rtype (regs_get (regs st) i) = IMM ->
            in_u 64 (umin (regs_get (regs st) i)) /\ umin (regs_get (regs st) i) = rget rv i) as Himm.
  { intros i Hi Ht. assert (scalar (regs_get (regs st) i) = true) as Hsc
      by (unfold scalar; rewrite Ht; reflexivity).
    destruct (Hin' i Hi Hsc) as [[] ? ? ?]. pose proof (Hex i Hi Ht). split; [done|lia]. }
  destruct (EBPF_SRC (opcode inst) =? EBPF_SRC_REG).
  - destruct (Z.eqb_spec (rtype (regs_get (regs st) (dst inst))) IMM) as [Ei|_].
    { destruct (update_min_max_jump_imm_inv _ _ _ _ _ _) as [[[t tp] f] fp] eqn:E.
      destruct (Himm _ Hd Ei) as [Hu Ev].
      destruct (jump_imm_inv_sound _ _ _ _ _ _ (rget rv (src inst)) Hu _ _ _ _ E) as (H1 & H2 & T1 & T2).
      rewrite Ev in H1, H2. injection H as <- <-.
      subst b. simpl. rewrite Ho. by apply branch_in. }
    destruct (Z.eqb_spec (rtype (regs_get (regs st) (src inst))) IMM) as [Ei|_].
    { destruct (update_min_max_jump_imm _ _ _ _ _ _) as [[[t tp] f] fp] eqn:E.
      destruct (Himm _ Hs Ei) as [Hu Ev].
      destruct (jump_imm_sound _ _ _ _ _ _ (rget rv (dst inst)) Hu _ _ _ _ E) as (H1 & H2 & T1 & T2).
      rewrite Ev in H1, H2. injection H as <- <-.
      subst b. simpl. rewrite Ho. by apply branch_in. }
    destruct (_ && _) eqn:Esc; [|injection H as <- <-; rewrite Ho; by destruct b].
    destruct (update_min_max_jump_reg _ _ _ _ _ _ _) as [[[t tp] f] fp] eqn:E.
    injection H as <- <-.
    assert (both_in rv (dst inst) (src inst) (regs st)) as Hb.
    { apply andb_true_iff in Esc as [E1 E2]. split; [done|]. unfold scalar.
      apply orb_true_iff in E1, E2.
      destruct E1 as [-> | ->], E2 as [-> | ->]; rewrite ?orb_true_r; done. }
    destruct (jump_reg_sound rv _ _ Hd Hs _ _ _ _ _ _ _ _ _ E) as [H1 H2].
    subst b. destruct (jump_cond _ _ _); simpl; [by apply H1|by apply H2].
  - destruct (update_min_max_jump_imm _ _ _ _ _ _) as [[[t tp] f] fp] eqn:E.
    destruct (jump_imm_sound _ _ _ _ _ _ (rget rv (dst inst)) (u64_in _) _ _ _ _ E) as (H1 & H2 & T1 & T2).
    injection H as <- <-.
    subst b. simpl. rewrite Ho. by apply branch_in.
Qed.

Lemma null_check_in inst c o c' o' rv :
  0 <= dst inst < NB_REGS -> jump_null_check inst (c, o) = (c', o') ->
  (regs_in (regs c) rv -> regs_in (regs c') rv) /\ (regs_in (regs o) rv -> regs_in (regs o') rv).
Proof.
  intros Hd H. unfold jump_null_check in H. case_match; [|by simplify_eq].
  assert (forall rs t, t = MAP_VALUE_PTR \/ t = NULL_VALUE ->
            regs_in rs rv -> regs_in (regs_upd (dst inst) (set_type t) rs) rv) as Hset.
  { intros rs t Ht Hin. apply regs_in_upd; [done..|]. unfold scalar. simpl.
    by destruct Ht as [-> | ->]. }
  simplify_eq. split; simpl; intros Hin; apply Hset; auto; case_match; auto.
Qed.



(** with a negative immediate the two readings differ: the interpreter takes
    [if r > -2] for r = 2^32, while the verifier then assumes r = 2^64 - 1. *)
Theorem jgt_negative_imm_unsound :
  let inst := mk_op EBPF_OP_JGT_IMM 3 0 1 (-2) in
  let st := put_reg 3 mark_bpf_reg_as_unknown (curr walk_init) in
  jump_taken EBPF_OP_JGT_IMM (2 ^ 32) 0 (imm inst) = Some true /\
  reg_in (get_reg st 3) (2 ^ 32) /\
  exists st' other, validate_jump st inst = Ok (st', other) /\
    umin (get_reg other 3) = UINT64_MAX /\ ~ reg_in (get_reg other 3) (2 ^ 32).
Proof.
  cbv zeta. split; [reflexivity|].
  split; [split; [split|..]; vm_compute; split; congruence|].
  eexists _, _. split; [vm_compute; reflexivity|]. split; [vm_compute; reflexivity|].
  intros [_ _ [H _] _]. vm_compute in H. by apply H.
Qed.
