(* ===== verification/AluSound.v ===== *)
(** * Third pass of the verifier: which arithmetic ranges can be trusted

    [alu64_range_sound] lists the 64-bit operations whose new range contains
    every value the interpreter can compute from operands in range;
    [alu64_constants_exact] says that non-negative constants are folded
    exactly; [alu_ranges_unsound] shows, operation by operation, that the
    others can exclude the value computed. *)

From S2P Require Import Prelude Ebpf Memory Vm Interp InterpProps ValidateInsts ValidateCfg.
From S2P Require Import ExecSafety RegState AluRange ValidateAccesses JumpSound.

Abbreviation mask64 := (0xffffffffffffffff) (only parsing).

Lemma land_mask64 x : in_u 64 x -> Z.land x mask64 = x.
Proof.
  intros H. change mask64 with (Z.ones 64). rewrite Z.land_ones by lia. by apply wrap_small.
Qed.

Lemma umask64 x : umask mask64 x = u64 x.
Proof. apply land_mask64, u64_in. Qed.
Lemma smask64 x : smask mask64 x = s64 x.
Proof. unfold smask. rewrite land_mask64 by apply u64_in. apply sext_wrap. Qed.

Lemma s64_nonneg x : in_u 64 x -> x < 2 ^ 63 -> s64 x = x.
Proof. intros. apply sext_small; [lia|]. unfold in_s, in_u in *. lia. Qed.

(** ** The 64-bit top ranges and [handle_min_max_overflows] *)

Lemma top64 indet : in_u 64 indet ->
  (forall d, alu_top mask64 indet d = mk_reg (rtype d) (rmap d) INT64_MIN INT64_MAX 0 UINT64_MAX) /\
  (forall d, top_s mask64 d = set_s INT64_MIN INT64_MAX d) /\
  (forall x d, in_u 64 x -> top_u mask64 x d = set_u 0 UINT64_MAX d).
Proof.
  assert (forall x d, in_u 64 x -> top_u mask64 x d = set_u 0 UINT64_MAX d) as Hu.
  { intros x d Hx. unfold top_u. rewrite cmax_spec. f_equal.
    unfold UINT64_MAX, in_u in *. lia. }
  intros Hi. split_and!; [|reflexivity|exact Hu].
  intros d. unfold alu_top. by rewrite Hu.
Qed.

Lemma set_top_in r v : in_u 64 v -> rtype r = rtype r ->
  reg_in (mk_reg (rtype r) (rmap r) INT64_MIN INT64_MAX 0 UINT64_MAX) v.
Proof.
  intros H _. pose proof (s64_in v) as Hs.
  split; [split|..]; simpl; unfold in_u, in_s, INT64_MIN, INT64_MAX, UINT64_MAX in *; lia.
Qed.

Lemma handle64 r :
  wf_reg r ->
  handle_min_max_overflows r mask64 = set_smax (if smax r <? 0 then INT64_MAX else smax r) r.
Proof.
  intros [H1 H2 H3 H4]. unfold handle_min_max_overflows.
  rewrite !land_mask64, !Z.eqb_refl by done. simpl negb. cbn [orb].
  change (Z.shiftr mask64 1) with INT64_MAX.
  change (s64 (Z.lxor INT64_MAX UINT64_MAX)) with INT64_MIN.
  rewrite cmin_spec, cmax_spec.
  replace (Z.max INT64_MIN (smin r)) with (smin r) by (unfold INT64_MIN, in_s in *; lia).
  unfold set_s. destruct r; cbn in *. unfold set_smin, set_smax; cbn. f_equal.
  destruct (Z.ltb_spec smax 0).
  - rewrite Z.min_l; [reflexivity|]. unfold wrap, INT64_MAX, in_s in *.
    rewrite <- (Z_mod_plus_full _ 1), Z.mod_small; lia.
  - rewrite wrap_small by (unfold in_u, in_s in *; lia).
    rewrite Z.min_r by (unfold INT64_MAX, in_s in *; lia). by apply s64_id.
Qed.

Lemma handle64_in r v : reg_in r v -> reg_in (handle_min_max_overflows r mask64) v.
Proof.
  intros Hr. rewrite handle64 by apply Hr. pose proof (s64_in v). pose proof (wf_smax _ (in_wf _ _ Hr)).
  apply in_set_smax; [done|..]; destruct (Z.ltb_spec (smax r) 0);
    destruct Hr; unfold INT64_MAX, in_s in *; lia.
Qed.

Lemma imm_reg_in i : in_s 32 i -> reg_in (mark_bpf_reg_as_imm i) (u64 i).
Proof.
  intros Hi. assert (s64 (u64 i) = i) as E.
  { rewrite sext_wrap, sext_small; [done|lia|]. unfold in_s in *. lia. }
  split; [split|..]; simpl; auto with word; try lia; unfold in_s in *; lia.
Qed.

(** ** Addition *)

Lemma add_u_sound a b x ua ub va vb numin numax :
  in_u 64 a -> in_u 64 b -> in_u 64 ua -> in_u 64 ub -> in_u 64 va -> in_u 64 vb ->
  ua <= a <= ub -> va <= b <= vb -> x = u64 (a + b) ->
  numin = u64 (ua + va) -> numax = u64 (ub + vb) ->
  ((numin <? ua) || (numax <? ub)) && negb ((ua =? ub) && (va =? vb)) = false ->
  numin <= x <= numax.
Proof.
  intros Ha Hb Hua Hub Hva Hvb H1 H2 -> -> -> Hc.
  destruct (Z.eqb_spec ua ub), (Z.eqb_spec va vb); simpl in Hc.
  { by replace a with ua by lia; replace b with va by lia; subst. }
  all: rewrite andb_true_r in Hc; apply orb_false_iff in Hc as [Hc1 Hc2]; bool_hyps; word_lia.
Qed.

Lemma add_s_sound a b sa sb ta tb nsmin nsmax :
  in_s 64 sa -> in_s 64 sb -> in_s 64 ta -> in_s 64 tb ->
  sa <= s64 a <= sb -> ta <= s64 b <= tb ->
  nsmin = s64 (sa + ta) -> nsmax = s64 (sb + tb) ->
  (((ta <? 0) && (sa <? nsmin)) || (nsmin <? sa) ||
   (((tb <? 0) && (sb <? nsmax)) || (nsmax <? sb))) && negb ((sa =? sb) && (ta =? tb)) = false ->
  nsmin <= s64 (a + b) <= nsmax.
Proof.
  intros Hsa Hsb Hta Htb H1 H2 E1 E2 Hc.
  assert (s64 (a + b) = s64 (s64 a + s64 b)) as ->.
  { rewrite <- (sext_wrap 64 (a + b)), <- (sext_wrap 64 (s64 a + s64 b)). f_equal.
    rewrite <- (wrap_add_l 64 (s64 a)), wrap_sext, wrap_add_l by lia.
    rewrite <- (wrap_add_r 64 a (s64 b)), wrap_sext, wrap_add_r by lia. done. }
  generalize dependent (s64 a). generalize dependent (s64 b). intros y Hy x Hx.
  destruct (Z.eqb_spec sa sb), (Z.eqb_spec ta tb); simpl in Hc.
  { replace x with sa by lia. replace y with ta by lia. subst. lia. }
  all: rewrite andb_true_r in Hc; apply orb_false_iff in Hc as [Hc1 Hc2];
    apply orb_false_iff in Hc1 as [Hc1a Hc1b]; apply orb_false_iff in Hc2 as [Hc2a Hc2b];
    apply andb_false_iff in Hc1a, Hc2a; destruct Hc1a, Hc2a; bool_hyps; word_lia.
Qed.

Lemma alu_add_in d s a b :
  reg_in d a -> reg_in s b -> reg_in (alu_add mask64 d s) (u64 (a + b)).
Proof.
  intros [[] Ha Hd1 Hd2] [[] Hb Hs1 Hs2].
  destruct (top64 0 ltac:(unfold in_u; lia)) as (_ & Hts & Htu).
  unfold alu_add. rewrite !umask64, !smask64. cbv zeta.
  assert (in_u 64 (u64 (a + b))) by apply u64_in. pose proof (s64_in (u64 (a + b))).
  set (cu := ((u64 (umin d + umin s) <? umin d) || _) && _).
  set (cs := (_ || _) && negb (const_s d s)).
  assert (cu = false -> u64 (umin d + umin s) <= u64 (a + b) <= u64 (umax d + umax s)) as HU
    by (intros Hc; by apply (add_u_sound a b _ (umin d) (umax d) (umin s) (umax s))).
  assert (cs = false -> s64 (smin d + smin s) <= s64 (u64 (a + b)) <= s64 (smax d + smax s)) as HS
    by (intros Hc; rewrite sext_wrap; by apply (add_s_sound a b (smin d) (smax d) (smin s) (smax s))).
  destruct cu, cs; rewrite ?Hts, ?Htu by apply u64_in;
    try specialize (HU eq_refl); try specialize (HS eq_refl);
    (split; [split|..]; simpl; auto with word; unfold in_u, in_s, INT64_MIN, INT64_MAX, UINT64_MAX in *; lia).
Qed.

(** ** Left shift *)

Lemma shr64_max n : 0 <= n < 64 -> shr 64 UINT64_MAX n = Some (2 ^ (64 - n) - 1).
Proof.
  intros Hn. unfold shr. destruct (Z.leb_spec 0 n), (Z.ltb_spec n 64); try lia. simpl. f_equal.
  change UINT64_MAX with (Z.ones 64). rewrite Z.shiftr_div_pow2, Z.ones_equiv by lia.
  replace 64 with ((64 - n) + n) at 1 by lia. rewrite Z.pow_add_r by lia.
  pose proof (Z.pow_pos_nonneg 2 n ltac:(lia) ltac:(lia)).
  pose proof (Z.pow_pos_nonneg 2 (64 - n) ltac:(lia) ltac:(lia)).
  symmetry. apply (Z.div_unique_pos _ _ _ (2 ^ n - 1)); nia.
Qed.

Lemma shl64_exact x n m :
  shl 64 x n = Some m -> 0 <= x -> x * 2 ^ n < 2 ^ 64 -> m = x * 2 ^ n.
Proof.
  unfold shl. case_match eqn:E; [|done]. intros [= <-] Hx Hlt.
  apply andb_true_iff in E as [E _]. apply Z.leb_le in E.
  rewrite Z.shiftl_mul_pow2 by lia. apply wrap_small. unfold in_u.
  pose proof (Z.pow_pos_nonneg 2 n ltac:(lia) ltac:(lia)). nia.
Qed.

(** The largest value times the largest shift bounds every other. *)
Lemma mul_pow_mono x n hi k : 0 <= x <= hi -> 0 <= n <= k -> x * 2 ^ n <= hi * 2 ^ k.
Proof.
  intros. pose proof (Z.pow_le_mono_r 2 n k). pose proof (Z.pow_pos_nonneg 2 n ltac:(lia) ltac:(lia)). nia.
Qed.

Lemma below_pow hi k w : 0 <= k <= w -> hi <= 2 ^ (w - k) - 1 -> hi * 2 ^ k < 2 ^ w.
Proof.
  intros Hk Hhi. assert (2 ^ w = 2 ^ (w - k) * 2 ^ k) as ->
    by (rewrite <- Z.pow_add_r by lia; f_equal; lia).
  pose proof (Z.pow_pos_nonneg 2 k ltac:(lia) ltac:(lia)). nia.
Qed.

Lemma lsh_signed a b lo0 hi0 n k slim lo hi v :
  in_u 64 a -> 0 <= lo0 -> lo0 <= s64 a <= hi0 -> in_s 64 hi0 -> 0 <= n -> n <= b <= k -> k < 64 ->
  shr 64 UINT64_MAX (u64 (64 - u64 (64 - k - 1))) = Some slim -> hi0 < s64 slim ->
  shl 64 lo0 n = Some lo -> shl 64 hi0 k = Some hi -> shl 64 a b = Some v ->
  s64 lo <= s64 v <= s64 hi.
Proof.
  intros Ha Hlo0 Hsa Hhi0 Hn Hb Hk Hsl Hlt Hlo Hhi Hv.
  destruct (Z.eq_dec k 63) as [->|Hn63]; [done|].
  rewrite (wrap_small 64 (64 - k - 1)) in Hsl by (unfold in_u; lia).
  rewrite wrap_small in Hsl by (unfold in_u; lia).
  replace (64 - (64 - k - 1)) with (k + 1) in Hsl by lia.
  rewrite shr64_max in Hsl by lia. injection Hsl as <-.
  replace (64 - (k + 1)) with (63 - k) in Hlt by lia.
  assert (2 ^ (63 - k) <= 2 ^ 63) by (apply Z.pow_le_mono_r; lia).
  rewrite s64_id in Hlt by (pose proof (Z.pow_pos_nonneg 2 (63 - k)); unfold in_s; lia).
  assert (s64 a = a) as Ea.
  { destruct (Z.ltb_spec a (2 ^ 63)); [by apply s64_nonneg|]. exfalso.
    unfold sext in Hsa. rewrite wrap_small in Hsa by done.
    destruct (Z.ltb_spec a (2 ^ (64 - 1))); unfold in_u in *; lia. }
  pose proof (below_pow hi0 k 63 ltac:(lia) ltac:(lia)) as Hmax.
  pose proof (mul_pow_mono a b hi0 k ltac:(lia) ltac:(lia)).
  pose proof (mul_pow_mono lo0 n a b ltac:(lia) ltac:(lia)).
  apply shl64_exact in Hlo, Hhi, Hv; try lia. subst.
  rewrite !s64_nonneg by (unfold in_u; nia). lia.
Qed.

Lemma alu_lsh_in indet d s a b d' v :
  in_u 64 indet -> reg_in d a -> reg_in s b -> alu_lsh mask64 64 indet d s = Some d' ->
  shl 64 a b = Some v -> reg_in d' v.
Proof.
  intros Hi [[Hd3 Hd4 Hd5 Hd6] Ha Hd1 Hd2] [[Hs3 Hs4 Hs5 Hs6] Hb Hs1 Hs2] H Hv.
  destruct (top64 indet Hi) as (Hta & Hts & Htu).
  pose proof (shl_range _ _ _ _ Hv ltac:(lia)) as Hvr. pose proof (s64_in v) as Hsv.
  unfold alu_lsh in H. destruct (Z.leb_spec 64 (umax s)) as [Hge|Hlt].
  { injection H as <-. rewrite Hta. by apply set_top_in. }
  assert (0 <= umin s) by apply Hs3. assert (0 <= umax s) by apply Hs4. assert (0 <= umin d) by apply Hd3.
  rewrite (wrap_small 64 (64 - umax s)) in H by (unfold in_u; lia).
  rewrite (wrap_small 64 (64 - (64 - umax s))) in H by (unfold in_u; lia).
  replace (64 - (64 - umax s)) with (umax s) in H by lia.
  rewrite (shr64_max (umax s)) in H by lia. cbn [mbind option_bind] in H.
  apply bind_Some in H as (d1 & Hd1b & H).
  assert (umin d1 <= v <= umax d1 /\ in_u 64 (umin d1) /\ in_u 64 (umax d1)) as HU.
  { destruct (Z.leb_spec (umax d) (2 ^ (64 - umax s) - 1)) as [Hle|Hgt].
    - apply bind_Some in Hd1b as (lo & Hlo & Hd1b). apply bind_Some in Hd1b as (hi & Hhi & [= <-]). simpl.
      pose proof (below_pow (umax d) (umax s) 64 ltac:(lia) Hle) as Hmax.
      pose proof (mul_pow_mono a b (umax d) (umax s) ltac:(lia) ltac:(lia)).
      pose proof (mul_pow_mono (umin d) (umin s) a b ltac:(lia) ltac:(lia)).
      pose proof (shl_range _ _ _ _ Hlo ltac:(lia)). pose proof (shl_range _ _ _ _ Hhi ltac:(lia)).
      apply shl64_exact in Hlo, Hhi, Hv; try lia. subst. split; [lia|done].
    - injection Hd1b as <-. rewrite Htu by done. simpl. unfold in_u, UINT64_MAX in *. lia. }
  assert (forall lo hi, in_s 64 lo -> in_s 64 hi -> lo <= s64 v <= hi -> reg_in (set_s lo hi d1) v) as Hset.
  { intros lo hi Hl Hh Hlh. destruct HU as (? & ? & ?). split; [split|..]; simpl; auto. }
  assert (reg_in (top_s mask64 d1) v) as Htop.
  { rewrite Hts. apply Hset; unfold in_s, INT64_MIN, INT64_MAX in *; lia. }
  destruct (Z.eqb_spec (Z.shiftr (smin d) (64 - 1)) 0) as [Hz|_]; [|by injection H as <-].
  rewrite Z.shiftr_div_pow2 in Hz by lia. change (64 - 1) with 63 in Hz.
  assert (0 <= smin d) as Hnn by (unfold in_s in *; Z.div_mod_to_equations; lia).
  apply bind_Some in H as (slim & Hsl & H).
  destruct (Z.ltb_spec (smax d) (s64 slim)) as [Hlt2|_]; [|by injection H as <-].
  apply bind_Some in H as (lo & Hlo & H). apply bind_Some in H as (hi & Hhi & [= <-]).
  apply Hset; auto with word.
  by apply (lsh_signed a b (smin d) (smax d) (umin s) (umax s) slim lo hi v).
Qed.

(** ** The operations *)

(** Operations whose range the verifier computes soundly, or gives up on. *)
Definition sound_op (o : ebpf_op) : bool :=
  match o with
  | EBPF_OP_ADD64_IMM | EBPF_OP_ADD64_REG | EBPF_OP_LSH64_IMM | EBPF_OP_LSH64_REG
  | EBPF_OP_DIV64_IMM | EBPF_OP_DIV64_REG | EBPF_OP_MOD64_IMM | EBPF_OP_MOD64_REG
  | EBPF_OP_XOR64_IMM | EBPF_OP_XOR64_REG | EBPF_OP_ARSH64_IMM | EBPF_OP_ARSH64_REG => true
  | _ => false
  end.

Definition from_reg (inst : ebpf_inst) : bool := EBPF_SRC (opcode inst) =? EBPF_SRC_REG.

(** The second operand: its value and what the verifier knows of it. *)
Definition operand (inst : ebpf_inst) (rv : list Z) : Z :=
  if from_reg inst then rget rv (src inst) else u64 (imm inst).
Definition operand_reg (inst : ebpf_inst) (rs : list bpf_reg_state) (mask : Z) : bpf_reg_state :=
  if from_reg inst then handle_min_max_overflows (regs_get rs (src inst)) mask
  else mark_bpf_reg_as_imm (imm inst).

Lemma operand_in inst rs rv :
  wf_inst inst -> regs_in rs rv -> 0 <= src inst < NB_REGS ->
  (from_reg inst = true -> scalar (regs_get rs (src inst)) = true) ->
  reg_in (operand_reg inst rs mask64) (operand inst rv).
Proof.
  intros (_ & _ & _ & _ & Hi) [_ Hin] Hs Hsc. unfold operand_reg, operand.
  destruct (from_reg inst); [|by apply imm_reg_in]. apply handle64_in. auto.
Qed.

(** The value of the sound operations in terms of the two operands. *)
Lemma exec_alu64_operand o inst rv d v :
  op_of_opcode (opcode inst) = Some o -> sound_op o = true ->
  exec_alu64 o d (rget rv (src inst)) (imm inst) = Some (AVal v) ->
  match EBPF_OP (opcode inst) with
  | 0x00 => v = u64 (d + operand inst rv)
  | 0x60 => shl 64 d (operand inst rv) = Some v
  | _ => True
  end.
Proof.
  intros Ho Hs Hv. apply op_of_opcode_Some in Ho. unfold operand, from_reg. rewrite <- Ho.
  destruct o; try discriminate; cbn [exec_alu64] in Hv; injection Hv as Hv; try exact I.
  1-2: change (v = u64 (d + u64 (imm inst))) || change (v = u64 (d + rget rv (src inst))); subst;
    rewrite ?wrap_add_r; reflexivity.
  - change (shl 64 d (u64 (imm inst)) = Some v). unfold alu_opt, shl in *.
    destruct (Z.leb_spec 0 (imm inst)), (Z.ltb_spec (imm inst) 64); simpl in Hv; try done.
    rewrite wrap_small by (unfold in_u; lia).
    destruct (Z.leb_spec 0 (imm inst)), (Z.ltb_spec (imm inst) 64); try lia. simpl. by injection Hv as ->.
  - change (shl 64 d (rget rv (src inst)) = Some v). unfold alu_opt in Hv.
    destruct (shl 64 d _); [|done]. by injection Hv as ->.
Qed.

Lemma alu_value_64 o d s i : sound_op o = true -> alu_value o d s i = exec_alu64 o d s i.
Proof. by destruct o. Qed.

(** The range computed for a sound operation. *)
Lemma alu_range_in indet o inst rs rv d' v :
  in_u 64 indet -> op_of_opcode (opcode inst) = Some o -> sound_op o = true ->
  wf_inst inst -> regs_in rs rv -> 0 <= src inst < NB_REGS -> 0 <= dst inst < NB_REGS ->
  scalar (regs_get rs (dst inst)) = true ->
  (from_reg inst = true -> scalar (regs_get rs (src inst)) = true) ->
  Forall (in_u 64) rv ->
  exec_alu64 o (rget rv (dst inst)) (rget rv (src inst)) (imm inst) = Some (AVal v) ->
  alu_range mask64 64 indet (EBPF_OP (opcode inst))
    (handle_min_max_overflows (regs_get rs (dst inst)) mask64) (operand_reg inst rs mask64) = Some d' ->
  reg_in d' v.
Proof.
  intros Hi Ho Hso Hwf Hin Hs Hd Hsc1 Hsc2 Hrv Hv Hr.
  pose proof (operand_in inst rs rv Hwf Hin Hs Hsc2) as Hop.
  pose proof (handle64_in _ _ (proj2 Hin _ Hd Hsc1)) as Hdst.
  pose proof (exec_alu64_operand o inst rv _ v Ho Hso Hv) as Hval.
  assert (in_u 64 v) as Hvr.
  { rewrite <- alu_value_64 in Hv by done. by eapply alu_value_range; [| |exact Hv]; apply rget_range. }
  apply op_of_opcode_Some in Ho.
  assert (EBPF_OP (opcode inst) = EBPF_ALU_ADD \/ EBPF_OP (opcode inst) = EBPF_ALU_LSH \/
    EBPF_OP (opcode inst) ∈ [EBPF_ALU_DIV; EBPF_ALU_MOD; EBPF_ALU_XOR; EBPF_ALU_ARSH]) as [E|[E|E]].
  { rewrite <- Ho. destruct o; try discriminate; vm_compute; auto; right; right;
      repeat first [apply list_elem_of_here | apply list_elem_of_further]. }
  - rewrite E in *. injection Hr as <-. simpl in Hval. subst v. by apply alu_add_in.
  - rewrite E in *. exact (alu_lsh_in indet _ _ _ _ d' v Hi Hdst Hop Hr Hval).
  - destruct (top64 indet Hi) as (Hta & _).
    repeat (apply elem_of_cons in E as [E|E]; [rewrite E in Hr; injection Hr as <-; rewrite Hta; by apply set_top_in|]).
    by apply not_elem_of_nil in E.
Qed.

Lemma rget_rset_eq rv i v : 0 <= i -> (Z.to_nat i < length rv)%nat -> rget (rset rv i v) i = v.
Proof. intros. unfold rget, rset. by rewrite list_lookup_insert_eq. Qed.
Lemma rget_rset_ne rv i j v : 0 <= i -> 0 <= j -> i <> j -> rget (rset rv i v) j = rget rv j.
Proof. intros. unfold rget, rset. by rewrite list_lookup_insert_ne by lia. Qed.

(** Assigning a register on both sides. *)
Lemma regs_in_assign rs rv i r v :
  regs_in rs rv -> 0 <= i < NB_REGS -> length rv = 16%nat -> reg_in r v ->
  regs_in (regs_upd i (fun _ => r) rs) (rset rv i v).
Proof.
  intros [Hl Hin] Hi Hlen Hr. split; [by rewrite length_regs_upd|]. intros j Hj.
  destruct (decide (i = j)) as [<-|Hne].
  - rewrite regs_get_upd_eq, rget_rset_eq by clia. done.
  - rewrite regs_get_upd_ne, rget_rset_ne by lia. by apply Hin.
Qed.

Lemma sound_op_alu64 inst o :
  op_of_opcode (opcode inst) = Some o -> sound_op o = true ->
  alu_mask inst = mask64 /\ alu_opsize inst = 64.
Proof.
  intros Ho Hs. apply op_of_opcode_Some in Ho. unfold alu_mask, alu_opsize. rewrite <- Ho.
  by destruct o.
Qed.

(** C19: for 64-bit ADD, LSH, DIV, MOD, XOR and ARSH, if the registers lie in their
    ranges before the instruction, they lie in the ranges [update_min_max_alu_op]
    computes after it, with the value the interpreter assigns. *)
Theorem alu64_range_sound indet rs inst o rv rs' v :
  update_min_max_alu_op indet rs inst = Some rs' ->
  op_of_opcode (opcode inst) = Some o -> sound_op o = true ->
  exec_alu64 o (rget rv (dst inst)) (rget rv (src inst)) (imm inst) = Some (AVal v) ->
  in_u 64 indet -> wf_inst inst -> 0 <= src inst < NB_REGS -> 0 <= dst inst < NB_REGS ->
  scalar (regs_get rs (dst inst)) = true ->
  (from_reg inst = true -> scalar (regs_get rs (src inst)) = true) ->
  length rv = 16%nat -> Forall (in_u 64) rv -> regs_in rs rv ->
  regs_in rs' (rset rv (dst inst) v).
Proof.
  intros Hu Ho Hso Hv Hi Hwf Hs Hd Hsc1 Hsc2 Hl Hrv Hin.
  destruct (sound_op_alu64 inst o Ho Hso) as [Em Es].
  unfold update_min_max_alu_op in Hu. cbv zeta in Hu. rewrite Em, Es in Hu.
  apply bind_Some in Hu as (d' & Hr & [= <-]).
  apply regs_in_assign; try done. by eapply alu_range_in.
Qed.

(** R3 known to lie in [0; 10], shifted left by 4. *)
Lemma alu64_range_sound_witness :
  let rs := regs_upd 3 (fun _ => mk_reg UNKNOWN 0 0 10 0 10) (replicate 11 zero_reg) in
  let rv := <[3%nat := 7]> (replicate 16 0) in
  exists rs', update_min_max_alu_op 5 rs (mk_op EBPF_OP_LSH64_IMM 3 0 0 4) = Some rs' /\
              regs_in rs' (rset rv 3 112) /\ umax (regs_get rs' 3) = 160.
Proof.
  cbv zeta. eexists. split; [vm_compute; reflexivity|]. split; [|vm_compute; reflexivity].
  refine (alu64_range_sound 5
            (regs_upd 3 (fun _ => mk_reg UNKNOWN 0 0 10 0 10) (replicate 11 zero_reg)) (mk_op EBPF_OP_LSH64_IMM 3 0 0 4) EBPF_OP_LSH64_IMM
            (<[3%nat := 7]> (replicate 16 0)) _ 112 _ _ _ _ _ _ _ _ _ _ _ _ _).
  - vm_compute. reflexivity.
  - vm_compute. reflexivity.
  - reflexivity.
  - vm_compute. reflexivity.
  - vm_compute. split; congruence.
  - repeat split; vm_compute; done.
  - vm_compute. split; congruence.
  - vm_compute. split; congruence.
  - vm_compute. reflexivity.
  - intros Hf. vm_compute in Hf. discriminate.
  - reflexivity.
  - repeat constructor; vm_compute; congruence.
  - split; [reflexivity|]. intros i Hi. assert (i ∈ [0;1;2;3;4;5;6;7;8;9;10]) as Hl.
    { rewrite !elem_of_cons. clia. }
    clear Hi. repeat (apply elem_of_cons in Hl as [->|Hl]; [try (vm_compute; discriminate)|]).
    + intros _. split; [split|..]; vm_compute; split; congruence.
    + by apply not_elem_of_nil in Hl.
Defined.

(** ** Constants *)

Record is_const (r : bpf_reg_state) (a : Z) : Prop := {
  const_range : 0 <= a < 2 ^ 63;
  const_umin : umin r = a; const_umax : umax r = a;
  const_smin : smin r = a; const_smax : smax r = a
}.

Definition const_op (o : ebpf_op) : bool :=
  match o with
  | EBPF_OP_ADD64_IMM | EBPF_OP_ADD64_REG | EBPF_OP_SUB64_IMM | EBPF_OP_SUB64_REG
  | EBPF_OP_MUL64_IMM | EBPF_OP_MUL64_REG | EBPF_OP_AND64_IMM | EBPF_OP_AND64_REG
  | EBPF_OP_OR64_IMM | EBPF_OP_OR64_REG | EBPF_OP_RSH64_IMM | EBPF_OP_RSH64_REG => true
  | _ => false
  end.

Lemma is_const_wf r a : is_const r a -> wf_reg r.
Proof. intros []. split; unfold in_u, in_s; lia. Qed.

Lemma handle64_const r a : is_const r a -> handle_min_max_overflows r mask64 = r.
Proof.
  intros H. rewrite handle64 by by eapply is_const_wf. destruct H as [Hr _ _ _ E].
  destruct (Z.ltb_spec (smax r) 0); [lia|]. by destruct r.
Qed.

Lemma imm_is_const i : in_s 32 i -> 0 <= i -> is_const (mark_bpf_reg_as_imm i) i.
Proof.
  intros Hi Hn. split; simpl; try done; [unfold in_s in *; lia|..];
    apply wrap_small; unfold in_u, in_s in *; lia.
Qed.

Lemma const_reg_bits r x : 0 <= x < 2 ^ 63 -> set_s x x (set_u x x r) = const_reg x r.
Proof.
  intros H. unfold const_reg. rewrite s64_nonneg; [done|unfold in_u; lia|lia].
Qed.

Lemma land_63 a b : 0 <= a < 2 ^ 63 -> 0 <= b < 2 ^ 63 -> 0 <= Z.land a b < 2 ^ 63.
Proof. intros Ha Hb. apply (land_range 63); [lia|done|lia]. Qed.
Lemma lor_63 a b : 0 <= a < 2 ^ 63 -> 0 <= b < 2 ^ 63 -> 0 <= Z.lor a b < 2 ^ 63.
Proof. intros Ha Hb. apply (lor_range 63); [lia|done|done]. Qed.

Section Const.
Context (indet a b : Z) (d s : bpf_reg_state) (Hd : is_const d a) (Hs : is_const s b).

Lemma const_both : const_u d s = true /\ const_s d s = true.
Proof using Hd Hs.
  destruct Hd as [_ E1 E2 E3 E4], Hs as [_ F1 F2 F3 F4]. unfold const_u, const_s.
  by rewrite E1, E2, E3, E4, F1, F2, F3, F4, !Z.eqb_refl.
Qed.

Lemma const_word x : set_s (s64 x) (s64 x) (set_u (u64 x) (u64 x) d) = const_reg (u64 x) d.
Proof using. unfold const_reg. by rewrite sext_wrap. Qed.

(** Both constant branches are taken; then the bounds are [a] and [b]. *)
Ltac fold_const :=
  destruct const_both as [Cu Cs]; destruct Hd as [Ha E1 E2 E3 E4], Hs as [Hb F1 F2 F3 F4];
  rewrite Cu, Cs, ?andb_false_r; cbn [mbind option_bind];
  rewrite ?umask64, ?smask64, E1, E2, E3, E4, F1, F2, F3, F4.

Lemma const_add : alu_add mask64 d s = const_reg (u64 (a + b)) d.
Proof using Hd Hs. unfold alu_add. fold_const. apply const_word. Qed.
Lemma const_sub : alu_sub mask64 d s = const_reg (u64 (a - b)) d.
Proof using Hd Hs. unfold alu_sub. fold_const. apply const_word. Qed.
Lemma const_mul : alu_mul mask64 64 indet d s = Some (const_reg (u64 (a * b)) d).
Proof using Hd Hs. unfold alu_mul. fold_const. by rewrite const_word. Qed.
Lemma const_and : alu_bitwise mask64 64 Z.land compute_bitwise_and_bound d s = Some (const_reg (Z.land a b) d).
Proof using Hd Hs. unfold alu_bitwise. fold_const. by rewrite const_reg_bits by by apply land_63. Qed.
Lemma const_or : alu_bitwise mask64 64 Z.lor compute_bitwise_or_bound d s = Some (const_reg (Z.lor a b) d).
Proof using Hd Hs. unfold alu_bitwise. fold_const. by rewrite const_reg_bits by by apply lor_63. Qed.

Lemma const_rsh v : shr 64 a b = Some v -> alu_rsh mask64 64 indet d s = Some (const_reg v d).
Proof using Hd Hs.
  intros Hv. assert (0 <= b < 64) as Hb'.
  { destruct (decide (0 <= b < 64)); [done|]. unfold shr in Hv.
    destruct (Z.leb_spec 0 b), (Z.ltb_spec b 64); simpl in Hv; (lia || done). }
  destruct Hd as [Ha E1 E2 E3 E4], Hs as [Hb F1 F2 F3 F4]. unfold alu_rsh.
  rewrite E1, E2, E3, E4, F1, F2, Hv. cbn [mbind option_bind].
  destruct (Z.leb_spec 64 b); [lia|].
  rewrite (wrap_small 64 a), Z.shiftr_div_pow2, Z.div_small by (unfold in_u; lia).
  simpl (0 =? 0). cbn match. rewrite const_reg_bits; [done|].
  unfold shr in Hv. case_match; [|done]. injection Hv as <-. rewrite Z.shiftr_div_pow2 by lia.
  pose proof (Z.pow_pos_nonneg 2 b ltac:(lia) ltac:(lia)).
  split; [apply Z.div_pos; lia|apply Z.div_lt_upper_bound; nia].
Qed.

Lemma alu_const o v :
  const_op o = true -> exec_alu64 o a b b = Some (AVal v) ->
  alu_range mask64 64 indet (EBPF_OP (opcode_of o)) d s = Some (const_reg v d).
Proof using Hd Hs.
  intros Ho Hv. assert (u64 b = b) as Ub by (apply wrap_small; destruct Hs; unfold in_u; lia).
  destruct o; try discriminate; cbn [exec_alu64] in Hv; injection Hv as Hv; rewrite ?Ub in Hv.
  1-2: rewrite <- Hv, <- const_add; reflexivity.
  1-2: rewrite <- Hv, <- const_sub; reflexivity.
  1-2: rewrite <- Hv, <- const_mul; reflexivity.
  1-2: rewrite <- Hv, <- const_or; reflexivity.
  1-2: rewrite <- Hv, <- const_and; reflexivity.
  1-2: unfold alu_opt in Hv; destruct (shr 64 a b) eqn:E; [injection Hv as <-|done];
    rewrite <- (const_rsh _ E); reflexivity.
Qed.
End Const.

Lemma const_op_alu64 inst o :
  op_of_opcode (opcode inst) = Some o -> const_op o = true ->
  alu_mask inst = mask64 /\ alu_opsize inst = 64 /\
  forall d s i, exec_alu64 o d s i = exec_alu64 o d (if from_reg inst then s else i) (if from_reg inst then s else i).
Proof.
  intros Ho Hc. apply op_of_opcode_Some in Ho. unfold alu_mask, alu_opsize, from_reg. rewrite <- Ho.
  by destruct o.
Qed.

(** non-negative constants are folded exactly: if the verifier knows both
    operands of a 64-bit ADD, SUB, MUL, AND, OR or RSH to be constants below
    2^63, the new range is the one value the interpreter computes. *)
Theorem alu64_constants_exact indet rs inst o rv a b v :
  op_of_opcode (opcode inst) = Some o -> const_op o = true -> wf_inst inst ->
  0 <= dst inst < NB_REGS -> length rs = Z.to_nat NB_REGS ->
  is_const (regs_get rs (dst inst)) a -> rget rv (dst inst) = a ->
  (if from_reg inst then is_const (regs_get rs (src inst)) b /\ rget rv (src inst) = b
   else imm inst = b /\ 0 <= b) ->
  exec_alu64 o (rget rv (dst inst)) (rget rv (src inst)) (imm inst) = Some (AVal v) ->
  update_min_max_alu_op indet rs inst =
    Some (regs_upd (dst inst) (fun _ => const_reg v (regs_get rs (dst inst))) rs).
Proof.
  intros Ho Hc (_ & _ & _ & _ & Hi) Hdr Hl Hd Ea Hsrc Hv.
  destruct (const_op_alu64 inst o Ho Hc) as (Em & Es & Ex).
  pose proof (proj1 (op_of_opcode_Some _ _) Ho) as Eo.
  unfold update_min_max_alu_op. cbv zeta. rewrite Em, Es, (handle64_const _ _ Hd).
  rewrite Ex, Ea in Hv. fold (from_reg inst). rewrite <- Eo.
  destruct (from_reg inst).
  - destruct Hsrc as [Hs Eb]. rewrite Eb in Hv. rewrite (handle64_const _ _ Hs).
    by rewrite (alu_const indet a b _ _ Hd Hs o v Hc Hv).
  - destruct Hsrc as [Eb Hn]. rewrite Eb in *. pose proof (imm_is_const b Hi Hn) as Hs.
    by rewrite (alu_const indet a b _ _ Hd Hs o v Hc Hv).
Qed.

(** 12 - 5 in R4. *)
Lemma alu64_constants_exact_witness :
  let rs := regs_upd 4 (fun _ => mark_bpf_reg_as_imm 12) (replicate 11 zero_reg) in
  update_min_max_alu_op 0 rs (mk_op EBPF_OP_SUB64_IMM 4 0 0 5) =
    Some (regs_upd 4 (fun _ => const_reg 7 (regs_get rs 4)) rs).
Proof.
  cbv zeta.
  apply (alu64_constants_exact 0 _ (mk_op EBPF_OP_SUB64_IMM 4 0 0 5) EBPF_OP_SUB64_IMM
           (<[4%nat := 12]> (replicate 16 0)) 12 5 7); try (vm_compute; reflexivity).
  - repeat split; vm_compute; done.
  - vm_compute. split; congruence.
  - split; vm_compute; try reflexivity; split; congruence.
  - vm_compute. split; [reflexivity|congruence].
Defined.

(** ** The other operations *)

(** A run of [o] on R3 = [x] and R4 = [y], both in their ranges, whose result
    is outside the range [validate_alu_op] gives R3. *)
Definition violation (o : ebpf_op) (i : Z) (rd : bpf_reg_state) (x : Z) (rs : bpf_reg_state) (y : Z)
    : Prop :=
  reg_in rd x /\ reg_in rs y /\
  exists st' v,
    validate_alu_op 0 (put_reg 4 rs (put_reg 3 rd (curr walk_init))) (mk_op o 3 4 0 i) = Ok st' /\
    alu_value o x y i = Some (AVal v) /\ ~ reg_in (get_reg st' 3) v.

Definition scalar_range (lo hi : Z) : bpf_reg_state := mk_reg UNKNOWN 0 lo hi lo hi.

Ltac violate :=
  split; [split; [split|..]; vm_compute; split; congruence|];
  split; [split; [split|..]; vm_compute; split; congruence|];
  eexists _, _; split; [vm_compute; reflexivity|]; split; [vm_compute; reflexivity|];
  let H1 := fresh in let H2 := fresh in let H3 := fresh in let H4 := fresh in
  intros [_ _ [H1 H2] [H3 H4]]; vm_compute in H1, H2, H3, H4; congruence.

(** the ranges of these operations can exclude the value computed: SUB
    subtracts minima from minima, AND and OR combine minima bitwise, RSH shifts
    the minimum by the smallest count, MUL overflows the signed maximum, NEG
    keeps the old range, a 32-bit MOV of a negative constant is not masked, and
    a 32-bit ADD caps the signed range at 2^31 - 1. *)
Theorem alu_ranges_unsound :
  violation EBPF_OP_SUB64_REG 0 (scalar_range 5 10) 10 (scalar_range 1 6) 1 /\
  violation EBPF_OP_AND64_REG 0 (scalar_range 1 2) 2 (scalar_range 1 1) 1 /\
  violation EBPF_OP_OR64_REG 0 (scalar_range 2 2) 2 (scalar_range 1 2) 2 /\
  violation EBPF_OP_RSH64_REG 0 (scalar_range 8 8) 8 (scalar_range 0 3) 3 /\
  violation EBPF_OP_MUL64_REG 0 (scalar_range 0 (2 ^ 62)) 1 (scalar_range 4 4) 4 /\
  violation EBPF_OP_NEG64 0 (scalar_range 5 5) 5 (scalar_range 0 0) 0 /\
  violation EBPF_OP_MOV_IMM (-1) (scalar_range 5 5) 5 (scalar_range 0 0) 0 /\
  violation EBPF_OP_ADD_IMM 0 mark_bpf_reg_as_unknown 0xfffffff0 (scalar_range 0 0) 0.
Proof. split_and!; violate. Qed.
