(* ===== verification/Helpers.v ===== *)
(** * Helper prototypes and their registration (lib/bpf.c)

    The prototypes tell the verifier what each helper expects and returns.  The
    C functions behind them are an argument: [impls] gives one external
    function per helper. *)

From S2P Require Import Prelude Ebpf Memory Vm.

Record helper_impls : Type := mk_impls {
  f_map_lookup : ext_func; f_map_update : ext_func; f_map_delete : ext_func;
  f_map_add : ext_func; f_time_get_ns : ext_func; f_hash : ext_func; f_printf : ext_func;
  f_adjust_head : ext_func; f_packet_data : ext_func; f_get_rss_hash : ext_func
}.

Section Protos.
Context (impls : helper_impls).

(** [PKT_PTR | MAP_VALUE_PTR | STACK_PTR]. *)
Definition data_ptr : Z := Z.lor (Z.lor PKT_PTR MAP_VALUE_PTR) STACK_PTR.

Definition ubpf_map_lookup_proto : ubpf_func_proto :=
  mk_proto (Some (f_map_lookup impls))
    [MAP_PTR; Z.lor data_ptr UNKNOWN; 0xff; 0xff; 0xff]
    [0xff; SIZE_MAP_KEY; 0xff; 0xff; 0xff] (Z.lor MAP_VALUE_PTR NULL_VALUE).

Definition ubpf_map_update_proto : ubpf_func_proto :=
  mk_proto (Some (f_map_update impls))
    [MAP_PTR; data_ptr; data_ptr; 0xff; 0xff]
    [0xff; SIZE_MAP_KEY; SIZE_MAP_VALUE; 0xff; 0xff] UNKNOWN.

Definition ubpf_map_add_proto : ubpf_func_proto :=
  mk_proto (Some (f_map_add impls))
    [MAP_PTR; data_ptr; 0xff; 0xff; 0xff]
    [0xff; SIZE_MAP_VALUE; 0xff; 0xff; 0xff] UNKNOWN.

Definition ubpf_map_delete_proto : ubpf_func_proto :=
  mk_proto (Some (f_map_delete impls))
    [MAP_PTR; data_ptr; 0xff; 0xff; 0xff]
    [0xff; SIZE_MAP_KEY; 0xff; 0xff; 0xff] UNKNOWN.

Definition ubpf_printf_proto : ubpf_func_proto :=
  mk_proto (Some (f_printf impls)) (replicate 5 0xff) (replicate 5 0xff) UNINIT.

Definition ubpf_time_get_ns_proto : ubpf_func_proto :=
  mk_proto (Some (f_time_get_ns impls)) (replicate 5 0xff) (replicate 5 0xff) UNKNOWN.

Definition ubpf_hash_proto : ubpf_func_proto :=
  mk_proto (Some (f_hash impls))
    [data_ptr; IMM; 0xff; 0xff; 0xff]
    [SIZE_PTR_MAX; SIZE_64; 0xff; 0xff; 0xff] UNKNOWN.

Definition ubpf_adjust_head_proto : ubpf_func_proto :=
  mk_proto (Some (f_adjust_head impls))
    [CTX_PTR; IMM; 0xff; 0xff; 0xff] (replicate 5 0xff) PKT_PTR.

Definition ubpf_packet_data_proto : ubpf_func_proto :=
  mk_proto (Some (f_packet_data impls))
    [CTX_PTR; 0xff; 0xff; 0xff; 0xff] (replicate 5 0xff) PKT_PTR.

Definition ubpf_get_rss_hash_proto : ubpf_func_proto :=
  mk_proto (Some (f_get_rss_hash impls))
    [PKT_PTR; 0xff; 0xff; 0xff; 0xff] [SIZE_PTR_MAX; 0xff; 0xff; 0xff; 0xff] UNKNOWN.

(** The calls in their order; their status is ignored. *)
Definition helper_table : list (Z * string * ubpf_func_proto) :=
  [(1, "ubpf_map_lookup", ubpf_map_lookup_proto);
   (2, "ubpf_map_update", ubpf_map_update_proto);
   (3, "ubpf_map_delete", ubpf_map_delete_proto);
   (4, "ubpf_map_add", ubpf_map_add_proto);
   (5, "ubpf_time_get_ns", ubpf_time_get_ns_proto);
   (6, "ubpf_hash", ubpf_hash_proto);
   (7, "ubpf_printf", ubpf_printf_proto);
   (UBPF_ADJUST_HEAD_ID, "ubpf_adjust_head", ubpf_adjust_head_proto);
   (9, "ubpf_packet_data", ubpf_packet_data_proto);
   (10, "ubpf_get_rss_hash", ubpf_get_rss_hash_proto)]%string.

Definition register_functions (vm : ubpf_vm) : ubpf_vm :=
  foldl (fun vm '(i, name, p) => (ubpf_register_function vm i name p).2) vm helper_table.

(** [ubpf_create] does not fail: it allocates with [xcalloc]. *)
Definition create_ubpf_vm (prog : Z) : ubpf_vm := register_functions (ubpf_create prog).

Lemma register_functions_wf vm : wf_vm vm -> wf_vm (register_functions vm).
Proof using.
  unfold register_functions. generalize helper_table. intros l. revert vm.
  induction l as [|[[i n] p] l IH]; intros vm Hwf; simpl; [done|].
  by apply IH, ubpf_register_function_wf.
Qed.
End Protos.

(** a machine made by [create_ubpf_vm] is well formed, has no program yet,
    and finds every helper under the name and the index of the table, with the
    prototype given there; no other name is found. *)
Theorem create_ubpf_vm_helpers impls prog :
  let vm := create_ubpf_vm impls prog in
  wf_vm vm /\ insts vm = None /\
  Forall (fun '(i, name, p) =>
            ubpf_lookup_registered_function vm name = i /\ ext_funcs vm !! Z.to_nat i = Some p)
    (helper_table impls) /\
  forall name, name ∉ (helper_table impls).*1.*2 ->
    ubpf_lookup_registered_function vm name = UINT32_MAX.
Proof.
  cbv zeta. split_and!.
  - apply register_functions_wf, wf_ubpf_create.
  - reflexivity.
  - repeat constructor.
  - intros name Hn. unfold ubpf_lookup_registered_function.
    destruct (scan_names _ _ _) as [i|] eqn:E; [|done]. exfalso. apply Hn.
    apply scan_names_spec in E as (_ & o & Hl & ->). clear Hn.
    apply list_elem_of_lookup_2 in Hl.
    cbn in Hl |- *.
    repeat (apply elem_of_cons in Hl as [Hl|Hl];
            [first [discriminate Hl | injection Hl as ->;
                    repeat first [apply list_elem_of_here | apply list_elem_of_further]]|]).
    by apply not_elem_of_nil in Hl.
Qed.
