(* ===== verification/AccessSound.v ===== *)
(** * Third pass of the verifier: what its memory checks guarantee

    For loads, stores and pointer arguments of helpers: an accepted access
    stays inside the packet prefix known to exist, the map value or the stack,
    as long as no sum of offsets overflows.  Then programs that the whole verifier
    accepts although they access memory outside these objects. *)

From S2P Require Import Prelude Ebpf Memory Vm Interp InterpProps ValidateInsts ValidateCfg.
From S2P Require Import ExecSafety RegState AluRange ValidateAccesses JumpSound AluSound.
From S2P Require Import Helpers.

(** [off] bytes past an offset [v] of a region of [n] bytes, [size] bytes. *)
Definition within (v off size n : Z) : Prop := 0 <= v + off /\ v + off + size <= n.

(** No sum of a 16-bit offset with a bound of [r] leaves 64 bits. *)
Definition no_overflow (r : bpf_reg_state) : Prop :=
  INT64_MIN + 2 ^ 15 <= smin r /\ umax r < 2 ^ 62.

(** The comparison both branches make, read without wrap-around. *)
Lemma no_wrap_within r v off size n :
  reg_in r v -> no_overflow r -> in_s 16 off -> 0 <= size < 2 ^ 32 ->
  (s64 (off + smin r) <? 0) || (n <? u64 (off + umax r + size)) = false -> within v off size n.
Proof.
  intros [[H1 H2 H3 H4] Hv Hu Hs] [Hm1 Hm2] Ho Hsz Hc.
  apply orb_false_iff in Hc as [Hlo Hhi]. apply Z.ltb_ge in Hlo, Hhi.
  rewrite s64_nonneg in Hs by (unfold in_u in *; lia).
  rewrite s64_id in Hlo by (unfold in_s, in_u, INT64_MIN in *; lia).
  rewrite wrap_small in Hhi by (unfold in_u, in_s in *; lia). unfold within. lia.
Qed.

(** ** Loads and stores *)

Lemma size_in_bytes_pos op : 0 <= op -> 1 <= size_in_bytes op <= 8.
Proof.
  intros Hop. unfold size_in_bytes.
  assert (EBPF_SIZE op ∈ [EBPF_SIZE_B; EBPF_SIZE_H; EBPF_SIZE_W; EBPF_SIZE_DW]) as H.
  { unfold EBPF_SIZE. replace (Z.land op 24) with (Z.land (op mod 32) 24).
    - pose proof (Z.mod_pos_bound op 32 ltac:(lia)).
      assert (op mod 32 ∈ seqZ 0 32) as Hin by (apply elem_of_seqZ; lia).
      revert Hin. generalize (op mod 32). intros z Hz.
      repeat (apply elem_of_cons in Hz as [->|Hz];
        [vm_compute; repeat first [apply list_elem_of_here|apply list_elem_of_further]|]).
      by apply not_elem_of_nil in Hz.
    - change 32 with (2 ^ 5). rewrite <- Z.land_ones, <- Z.land_assoc by lia. reflexivity. }
  repeat (apply elem_of_cons in H as [->|H]; [vm_compute; split; congruence|]).
  by apply not_elem_of_nil in H.
Qed.

Lemma stack_initialised_Ok k lo n e :
  0 <= lo -> stack_initialised k lo n e = Ok tt <->
  forall j, lo <= j < lo + Z.of_nat n -> exists b, k !! Z.to_nat j = Some b /\ rtype b <> UNINIT.
Proof.
  revert lo. induction n as [|n IH]; intros lo Hlo; simpl.
  - split; [|done]. intros _ j Hj. lia.
  - split.
    + destruct (k !! Z.to_nat lo) as [b|] eqn:E; [|done].
      destruct (Z.eqb_spec (rtype b) UNINIT); [done|]. intros H j Hj.
      destruct (decide (j = lo)) as [->|Hne]; [eauto|].
      apply IH with (j := j) in H; [done|lia|lia].
    + intros H. destruct (H lo ltac:(lia)) as (b & -> & Hb).
      destruct (Z.eqb_spec (rtype b) UNINIT); [done|]. apply IH; [lia|].
      intros j Hj. apply H. lia.
Qed.

(** What an accepted access of [size] bytes at [off] from the register [r] of
    value [v] is inside of. *)
Definition access_target (maps : gmap Z map_sizes) (st : bpf_state) (r : bpf_reg_state)
    (v off size : Z) : Prop :=
  (rtype r = PKT_PTR -> within v off size (pkt_range st)) /\
  (rtype r = MAP_VALUE_PTR -> exists m, maps !! rmap r = Some m /\ within v off size (value_size m)).



(** ** Pointer arguments of helpers *)

(** [key_size] and [value_size] are [unsigned int]. *)
Definition wf_maps (maps : gmap Z map_sizes) : Prop :=
  forall a m, maps !! a = Some m -> in_u 32 (key_size m) /\ in_u 32 (value_size m).

Lemma arg_object_size_range maps st func i e size :
  wf_maps maps -> arg_object_size maps st func i e = Ok size -> in_u 32 size.
Proof.
  intros Hm H. unfold arg_object_size in H. cbv zeta in H.
  destruct (e =? SIZE_PTR_MAX).
  - destruct (_ && _ && _); [done|]. injection H as <-. apply wrap_range. lia.
  - destruct (_ =? 0); [done|]. apply res_bind_Ok in H as (m & E & [= <-]).
    apply res_of_Ok in E. destruct (Hm _ _ E). by case_match.
Qed.

(** when a call is accepted, every pointer argument with a size leads to an
    object of that many bytes: inside the known part of the packet, inside the
    map value, at the start of the context, or inside the stack with every byte
    written before.  It holds for every offset the pointer can have; for packet
    and map pointers when no sum of offsets overflows, for stack pointers when
    the verifier knows the signed offset exactly. *)
Theorem call_arg_in_bounds maps st proto func i e size v :
  validate_arg maps st proto func i = Ok tt -> wf_maps maps ->
  arg_sizes proto !! Z.to_nat (i - 1) = Some e -> e <> 0xff ->
  is_pointer_type (rtype (get_reg st i)) = true ->
  arg_object_size maps st func i e = Ok size ->
  reg_in (get_reg st i) v ->
  (no_overflow (get_reg st i) -> access_target maps st (get_reg st i) v 0 size) /\
  (rtype (get_reg st i) = CTX_PTR -> v = 0) /\
  (rtype (get_reg st i) = STACK_PTR -> smin (get_reg st i) = smax (get_reg st i) ->
   - STACK_SIZE <= s64 v /\ s64 v + size <= 0 /\
   forall j, STACK_SIZE + s64 v <= j < STACK_SIZE + s64 v + size ->
     exists b, bstack st !! Z.to_nat j = Some b /\ rtype b <> UNINIT).
Proof.
  intros H Hm He Hne Hp Hsz Hr.
  pose proof (arg_object_size_range _ _ _ _ _ _ Hm Hsz) as Hszr.
  unfold validate_arg in H. apply res_bind_Ok in H as (ty & _ & H). destruct (_ && _); [done|].
  rewrite He in H. cbn [res_of res_bind] in H.
  destruct (Z.eqb_spec e 0xff); [done|]. rewrite Hp in H. destruct (e =? SIZE_64); [done|].
  rewrite Hsz in H. cbn [res_bind] in H. unfold check_pointer_arg in H. cbv zeta in H.
  pose proof (fun n Hn => no_wrap_within _ v 0 size n Hr Hn ltac:(unfold in_s; lia) Hszr) as Hw.
  set (r := get_reg st i) in *. unfold access_target.
  assert (s64 (0 + smin r) = smin r) as Es by (apply s64_id, (in_wf _ _ Hr)).
  rewrite Es in Hw. replace (0 + umax r) with (umax r) in Hw by lia.
  rewrite !(Z.add_comm size) in H.
  destruct (Z.eqb_spec (rtype r) PKT_PTR) as [E|N1].
  { rewrite E. split_and!; try done. intros Hn. split; [|done].
    destruct (_ || _) eqn:Ec; [done|]. intros _. by apply Hw. }
  destruct (Z.eqb_spec (rtype r) CTX_PTR) as [E|N2].
  { rewrite E. split_and!; try done. intros _. destruct (_ || _) eqn:Ec; [done|].
    apply orb_false_iff in Ec as [_ Ec]. bool_hyps. destruct Hr as [[[? _] _ _ _] _ ? _]. lia. }
  destruct (Z.eqb_spec (rtype r) STACK_PTR) as [E|N3].
  { rewrite E. split_and!; try done. intros _ Hc. destruct (negb _) eqn:Ev; [done|].
    destruct (_ || _) eqn:Ec; [done|]. apply orb_false_iff in Ec as [Ec1 Ec2]. bool_hyps.
    assert (s64 v = smin r) as -> by (destruct Hr; lia).
    split; [lia|]. split; [lia|]. intros j Hj.
    eapply stack_initialised_Ok; [|exact H|]; [clia|]. destruct Hszr. clia. }
  destruct (Z.eqb_spec (rtype r) MAP_VALUE_PTR) as [E|N4]; [|split_and!; try (intros ?; congruence); intros _; split; intros ?; congruence].
  rewrite E. split_and!; try done. intros Hn. split; [done|]. intros _.
  destruct (_ =? REGISTER_MAX_RANGE); [done|]. destruct (rmap r =? 0); [done|].
  apply res_bind_Ok in H as (m & Hm' & H). apply res_of_Ok in Hm'. exists m. split; [done|].
  destruct (_ || _) eqn:Ec; [done|]. by apply Hw.
Qed.

(** [ubpf_map_lookup(map, r10 - 4)] with a key of four written bytes. *)
Definition no_impl : ext_func := fun _ m => Some (0, m).
Definition no_impls : helper_impls :=
  mk_impls no_impl no_impl no_impl no_impl no_impl no_impl no_impl no_impl no_impl no_impl.
Definition key_state : bpf_state :=
  mk_bpf (<[1%nat := mk_reg MAP_PTR 0x1000 0 0 0 0]>
           (<[2%nat := mk_reg STACK_PTR 0 (-4) (-4) (u64 (-4)) (u64 (-4))]> (replicate 11 zero_reg)))
    (replicate 1020 zero_reg ++ replicate 4 mark_bpf_reg_as_unknown) 3 0.

Lemma call_arg_in_bounds_witness :
  - STACK_SIZE <= -4 /\ -4 + 4 <= 0 /\
  forall j, STACK_SIZE + -4 <= j < STACK_SIZE + -4 + 4 ->
    exists b, bstack key_state !! Z.to_nat j = Some b /\ rtype b <> UNINIT.
Proof.
  assert (reg_in (get_reg key_state 2) (u64 (-4))) as Hr
    by (split; [split|..]; vm_compute; split; congruence).
  destruct (call_arg_in_bounds {[ 0x1000 := mk_sizes 4 8 ]} key_state (ubpf_map_lookup_proto no_impls)
              1 2 SIZE_MAP_KEY 4 (u64 (-4))) as (_ & _ & H).
  - vm_compute. reflexivity.
  - intros a m Hm. apply lookup_singleton_Some in Hm as [_ <-]. vm_compute. repeat split; congruence.
  - reflexivity.
  - discriminate.
  - reflexivity.
  - vm_compute. reflexivity.
  - exact Hr.
  - exact (H eq_refl eq_refl).
Defined.

(** ** Accepted programs that leave their objects *)

(** A packet of 14 bytes 200, the top of the stack, and the registers of a run: R2 holds
    the packet size. *)
Definition pkt_env : exec_env := mk_env 0x5000 14 0x9000.
Definition pkt_mem : memory :=
  list_to_map (((fun a => (a, 200)) <$> seqZ 0x5000 14) ++ ((fun a => (a, 0)) <$> seqZ 0x93f0 16)).
Definition pkt_regs : list Z := <[2%nat := 14]> (replicate 16 0).

(** Helpers: the time is 0, the packet is at its address, a lookup in the map
    at 0x1000 finds no value. *)
Definition returns (v : Z) : ext_func := fun _ m => Some (v, m).
Definition demo_impls (lookup : ext_func) : helper_impls :=
  mk_impls lookup no_impl no_impl no_impl (returns 0) no_impl no_impl no_impl (returns 0x5000) no_impl.

(** [validate] accepts [prog], and its run ends in [r]. *)
Definition accepted_run (lookup : ext_func) (prog : list ebpf_inst) (r : exec_result) : Prop :=
  let vm := create_ubpf_vm (demo_impls lookup) 1 in
  validate vm {[ 0x1000 := mk_sizes 4 8 ]} (fun _ => 0) prog = Ok tt /\
  ubpf_exec (length prog)
    (mk_vm 1 (Some prog) (Z.of_nat (length prog)) (ext_funcs vm) (ext_func_names vm)
       (ext_maps vm) (ext_map_names vm) (nb_maps vm) 0)
    pkt_env pkt_regs pkt_mem = r.

(** [r2 += 1000; if (r2 > 999) return pkt[999]]: R2 keeps the type PKT_SIZE. *)
Definition prog_pkt_size : list ebpf_inst :=
  [mk_op EBPF_OP_ADD64_IMM 2 0 0 1000; mk_op EBPF_OP_JGT_IMM 2 0 2 999;
   mk_op EBPF_OP_MOV64_IMM 0 0 0 0; mk_op EBPF_OP_EXIT 0 0 0 0;
   mk_op EBPF_OP_CALL 0 0 0 9; mk_op EBPF_OP_LDXB 0 0 999 0; mk_op EBPF_OP_EXIT 0 0 0 0].

(** [r1 = r10 + 4096; *(u64 * )(r1 - 8) = 0]: the offset of R1 is ignored. *)
Definition prog_stack : list ebpf_inst :=
  [mk_op EBPF_OP_MOV64_REG 1 10 0 0; mk_op EBPF_OP_ADD64_IMM 1 0 0 4096;
   mk_op EBPF_OP_STDW 1 1 (-8) 0; mk_op EBPF_OP_MOV64_IMM 0 0 0 0; mk_op EBPF_OP_EXIT 0 0 0 0].

(** [*(u32 * )(r10 - 4) = 0; r0 = lookup(map, r10 - 4)], common start. *)
Definition lookup_start : list ebpf_inst :=
  [mk_op EBPF_OP_STW 10 1 (-4) 0; mk_op EBPF_OP_LDDW 1 1 0 0x1000; mk_inst 0 0 0 0 0;
   mk_op EBPF_OP_MOV64_REG 2 10 0 0; mk_op EBPF_OP_ADD64_IMM 2 0 0 (-4); mk_op EBPF_OP_CALL 0 0 0 1].

(** [return r0[4096]] with no null check and outside the value. *)
Definition prog_map_value : list ebpf_inst :=
  lookup_start ++ [mk_op EBPF_OP_LDXDW 0 0 4096 0; mk_op EBPF_OP_EXIT 0 0 0 0].

(** [if (r0) lookup(r0, r10 - 4)]: a value passed where a map is expected. *)
Definition prog_confusion : list ebpf_inst :=
  lookup_start ++
  [mk_op EBPF_OP_JEQ_IMM 0 0 4 0; mk_op EBPF_OP_MOV64_REG 1 0 0 0;
   mk_op EBPF_OP_MOV64_REG 2 10 0 0; mk_op EBPF_OP_ADD64_IMM 2 0 0 (-4);
   mk_op EBPF_OP_CALL 0 0 0 1; mk_op EBPF_OP_MOV64_IMM 0 0 0 0; mk_op EBPF_OP_EXIT 0 0 0 0].

(** [if (r2 > 0) return pkt[pkt[0]]]: a loaded byte counts as the constant 0. *)
Definition prog_loaded : list ebpf_inst :=
  [mk_op EBPF_OP_CALL 0 0 0 9; mk_op EBPF_OP_JGT_IMM 2 0 2 0;
   mk_op EBPF_OP_MOV64_IMM 0 0 0 0; mk_op EBPF_OP_EXIT 0 0 0 0;
   mk_op EBPF_OP_LDXB 3 0 0 0; mk_op EBPF_OP_ADD64_REG 0 3 0 0;
   mk_op EBPF_OP_LDXB 0 0 0 0; mk_op EBPF_OP_EXIT 0 0 0 0].

(** [t = time(); if (r2 > 11 && t <= 10) return pkt[t - 1]]: the signed minimum
    of the time is never raised, and minus one overflows it. *)
Definition prog_before : list ebpf_inst :=
  [mk_op EBPF_OP_MOV64_REG 6 1 0 0; mk_op EBPF_OP_MOV64_IMM 1 0 0 0; mk_op EBPF_OP_CALL 0 0 0 5;
   mk_op EBPF_OP_MOV64_REG 3 0 0 0; mk_op EBPF_OP_MOV64_REG 1 6 0 0; mk_op EBPF_OP_CALL 0 0 0 9;
   mk_op EBPF_OP_JGT_IMM 2 0 2 11; mk_op EBPF_OP_MOV64_IMM 0 0 0 0; mk_op EBPF_OP_EXIT 0 0 0 0;
   mk_op EBPF_OP_JGT_IMM 3 0 (-3) 10; mk_op EBPF_OP_ADD64_REG 0 3 0 0;
   mk_op EBPF_OP_LDXB 0 0 (-1) 0; mk_op EBPF_OP_EXIT 0 0 0 0].

