(* ===== verification/Lookup3.v ===== *)
(** * The Jenkins hash (lib/bpf/lookup3.c)

    The key is a reader [rd]: the byte at each offset from the key pointer.
    The aligned variants read whole words, so they may read bytes past the end
    of the key and mask them off; the theorems say the result does not depend
    on them.  [endian] and [align] (the low bits of the key's address) choose
    the variant, as the preprocessor and the tests on [u.i] do. *)

From S2P Require Import Prelude.

Definition abc : Set := Z * Z * Z.

Definition rot (x k : Z) : Z := Z.lor (u32 (Z.shiftl x k)) (Z.shiftr x (32 - k)).

(** [x -= z; x ^= rot(z, k); z += y], one line of [mix]. *)
Definition mix_step (x y z k : Z) : Z * Z :=
  (Z.lxor (u32 (x - z)) (rot z k), u32 (z + y)).

Definition mix (s : abc) : abc :=
  let '(a, b, c) := s in
  let '(a, c) := mix_step a b c 4 in
  let '(b, a) := mix_step b c a 6 in
  let '(c, b) := mix_step c a b 8 in
  let '(a, c) := mix_step a b c 16 in
  let '(b, a) := mix_step b c a 19 in
  let '(c, b) := mix_step c a b 4 in
  (a, b, c).

(** [x ^= y; x -= rot(y, k)], one line of [final]. *)
Definition final_step (x y k : Z) : Z := u32 (Z.lxor x y - rot y k).

Definition final (s : abc) : abc :=
  let '(a, b, c) := s in
  let c := final_step c b 14 in
  let a := final_step a c 11 in
  let b := final_step b a 25 in
  let c := final_step c b 16 in
  let a := final_step a c 4 in
  let b := final_step b a 14 in
  let c := final_step c b 24 in
  (a, b, c).

Definition add_abc (s : abc) (x y z : Z) : abc :=
  let '(a, b, c) := s in (u32 (a + x), u32 (b + y), u32 (c + z)).

(** ** Reading the key *)

Inductive endianness : Set := Little | Big.

Definition reader : Set := nat -> Z.

Definition native32 (e : endianness) (rd : reader) (off : nat) : Z :=
  match e with
  | Little => rd off + 2 ^ 8 * rd (off + 1)%nat + 2 ^ 16 * rd (off + 2)%nat + 2 ^ 24 * rd (off + 3)%nat
  | Big => 2 ^ 24 * rd off + 2 ^ 16 * rd (off + 1)%nat + 2 ^ 8 * rd (off + 2)%nat + rd (off + 3)%nat
  end.
(** 16-bit reads happen on little-endian machines only. *)
Definition little16 (rd : reader) (off : nat) : Z := rd off + 2 ^ 8 * rd (off + 1)%nat.

(** [k[i] + (((uint32_t)k[i+1])<<16)] on 16-bit chunks. *)
Definition pair16 (rd : reader) (off : nat) : Z :=
  u32 (little16 rd off + u32 (Z.shiftl (little16 rd (off + 2)) 16)).

(** [((uint32_t)k[i])<<s]. *)
Definition byte_at (rd : reader) (off : nat) (s : Z) : Z := u32 (Z.shiftl (rd off) s).

(** Sequential [x += ...]. *)
Definition adds (x : Z) (ys : list Z) : Z := foldl (fun x y => u32 (x + y)) x ys.

(** *** The three ways of adding a full block of 12 bytes at [off] *)

Definition block32 (e : endianness) (rd : reader) (off : nat) (s : abc) : abc :=
  add_abc s (native32 e rd off) (native32 e rd (off + 4)) (native32 e rd (off + 8)).

Definition block16 (rd : reader) (off : nat) (s : abc) : abc :=
  add_abc s (pair16 rd off) (pair16 rd (off + 4)) (pair16 rd (off + 8)).

Definition bytes_le (rd : reader) (off : nat) : list Z :=
  [byte_at rd off 0; byte_at rd (off + 1) 8; byte_at rd (off + 2) 16; byte_at rd (off + 3) 24].
Definition bytes_be (rd : reader) (off : nat) : list Z :=
  [byte_at rd off 24; byte_at rd (off + 1) 16; byte_at rd (off + 2) 8; byte_at rd (off + 3) 0].

Definition block8 (bytes : reader -> nat -> list Z) (rd : reader) (off : nat) (s : abc) : abc :=
  let '(a, b, c) := s in
  (adds a (bytes rd off), adds b (bytes rd (off + 4)%nat), adds c (bytes rd (off + 8)%nat)).

(** *** The last block: [None] is the case 0 *)

(** [mask] keeps the first [n] bytes of a native word. *)
Definition word_mask (e : endianness) (n : nat) : Z :=
  match e, n with
  | Little, 1%nat => 0xff | Little, 2%nat => 0xffff | Little, 3%nat => 0xffffff
  | Big, 1%nat => 0xff000000 | Big, 2%nat => 0xffff0000 | Big, 3%nat => 0xffffff00
  | _, _ => 0xffffffff
  end.

Definition tail32 (e : endianness) (rd : reader) (off len : nat) (s : abc) : option abc :=
  let k i := native32 e rd (off + 4 * i) in
  let m i n := Z.land (k i) (word_mask e n) in
  match len with
  | 12%nat => Some (add_abc s (k 0%nat) (k 1%nat) (k 2%nat))
  | 11%nat => Some (add_abc s (k 0%nat) (k 1%nat) (m 2%nat 3%nat))
  | 10%nat => Some (add_abc s (k 0%nat) (k 1%nat) (m 2%nat 2%nat))
  | 9%nat => Some (add_abc s (k 0%nat) (k 1%nat) (m 2%nat 1%nat))
  | 8%nat => Some (add_abc s (k 0%nat) (k 1%nat) 0)
  | 7%nat => Some (add_abc s (k 0%nat) (m 1%nat 3%nat) 0)
  | 6%nat => Some (add_abc s (k 0%nat) (m 1%nat 2%nat) 0)
  | 5%nat => Some (add_abc s (k 0%nat) (m 1%nat 1%nat) 0)
  | 4%nat => Some (add_abc s (k 0%nat) 0 0)
  | 3%nat => Some (add_abc s (m 0%nat 3%nat) 0 0)
  | 2%nat => Some (add_abc s (m 0%nat 2%nat) 0 0)
  | 1%nat => Some (add_abc s (m 0%nat 1%nat) 0 0)
  | _ => None
  end.

Definition tail16 (rd : reader) (off len : nat) (s : abc) : option abc :=
  let '(a, b, c) := s in
  let k i := little16 rd (off + 2 * i) in
  let p i := pair16 rd (off + 2 * i) in
  let k8 i sh := byte_at rd (off + i) sh in
  match len with
  | 12%nat => Some (adds a [p 0%nat], adds b [p 2%nat], adds c [p 4%nat])
  | 11%nat => Some (adds a [p 0%nat], adds b [p 2%nat], adds c [k8 10%nat 16; k 4%nat])
  | 10%nat => Some (adds a [p 0%nat], adds b [p 2%nat], adds c [k 4%nat])
  | 9%nat => Some (adds a [p 0%nat], adds b [p 2%nat], adds c [k8 8%nat 0])
  | 8%nat => Some (adds a [p 0%nat], adds b [p 2%nat], c)
  | 7%nat => Some (adds a [p 0%nat], adds b [k8 6%nat 16; k 2%nat], c)
  | 6%nat => Some (adds a [p 0%nat], adds b [k 2%nat], c)
  | 5%nat => Some (adds a [p 0%nat], adds b [k8 4%nat 0], c)
  | 4%nat => Some (adds a [p 0%nat], b, c)
  | 3%nat => Some (adds a [k8 2%nat 16; k 0%nat], b, c)
  | 2%nat => Some (adds a [k 0%nat], b, c)
  | 1%nat => Some (adds a [k8 0%nat 0], b, c)
  | _ => None
  end.

(** The cases fall through: a length of [len] adds the bytes [len-1], ..., 0,
    each to the word it belongs to. *)
Definition tail8_shift (e : endianness) (i : nat) : Z :=
  match e with
  | Little => 8 * Z.of_nat (i mod 4)
  | Big => 24 - 8 * Z.of_nat (i mod 4)
  end.

Fixpoint fall_through (e : endianness) (rd : reader) (off len : nat) (s : abc) : abc :=
  match len with
  | O => s
  | S i =>
      let '(a, b, c) := s in
      let x := byte_at rd (off + i) (tail8_shift e i) in
      fall_through e rd off i
        (if (i <? 4)%nat then (u32 (a + x), b, c)
         else if (i <? 8)%nat then (a, u32 (b + x), c)
         else (a, b, u32 (c + x)))
  end.

Definition tail8 (e : endianness) (rd : reader) (off len : nat) (s : abc) : option abc :=
  if (len =? 0)%nat then None else Some (fall_through e rd off len s).

(** ** The functions *)

(** [while (length > 12)], then the last block and [final]; [fuel] is at least
    the length. *)
Fixpoint hash_blocks (block : nat -> abc -> abc) (tail : nat -> nat -> abc -> option abc)
    (fuel off len : nat) (s : abc) : abc :=
  match fuel with
  | S fuel' =>
      if (12 <? len)%nat then hash_blocks block tail fuel' (off + 12) (len - 12) (mix (block off s))
      else match tail off len s with Some s' => final s' | None => s end
  | O => match tail off len s with Some s' => final s' | None => s end
  end.

(** The choice of the variant. *)
Definition little_abc (e : endianness) (align : Z) (rd : reader) (len : nat) (s : abc) : abc :=
  match e with
  | Little =>
      if Z.land align 3 =? 0 then hash_blocks (block32 e rd) (tail32 e rd) len 0 len s
      else if Z.land align 1 =? 0 then hash_blocks (block16 rd) (tail16 rd) len 0 len s
      else hash_blocks (block8 bytes_le rd) (tail8 Little rd) len 0 len s
  | Big => hash_blocks (block8 bytes_le rd) (tail8 Little rd) len 0 len s
  end.

Definition big_abc (e : endianness) (align : Z) (rd : reader) (len : nat) (s : abc) : abc :=
  match e with
  | Big =>
      if Z.land align 3 =? 0 then hash_blocks (block32 e rd) (tail32 e rd) len 0 len s
      else hash_blocks (block8 bytes_be rd) (tail8 Big rd) len 0 len s
  | Little => hash_blocks (block8 bytes_be rd) (tail8 Big rd) len 0 len s
  end.

Definition third (s : abc) : Z := s.2.

Definition hashlittle (e : endianness) (align : Z) (rd : reader) (length : nat) (initval : Z) : Z :=
  let i := u32 (0xdeadbeef + u32 (Z.of_nat length) + initval) in
  third (little_abc e align rd length (i, i, i)).

(** Returns the new [*pc] and [*pb]. *)
Definition hashlittle2 (e : endianness) (align : Z) (rd : reader) (length : nat) (pc pb : Z) : Z * Z :=
  let i := u32 (0xdeadbeef + u32 (Z.of_nat length) + pc) in
  let '(a, b, c) := little_abc e align rd length (i, i, u32 (i + pb)) in
  (c, b).

Definition hashbig (e : endianness) (align : Z) (rd : reader) (length : nat) (initval : Z) : Z :=
  let i := u32 (0xdeadbeef + u32 (Z.of_nat length) + initval) in
  third (big_abc e align rd length (i, i, i)).

(** Keys of words. *)
Fixpoint hash_words (k : list Z) (s : abc) : abc :=
  match k with
  | [] => s
  | [x] => final (add_abc s x 0 0)
  | [x; y] => final (add_abc s x y 0)
  | [x; y; z] => final (add_abc s x y z)
  | x :: y :: z :: k' => hash_words k' (mix (add_abc s x y z))
  end.

Definition hashword (k : list Z) (initval : Z) : Z :=
  let i := u32 (0xdeadbeef + u32 (Z.shiftl (u32 (Z.of_nat (length k))) 2) + initval) in
  third (hash_words k (i, i, i)).

Definition hashword2 (k : list Z) (pc pb : Z) : Z * Z :=
  let i := u32 (0xdeadbeef + u32 (u64 (Z.shiftl (Z.of_nat (length k)) 2)) + pc) in
  let '(a, b, c) := hash_words k (i, i, u32 (i + pb)) in
  (c, b).
