(* ===== verification/Lookup3Props.v ===== *)
(** * The Jenkins hash: properties

    A reference definition on the list of key bytes; every variant computes
    it, so the hash does not depend on the alignment of the key, on the
    endianness of the machine, or on bytes past the end of the key. *)

From S2P Require Import Prelude Lookup3.

(** ** Reference definition *)

(** The word made of the first bytes of [bs], at most four. *)
Fixpoint word_from (e : endianness) (i : nat) (bs : list Z) : Z :=
  match bs, i with
  | b :: bs', S i' =>
      b * 2 ^ (match e with Little => 8 * Z.of_nat (4 - i) | Big => 8 * Z.of_nat i' end)
      + word_from e i' bs'
  | _, _ => 0
  end.
Definition ref_word (e : endianness) (bs : list Z) : Z := word_from e 4 bs.

Definition ref_add (e : endianness) (bs : list Z) (s : abc) : abc :=
  add_abc s (ref_word e bs) (ref_word e (drop 4 bs)) (ref_word e (drop 8 bs)).

Fixpoint ref_hash (e : endianness) (fuel : nat) (bs : list Z) (s : abc) : abc :=
  match fuel with
  | S fuel' =>
      if (12 <? length bs)%nat then ref_hash e fuel' (drop 12 bs) (mix (ref_add e bs s))
      else if (length bs =? 0)%nat then s else final (ref_add e bs s)
  | O => s
  end.

(** The bytes of the key. *)
Definition key_bytes (rd : reader) (off len : nat) : list Z := (fun i => rd (off + i)%nat) <$> seq 0 len.

Definition in_abc (s : abc) : Prop := in_u 32 s.1.1 /\ in_u 32 s.1.2 /\ in_u 32 s.2.

(** ** Ranges *)

#[local] Arguments mix_step : simpl never.

Lemma rot_range x k : in_u 32 x -> 0 <= k <= 32 -> in_u 32 (rot x k).
Proof.
  intros Hx Hk. apply lor_range; [lia|apply wrap_range; lia|].
  unfold in_u in *. rewrite Z.shiftr_div_pow2 by lia.
  pose proof (Z.pow_pos_nonneg 2 (32 - k) ltac:(lia) ltac:(lia)).
  split; [apply Z.div_pos; lia|apply Z.div_lt_upper_bound; nia].
Qed.

Lemma u32_in x : in_u 32 (u32 x).
Proof. apply wrap_range. lia. Qed.

Lemma mix_step_range x y z k :
  in_u 32 z -> 0 <= k <= 32 -> in_u 32 (mix_step x y z k).1 /\ in_u 32 (mix_step x y z k).2.
Proof.
  intros Hz Hk. split; [|apply u32_in]. apply lxor_range; [lia|apply u32_in|by apply rot_range].
Qed.

Lemma mix_range s : in_abc s -> in_abc (mix s).
Proof.
  destruct s as [[a b] c]. intros (Ha & Hb & Hc). cbn [fst snd] in *. unfold mix.
  repeat match goal with
  | |- context [mix_step ?x ?y ?z ?k] =>
      pose proof (mix_step_range x y z k ltac:(assumption) ltac:(lia)) as [];
      destruct (mix_step x y z k) as [? ?]; cbn [fst snd] in *
  end. done.
Qed.

Lemma final_range s : in_abc s -> in_abc (final s).
Proof. destruct s as [[a b] c]. intros _. split_and!; apply u32_in. Qed.

Lemma add_abc_range s x y z : in_abc (add_abc s x y z).
Proof. destruct s as [[a b] c]. split_and!; apply u32_in. Qed.

(** ** Mixing is reversible *)

(** The inverse of one line: [x' = (x - z) ^ rot(z, k); z' = z + y]. *)
Definition unmix_step (x' y z' k : Z) : Z * Z :=
  let z := u32 (z' - y) in
  (u32 (Z.lxor x' (rot z k) + z), z).

Definition unmix (s : abc) : abc :=
  let '(a, b, c) := s in
  let '(c, b) := unmix_step c a b 4 in
  let '(b, a) := unmix_step b c a 19 in
  let '(a, c) := unmix_step a b c 16 in
  let '(c, b) := unmix_step c a b 8 in
  let '(b, a) := unmix_step b c a 6 in
  let '(a, c) := unmix_step a b c 4 in
  (a, b, c).

#[local] Arguments unmix_step : simpl never.

Lemma unmix_mix_step x y z k :
  in_u 32 x -> in_u 32 z ->
  unmix_step (mix_step x y z k).1 y (mix_step x y z k).2 k = (x, z).
Proof.
  intros Hx Hz. unfold mix_step, unmix_step. simpl.
  assert (u32 (u32 (z + y) - y) = z) as ->.
  { rewrite wrap_sub_l. replace (z + y - y) with z by lia. by apply wrap_small. }
  rewrite Z.lxor_assoc, Z.lxor_nilpotent, Z.lxor_0_r, wrap_add_l.
  replace (x - z + z) with x by lia. by rewrite (wrap_small 32 x).
Qed.

(** [mix] is reversible, as its comment says: no information of the three
    words is lost. *)
Theorem mix_reversible s : in_abc s -> unmix (mix s) = s.
Proof.
  destruct s as [[a b] c]. intros (Ha & Hb & Hc). cbn [fst snd] in *. unfold mix, unmix.
  repeat match goal with
  | |- context [let '(_, _) := mix_step ?x ?y ?z ?k in _] =>
      pose proof (mix_step_range x y z k ltac:(assumption) ltac:(lia)) as [];
      pose proof (unmix_mix_step x y z k ltac:(assumption) ltac:(assumption));
      destruct (mix_step x y z k) as [? ?]; cbn [fst snd] in *
  end.
  repeat match goal with H : unmix_step _ _ _ _ = _ |- _ => rewrite H; clear H end. done.
Qed.

Lemma mix_reversible_witness : unmix (mix (1, 2, 3)) = (1, 2, 3).
Proof. apply (mix_reversible (1, 2, 3)). repeat split; simpl; lia. Defined.

(** ** Every variant computes the reference *)

Lemma length_key_bytes rd off len : length (key_bytes rd off len) = len.
Proof. unfold key_bytes. by rewrite length_fmap, length_seq. Qed.

Lemma drop_key_bytes rd off len n :
  drop n (key_bytes rd off len) = key_bytes rd (off + n) (len - n).
Proof.
  unfold key_bytes. apply list_eq. intros i. rewrite lookup_drop, !list_lookup_fmap.
  destruct (decide (i < len - n)%nat).
  - rewrite !lookup_seq_lt by lia. simpl. do 2 f_equal. lia.
  - rewrite !lookup_seq_ge by lia. done.
Qed.

(** The word read at an offset with [n] bytes of the key left. *)
Definition key_word (e : endianness) (rd : reader) (off n : nat) : Z :=
  ref_word e (key_bytes rd off n).

Lemma ref_add_key e rd off len s :
  ref_add e (key_bytes rd off len) s =
  add_abc s (key_word e rd off len) (key_word e rd (off + 4) (len - 4))
    (key_word e rd (off + 8) (len - 8)).
Proof. unfold ref_add, key_word. by rewrite !drop_key_bytes. Qed.

Section Words.
Context (rd : reader) (Hrd : forall i, in_u 8 (rd i)).

Lemma key_word_0 e off : key_word e rd off 0 = 0.
Proof using. done. Qed.
Lemma key_word_1 e off :
  key_word e rd off 1 = match e with Little => rd off | Big => 2 ^ 24 * rd off end.
Proof using. unfold key_word, ref_word. destruct e; simpl; rewrite Nat.add_0_r; lia. Qed.
Lemma key_word_2 e off :
  key_word e rd off 2 =
  match e with
  | Little => rd off + 2 ^ 8 * rd (off + 1)%nat
  | Big => 2 ^ 24 * rd off + 2 ^ 16 * rd (off + 1)%nat
  end.
Proof using. unfold key_word, ref_word. destruct e; simpl; rewrite Nat.add_0_r; lia. Qed.
Lemma key_word_3 e off :
  key_word e rd off 3 =
  match e with
  | Little => rd off + 2 ^ 8 * rd (off + 1)%nat + 2 ^ 16 * rd (off + 2)%nat
  | Big => 2 ^ 24 * rd off + 2 ^ 16 * rd (off + 1)%nat + 2 ^ 8 * rd (off + 2)%nat
  end.
Proof using. unfold key_word, ref_word. destruct e; simpl; rewrite Nat.add_0_r; lia. Qed.
Lemma key_word_4 e off n : key_word e rd off (4 + n) = native32 e rd off.
Proof using.
  unfold key_word, ref_word, native32.
  destruct e, n; simpl; rewrite Nat.add_0_r; lia.
Qed.

Lemma native32_range e off : in_u 32 (native32 e rd off).
Proof using Hrd.
  pose proof (Hrd off). pose proof (Hrd (off + 1)%nat). pose proof (Hrd (off + 2)%nat).
  pose proof (Hrd (off + 3)%nat). unfold in_u in *. destruct e; simpl; lia.
Qed.

(** Masking a word keeps the first bytes. *)
Lemma land_high x k m n : 0 <= k -> 0 <= n -> 0 <= x ->
  Z.land x (Z.shiftl (Z.ones m) k) = Z.shiftl (Z.land (Z.shiftr x k) (Z.ones m)) k.
Proof using.
  intros. rewrite Z.shiftl_land. apply Z.bits_inj. intros i.
  rewrite !Z.land_spec. destruct (Z.ltb_spec i k).
  - rewrite (Z.shiftl_spec_low (Z.ones m)) by lia. by rewrite !andb_false_r.
  - destruct (Z.ltb_spec i 0); [rewrite !Z.testbit_neg_r by lia; done|].
    f_equal. rewrite Z.shiftl_spec, Z.shiftr_spec by lia. f_equal. lia.
Qed.

Lemma native32_mask e off n :
  (1 <= n <= 3)%nat -> Z.land (native32 e rd off) (word_mask e n) = key_word e rd off n.
Proof using Hrd.
  intros Hn. pose proof (native32_range e off) as Hr.
  pose proof (Hrd off). pose proof (Hrd (off + 1)%nat). pose proof (Hrd (off + 2)%nat).
  pose proof (Hrd (off + 3)%nat). unfold in_u in *.
  assert (n = 1 \/ n = 2 \/ n = 3)%nat as [-> | [-> | ->]] by lia;
    rewrite ?key_word_1, ?key_word_2, ?key_word_3; destruct e; cbn [word_mask].
  - change 0xff with (Z.ones 8). rewrite Z.land_ones by lia. unfold native32.
    Z.div_mod_to_equations. lia.
  - change 0xff000000 with (Z.shiftl (Z.ones 8) 24). rewrite (land_high _ _ _ 0), Z.land_ones by lia.
    rewrite Z.shiftl_mul_pow2, Z.shiftr_div_pow2 by lia. unfold native32 in *.
    Z.div_mod_to_equations. lia.
  - change 0xffff with (Z.ones 16). rewrite Z.land_ones by lia. unfold native32.
    Z.div_mod_to_equations. lia.
  - change 0xffff0000 with (Z.shiftl (Z.ones 16) 16). rewrite (land_high _ _ _ 0), Z.land_ones by lia.
    rewrite Z.shiftl_mul_pow2, Z.shiftr_div_pow2 by lia. unfold native32 in *.
    Z.div_mod_to_equations. lia.
  - change 0xffffff with (Z.ones 24). rewrite Z.land_ones by lia. unfold native32.
    Z.div_mod_to_equations. lia.
  - change 0xffffff00 with (Z.shiftl (Z.ones 24) 8). rewrite (land_high _ _ _ 0), Z.land_ones by lia.
    rewrite Z.shiftl_mul_pow2, Z.shiftr_div_pow2 by lia. unfold native32 in *.
    Z.div_mod_to_equations. lia.
Qed.

Lemma key_word_ge e off n : (4 <= n)%nat -> key_word e rd off n = native32 e rd off.
Proof using. intros H. replace n with (4 + (n - 4))%nat by lia. apply key_word_4. Qed.

(** What a block and a last block must add. *)
Definition block_ok (e : endianness) (block : nat -> abc -> abc) : Prop :=
  forall off s, in_abc s ->
    block off s = add_abc s (native32 e rd off) (native32 e rd (off + 4)) (native32 e rd (off + 8)).
Definition tail_ok (e : endianness) (tail : nat -> nat -> abc -> option abc) : Prop :=
  forall off len s, in_abc s -> (len <= 12)%nat ->
    tail off len s =
    if (len =? 0)%nat then None
    else Some (add_abc s (key_word e rd off len) (key_word e rd (off + 4) (len - 4))
                 (key_word e rd (off + 8) (len - 8))).

(** Enumerates the lengths and evaluates the key words. *)
Ltac each_length len H :=
  destruct len as [|[|[|[|[|[|[|[|[|[|[|[|[|len]]]]]]]]]]]]]; [..|exfalso; clear - H; lia];
  cbn [Nat.sub Nat.eqb Nat.add Nat.mul]; clear H;
  rewrite ?Nat.add_0_r; try done;
  rewrite ?key_word_0, ?key_word_1, ?key_word_2, ?key_word_3, ?key_word_ge by lia.

Lemma block32_ok e : block_ok e (block32 e rd).
Proof using. done. Qed.

Lemma tail32_ok e : tail_ok e (tail32 e rd).
Proof using Hrd.
  intros off len s Hs Hl. unfold tail32.
  each_length len Hl; rewrite ?(native32_mask e) by lia;
    rewrite ?key_word_1, ?key_word_2, ?key_word_3; reflexivity.
Qed.

Lemma little16_range off : in_u 16 (little16 rd off).
Proof using Hrd.
  pose proof (Hrd off). pose proof (Hrd (off + 1)%nat). unfold in_u, little16 in *. lia.
Qed.

Lemma pair16_val off : pair16 rd off = native32 Little rd off.
Proof using Hrd.
  unfold pair16. rewrite wrap_add_r, Z.shiftl_mul_pow2 by lia. unfold native32, little16.
  rewrite <- !Nat.add_assoc. cbn [Nat.add].
  pose proof (Hrd off). pose proof (Hrd (off + 1)%nat). pose proof (Hrd (off + 2)%nat).
  pose proof (Hrd (off + 3)%nat). unfold in_u in *. rewrite wrap_small by (unfold in_u; lia). lia.
Qed.

Lemma byte_at_val off sh : 0 <= sh <= 24 -> byte_at rd off sh = rd off * 2 ^ sh.
Proof using Hrd.
  intros Hsh. unfold byte_at. rewrite Z.shiftl_mul_pow2 by lia. apply wrap_small.
  pose proof (Hrd off) as Hb. unfold in_u in *.
  pose proof (Z.pow_le_mono_r 2 sh 24). pose proof (Z.pow_pos_nonneg 2 sh). nia.
Qed.

Lemma add_abc_zero s : in_abc s -> add_abc s 0 0 0 = s.
Proof using.
  destruct s as [[a b] c]. intros (Ha & Hb & Hc). unfold add_abc.
  rewrite !Z.add_0_r, !wrap_small by done. done.
Qed.

(** Normalises sequential additions of bytes into one sum per word. *)
Ltac sum_words :=
  cbn [adds foldl]; rewrite ?pair16_val; unfold little16;
  rewrite ?byte_at_val by lia;
  repeat match goal with (* innermost first *)
  | |- context [u32 (u32 ?p + ?y)] =>
      lazymatch p with context [wrap] => fail | _ => rewrite (wrap_add_l 32 p y) end
  end;
  repeat match goal with
  | H : in_u 32 ?x |- context [u32 (?x + 0)] => rewrite (Z.add_0_r x), (wrap_small 32 x H)
  end;
  rewrite <- ?Nat.add_assoc; cbn [Nat.add]; unfold native32; rewrite <- ?Nat.add_assoc; cbn [Nat.add];
  repeat match goal with
  | |- Some _ = Some _ => f_equal
  | |- (_, _) = (_, _) => f_equal
  | |- u32 _ = u32 _ => f_equal
  end; try reflexivity; lia.

Lemma block16_ok : block_ok Little (block16 rd).
Proof using Hrd. intros off s _. unfold block16. by rewrite !pair16_val. Qed.

Lemma tail16_ok : tail_ok Little (tail16 rd).
Proof using Hrd.
  intros off len [[a b] c] (Ha & Hb & Hc) Hl. cbn [fst snd] in *. unfold tail16, add_abc.
  each_length len Hl; sum_words.
Qed.

Definition bytes_of (e : endianness) : reader -> nat -> list Z :=
  match e with Little => bytes_le | Big => bytes_be end.

Lemma block8_ok e : block_ok e (block8 (bytes_of e) rd).
Proof using Hrd.
  intros off [[a b] c] _. unfold block8, add_abc, bytes_of, bytes_le, bytes_be.
  destruct e; sum_words.
Qed.

Lemma tail8_ok e : tail_ok e (tail8 e rd).
Proof using Hrd.
  intros off len [[a b] c] (Ha & Hb & Hc) Hl. cbn [fst snd] in *. unfold tail8, add_abc.
  destruct e; each_length len Hl; cbn [fall_through Nat.ltb Nat.leb]; unfold tail8_shift;
    cbn [Nat.modulo Nat.divmod Nat.sub fst snd]; rewrite ?Nat.add_0_r;
    change (8 * Z.of_nat 0) with 0; change (8 * Z.of_nat 1) with 8;
    change (8 * Z.of_nat 2) with 16; change (8 * Z.of_nat 3) with 24;
    change (24 - 0) with 24; change (24 - 8) with 16; change (24 - 16) with 8; change (24 - 24) with 0;
    sum_words.
Qed.
End Words.

(** ** The loop *)

Lemma blocks_ref e rd block tail fuel off len s :
  block_ok rd e block -> tail_ok rd e tail -> in_abc s -> (len <= fuel)%nat ->
  hash_blocks block tail fuel off len s = ref_hash e (S fuel) (key_bytes rd off len) s.
Proof.
  intros Hb Ht. revert off len s. induction fuel as [|fuel IH]; intros off len s Hs Hl.
  - assert (len = 0)%nat as -> by lia. simpl. by rewrite Ht by (done || lia).
  - cbn [hash_blocks]. rewrite <- (length_key_bytes rd off len) at 1.
    change (ref_hash e (S (S fuel)) (key_bytes rd off len) s) with
      (if (12 <? length (key_bytes rd off len))%nat
       then ref_hash e (S fuel) (drop 12 (key_bytes rd off len)) (mix (ref_add e (key_bytes rd off len) s))
       else if (length (key_bytes rd off len) =? 0)%nat then s
       else final (ref_add e (key_bytes rd off len) s)).
    rewrite ref_add_key, drop_key_bytes, length_key_bytes.
    destruct (Nat.ltb_spec 12 len).
    + rewrite Hb by done. rewrite !key_word_ge by lia. apply IH; [|lia].
      apply mix_range, add_abc_range.
    + rewrite Ht by (done || lia). by destruct (len =? 0)%nat.
Qed.

Definition init_abc (length : nat) (seed : Z) : Z := u32 (0xdeadbeef + u32 (Z.of_nat length) + seed).

Lemma little_abc_ref e align rd len s :
  (forall i, in_u 8 (rd i)) -> in_abc s ->
  little_abc e align rd len s = ref_hash Little (S len) (key_bytes rd 0 len) s.
Proof.
  intros Hrd Hs. unfold little_abc.
  repeat case_match; (apply blocks_ref; [| |done|lia]);
    first [apply block32_ok | apply tail32_ok | apply block16_ok | apply tail16_ok
          | apply (block8_ok rd Hrd Little) | apply tail8_ok]; done.
Qed.

Lemma big_abc_ref e align rd len s :
  (forall i, in_u 8 (rd i)) -> in_abc s ->
  big_abc e align rd len s = ref_hash Big (S len) (key_bytes rd 0 len) s.
Proof.
  intros Hrd Hs. unfold big_abc.
  repeat case_match; (apply blocks_ref; [| |done|lia]);
    first [apply block32_ok | apply tail32_ok | apply (block8_ok rd Hrd Big) | apply tail8_ok]; done.
Qed.

Lemma init_in n seed : in_abc (init_abc n seed, init_abc n seed, init_abc n seed).
Proof. split_and!; apply u32_in. Qed.

(** C22: all variants of [hashlittle] and of [hashbig] compute one function of the
    key bytes: the result does not depend on the address of the key, on the
    byte order of the machine, or on what lies behind the key, although the
    aligned variants read there. *)
Theorem hash_variants_agree e align rd len initval :
  (forall i, in_u 8 (rd i)) ->
  hashlittle e align rd len initval =
    third (ref_hash Little (S len) (key_bytes rd 0 len)
             (init_abc len initval, init_abc len initval, init_abc len initval)) /\
  hashbig e align rd len initval =
    third (ref_hash Big (S len) (key_bytes rd 0 len)
             (init_abc len initval, init_abc len initval, init_abc len initval)).
Proof.
  intros Hrd. unfold hashlittle, hashbig. cbv zeta. fold (init_abc len initval).
  rewrite little_abc_ref, big_abc_ref by auto using init_in. done.
Qed.

Lemma hash_variants_agree_witness :
  hashlittle Little 0 (fun i => Z.of_nat (i mod 7)) 30 1 = hashlittle Big 3 (fun i => Z.of_nat (i mod 7)) 30 1.
Proof.
  assert (forall i, in_u 8 (Z.of_nat (i mod 7))) as Hrd.
  { intros i. pose proof (Nat.mod_upper_bound i 7 ltac:(lia)). unfold in_u. lia. }
  transitivity (third (ref_hash Little 31 (key_bytes (fun i => Z.of_nat (i mod 7)) 0 30)
                         (init_abc 30 1, init_abc 30 1, init_abc 30 1))).
  - apply (hash_variants_agree Little 0 (fun i => Z.of_nat (i mod 7)) 30 1 Hrd).
  - symmetry. apply (hash_variants_agree Big 3 (fun i => Z.of_nat (i mod 7)) 30 1 Hrd).
Defined.

(** ** Keys of words *)

Definition word_bytes (e : endianness) (w : Z) : list Z :=
  match e with
  | Little => [u8 w; u8 (w / 2 ^ 8); u8 (w / 2 ^ 16); u8 (w / 2 ^ 24)]
  | Big => [u8 (w / 2 ^ 24); u8 (w / 2 ^ 16); u8 (w / 2 ^ 8); u8 w]
  end.
Definition words_bytes (e : endianness) (k : list Z) : list Z := concat (word_bytes e <$> k).

Lemma ref_word_bytes e w rest : in_u 32 w -> ref_word e (word_bytes e w ++ rest) = w.
Proof.
  intros Hw. unfold ref_word, word_bytes, in_u, wrap in *.
  destruct e, rest; cbn -[Z.modulo Z.div Z.pow];
    change (2 ^ (8 * Z.of_nat 0)) with 1; change (2 ^ (8 * Z.of_nat 1)) with (2 ^ 8);
    change (2 ^ (8 * Z.of_nat 2)) with (2 ^ 16); change (2 ^ (8 * Z.of_nat 3)) with (2 ^ 24);
    Z.div_mod_to_equations; lia.
Qed.

Lemma drop_words e x y z rest :
  drop 4 (word_bytes e x ++ rest) = rest /\
  drop 8 (word_bytes e x ++ word_bytes e y ++ rest) = rest /\
  drop 12 (word_bytes e x ++ word_bytes e y ++ word_bytes e z ++ rest) = rest.
Proof. by destruct e. Qed.

Lemma length_word_bytes e w : length (word_bytes e w) = 4%nat.
Proof. by destruct e. Qed.

Lemma length_words_bytes e k : length (words_bytes e k) = (4 * length k)%nat.
Proof.
  unfold words_bytes. induction k as [|w k IH]; [done|]. cbn [fmap list_fmap concat length].
  rewrite length_app, length_word_bytes, IH. lia.
Qed.

Lemma words_bytes_cons e w k : words_bytes e (w :: k) = word_bytes e w ++ words_bytes e k.
Proof. done. Qed.

(** The first three words of a key. *)
Lemma ref_add_words e x y z k s :
  in_u 32 x -> in_u 32 y -> in_u 32 z ->
  ref_add e (words_bytes e (x :: y :: z :: k)) s = add_abc s x y z /\
  ref_add e (words_bytes e [x; y]) s = add_abc s x y 0 /\
  ref_add e (words_bytes e [x]) s = add_abc s x 0 0 /\
  drop 12 (words_bytes e (x :: y :: z :: k)) = words_bytes e k.
Proof.
  intros Hx Hy Hz. unfold ref_add. rewrite !words_bytes_cons.
  pose proof (fun r => proj1 (drop_words e x y z r)) as D4.
  pose proof (fun r => proj1 (proj2 (drop_words e x y z r))) as D8.
  pose proof (fun r => proj2 (proj2 (drop_words e x y z r))) as D12.
  rewrite D12, !D8, !D4, !ref_word_bytes by done. split_and!; try done.
  by destruct e.
Qed.

Lemma hash_words_ref e k s fuel :
  Forall (in_u 32) k -> in_abc s -> (4 * length k <= fuel)%nat ->
  hash_words k s = ref_hash e (S fuel) (words_bytes e k) s.
Proof.
  remember (length k) as n eqn:En. revert k s fuel En.
  induction n as [n IH] using lt_wf_ind. intros k s fuel -> Hk Hs Hf.
  destruct k as [|x [|y [|z k]]].
  - done.
  - apply Forall_cons in Hk as [Hx _]. cbn [ref_hash]. rewrite length_words_bytes.
    destruct (ref_add_words e x x x [] s Hx Hx Hx) as (_ & _ & -> & _). done.
  - apply Forall_cons in Hk as [Hx Hk]. apply Forall_cons in Hk as [Hy _]. cbn [ref_hash].
    rewrite length_words_bytes.
    destruct (ref_add_words e x y x [] s Hx Hy Hx) as (_ & -> & _). done.
  - apply Forall_cons in Hk as [Hx Hk]. apply Forall_cons in Hk as [Hy Hk].
    apply Forall_cons in Hk as [Hz Hk]. cbn [ref_hash]. rewrite length_words_bytes.
    destruct (ref_add_words e x y z k s Hx Hy Hz) as (-> & _ & _ & ->).
    destruct k as [|w k]; [done|]. cbn [length] in *.
    replace (12 <? 4 * S (S (S (S (length k)))))%nat with true by (symmetry; apply Nat.ltb_lt; lia).
    destruct fuel as [|fuel]; [lia|].
    rewrite <- (IH (S (length k))); try done; try lia. apply mix_range, add_abc_range.
Qed.

Lemma init_words n seed : u32 (0xdeadbeef + u32 (Z.shiftl (u32 (Z.of_nat n)) 2) + seed) = init_abc (4 * n) seed.
Proof.
  unfold init_abc. do 2 f_equal. f_equal. rewrite Z.shiftl_mul_pow2 by lia.
  unfold wrap. rewrite Zmult_mod_idemp_l. f_equal. lia.
Qed.

(** the identities the comments promise: [hashword] on an array of words is
    [hashlittle] on its little-endian bytes and [hashbig] on its big-endian
    bytes; [hashlittle2] and [hashword2] with a zero second seed return the
    hash of [hashlittle] and [hashword] as their primary value. *)
Theorem hash_identities e align rd rd' k initval n :
  Forall (in_u 32) k -> (forall i, in_u 8 (rd i)) -> (forall i, in_u 8 (rd' i)) ->
  key_bytes rd 0 (4 * length k) = words_bytes Little k ->
  key_bytes rd' 0 (4 * length k) = words_bytes Big k ->
  hashword k initval = hashlittle e align rd (4 * length k) initval /\
  hashword k initval = hashbig e align rd' (4 * length k) initval /\
  (hashlittle2 e align rd n initval 0).1 = hashlittle e align rd n initval /\
  (Z.of_nat (length k) < 2 ^ 62 -> (hashword2 k initval 0).1 = hashword k initval).
Proof.
  intros Hk Hrd Hrd' Eb Eb'. pose proof (init_in (4 * length k) initval) as Hi. split_and!.
  - unfold hashword, hashlittle. cbv zeta. fold (init_abc (4 * length k) initval).
    rewrite init_words, little_abc_ref, Eb by done. by rewrite (hash_words_ref Little _ _ (4 * length k)).
  - unfold hashword, hashbig. cbv zeta. fold (init_abc (4 * length k) initval).
    rewrite init_words, big_abc_ref, Eb' by done. by rewrite (hash_words_ref Big _ _ (4 * length k)).
  - unfold hashlittle2, hashlittle. cbv zeta. rewrite Z.add_0_r, wrap_idem.
    by destruct (little_abc _ _ _ _ _) as [[a b] c].
  - intros Hl. unfold hashword2, hashword. cbv zeta. rewrite Z.add_0_r, wrap_idem.
    rewrite Z.shiftl_mul_pow2 by lia. rewrite (wrap_small 64) by (unfold in_u; lia).
    rewrite Z.shiftl_mul_pow2 by lia.
    replace (u32 (Z.of_nat (length k) * 2 ^ 2)) with (u32 (u32 (Z.of_nat (length k)) * 2 ^ 2))
      by (unfold wrap; by rewrite Zmult_mod_idemp_l).
    by destruct (hash_words _ _) as [[a b] c].
Qed.

(** The words 0x04030201 and 5. *)
Lemma hash_identities_witness :
  hashword [0x04030201; 5] 9 = hashlittle Little 2 (fun i => default 0 ([1; 2; 3; 4; 5] !! i)) 8 9.
Proof.
  refine (proj1 (hash_identities Little 2 (fun i => default 0 ([1; 2; 3; 4; 5] !! i))
    (fun i => default 0 ([4; 3; 2; 1; 0; 0; 0; 5] !! i)) [0x04030201; 5] 9 8 _ _ _ _ _)).
  - repeat constructor; vm_compute; congruence.
  - intros [|[|[|[|[|i]]]]]; vm_compute; split; congruence.
  - intros [|[|[|[|[|[|[|[|i]]]]]]]]; vm_compute; split; congruence.
  - vm_compute. reflexivity.
  - vm_compute. reflexivity.
Defined.

(** "Four score and seven years ago". *)
Definition four_score : list Z :=
  [70; 111; 117; 114; 32; 115; 99; 111; 114; 101; 32; 97; 110; 100; 32; 115; 101; 118; 101;
   110; 32; 121; 101; 97; 114; 115; 32; 97; 103; 111].
Definition four_score_rd : reader := fun i => default 0 (four_score !! i).

(** the hash computes the eight vectors that the comments of the source's self
    test ([driver5]) list. *)
Theorem self_test_vectors :
  hashlittle2 Little 0 (fun _ => 0) 0 0 0 = (0xdeadbeef, 0xdeadbeef) /\
  hashlittle2 Little 0 (fun _ => 0) 0 0 0xdeadbeef = (0xbd5b7dde, 0xdeadbeef) /\
  hashlittle2 Little 0 (fun _ => 0) 0 0xdeadbeef 0xdeadbeef = (0x9c093ccd, 0xbd5b7dde) /\
  hashlittle2 Little 0 four_score_rd 30 0 0 = (0x17770551, 0xce7226e6) /\
  hashlittle2 Little 0 four_score_rd 30 0 1 = (0xe3607cae, 0xbd371de4) /\
  hashlittle2 Little 0 four_score_rd 30 1 0 = (0xcd628161, 0x6cbea4b3) /\
  hashlittle Little 0 four_score_rd 30 0 = 0x17770551 /\
  hashlittle Little 0 four_score_rd 30 1 = 0xcd628161.
Proof. split_and!; vm_compute; reflexivity. Qed.
