(* ===== verification/MapDef.v ===== *)
(** * Maps: what the four kinds share (lib/bpf/ubpf_int.h)

    Keys and values are the bytes found behind the pointers a helper receives;
    an operation that needs more bytes than there are is undefined ([None]).
    A lookup returns the bytes its result points to. *)

From S2P Require Import Prelude Lookup3 Lookup3Props.

Inductive ubpf_map_type : Set :=
| UBPF_MAP_TYPE_ARRAY
| UBPF_MAP_TYPE_BLOOMFILTER
| UBPF_MAP_TYPE_COUNTMIN
| UBPF_MAP_TYPE_HASHMAP.

#[export] Instance ubpf_map_type_eq_dec : EqDecision ubpf_map_type.
Proof. solve_decision. Defined.

(** The value of the enumerator, and back. *)
Definition map_type_code (t : ubpf_map_type) : Z :=
  match t with
  | UBPF_MAP_TYPE_ARRAY => 1
  | UBPF_MAP_TYPE_BLOOMFILTER => 2
  | UBPF_MAP_TYPE_COUNTMIN => 3
  | UBPF_MAP_TYPE_HASHMAP => 4
  end.
Definition map_type_of_code (c : Z) : option ubpf_map_type :=
  if c =? 1 then Some UBPF_MAP_TYPE_ARRAY
  else if c =? 2 then Some UBPF_MAP_TYPE_BLOOMFILTER
  else if c =? 3 then Some UBPF_MAP_TYPE_COUNTMIN
  else if c =? 4 then Some UBPF_MAP_TYPE_HASHMAP
  else None.

(** [type] is kept as the integer read from the object file. *)
Record ubpf_map_def : Set := mk_def {
  def_type : Z;
  def_key_size : Z;
  def_value_size : Z;
  def_max_entries : Z;
  def_nb_hash_functions : Z
}.

Record wf_def (d : ubpf_map_def) : Prop := {
  wf_key_size : in_u 32 (def_key_size d);
  wf_value_size : in_u 32 (def_value_size d);
  wf_max_entries : in_u 32 (def_max_entries d);
  wf_nb_hash : in_u 32 (def_nb_hash_functions d)
}.

Abbreviation bytes := (list Z) (only parsing).
Definition wf_bytes (bs : bytes) : Prop := Forall (in_u 8) bs.

(** [n] bytes behind a pointer. *)
Definition read_bytes (bs : bytes) (n : Z) : option bytes :=
  if n <=? Z.of_nat (length bs) then Some (take (Z.to_nat n) bs) else None.

(** Little-endian value of bytes, and the [n] bytes of a value. *)
Fixpoint le_value (bs : bytes) : Z :=
  match bs with [] => 0 | b :: bs' => b + 2 ^ 8 * le_value bs' end.
Fixpoint le_bytes (n : nat) (x : Z) : bytes :=
  match n with O => [] | S n' => u8 x :: le_bytes n' (x / 2 ^ 8) end.

Lemma length_le_bytes n x : length (le_bytes n x) = n.
Proof. revert x. induction n as [|n IH]; intros x; simpl; [done|]. by rewrite IH. Qed.

Lemma le_value_range bs : wf_bytes bs -> in_u (8 * Z.of_nat (length bs)) (le_value bs).
Proof.
  induction 1 as [|b bs Hb _ IH]; [done|]. unfold in_u in *. cbn [le_value length].
  replace (8 * Z.of_nat (S (length bs))) with (8 + 8 * Z.of_nat (length bs)) by lia.
  rewrite Z.pow_add_r by lia. lia.
Qed.

Lemma le_value_bytes n x : in_u (8 * Z.of_nat n) x -> le_value (le_bytes n x) = x.
Proof.
  revert x. induction n as [|n IH]; intros x Hx; unfold in_u in *; cbn [le_bytes le_value].
  - change (8 * Z.of_nat 0) with 0 in Hx. lia.
  - rewrite IH.
    + unfold wrap. Z.div_mod_to_equations. lia.
    + replace (8 * Z.of_nat (S n)) with (8 + 8 * Z.of_nat n) in Hx by lia.
      rewrite Z.pow_add_r in Hx by lia.
      split; [apply Z.div_pos; lia|apply Z.div_lt_upper_bound; lia].
Qed.

Lemma read_bytes_length bs n r : 0 <= n -> read_bytes bs n = Some r -> Z.of_nat (length r) = n.
Proof.
  unfold read_bytes. intros Hn. destruct (Z.leb_spec n (Z.of_nat (length bs))); [|done].
  intros [= <-]. rewrite length_take. lia.
Qed.

Lemma read_bytes_exact bs : read_bytes bs (Z.of_nat (length bs)) = Some bs.
Proof.
  unfold read_bytes. rewrite Z.leb_refl, Nat2Z.id. by rewrite take_ge by lia.
Qed.

(** The hashes of [n] bytes.  The address of the buffer plays no role
    ([hash_variants_agree]): the reader starts at an aligned one. *)
Definition bytes_reader (bs : bytes) : reader := fun i => default 0 (bs !! i).
Definition hash1 (bs : bytes) (n : Z) : Z :=
  hashlittle Little 0 (bytes_reader bs) (Z.to_nat n) 0.
Definition hash2 (bs : bytes) (n : Z) : Z * Z :=
  hashlittle2 Little 0 (bytes_reader bs) (Z.to_nat n) 0 0.

Lemma bytes_reader_range bs i : wf_bytes bs -> in_u 8 (bytes_reader bs i).
Proof.
  intros H. unfold bytes_reader. destruct (bs !! i) as [b|] eqn:E; simpl.
  - by eapply Forall_lookup_1 in E.
  - unfold in_u. lia.
Qed.

(** ** The family of hashes of the Bloom filter and of the sketch *)

(** [h1] and [h2]: one call of [hashlittle] or of [hashlittle2]. *)
Definition hash_pair (nb : Z) (value : bytes) (n : Z) : Z * Z :=
  if nb =? 1 then (hash1 value n, 0) else hash2 value n.

(** The [switch] on [i]. *)
Definition nth_hash (h1 h2 i : Z) : Z :=
  if i =? 0 then h1 else if i =? 1 then h2 else u32 (h1 + u32 (i * h2)).

Definition hashes (nb : Z) (value : bytes) (n : Z) : list (Z * Z) :=
  let '(h1, h2) := hash_pair nb value n in
  (fun i => (i, nth_hash h1 h2 i)) <$> seqZ 0 nb.
