(* ===== verification/ArrayMap.v ===== *)
(** * Array maps (lib/bpf/ubpf_array.c)

    The data is one block of [max_entries * value_size] bytes.  The key is read
    as a 64-bit index whatever the key size of the map. *)

From S2P Require Import Prelude Lookup3 Lookup3Props MapDef.

Definition ubpf_array_create (d : ubpf_map_def) : bytes :=
  replicate (Z.to_nat (def_max_entries d * def_value_size d)) 0.

(** [*((const uint64_t * )key)]. *)
Definition array_index (key : bytes) : option Z := le_value <$> read_bytes key 8.

Section Array.
Context (max_entries value_size : Z).

(** The offset of an entry in the block; the outer option is the C semantics,
    the inner one a NULL result. *)
Definition ubpf_array_lookup (key : bytes) : option (option Z) :=
  idx ← array_index key;
  Some (if max_entries <=? idx then None else Some (idx * value_size)).

(** Returns the status and the block. *)
Definition ubpf_array_update (data : bytes) (key value : bytes) : option (Z * bytes) :=
  idx ← array_index key;
  if max_entries <=? idx then Some (-5, data)
  else
    v ← read_bytes value value_size;
    let off := value_size * idx in
    if off + value_size <=? Z.of_nat (length data)
    then Some (0, list_inserts (Z.to_nat off) v data)
    else None.

(** The bytes of the entry at an offset. *)
Definition array_entry (data : bytes) (off : Z) : bytes :=
  take (Z.to_nat value_size) (drop (Z.to_nat off) data).

Definition wf_array (data : bytes) : Prop :=
  0 <= max_entries /\ 0 <= value_size /\ Z.of_nat (length data) = max_entries * value_size.

Lemma wf_array_create d :
  wf_def d -> max_entries = def_max_entries d -> value_size = def_value_size d ->
  wf_array (ubpf_array_create d).
Proof using.
  intros [_ [Hv _] [Hm _] _] Em Ev. unfold wf_array, ubpf_array_create.
  rewrite length_replicate, Em, Ev. split; [done|]. split; [done|]. nia.
Qed.

(** Writing entry [i] and reading entry [j]. *)
Lemma array_entry_inserts data v i j :
  wf_array data -> 0 <= i < max_entries -> 0 <= j < max_entries ->
  Z.of_nat (length v) = value_size ->
  array_entry (list_inserts (Z.to_nat (value_size * i)) v data) (j * value_size) =
  if decide (i = j) then v else array_entry data (j * value_size).
Proof using.
  intros (Hm & Hs & Hl) Hi Hj Hv. unfold array_entry.
  assert (value_size * i + value_size <= Z.of_nat (length data)) as Hend by (rewrite Hl; nia).
  apply list_eq. intros k. destruct (decide (k < Z.to_nat value_size)%nat) as [Hk|Hk].
  - rewrite lookup_take_lt, lookup_drop by lia. case_decide as Hij.
    + subst j. rewrite list_lookup_inserts by nia.
      f_equal. nia.
    + rewrite lookup_take_lt, lookup_drop by lia.
      destruct (decide (j < i)).
      * rewrite list_lookup_inserts_lt by nia. done.
      * rewrite list_lookup_inserts_ge by nia. done.
  - rewrite lookup_take_ge by lia. case_decide.
    + rewrite lookup_ge_None_2 by lia. done.
    + rewrite lookup_take_ge by lia. done.
Qed.

(** C23: an array map is an array: the lookup returns NULL exactly for an index past
    the end and otherwise the offset of an entry that lies inside the block; an
    update past the end returns -5 and changes nothing; any other update
    returns 0, keeps the size of the block, stores the value at the index, and
    leaves every other entry as it was. *)
Theorem array_map_correct data key value idx v :
  wf_array data -> array_index key = Some idx -> 0 <= idx -> read_bytes value value_size = Some v ->
  (idx >= max_entries ->
     ubpf_array_lookup key = Some None /\ ubpf_array_update data key value = Some (-5, data)) /\
  (idx < max_entries ->
     ubpf_array_lookup key = Some (Some (idx * value_size)) /\
     idx * value_size + value_size <= Z.of_nat (length data) /\
     exists data', ubpf_array_update data key value = Some (0, data') /\ wf_array data' /\
       forall j, 0 <= j < max_entries ->
         array_entry data' (j * value_size) =
         if decide (idx = j) then v else array_entry data (j * value_size)).
Proof using.
  intros Hwf Hk Hi Hv. pose proof Hwf as (Hm & Hs & Hl).
  unfold ubpf_array_lookup, ubpf_array_update. rewrite Hk, Hv. cbn [mbind option_bind].
  destruct (Z.leb_spec max_entries idx); [split; [done|lia]|]. split; [lia|]. intros _.
  assert (value_size * idx + value_size <= Z.of_nat (length data)) as Hend by (rewrite Hl; nia).
  split; [done|]. split; [lia|].
  destruct (Z.leb_spec (value_size * idx + value_size) (Z.of_nat (length data))); [|lia].
  eexists. split; [done|]. split.
  - unfold wf_array. rewrite length_inserts. done.
  - intros j Hj. apply array_entry_inserts; try done. by eapply read_bytes_length.
Qed.
End Array.

(** Three entries of two bytes; entry 1 is written. *)
Lemma array_map_correct_witness :
  exists data', ubpf_array_update 3 2 [0; 0; 0; 0; 0; 0] [1; 0; 0; 0; 0; 0; 0; 0] [7; 8] = Some (0, data') /\
                array_entry 2 data' (1 * 2) = [7; 8].
Proof.
  destruct (proj2 (array_map_correct 3 2 [0; 0; 0; 0; 0; 0] [1; 0; 0; 0; 0; 0; 0; 0] [7; 8] 1 [7; 8]
    ltac:(repeat split; simpl; lia) eq_refl ltac:(lia) eq_refl) ltac:(lia)) as (_ & _ & data' & E & _ & H).
  exists data'. split; [exact E|]. exact (H 1 ltac:(lia)).
Defined.
