(* ===== verification/HashMap.v ===== *)
(** * Hash maps (lib/bpf/ubpf_hashmap.c, ubpf_hashmap.h)

    A table of buckets, each a list of elements; [ovs_list_insert(head, e)]
    puts [e] before the head of a circular list, that is, at the end.  The
    table is refined to a finite map from keys to values: [hashmap_refines]. *)

From S2P Require Import Prelude Lookup3 Lookup3Props MapDef.

(** ** Rounding *)

Definition round_up (x y : Z) : Z := u32 (Z.lor (u32 (x - 1)) (y - 1) + 1).

Definition smear (v : Z) : Z :=
  let v := Z.lor v (Z.shiftr v 1) in
  let v := Z.lor v (Z.shiftr v 2) in
  let v := Z.lor v (Z.shiftr v 4) in
  let v := Z.lor v (Z.shiftr v 8) in
  Z.lor v (Z.shiftr v 16).

Definition round_up_pow_of_two (x : Z) : Z := u32 (smear (u32 (x - 1)) + 1).

(** ** Data *)

(** [key] is followed by padding to a multiple of 8, then by the value. *)
Record hmap_elem : Set := mk_elem {
  e_hash : Z;
  e_key : bytes;
  e_value : bytes
}.

Record hashmap : Set := mk_hashmap {
  buckets : list (list hmap_elem);
  count : Z;
  nb_buckets : Z;
  elem_size : Z
}.

Definition sizeof_hmap_elem : Z := 24.

Definition ubpf_hashmap_create (d : ubpf_map_def) : hashmap :=
  let n := round_up_pow_of_two (def_max_entries d) in
  mk_hashmap (replicate (Z.to_nat n) []) 0 n
    (u32 (sizeof_hmap_elem + round_up (def_key_size d) 8 + def_value_size d)).

Section Ops.
Context (key_size value_size max_entries : Z).

Definition ubpf_hashmap_hash (key : bytes) (key_len : Z) : Z := hash1 key key_len.

Definition select_bucket (hm : hashmap) (hash : Z) : nat :=
  Z.to_nat (Z.land hash (u32 (nb_buckets hm - 1))).

Definition elem_matches (hash : Z) (key : bytes) (e : hmap_elem) : Prop :=
  e_hash e = hash /\ e_key e = key.
#[export] Instance elem_matches_dec hash key e : Decision (elem_matches hash key e).
Proof using. apply _. Defined.

(** The position of the first matching element and the element. *)
Definition lookup_elem_raw (head : list hmap_elem) (hash : Z) (key : bytes)
    : option (nat * hmap_elem) :=
  list_find (elem_matches hash key) head.

Definition ubpf_hashmap_size (hm : hashmap) : Z := count hm.

(** What [dump] appends to the buffer, and the count it returns. *)
Definition ubpf_hashmap_dump (hm : hashmap) : bytes * Z :=
  (concat ((fun b => concat ((fun e => e_key e ++ e_value e) <$> b)) <$> buckets hm), count hm).

(** [None]: outside the C semantics; [Some None]: NULL. *)
Definition ubpf_hashmap_lookup (hm : hashmap) (key : bytes) : option (option bytes) :=
  k ← read_bytes key key_size;
  let hash := ubpf_hashmap_hash k key_size in
  head ← buckets hm !! select_bucket hm hash;
  Some ((fun p => e_value p.2) <$> lookup_elem_raw head hash k).

Definition set_bucket (hm : hashmap) (i : nat) (b : list hmap_elem) (n : Z) : hashmap :=
  mk_hashmap (<[i := b]> (buckets hm)) n (nb_buckets hm) (elem_size hm).

Definition ubpf_hashmap_update (hm : hashmap) (key value : bytes) : option (Z * hashmap) :=
  k ← read_bytes key key_size;
  let hash := ubpf_hashmap_hash k key_size in
  let i := select_bucket hm hash in
  head ← buckets hm !! i;
  match lookup_elem_raw head hash k with
  | None =>
      if max_entries <=? count hm then Some (-4, hm)
      else
        v ← read_bytes value value_size;
        Some (0, set_bucket hm i (head ++ [mk_elem hash k v]) (u32 (count hm + 1)))
  | Some (j, _) =>
      v ← read_bytes value value_size;
      (* inserted at the end, then the old element is unlinked *)
      Some (0, set_bucket hm i (delete j (head ++ [mk_elem hash k v])) (count hm))
  end.

Definition ubpf_hashmap_delete (hm : hashmap) (key : bytes) : option (Z * hashmap) :=
  k ← read_bytes key key_size;
  let hash := ubpf_hashmap_hash k key_size in
  let i := select_bucket hm hash in
  head ← buckets hm !! i;
  match lookup_elem_raw head hash k with
  | None => Some (-4, hm)
  | Some (j, _) => Some (0, set_bucket hm i (delete j head) (u32 (count hm - 1)))
  end.

(** ** The abstract map *)

Definition kv (e : hmap_elem) : bytes * bytes := (e_key e, e_value e).
Definition elems (hm : hashmap) : list hmap_elem := concat (buckets hm).
Definition contents (hm : hashmap) : gmap bytes bytes := list_to_map (kv <$> elems hm).

Definition elem_ok (nb : Z) (i : nat) (e : hmap_elem) : Prop :=
  e_hash e = ubpf_hashmap_hash (e_key e) key_size /\
  Z.to_nat (Z.land (e_hash e) (u32 (nb - 1))) = i /\
  Z.of_nat (length (e_key e)) = key_size /\ Z.of_nat (length (e_value e)) = value_size.

Record wf_hashmap (hm : hashmap) : Prop := {
  wf_nb_buckets : exists k, 0 <= k <= 31 /\ nb_buckets hm = 2 ^ k;
  wf_buckets : length (buckets hm) = Z.to_nat (nb_buckets hm);
  wf_elems : forall i b, buckets hm !! i = Some b -> Forall (elem_ok (nb_buckets hm) i) b;
  wf_keys : NoDup (e_key <$> elems hm);
  wf_count : count hm = Z.of_nat (length (elems hm));
  wf_max : count hm <= max_entries
}.
End Ops.

(** ** Rounding is exact *)

(** Bit [i] of [v] tells whether one of the [n] bits of [x] from [i] on is set. *)
Definition smeared (n x v : Z) : Prop :=
  forall i, 0 <= i -> Z.testbit v i = true <-> exists j, 0 <= j < n /\ Z.testbit x (i + j) = true.

Lemma smeared_one x : smeared 1 x x.
Proof.
  intros i Hi. split.
  - intros H. exists 0. rewrite Z.add_0_r. split; [lia|done].
  - intros (j & Hj & H). by replace (i + j) with i in H by lia.
Qed.

Lemma smeared_double n x v : 0 < n -> smeared n x v -> smeared (2 * n) x (Z.lor v (Z.shiftr v n)).
Proof.
  intros Hn Hs i Hi. rewrite Z.lor_spec, Z.shiftr_spec, orb_true_iff by done.
  rewrite (Hs i), (Hs (i + n)) by lia. split.
  - intros [(j & Hj & H)|(j & Hj & H)].
    + exists j. split; [lia|done].
    + exists (n + j). split; [lia|]. by rewrite Z.add_assoc.
  - intros (j & Hj & H). destruct (Z.ltb_spec j n).
    + left. exists j. split; [lia|done].
    + right. exists (j - n). split; [lia|]. by replace (i + n + (j - n)) with (i + j) by lia.
Qed.

Lemma smear_smeared x : smeared 32 x (smear x).
Proof.
  unfold smear. cbv zeta. change 32 with (2 * (2 * (2 * (2 * (2 * 1))))).
  repeat (apply smeared_double; [lia|]). apply smeared_one.
Qed.

Lemma smear_ones x : in_u 32 x -> 0 < x -> smear x = 2 ^ (Z.log2 x + 1) - 1.
Proof.
  intros Hx Hpos. pose proof (Z.log2_nonneg x).
  assert (Z.log2 x < 32) as Hl by (apply Z.log2_lt_pow2; [done|apply Hx]).
  replace (2 ^ (Z.log2 x + 1) - 1) with (Z.ones (Z.log2 x + 1)) by (rewrite Z.ones_equiv; lia).
  apply Z.bits_inj'. intros i Hi. apply eq_true_iff_eq. rewrite (smear_smeared x i Hi).
  destruct (Z.ltb_spec i (Z.log2 x + 1)).
  - rewrite Z.ones_spec_low by lia. split; [done|]. intros _. exists (Z.log2 x - i). split; [lia|].
    replace (i + (Z.log2 x - i)) with (Z.log2 x) by lia. by apply Z.bit_log2.
  - rewrite Z.ones_spec_high by lia. split; [|done]. intros (j & Hj & H').
    rewrite Z.bits_above_log2 in H' by lia. done.
Qed.

(** [round_up_pow_of_two] returns the smallest power of two that is at least its
    argument, for 1 to 2^31; outside, the 32-bit result is 0, and a hash map
    created with such a size has no bucket at all. *)
Theorem round_up_pow_of_two_exact x :
  in_u 32 x ->
  round_up_pow_of_two x = (if (x =? 0) || (2 ^ 31 <? x) then 0 else 2 ^ Z.log2_up x) /\
  (1 <= x <= 2 ^ 31 -> x <= round_up_pow_of_two x < 2 * x).
Proof.
  intros Hx. unfold in_u in Hx.
  assert (round_up_pow_of_two x = (if (x =? 0) || (2 ^ 31 <? x) then 0 else 2 ^ Z.log2_up x)) as E.
  { unfold round_up_pow_of_two. destruct (Z.eqb_spec x 0) as [->|Hn0]; [reflexivity|]. cbn [orb].
    rewrite (wrap_small 32 (x - 1)) by (unfold in_u; lia).
    destruct (Z.eq_dec x 1) as [->|Hn1]; [reflexivity|].
    rewrite smear_ones by (unfold in_u; lia). rewrite Z.sub_add.
    replace (Z.log2 (x - 1) + 1) with (Z.log2_up x)
      by (rewrite Z.log2_up_eqn by lia; rewrite <- Z.sub_1_r; lia).
    destruct (Z.ltb_spec (2 ^ 31) x).
    - replace (Z.log2_up x) with 32; [reflexivity|].
      symmetry. apply (Z.log2_up_unique x 32); lia.
    - apply wrap_small. unfold in_u. split; [apply Z.pow_nonneg; lia|].
      apply Z.pow_lt_mono_r; [lia..|]. pose proof (Z.log2_up_le_mono x (2 ^ 31) ltac:(lia)) as Hle.
      rewrite Z.log2_up_pow2 in Hle by lia. lia. }
  split; [done|]. intros Hr. rewrite E.
  destruct (Z.eqb_spec x 0), (Z.ltb_spec (2 ^ 31) x); try lia. cbn [orb].
  destruct (Z.eq_dec x 1) as [->|Hn1]; [split; vm_compute; done|].
  pose proof (Z.log2_up_spec x ltac:(lia)) as Hs. pose proof (Z.log2_up_pos x ltac:(lia)).
  replace (2 ^ Z.log2_up x) with (2 * 2 ^ Z.pred (Z.log2_up x)) in *
    by (rewrite <- Z.pow_succ_r by lia; f_equal; lia). lia.
Qed.

Lemma round_up_pow_of_two_exact_witness : 100 <= round_up_pow_of_two 100 < 200.
Proof. apply (round_up_pow_of_two_exact 100); unfold in_u; lia. Defined.

(** ** Refinement *)

(** Replacing one bucket, up to the order of the elements. *)
Lemma concat_insert {A} (bs : list (list A)) i b b' :
  bs !! i = Some b ->
  exists rest, concat bs ≡ₚ b ++ rest /\ concat (<[i := b']> bs) ≡ₚ b' ++ rest.
Proof.
  intros Hi. exists (concat (delete i bs)). revert i Hi.
  induction bs as [|c bs IH]; intros i Hi; [done|]. destruct i as [|i]; simpl in *.
  - by injection Hi as ->.
  - destruct (IH i Hi) as [H1 H2]. cbn [delete list_delete concat]. split.
    + rewrite H1. rewrite !app_assoc. by rewrite (Permutation_app_comm c b).
    + rewrite H2. rewrite !app_assoc. by rewrite (Permutation_app_comm c b').
Qed.

Lemma elem_of_bucket {A} (bs : list (list A)) i b (x : A) :
  bs !! i = Some b -> x ∈ b -> x ∈ concat bs.
Proof. intros Hi Hx. destruct (concat_insert bs i b b Hi) as (r & -> & _). apply elem_of_app. by left. Qed.

Lemma delete_app_l {A} (l k : list A) j :
  (j < length l)%nat -> delete j (l ++ k) = delete j l ++ k.
Proof.
  revert j. induction l as [|x l IH]; intros j Hj; simpl in *; [lia|].
  destruct j as [|j]; simpl; [done|]. f_equal. apply IH. lia.
Qed.

Section Refine.
Context (key_size value_size max_entries : Z).
Context (Hks : 0 <= key_size) (Hvs : 0 <= value_size) (Hmax : in_u 32 max_entries).

Abbreviation wf := (wf_hashmap key_size value_size max_entries).
Abbreviation hash_of := (fun k => ubpf_hashmap_hash k key_size).

Lemma select_lt hm h : wf hm -> (select_bucket hm h < length (buckets hm))%nat.
Proof using.
  intros [(k & Hk & En) Hl _ _ _ _]. unfold select_bucket. rewrite Hl, En.
  pose proof (Z.pow_pos_nonneg 2 k ltac:(lia) ltac:(lia)).
  pose proof (Z.pow_le_mono_r 2 k 31 ltac:(lia) ltac:(lia)).
  rewrite wrap_small by (unfold in_u; lia).
  replace (2 ^ k - 1) with (Z.ones k) by (rewrite Z.ones_equiv; lia).
  rewrite Z.land_ones by lia. pose proof (Z.mod_pos_bound h (2 ^ k) ltac:(lia)). lia.
Qed.

Lemma bucket_of hm k :
  wf hm -> exists b, buckets hm !! select_bucket hm (hash_of k) = Some b.
Proof using. intros Hwf. apply lookup_lt_is_Some_2. by apply select_lt. Qed.

(** An element lies in the bucket of its key. *)
Lemma elem_in_its_bucket hm e :
  wf hm -> e ∈ elems hm ->
  elem_ok key_size value_size (nb_buckets hm) (select_bucket hm (hash_of (e_key e))) e /\
  exists b, buckets hm !! select_bucket hm (hash_of (e_key e)) = Some b /\ e ∈ b.
Proof using.
  intros Hwf He. unfold elems in He.
  assert (exists b, b ∈ buckets hm /\ e ∈ b) as (b & Hb & Heb).
  { revert He. generalize (buckets hm). induction l as [|c l IH]; simpl; intros He.
    - by apply not_elem_of_nil in He.
    - apply elem_of_app in He as [He|He].
      + exists c. split; [apply elem_of_cons; by left|done].
      + destruct (IH He) as (b & Hb & Heb). exists b. split; [apply elem_of_cons; by right|done]. }
  apply list_elem_of_lookup_1 in Hb as (i & Hi).
  pose proof (wf_elems _ _ _ _ Hwf _ _ Hi) as Hall. rewrite Forall_forall in Hall.
  pose proof (Hall _ Heb) as Hok. destruct Hok as (Hh & Hidx & Hk & Hv).
  assert (select_bucket hm (hash_of (e_key e)) = i) as Esel.
  { unfold select_bucket. by rewrite <- Hh. }
  rewrite Esel. split; [done|]. by exists b.
Qed.

Lemma NoDup_kv hm : wf hm -> NoDup ((kv <$> elems hm).*1).
Proof using. intros Hwf. rewrite <- list_fmap_compose. apply (wf_keys _ _ _ _ Hwf). Qed.

(** The search in the bucket finds the element with the key, if there is one. *)
Lemma lookup_raw_spec hm k b :
  wf hm -> buckets hm !! select_bucket hm (hash_of k) = Some b ->
  match lookup_elem_raw b (hash_of k) k with
  | Some (j, e) => b !! j = Some e /\ e_key e = k /\ contents hm !! k = Some (e_value e)
  | None => contents hm !! k = None
  end.
Proof using.
  intros Hwf Hb. unfold lookup_elem_raw. destruct (list_find _ b) as [[j e]|] eqn:E.
  - apply list_find_Some in E as (Hj & [_ Hk] & _). split_and!; try done.
    unfold contents. apply elem_of_list_to_map_1; [by apply NoDup_kv|].
    apply list_elem_of_fmap. exists e. unfold kv. rewrite Hk. split; [done|].
    eapply elem_of_bucket; [done|]. by eapply list_elem_of_lookup_2.
  - apply list_find_None in E. unfold contents. apply not_elem_of_list_to_map.
    rewrite <- list_fmap_compose, list_elem_of_fmap. intros (e & Ek & He).
    change (k = e_key e) in Ek. subst k.
    destruct (elem_in_its_bucket hm e Hwf He) as [Hok (b' & Hb' & Heb)].
    rewrite Hb in Hb'. injection Hb' as <-. rewrite Forall_forall in E.
    apply (E e Heb). split; [apply Hok|done].
Qed.

Lemma contents_size hm : wf hm -> Z.of_nat (size (contents hm)) = count hm.
Proof using.
  intros Hwf. unfold contents. rewrite map_size_list_to_map by by apply NoDup_kv.
  rewrite length_fmap. symmetry. apply (wf_count _ _ _ _ Hwf).
Qed.

(** Installing a new bucket whose elements are in place and whose keys, with
    those of the other buckets, are all different. *)
Lemma set_bucket_wf hm i b b' rest n :
  wf hm -> buckets hm !! i = Some b -> concat (buckets hm) ≡ₚ b ++ rest ->
  concat (<[i := b']> (buckets hm)) ≡ₚ b' ++ rest ->
  Forall (elem_ok key_size value_size (nb_buckets hm) i) b' -> NoDup (e_key <$> b' ++ rest) ->
  n = Z.of_nat (length (b' ++ rest)) -> n <= max_entries ->
  wf (set_bucket hm i b' n) /\
  contents (set_bucket hm i b' n) = list_to_map (kv <$> b' ++ rest).
Proof using.
  intros Hwf Hi H1 H2 Hok Hnd Hn Hle. unfold set_bucket. split.
  - destruct Hwf. split; simpl; try done.
    + by rewrite length_insert.
    + intros j c Hj. destruct (decide (i = j)) as [->|Hne].
      * rewrite list_lookup_insert_eq in Hj by (by eapply lookup_lt_Some). by injection Hj as <-.
      * rewrite list_lookup_insert_ne in Hj by done. eauto.
    + unfold elems. simpl. by rewrite H2.
    + unfold elems. simpl. by rewrite H2.
  - unfold contents, elems. simpl. symmetry. apply list_to_map_proper.
    + by rewrite <- list_fmap_compose.
    + by rewrite H2.
Qed.

Lemma list_to_map_elems (l l' : list hmap_elem) :
  NoDup (e_key <$> l) -> l ≡ₚ l' -> (list_to_map (kv <$> l) : gmap bytes bytes) = list_to_map (kv <$> l').
Proof using.
  intros Hnd Hp. apply list_to_map_proper; [by rewrite <- list_fmap_compose|by rewrite Hp].
Qed.

(** The element a successful search finds, taken out of the table. *)
Lemma found_split hm k b j e rest :
  wf hm -> concat (buckets hm) ≡ₚ b ++ rest -> b !! j = Some e -> e_key e = k ->
  NoDup (k :: (e_key <$> delete j b ++ rest)) /\
  contents hm = <[k := e_value e]> (list_to_map (kv <$> delete j b ++ rest)) /\
  length (b ++ rest) = S (length (delete j b ++ rest)).
Proof using.
  intros Hwf Hp Hj Hk.
  assert (b ++ rest ≡ₚ e :: (delete j b ++ rest)) as Hp'.
  { by rewrite (delete_Permutation b j e Hj) at 1. }
  assert (NoDup (e_key <$> e :: (delete j b ++ rest))) as Hnd.
  { rewrite <- Hp', <- Hp. apply (wf_keys _ _ _ _ Hwf). }
  split_and!.
  - rewrite <- Hk. exact Hnd.
  - unfold contents, elems. rewrite (list_to_map_elems _ (e :: (delete j b ++ rest))).
    + rewrite <- Hk. done.
    + apply (wf_keys _ _ _ _ Hwf).
    + by rewrite Hp, Hp'.
  - by rewrite Hp'.
Qed.

Lemma Forall_delete_nth (P : hmap_elem -> Prop) l j : Forall P l -> Forall P (delete j l).
Proof using.
  intros H. apply Forall_forall. intros x Hx. rewrite Forall_forall in H. apply H.
  eapply elem_of_submseteq; [exact Hx|]. apply sublist_submseteq, sublist_delete.
Qed.

Lemma new_elem_ok hm k v :
  Z.of_nat (length k) = key_size -> Z.of_nat (length v) = value_size ->
  elem_ok key_size value_size (nb_buckets hm) (select_bucket hm (hash_of k)) (mk_elem (hash_of k) k v).
Proof using. intros Hk Hv. by split_and!. Qed.

Lemma new_elem_perm (l r : list hmap_elem) x : (l ++ [x]) ++ r ≡ₚ x :: (l ++ r).
Proof using. rewrite <- app_assoc. simpl. symmetry. apply Permutation_middle. Qed.

(** [update] of a key that is there. *)
Lemma hashmap_replace hm k v b j e :
  wf hm -> Z.of_nat (length k) = key_size -> Z.of_nat (length v) = value_size ->
  buckets hm !! select_bucket hm (hash_of k) = Some b -> b !! j = Some e -> e_key e = k ->
  let hm' := set_bucket hm (select_bucket hm (hash_of k))
               (delete j (b ++ [mk_elem (hash_of k) k v])) (count hm) in
  wf hm' /\ contents hm' = <[k := v]> (contents hm).
Proof using.
  intros Hwf Hlk Hlv Hb Hj Hek. set (new := mk_elem (hash_of k) k v). cbv zeta.
  destruct (concat_insert _ _ _ (delete j (b ++ [new])) Hb) as (rest & H1 & H2).
  rewrite delete_app_l in * by (by eapply lookup_lt_Some).
  destruct (found_split hm k b j e rest Hwf H1 Hj Hek) as (Hnd & Hcon & Hlen).
  assert (NoDup (e_key <$> (delete j b ++ [new]) ++ rest)) as Hnd'.
  { by rewrite (new_elem_perm (delete j b) rest new). }
  pose proof (wf_elems _ _ _ _ Hwf _ _ Hb) as Hball.
  destruct (set_bucket_wf hm _ b (delete j b ++ [new]) rest (count hm) Hwf Hb H1 H2) as [Hw Hc'];
    try done.
  - apply Forall_app. split; [by apply Forall_delete_nth|]. constructor; [by apply new_elem_ok|done].
  - rewrite (wf_count _ _ _ _ Hwf). unfold elems. rewrite H1, Hlen.
    by rewrite (new_elem_perm (delete j b) rest new).
  - apply (wf_max _ _ _ _ Hwf).
  - split; [done|]. rewrite Hc', Hcon, insert_insert_eq.
    by rewrite (list_to_map_elems _ _ Hnd' (new_elem_perm _ _ _)).
Qed.

(** [update] of a new key. *)
Lemma hashmap_insert_new hm k v b :
  wf hm -> Z.of_nat (length k) = key_size -> Z.of_nat (length v) = value_size ->
  buckets hm !! select_bucket hm (hash_of k) = Some b ->
  contents hm !! k = None -> count hm < max_entries ->
  let hm' := set_bucket hm (select_bucket hm (hash_of k))
               (b ++ [mk_elem (hash_of k) k v]) (u32 (count hm + 1)) in
  wf hm' /\ contents hm' = <[k := v]> (contents hm).
Proof using Hmax.
  intros Hwf Hlk Hlv Hb Hr Hlt. set (new := mk_elem (hash_of k) k v). cbv zeta.
  destruct (concat_insert _ _ _ (b ++ [new]) Hb) as (rest & H1 & H2).
  pose proof (wf_count _ _ _ _ Hwf) as Hcnt. unfold elems in Hcnt. rewrite H1 in Hcnt.
  assert (u32 (count hm + 1) = count hm + 1) as Ec
    by (apply wrap_small; unfold in_u in *; lia).
  assert (NoDup (e_key <$> (b ++ [new]) ++ rest)) as Hnd'.
  { rewrite (new_elem_perm b rest new). simpl. constructor.
    - unfold contents in Hr. apply not_elem_of_list_to_map in Hr.
      rewrite <- list_fmap_compose in Hr. unfold elems in Hr. by rewrite H1 in Hr.
    - rewrite <- H1. apply (wf_keys _ _ _ _ Hwf). }
  destruct (set_bucket_wf hm _ b (b ++ [new]) rest (u32 (count hm + 1)) Hwf Hb H1 H2) as [Hw Hc'];
    try done.
  - apply Forall_app. split; [apply (wf_elems _ _ _ _ Hwf _ _ Hb)|].
    constructor; [by apply new_elem_ok|done].
  - rewrite (new_elem_perm b rest new). simpl. lia.
  - lia.
  - split; [done|]. rewrite Hc', (list_to_map_elems _ _ Hnd' (new_elem_perm _ _ _)).
    unfold contents, elems. simpl. f_equal. apply list_to_map_elems; [|done].
    rewrite <- H1. apply (wf_keys _ _ _ _ Hwf).
Qed.

Lemma hashmap_update_spec hm key value k v :
  wf hm -> read_bytes key key_size = Some k -> read_bytes value value_size = Some v ->
  if decide (contents hm !! k = None /\ max_entries <= count hm)
  then ubpf_hashmap_update key_size value_size max_entries hm key value = Some (-4, hm)
  else exists hm', ubpf_hashmap_update key_size value_size max_entries hm key value = Some (0, hm') /\
         wf hm' /\ contents hm' = <[k := v]> (contents hm).
Proof using Hks Hvs Hmax.
  intros Hwf Hk Hv. pose proof (read_bytes_length _ _ _ Hks Hk) as Hlk.
  pose proof (read_bytes_length _ _ _ Hvs Hv) as Hlv.
  destruct (bucket_of hm k Hwf) as (b & Hb). pose proof (lookup_raw_spec hm k b Hwf Hb) as Hr.
  unfold ubpf_hashmap_update. rewrite Hk. cbn [mbind option_bind]. rewrite Hb. cbn [mbind option_bind].
  destruct (lookup_elem_raw b (hash_of k) k) as [[j e]|] eqn:E.
  - destruct Hr as (Hj & Hek & Hc). rewrite decide_False by (intros [? _]; congruence).
    rewrite Hv. cbn [mbind option_bind]. eexists. split; [done|].
    by apply (hashmap_replace hm k v b j e).
  - rewrite Hr. destruct (Z.leb_spec max_entries (count hm)); [by rewrite decide_True|].
    rewrite decide_False by (intros [_ ?]; lia). rewrite Hv. cbn [mbind option_bind].
    eexists. split; [done|]. by apply hashmap_insert_new.
Qed.

(** [delete]. *)
Lemma hashmap_delete_spec hm key k :
  wf hm -> read_bytes key key_size = Some k ->
  if decide (contents hm !! k = None)
  then ubpf_hashmap_delete key_size hm key = Some (-4, hm)
  else exists hm', ubpf_hashmap_delete key_size hm key = Some (0, hm') /\
         wf hm' /\ contents hm' = delete k (contents hm).
Proof using Hks Hmax.
  intros Hwf Hk. destruct (bucket_of hm k Hwf) as (b & Hb).
  pose proof (lookup_raw_spec hm k b Hwf Hb) as Hr.
  unfold ubpf_hashmap_delete. rewrite Hk. cbn [mbind option_bind]. rewrite Hb. cbn [mbind option_bind].
  destruct (lookup_elem_raw b (hash_of k) k) as [[j e]|] eqn:E; [|by rewrite decide_True].
  destruct Hr as (Hj & Hek & Hc). rewrite decide_False by congruence.
  destruct (concat_insert _ _ _ (delete j b) Hb) as (rest & H1 & H2).
  destruct (found_split hm k b j e rest Hwf H1 Hj Hek) as (Hnd & Hcon & Hlen).
  pose proof (wf_count _ _ _ _ Hwf) as Hcnt. unfold elems in Hcnt. rewrite H1, Hlen in Hcnt.
  pose proof (wf_max _ _ _ _ Hwf).
  assert (u32 (count hm - 1) = Z.of_nat (length (delete j b ++ rest))) as En.
  { unfold in_u in *. rewrite wrap_small by (unfold in_u; lia). lia. }
  apply NoDup_cons in Hnd as [Hni Hnd]. eexists. split; [done|].
  destruct (set_bucket_wf hm _ b (delete j b) rest (u32 (count hm - 1)) Hwf Hb H1 H2) as [Hw Hc'];
    try done.
  - apply Forall_delete_nth, (wf_elems _ _ _ _ Hwf _ _ Hb).
  - rewrite En. lia.
  - split; [done|]. rewrite Hc', Hcon. symmetry. apply delete_insert_id.
    apply not_elem_of_list_to_map. by rewrite <- list_fmap_compose.
Qed.

Lemma hashmap_lookup_spec hm key k :
  wf hm -> read_bytes key key_size = Some k ->
  ubpf_hashmap_lookup key_size hm key = Some (contents hm !! k).
Proof using.
  intros Hwf Hk. destruct (bucket_of hm k Hwf) as (b & Hb).
  pose proof (lookup_raw_spec hm k b Hwf Hb) as Hr.
  unfold ubpf_hashmap_lookup. rewrite Hk. cbn [mbind option_bind]. rewrite Hb. cbn [mbind option_bind].
  destruct (lookup_elem_raw b (hash_of k) k) as [[j e]|].
  - destruct Hr as (_ & _ & ->). done.
  - by rewrite Hr.
Qed.
End Refine.

Lemma wf_hashmap_create d :
  wf_def d -> 1 <= def_max_entries d <= 2 ^ 31 ->
  wf_hashmap (def_key_size d) (def_value_size d) (def_max_entries d) (ubpf_hashmap_create d) /\
  contents (ubpf_hashmap_create d) = ∅.
Proof.
  intros Hd Hm. assert (exists k, 0 <= k <= 31 /\ round_up_pow_of_two (def_max_entries d) = 2 ^ k) as (k & Hk & E).
  { unfold round_up_pow_of_two. destruct (Z.eq_dec (def_max_entries d) 1) as [->|Hn1].
    { exists 0. split; [lia|reflexivity]. }
    set (x := def_max_entries d) in *. rewrite (wrap_small 32 (x - 1)) by (unfold in_u; lia).
    rewrite smear_ones by (unfold in_u; lia). rewrite Z.sub_add.
    assert (0 <= Z.log2 (x - 1) < 31) by (split; [apply Z.log2_nonneg|apply Z.log2_lt_pow2; lia]).
    exists (Z.log2 (x - 1) + 1). split; [lia|]. apply wrap_small.
    pose proof (Z.pow_le_mono_r 2 (Z.log2 (x - 1) + 1) 31).
    pose proof (Z.pow_pos_nonneg 2 (Z.log2 (x - 1) + 1)). unfold in_u. lia. }
  assert (forall n, concat (replicate n ([] : list hmap_elem)) = []) as Hc by (induction n; done).
  unfold ubpf_hashmap_create. cbv zeta. split.
  - split; simpl.
    + by exists k.
    + by rewrite length_replicate.
    + intros i b Hi. apply lookup_replicate in Hi as [-> _]. constructor.
    + unfold elems. simpl. rewrite Hc. constructor.
    + unfold elems. simpl. by rewrite Hc.
    + lia.
  - unfold contents, elems. simpl. by rewrite Hc.
Qed.

(** C24: a hash map refines a finite map from keys to values.  In a well-formed table
    (in particular a fresh one, which is empty, when its size is between 1 and
    2^31) the operations are always defined: lookup returns the value of the
    abstract map; update stores the value, or returns -4 and changes nothing
    when the key is new and the map is full; delete removes the key, or returns
    -4 when it is absent; the table stays well formed and its size is the
    number of keys. *)
Theorem hashmap_refines d hm key value k v :
  wf_def d ->
  let ks := def_key_size d in let vs := def_value_size d in let mx := def_max_entries d in
  (1 <= mx <= 2 ^ 31 ->
     wf_hashmap ks vs mx (ubpf_hashmap_create d) /\ contents (ubpf_hashmap_create d) = ∅) /\
  (wf_hashmap ks vs mx hm -> read_bytes key ks = Some k -> read_bytes value vs = Some v ->
     ubpf_hashmap_size hm = Z.of_nat (size (contents hm)) /\
     ubpf_hashmap_lookup ks hm key = Some (contents hm !! k) /\
     (if decide (contents hm !! k = None /\ mx <= count hm)
      then ubpf_hashmap_update ks vs mx hm key value = Some (-4, hm)
      else exists hm', ubpf_hashmap_update ks vs mx hm key value = Some (0, hm') /\
             wf_hashmap ks vs mx hm' /\ contents hm' = <[k := v]> (contents hm)) /\
     (if decide (contents hm !! k = None)
      then ubpf_hashmap_delete ks hm key = Some (-4, hm)
      else exists hm', ubpf_hashmap_delete ks hm key = Some (0, hm') /\
             wf_hashmap ks vs mx hm' /\ contents hm' = delete k (contents hm))).
Proof.
  intros Hd. pose proof Hd as [[Hk _] [Hv _] Hm _]. cbv zeta. split; [by apply wf_hashmap_create|].
  intros Hwf Hrk Hrv. split_and!.
  - unfold ubpf_hashmap_size. symmetry. by eapply contents_size.
  - by eapply hashmap_lookup_spec.
  - by apply hashmap_update_spec.
  - by eapply hashmap_delete_spec.
Qed.

(** A map of two one-byte entries: a fresh table takes [5 -> 9]. *)
Lemma hashmap_refines_witness :
  exists hm', ubpf_hashmap_update 1 1 2 (ubpf_hashmap_create (mk_def 4 1 1 2 0)) [5] [9] = Some (0, hm') /\
              contents hm' = {[ [5] := [9] ]}.
Proof.
  assert (wf_def (mk_def 4 1 1 2 0)) as Hd by (split; vm_compute; split; congruence).
  destruct (proj1 (hashmap_refines (mk_def 4 1 1 2 0) (ubpf_hashmap_create (mk_def 4 1 1 2 0))
                     [5] [9] [5] [9] Hd) ltac:(simpl; lia)) as [Hwf Hc].
  destruct (proj2 (hashmap_refines (mk_def 4 1 1 2 0) (ubpf_hashmap_create (mk_def 4 1 1 2 0))
                     [5] [9] [5] [9] Hd) Hwf eq_refl eq_refl) as (_ & _ & H & _).
  rewrite decide_False in H by (intros [_ H']; vm_compute in H'; congruence).
  destruct H as (hm' & H1 & _ & H2). exists hm'. split; [exact H1|]. rewrite H2, Hc. reflexivity.
Defined.
