(* ===== verification/BloomFilter.v ===== *)
(** * Bloom filters (lib/bpf/ubpf_bf.c)

    [bits] is the flexible array with all the bytes the allocation leaves room
    for; an index past it is undefined. *)

From S2P Require Import Prelude Lookup3 Lookup3Props MapDef.

Record bloom_filter : Set := mk_bf {
  bf_nb_hash_functions : Z;
  bits : bytes
}.

(** [spare] is what the [sizeof(int) * 3] bytes behind the cleared ones hold. *)
Definition ubpf_bf_create (d : ubpf_map_def) (spare : bytes) : bloom_filter :=
  mk_bf (def_nb_hash_functions d)
    (replicate (Z.to_nat (def_max_entries d / 8)) 0 ++ take 12 spare).

(** [bits[hash / 8] & 1 << hash % 8], for the hashes in order. *)
Fixpoint bf_test (bs : bytes) (m : Z) (hs : list (Z * Z)) : option bool :=
  match hs with
  | [] => Some true
  | (_, h) :: hs' =>
      p ← umod h m;
      b ← bs !! Z.to_nat (p / 8);
      if Z.land b (Z.shiftl 1 (p mod 8)) =? 0 then Some false else bf_test bs m hs'
  end.

Fixpoint bf_set (bs : bytes) (m : Z) (hs : list (Z * Z)) : option bytes :=
  match hs with
  | [] => Some bs
  | (_, h) :: hs' =>
      p ← umod h m;
      b ← bs !! Z.to_nat (p / 8);
      bf_set (<[Z.to_nat (p / 8) := u8 (Z.lor b (Z.shiftl 1 (p mod 8)))]> bs) m hs'
  end.

Section Bloom.
Context (max_entries value_size : Z).

(** [map->max_entries * 8] in [unsigned int]. *)
Definition bf_modulus : Z := u32 (max_entries * 8).

Definition bf_hashes (bf : bloom_filter) (value : bytes) : option (list (Z * Z)) :=
  v ← read_bytes value value_size;
  Some (hashes (bf_nb_hash_functions bf) v value_size).

(** The result points to [ret_true] or to [ret_false]. *)
Definition ubpf_bf_lookup (bf : bloom_filter) (value : bytes) : option bool :=
  hs ← bf_hashes bf value;
  bf_test (bits bf) bf_modulus hs.

Definition ubpf_bf_add (bf : bloom_filter) (value : bytes) : option (Z * bloom_filter) :=
  hs ← bf_hashes bf value;
  bs ← bf_set (bits bf) bf_modulus hs;
  Some (0, mk_bf (bf_nb_hash_functions bf) bs).

(** Adding a list of values. *)
Fixpoint bf_adds (bf : bloom_filter) (vs : list bytes) : option bloom_filter :=
  match vs with
  | [] => Some bf
  | v :: vs' => r ← ubpf_bf_add bf v; bf_adds r.2 vs'
  end.
End Bloom.

(** ** Bits *)

Definition has_bit (bs : bytes) (p : Z) : Prop :=
  exists b, bs !! Z.to_nat (p / 8) = Some b /\ Z.testbit b (p mod 8) = true.

Lemma land_bit b k : 0 <= k -> (Z.land b (Z.shiftl 1 k) =? 0) = negb (Z.testbit b k).
Proof.
  intros Hk. rewrite Z.shiftl_1_l. destruct (Z.testbit b k) eqn:E; simpl.
  - apply Z.eqb_neq. intros H0. assert (Z.testbit (Z.land b (2 ^ k)) k = true) as H.
    { rewrite Z.land_spec, E, Z.pow2_bits_true by lia. done. }
    by rewrite H0, Z.bits_0 in H.
  - apply Z.eqb_eq. apply Z.bits_inj'. intros i Hi. rewrite Z.land_spec, Z.bits_0.
    destruct (Z.eq_dec i k) as [->|Hne]; [by rewrite E|].
    rewrite Z.pow2_bits_false by lia. apply andb_false_r.
Qed.

(** Every bit that is set stays set. *)
Definition bits_le (bs bs' : bytes) : Prop := forall p, has_bit bs p -> has_bit bs' p.

Lemma set_bit_le bs i b k :
  bs !! i = Some b -> 0 <= k < 8 ->
  bits_le bs (<[i := u8 (Z.lor b (Z.shiftl 1 k))]> bs) /\
  (forall p, Z.to_nat (p / 8) = i -> p mod 8 = k -> has_bit (<[i := u8 (Z.lor b (Z.shiftl 1 k))]> bs) p).
Proof.
  intros Hi Hk. pose proof (lookup_lt_Some _ _ _ Hi) as Hlt.
  assert (forall j, 0 <= j < 8 -> Z.testbit (u8 (Z.lor b (Z.shiftl 1 k))) j = Z.testbit b j || (j =? k)) as Hb.
  { intros j Hj. unfold wrap. rewrite Z.mod_pow2_bits_low by lia.
    rewrite Z.lor_spec, Z.shiftl_1_l, Z.pow2_bits_eqb by lia. by rewrite Z.eqb_sym. }
  split.
  - intros p (c & Hc & Hp). unfold has_bit. pose proof (Z.mod_pos_bound p 8 ltac:(lia)).
    destruct (decide (i = Z.to_nat (p / 8))) as [E|Hne].
    + rewrite <- E in *. eexists. split; [by apply list_lookup_insert_eq|]. rewrite Hi in Hc.
      injection Hc as <-. by rewrite Hb, Hp by lia.
    + exists c. split; [|done]. etrans; [by apply list_lookup_insert_ne|done].
  - intros p <- <-. eexists. split; [by apply list_lookup_insert_eq|]. rewrite Hb, Z.eqb_refl by done. apply orb_true_r.
Qed.

Lemma bf_set_sound bs m hs bs' :
  bf_set bs m hs = Some bs' ->
  bits_le bs bs' /\ (forall i h, (i, h) ∈ hs -> m <> 0 /\ has_bit bs' (h mod m)).
Proof.
  revert bs. induction hs as [|[i h] hs IH]; intros bs H; simpl in H.
  - injection H as ->. split; [by intros p|]. intros i h Hin. by apply not_elem_of_nil in Hin.
  - apply bind_Some in H as (p & Hp & H). apply bind_Some in H as (b & Hb & H).
    unfold umod in Hp. destruct (Z.eqb_spec m 0); [done|]. injection Hp as <-.
    pose proof (Z.mod_pos_bound (h mod m) 8 ltac:(lia)) as Hk.
    destruct (set_bit_le bs _ b _ Hb Hk) as [H1 H2]. apply IH in H as [H3 H4].
    split; [intros p Hp; by apply H3, H1|]. intros i' h' Hin.
    apply elem_of_cons in Hin as [[= -> ->]|Hin]; [|eauto]. split; [done|]. apply H3, H2; done.
Qed.

Lemma bf_test_true bs m hs :
  (forall i h, (i, h) ∈ hs -> m <> 0 /\ has_bit bs (h mod m)) <-> bf_test bs m hs = Some true.
Proof.
  induction hs as [|[i h] hs IH]; simpl.
  - split; [done|]. intros _ i h Hin. by apply not_elem_of_nil in Hin.
  - unfold umod. split.
    + intros H. destruct (H i h ltac:(apply elem_of_cons; by left)) as [Hm (b & Hb & Ht)].
      destruct (Z.eqb_spec m 0); [done|]. cbn [mbind option_bind]. rewrite Hb. cbn [mbind option_bind].
      rewrite land_bit, Ht by (apply Z.mod_pos_bound; lia). apply IH.
      intros i' h' Hin. apply (H i'). apply elem_of_cons. by right.
    + destruct (Z.eqb_spec m 0); [done|]. cbn [mbind option_bind].
      destruct (bs !! _) as [b|] eqn:Hb; [|done]. cbn [mbind option_bind].
      rewrite land_bit by (apply Z.mod_pos_bound; lia).
      destruct (Z.testbit b ((h mod m) mod 8)) eqn:Ht; [|done]. simpl. intros H i' h' Hin.
      apply elem_of_cons in Hin as [[= -> ->]|Hin]; [split; [done|by exists b]|].
      by apply (proj2 IH H i').
Qed.

Lemma bf_test_mono bs bs' m hs :
  bits_le bs bs' -> bf_test bs m hs = Some true -> bf_test bs' m hs = Some true.
Proof.
  intros Hle H. apply bf_test_true. intros i h Hin.
  destruct (proj2 (bf_test_true bs m hs) H i h Hin) as [? ?]. split; [done|by apply Hle].
Qed.

Lemma bf_adds_mono mx vs bf l bf' w :
  bf_adds mx vs bf l = Some bf' ->
  bf_nb_hash_functions bf' = bf_nb_hash_functions bf /\
  (ubpf_bf_lookup mx vs bf w = Some true -> ubpf_bf_lookup mx vs bf' w = Some true).
Proof.
  revert bf. induction l as [|v l IH]; intros bf H; simpl in H; [by injection H as ->|].
  apply bind_Some in H as ([r bf1] & Ha & H). unfold ubpf_bf_add in Ha.
  apply bind_Some in Ha as (hs & Hh & Ha). apply bind_Some in Ha as (bs & Hs & [= <- <-]).
  simpl in H. apply IH in H as [H1 H2]. split; [done|]. intros Hw. apply H2.
  unfold ubpf_bf_lookup, bf_hashes in *. simpl.
  apply bind_Some in Hw as (hs' & Hh' & Hw). rewrite Hh'. cbn [mbind option_bind].
  apply bf_set_sound in Hs as [Hle _]. by eapply bf_test_mono.
Qed.

(** no false negatives: after a sequence of additions that all succeed, the
    lookup of every value that was added succeeds and answers true, whatever
    was added before or after it. *)
Theorem bloom_no_false_negatives max_entries value_size bf vs bf' v :
  bf_adds max_entries value_size bf vs = Some bf' -> v ∈ vs ->
  ubpf_bf_lookup max_entries value_size bf' v = Some true.
Proof.
  revert bf. induction vs as [|w vs IH]; intros bf H Hin; [by apply not_elem_of_nil in Hin|].
  simpl in H. apply bind_Some in H as ([r bf1] & Ha & H). simpl in H.
  apply elem_of_cons in Hin as [->|Hin]; [|eauto].
  apply (bf_adds_mono _ _ _ _ _ w) in H as [_ H]. apply H.
  unfold ubpf_bf_add in Ha. apply bind_Some in Ha as (hs & Hh & Ha).
  apply bind_Some in Ha as (bs & Hs & [= <- <-]). unfold ubpf_bf_lookup.
  unfold bf_hashes in *. simpl. rewrite Hh. cbn [mbind option_bind].
  apply bf_test_true. by apply bf_set_sound in Hs as [_ ?].
Qed.

Lemma bloom_no_false_negatives_witness :
  exists bf', bf_adds 16 1 (ubpf_bf_create (mk_def 2 0 1 16 2) (replicate 12 0)) [[1]; [2]; [3]] = Some bf' /\
              ubpf_bf_lookup 16 1 bf' [2] = Some true.
Proof.
  eexists. split; [vm_compute; reflexivity|].
  apply (bloom_no_false_negatives 16 1 (ubpf_bf_create (mk_def 2 0 1 16 2) (replicate 12 0)) [[1]; [2]; [3]]).
  - vm_compute. reflexivity.
  - apply elem_of_cons. right. apply elem_of_cons. by left.
Defined.

(** the hashes are reduced modulo [max_entries * 8] although the array holds
    [max_entries / 8] bytes and 12 spare ones: a fresh filter of 1000 entries
    with one hash function is written outside its allocation by the first
    addition of the one-byte value 1, while its lookup reads outside too. *)
Theorem bloom_filter_out_of_bounds spare :
  let bf := ubpf_bf_create (mk_def 2 0 1 1000 1) spare in
  (length (bits bf) <= 1000 / 8 + 12)%nat /\
  ubpf_bf_add 1000 1 bf [1] = None /\ ubpf_bf_lookup 1000 1 bf [1] = None.
Proof.
  cbv zeta. set (bf := ubpf_bf_create _ _).
  assert (length (bits bf) <= 1000 / 8 + 12)%nat as Hl.
  { unfold bf, ubpf_bf_create. cbn [bits]. rewrite length_app, length_replicate, length_take.
    change (Z.to_nat (def_max_entries (mk_def 2 0 1 1000 1) / 8)) with 125%nat.
    change (1000 / 8)%nat with 125%nat. lia. }
  assert (hashes 1 [1] 1 = [(0, hash1 [1] 1)]) as Eh by reflexivity.
  assert (bits bf !! Z.to_nat (hash1 [1] 1 mod bf_modulus 1000 / 8) = None) as Hn.
  { apply lookup_ge_None_2. change (1000 / 8)%nat with 125%nat in Hl.
    assert (137 <= hash1 [1] 1 mod bf_modulus 1000 / 8) by (vm_compute; congruence). lia. }
  split; [done|]. unfold ubpf_bf_add, ubpf_bf_lookup, bf_hashes.
  change (read_bytes [1] 1) with (Some [1]). cbn [mbind option_bind]. change (bf_nb_hash_functions bf) with 1. rewrite Eh. cbn [bf_set bf_test].
  change (umod (hash1 [1] 1) (bf_modulus 1000)) with (Some (hash1 [1] 1 mod bf_modulus 1000)).
  cbn [mbind option_bind]. rewrite !Hn. cbn [mbind option_bind]. split; reflexivity.
Qed.
