(* ===== verification/CountMin.v ===== *)
(** * Count-min sketches (lib/bpf/ubpf_countmin.c)

    [counters] is the flexible array the allocation leaves room for; the
    lookup writes its result to a buffer of [value_size] bytes that it
    returns. *)

From S2P Require Import Prelude Lookup3 Lookup3Props MapDef.

Record countmin_sketch : Set := mk_cm {
  nb_columns : Z;
  nb_rows : Z;
  current_count : bytes;
  counters : list Z
}.

(** [size_bitmap] is an [int]: a negative one leaves the C semantics in
    [memset]. *)
Definition ubpf_countmin_create (d : ubpf_map_def) : option countmin_sketch :=
  let size_bitmap := s32 (u64 (4 * def_nb_hash_functions d * def_max_entries d)) in
  if size_bitmap <? 0 then None
  else Some (mk_cm (def_nb_hash_functions d) (def_max_entries d)
               (replicate (Z.to_nat (def_value_size d)) 0)
               (replicate (Z.to_nat (size_bitmap / 4)) 0)).

(** [i * countmin->nb_columns + hash], after [hash %= nb_rows]. *)
Definition cm_index (nc nr : Z) (p : Z * Z) : option nat :=
  let '(i, h) := p in
  r ← umod h nr;
  Some (Z.to_nat (u32 (u32 (i * nc) + r))).

Fixpoint cm_min (cs : list Z) (nc nr : Z) (hs : list (Z * Z)) (acc : Z) : option Z :=
  match hs with
  | [] => Some acc
  | p :: hs' =>
      j ← cm_index nc nr p;
      c ← cs !! j;
      cm_min cs nc nr hs' (if acc <? c then acc else c)
  end.

Fixpoint cm_incr (cs : list Z) (nc nr : Z) (hs : list (Z * Z)) : option (list Z) :=
  match hs with
  | [] => Some cs
  | p :: hs' =>
      j ← cm_index nc nr p;
      c ← cs !! j;
      cm_incr (<[j := u32 (c + 1)]> cs) nc nr hs'
  end.

Section CountMin.
Context (value_size : Z).

Definition cm_hashes (cm : countmin_sketch) (value : bytes) : option (list (Z * Z)) :=
  v ← read_bytes value value_size;
  Some (hashes (nb_columns cm) v value_size).

(** Returns the buffer the result points to, and the sketch with it.  A
    [uint32_t] is stored in the buffer: it needs four bytes. *)
Definition ubpf_countmin_lookup (cm : countmin_sketch) (value : bytes)
    : option (bytes * countmin_sketch) :=
  hs ← cm_hashes cm value;
  c ← cm_min (counters cm) (nb_columns cm) (nb_rows cm) hs UINT32_MAX;
  if Z.of_nat (length (current_count cm)) <? 4 then None
  else
    let buf := le_bytes 4 c ++ drop 4 (current_count cm) in
    Some (buf, mk_cm (nb_columns cm) (nb_rows cm) buf (counters cm)).

Definition ubpf_countmin_add (cm : countmin_sketch) (value : bytes) : option (Z * countmin_sketch) :=
  hs ← cm_hashes cm value;
  cs ← cm_incr (counters cm) (nb_columns cm) (nb_rows cm) hs;
  Some (0, mk_cm (nb_columns cm) (nb_rows cm) (current_count cm) cs).

Fixpoint cm_adds (cm : countmin_sketch) (vs : list bytes) : option countmin_sketch :=
  match vs with
  | [] => Some cm
  | v :: vs' => r ← ubpf_countmin_add cm v; cm_adds r.2 vs'
  end.
End CountMin.

(** The count a result buffer holds. *)
Definition result_count (buf : bytes) : Z := le_value (take 4 buf).

(** ** Counters *)

(** [b] bounds the counters from above, [need] some of them from below. *)
Definition bounded (cs : list Z) (b : Z) : Prop := Forall (fun c => 0 <= c <= b) cs.

Lemma cm_incr_spec nc nr hs cs cs' b :
  cm_incr cs nc nr hs = Some cs' -> bounded cs b -> b + Z.of_nat (length hs) < 2 ^ 32 ->
  length cs' = length cs /\ bounded cs' (b + Z.of_nat (length hs)) /\
  (forall j c, cs !! j = Some c -> exists c', cs' !! j = Some c' /\ c <= c' /\
     ((exists p, p ∈ hs /\ cm_index nc nr p = Some j) -> c + 1 <= c')).
Proof.
  revert cs b. induction hs as [|p hs IH]; intros cs b H Hb Hlt; simpl in H.
  - injection H as ->. cbn [length]. rewrite Z.add_0_r. split_and!; try done.
    intros j c Hj. exists c. split_and!; try done. intros (p & Hp & _). by apply not_elem_of_nil in Hp.
  - apply bind_Some in H as (j & Hj & H). apply bind_Some in H as (c & Hc & H).
    pose proof (Forall_lookup_1 _ _ _ _ Hb Hc) as Hcb. cbn [length] in *.
    rewrite wrap_small in H by (unfold in_u; lia).
    assert (bounded (<[j := c + 1]> cs) (b + 1)) as Hb'.
    { apply Forall_insert; [|simpl; lia]. eapply Forall_impl; [exact Hb|]. simpl. lia. }
    destruct (IH _ (b + 1) H Hb' ltac:(lia)) as (Hl & Hb2 & Hm). rewrite length_insert in Hl.
    split_and!; [done|by replace (b + Z.of_nat (S (length hs))) with (b + 1 + Z.of_nat (length hs)) by lia|].
    intros k d Hk. destruct (decide (j = k)) as [->|Hne].
    + rewrite Hc in Hk. injection Hk as <-.
      destruct (Hm k (c + 1)) as (c' & Hc' & Hle & _).
      { apply list_lookup_insert_eq. by eapply lookup_lt_Some. }
      exists c'. split_and!; [done|lia|lia].
    + destruct (Hm k d) as (c' & Hc' & Hle & Hstrict); [by rewrite list_lookup_insert_ne|].
      exists c'. split_and!; [done|done|]. intros (q & Hq & Eq).
      apply elem_of_cons in Hq as [->|Hq]; [congruence|]. apply Hstrict. by exists q.
Qed.

Lemma cm_min_le cs nc nr hs acc c n :
  cm_min cs nc nr hs acc = Some c -> n <= acc ->
  (forall p j x, p ∈ hs -> cm_index nc nr p = Some j -> cs !! j = Some x -> n <= x) -> n <= c.
Proof.
  revert acc. induction hs as [|p hs IH]; intros acc H Ha Hall; simpl in H; [by injection H as <-|].
  apply bind_Some in H as (j & Hj & H). apply bind_Some in H as (x & Hx & H).
  apply (IH _ H).
  - pose proof (Hall p j x ltac:(apply elem_of_cons; by left) Hj Hx). case_match; lia.
  - intros q k y Hq. apply Hall. apply elem_of_cons. by right.
Qed.

Lemma cm_min_range cs nc nr hs acc c b :
  cm_min cs nc nr hs acc = Some c -> bounded cs b -> 0 <= acc -> 0 <= c <= acc.
Proof.
  revert acc. induction hs as [|p hs IH]; intros acc H Hb Ha; simpl in H; [injection H as <-; lia|].
  apply bind_Some in H as (j & Hj & H). apply bind_Some in H as (x & Hx & H).
  pose proof (Forall_lookup_1 _ _ _ _ Hb Hx) as Hxb. simpl in Hxb.
  apply IH in H; [|done|case_match; lia]. revert H. case_match eqn:E; [lia|]. apply Z.ltb_ge in E. lia.
Qed.

Lemma length_hashes nb v n : 0 <= nb -> Z.of_nat (length (hashes nb v n)) = nb.
Proof.
  intros Hn. unfold hashes. destruct (hash_pair nb v n) as [h1 h2].
  rewrite length_fmap, length_seqZ. lia.
Qed.

(** How often a value was added: values are compared on the bytes the map reads. *)
Definition occurrences (value_size : Z) (v : bytes) (vs : list bytes) : Z :=
  Z.of_nat (length (filter (fun w => read_bytes w value_size = Some v) vs)).

Lemma cm_adds_spec value_size vs cm cm' v b :
  cm_adds value_size cm vs = Some cm' -> 0 <= nb_columns cm -> bounded (counters cm) b ->
  b + nb_columns cm * Z.of_nat (length vs) < 2 ^ 32 ->
  nb_columns cm' = nb_columns cm /\ nb_rows cm' = nb_rows cm /\
  bounded (counters cm') (b + nb_columns cm * Z.of_nat (length vs)) /\
  current_count cm' = current_count cm /\ length (counters cm') = length (counters cm) /\
  forall j c, counters cm !! j = Some c -> exists c', counters cm' !! j = Some c' /\
    c <= c' /\
    ((exists p, p ∈ hashes (nb_columns cm) v value_size /\
                cm_index (nb_columns cm) (nb_rows cm) p = Some j) ->
     c + occurrences value_size v vs <= c').
Proof.
  revert cm b. induction vs as [|w vs IH]; intros cm b H Hn Hb Hlt; cbn [cm_adds] in H.
  - injection H as ->. change (Z.of_nat (length [])) with 0 in *. rewrite Z.mul_0_r, Z.add_0_r in *.
    split_and!; try done. intros j c Hj. exists c. split_and!; try done.
    intros _. unfold occurrences. simpl. lia.
  - apply bind_Some in H as ([r cm1] & Ha & H). cbn [snd] in H.
    unfold ubpf_countmin_add, cm_hashes in Ha. destruct (read_bytes w value_size) as [w'|] eqn:Ew; [|done].
    cbn [mbind option_bind] in Ha. apply bind_Some in Ha as (cs & Hs & [= <- <-]).
    cbn [length] in Hlt. pose proof (length_hashes (nb_columns cm) w' value_size Hn) as El.
    destruct (cm_incr_spec _ _ _ _ _ b Hs Hb ltac:(rewrite El; nia)) as (Hl & Hb1 & Hm). rewrite El in Hb1.
    destruct (IH _ (b + nb_columns cm) H) as (E1 & E2 & Hb2 & E3 & E4 & Hm2); simpl; try done; [nia|].
    simpl in *. split_and!; try done; [|by rewrite E4|].
    { by replace (b + nb_columns cm * Z.of_nat (S (length vs)))
        with (b + nb_columns cm + nb_columns cm * Z.of_nat (length vs)) by nia. }
    intros j c Hj. destruct (Hm j c Hj) as (c1 & Hc1 & Hle1 & Hs1).
    destruct (Hm2 j c1 Hc1) as (c2 & Hc2 & Hle2 & Hs2). exists c2. split_and!; [done|lia|].
    intros Hp. specialize (Hs2 Hp). unfold occurrences in *. rewrite filter_cons.
    case_decide as Hd; [|simpl; lia]. rewrite Ew in Hd. injection Hd as ->.
    specialize (Hs1 Hp). simpl. lia.
Qed.

Lemma le_value_take4 c rest : in_u 32 c -> result_count (le_bytes 4 c ++ rest) = c.
Proof.
  intros Hc. unfold result_count.
  rewrite take_app_le by (rewrite length_le_bytes; lia).
  rewrite take_ge by (rewrite length_le_bytes; lia). by apply le_value_bytes.
Qed.



(** ** Bounds *)

Record wf_countmin (value_size : Z) (cm : countmin_sketch) : Prop := {
  wf_columns : 1 <= nb_columns cm <= nb_rows cm;
  wf_room : 4 * (nb_columns cm * nb_rows cm) < 2 ^ 31;
  wf_counters : Z.of_nat (length (counters cm)) = nb_columns cm * nb_rows cm;
  wf_buffer : 4 <= value_size /\ Z.of_nat (length (current_count cm)) = value_size
}.

Lemma cm_index_in nc nr p v n :
  1 <= nc <= nr -> 4 * (nc * nr) < 2 ^ 31 -> p ∈ hashes nc v n ->
  exists j, cm_index nc nr p = Some j /\ (Z.of_nat j < nc * nr).
Proof.
  intros Hn Hr Hp. unfold hashes in Hp. destruct (hash_pair nc v n) as [h1 h2].
  apply list_elem_of_fmap in Hp as (i & -> & Hi). apply elem_of_seqZ in Hi.
  unfold cm_index, umod. destruct (Z.eqb_spec nr 0); [lia|]. cbn [mbind option_bind].
  pose proof (Z.mod_pos_bound (nth_hash h1 h2 i) nr ltac:(lia)) as Hm.
  assert (0 <= i * nc /\ i * nc <= (nc - 1) * nc) by nia.
  assert ((nc - 1) * nc + nr <= nc * nr) by nia.
  rewrite (wrap_small 32 (i * nc)) by (unfold in_u; nia).
  rewrite wrap_small by (unfold in_u; nia). eexists. split; [done|]. lia.
Qed.

Lemma cm_incr_defined nc nr hs cs :
  (forall p, p ∈ hs -> exists j, cm_index nc nr p = Some j /\ (j < length cs)%nat) ->
  exists cs', cm_incr cs nc nr hs = Some cs' /\ length cs' = length cs.
Proof.
  revert cs. induction hs as [|p hs IH]; intros cs H; [by exists cs|]. simpl.
  destruct (H p ltac:(apply elem_of_cons; by left)) as (j & Hj & Hlt). rewrite Hj. cbn [mbind option_bind].
  destruct (lookup_lt_is_Some_2 _ _ Hlt) as (c & ->). cbn [mbind option_bind].
  destruct (IH (<[j := u32 (c + 1)]> cs)) as (cs' & E & El).
  - intros q Hq. rewrite length_insert. apply H. apply elem_of_cons. by right.
  - exists cs'. rewrite length_insert in El. done.
Qed.

Lemma cm_min_defined nc nr hs cs acc :
  (forall p, p ∈ hs -> exists j, cm_index nc nr p = Some j /\ (j < length cs)%nat) ->
  is_Some (cm_min cs nc nr hs acc).
Proof.
  revert acc. induction hs as [|p hs IH]; intros acc H; [by exists acc|]. simpl.
  destruct (H p ltac:(apply elem_of_cons; by left)) as (j & Hj & Hlt). rewrite Hj. cbn [mbind option_bind].
  destruct (lookup_lt_is_Some_2 _ _ Hlt) as (c & ->). cbn [mbind option_bind]. apply IH.
  intros q Hq. apply H. apply elem_of_cons. by right.
Qed.

(** with at least as many rows as hash functions, values of at least four
    bytes and an allocation that fits an [int], the operations stay inside the
    counters: a fresh sketch has this shape, and additions and lookups are
    defined and keep it. *)
Theorem countmin_in_bounds d cm v v' :
  wf_def d -> 1 <= def_nb_hash_functions d <= def_max_entries d ->
  4 * (def_nb_hash_functions d * def_max_entries d) < 2 ^ 31 -> 4 <= def_value_size d ->
  wf_countmin (def_value_size d) cm -> read_bytes v (def_value_size d) = Some v' ->
  (exists cm0, ubpf_countmin_create d = Some cm0 /\ wf_countmin (def_value_size d) cm0) /\
  (exists cm1, ubpf_countmin_add (def_value_size d) cm v = Some (0, cm1) /\ wf_countmin (def_value_size d) cm1) /\
  (exists buf cm2, ubpf_countmin_lookup (def_value_size d) cm v = Some (buf, cm2) /\
     Z.of_nat (length buf) = def_value_size d /\ wf_countmin (def_value_size d) cm2).
Proof.
  intros [_ _ _ _] Hn Hr Hvs Hwf Hv. pose proof Hwf as [H1 H2 H3 [H4 H5]]. split_and!.
  - unfold ubpf_countmin_create. cbv zeta.
    rewrite wrap_small by (unfold in_u; nia). rewrite sext_small by (unfold in_s; nia).
    destruct (Z.ltb_spec (4 * def_nb_hash_functions d * def_max_entries d) 0); [nia|].
    eexists. split; [done|]. split; simpl; try done; rewrite ?length_replicate; [|split; [done|lia]].
    replace (4 * def_nb_hash_functions d * def_max_entries d)
      with (def_nb_hash_functions d * def_max_entries d * 4) by lia.
    rewrite Z.div_mul by lia. nia.
  - unfold ubpf_countmin_add, cm_hashes. rewrite Hv. cbn [mbind option_bind].
    destruct (cm_incr_defined (nb_columns cm) (nb_rows cm)
                (hashes (nb_columns cm) v' (def_value_size d)) (counters cm)) as (cs & -> & El).
    { intros p Hp. destruct (cm_index_in _ _ _ _ _ H1 H2 Hp) as (j & Hj & Hlt). exists j. split; [done|lia]. }
    cbn [mbind option_bind]. eexists. split; [done|]. split; simpl; try done. by rewrite El.
  - unfold ubpf_countmin_lookup, cm_hashes. rewrite Hv. cbn [mbind option_bind].
    destruct (cm_min_defined (nb_columns cm) (nb_rows cm)
                (hashes (nb_columns cm) v' (def_value_size d)) (counters cm) UINT32_MAX) as (c & ->).
    { intros p Hp. destruct (cm_index_in _ _ _ _ _ H1 H2 Hp) as (j & Hj & Hlt). exists j. split; [done|lia]. }
    cbn [mbind option_bind]. destruct (Z.ltb_spec (Z.of_nat (length (current_count cm))) 4); [lia|].
    assert (Z.of_nat (length (le_bytes 4 c ++ drop 4 (current_count cm))) = def_value_size d) as El.
    { rewrite length_app, length_le_bytes, length_drop. lia. }
    eexists _, _. split; [done|]. split; [done|]. by split.
Qed.

Lemma countmin_in_bounds_witness :
  exists cm1, ubpf_countmin_add 4 (mk_cm 2 8 [0; 0; 0; 0] (replicate 16 0)) [1; 2; 3; 4] = Some (0, cm1) /\
              wf_countmin 4 cm1.
Proof.
  apply (countmin_in_bounds (mk_def 3 0 4 8 2) (mk_cm 2 8 [0; 0; 0; 0] (replicate 16 0)) [1; 2; 3; 4] [1; 2; 3; 4]).
  - split; vm_compute; split; congruence.
  - vm_compute. split; congruence.
  - vm_compute. reflexivity.
  - vm_compute. congruence.
  - split; vm_compute; try reflexivity; split; congruence.
  - reflexivity.
Defined.

Lemma cm_stride_3_1 h0 h1 h2 acc :
  cm_incr [0; 0; 0] 3 1 [(0, h0); (1, h1); (2, h2)] = None /\
  cm_min [0; 0; 0] 3 1 [(0, h0); (1, h1); (2, h2)] acc = None.
Proof.
  cbn [cm_incr cm_min].
  assert (forall i h, cm_index 3 1 (i, h) = Some (Z.to_nat (u32 (u32 (i * 3) + 0)))) as E.
  { intros i h. unfold cm_index, umod. simpl (1 =? 0). cbn match. by rewrite Z.mod_1_r. }
  rewrite !E. split; reflexivity.
Qed.

Lemma hashes_3 v n : exists h0 h1 h2, hashes 3 v n = [(0, h0); (1, h1); (2, h2)].
Proof. unfold hashes. destruct (hash_pair 3 v n) as [h1 h2]. eexists _, _, _. reflexivity. Qed.

Lemma cm_hashes_3 cm v hs :
  nb_columns cm = 3 -> cm_hashes 4 cm v = Some hs -> exists h0 h1 h2, hs = [(0, h0); (1, h1); (2, h2)].
Proof.
  intros Hn H. unfold cm_hashes in H. rewrite Hn in H. apply bind_Some in H as (w & _ & [= <-]).
  apply hashes_3.
Qed.

(** Whatever the value, the accesses of a 3 by 1 sketch are outside. *)
Lemma stride_out_of_bounds v :
  let cm := mk_cm 3 1 [0; 0; 0; 0] [0; 0; 0] in
  ubpf_countmin_add 4 cm v = None /\ ubpf_countmin_lookup 4 cm v = None.
Proof.
  intros cm. unfold ubpf_countmin_add, ubpf_countmin_lookup.
  destruct (cm_hashes 4 cm v) as [hs|] eqn:E; [|done]. cbn [mbind option_bind].
  destruct (cm_hashes_3 cm v hs eq_refl E) as (h0 & h1 & h2 & ->).
  destruct (cm_stride_3_1 h0 h1 h2 UINT32_MAX) as [E1 E2].
  cbn [counters nb_columns nb_rows cm]. rewrite E1, E2. done.
Qed.

Lemma small_buffer : ubpf_countmin_lookup 2 (mk_cm 1 8 [0; 0] (replicate 8 0)) [1; 2] = None.
Proof. vm_compute. reflexivity. Qed.

(** the row stride is the number of hash functions instead of the number of rows:
    with three hash functions and one row, every addition and every lookup
    leaves the counters; and a value size below four overflows the result
    buffer. *)
Theorem countmin_out_of_bounds :
  (forall v, exists cm0, ubpf_countmin_create (mk_def 3 0 4 1 3) = Some cm0 /\
     ubpf_countmin_add 4 cm0 v = None /\ ubpf_countmin_lookup 4 cm0 v = None) /\
  (exists cm0, ubpf_countmin_create (mk_def 3 0 2 8 1) = Some cm0 /\
     ubpf_countmin_lookup 2 cm0 [1; 2] = None).
Proof.
  split.
  - intros v. exists (mk_cm 3 1 [0; 0; 0; 0] [0; 0; 0]). split; [reflexivity|].
    apply stride_out_of_bounds.
  - exists (mk_cm 1 8 [0; 0] (replicate 8 0)). split; [reflexivity|]. exact small_buffer.
Qed.
