(* ===== verification/Maps.v ===== *)
(** * Map objects and the map helpers (lib/bpf.c; the operation tables of
      lib/bpf/ubpf_array.c, ubpf_bf.c, ubpf_countmin.c, ubpf_hashmap.h; the
      creation of maps in lib/bpf/ubpf_loader.c)

    A map is its header and the data of its kind.  The table of operations a
    map points to is the one of its type.  The class [KeyedMap] is what the
    helpers need of a map with keys; arrays and hash maps are its instances. *)

From S2P Require Import Prelude Lookup3 Lookup3Props MapDef ArrayMap HashMap BloomFilter.
From S2P Require Import CountMin.

Inductive map_data : Set :=
| DArray (data : bytes)
| DBloom (bf : bloom_filter)
| DCountmin (cm : countmin_sketch)
| DHashmap (hm : hashmap).

Record ubpf_map : Set := mk_map {
  m_type : ubpf_map_type;
  m_key_size : Z;
  m_value_size : Z;
  m_max_entries : Z;
  m_data : map_data
}.

Definition with_data (m : ubpf_map) (d : map_data) : ubpf_map :=
  mk_map (m_type m) (m_key_size m) (m_value_size m) (m_max_entries m) d.

(** The function pointers; [None] is NULL.  Each returns its C result with the
    map it leaves; the outer [None] of a result is undefined behaviour. *)
Record ubpf_map_ops : Type := mk_ops {
  map_size : option (ubpf_map -> option Z);
  map_dump : option (ubpf_map -> option (bytes * Z));
  map_lookup : option (ubpf_map -> bytes -> option (option bytes * ubpf_map));
  map_update : option (ubpf_map -> bytes -> bytes -> option (Z * ubpf_map));
  map_delete : option (ubpf_map -> bytes -> option (Z * ubpf_map));
  map_add : option (ubpf_map -> bytes -> option (Z * ubpf_map))
}.

(** [int] results of a lookup are four bytes. *)
Definition int_bytes (x : Z) : bytes := le_bytes 4 x.

(** *** The entries of the tables *)

Definition array_op_lookup (m : ubpf_map) (key : bytes) : option (option bytes * ubpf_map) :=
  match m_data m with
  | DArray data => r ← ubpf_array_lookup (m_max_entries m) (m_value_size m) key;
      Some (array_entry (m_value_size m) data <$> (r : option Z), m)
  | _ => None
  end.
Definition array_op_update (m : ubpf_map) (key value : bytes) : option (Z * ubpf_map) :=
  match m_data m with
  | DArray data => r ← ubpf_array_update (m_max_entries m) (m_value_size m) data key value;
      Some (r.1, with_data m (DArray r.2))
  | _ => None
  end.
Definition bf_op_lookup (m : ubpf_map) (value : bytes) : option (option bytes * ubpf_map) :=
  match m_data m with
  | DBloom bf => r ← ubpf_bf_lookup (m_max_entries m) (m_value_size m) bf value;
      Some (Some (int_bytes (if r : bool then 1 else 0)), m)
  | _ => None
  end.
Definition bf_op_add (m : ubpf_map) (value : bytes) : option (Z * ubpf_map) :=
  match m_data m with
  | DBloom bf => r ← ubpf_bf_add (m_max_entries m) (m_value_size m) bf value;
      Some (r.1, with_data m (DBloom r.2))
  | _ => None
  end.
Definition countmin_op_lookup (m : ubpf_map) (value : bytes) : option (option bytes * ubpf_map) :=
  match m_data m with
  | DCountmin cm => r ← ubpf_countmin_lookup (m_value_size m) cm value;
      Some (Some r.1, with_data m (DCountmin r.2))
  | _ => None
  end.
Definition countmin_op_add (m : ubpf_map) (value : bytes) : option (Z * ubpf_map) :=
  match m_data m with
  | DCountmin cm => r ← ubpf_countmin_add (m_value_size m) cm value;
      Some (r.1, with_data m (DCountmin r.2))
  | _ => None
  end.
Definition hashmap_op_size (m : ubpf_map) : option Z :=
  match m_data m with
  | DHashmap hm => Some (ubpf_hashmap_size hm)
  | _ => None
  end.
Definition hashmap_op_dump (m : ubpf_map) : option (bytes * Z) :=
  match m_data m with
  | DHashmap hm => Some (ubpf_hashmap_dump hm)
  | _ => None
  end.
Definition hashmap_op_lookup (m : ubpf_map) (key : bytes) : option (option bytes * ubpf_map) :=
  match m_data m with
  | DHashmap hm => r ← ubpf_hashmap_lookup (m_key_size m) hm key;
      Some (r : option bytes, m)
  | _ => None
  end.
Definition hashmap_op_update (m : ubpf_map) (key value : bytes) : option (Z * ubpf_map) :=
  match m_data m with
  | DHashmap hm => r ← ubpf_hashmap_update (m_key_size m) (m_value_size m) (m_max_entries m) hm key value;
      Some (r.1, with_data m (DHashmap r.2))
  | _ => None
  end.
Definition hashmap_op_delete (m : ubpf_map) (key : bytes) : option (Z * ubpf_map) :=
  match m_data m with
  | DHashmap hm => r ← ubpf_hashmap_delete (m_key_size m) hm key;
      Some (r.1, with_data m (DHashmap r.2))
  | _ => None
  end.

Definition ubpf_array_ops : ubpf_map_ops :=
  mk_ops None None (Some array_op_lookup) (Some array_op_update) None None.
Definition ubpf_bf_ops : ubpf_map_ops :=
  mk_ops None None (Some bf_op_lookup) None None (Some bf_op_add).
Definition ubpf_countmin_ops : ubpf_map_ops :=
  mk_ops None None (Some countmin_op_lookup) None None (Some countmin_op_add).
Definition ubpf_hashmap_ops : ubpf_map_ops :=
  mk_ops (Some hashmap_op_size) (Some hashmap_op_dump) (Some hashmap_op_lookup)
    (Some hashmap_op_update) (Some hashmap_op_delete) None.

Definition ops (m : ubpf_map) : ubpf_map_ops :=
  match m_type m with
  | UBPF_MAP_TYPE_ARRAY => ubpf_array_ops
  | UBPF_MAP_TYPE_BLOOMFILTER => ubpf_bf_ops
  | UBPF_MAP_TYPE_COUNTMIN => ubpf_countmin_ops
  | UBPF_MAP_TYPE_HASHMAP => ubpf_hashmap_ops
  end.

(** The data of a map is of the kind its type says. *)
Definition kinded (m : ubpf_map) : Prop :=
  match m_type m, m_data m with
  | UBPF_MAP_TYPE_ARRAY, DArray _ | UBPF_MAP_TYPE_BLOOMFILTER, DBloom _ | UBPF_MAP_TYPE_COUNTMIN, DCountmin _
  | UBPF_MAP_TYPE_HASHMAP, DHashmap _ => True
  | _, _ => False
  end.

(** ** Creation: the [switch] of the loader

    The outer [None] is undefined behaviour, [Some None] the error for an
    unknown type.  [spare] is uninitialised memory a Bloom filter keeps. *)
Definition create_map (d : ubpf_map_def) (spare : bytes) : option (option ubpf_map) :=
  let mk t data := mk_map t (def_key_size d) (def_value_size d) (def_max_entries d) data in
  match map_type_of_code (def_type d) with
  | Some UBPF_MAP_TYPE_ARRAY => Some (Some (mk UBPF_MAP_TYPE_ARRAY (DArray (ubpf_array_create d))))
  | Some UBPF_MAP_TYPE_BLOOMFILTER =>
      Some (Some (mk UBPF_MAP_TYPE_BLOOMFILTER (DBloom (ubpf_bf_create d spare))))
  | Some UBPF_MAP_TYPE_COUNTMIN =>
      cm ← ubpf_countmin_create d;
      Some (Some (mk UBPF_MAP_TYPE_COUNTMIN (DCountmin cm)))
  | Some UBPF_MAP_TYPE_HASHMAP => Some (Some (mk UBPF_MAP_TYPE_HASHMAP (DHashmap (ubpf_hashmap_create d))))
  | None => Some None
  end.

(** ** The helpers

    Pointers are options.  The result carries the map after the call. *)

Definition ubpf_map_lookup (map : option ubpf_map) (key : option bytes)
    : option (option bytes * option ubpf_map) :=
  match map with
  | None => Some (None, None)
  | Some m =>
      match map_lookup (ops m), key with
      | None, _ => Some (None, Some m)
      | _, None => Some (None, Some m)
      | Some f, Some k => r ← f m k; Some (r.1, Some r.2)
      end
  end.

Definition ubpf_map_update (map : option ubpf_map) (key item : option bytes)
    : option (Z * option ubpf_map) :=
  match map with
  | None => Some (-1, None)
  | Some m =>
      match map_update (ops m), key, item with
      | None, _, _ => Some (-2, Some m)
      | _, None, _ => Some (-3, Some m)
      | _, _, None => Some (-4, Some m)
      | Some f, Some k, Some v => r ← f m k v; Some (r.1, Some r.2)
      end
  end.

Definition ubpf_map_add (map : option ubpf_map) (item : option bytes)
    : option (Z * option ubpf_map) :=
  match map with
  | None => Some (-1, None)
  | Some m =>
      match map_add (ops m), item with
      | None, _ => Some (-2, Some m)
      | _, None => Some (-3, Some m)
      | Some f, Some v => r ← f m v; Some (r.1, Some r.2)
      end
  end.

Definition ubpf_map_delete (map : option ubpf_map) (key : option bytes)
    : option (Z * option ubpf_map) :=
  match map with
  | None => Some (-1, None)
  | Some m =>
      match map_delete (ops m), key with
      | None, _ => Some (-2, Some m)
      | _, None => Some (-3, Some m)
      | Some f, Some k => r ← f m k; Some (r.1, Some r.2)
      end
  end.

(** *** Kinds are kept *)

Lemma create_map_kinded d spare m : create_map d spare = Some (Some m) -> kinded m.
Proof.
  unfold create_map. destruct (map_type_of_code _) as [[]|]; [..|done]; try by intros [= <-].
  destruct (ubpf_countmin_create d); [|done]. by intros [= <-].
Qed.

Lemma map_update_kinded m key item r m' :
  kinded m -> ubpf_map_update (Some m) key item = Some (r, m') -> exists m1, m' = Some m1 /\ kinded m1.
Proof.
  unfold kinded, ubpf_map_update, ops. destruct m as [[] ? ? ? []]; cbn; try done; intros _;
    destruct key, item; try (intros [= _ <-]; by eexists).
  - destruct (ubpf_array_update _ _ _ _ _); [|done]. intros [= _ <-]. by eexists.
  - destruct (ubpf_hashmap_update _ _ _ _ _ _); [|done]. intros [= _ <-]. by eexists.
Qed.

Lemma map_delete_kinded m f key r m' :
  kinded m -> map_delete (ops m) = Some f -> f m key = Some (r, m') -> kinded m'.
Proof.
  unfold kinded, ops. destruct m as [[] ? ? ? []]; cbn; try done. intros _ [= <-]. cbn.
  destruct (ubpf_hashmap_delete _ _ _); [|done]. by intros [= _ <-].
Qed.

(** [ubpf_hash]: the size is cut to 32 bits. *)
Definition ubpf_hash (item : bytes) (size : Z) : Z := hash1 item (u32 size).

(** ** What the helpers need of a map with keys *)

Lemma read_bytes_prefix bs n r rest : read_bytes bs n = Some r -> read_bytes (bs ++ rest) n = Some r.
Proof.
  unfold read_bytes. case_match eqn:E; [|done]. intros [= <-]. apply Z.leb_le in E.
  rewrite (proj2 (Z.leb_le _ _)) by (rewrite length_app; lia). by rewrite take_app_le by lia.
Qed.

Class KeyedMap (wf : ubpf_map -> Prop) : Type := {
  (** the bytes of the key that select an entry *)
  km_key : ubpf_map -> bytes -> option bytes;
  (** the value of an entry *)
  km_abs : ubpf_map -> bytes -> option bytes;
  km_prefix m key k rest : km_key m key = Some k -> km_key m (key ++ rest) = Some k;
  km_lookup m key k :
    wf m -> wf_bytes key -> km_key m key = Some k ->
    ubpf_map_lookup (Some m) (Some key) = Some (km_abs m k, Some m);
  km_update m key k value v :
    wf m -> wf_bytes key -> km_key m key = Some k -> read_bytes value (m_value_size m) = Some v ->
    exists r m', ubpf_map_update (Some m) (Some key) (Some value) = Some (r, Some m') /\ wf m' /\
      (forall key', km_key m' key' = km_key m key') /\ r <= 0 /\
      (r <> 0 -> m' = m) /\
      (r = 0 -> km_abs m' k = Some v /\
                forall key' k', wf_bytes key' -> km_key m key' = Some k' -> k' <> k ->
                                km_abs m' k' = km_abs m k')
}.

(** *** Hash maps *)

Definition wf_hash (m : ubpf_map) : Prop :=
  m_type m = UBPF_MAP_TYPE_HASHMAP /\
  in_u 32 (m_key_size m) /\ in_u 32 (m_value_size m) /\ in_u 32 (m_max_entries m) /\
  exists hm, m_data m = DHashmap hm /\ wf_hashmap (m_key_size m) (m_value_size m) (m_max_entries m) hm.

Definition hash_contents (m : ubpf_map) : gmap (list Z) (list Z) :=
  match m_data m with DHashmap hm => contents hm | _ => ∅ end.

#[export] Program Instance hash_keyed : KeyedMap wf_hash := {
  km_key m key := read_bytes key (m_key_size m);
  km_abs m k := hash_contents m !! k
}.
Next Obligation. intros m key k rest. apply read_bytes_prefix. Qed.
Next Obligation.
  intros m key k (Ht & _ & _ & _ & hm & Hd & Hwf) _ Hk. unfold ubpf_map_lookup, ops, hash_contents.
  rewrite Ht. cbn [map_lookup ubpf_hashmap_ops]. unfold hashmap_op_lookup. rewrite Hd.
  rewrite (hashmap_lookup_spec _ _ _ hm key k Hwf Hk). done.
Qed.
Next Obligation.
  intros m key k value v (Ht & Hks & Hvs & Hmx & hm & Hd & Hwf) _ Hk Hv.
  pose proof (hashmap_update_spec _ _ _ (proj1 Hks) (proj1 Hvs) Hmx hm key value k v Hwf Hk Hv) as H.
  assert (forall hm', wf_hashmap (m_key_size m) (m_value_size m) (m_max_entries m) hm' ->
            wf_hash (with_data m (DHashmap hm'))) as Hwd.
  { intros hm' Hhm'. unfold wf_hash. cbn. eauto 8. }
  unfold ubpf_map_update, ops, hash_contents. rewrite Ht. cbn [map_update ubpf_hashmap_ops].
  unfold hashmap_op_update. rewrite Hd. case_decide.
  - rewrite H. cbn. eexists _, _. split; [done|]. split; [by apply Hwd|].
    split_and!; try done. intros _. unfold with_data. destruct m; cbn in *. by rewrite Hd.
  - destruct H as (hm' & -> & Hwf' & Hc). cbn. eexists _, _. split; [done|].
    split; [by apply Hwd|]. split_and!; try done.
    intros _. cbn. rewrite Hc, lookup_insert_eq. split; [done|].
    intros key' k' _ _ Hne. by rewrite lookup_insert_ne.
Qed.

(** *** Arrays *)

Definition wf_arr (m : ubpf_map) : Prop :=
  m_type m = UBPF_MAP_TYPE_ARRAY /\
  exists data, m_data m = DArray data /\ wf_array (m_max_entries m) (m_value_size m) data.

Definition array_value (m : ubpf_map) (k : bytes) : option bytes :=
  match m_data m with
  | DArray data =>
      if m_max_entries m <=? le_value k then None
      else Some (array_entry (m_value_size m) data (le_value k * m_value_size m))
  | _ => None
  end.

Lemma le_value_nonneg bs : wf_bytes bs -> 0 <= le_value bs.
Proof. induction 1 as [|b bs [Hb _] _ IH]; simpl; lia. Qed.

Lemma le_value_inj a b :
  wf_bytes a -> wf_bytes b -> length a = length b -> le_value a = le_value b -> a = b.
Proof.
  revert b. induction a as [|x a IH]; intros [|y b] Ha Hb Hl E; try done.
  apply Forall_cons in Ha as [Hx Ha]. apply Forall_cons in Hb as [Hy Hb]. simpl in *.
  unfold in_u in *. assert (x = y) as -> by lia. f_equal. apply IH; try done; lia.
Qed.

Lemma read_bytes_wf bs n r : wf_bytes bs -> read_bytes bs n = Some r -> wf_bytes r.
Proof.
  unfold read_bytes. case_match; [|done]. intros H0 [= <-]. by apply Forall_take.
Qed.

Lemma read_value (m : ubpf_map) data value v :
  wf_array (m_max_entries m) (m_value_size m) data ->
  read_bytes value (m_value_size m) = Some v -> Z.of_nat (length v) = m_value_size m.
Proof. intros (_ & Hs & _). by apply read_bytes_length. Qed.

#[export] Program Instance array_keyed : KeyedMap wf_arr := {
  km_key m key := read_bytes key 8;
  km_abs m k := array_value m k
}.
Next Obligation. intros m key k rest. apply read_bytes_prefix. Qed.
Next Obligation.
  intros m key k (Ht & data & Hd & Hwf) _ Hk. unfold ubpf_map_lookup, ops, array_value.
  rewrite Ht. cbn [map_lookup ubpf_array_ops]. unfold array_op_lookup, ubpf_array_lookup, array_index.
  rewrite Hd, Hk. cbn. by destruct (_ <=? _).
Qed.
Next Obligation.
  intros m key k value v (Ht & data & Hd & Hwf) Hkb Hk Hv.
  pose proof (le_value_nonneg k (read_bytes_wf _ _ _ Hkb Hk)) as Hnn.
  pose proof (read_value m data value v Hwf Hv) as Hlv.
  unfold ubpf_map_update, ops. rewrite Ht. cbn [map_update ubpf_array_ops].
  unfold array_op_update, ubpf_array_update, array_index. rewrite Hd, Hk, Hv. cbn [mbind option_bind fmap option_fmap option_map].
  pose proof Hwf as (Hm & Hs & Hl).
  destruct (Z.leb_spec (m_max_entries m) (le_value k)) as [Hge|Hlt].
  - cbn. eexists _, _. split; [done|]. split; [split; [done|by exists data]|].
    split_and!; try done. intros _. unfold with_data. destruct m; cbn in *. by rewrite Hd.
  - assert (m_value_size m * le_value k + m_value_size m <= Z.of_nat (length data)) as Hend
      by (rewrite Hl; nia).
    destruct (Z.leb_spec (m_value_size m * le_value k + m_value_size m) (Z.of_nat (length data))); [|lia].
    cbn. eexists _, _. split; [done|]. split.
    { split; [done|]. eexists. split; [done|]. unfold wf_array. rewrite length_inserts. done. }
    split_and!; try done. intros _. unfold array_value. cbn. rewrite Hd. split.
    + destruct (Z.leb_spec (m_max_entries m) (le_value k)); [lia|]. f_equal.
      rewrite (array_entry_inserts (m_max_entries m)) by (done || lia). by rewrite decide_True.
    + intros key' k' Hkb' Hk' Hne. destruct (Z.leb_spec (m_max_entries m) (le_value k')); [done|]. f_equal.
      pose proof (le_value_nonneg k' (read_bytes_wf _ _ _ Hkb' Hk')).
      rewrite (array_entry_inserts (m_max_entries m)) by (done || lia). rewrite decide_False; [done|].
      intros E. apply Hne. symmetry.
      pose proof (read_bytes_length key 8 k ltac:(lia) Hk).
      pose proof (read_bytes_length key' 8 k' ltac:(lia) Hk').
      apply le_value_inj; [exact (read_bytes_wf _ _ _ Hkb Hk)|exact (read_bytes_wf _ _ _ Hkb' Hk')|lia|done].
Qed.

(** the update helper on any map with keys: a status other than 0 means that
    nothing changed; after a status 0 the lookup helper finds the new value
    under the key, and under every other key what it found before.  Arrays and
    hash maps are such maps. *)
Theorem helper_update_lookup `{KeyedMap wf} m key k value v key' k' :
  wf m -> wf_bytes key -> wf_bytes key' -> km_key m key = Some k -> km_key m key' = Some k' ->
  read_bytes value (m_value_size m) = Some v ->
  exists r m', ubpf_map_update (Some m) (Some key) (Some value) = Some (r, Some m') /\ wf m' /\
    (r <> 0 -> m' = m) /\
    (r = 0 -> ubpf_map_lookup (Some m') (Some key) = Some (Some v, Some m') /\
              (k' <> k -> exists o, ubpf_map_lookup (Some m) (Some key') = Some (o, Some m) /\
                                    ubpf_map_lookup (Some m') (Some key') = Some (o, Some m'))).
Proof.
  intros Hwf Hb Hb' Hk Hk' Hv.
  destruct (km_update m key k value v Hwf Hb Hk Hv) as (r & m' & Hu & Hwf' & Hkeys & _ & Hne & Heq).
  exists r, m'. split_and!; try done. intros Hr. destruct (Heq Hr) as [H1 H2]. split.
  - rewrite (km_lookup m' key k Hwf' Hb) by (by rewrite Hkeys). by rewrite H1.
  - intros Hd. exists (km_abs m k'). rewrite (km_lookup m key' k' Hwf Hb' Hk').
    rewrite (km_lookup m' key' k' Hwf' Hb') by (by rewrite Hkeys). by rewrite (H2 key' k').
Qed.

(** A fresh hash map made from a definition. *)
Lemma create_hash_wf d spare :
  wf_def d -> def_type d = 4 -> 1 <= def_max_entries d <= 2 ^ 31 ->
  exists m, create_map d spare = Some (Some m) /\ wf_hash m.
Proof.
  intros Hd Ht Hm. unfold create_map. rewrite Ht. eexists. split; [reflexivity|].
  unfold wf_hash. cbn. destruct (wf_hashmap_create d Hd Hm) as [Hwf _]. destruct Hd. eauto 8.
Qed.

Lemma helper_update_lookup_witness :
  exists m m', create_map (mk_def 4 1 1 2 0) [] = Some (Some m) /\
    ubpf_map_update (Some m) (Some [5]) (Some [9]) = Some (0, Some m') /\
    ubpf_map_lookup (Some m') (Some [5]) = Some (Some [9], Some m').
Proof.
  assert (exists m, create_map (mk_def 4 1 1 2 0) [] = Some (Some m) /\ wf_hash m) as (m & Hc & Hwf).
  { apply create_hash_wf; [split; vm_compute; split; congruence|done|simpl; lia]. }
  pose proof Hc as Hm. injection Hm as Em. exists m.
  destruct (helper_update_lookup m [5] [5] [9] [9] [6] [6] Hwf) as (r & m' & Hu & _ & _ & H).
  - repeat constructor; vm_compute; congruence.
  - repeat constructor; vm_compute; congruence.
  - rewrite <- Em. reflexivity.
  - rewrite <- Em. reflexivity.
  - rewrite <- Em. reflexivity.
  - exists m'. split; [exact Hc|]. assert (r = 0) as ->.
    { rewrite <- Em in Hu. vm_compute in Hu. congruence. }
    split; [exact Hu|]. exact (proj1 (H eq_refl)).
Defined.

(** which operation a kind of map lacks and what the helpers then return: -1 for
    no map, -2 for an operation the kind does not have (deletion outside hash
    maps, update of filters and sketches, addition to arrays and hash maps),
    -3 and -4 for missing arguments; in each of these cases, and for a lookup
    without a key, the map is left alone. *)
Theorem map_helper_errors m key item :
  ubpf_map_lookup None key = Some (None, None) /\ ubpf_map_update None key item = Some (-1, None) /\
  ubpf_map_add None item = Some (-1, None) /\ ubpf_map_delete None key = Some (-1, None) /\
  ubpf_map_lookup (Some m) None = Some (None, Some m) /\
  match m_type m with
  | UBPF_MAP_TYPE_HASHMAP =>
      ubpf_map_add (Some m) item = Some (-2, Some m) /\
      ubpf_map_update (Some m) None item = Some (-3, Some m) /\
      (forall k, ubpf_map_update (Some m) (Some k) None = Some (-4, Some m)) /\
      ubpf_map_delete (Some m) None = Some (-3, Some m)
  | UBPF_MAP_TYPE_ARRAY =>
      ubpf_map_add (Some m) item = Some (-2, Some m) /\
      ubpf_map_delete (Some m) key = Some (-2, Some m) /\
      ubpf_map_update (Some m) None item = Some (-3, Some m) /\
      (forall k, ubpf_map_update (Some m) (Some k) None = Some (-4, Some m))
  | _ =>
      ubpf_map_update (Some m) key item = Some (-2, Some m) /\
      ubpf_map_delete (Some m) key = Some (-2, Some m) /\
      ubpf_map_add (Some m) None = Some (-3, Some m)
  end.
Proof.
  unfold ubpf_map_lookup, ubpf_map_update, ubpf_map_add, ubpf_map_delete, ops.
  destruct (m_type m); split_and!; done.
Qed.
