(* ===== verification/Loader.v ===== *)
(** * The ELF loader (lib/bpf/ubpf_loader.c)

    The object file is a list of bytes; reading a field outside it is [Undef].
    Memory obtained from the allocator is named by the arguments [fresh] (the
    address of the n-th map object created) and [str_addr] (the address of the
    copy of the string section).  An error carries the state the loader leaves:
    maps registered before the error stay registered. *)

From S2P Require Import Prelude Ebpf Memory Vm ValidateInsts ValidateCfg RegState AluRange.
From S2P Require Import ValidateAccesses Lookup3 Lookup3Props MapDef ArrayMap HashMap.
From S2P Require Import BloomFilter CountMin Maps.

Inductive lerr : Type :=
| LNoHeader | LMagic | LClass | LByteOrder | LVersion | LOsAbi | LType | LMachine | LTooManySections
| LBadSectionHeader | LBadSection | LNoText | LBadSymtab | LBadStrtab | LBadRelocType (t : Z)
| LBadSymbol | LBadSymbolName | LBadRelocOffset | LMissingData | LBadDataOffset
| LMapType (t : Z) | LRegister (name : string) | LMissingString | LNoFunction (name : string)
| LLoad (e : verr).

Definition MAX_SECTIONS : Z := 32.
Definition EM_BPF : Z := 247.
Definition ET_REL : Z := 1.
Definition ET_EXEC : Z := 2.
Definition SHT_PROGBITS : Z := 1.
Definition SHT_REL : Z := 9.
Definition SHF_WRITE : Z := 1.
Definition SHF_ALLOC : Z := 2.
Definition SHF_EXECINSTR : Z := 4.
Definition SHF_MERGE : Z := 16.
Definition SHF_STRINGS : Z := 32.

(** [n] bytes at [off] of a buffer, little-endian. *)
Definition field (bs : bytes) (off : Z) (n : nat) : option Z :=
  if (0 <=? off) && (off + Z.of_nat n <=? Z.of_nat (length bs))
  then Some (le_value (take n (drop (Z.to_nat off) bs))) else None.

(** The offset itself stands for the pointer. *)
Definition elf_bounds_check (size_of_buffer offset size : Z) : option Z :=
  if (size_of_buffer <? u64 (offset + size)) || (u64 (offset + size) <? offset) then None
  else Some offset.

Record section : Set := mk_section {
  sh_type : Z; sh_flags : Z; sh_link : Z; sh_info : Z;
  s_data : Z;  (** offset in the file *)
  s_size : Z
}.

(** ** Headers *)

(** The checks of the ELF header; the result is (e_shoff, e_shentsize, e_shnum). *)
Definition check_header (elf : bytes) : res lerr (Z * Z * Z) :=
  match elf_bounds_check (Z.of_nat (length elf)) 0 64 with
  | None => Err LNoHeader
  | Some _ =>
      let! magic := res_of (field elf 0 4) in
      if negb (magic =? 0x464c457f) then Err LMagic
      else
      let! class := res_of (field elf 4 1) in
      if negb (class =? 2) then Err LClass
      else
      let! data := res_of (field elf 5 1) in
      if negb (data =? 1) then Err LByteOrder
      else
      let! version := res_of (field elf 6 1) in
      if negb (version =? 1) then Err LVersion
      else
      let! osabi := res_of (field elf 7 1) in
      if negb (osabi =? 0) then Err LOsAbi
      else
      let! type := res_of (field elf 16 2) in
      if negb (type =? ET_REL) then Err LType
      else
      let! machine := res_of (field elf 18 2) in
      if negb (machine =? 0) && negb (machine =? EM_BPF) then Err LMachine
      else
      let! shnum := res_of (field elf 60 2) in
      if MAX_SECTIONS <? shnum then Err LTooManySections
      else
      let! shoff := res_of (field elf 40 8) in
      let! shentsize := res_of (field elf 58 2) in
      Ok (shoff, shentsize, shnum)
  end.

(** The loop body: the [i]-th section header. *)
Definition read_section (elf : bytes) (shoff shentsize i : Z) : res lerr section :=
  let n := Z.of_nat (length elf) in
  match elf_bounds_check n (u64 (shoff + i * shentsize)) 64 with
  | None => Err LBadSectionHeader
  | Some h =>
      let! offset := res_of (field elf (h + 24) 8) in
      let! size := res_of (field elf (h + 32) 8) in
      match elf_bounds_check n offset size with
      | None => Err LBadSection
      | Some data =>
          let! type := res_of (field elf (h + 4) 4) in
          let! flags := res_of (field elf (h + 8) 8) in
          let! link := res_of (field elf (h + 40) 4) in
          let! info := res_of (field elf (h + 44) 4) in
          Ok (mk_section type flags link info data size)
      end
  end.

Fixpoint read_sections (elf : bytes) (shoff shentsize : Z) (idx : list Z) : res lerr (list section) :=
  match idx with
  | [] => Ok []
  | i :: rest =>
      let! s := read_section elf shoff shentsize i in
      let! ss := read_sections elf shoff shentsize rest in
      Ok (s :: ss)
  end.

(** The first section of type PROGBITS with these flags; 0 if there is none. *)
Fixpoint find_section (flags i : Z) (ss : list section) : Z :=
  match ss with
  | [] => 0
  | s :: rest =>
      if (sh_type s =? SHT_PROGBITS) && (sh_flags s =? flags) then i
      else find_section flags (i + 1) rest
  end.

(** ** Bytes and strings *)

Definition slice (bs : bytes) (off size : Z) : bytes :=
  take (Z.to_nat size) (drop (Z.to_nat off) bs).

Fixpoint until_nul (bs : bytes) : option bytes :=
  match bs with
  | [] => None
  | b :: rest => if b =? 0 then Some [] else cons b <$> until_nul rest
  end.

(** The C string at an offset: it must end inside the buffer. *)
Definition c_string (bs : bytes) (off : Z) : option bytes :=
  if (0 <=? off) && (off <=? Z.of_nat (length bs)) then until_nul (drop (Z.to_nat off) bs) else None.

Fixpoint string_of_bytes (bs : bytes) : string :=
  match bs with
  | [] => EmptyString
  | b :: rest => String (Ascii.ascii_of_nat (Z.to_nat b)) (string_of_bytes rest)
  end.

(** Stores of one byte and of 32 bits into the copy of the text. *)
Definition put8 (bs : bytes) (off v : Z) : option bytes :=
  if (0 <=? off) && (off + 1 <=? Z.of_nat (length bs))
  then Some (<[Z.to_nat off := u8 v]> bs) else None.
Definition put32 (bs : bytes) (off v : Z) : option bytes :=
  if (0 <=? off) && (off + 4 <=? Z.of_nat (length bs))
  then Some (list_inserts (Z.to_nat off) (le_bytes 4 v) bs) else None.

(** ** Relocations *)

Record lstate : Type := mk_lstate {
  l_vm : ubpf_vm;
  l_text : bytes;
  l_maps : gmap Z ubpf_map;
  l_next : nat
}.
Definition set_text (t : bytes) (st : lstate) : lstate :=
  mk_lstate (l_vm st) t (l_maps st) (l_next st).

(** [struct ubpf_map_def] at an offset of the file. *)
Definition read_map_def (elf : bytes) (off : Z) : option ubpf_map_def :=
  t ← field elf off 4; k ← field elf (off + 4) 4; v ← field elf (off + 8) 4;
  m ← field elf (off + 12) 4; n ← field elf (off + 16) 4;
  Some (mk_def t k v m n).

Section Reloc.
Context (elf : bytes) (fresh : nat -> Z) (str_addr : Z) (spare : bytes).

(** [sym_name], at its offset in the file.  A name that does not end inside the
    file is [Undef], also where a comparison would stop before its end. *)
Definition symbol_name (off : Z) : option string := string_of_bytes <$> c_string elf off.

(** The map for a symbol: the registered one, or a new one that is created from
    its definition in the data section and registered. *)
Definition map_for_symbol (st : lstate) (name : string) (data : section) (value : Z)
    : res (lerr * lstate) (Z * lstate) :=
  let addr := ubpf_lookup_registered_map (l_vm st) name in
  if negb (addr =? 0) then Ok (addr, st)
  else if s_size data <? u64 (value + 20) then Err (LBadDataOffset, st)
  else
    let! d := res_of (read_map_def elf (u64 (s_data data + value))) in
    let! om := res_of (create_map d spare) in
    match om with
    | None => Err (LMapType (def_type d), st)
    | Some m =>
        let a := fresh (l_next st) in
        let '(r, vm') := ubpf_register_map (l_vm st) name a in
        if r =? -1 then Err (LRegister name, st)
        else Ok (a, mk_lstate vm' (l_text st) (<[a := m]> (l_maps st)) (S (l_next st)))
    end.

(** The pseudo map load: source register and both halves of the address. *)
Definition patch_map (text : bytes) (off addr : Z) : option bytes :=
  b ← field text (off + 1) 1;
  t1 ← put8 text (off + 1) (Z.lor (Z.land b 0x0f) (Z.shiftl BPF_PSEUDO_MAP_FD 4));
  t2 ← put32 t1 (off + 4) (u32 addr);
  put32 t2 (off + 12) (u32 (Z.shiftr addr 32)).

(** The address is computed in [uint64_t], as in [reloc_call]. *)
Definition patch_string (text : bytes) (off addr : Z) : option bytes :=
  t1 ← put32 text (u64 (off + 4)) (u32 addr);
  put32 t1 (u64 (off + 8 + 4)) (u32 (Z.shiftr addr 32)).

(** Relocation type 1: data or string. *)
Definition reloc_data (st : lstate) (sections : list section) (data_ndx str_ndx : Z)
    (sym_name shndx value off : Z) : res (lerr * lstate) lstate :=
  if shndx =? data_ndx then
    if data_ndx =? 0 then Err (LMissingData, st)
    else
      let! name := res_of (symbol_name sym_name) in
      let! data := res_of (sections !! Z.to_nat data_ndx) in
      let! (addr, st1) := map_for_symbol st name data value in
      let! t := res_of (patch_map (l_text st1) off addr) in
      Ok (set_text t st1)
  else if shndx =? str_ndx then
    if str_ndx =? 0 then Err (LMissingString, st)
    else
      let! str := res_of (sections !! Z.to_nat str_ndx) in
      let copy := slice elf (s_data str) (s_size str) in
      let! s := res_of (c_string copy value) in
      if s_size str <? u64 (value + Z.of_nat (length s)) then Err (LBadDataOffset, st)
      else
        let! t := res_of (patch_string (l_text st) off (u64 (str_addr + value))) in
        Ok (set_text t st)
  else Ok st.

(** Relocation type 2: a helper. *)
Definition reloc_call (st : lstate) (sym_name off : Z) : res (lerr * lstate) lstate :=
  let! name := res_of (symbol_name sym_name) in
  let i := ubpf_lookup_registered_function (l_vm st) name in
  if i =? UINT32_MAX then Err (LNoFunction name, st)
  else
    let! t := res_of (put32 (l_text st) (u64 (off + 4)) i) in
    Ok (set_text t st).

(** One [Elf64_Rel], at offset [r] of the file. *)
Definition relocate (st : lstate) (sections : list section) (symtab strtab : section)
    (text_size data_ndx str_ndx r : Z) : res (lerr * lstate) lstate :=
  let! off := res_of (field elf r 8) in
  let! info := res_of (field elf (r + 8) 8) in
  let type := u32 info in
  if negb (type =? ET_EXEC) && negb (type =? ET_REL) then Err (LBadRelocType type, st)
  else
    let sym_idx := u32 (Z.shiftr info 32) in
    if u32 (s_size symtab / 24) <=? sym_idx then Err (LBadSymbol, st)
    else
      let sym := s_data symtab + 24 * sym_idx in
      let! st_name := res_of (field elf sym 4) in
      if s_size strtab <=? st_name then Err (LBadSymbolName, st)
      else if text_size <? u64 (off + 8) then Err (LBadRelocOffset, st)
      else
        let sym_name := s_data strtab + st_name in
        if type =? 1 then
          let! shndx := res_of (field elf (sym + 6) 2) in
          let! value := res_of (field elf (sym + 8) 8) in
          reloc_data st sections data_ndx str_ndx sym_name shndx value off
        else reloc_call st sym_name off.

Fixpoint relocate_all (st : lstate) (sections : list section) (symtab strtab : section)
    (text_size data_ndx str_ndx : Z) (rs : list Z) : res (lerr * lstate) lstate :=
  match rs with
  | [] => Ok st
  | r :: rest =>
      let! st1 := relocate st sections symtab strtab text_size data_ndx str_ndx r in
      relocate_all st1 sections symtab strtab text_size data_ndx str_ndx rest
  end.

(** One relocation section. *)
Definition relocate_section (st : lstate) (sections : list section)
    (text_ndx text_size data_ndx str_ndx : Z) (rel : section) : res (lerr * lstate) lstate :=
  if negb (sh_type rel =? SHT_REL) || negb (sh_info rel =? text_ndx) then Ok st
  else if Z.of_nat (length sections) <=? sh_link rel then Err (LBadSymtab, st)
  else
    let! symtab := res_of (sections !! Z.to_nat (sh_link rel)) in
    if Z.of_nat (length sections) <=? sh_link symtab then Err (LBadStrtab, st)
    else
      let! strtab := res_of (sections !! Z.to_nat (sh_link symtab)) in
      relocate_all st sections symtab strtab text_size data_ndx str_ndx
        ((fun j => s_data rel + 16 * j) <$> seqZ 0 (s_size rel / 16)).

Fixpoint relocate_sections (st : lstate) (sections : list section)
    (text_ndx text_size data_ndx str_ndx : Z) (rels : list section) : res (lerr * lstate) lstate :=
  match rels with
  | [] => Ok st
  | rel :: rest =>
      let! st1 := relocate_section st sections text_ndx text_size data_ndx str_ndx rel in
      relocate_sections st1 sections text_ndx text_size data_ndx str_ndx rest
  end.
End Reloc.

(** What the verifier sees of the maps. *)
Definition sizes_of (maps : gmap Z ubpf_map) : gmap Z map_sizes :=
  (fun m => mk_sizes (m_key_size m) (m_value_size m)) <$> maps.

(** ** [ubpf_load_elf]

    The result is the C status, the error if there is one, and the state. *)
Definition ubpf_load_elf (verifier : bool) (indet : walk -> Z) (now : Z) (fresh : nat -> Z)
    (str_addr : Z) (spare : bytes) (vm : ubpf_vm) (maps : gmap Z ubpf_map) (elf : bytes)
    : res unit (Z * option lerr * lstate) :=
  let fail e st := Ok (-1, Some e, st) in
  let st0 := mk_lstate vm [] maps 0 in
  match check_header elf with
  | Undef => Undef
  | Err e => fail e st0
  | Ok (shoff, shentsize, shnum) =>
      match read_sections elf shoff shentsize (seqZ 0 shnum) with
      | Undef => Undef
      | Err e => fail e st0
      | Ok sections =>
          let text_ndx := find_section (Z.lor SHF_ALLOC SHF_EXECINSTR) 0 sections in
          if text_ndx =? 0 then fail LNoText st0
          else
            let data_ndx := find_section (Z.lor SHF_ALLOC SHF_WRITE) 0 sections in
            let str_ndx := find_section (Z.lor SHF_ALLOC (Z.lor SHF_MERGE SHF_STRINGS)) 0 sections in
            match sections !! Z.to_nat text_ndx with
            | None => Undef
            | Some text =>
                let st1 := set_text (slice elf (s_data text) (s_size text)) st0 in
                match relocate_sections elf fresh str_addr spare st1 sections
                        text_ndx (s_size text) data_ndx str_ndx sections with
                | Undef => Undef
                | Err (e, st) => fail e st
                | Ok st =>
                    (* [ubpf_load] takes a 32-bit length *)
                    let code := take (Z.to_nat (u32 (s_size text))) (l_text st) in
                    match ubpf_load verifier (sizes_of (l_maps st)) indet now (l_vm st) code with
                    | Ok (r, vm', e) =>
                        Ok (r, LLoad <$> e, mk_lstate vm' (l_text st) (l_maps st) (l_next st))
                    | _ => Undef
                    end
                end
            end
      end
  end.
