(* ===== verification/LoaderProps.v ===== *)
(** * Properties of the ELF loader

    Parsing stays inside the file, relocation patches exactly the instruction it
    names, a map symbol always gets the same map, and what a successful load
    installs has been verified. *)

From S2P Require Import Prelude Ebpf Memory Vm Interp InterpProps ValidateInsts ValidateCfg.
From S2P Require Import ExecSafety RegState AluRange ValidateAccesses WalkProps Helpers.
From S2P Require Import AccessSound Lookup3 Lookup3Props MapDef ArrayMap HashMap BloomFilter.
From S2P Require Import CountMin Maps Loader.

(** ** Fields *)

Lemma field_in_file elf off n :
  wf_bytes elf -> 0 <= off -> off + Z.of_nat n <= Z.of_nat (length elf) ->
  exists v, field elf off n = Some v /\ in_u (8 * Z.of_nat n) v.
Proof.
  intros Hwf H0 Hn. unfold field.
  rewrite (proj2 (Z.leb_le _ _) H0), (proj2 (Z.leb_le _ _) Hn). simpl. eexists. split; [done|].
  pose proof (le_value_range (take n (drop (Z.to_nat off) elf))) as H.
  rewrite length_take, length_drop in H. rewrite Nat.min_l in H by lia.
  apply H, Forall_take, Forall_drop, Hwf.
Qed.

Lemma elf_bounds_check_spec n o s :
  in_u 64 n -> in_u 64 o -> in_u 64 s ->
  elf_bounds_check n o s = if o + s <=? n then Some o else None.
Proof.
  intros Hn Ho Hs. unfold elf_bounds_check.
  destruct (Z.leb_spec (o + s) n) as [Hle|Hgt].
  - rewrite wrap_small by word_lia.
    rewrite (proj2 (Z.ltb_ge n (o + s))), (proj2 (Z.ltb_ge (o + s) o)) by word_lia. done.
  - destruct (Z.ltb_spec n (u64 (o + s))); [done|]. simpl.
    destruct (Z.ltb_spec (u64 (o + s)) o); [done|]. exfalso. word_lia.
Qed.

(** ** The section table *)

Section Parse.
Context (elf : bytes) (Hwf : wf_bytes elf) (Hlen : Z.of_nat (length elf) < 2 ^ 64).

Definition in_file (s : section) : Prop :=
  0 <= s_data s /\ 0 <= s_size s /\ s_data s + s_size s <= Z.of_nat (length elf).

(** Reads a field that the bounds check has put inside the file. *)
Ltac read_field v H :=
  match goal with
  | |- context [field elf ?o ?n] =>
      destruct (field_in_file elf o n Hwf) as (v & -> & H); [lia|lia|]; cbn [res_of res_bind]
  end.

Lemma check_header_total :
  check_header elf <> Undef /\
  forall shoff shentsize shnum, check_header elf = Ok (shoff, shentsize, shnum) ->
    in_u 64 shoff /\ in_u 16 shentsize /\ 0 <= shnum <= MAX_SECTIONS.
Proof.
  unfold check_header. rewrite elf_bounds_check_spec by word_lia.
  destruct (Z.leb_spec (0 + 64) (Z.of_nat (length elf))); [|done].
  do 7 (let v := fresh "v" in let Hv := fresh "Hv" in
        read_field v Hv; case_match; [done|]).
  read_field shn Hshn. destruct (Z.ltb_spec MAX_SECTIONS shn); [done|].
  read_field sho Hsho. read_field she Hshe.
  split; [done|]. intros ??? [= <- <- <-]. split_and!; try done. apply Hshn.
Qed.

Lemma read_section_total shoff shentsize i :
  match read_section elf shoff shentsize i with
  | Undef => False
  | Err e => e = LBadSectionHeader \/ e = LBadSection
  | Ok s => in_file s
  end.
Proof.
  unfold read_section. pose proof (wrap_range 64 (shoff + i * shentsize) ltac:(lia)) as Hh.
  rewrite elf_bounds_check_spec by (done || word_lia).
  destruct (Z.leb_spec (u64 (shoff + i * shentsize) + 64) (Z.of_nat (length elf))); [|by left].
  unfold in_u in Hh. read_field o Ho. read_field sz Hsz.
  rewrite elf_bounds_check_spec by (done || word_lia).
  destruct (Z.leb_spec (o + sz) (Z.of_nat (length elf))); [|by right].
  read_field t Ht. read_field f Hf. read_field l Hl. read_field inf Hinf.
  unfold in_file, in_u in *. simpl. lia.
Qed.

Lemma read_sections_total shoff shentsize idx :
  match read_sections elf shoff shentsize idx with
  | Undef => False
  | Err e => e = LBadSectionHeader \/ e = LBadSection
  | Ok ss => length ss = length idx /\ Forall in_file ss
  end.
Proof.
  induction idx as [|i idx IH]; simpl; [done|].
  pose proof (read_section_total shoff shentsize i) as H.
  destruct (read_section elf shoff shentsize i) as [s|e|]; [|done|done]. simpl.
  destruct (read_sections elf shoff shentsize idx) as [ss|e|]; [|done|done]. simpl.
  destruct IH as [-> IH]. split; [done|]. by constructor.
Qed.
End Parse.

(** for every byte buffer, however malformed: parsing the ELF header and the
    section table never reads outside the buffer; it reports one of the loader's
    errors or yields at most 32 sections, each of them inside the file. *)
Theorem section_table_safe elf :
  wf_bytes elf -> Z.of_nat (length elf) < 2 ^ 64 ->
  match check_header elf with
  | Undef => False
  | Err _ => True
  | Ok (shoff, shentsize, shnum) =>
      0 <= shnum <= 32 /\
      match read_sections elf shoff shentsize (seqZ 0 shnum) with
      | Undef => False
      | Err e => e = LBadSectionHeader \/ e = LBadSection
      | Ok ss => Z.of_nat (length ss) = shnum /\
                 Forall (fun s => 0 <= s_data s /\ 0 <= s_size s /\
                                  s_data s + s_size s <= Z.of_nat (length elf)) ss
      end
  end.
Proof.
  intros Hwf Hlen. destruct (check_header_total elf Hwf Hlen) as [Hu Hok].
  destruct (check_header elf) as [[[shoff she] shn]|e|]; [|done|done].
  destruct (Hok shoff she shn eq_refl) as (_ & _ & Hn). split; [exact Hn|].
  pose proof (read_sections_total elf Hwf Hlen shoff she (seqZ 0 shn)) as H.
  destruct (read_sections _ _ _ _) as [ss|e|]; [|done|done].
  destruct H as [Hl H]. rewrite length_seqZ in Hl. split; [lia|exact H].
Qed.

(** ** Patching the text *)

Definition set_imm (v : Z) (i : ebpf_inst) : ebpf_inst :=
  mk_inst (opcode i) (dst i) (src i) (offset i) v.
Definition set_src (v : Z) (i : ebpf_inst) : ebpf_inst :=
  mk_inst (opcode i) (dst i) v (offset i) (imm i).

(** Splits the first instruction off a text of [S n] instructions. *)
Ltac take8 bs Hl := do 8 (destruct bs as [|? bs]; [cbn [length] in Hl; lia|]).

Lemma le_bytes4_decode v b0 b1 b2 b3 rest :
  match le_bytes 4 v with
  | [c0; c1; c2; c3] =>
      insts_of_bytes (b0 :: b1 :: b2 :: b3 :: c0 :: c1 :: c2 :: c3 :: rest) =
      mk_inst b0 (Z.land b1 0xf) (Z.shiftr b1 4) (s16 (b2 + Z.shiftl b3 8)) (s32 v)
        :: insts_of_bytes rest
  | _ => False
  end.
Proof.
  cbn [le_bytes insts_of_bytes]. unfold inst_of_bytes. do 2 f_equal.
  rewrite !Z.div_div by lia.
  change (2 ^ 8 * 2 ^ 8) with (2 ^ 16). change (2 ^ 16 * 2 ^ 8) with (2 ^ 24).
  rewrite <- !Z.shiftr_div_pow2 by lia. by rewrite le32, sext_wrap.
Qed.

Lemma imm_decode n text k v :
  length text = (8 * n)%nat -> (k < n)%nat ->
  insts_of_bytes (list_inserts (8 * k + 4) (le_bytes 4 v) text) =
  alter (set_imm (s32 v)) k (insts_of_bytes text).
Proof.
  revert n text. induction k as [|k IH]; intros n text Hl Hk; (destruct n as [|n]; [lia|]); take8 text Hl.
  - pose proof (le_bytes4_decode v z z0 z1 z2 text) as H.
    pose proof (length_le_bytes 4 v) as Hb.
    destruct (le_bytes 4 v) as [|c0 [|c1 [|c2 [|c3 [|]]]]]; try done.
  - replace (8 * S k + 4)%nat with (8 + (8 * k + 4))%nat by lia.
    assert (forall m (xs ys : list Z) y, list_inserts (S m) xs (y :: ys) = y :: list_inserts m xs ys)
      as Hc by (intros m xs; revert m; induction xs as [|x xs IHx]; intros m ys y; simpl; [done|];
                by rewrite IHx).
    cbn [Nat.add]. rewrite !Hc. cbn [insts_of_bytes].
    rewrite (IH n) by (cbn [length] in Hl; lia). done.
Qed.

Lemma put32_imm n text k v :
  length text = (8 * n)%nat -> (k < n)%nat ->
  exists text', put32 text (8 * Z.of_nat k + 4) v = Some text' /\ length text' = (8 * n)%nat /\
    insts_of_bytes text' = alter (set_imm (s32 v)) k (insts_of_bytes text).
Proof.
  intros Hl Hk. unfold put32.
  rewrite (proj2 (Z.leb_le _ _)), (proj2 (Z.leb_le _ _)) by lia. simpl andb. cbv iota.
  eexists. split; [done|]. rewrite length_inserts. split; [done|].
  replace (Z.to_nat (8 * Z.of_nat k + 4)) with (8 * k + 4)%nat by lia. by apply (imm_decode n).
Qed.

Lemma src_decode n text k b s :
  length text = (8 * n)%nat -> (k < n)%nat -> text !! (8 * k + 1)%nat = Some b ->
  insts_of_bytes (<[(8 * k + 1)%nat := Z.lor (Z.land b 0xf) (Z.shiftl s 4)]> text) =
  alter (set_src s) k (insts_of_bytes text).
Proof.
  revert n text. induction k as [|k IH]; intros n text Hl Hk Hb; (destruct n as [|n]; [lia|]); take8 text Hl.
  - injection Hb as ->. cbn [insts_of_bytes]. cbn. unfold inst_of_bytes, set_src; cbn [opcode dst src offset imm].
    assert (in_u 4 (Z.land b 15)) by (change 15 with (Z.ones 4); rewrite Z.land_ones by lia; word_lia).
    by rewrite nibbles_lo, nibbles_hi.
  - replace (8 * S k + 1)%nat with (8 + (8 * k + 1))%nat in * by lia.
    cbn [Nat.add insert list_insert insts_of_bytes lookup list_lookup] in *.
    specialize (IH n text ltac:(cbn [length] in Hl; lia) ltac:(lia) Hb).
    change (insts_of_bytes (?f (8 * k + 1)%nat ?x text)) with (insts_of_bytes (<[(8 * k + 1)%nat := x]> text)).
    rewrite IH. done.
Qed.

Lemma field1 bs i b : bs !! i = Some b -> field bs (Z.of_nat i) 1 = Some b.
Proof.
  intros Hb. pose proof (lookup_lt_Some _ _ _ Hb). unfold field.
  rewrite (proj2 (Z.leb_le _ _)), (proj2 (Z.leb_le _ _)) by lia. cbn [andb]. rewrite Nat2Z.id.
  rewrite (drop_S bs b i Hb). cbn [take le_value]. rewrite take_0. cbn [le_value]. f_equal. lia.
Qed.

(** What a map relocation makes of the two slots of the LDDW at index [k]. *)
Definition load_map_pair (k : nat) (addr : Z) (prog : list ebpf_inst) : list ebpf_inst :=
  alter (set_imm (s32 (Z.shiftr addr 32))) (S k)
    (alter (set_imm (s32 addr)) k (alter (set_src BPF_PSEUDO_MAP_FD) k prog)).

Lemma patch_map_decode n text k addr :
  length text = (8 * n)%nat -> (S k < n)%nat ->
  exists text', patch_map text (8 * Z.of_nat k) addr = Some text' /\ length text' = (8 * n)%nat /\
    insts_of_bytes text' = load_map_pair k addr (insts_of_bytes text).
Proof.
  intros Hl Hk. unfold patch_map, load_map_pair.
  destruct (lookup_lt_is_Some_2 text (8 * k + 1)) as [b Hb]; [lia|].
  replace (8 * Z.of_nat k + 1) with (Z.of_nat (8 * k + 1)) by lia. rewrite (field1 _ _ _ Hb).
  cbn [mbind option_bind].
  unfold put8. rewrite (proj2 (Z.leb_le _ _)), (proj2 (Z.leb_le _ _)) by lia. cbv [andb].
  rewrite Nat2Z.id.
  assert (in_u 8 (Z.lor (Z.land b 15) (Z.shiftl BPF_PSEUDO_MAP_FD 4))) as Hr.
  { apply lor_range; [lia| |by unfold in_u].
    change 15 with (Z.ones 4); rewrite Z.land_ones by lia; word_lia. }
  rewrite (wrap_small 8 _ Hr). cbn [mbind option_bind].
  pose proof (src_decode n text k b BPF_PSEUDO_MAP_FD Hl ltac:(lia) Hb) as H1.
  set (t1 := <[(8 * k + 1)%nat := _]> text) in *.
  assert (length t1 = (8 * n)%nat) as Hl1 by (unfold t1; by rewrite length_insert).
  destruct (put32_imm n t1 k (u32 addr) Hl1 ltac:(lia)) as (t2 & -> & Hl2 & H2).
  cbn [mbind option_bind].
  destruct (put32_imm n t2 (S k) (u32 (Z.shiftr addr 32)) Hl2 ltac:(lia)) as (t3 & E3 & Hl3 & H3).
  replace (8 * Z.of_nat (S k) + 4) with (8 * Z.of_nat k + 12) in E3 by lia.
  exists t3. split_and!; [done..|]. by rewrite H3, H2, H1, !sext_wrap.
Qed.

(** The immediate that the interpreter assembles from the pair. *)
Lemma load_map_pair_imm k addr prog i1 i2 :
  in_u 64 addr -> prog !! k = Some i1 -> prog !! S k = Some i2 ->
  exists j1 j2, load_map_pair k addr prog !! k = Some j1 /\ load_map_pair k addr prog !! S k = Some j2 /\
    opcode j1 = opcode i1 /\ dst j1 = dst i1 /\ src j1 = BPF_PSEUDO_MAP_FD /\ opcode j2 = opcode i2 /\
    Z.lor (u32 (imm j1)) (u64 (Z.shiftl (imm j2) 32)) = addr.
Proof.
  intros Ha H1 H2. unfold load_map_pair.
  rewrite (list_lookup_alter_ne _ (alter _ k _) (S k) k) by lia.
  rewrite !list_lookup_alter_eq, (list_lookup_alter_ne _ _ k (S k)), (list_lookup_alter_ne _ _ k (S k)) by lia.
  rewrite H1, H2. cbn [fmap option_fmap option_map]. do 2 eexists. split_and!; try done.
  cbn [imm set_imm]. rewrite wrap_sext by lia.
  assert (u64 (Z.shiftl (s32 (Z.shiftr addr 32)) 32) = Z.shiftl (Z.shiftr addr 32) 32) as ->.
  { rewrite !Z.shiftl_mul_pow2, Z.shiftr_div_pow2 by lia. unfold wrap.
    replace (2 ^ 64) with (2 ^ 32 * 2 ^ 32) by lia. rewrite Z.mul_mod_distr_r by lia. f_equal.
    pose proof (wrap_sext 32 (addr / 2 ^ 32) ltac:(lia)) as E. unfold wrap in E. rewrite E.
    apply Z.mod_small. word_lia. }
  unfold wrap. rewrite <- Z.land_ones by lia. apply Z.bits_inj'. intros n Hn.
  rewrite Z.lor_spec, Z.land_spec, Z.shiftl_spec, Z.testbit_ones_nonneg by lia.
  destruct (Z.ltb_spec n 32).
  - rewrite (Z.testbit_neg_r _ (n - 32)) by lia. by rewrite andb_true_r, orb_false_r.
  - rewrite Z.shiftr_spec by lia. rewrite andb_false_r. simpl. f_equal. lia.
Qed.

(** ** Relocations *)

(** The state in which relocations run: a text of [n] instructions, and every
    registered map name bound to a non-null address. *)
Record wf_lstate (n : nat) (st : lstate) : Prop := {
  wfl_vm : wf_vm (l_vm st);
  wfl_text : length (l_text st) = (8 * n)%nat;
  wfl_addr : forall i name, ext_map_names (l_vm st) !! i = Some (Some name) ->
               exists a, ext_maps (l_vm st) !! i = Some a /\ 0 < a < 2 ^ 64
}.

Lemma lookup_map_registered n st name :
  wf_lstate n st -> (exists i, ext_map_names (l_vm st) !! i = Some (Some name)) ->
  0 < ubpf_lookup_registered_map (l_vm st) name < 2 ^ 64.
Proof.
  intros Hst [i Hi]. unfold ubpf_lookup_registered_map.
  destruct (scan_names name (ext_map_names (l_vm st)) 0) as [j|] eqn:E.
  - apply scan_names_spec in E as (Hj & o & Ho & ->). rewrite Z.sub_0_r in Ho.
    destruct (wfl_addr _ _ Hst _ _ Ho) as (a & -> & Ha). done.
  - by apply (proj1 (scan_names_None _ _ _) E) in Hi.
Qed.

Lemma lookup_map_unregistered n st name :
  wf_lstate n st -> ubpf_lookup_registered_map (l_vm st) name = 0 ->
  forall i, ext_map_names (l_vm st) !! i <> Some (Some name).
Proof.
  intros Hst H0 i Hi. pose proof (lookup_map_registered n st name Hst (ex_intro _ i Hi)). lia.
Qed.

Lemma lookup_map_slot vm name :
  ubpf_lookup_registered_map vm name <> 0 -> exists i, ext_map_names vm !! i = Some (Some name).
Proof.
  unfold ubpf_lookup_registered_map.
  destruct (scan_names name (ext_map_names vm) 0) as [j|] eqn:E; [|done]. intros _.
  apply scan_names_spec in E as (_ & o & Ho & ->). eauto.
Qed.

Section Relocations.
Context (elf : bytes) (fresh : nat -> Z) (str_addr : Z) (spare : bytes).
Context (Hfresh : forall i, 0 < fresh i < 2 ^ 64).

(** After it, the symbol is registered under the address returned. *)
Lemma map_for_symbol_spec n st name data value addr st' :
  wf_lstate n st -> map_for_symbol elf fresh spare st name data value = Ok (addr, st') ->
  wf_lstate n st' /\ 0 < addr < 2 ^ 64 /\ ubpf_lookup_registered_map (l_vm st') name = addr /\
  l_text st' = l_text st /\
  (forall name', name' <> name -> ubpf_lookup_registered_map (l_vm st') name' =
                                  ubpf_lookup_registered_map (l_vm st) name').
Proof.
  intros Hst. unfold map_for_symbol.
  destruct (Z.eqb_spec (ubpf_lookup_registered_map (l_vm st) name) 0) as [H0|H0]; simpl.
  2:{ intros [= <- <-]. split_and!; try done; eapply lookup_map_registered, lookup_map_slot; eauto. }
  case_match; [done|]. intros Hm. res_inv.
  pose proof (register_map_lookup (l_vm st) name (fresh (l_next st)) (wfl_vm _ _ Hst)
                (lookup_map_unregistered n st name Hst H0)) as Hr.
  pose proof (ubpf_register_map_wf (l_vm st) name (fresh (l_next st)) (wfl_vm _ _ Hst)) as Hw.
  destruct (ubpf_register_map (l_vm st) name (fresh (l_next st))) as [r vm'] eqn:Er.
  simplify_eq. destruct Hr as [(-> & _)|(-> & _ & Hl & Ho)]; [done|].
  split_and!; try done; try apply Hfresh.
  split; [done|apply (wfl_text _ _ Hst)|].
  cbn [l_vm]. unfold ubpf_register_map in Er. destruct (MAX_EXT_MAPS <=? nb_maps (l_vm st)) eqn:Ef; [done|].
  injection Er as <-. cbn [ext_map_names ext_maps]. intros i name' Hi.
  destruct (decide (i = Z.to_nat (nb_maps (l_vm st)))) as [->|Hne].
  - apply list_lookup_insert_Some in Hi as [(_ & _ & Hlt)|[]]; [|done].
    destruct Hst as [[] _ _]. rewrite list_lookup_insert_eq by lia. eauto.
  - rewrite list_lookup_insert_ne in Hi by done.
    apply (wfl_addr _ _ Hst) in Hi as (a' & Ha' & ?). exists a'.
    by rewrite list_lookup_insert_ne by done.
Qed.

Lemma map_for_symbol_registered n st name data value :
  wf_lstate n st -> ubpf_lookup_registered_map (l_vm st) name <> 0 ->
  map_for_symbol elf fresh spare st name data value =
  Ok (ubpf_lookup_registered_map (l_vm st) name, st).
Proof. intros Hst H. unfold map_for_symbol. by rewrite (proj2 (Z.eqb_neq _ _) H). Qed.
End Relocations.

(** a call relocation against a symbol: an error naming the symbol when no
    helper has that name (and the state is as before); otherwise the immediate of
    exactly the instruction the relocation points to becomes an index under which
    the helper is registered, and nothing else changes. *)
Theorem call_relocation_correct elf st n k sym_name name :
  wf_lstate n st -> (k < n)%nat -> 8 * Z.of_nat n < 2 ^ 64 -> symbol_name elf sym_name = Some name ->
  (reloc_call elf st sym_name (8 * Z.of_nat k) = Err (LNoFunction name, st) /\
   forall j, ext_func_names (l_vm st) !! j <> Some (Some name)) \/
  (exists i st', reloc_call elf st sym_name (8 * Z.of_nat k) = Ok st' /\
     0 <= i < MAX_EXT_FUNCS /\ ext_func_names (l_vm st) !! Z.to_nat i = Some (Some name) /\
     l_vm st' = l_vm st /\ l_maps st' = l_maps st /\
     insts_of_bytes (l_text st') = alter (set_imm i) k (insts_of_bytes (l_text st))).
Proof.
  intros Hst Hk Hn Hname. unfold reloc_call. rewrite Hname. cbn [res_of res_bind].
  destruct (lookup_registered_function_spec (l_vm st) name (wfl_vm _ _ Hst)) as [[Hi Hno]|[Hi Hs]].
  - left. by rewrite Hi.
  - right. rewrite (proj2 (Z.eqb_neq _ _)) by (unfold UINT32_MAX; clia).
    rewrite wrap_small by (unfold in_u; lia).
    destruct (put32_imm n (l_text st) k (ubpf_lookup_registered_function (l_vm st) name)
                (wfl_text _ _ Hst) Hk) as (t & -> & Ht & Hd).
    do 2 eexists. split_and!; [done|apply Hi|apply Hi|done..|]. cbn [res_of res_bind l_text set_text].
    by rewrite Hd, sext_small by (try (unfold in_s); clia).
Qed.

(** a map relocation that succeeds leaves the symbol registered under a
    non-null address, and the LDDW it points to loads exactly that address with
    the pseudo source register (whatever the immediates were); later relocations
    against the same symbol load the same address and create no further map. *)
Theorem map_relocation_correct elf fresh str_addr spare st st' n k sections data data_ndx str_ndx
    sym_name name value :
  (forall i, 0 < fresh i < 2 ^ 64) -> wf_lstate n st -> (S k < n)%nat ->
  symbol_name elf sym_name = Some name -> data_ndx <> 0 -> sections !! Z.to_nat data_ndx = Some data ->
  reloc_data elf fresh str_addr spare st sections data_ndx str_ndx sym_name data_ndx value
    (8 * Z.of_nat k) = Ok st' ->
  exists addr, 0 < addr < 2 ^ 64 /\ ubpf_lookup_registered_map (l_vm st') name = addr /\
    wf_lstate n st' /\
    insts_of_bytes (l_text st') = load_map_pair k addr (insts_of_bytes (l_text st)) /\
    (exists j1 j2, insts_of_bytes (l_text st') !! k = Some j1 /\
       insts_of_bytes (l_text st') !! S k = Some j2 /\ src j1 = BPF_PSEUDO_MAP_FD /\
       Z.lor (u32 (imm j1)) (u64 (Z.shiftl (imm j2) 32)) = addr) /\
    forall k' value', (S k' < n)%nat ->
      exists t, reloc_data elf fresh str_addr spare st' sections data_ndx str_ndx sym_name data_ndx
                  value' (8 * Z.of_nat k') = Ok (set_text t st') /\
        insts_of_bytes t = load_map_pair k' addr (insts_of_bytes (l_text st')).
Proof.
  intros Hfresh Hst Hk Hname Hd Hsec. unfold reloc_data.
  rewrite Z.eqb_refl, (proj2 (Z.eqb_neq _ _) Hd), Hname, Hsec. cbn [res_of res_bind].
  destruct (map_for_symbol _ _ _ _ _ _ _) as [[addr st1]|e|] eqn:Em; [|done|done]. cbn [res_bind].
  apply (map_for_symbol_spec elf fresh spare Hfresh n) in Em as (Hst1 & Ha & Hl & Ht & _); [|done].
  destruct (patch_map_decode n (l_text st1) k addr (wfl_text _ _ Hst1) Hk) as (t & -> & Htl & Htd).
  intros [= <-]. exists addr. cbn [l_vm l_text set_text] in *. rewrite Ht in Htd.
  assert (wf_lstate n (set_text t st1)) as Hst' by (by destruct Hst1; split).
  split_and!; try done; try apply Ha.
  - destruct (lookup_lt_is_Some_2 (insts_of_bytes (l_text st)) k) as [i1 H1];
      [rewrite (length_insts_of_bytes n) by apply Hst; lia|].
    destruct (lookup_lt_is_Some_2 (insts_of_bytes (l_text st)) (S k)) as [i2 H2];
      [rewrite (length_insts_of_bytes n) by apply Hst; lia|].
    destruct (load_map_pair_imm k addr (insts_of_bytes (l_text st)) i1 i2) as (j1 & j2 & ? & ? & H);
      [unfold in_u; lia|done|done|]. rewrite Htd. exists j1, j2.
    destruct H as (_ & _ & ? & _ & ?). by split_and!.
  - intros k' value' Hk'. rewrite (map_for_symbol_registered elf fresh spare n);
      [|done|cbn [l_vm set_text]; lia]. cbn [res_bind l_text l_vm set_text]. rewrite Hl.
    destruct (patch_map_decode n t k' addr Htl Hk') as (t' & -> & _ & Htd'). by exists t'.
Qed.

(** ** Whole files *)

(** The relocations change nothing of the machine but its map table. *)
Definition same_program (vm vm' : ubpf_vm) : Prop :=
  insts vm' = insts vm /\ num_insts vm' = num_insts vm /\ ext_funcs vm' = ext_funcs vm /\
  ext_func_names vm' = ext_func_names vm.

#[export] Instance same_program_preorder : PreOrder same_program.
Proof.
  split; [by intros vm|]. intros a b c (? & ? & ? & ?) (? & ? & ? & ?).
  unfold same_program. split_and!; congruence.
Qed.

(** The state a relocation step leaves, also with an error. *)
Definition leaves (vm : ubpf_vm) (r : res (lerr * lstate) lstate) : Prop :=
  match r with
  | Ok st => same_program vm (l_vm st)
  | Err (_, st) => same_program vm (l_vm st)
  | Undef => True
  end.

Lemma leaves_bind_pure {A} vm (o : option A) k :
  (forall a, leaves vm (k a)) -> leaves vm (res_bind (res_of o) k).
Proof. destruct o; simpl; auto. Qed.

Lemma leaves_bind vm c k :
  leaves vm c -> (forall st, leaves (l_vm st) (k st)) -> leaves vm (res_bind c k).
Proof.
  destruct c as [st|[e st]|]; simpl; [|done|done]. intros H Hk. specialize (Hk st).
  destruct (k st) as [st'|[e st']|]; simpl in *; [by etrans..|done].
Qed.

Section Frame.
Context (elf : bytes) (fresh : nat -> Z) (str_addr : Z) (spare : bytes).

Lemma map_for_symbol_leaves st name data value :
  match map_for_symbol elf fresh spare st name data value with
  | Ok (_, st') => same_program (l_vm st) (l_vm st')
  | Err (_, st') => st' = st
  | Undef => True
  end.
Proof.
  unfold map_for_symbol, ubpf_register_map.
  destruct (negb _); [done|]. destruct (_ <? _); [done|].
  destruct (read_map_def _ _) as [d|]; [|done]. simpl.
  destruct (create_map d spare) as [[m|]|]; [|done|done]. simpl.
  destruct (MAX_EXT_MAPS <=? nb_maps (l_vm st)); done.
Qed.

Lemma reloc_data_leaves st sections dn sn a shndx value off :
  leaves (l_vm st) (reloc_data elf fresh str_addr spare st sections dn sn a shndx value off).
Proof.
  unfold reloc_data. case_match; [case_match; [done|]|case_match; [case_match; [done|]|done]].
  - apply leaves_bind_pure. intros name. apply leaves_bind_pure. intros data.
    pose proof (map_for_symbol_leaves st name data value) as Hm.
    destruct (map_for_symbol _ _ _ _ _ _ _) as [[addr st1]|[e st1]|]; simpl; [|by subst|done].
    destruct (patch_map _ _ _); done.
  - apply leaves_bind_pure. intros str. apply leaves_bind_pure. intros s. case_match; [done|].
    by apply leaves_bind_pure.
Qed.

Lemma reloc_call_leaves st a off : leaves (l_vm st) (reloc_call elf st a off).
Proof.
  unfold reloc_call. apply leaves_bind_pure. intros name. case_match; [done|].
  by apply leaves_bind_pure.
Qed.

Lemma relocate_leaves st sections symtab strtab ts dn sn r :
  leaves (l_vm st) (relocate elf fresh str_addr spare st sections symtab strtab ts dn sn r).
Proof.
  unfold relocate. apply leaves_bind_pure. intros off. apply leaves_bind_pure. intros info.
  case_match; [done|]. case_match; [done|]. apply leaves_bind_pure. intros nm.
  case_match; [done|]. case_match; [done|]. case_match; [|apply reloc_call_leaves].
  apply leaves_bind_pure. intros shndx. apply leaves_bind_pure. intros value.
  apply reloc_data_leaves.
Qed.

Lemma relocate_section_leaves st sections tn ts dn sn rel :
  leaves (l_vm st) (relocate_section elf fresh str_addr spare st sections tn ts dn sn rel).
Proof.
  unfold relocate_section. case_match; [done|]. case_match; [done|].
  apply leaves_bind_pure. intros symtab. case_match; [done|].
  apply leaves_bind_pure. intros strtab. generalize ((fun j => s_data rel + 16 * j) <$> seqZ 0 (s_size rel / 16)).
  intros rs. revert st. induction rs as [|r rs IH]; intros st; simpl; [done|].
  apply leaves_bind; [apply relocate_leaves|done].
Qed.

Lemma relocate_sections_leaves st sections tn ts dn sn rels :
  leaves (l_vm st) (relocate_sections elf fresh str_addr spare st sections tn ts dn sn rels).
Proof.
  revert st. induction rels as [|rel rels IH]; intros st; simpl; [done|].
  apply leaves_bind; [apply relocate_section_leaves|done].
Qed.
End Frame.

(** ** Sample files

    Sections 1 to 5 are the text, its relocations, the symbol table, the string
    table and the data section, in this order after the header; the header of
    the last one is an argument, a function of the offset of its contents. *)

Definition shdr (type flags off size link info : Z) : bytes :=
  le_bytes 8 (type * 2 ^ 32) ++ le_bytes 8 flags ++ le_bytes 8 0 ++ le_bytes 8 off ++
  le_bytes 8 size ++ le_bytes 4 link ++ le_bytes 4 info ++ le_bytes 16 0.
Definition sym (name shndx value : Z) : bytes :=
  le_bytes 4 name ++ [0; 0] ++ le_bytes 2 shndx ++ le_bytes 8 value ++ le_bytes 8 0.
Definition rel (off symidx type : Z) : bytes := le_bytes 8 off ++ le_bytes 8 (symidx * 2 ^ 32 + type).
Definition c_bytes (s : string) : bytes :=
  ((fun a => Z.of_nat (Ascii.nat_of_ascii a)) <$> String.list_ascii_of_string s) ++ [0].

Definition blen (bs : bytes) : Z := Z.of_nat (length bs).

Definition mk_elf (text rels syms strs data : bytes) (last : Z -> bytes) : bytes :=
  let o1 := 64 in let o2 := o1 + blen text in let o3 := o2 + blen rels in
  let o4 := o3 + blen syms in let o5 := o4 + blen strs in let o6 := o5 + blen data in
  [0x7f; 0x45; 0x4c; 0x46; 2; 1; 1; 0] ++ le_bytes 8 0 ++ le_bytes 2 ET_REL ++ le_bytes 2 EM_BPF ++
  le_bytes 20 0 ++ le_bytes 8 o6 ++ le_bytes 10 0 ++ le_bytes 2 64 ++ le_bytes 2 6 ++ le_bytes 2 0 ++
  text ++ rels ++ syms ++ strs ++ data ++
  shdr 0 0 0 0 0 0 ++
  shdr SHT_PROGBITS (SHF_ALLOC + SHF_EXECINSTR) o1 (blen text) 0 0 ++
  shdr SHT_REL 0 o2 (blen rels) 3 1 ++ shdr 2 0 o3 (blen syms) 4 0 ++ shdr 3 0 o4 (blen strs) 0 0 ++
  last o5.

(** [*(u32 * )(r10 - 4) = 0; lookup(&m, r10 - 4); return 0]. *)
Definition sample_text : bytes :=
  concat (bytes_of_inst <$>
    [mk_op EBPF_OP_STW 10 1 (-4) 0; mk_op EBPF_OP_LDDW 1 0 0 0; mk_inst 0 0 0 0 0;
     mk_op EBPF_OP_MOV64_REG 2 10 0 0; mk_op EBPF_OP_ADD64_IMM 2 0 0 (-4); mk_op EBPF_OP_CALL 0 0 0 (-1);
     mk_op EBPF_OP_MOV64_IMM 0 0 0 0; mk_op EBPF_OP_EXIT 0 0 0 0]).
Definition sample_syms : bytes := sym 0 0 0 ++ sym 1 5 0 ++ sym 3 0 0.
Definition sample_strs : bytes := [0] ++ c_bytes "m" ++ c_bytes "ubpf_map_lookup".
(** A hash map with 4-byte keys and 8-byte values. *)
Definition sample_data : bytes :=
  le_bytes 4 4 ++ le_bytes 4 4 ++ le_bytes 4 8 ++ le_bytes 4 2 ++ le_bytes 4 0.
Definition data_shdr (off : Z) : bytes :=
  shdr SHT_PROGBITS (SHF_ALLOC + SHF_WRITE) off (blen sample_data) 0 0.
Definition sample_elf (rels : bytes) : bytes :=
  mk_elf sample_text rels sample_syms sample_strs sample_data data_shdr.

Definition sample_fresh (i : nat) : Z := 0x123456789000 + 64 * (Z.of_nat i mod 2 ^ 20).
Definition load_sample (elf : bytes) :=
  ubpf_load_elf true (fun _ => 0) 7 sample_fresh 0x5000 [] (create_ubpf_vm no_impls 1) ∅ elf.

Example sample_loads :
  match load_sample (sample_elf (rel 8 1 1 ++ rel 40 2 2)) with
  | Ok (r, e, st) =>
      r = 0 /\ e = None /\ nb_maps (l_vm st) = 1 /\
      ubpf_lookup_registered_map (l_vm st) "m" = 0x123456789000 /\
      (insts (l_vm st) ≫= (.!! 5%nat)) = Some (mk_op EBPF_OP_CALL 0 0 0 1)
  | _ => False
  end.
Proof. vm_compute. split_and!; reflexivity. Qed.

(** files whose sections all lie inside the file make the loader leave its
    buffers: a map relocation against the last instruction passes the 8-byte
    check and patches 16 bytes; a relocation offset near 2^64 passes the check
    because the sum wraps around, and so does a symbol value near 2^64, with the
    map definition read before the file; the length of a string is measured
    before its offset is compared with the section. *)
Theorem relocation_out_of_bounds :
  load_sample (sample_elf (rel 56 1 1)) = Undef /\
  load_sample (sample_elf (rel (2 ^ 64 - 8) 1 1)) = Undef /\
  load_sample (mk_elf sample_text (rel 8 1 1) (sym 0 0 0 ++ sym 1 5 (2 ^ 64 - 20)) sample_strs
                 sample_data (fun _ => data_shdr 0)) = Undef /\
  load_sample (mk_elf sample_text (rel 8 1 1) (sym 0 0 0 ++ sym 1 5 100) sample_strs sample_data
                 (fun off => shdr SHT_PROGBITS (SHF_ALLOC + SHF_MERGE + SHF_STRINGS) off
                               (blen sample_data) 0 0)) = Undef.
Proof. split_and!; vm_compute; reflexivity. Qed.

Lemma load_elf_outcome indet now fresh str_addr spare vm maps elf r e st :
  ubpf_load_elf true indet now fresh str_addr spare vm maps elf = Ok (r, e, st) ->
  (r = -1 /\ is_Some e /\ same_program vm (l_vm st)) \/
  (r = 0 /\ e = None /\ insts vm = None /\ ext_funcs (l_vm st) = ext_funcs vm /\
   exists vm1 size,
     let prog := insts_of_bytes (take size (l_text st)) in
     same_program vm vm1 /\ ext_maps vm1 = ext_maps (l_vm st) /\
     validate vm1 (sizes_of (l_maps st)) indet prog = Ok tt /\
     insts (l_vm st) = Some prog /\ num_insts (l_vm st) = Z.of_nat (length prog) /\
     forall env regs0 m,
       ubpf_exec (Z.to_nat (num_insts (l_vm st))) (l_vm st) env regs0 m <> OutOfFuel).
Proof.
  unfold ubpf_load_elf. intros H.
  destruct (check_header elf) as [[[shoff she] shn]|e0|]; [|simplify_eq; left; by eauto|done].
  destruct (read_sections _ _ _ _) as [ss|e0|]; [|simplify_eq; left; by eauto|done].
  destruct (_ =? 0); [simplify_eq; left; by eauto|].
  destruct (ss !! _) as [text|]; [|done].
  set (tn := find_section _ 0 ss) in H. set (dn := find_section _ 0 ss) in H.
  set (sn := find_section _ 0 ss) in H. set (st1 := set_text _ _) in H.
  pose proof (relocate_sections_leaves elf fresh str_addr spare st1 ss tn (s_size text) dn sn ss) as Hl.
  change (l_vm st1) with vm in Hl.
  destruct (relocate_sections _ _ _ _ _ _ _ _ _ _ _) as [st2|[e0 st2]|]; simpl in Hl;
    [|simplify_eq; left; by eauto|done].
  set (code := take _ _) in H.
  destruct (ubpf_load _ _ _ _ _ _) as [[[r' vm'] e']|e'|] eqn:El; [|done|done].
  simplify_eq. apply ubpf_load_outcome in El. cbn [l_vm l_maps l_text].
  pose proof El as [(-> & -> & [e1 ->] & _)|(-> & -> & Hn & _ & Hv & Hi & Hnum & Hf & Hm & _)].
  { left. split_and!; [done|by eexists|done]. }
  right. split_and!; [done|done| | |].
  - destruct Hl as [<- _]. exact Hn.
  - destruct Hl as (_ & _ & <- & _). exact Hf.
  - exists (l_vm st2), (Z.to_nat (u32 (s_size text))). cbv zeta.
    split_and!; try done. intros env regs0 m. eapply load_outcome_terminates, El.
Qed.


(** ** Witnesses *)

Definition sample_state : lstate := mk_lstate (create_ubpf_vm no_impls 1) sample_text ∅ 0.

Lemma sample_state_wf : wf_lstate 8 sample_state.
Proof.
  split; [apply register_functions_wf, wf_ubpf_create|reflexivity|].
  intros i name H. exfalso. cbn [l_vm sample_state] in H.
  change (ext_map_names (create_ubpf_vm no_impls 1)) with (replicate 64 (None : option string)) in H.
  apply lookup_replicate in H as [H _]. discriminate H.
Qed.

Lemma sample_elf_bytes : wf_bytes (sample_elf (rel 8 1 1)).
Proof.
  apply (proj2 (Forall_forall _ _)). intros b Hb.
  assert (Forall (fun b => (0 <=? b) && (b <? 256) = true) (sample_elf (rel 8 1 1))) as H
    by (vm_compute; repeat constructor).
  rewrite Forall_forall in H. apply H in Hb. apply andb_true_iff in Hb as [?%Z.leb_le ?%Z.ltb_lt].
  by unfold in_u.
Qed.

Lemma section_table_safe_witness :
  exists ss, check_header (sample_elf (rel 8 1 1)) = Ok (255, 64, 6) /\
    read_sections (sample_elf (rel 8 1 1)) 255 64 (seqZ 0 6) = Ok ss /\ length ss = 6%nat /\
    Forall (fun s => 0 <= s_data s /\ 0 <= s_size s /\ s_data s + s_size s <= 639) ss.
Proof.
  pose proof (section_table_safe (sample_elf (rel 8 1 1)) sample_elf_bytes
                ltac:(vm_compute; reflexivity)) as H.
  eexists. split; [vm_compute; reflexivity|]. split; [vm_compute; reflexivity|].
  vm_compute check_header in H. cbv iota beta in H. destruct H as [_ H].
  vm_compute read_sections in H. cbv iota beta in H. destruct H as [_ H]. split; [reflexivity|exact H].
Defined.

Lemma call_relocation_correct_witness :
  exists st', reloc_call (sample_elf (rel 40 2 2)) sample_state (64 + 64 + 16 + 72 + 3) (8 * 5) = Ok st' /\
    insts_of_bytes (l_text st') !! 5%nat = Some (mk_op EBPF_OP_CALL 0 0 0 1).
Proof.
  destruct (call_relocation_correct (sample_elf (rel 40 2 2)) sample_state 8 5 (64 + 64 + 16 + 72 + 3)
              "ubpf_map_lookup" sample_state_wf ltac:(lia) ltac:(lia) ltac:(vm_compute; reflexivity))
    as [[H _]|(i & st' & H & Hi & Hn & _ & _ & Hd)].
  - exfalso. vm_compute in H. discriminate H.
  - exists st'. split; [exact H|]. rewrite Hd.
    assert (i = 1) as ->; [|vm_compute; reflexivity].
    vm_compute in H. injection H as H. rewrite <- H in Hd. vm_compute in Hd. by injection Hd.
Defined.

Lemma map_relocation_correct_witness :
  let secs := [mk_section 0 0 0 0 0 0; mk_section 1 3 0 0 235 20] in
  let reloc st value :=
    reloc_data (sample_elf (rel 8 1 1)) sample_fresh 0 [] st secs 1 0 (64 + 64 + 16 + 72 + 1) 1 value
      (8 * 1) in
  exists st', reloc sample_state 0 = Ok st' /\
    ubpf_lookup_registered_map (l_vm st') "m" = 0x123456789000 /\
    exists t, reloc st' 99 = Ok (set_text t st').
Proof.
  intros secs reloc.
  destruct (reloc sample_state 0) as [st'|u|] eqn:E; [|vm_compute in E; discriminate E..].
  exists st'. split; [reflexivity|].
  destruct (map_relocation_correct (sample_elf (rel 8 1 1)) sample_fresh 0 [] sample_state st' 8 1
              secs (mk_section 1 3 0 0 235 20) 1 0 (64 + 64 + 16 + 72 + 1) "m" 0)
    as (addr & Ha & Hl & _ & _ & _ & Hnext).
  - intros i. unfold sample_fresh. pose proof (Z.mod_pos_bound (Z.of_nat i) (2 ^ 20)). lia.
  - exact sample_state_wf.
  - lia.
  - vm_compute; reflexivity.
  - lia.
  - reflexivity.
  - exact E.
  - split.
    + vm_compute in E. injection E as E. rewrite <- E. vm_compute. reflexivity.
    + destruct (Hnext 1%nat 99 ltac:(lia)) as (t & Ht & _). exists t. exact Ht.
Defined.

