(* ===== verification/LoaderInv.v ===== *)
(** * Invariants of the loader

    A property of the loader's state that every patch of the text and every creation of a map
    keeps holds at the end of [ubpf_load_elf].  Instances: the text stays a list of bytes, and the
    registered maps are the ones that were created. *)

From S2P Require Import Prelude Ebpf Memory Vm Interp ValidateInsts ValidateCfg ExecSafety.
From S2P Require Import RegState AluRange ValidateAccesses WalkProps Helpers MapDef Maps.
From S2P Require Import Loader LoaderProps.

(** What the relocations do to the text. *)
Inductive patched (t t' : bytes) : Prop :=
| patched_map off a : patch_map t off a = Some t' -> patched t t'
| patched_string off a : patch_string t off a = Some t' -> patched t t'
| patched_call off v : put32 t off v = Some t' -> patched t t'.

Section Inv.
Context (elf : bytes) (fresh : nat -> Z) (str_addr : Z) (spare : bytes) (P : lstate -> Prop).
Context (Htext : forall st t, P st -> patched (l_text st) t -> P (set_text t st)).
Context (Hmap : forall st name data value a st', P st -> map_for_symbol elf fresh spare st name data value = Ok (a, st') -> P st').

Definition keeps (r : res (lerr * lstate) lstate) : Prop :=
  match r with Ok st => P st | Err (_, st) => P st | Undef => True end.

Lemma keeps_bind {A} (o : option A) k : (forall a, o = Some a -> keeps (k a)) -> keeps (res_bind (res_of o) k).
Proof. destruct o; cbn; auto. Qed.

Lemma map_for_symbol_err st name data value e st' :
  map_for_symbol elf fresh spare st name data value = Err (e, st') -> st' = st.
Proof.
  unfold map_for_symbol. destruct (negb _); [done|]. destruct (_ <? _); [by intros [= _ <-]|].
  destruct (read_map_def _ _) as [d|]; [|done]. cbn [res_of res_bind].
  destruct (create_map d spare) as [[m|]|]; [|by intros [= _ <-]|done]. cbn [res_of res_bind].
  destruct (ubpf_register_map _ _ _) as [r vm']. destruct (r =? -1); [by intros [= _ <-]|done].
Qed.

Lemma reloc_data_keeps st sections dn sn a shndx value off :
  P st -> keeps (reloc_data elf fresh str_addr spare st sections dn sn a shndx value off).
Proof using Htext Hmap.
  intros H. unfold reloc_data. case_match; [case_match; [done|]|case_match; [case_match; [done|]|done]].
  - apply keeps_bind. intros name _. apply keeps_bind. intros data _.
    destruct (map_for_symbol _ _ _ _ _ _ _) as [[addr st1]|[e st1]|] eqn:Em; cbn [res_bind]; [| |done].
    + apply Hmap in Em; [|done]. apply keeps_bind. intros t Ht. apply Htext; [done|]. by eapply patched_map.
    + apply map_for_symbol_err in Em as ->. done.
  - apply keeps_bind. intros str _. apply keeps_bind. intros s _. case_match; [done|].
    apply keeps_bind. intros t Ht. apply Htext; [done|]. by eapply patched_string.
Qed.

Lemma reloc_call_keeps st a off : P st -> keeps (reloc_call elf st a off).
Proof using Htext.
  intros H. unfold reloc_call. apply keeps_bind. intros name _. case_match; [done|].
  apply keeps_bind. intros t Ht. apply Htext; [done|]. by eapply patched_call.
Qed.

Lemma relocate_keeps st sections symtab strtab ts dn sn r :
  P st -> keeps (relocate elf fresh str_addr spare st sections symtab strtab ts dn sn r).
Proof using Htext Hmap.
  intros H. unfold relocate. apply keeps_bind. intros off _. apply keeps_bind. intros info _.
  case_match; [done|]. case_match; [done|]. apply keeps_bind. intros nm _.
  case_match; [done|]. case_match; [done|]. case_match; [|by apply reloc_call_keeps].
  apply keeps_bind. intros shndx _. apply keeps_bind. intros value _. by apply reloc_data_keeps.
Qed.

Lemma relocate_section_keeps st sections tn ts dn sn rel :
  P st -> keeps (relocate_section elf fresh str_addr spare st sections tn ts dn sn rel).
Proof using Htext Hmap.
  intros H. unfold relocate_section. case_match; [done|]. case_match; [done|].
  apply keeps_bind. intros symtab _. case_match; [done|]. apply keeps_bind. intros strtab _.
  generalize ((fun j => s_data rel + 16 * j) <$> seqZ 0 (s_size rel / 16)). intros rs.
  revert st H. induction rs as [|r rs IH]; intros st H; cbn [relocate_all]; [done|].
  pose proof (relocate_keeps st sections symtab strtab ts dn sn r H) as Hr.
  destruct (relocate _ _ _ _ _ _ _ _ _ _ _ _) as [st1|[e st1]|]; cbn in *; auto.
Qed.

Lemma relocate_sections_keeps st sections tn ts dn sn rels :
  P st -> keeps (relocate_sections elf fresh str_addr spare st sections tn ts dn sn rels).
Proof using Htext Hmap.
  revert st. induction rels as [|rel rels IH]; intros st H; cbn [relocate_sections]; [done|].
  pose proof (relocate_section_keeps st sections tn ts dn sn rel H) as Hr.
  destruct (relocate_section _ _ _ _ _ _ _ _ _ _ _) as [st1|[e st1]|]; cbn in *; auto.
Qed.

(** The last state before [ubpf_load] satisfies the invariant. *)
Lemma load_elf_inv verifier indet now vm maps r e st :
  (forall off n, P (set_text (slice elf off n) (mk_lstate vm [] maps 0))) -> P (mk_lstate vm [] maps 0) ->
  ubpf_load_elf verifier indet now fresh str_addr spare vm maps elf = Ok (r, e, st) ->
  exists st2, P st2 /\ l_text st = l_text st2 /\ l_maps st = l_maps st2 /\ l_next st = l_next st2 /\
    (l_vm st = l_vm st2 \/ exists code e', ubpf_load verifier (sizes_of (l_maps st2)) indet now (l_vm st2) code = Ok (r, l_vm st, e')).
Proof using Htext Hmap.
  intros H1 H0. unfold ubpf_load_elf.
  assert (forall st', P st' -> st = st' -> exists st2, P st2 /\ l_text st = l_text st2 /\ l_maps st = l_maps st2 /\ l_next st = l_next st2 /\
    (l_vm st = l_vm st2 \/ exists code e', ubpf_load verifier (sizes_of (l_maps st2)) indet now (l_vm st2) code = Ok (r, l_vm st, e'))) as Hsame.
  { intros st' HP ->. exists st'. split_and!; try done. by left. }
  destruct (check_header elf) as [[[shoff she] shn]|e0|]; [|intros [= _ _ Hst]; by eapply Hsame|done].
  destruct (read_sections _ _ _ _) as [ss|e0|]; [|intros [= _ _ Hst]; by eapply Hsame|done].
  destruct (_ =? 0); [intros [= _ _ Hst]; by eapply Hsame|]. destruct (ss !! _) as [text|]; [|done].
  set (tn := find_section _ 0 ss). set (dn := find_section _ 0 ss). set (sn := find_section _ 0 ss).
  pose proof (relocate_sections_keeps (set_text (slice elf (s_data text) (s_size text)) (mk_lstate vm [] maps 0))
    ss tn (s_size text) dn sn ss (H1 _ _)) as Hl.
  destruct (relocate_sections _ _ _ _ _ _ _ _ _ _ _) as [st2|[e0 st2]|]; cbn in Hl; [|intros [= _ _ Hst]; by eapply Hsame|done].
  destruct (ubpf_load _ _ _ _ _ _) as [[[r' vm'] e']|e'|] eqn:El; [|done|done]. intros [= <- _ <-].
  exists st2. split_and!; try done. right. by eexists _, _.
Qed.
End Inv.

(** ** The text stays a list of bytes *)

Lemma wf_put8 bs off v bs' : wf_bytes bs -> put8 bs off v = Some bs' -> wf_bytes bs'.
Proof.
  intros H. unfold put8. case_match; [|done]. intros [= <-]. apply Forall_insert; [done|]. apply wrap_range. lia.
Qed.

Lemma wf_put32 bs off v bs' : wf_bytes bs -> put32 bs off v = Some bs' -> wf_bytes bs'.
Proof.
  intros H. unfold put32. case_match; [|done]. intros [= <-].
  repeat (apply Forall_insert; [|apply wrap_range; lia]). exact H.
Qed.

Lemma wf_slice bs off n : wf_bytes bs -> wf_bytes (slice bs off n).
Proof. intros H. by apply Forall_take, Forall_drop. Qed.

Lemma patched_bytes t t' : wf_bytes t -> patched t t' -> wf_bytes t'.
Proof.
  intros H [off a Hp|off a Hp|off v Hp].
  - revert Hp. unfold patch_map. destruct (field t (off + 1) 1) as [b|]; [|done]. cbn [mbind option_bind].
    destruct (put8 _ _ _) as [t1|] eqn:E1; [|done]. cbn [mbind option_bind].
    destruct (put32 t1 _ _) as [t2|] eqn:E2; [|done]. cbn [mbind option_bind]. intros E3.
    eapply wf_put32, E3. eapply wf_put32, E2. by eapply wf_put8, E1.
  - revert Hp. unfold patch_string. destruct (put32 t _ _) as [t1|] eqn:E1; [|done]. cbn [mbind option_bind]. intros E2.
    eapply wf_put32, E2. by eapply wf_put32, E1.
  - by eapply wf_put32.
Qed.

(** What a creation changes. *)
Lemma map_for_symbol_cases elf fresh spare st name data value a st' :
  map_for_symbol elf fresh spare st name data value = Ok (a, st') ->
  st' = st \/
  exists m vm', kinded m /\ ubpf_register_map (l_vm st) name (fresh (l_next st)) = (0, vm') /\
    st' = mk_lstate vm' (l_text st) (<[fresh (l_next st) := m]> (l_maps st)) (S (l_next st)).
Proof.
  unfold map_for_symbol. destruct (negb _); [intros [= _ <-]; by left|]. destruct (_ <? _); [done|].
  destruct (read_map_def _ _) as [d|]; [|done]. cbn [res_of res_bind].
  destruct (create_map d spare) as [[m|]|] eqn:Ec; [|done|done]. cbn [res_of res_bind].
  destruct (ubpf_register_map _ _ _) as [r vm'] eqn:Er. destruct (Z.eqb_spec r (-1)); [done|]. intros [= _ <-]. right.
  exists m, vm'. split; [by eapply create_map_kinded|]. split; [|done]. unfold ubpf_register_map in Er. case_match; simplify_eq; done.
Qed.

Lemma load_elf_bytes verifier indet now fresh str_addr spare vm maps elf r e st :
  wf_bytes elf -> ubpf_load_elf verifier indet now fresh str_addr spare vm maps elf = Ok (r, e, st) -> wf_bytes (l_text st).
Proof.
  intros Hw H. eapply (load_elf_inv elf fresh str_addr spare (fun st => wf_bytes (l_text st))) in H as (st2 & H2 & -> & _); [done|..].
  - intros st' t. apply patched_bytes.
  - intros st1 name data value a st' H1 [->|(m & vm' & _ & _ & ->)]%map_for_symbol_cases; done.
  - intros. by apply wf_slice.
  - by apply Forall_nil.
Qed.

(** ** The maps of the program are the ones that were created *)

Definition registered (vm : ubpf_vm) : list Z := take (Z.to_nat (nb_maps vm)) (ext_maps vm).

Record lmaps (fresh : nat -> Z) (maps0 : gmap Z ubpf_map) (id : Z) (st : lstate) : Prop := {
  lm_id : prog_id (l_vm st) = id;
  lm_wf : wf_vm (l_vm st);
  lm_registered : registered (l_vm st) = fresh <$> seq 0 (l_next st);
  lm_created : forall k, (k < l_next st)%nat -> exists m, l_maps st !! fresh k = Some m /\ kinded m;
  lm_kept : forall a, (forall k, a <> fresh k) -> l_maps st !! a = maps0 !! a
}.

Lemma register_map_registered vm name a vm' :
  wf_vm vm -> ubpf_register_map vm name a = (0, vm') ->
  wf_vm vm' /\ registered vm' = registered vm ++ [a] /\ prog_id vm' = prog_id vm.
Proof.
  intros Hwf E. pose proof (ubpf_register_map_wf vm name a Hwf) as Hwf'. rewrite E in Hwf'. cbn [snd] in Hwf'.
  unfold ubpf_register_map in E. destruct (Z.leb_spec MAX_EXT_MAPS (nb_maps vm)); [done|]. injection E as <-.
  split; [done|]. split; [|done]. unfold registered. cbn [nb_maps ext_maps].
  pose proof (wf_nb_maps _ Hwf) as Hn. pose proof (wf_maps _ Hwf) as Hm.
  rewrite wrap_small by (unfold in_u; clia). replace (Z.to_nat (nb_maps vm + 1)) with (S (Z.to_nat (nb_maps vm))) by lia.
  rewrite (take_S_r _ _ a).
  - by rewrite take_insert_ge by lia.
  - apply list_lookup_insert_eq. rewrite Hm. clia.
Qed.

Lemma map_for_symbol_lmaps elf fresh spare maps0 id st name data value a st' :
  lmaps fresh maps0 id st -> map_for_symbol elf fresh spare st name data value = Ok (a, st') -> lmaps fresh maps0 id st'.
Proof.
  intros H [->|(m & vm' & Hkd & Er & ->)]%map_for_symbol_cases; [done|]. destruct H as [H0 H1 H2 H3 H4].
  destruct (register_map_registered _ _ _ _ H1 Er) as (Hwf & Hreg & Hid). split; cbn [l_vm l_maps l_next].
  - congruence.
  - done.
  - rewrite Hreg, H2, seq_S, fmap_app. done.
  - intros k Hk. destruct (decide (fresh k = fresh (l_next st))) as [->|Hne]; [rewrite lookup_insert_eq; by exists m|].
    rewrite lookup_insert_ne by done. apply H3. destruct (decide (k = l_next st)) as [->|]; [done|lia].
  - intros b Hb. rewrite lookup_insert_ne by (intros <-; by eapply Hb). by apply H4.
Qed.

(** [ubpf_load] changes the program only. *)
Lemma ubpf_load_fields verifier maps indet now vm code r vm' e :
  ubpf_load verifier maps indet now vm code = Ok (r, vm', e) ->
  prog_id vm' = prog_id vm /\ ext_funcs vm' = ext_funcs vm /\ ext_func_names vm' = ext_func_names vm /\
  ext_maps vm' = ext_maps vm /\ ext_map_names vm' = ext_map_names vm /\ nb_maps vm' = nb_maps vm.
Proof. unfold ubpf_load. repeat case_match; intros; simplify_eq; done. Qed.

Lemma load_elf_maps verifier indet now fresh str_addr spare vm maps elf r e st :
  wf_vm vm -> nb_maps vm = 0 ->
  ubpf_load_elf verifier indet now fresh str_addr spare vm maps elf = Ok (r, e, st) -> lmaps fresh maps (prog_id vm) st.
Proof.
  intros Hwf Hnb H.
  assert (forall t, lmaps fresh maps (prog_id vm) (mk_lstate vm t maps 0)) as H0.
  { intros t. split; cbn [l_vm l_maps l_next seq fmap list_fmap]; try done; [|lia]. unfold registered. by rewrite Hnb. }
  eapply (load_elf_inv elf fresh str_addr spare (lmaps fresh maps (prog_id vm))) in H as (st2 & [H1 H2 H3 H4 H5] & _ & Hm & Hn & Hvm).
  - rewrite <- Hn in H3, H4. rewrite <- Hm in H4, H5. destruct Hvm as [Hvm|(code & e' & Hvm)]; [rewrite <- Hvm in *; by split|].
    destruct (ubpf_load_fields _ _ _ _ _ _ _ _ _ Hvm) as (E1 & E2 & E3 & E4 & E5 & E6).
    split; try done; [congruence| |by unfold registered; rewrite E4, E6].
    destruct H2 as [W1 W2 W3 W4 W5 W6]. split; rewrite ?E2, ?E3, ?E4, ?E5, ?E6; done.
  - intros st' t [K0 K1 K2 K3 K4] _. by split.
  - intros st1 name data value a st'. apply map_for_symbol_lmaps.
  - intros. apply H0.
  - apply H0.
Qed.
