(* ===== verification/Reconnect.v ===== *)
(** * The connection state machine (lib/reconnect.c, lib/reconnect.h)

    [struct reconnect] decides when the switch connects to its controller or its
    database, probes an idle connection, gives it up, and how long it waits before
    the next attempt.  Every operation of the file is a function on the record;
    times are [long long int] milliseconds and a sum or difference outside that type
    is [None], as is a failed assertion.  Messages to the log are left out. *)

From S2P Require Import Prelude.

Inductive state : Set :=
| S_VOID | S_BACKOFF | S_CONNECTING | S_ACTIVE | S_IDLE | S_RECONNECT | S_LISTENING.

#[export] Instance state_eq_dec : EqDecision state.
Proof. solve_decision. Defined.

Inductive reconnect_action : Set :=
| NO_ACTION | RECONNECT_CONNECT | RECONNECT_DISCONNECT | RECONNECT_PROBE.

Definition RECONNECT_DEFAULT_MIN_BACKOFF : Z := 1000.
Definition RECONNECT_DEFAULT_MAX_BACKOFF : Z := 8000.
Definition RECONNECT_DEFAULT_PROBE_INTERVAL : Z := 5000.
Definition UINT_MAX : Z := UINT32_MAX.
Definition INT_MAX : Z := 2 ^ 31 - 1.
#[export] Hint Unfold RECONNECT_DEFAULT_MIN_BACKOFF RECONNECT_DEFAULT_MAX_BACKOFF
  RECONNECT_DEFAULT_PROBE_INTERVAL UINT_MAX INT_MAX INT64_MAX INT64_MIN UINT32_MAX : consts.

(** [quiet] stands for the log level [info]. *)
Record reconnect : Set := mk_reconnect {
  name : string;
  min_backoff : Z;
  max_backoff : Z;
  probe_interval : Z;
  passive : bool;
  quiet : bool;
  fsm_state : state;
  state_entered : Z;
  backoff : Z;
  last_activity : Z;
  last_connected : Z;
  last_disconnected : Z;
  max_tries : Z;
  backoff_free_tries : Z;
  creation_time : Z;
  n_attempted_connections : Z;
  n_successful_connections : Z;
  total_connected_duration : Z;
  seqno : Z
}.

(** ** Assignments *)

Definition put_name (v : string) (f : reconnect) : reconnect :=
  mk_reconnect
    v (min_backoff f) (max_backoff f) (probe_interval f) (passive f) (quiet f) (fsm_state f)
    (state_entered f) (backoff f) (last_activity f) (last_connected f) (last_disconnected f)
    (max_tries f) (backoff_free_tries f) (creation_time f) (n_attempted_connections f)
    (n_successful_connections f) (total_connected_duration f) (seqno f).

Definition put_backoffs (lo : Z) (hi : Z) (f : reconnect) : reconnect :=
  mk_reconnect
    (name f) lo hi (probe_interval f) (passive f) (quiet f) (fsm_state f) (state_entered f)
    (backoff f) (last_activity f) (last_connected f) (last_disconnected f) (max_tries f)
    (backoff_free_tries f) (creation_time f) (n_attempted_connections f)
    (n_successful_connections f) (total_connected_duration f) (seqno f).

Definition put_probe_interval (v : Z) (f : reconnect) : reconnect :=
  mk_reconnect
    (name f) (min_backoff f) (max_backoff f) v (passive f) (quiet f) (fsm_state f)
    (state_entered f) (backoff f) (last_activity f) (last_connected f) (last_disconnected f)
    (max_tries f) (backoff_free_tries f) (creation_time f) (n_attempted_connections f)
    (n_successful_connections f) (total_connected_duration f) (seqno f).

Definition put_passive (v : bool) (f : reconnect) : reconnect :=
  mk_reconnect
    (name f) (min_backoff f) (max_backoff f) (probe_interval f) v (quiet f) (fsm_state f)
    (state_entered f) (backoff f) (last_activity f) (last_connected f) (last_disconnected f)
    (max_tries f) (backoff_free_tries f) (creation_time f) (n_attempted_connections f)
    (n_successful_connections f) (total_connected_duration f) (seqno f).

Definition put_quiet (v : bool) (f : reconnect) : reconnect :=
  mk_reconnect
    (name f) (min_backoff f) (max_backoff f) (probe_interval f) (passive f) v (fsm_state f)
    (state_entered f) (backoff f) (last_activity f) (last_connected f) (last_disconnected f)
    (max_tries f) (backoff_free_tries f) (creation_time f) (n_attempted_connections f)
    (n_successful_connections f) (total_connected_duration f) (seqno f).

Definition put_state (s : state) (now : Z) (f : reconnect) : reconnect :=
  mk_reconnect
    (name f) (min_backoff f) (max_backoff f) (probe_interval f) (passive f) (quiet f) s now
    (backoff f) (last_activity f) (last_connected f) (last_disconnected f) (max_tries f)
    (backoff_free_tries f) (creation_time f) (n_attempted_connections f)
    (n_successful_connections f) (total_connected_duration f) (seqno f).

Definition put_backoff (v : Z) (f : reconnect) : reconnect :=
  mk_reconnect
    (name f) (min_backoff f) (max_backoff f) (probe_interval f) (passive f) (quiet f)
    (fsm_state f) (state_entered f) v (last_activity f) (last_connected f)
    (last_disconnected f) (max_tries f) (backoff_free_tries f) (creation_time f)
    (n_attempted_connections f) (n_successful_connections f) (total_connected_duration f)
    (seqno f).

Definition put_last_activity (v : Z) (f : reconnect) : reconnect :=
  mk_reconnect
    (name f) (min_backoff f) (max_backoff f) (probe_interval f) (passive f) (quiet f)
    (fsm_state f) (state_entered f) (backoff f) v (last_connected f) (last_disconnected f)
    (max_tries f) (backoff_free_tries f) (creation_time f) (n_attempted_connections f)
    (n_successful_connections f) (total_connected_duration f) (seqno f).

Definition put_last_connected (v : Z) (f : reconnect) : reconnect :=
  mk_reconnect
    (name f) (min_backoff f) (max_backoff f) (probe_interval f) (passive f) (quiet f)
    (fsm_state f) (state_entered f) (backoff f) (last_activity f) v (last_disconnected f)
    (max_tries f) (backoff_free_tries f) (creation_time f) (n_attempted_connections f)
    (n_successful_connections f) (total_connected_duration f) (seqno f).

Definition put_last_disconnected (v : Z) (f : reconnect) : reconnect :=
  mk_reconnect
    (name f) (min_backoff f) (max_backoff f) (probe_interval f) (passive f) (quiet f)
    (fsm_state f) (state_entered f) (backoff f) (last_activity f) (last_connected f) v
    (max_tries f) (backoff_free_tries f) (creation_time f) (n_attempted_connections f)
    (n_successful_connections f) (total_connected_duration f) (seqno f).

Definition put_max_tries (v : Z) (f : reconnect) : reconnect :=
  mk_reconnect
    (name f) (min_backoff f) (max_backoff f) (probe_interval f) (passive f) (quiet f)
    (fsm_state f) (state_entered f) (backoff f) (last_activity f) (last_connected f)
    (last_disconnected f) v (backoff_free_tries f) (creation_time f)
    (n_attempted_connections f) (n_successful_connections f) (total_connected_duration f)
    (seqno f).

Definition put_backoff_free_tries (v : Z) (f : reconnect) : reconnect :=
  mk_reconnect
    (name f) (min_backoff f) (max_backoff f) (probe_interval f) (passive f) (quiet f)
    (fsm_state f) (state_entered f) (backoff f) (last_activity f) (last_connected f)
    (last_disconnected f) (max_tries f) v (creation_time f) (n_attempted_connections f)
    (n_successful_connections f) (total_connected_duration f) (seqno f).

Definition put_counts (a : Z) (s : Z) (f : reconnect) : reconnect :=
  mk_reconnect
    (name f) (min_backoff f) (max_backoff f) (probe_interval f) (passive f) (quiet f)
    (fsm_state f) (state_entered f) (backoff f) (last_activity f) (last_connected f)
    (last_disconnected f) (max_tries f) (backoff_free_tries f) (creation_time f) a s
    (total_connected_duration f) (seqno f).

Definition put_duration (v : Z) (f : reconnect) : reconnect :=
  mk_reconnect
    (name f) (min_backoff f) (max_backoff f) (probe_interval f) (passive f) (quiet f)
    (fsm_state f) (state_entered f) (backoff f) (last_activity f) (last_connected f)
    (last_disconnected f) (max_tries f) (backoff_free_tries f) (creation_time f)
    (n_attempted_connections f) (n_successful_connections f) v (seqno f).

Definition put_seqno (v : Z) (f : reconnect) : reconnect :=
  mk_reconnect
    (name f) (min_backoff f) (max_backoff f) (probe_interval f) (passive f) (quiet f)
    (fsm_state f) (state_entered f) (backoff f) (last_activity f) (last_connected f)
    (last_disconnected f) (max_tries f) (backoff_free_tries f) (creation_time f)
    (n_attempted_connections f) (n_successful_connections f) (total_connected_duration f) v.

(** ** Arithmetic *)

(** [long long int]: signed overflow is undefined. *)
Definition ll (x : Z) : option Z :=
  if (INT64_MIN <=? x) && (x <=? INT64_MAX) then Some x else None.

Definition is_connected_state (s : state) : bool :=
  match s with S_ACTIVE | S_IDLE => true | _ => false end.

(** [fsm->state & (...)]. *)
Definition state_in (s : state) (l : list state) : bool := bool_decide (s ∈ l).

(** ** Creation and configuration *)

Definition reconnect_create (now : Z) : reconnect :=
  mk_reconnect "void" RECONNECT_DEFAULT_MIN_BACKOFF RECONNECT_DEFAULT_MAX_BACKOFF
    RECONNECT_DEFAULT_PROBE_INTERVAL false false
    S_VOID now 0 now INT64_MAX INT64_MAX UINT_MAX 0
    now 0 0 0 0.

Definition reconnect_set_quiet (f : reconnect) (q : bool) : reconnect := put_quiet q f.
Definition reconnect_get_name (f : reconnect) : string := name f.
Definition reconnect_set_name (f : reconnect) (n : option string) : reconnect :=
  put_name (default "void"%string n) f.
Definition reconnect_get_min_backoff (f : reconnect) : Z := min_backoff f.
Definition reconnect_get_max_backoff (f : reconnect) : Z := max_backoff f.
Definition reconnect_get_probe_interval (f : reconnect) : Z := probe_interval f.
Definition reconnect_set_max_tries (f : reconnect) (n : Z) : reconnect := put_max_tries n f.
Definition reconnect_get_max_tries (f : reconnect) : Z := max_tries f.
Definition reconnect_set_backoff_free_tries (f : reconnect) (n : Z) : reconnect :=
  put_backoff_free_tries n f.

(** The last condition compares with the arguments, not with the fields. *)
Definition reconnect_set_backoff (f : reconnect) (min_arg max_arg : Z) : reconnect :=
  let lo := Z.max min_arg 1000 in
  let hi := if negb (max_arg =? 0) then Z.max max_arg 1000 else RECONNECT_DEFAULT_MAX_BACKOFF in
  let hi := if hi <? lo then lo else hi in
  let f := put_backoffs lo hi f in
  if bool_decide (fsm_state f = S_BACKOFF) && (max_arg <? backoff f) then put_backoff max_arg f else f.

Definition reconnect_set_probe_interval (f : reconnect) (p : Z) : reconnect :=
  put_probe_interval (if negb (p =? 0) then Z.max 1000 p else 0) f.

Definition reconnect_is_passive (f : reconnect) : bool := passive f.
Definition reconnect_is_enabled (f : reconnect) : bool := negb (bool_decide (fsm_state f = S_VOID)).
Definition reconnect_is_connected (f : reconnect) : bool := is_connected_state (fsm_state f).

(** ** Transitions *)

Definition reconnect_transition__ (f : reconnect) (now : Z) (s : state) : option reconnect :=
  let f :=
    if bool_decide (fsm_state f = S_CONNECTING) then
      put_counts (u32 (n_attempted_connections f + 1))
        (if bool_decide (s = S_ACTIVE) then u32 (n_successful_connections f + 1)
         else n_successful_connections f) f
    else f in
  f ← (if negb (Bool.eqb (is_connected_state (fsm_state f)) (is_connected_state s)) then
         f ← (if is_connected_state (fsm_state f) then
                d ← ll (now - last_connected f);
                Some (put_duration (u32 (total_connected_duration f + d)) f)
              else Some f);
         Some (put_seqno (u32 (seqno f + 1)) f)
       else Some f);
  Some (put_state s now f).

(** Returns whether another attempt is allowed, and uses one up. *)
Definition reconnect_may_retry (f : reconnect) : bool * reconnect :=
  let may_retry := 0 <? max_tries f in
  if may_retry && negb (max_tries f =? UINT_MAX) then (may_retry, put_max_tries (max_tries f - 1) f)
  else (may_retry, f).

Definition enter_backoff (f : reconnect) (now : Z) : option reconnect :=
  f ← reconnect_transition__ f now S_BACKOFF; Some (put_backoff 0 f).

Definition reconnect_set_passive (f : reconnect) (p : bool) (now : Z) : option reconnect :=
  if Bool.eqb (passive f) p then Some f
  else
    let f := put_passive p f in
    if p then
      if state_in (fsm_state f) [S_CONNECTING; S_RECONNECT] then enter_backoff f now else Some f
    else if bool_decide (fsm_state f = S_LISTENING) then
      let '(may, f) := reconnect_may_retry f in
      if may then enter_backoff f now else Some f
    else Some f.

Definition reconnect_enable (f : reconnect) (now : Z) : option reconnect :=
  if bool_decide (fsm_state f = S_VOID) then
    let '(may, f) := reconnect_may_retry f in
    if may then enter_backoff f now else Some f
  else Some f.

Definition reconnect_disable (f : reconnect) (now : Z) : option reconnect :=
  if bool_decide (fsm_state f = S_VOID) then Some f else reconnect_transition__ f now S_VOID.

Definition reconnect_force_reconnect (f : reconnect) (now : Z) : option reconnect :=
  if state_in (fsm_state f) [S_CONNECTING; S_ACTIVE; S_IDLE]
  then reconnect_transition__ f now S_RECONNECT else Some f.

(** The new backoff after a failure that may be retried. *)
Definition back_off (f : reconnect) : option reconnect :=
  if 1 <? backoff_free_tries f then
    Some (put_backoff 0 (put_backoff_free_tries (backoff_free_tries f - 1) f))
  else
    lasted ← (if is_connected_state (fsm_state f) then
                d ← ll (last_activity f - last_connected f);
                Some ((backoff f <=? d) || passive f)
              else Some false);
    Some (put_backoff
            (if lasted : bool then (if passive f then 0 else min_backoff f)
             else if backoff f <? min_backoff f then min_backoff f
             else if backoff f <? Z.quot (max_backoff f) 2 then backoff f * 2
             else max_backoff f) f).

(** [error] is only used in messages. *)
Definition reconnect_disconnected (f : reconnect) (now error : Z) : option reconnect :=
  if state_in (fsm_state f) [S_BACKOFF; S_VOID] then Some f
  else
    let f := if is_connected_state (fsm_state f) then put_last_disconnected now f else f in
    let '(may, f) := reconnect_may_retry f in
    if may then f ← back_off f; reconnect_transition__ f now S_BACKOFF
    else reconnect_transition__ f now S_VOID.

Definition reconnect_connecting (f : reconnect) (now : Z) : option reconnect :=
  if bool_decide (fsm_state f = S_CONNECTING) then Some f
  else reconnect_transition__ f now S_CONNECTING.

Definition reconnect_listening (f : reconnect) (now : Z) : option reconnect :=
  if bool_decide (fsm_state f = S_LISTENING) then Some f
  else reconnect_transition__ f now S_LISTENING.

Definition reconnect_listen_error (f : reconnect) (now error : Z) : option reconnect :=
  if bool_decide (fsm_state f = S_LISTENING) then reconnect_disconnected f now error else Some f.

Definition reconnect_connected (f : reconnect) (now : Z) : option reconnect :=
  if is_connected_state (fsm_state f) then Some f
  else
    f ← reconnect_connecting f now;
    f ← reconnect_transition__ f now S_ACTIVE;
    Some (put_last_connected now f).

Definition reconnect_connect_failed (f : reconnect) (now error : Z) : option reconnect :=
  f ← reconnect_connecting f now; reconnect_disconnected f now error.

Definition reconnect_activity (f : reconnect) (now : Z) : option reconnect :=
  f ← (if bool_decide (fsm_state f = S_IDLE) then reconnect_transition__ f now S_ACTIVE else Some f);
  Some (put_last_activity now f).

(** ** Deadlines *)

Definition reconnect_deadline__ (f : reconnect) : option Z :=
  if state_entered f =? INT64_MIN then None
  else
    match fsm_state f with
    | S_VOID | S_LISTENING => Some INT64_MAX
    | S_BACKOFF => ll (state_entered f + backoff f)
    | S_CONNECTING => ll (state_entered f + Z.max 1000 (backoff f))
    | S_ACTIVE =>
        if negb (probe_interval f =? 0)
        then ll (Z.max (last_activity f) (state_entered f) + probe_interval f) else Some INT64_MAX
    | S_IDLE =>
        if negb (probe_interval f =? 0) then ll (state_entered f + probe_interval f) else Some INT64_MAX
    | S_RECONNECT => Some (state_entered f)
    end.

Definition reconnect_run (f : reconnect) (now : Z) : option (reconnect_action * reconnect) :=
  d ← reconnect_deadline__ f;
  if d <=? now then
    match fsm_state f with
    | S_VOID => Some (NO_ACTION, f)
    | S_BACKOFF => Some (RECONNECT_CONNECT, f)
    | S_CONNECTING => Some (RECONNECT_DISCONNECT, f)
    | S_ACTIVE => f ← reconnect_transition__ f now S_IDLE; Some (RECONNECT_PROBE, f)
    | S_IDLE => Some (RECONNECT_DISCONNECT, f)
    | S_RECONNECT => Some (RECONNECT_DISCONNECT, f)
    | S_LISTENING => Some (NO_ACTION, f)
    end
  else Some (NO_ACTION, f).

Definition reconnect_timeout (f : reconnect) (now : Z) : option Z :=
  d ← reconnect_deadline__ f;
  if negb (d =? INT64_MAX) then
    remaining ← ll (d - now);
    Some (Z.max 0 (Z.min INT_MAX remaining))
  else Some (-1).

(** The argument of [poll_timer_wait], if it is called. *)
Definition reconnect_wait (f : reconnect) (now : Z) : option (option Z) :=
  t ← reconnect_timeout f now; Some (if 0 <=? t then Some t else None).

(** ** Statistics *)

Definition reconnect_state_name__ (s : state) : string :=
  match s with
  | S_VOID => "VOID" | S_BACKOFF => "BACKOFF" | S_CONNECTING => "CONNECTING" | S_ACTIVE => "ACTIVE"
  | S_IDLE => "IDLE" | S_RECONNECT => "RECONNECT" | S_LISTENING => "LISTENING"
  end.

Definition elapsed (since now : Z) : option Z :=
  if since =? INT64_MAX then Some UINT_MAX else d ← ll (now - since); Some (u32 d).
Definition reconnect_get_last_connect_elapsed (f : reconnect) (now : Z) : option Z :=
  elapsed (last_connected f) now.
Definition reconnect_get_last_disconnect_elapsed (f : reconnect) (now : Z) : option Z :=
  elapsed (last_disconnected f) now.

Record reconnect_stats : Set := mk_stats {
  st_creation_time : Z; st_last_activity : Z; st_last_connected : Z; st_last_disconnected : Z;
  st_backoff : Z; st_seqno : Z; st_is_connected : bool;
  st_msec_since_connect : Z; st_msec_since_disconnect : Z; st_total_connected_duration : Z;
  st_n_attempted : Z; st_n_successful : Z; st_state : string; st_state_elapsed : Z
}.

Definition reconnect_get_stats (f : reconnect) (now : Z) : option reconnect_stats :=
  c ← reconnect_get_last_connect_elapsed f now;
  d ← reconnect_get_last_disconnect_elapsed f now;
  e ← ll (now - state_entered f);
  Some (mk_stats (creation_time f) (last_activity f) (last_connected f) (last_disconnected f)
          (backoff f) (seqno f) (reconnect_is_connected f) c d
          (u32 (total_connected_duration f + (if is_connected_state (fsm_state f) then c else 0)))
          (n_attempted_connections f) (n_successful_connections f)
          (reconnect_state_name__ (fsm_state f)) (u32 e)).
