(* ===== verification/ReconnectProps.v ===== *)
(** * Properties of the connection state machine

    The states a client can bring the machine into, by any sequence of calls with a
    clock that does not run backwards; what they guarantee; how the backoff grows;
    and when the machine asks for an action. *)

From S2P Require Import Prelude Reconnect.

(** ** Calls *)

Inductive call : Set :=
| CSetQuiet (q : bool) | CSetName (n : option string) | CSetMaxTries (n : Z)
| CSetBackoffFreeTries (n : Z) | CSetBackoff (lo hi : Z) | CSetProbeInterval (p : Z)
| CSetPassive (p : bool) | CEnable | CDisable | CForceReconnect | CDisconnected (error : Z)
| CConnecting | CListening | CListenError (error : Z) | CConnected | CConnectFailed (error : Z)
| CActivity | CRun.

Definition call_step (c : call) (now : Z) (f : reconnect) : option reconnect :=
  match c with
  | CSetQuiet q => Some (reconnect_set_quiet f q)
  | CSetName n => Some (reconnect_set_name f n)
  | CSetMaxTries n => Some (reconnect_set_max_tries f n)
  | CSetBackoffFreeTries n => Some (reconnect_set_backoff_free_tries f n)
  | CSetBackoff lo hi => Some (reconnect_set_backoff f lo hi)
  | CSetProbeInterval p => Some (reconnect_set_probe_interval f p)
  | CSetPassive p => reconnect_set_passive f p now
  | CEnable => reconnect_enable f now
  | CDisable => reconnect_disable f now
  | CForceReconnect => reconnect_force_reconnect f now
  | CDisconnected e => reconnect_disconnected f now e
  | CConnecting => reconnect_connecting f now
  | CListening => reconnect_listening f now
  | CListenError e => reconnect_listen_error f now e
  | CConnected => reconnect_connected f now
  | CConnectFailed e => reconnect_connect_failed f now e
  | CActivity => reconnect_activity f now
  | CRun => snd <$> reconnect_run f now
  end.

(** Arguments in the range of their type; the maximal backoff is not negative. *)
Definition valid_call (c : call) : Prop :=
  match c with
  | CSetMaxTries n | CSetBackoffFreeTries n => in_u 32 n
  | CSetBackoff lo hi => in_s 32 lo /\ 0 <= hi <= INT_MAX
  | CSetProbeInterval p => in_s 32 p
  | _ => True
  end.

(** Times stay far from the end of the range. *)
Definition TIME_LIMIT : Z := 2 ^ 62.
#[export] Hint Unfold TIME_LIMIT : consts.

Inductive reachable : Z -> reconnect -> Prop :=
| reach_create now : 0 <= now -> reachable now (reconnect_create now)
| reach_call t f c now f' :
    reachable t f -> valid_call c -> t <= now <= TIME_LIMIT -> call_step c now f = Some f' ->
    reachable now f'.

(** ** The invariant *)

Record wf_fsm (now : Z) (f : reconnect) : Prop := {
  wf_min : 1000 <= min_backoff f <= max_backoff f;
  wf_max : max_backoff f <= INT_MAX;
  wf_backoff : 0 <= backoff f <= INT_MAX;
  wf_waiting : fsm_state f = S_BACKOFF -> backoff f <= max_backoff f;
  wf_probe : probe_interval f = 0 \/ 1000 <= probe_interval f <= INT_MAX;
  wf_entered : 0 <= state_entered f <= now;
  wf_activity : 0 <= last_activity f <= now;
  wf_connected : is_connected_state (fsm_state f) = true -> 0 <= last_connected f <= now;
  wf_seqno : Z.odd (seqno f) = is_connected_state (fsm_state f);
  wf_tries : in_u 32 (max_tries f)
}.

Lemma ll_Some x : - 2 ^ 63 <= x < 2 ^ 63 -> ll x = Some x.
Proof.
  intros H. unfold ll. rewrite (proj2 (Z.leb_le _ _)), (proj2 (Z.leb_le _ _)) by clia. done.
Qed.

Lemma odd_u32_succ x : Z.odd (u32 (x + 1)) = negb (Z.odd x).
Proof.
  assert (Z.odd (u32 (x + 1)) = Z.odd (x + 1)) as ->.
  { unfold wrap. rewrite (Z.div_mod (x + 1) (2 ^ 32)) at 2 by lia.
    rewrite Z.odd_add, Z.odd_mul. change (Z.odd (2 ^ 32)) with false. by rewrite xorb_false_l. }
  rewrite Z.odd_add. by destruct (Z.odd x).
Qed.

(** The fields a transition leaves alone. *)
Definition same_settings (f f' : reconnect) : Prop :=
  min_backoff f' = min_backoff f /\ max_backoff f' = max_backoff f /\
  probe_interval f' = probe_interval f /\ passive f' = passive f /\ backoff f' = backoff f /\
  last_activity f' = last_activity f /\ last_connected f' = last_connected f /\
  max_tries f' = max_tries f /\ backoff_free_tries f' = backoff_free_tries f.

Lemma transition_spec t f now s :
  wf_fsm t f -> t <= now <= TIME_LIMIT ->
  exists f', reconnect_transition__ f now s = Some f' /\ fsm_state f' = s /\
    state_entered f' = now /\ same_settings f f' /\ Z.odd (seqno f') = is_connected_state s.
Proof.
  intros [] Ht. unfold reconnect_transition__.
  set (f1 := if bool_decide (fsm_state f = S_CONNECTING) then _ else f).
  assert (same_settings f f1 /\ fsm_state f1 = fsm_state f /\ seqno f1 = seqno f /\
          total_connected_duration f1 = total_connected_duration f) as (Hs & Hst & Hq & _)
    by (unfold f1; by case_bool_decide).
  rewrite Hst. destruct (is_connected_state (fsm_state f)) eqn:Ec; destruct (is_connected_state s) eqn:Es;
    cbn [Bool.eqb negb mbind option_bind].
  1,4: eexists; split_and!; try done; cbn; rewrite Hq; congruence.
  - destruct Hs as (?&?&?&?&?&?&Hl&?&?). rewrite Hl, ll_Some by (specialize (wf_connected0 eq_refl); clia).
    cbn [mbind option_bind]. eexists. split_and!; try done.
    cbn. rewrite odd_u32_succ, Hq. by rewrite wf_seqno0.
  - eexists. split_and!; try done. cbn. rewrite odd_u32_succ, Hq. by rewrite wf_seqno0.
Qed.

Lemma wf_later t now f : wf_fsm t f -> t <= now -> wf_fsm now f.
Proof. intros [] Ht. split; try done; [lia..|]. intros H. specialize (wf_connected0 H). lia. Qed.

Lemma transition_wf t f now s :
  wf_fsm t f -> t <= now <= TIME_LIMIT ->
  (s = S_BACKOFF -> backoff f <= max_backoff f) ->
  (is_connected_state s = true -> is_connected_state (fsm_state f) = true) ->
  exists f', reconnect_transition__ f now s = Some f' /\ fsm_state f' = s /\
    state_entered f' = now /\ same_settings f f' /\ wf_fsm now f'.
Proof.
  intros Hwf Ht Hb Hc. destruct (transition_spec t f now s Hwf Ht) as (f' & E & Es & En & Hs & Hq).
  exists f'. split_and!; try done. destruct Hwf, Hs as (?&?&?&?&?&?&Hl&?&?).
  split; rewrite ?Es; try congruence; try lia.
  - intros ->. specialize (Hb eq_refl). congruence.
  - intros Hx. rewrite Hl. specialize (wf_connected0 (Hc Hx)). lia.
Qed.

(** A call succeeds and keeps the invariant. *)
Definition keeps (now : Z) (o : option reconnect) : Prop := exists f', o = Some f' /\ wf_fsm now f'.

Lemma keeps_transition t f now s :
  wf_fsm t f -> t <= now <= TIME_LIMIT -> (s = S_BACKOFF -> backoff f <= max_backoff f) ->
  (is_connected_state s = true -> is_connected_state (fsm_state f) = true) ->
  keeps now (reconnect_transition__ f now s).
Proof. intros. edestruct transition_wf as (f' & ? & _ & _ & _ & ?); [done..|]. by exists f'. Qed.

Lemma put_backoff_wf now f b :
  wf_fsm now f -> 0 <= b <= max_backoff f -> wf_fsm now (put_backoff b f).
Proof. intros [] Hb. split; try done; cbn; lia. Qed.

Lemma may_retry_spec now f :
  wf_fsm now f ->
  let f' := (reconnect_may_retry f).2 in
  wf_fsm now f' /\ fsm_state f' = fsm_state f /\ backoff f' = backoff f /\
  min_backoff f' = min_backoff f /\ max_backoff f' = max_backoff f /\
  backoff_free_tries f' = backoff_free_tries f.
Proof.
  intros Hwf. unfold reconnect_may_retry.
  destruct (Z.ltb_spec 0 (max_tries f)); destruct (_ =? _); cbn [andb negb snd]; try done.
  split_and!; try done. destruct Hwf. split; try done. cbn. unfold in_u in *. lia.
Qed.

Lemma enter_backoff_keeps t f now :
  wf_fsm t f -> t <= now <= TIME_LIMIT -> keeps now (enter_backoff f now).
Proof.
  intros Hwf Ht. unfold enter_backoff.
  destruct (transition_spec t f now S_BACKOFF Hwf Ht) as (f' & -> & Es & En & Hs & Hq).
  eexists. split; [done|]. destruct Hwf, Hs as (?&?&?&?&?&?&?&?&?).
  split; cbn; rewrite ?Es; try congruence; try lia; done.
Qed.

Lemma back_off_keeps t f :
  wf_fsm t f -> fsm_state f <> S_BACKOFF -> t <= TIME_LIMIT ->
  exists f', back_off f = Some f' /\ wf_fsm t f' /\ backoff f' <= max_backoff f' /\
    fsm_state f' = fsm_state f.
Proof.
  intros Hwf Hs Ht. unfold back_off.
  assert (0 <= Z.quot (max_backoff f) 2 <= max_backoff f / 2) as Hq.
  { destruct Hwf. rewrite Z.quot_div_nonneg by lia. split; [apply Z.div_pos|]; lia. }
  destruct (1 <? backoff_free_tries f).
  { eexists. split_and!; [done| |cbn; destruct Hwf; lia|done].
    destruct Hwf. split; try done; cbn; lia. }
  assert (exists b : bool, (if is_connected_state (fsm_state f) then
            d ← ll (last_activity f - last_connected f); Some ((backoff f <=? d) || passive f)
          else Some false) = Some b) as [b ->].
  { destruct (is_connected_state (fsm_state f)) eqn:E; [|by eexists].
    destruct Hwf. specialize (wf_connected0 E). rewrite ll_Some by clia. cbn. by eexists. }
  cbn [mbind option_bind]. eexists. split; [done|].
  match goal with |- context [put_backoff ?x f] => assert (0 <= x <= max_backoff f) as Hx end.
  { destruct Hwf. destruct b; [destruct (passive f); lia|].
    destruct (Z.ltb_spec (backoff f) (min_backoff f)); [lia|].
    destruct (Z.ltb_spec (backoff f) (Z.quot (max_backoff f) 2)); [|lia].
    Z.div_mod_to_equations. lia. }
  split_and!; [by apply put_backoff_wf|cbn; lia|done].
Qed.

Lemma disconnected_keeps t f now e :
  wf_fsm t f -> t <= now <= TIME_LIMIT -> keeps now (reconnect_disconnected f now e).
Proof.
  intros Hwf Ht. unfold reconnect_disconnected, state_in.
  case_bool_decide as Hin; [exists f; split; [done|eapply wf_later; [done|lia]]|].
  set (f1 := if is_connected_state (fsm_state f) then put_last_disconnected now f else f).
  assert (wf_fsm t f1 /\ fsm_state f1 = fsm_state f) as [Hwf1 Hs1]
    by (unfold f1; destruct (is_connected_state (fsm_state f)); [|done]; by destruct Hwf).
  destruct (may_retry_spec t f1 Hwf1) as (Hwf2 & Hs2 & _).
  destruct (reconnect_may_retry f1) as [may f2]. cbn [snd] in *.
  assert (fsm_state f2 <> S_BACKOFF) as Hnb.
  { rewrite Hs2, Hs1. intros E. apply Hin. rewrite E. apply list_elem_of_here. }
  destruct may; [|eapply keeps_transition; [done|lia|done|done]].
  destruct (back_off_keeps t f2 Hwf2 Hnb ltac:(lia)) as (f3 & -> & Hwf3 & Hb & _).
  cbn [mbind option_bind]. eapply keeps_transition; [done|lia|done|done].
Qed.

Lemma connecting_spec t f now :
  wf_fsm t f -> t <= now <= TIME_LIMIT ->
  exists f', reconnect_connecting f now = Some f' /\ fsm_state f' = S_CONNECTING /\
    same_settings f f' /\ wf_fsm now f'.
Proof.
  intros Hwf Ht. unfold reconnect_connecting. case_bool_decide as E.
  - exists f. split_and!; try done. eapply wf_later; [done|lia].
  - edestruct (transition_wf t f now S_CONNECTING) as (f' & ? & ? & _ & ? & ?); [done..|]. by exists f'.
Qed.

Lemma connected_keeps t f now :
  wf_fsm t f -> t <= now <= TIME_LIMIT -> keeps now (reconnect_connected f now).
Proof.
  intros Hwf Ht. unfold reconnect_connected.
  destruct (is_connected_state (fsm_state f)); [exists f; split; [done|eapply wf_later; [done|lia]]|].
  destruct (connecting_spec t f now Hwf Ht) as (f1 & -> & _ & _ & Hwf1). cbn [mbind option_bind].
  destruct (transition_spec now f1 now S_ACTIVE Hwf1 ltac:(lia)) as (f2 & -> & Es & En & Hs & Hq).
  cbn [mbind option_bind]. eexists. split; [done|]. destruct Hwf1, Hs as (?&?&?&?&?&?&?&?&?).
  split; cbn; rewrite ?Es; try congruence; try lia; done.
Qed.

Lemma activity_keeps t f now :
  wf_fsm t f -> t <= now <= TIME_LIMIT -> keeps now (reconnect_activity f now).
Proof.
  intros Hwf Ht. unfold reconnect_activity.
  assert (keeps now (if bool_decide (fsm_state f = S_IDLE) then reconnect_transition__ f now S_ACTIVE
                     else Some f)) as (f' & -> & Hwf').
  { case_bool_decide as E; [|exists f; split; [done|eapply wf_later; [done|lia]]].
    apply (keeps_transition t); [done|done|done|by rewrite E]. }
  cbn [mbind option_bind]. eexists. split; [done|]. destruct Hwf'. split; try done. cbn. lia.
Qed.

(** The deadline is defined: never, or soon after the present. *)
Lemma deadline_spec t f :
  wf_fsm t f -> t <= TIME_LIMIT ->
  exists d, reconnect_deadline__ f = Some d /\ (d = INT64_MAX \/ 0 <= d <= t + INT_MAX).
Proof.
  intros [] Ht. unfold reconnect_deadline__. rewrite (proj2 (Z.eqb_neq _ _)) by clia.
  destruct (fsm_state f) eqn:E; try (eexists; split; [done|clia]);
    try (rewrite ll_Some by clia; eexists; split; [done|clia]).
  all: destruct (Z.eqb_spec (probe_interval f) 0); [eexists; split; [done|clia]|]; simpl negb;
    cbv iota; rewrite ll_Some by clia; eexists; (split; [done|clia]).
Qed.

Lemma run_keeps t f now :
  wf_fsm t f -> t <= now <= TIME_LIMIT ->
  exists a f', reconnect_run f now = Some (a, f') /\ wf_fsm now f'.
Proof.
  intros Hwf Ht. unfold reconnect_run.
  destruct (deadline_spec t f Hwf ltac:(lia)) as (d & -> & _). cbn [mbind option_bind].
  pose proof (wf_later t now f Hwf ltac:(lia)) as Hwf'.
  destruct (d <=? now); [|by do 2 eexists]. destruct (fsm_state f) eqn:E; try by do 2 eexists.
  destruct (keeps_transition t f now S_IDLE Hwf Ht) as (f' & -> & ?); [done|by rewrite E|].
  cbn [mbind option_bind]. by do 2 eexists.
Qed.

Lemma set_backoff_wf now f lo hi :
  wf_fsm now f -> in_s 32 lo -> 0 <= hi <= INT_MAX -> wf_fsm now (reconnect_set_backoff f lo hi).
Proof.
  intros [] Hlo Hhi. unfold in_s in Hlo. change (2 ^ (32 - 1)) with (2 ^ 31) in Hlo.
  unfold reconnect_set_backoff.
  set (h := if negb (hi =? 0) then Z.max hi 1000 else RECONNECT_DEFAULT_MAX_BACKOFF).
  assert (1000 <= h <= INT_MAX /\ (hi <= h \/ hi <= 0)) as [Hh Hh']
    by (unfold h; destruct (Z.eqb_spec hi 0); simpl; clia).
  set (h2 := if h <? Z.max lo 1000 then Z.max lo 1000 else h).
  assert (h <= h2 <= INT_MAX /\ Z.max lo 1000 <= h2) as [Hh2 Hh2']
    by (unfold h2; destruct (Z.ltb_spec h (Z.max lo 1000)); clia).
  case_bool_decide as E; cbn [andb].
  - destruct (Z.ltb_spec hi (backoff (put_backoffs (Z.max lo 1000) h2 f))); cbn in *;
      (split; try done; cbn; lia).
  - split; try done; cbn; lia.
Qed.

(** Every call is defined and keeps the invariant. *)
Lemma call_keeps t f c now :
  wf_fsm t f -> valid_call c -> t <= now <= TIME_LIMIT -> keeps now (call_step c now f).
Proof.
  intros Hwf Hv Ht. pose proof (wf_later t now f Hwf ltac:(lia)) as Hwf'.
  assert (keeps now (Some f)) as Hid by (by exists f).
  destruct c; cbn [call_step valid_call] in *.
  - eexists. split; [done|]. destruct Hwf'. split; done.
  - eexists. split; [done|]. destruct Hwf'. split; done.
  - eexists. split; [done|]. destruct Hwf'. split; done.
  - eexists. split; [done|]. destruct Hwf'. split; done.
  - eexists. split; [done|]. apply set_backoff_wf; [done|apply Hv..].
  - eexists. split; [done|]. destruct Hwf'. split; try done. cbn. unfold in_s in Hv.
    change (2 ^ (32 - 1)) with (2 ^ 31) in Hv. destruct (Z.eqb_spec p 0); simpl; clia.
  - unfold reconnect_set_passive. destruct (Bool.eqb _ _); [done|].
    assert (wf_fsm t (put_passive p f)) as Hwf2 by (destruct Hwf; split; done).
    destruct p; [destruct (state_in _ _)|].
    + by apply (enter_backoff_keeps t).
    + eexists. split; [done|]. eapply wf_later; [done|lia].
    + case_bool_decide; [|eexists; split; [done|]; eapply wf_later; [done|lia]].
      destruct (may_retry_spec t _ Hwf2) as (Hwf3 & _).
      destruct (reconnect_may_retry _) as [[] f3]; cbn [snd] in *; [by apply (enter_backoff_keeps t)|].
      eexists. split; [done|]. eapply wf_later; [done|lia].
  - unfold reconnect_enable. case_bool_decide; [|done].
    destruct (may_retry_spec t f Hwf) as (Hwf3 & _).
    destruct (reconnect_may_retry _) as [[] f3]; cbn [snd] in *; [by apply (enter_backoff_keeps t)|].
    eexists. split; [done|]. eapply wf_later; [done|lia].
  - unfold reconnect_disable. case_bool_decide; [done|]. by apply (keeps_transition t).
  - unfold reconnect_force_reconnect. destruct (state_in _ _); [|done]. by apply (keeps_transition t).
  - by apply (disconnected_keeps t).
  - destruct (connecting_spec t f now Hwf Ht) as (f' & -> & _ & _ & ?). by exists f'.
  - unfold reconnect_listening. case_bool_decide; [done|]. by apply (keeps_transition t).
  - unfold reconnect_listen_error. case_bool_decide; [|done]. by apply (disconnected_keeps t).
  - by apply (connected_keeps t).
  - unfold reconnect_connect_failed.
    destruct (connecting_spec t f now Hwf Ht) as (f' & -> & _ & _ & ?). cbn [mbind option_bind].
    apply (disconnected_keeps now); [done|lia].
  - by apply (activity_keeps t).
  - destruct (run_keeps t f now Hwf Ht) as (a & f' & -> & ?). by exists f'.
Qed.

Lemma reachable_wf t f : reachable t f -> t <= TIME_LIMIT -> wf_fsm t f.
Proof.
  induction 1 as [now Hn|t f c now f' Hr IH Hv Ht E]; intros Hl.
  - split; cbn; try done; try clia.
  - destruct (call_keeps t f c now (IH ltac:(lia)) Hv Ht) as (f2 & E2 & Hwf). congruence.
Qed.

(** C32: whatever calls a client has made, with a clock that does not run backwards:
    the configured backoffs are at least a second and ordered, a machine that is
    backing off waits between 0 and the maximal backoff, the probe interval is 0
    or at least a second, the sequence number is odd exactly when the machine is
    connected; and every further call is defined: no assertion fails and no time
    computation overflows. *)
Theorem reconnect_invariant t f :
  reachable t f -> t <= TIME_LIMIT ->
  1000 <= reconnect_get_min_backoff f <= reconnect_get_max_backoff f /\
  (fsm_state f = S_BACKOFF -> 0 <= backoff f <= max_backoff f) /\
  (probe_interval f = 0 \/ 1000 <= probe_interval f) /\
  Z.odd (seqno f) = reconnect_is_connected f /\
  state_entered f <= t /\
  forall c now, valid_call c -> t <= now <= TIME_LIMIT -> is_Some (call_step c now f).
Proof.
  intros Hr Hl. pose proof (reachable_wf t f Hr Hl) as Hwf. pose proof Hwf as [].
  unfold reconnect_get_min_backoff, reconnect_get_max_backoff.
  split_and!; [lia..| |lia|done|lia|].
  - intros E. specialize (wf_waiting0 E). lia.
  - intros c now Hv Ht. destruct (call_keeps t f c now Hwf Hv Ht) as (f' & -> & _). done.
Qed.

(** ** Timers *)

Lemma run_before f d now :
  reconnect_deadline__ f = Some d -> now < d -> reconnect_run f now = Some (NO_ACTION, f).
Proof. intros E Hn. unfold reconnect_run. rewrite E. cbn. by rewrite (proj2 (Z.leb_gt _ _)). Qed.

(** the timeout that the client sleeps is exact: -1 means that no call of
    [reconnect_run] will ask for an action, and a timeout of [w] that one will do so
    from [w] milliseconds on and not before, if nothing else happens. *)
Theorem run_follows_timeout t f now :
  reachable t f -> t <= now -> now <= TIME_LIMIT ->
  exists w, reconnect_timeout f now = Some w /\ -1 <= w <= INT_MAX /\
    forall now', now <= now' <= TIME_LIMIT ->
      exists a f', reconnect_run f now' = Some (a, f') /\
        (a <> NO_ACTION <-> w <> -1 /\ now + w <= now').
Proof.
  intros Hr Ht Hl. pose proof (reachable_wf t f Hr ltac:(lia)) as Hwf.
  destruct (deadline_spec t f Hwf ltac:(lia)) as (d & E & Hd). unfold reconnect_timeout.
  rewrite E. cbn [mbind option_bind].
  destruct (Z.eqb_spec d INT64_MAX) as [->|Hne]; cbn [negb].
  - exists (-1). split_and!; [done|clia|clia|]. intros now' Hn'.
    rewrite (run_before f INT64_MAX now' E) by clia. do 2 eexists. split; [done|]. split; [done|by intros [? _]].
  - rewrite ll_Some by clia. cbn [mbind option_bind]. eexists. split; [done|].
    rewrite (Z.min_r INT_MAX) by clia. split; [clia|]. intros now' Hn'.
    destruct (Z.leb_spec d now') as [Hle|Hgt].
    + destruct (run_keeps t f now' Hwf ltac:(lia)) as (a & f' & Er & _). exists a, f'. split; [done|].
      split; [intros _; lia|]. intros _ ->. revert Er. unfold reconnect_run, reconnect_deadline__ in *.
      rewrite E. cbn [mbind option_bind]. rewrite (proj2 (Z.leb_le _ _) Hle).
      destruct (_ =? _); [done|]. destruct (fsm_state f); try done; try (intros _; congruence).
      by destruct (reconnect_transition__ f now' S_IDLE).
    + rewrite (run_before f d now' E Hgt). do 2 eexists. split; [done|]. split; [done|lia].
Qed.

(** ** Failures *)

Definition next_backoff (lo hi b : Z) : Z :=
  if b <? lo then lo else if b <? Z.quot hi 2 then b * 2 else hi.

Lemma may_retry_state f : fsm_state (reconnect_may_retry f).2 = fsm_state f.
Proof. unfold reconnect_may_retry. by destruct (_ && _). Qed.

(** One failed attempt: given up, or the next wait. *)
Lemma connect_failed_spec t f now e :
  wf_fsm t f -> t <= now <= TIME_LIMIT -> backoff_free_tries f <= 1 ->
  exists f', reconnect_connect_failed f now e = Some f' /\ wf_fsm now f' /\
    backoff_free_tries f' <= 1 /\ min_backoff f' = min_backoff f /\ max_backoff f' = max_backoff f /\
    if max_tries f =? 0 then fsm_state f' = S_VOID /\ max_tries f' = 0
    else fsm_state f' = S_BACKOFF /\ state_entered f' = now /\
         backoff f' = next_backoff (min_backoff f) (max_backoff f) (backoff f) /\
         max_tries f' = (if max_tries f =? UINT_MAX then UINT_MAX else max_tries f - 1).
Proof.
  intros Hwf Ht Hfree. unfold reconnect_connect_failed.
  destruct (connecting_spec t f now Hwf Ht) as (f1 & -> & Es & Hs & Hwf1). cbn [mbind option_bind].
  destruct Hs as (Hmin&Hmax&_&_&Hb&_&_&Htr&Hfr). unfold reconnect_disconnected, state_in. rewrite Es.
  cbn [is_connected_state].
  assert (bool_decide (S_CONNECTING ∈ [S_BACKOFF; S_VOID]) = false) as -> by reflexivity.
  destruct (may_retry_spec now f1 Hwf1) as (Hwf2 & Hst2 & Hb2 & Hmin2 & Hmax2 & Hfr2).
  assert ((reconnect_may_retry f1).1 = negb (max_tries f =? 0) /\
          max_tries (reconnect_may_retry f1).2 =
            if max_tries f =? 0 then 0 else if max_tries f =? UINT_MAX then UINT_MAX else max_tries f - 1)
    as [Hm1 Hm2].
  { destruct Hwf. unfold reconnect_may_retry. rewrite Htr. unfold in_u in *.
    destruct (Z.ltb_spec 0 (max_tries f)), (Z.eqb_spec (max_tries f) 0), (Z.eqb_spec (max_tries f) UINT_MAX);
      cbn; rewrite ?Htr; try lia; try (split; [done|]; lia). }
  destruct (reconnect_may_retry f1) as [may f2]. cbn [fst snd] in *. rewrite Hm1.
  destruct (max_tries f =? 0); cbn [negb].
  - destruct (transition_wf now f2 now S_VOID) as (f3 & -> & E3 & _ & (?&?&_&_&_&_&_&?&?) & ?); [done|lia|done|done|].
    exists f3. split_and!; try done; try congruence; lia.
  - unfold back_off. rewrite (proj2 (Z.ltb_ge _ _)) by lia. rewrite Hst2, Es. cbn [is_connected_state mbind option_bind].
    rewrite Hb2, Hb, Hmin2, Hmin, Hmax2, Hmax. fold (next_backoff (min_backoff f) (max_backoff f) (backoff f)).
    assert (0 <= next_backoff (min_backoff f) (max_backoff f) (backoff f) <= max_backoff f) as Hnb.
    { destruct Hwf. unfold next_backoff. rewrite Z.quot_div_nonneg by lia.
      destruct (Z.ltb_spec (backoff f) (min_backoff f)); [lia|].
      destruct (Z.ltb_spec (backoff f) (max_backoff f / 2)); Z.div_mod_to_equations; lia. }
    destruct (transition_wf now (put_backoff (next_backoff (min_backoff f) (max_backoff f) (backoff f)) f2)
                now S_BACKOFF) as (f3 & -> & E3 & En3 & (?&?&_&_&?&_&_&?&?) & ?);
      [apply put_backoff_wf; [done|lia]|lia|cbn; lia|done|].
    exists f3. cbn in *. split_and!; try done; try congruence; lia.
Qed.

(** Failed attempts at the given times. *)
Fixpoint failures (ts : list Z) (f : reconnect) : option reconnect :=
  match ts with
  | [] => Some f
  | now :: ts' => f' ← reconnect_connect_failed f now 0; failures ts' f'
  end.

(** The clock does not run backwards. *)
Fixpoint clock (t : Z) (ts : list Z) : Prop :=
  match ts with [] => True | now :: ts' => t <= now <= TIME_LIMIT /\ clock now ts' end.

Lemma next_backoff_grows lo hi b c :
  0 < lo <= hi -> lo <= c -> Z.min hi c <= b -> Z.min hi (2 * c) <= next_backoff lo hi b.
Proof.
  intros Hl Hc Hb. unfold next_backoff. destruct (Z.ltb_spec b lo); [lia|].
  destruct (Z.ltb_spec b (Z.quot hi 2)); lia.
Qed.

Lemma failures_backoff ts t f c :
  wf_fsm t f -> clock t ts -> max_tries f = UINT_MAX -> backoff_free_tries f <= 1 ->
  fsm_state f = S_BACKOFF -> state_entered f = t -> min_backoff f <= c ->
  Z.min (max_backoff f) c <= backoff f ->
  exists f', failures ts f = Some f' /\ fsm_state f' = S_BACKOFF /\
    state_entered f' = default t (last ts) /\ wf_fsm (default t (last ts)) f' /\
    Z.min (max_backoff f) (2 ^ Z.of_nat (length ts) * c) <= backoff f' <= max_backoff f.
Proof.
  revert t f c. induction ts as [|now ts IH]; intros t f c Hwf Hclk Hm Hfr Hs Hse Hc Hb.
  - exists f. split_and!; try done; [|by apply (wf_waiting t)]. cbn [length]. change (2 ^ Z.of_nat 0) with 1. lia.
  - destruct Hclk as [Hn Hclk].
    destruct (connect_failed_spec t f now 0 Hwf Hn Hfr) as (f1 & E1 & Hwf1 & Hfr1 & Hmin1 & Hmax1 & H1).
    rewrite Hm in H1. change (UINT_MAX =? 0) with false in H1. cbv iota in H1.
    destruct H1 as (Hs1 & Hse1 & Hb1 & Hm1). rewrite Z.eqb_refl in Hm1.
    destruct (IH now f1 (2 * c)) as (f' & E' & Hs' & Hse' & Hwf' & Hb'); try done.
    + rewrite Hmin1. destruct Hwf. lia.
    + rewrite Hmax1, Hb1. apply next_backoff_grows; [destruct Hwf; lia|done|done].
    + exists f'. cbn [failures]. rewrite E1. cbn [mbind option_bind]. split_and!; try done.
      * rewrite Hse', last_cons. by destruct (last ts).
      * rewrite last_cons. by destruct (last ts).
      * rewrite Hmax1 in Hb'. cbn [length]. rewrite Nat2Z.inj_succ, Z.pow_succ_r by lia.
        replace (2 * 2 ^ Z.of_nat (length ts) * c) with (2 ^ Z.of_nat (length ts) * (2 * c)) by lia. lia.
      * rewrite Hmax1 in Hb'. lia.
Qed.

(** repeated failures wait longer and longer, up to the maximum: after [k + 1]
    consecutive failed attempts the machine is backing off, and its wait lies
    between min(max_backoff, min_backoff * 2^k) and max_backoff; it asks for the next
    attempt exactly when that wait is over. *)
Theorem backoff_doubles t f now ts :
  reachable t f -> max_tries f = UINT_MAX -> backoff_free_tries f <= 1 -> clock t (now :: ts) ->
  exists f' last_try, last (now :: ts) = Some last_try /\ failures (now :: ts) f = Some f' /\
    Z.min (max_backoff f) (min_backoff f * 2 ^ Z.of_nat (length ts)) <= backoff f' <= max_backoff f /\
    forall now', now' <= TIME_LIMIT ->
      reconnect_run f' now' =
      Some (if last_try + backoff f' <=? now' then RECONNECT_CONNECT else NO_ACTION, f').
Proof.
  intros Hr Hm Hfr [Hn Hclk]. pose proof (reachable_wf t f Hr ltac:(lia)) as Hwf.
  destruct (connect_failed_spec t f now 0 Hwf Hn Hfr) as (f1 & E1 & Hwf1 & Hfr1 & Hmin1 & Hmax1 & H1).
  rewrite Hm in H1. change (UINT_MAX =? 0) with false in H1. cbv iota in H1.
  destruct H1 as (Hs1 & Hse1 & Hb1 & Hm1). rewrite Z.eqb_refl in Hm1.
  assert (Z.min (max_backoff f1) (min_backoff f) <= backoff f1).
  { rewrite Hmax1, Hb1. unfold next_backoff. destruct Hwf.
    destruct (Z.ltb_spec (backoff f) (min_backoff f)); [lia|].
    destruct (Z.ltb_spec (backoff f) (Z.quot (max_backoff f) 2)); lia. }
  destruct (failures_backoff ts now f1 (min_backoff f)) as (f' & E' & Hs' & Hse' & Hwf' & Hb'); try done; [lia|].
  exists f', (default now (last ts)). rewrite last_cons. cbn [failures]. rewrite E1. cbn [mbind option_bind].
  split_and!; [by destruct (last ts)|done|rewrite Hmax1 in Hb'; lia|rewrite Hmax1 in Hb'; lia|].
  intros now' _. assert (0 <= state_entered f' <= TIME_LIMIT).
  { destruct Hwf'. split; [lia|]. rewrite Hse'. clear -Hclk Hn.
    revert now Hn Hclk. induction ts as [|x ts IH]; intros now Hn Hclk; [cbn; lia|].
    destruct Hclk as [Hx Hclk]. rewrite last_cons. specialize (IH x ltac:(lia) Hclk). by destruct (last ts). }
  unfold reconnect_run, reconnect_deadline__. rewrite Hs', Hse'. rewrite Hse' in *.
  rewrite (proj2 (Z.eqb_neq _ _)) by clia. rewrite ll_Some by (destruct Hwf'; clia).
  cbn [mbind option_bind]. by destruct (_ <=? _).
Qed.

(** C33: a limited number of tries is respected: with [n] tries left, after more than
    [n] failed attempts the machine has disabled itself, asks for no further
    action, and enabling it again has no effect. *)
Theorem tries_exhausted t f ts :
  reachable t f -> t <= TIME_LIMIT -> max_tries f < Z.of_nat (length ts) -> max_tries f <> UINT_MAX ->
  backoff_free_tries f <= 1 -> clock t ts ->
  exists f', failures ts f = Some f' /\ reconnect_is_enabled f' = false /\
    forall now, now <= TIME_LIMIT ->
      reconnect_run f' now = Some (NO_ACTION, f') /\ reconnect_enable f' now = Some f'.
Proof.
  intros Hr Hl Hn Hm Hfr Hclk. pose proof (reachable_wf t f Hr Hl) as Hwf. clear Hr.
  assert (max_tries f = 0 -> ts = [] -> False) as Hne by (intros ? ->; cbn in Hn; lia).
  assert (exists f' t', failures ts f = Some f' /\ fsm_state f' = S_VOID /\ max_tries f' = 0 /\ wf_fsm t' f')
    as (f' & t' & E & Hs & Hm' & Hwf').
  { revert t f Hl Hn Hm Hfr Hclk Hwf Hne. induction ts as [|now ts IH]; intros t f Hl Hn Hm Hfr Hclk Hwf Hne.
    { cbn in Hn. destruct Hwf. unfold in_u in *. lia. }
    destruct Hclk as [Ht Hclk]. cbn [failures].
    destruct (connect_failed_spec t f now 0 Hwf Ht Hfr) as (f1 & -> & Hwf1 & Hfr1 & _ & _ & H1).
    cbn [mbind option_bind]. destruct (Z.eqb_spec (max_tries f) 0) as [E0|E0].
    - destruct H1 as [Hs1 Hm1]. destruct ts as [|x ts]; [exists f1, now; done|].
      apply (IH now f1); try done; try lia; rewrite ?Hm1; cbn [length]; clia.
    - destruct H1 as (_ & _ & _ & Hm1). rewrite (proj2 (Z.eqb_neq _ _) Hm) in Hm1.
      cbn [length] in Hn. destruct Hwf. unfold in_u in *.
      apply (IH now f1); try done; try lia; try clia. intros ? ->. cbn in Hn. lia. }
  exists f'. split_and!; [done|unfold reconnect_is_enabled; by rewrite Hs|]. intros now Hnow.
  unfold reconnect_run, reconnect_deadline__, reconnect_enable, reconnect_may_retry. rewrite Hs, Hm'.
  rewrite (proj2 (Z.eqb_neq _ _)) by (destruct Hwf'; clia). cbn. by destruct (_ <=? _).
Qed.

(** the keepalive: a connection without activity for a probe interval is probed
    and stays connected; if another interval passes without activity the client is
    told to disconnect, and not earlier; activity in between makes the machine wait
    a whole interval again before it probes. *)
Theorem keepalive t f now :
  reachable t f -> t <= now <= TIME_LIMIT -> fsm_state f = S_ACTIVE -> probe_interval f <> 0 ->
  Z.max (last_activity f) (state_entered f) + probe_interval f <= now ->
  exists f1, reconnect_run f now = Some (RECONNECT_PROBE, f1) /\ reconnect_is_connected f1 = true /\
    (forall t2, now <= t2 <= TIME_LIMIT ->
       reconnect_run f1 t2 =
       Some (if now + probe_interval f <=? t2 then RECONNECT_DISCONNECT else NO_ACTION, f1)) /\
    (forall t2 t3, now <= t2 <= t3 -> t3 <= TIME_LIMIT ->
       exists f2 a f3, reconnect_activity f1 t2 = Some f2 /\ reconnect_run f2 t3 = Some (a, f3) /\
         a = (if t2 + probe_interval f <=? t3 then RECONNECT_PROBE else NO_ACTION)).
Proof.
  intros Hr Ht Hs Hp Hd. pose proof (reachable_wf t f Hr ltac:(lia)) as Hwf.
  destruct (transition_wf t f now S_IDLE Hwf Ht) as (f1 & E1 & Hs1 & Hn1 & (?&?&Hp1&_&_&Ha1&_&_&_) & Hwf1);
    [done|by rewrite Hs|].
  exists f1. split_and!.
  - unfold reconnect_run, reconnect_deadline__. rewrite Hs, (proj2 (Z.eqb_neq _ _)) by (destruct Hwf; clia).
    rewrite (proj2 (Z.eqb_neq _ _) Hp). cbn [negb]. rewrite ll_Some by (destruct Hwf; clia).
    cbn [mbind option_bind]. rewrite (proj2 (Z.leb_le _ _) Hd), E1. done.
  - unfold reconnect_is_connected. by rewrite Hs1.
  - intros t2 Ht2. unfold reconnect_run, reconnect_deadline__.
    rewrite Hs1, Hn1, Hp1, (proj2 (Z.eqb_neq _ _)) by (destruct Hwf; clia).
    rewrite (proj2 (Z.eqb_neq _ _) Hp). cbn [negb]. rewrite ll_Some by (destruct Hwf; clia).
    cbn [mbind option_bind]. by destruct (_ <=? _).
  - intros t2 t3 Ht2 Ht3. unfold reconnect_activity. rewrite bool_decide_eq_true_2 by done.
    destruct (transition_wf now f1 t2 S_ACTIVE Hwf1 ltac:(lia))
      as (f2 & -> & Hs2 & Hn2 & (?&?&Hp2&_&_&_&_&_&_) & Hwf2); [done|by rewrite Hs1|].
    cbn [mbind option_bind]. set (g := put_last_activity t2 f2).
    assert (wf_fsm t2 g) as Hg by (destruct Hwf2; split; try done; cbn; lia).
    destruct (run_keeps t2 g t3 Hg ltac:(lia)) as (a & f3 & Er & _).
    exists g, a, f3. split_and!; try done. revert Er. unfold reconnect_run, reconnect_deadline__.
    change (fsm_state g) with (fsm_state f2). change (state_entered g) with (state_entered f2).
    change (last_activity g) with t2. change (probe_interval g) with (probe_interval f2).
    rewrite Hs2, Hn2, Hp2, Hp1, Z.max_id, (proj2 (Z.eqb_neq _ _)) by (destruct Hwf1; clia).
    rewrite (proj2 (Z.eqb_neq _ _) Hp). cbn [negb]. rewrite ll_Some by (destruct Hwf; clia).
    cbn [mbind option_bind]. destruct (_ <=? _); [|congruence].
    by destruct (reconnect_transition__ g t3 S_IDLE) as [h|]; [intros [= <- _]|].
Qed.

(** ** Witnesses *)

Definition enabled_fsm : reconnect := default (reconnect_create 0) (reconnect_enable (reconnect_create 0) 10).
Definition active_fsm : reconnect := default enabled_fsm (reconnect_connected enabled_fsm 20).
Definition limited_fsm : reconnect := reconnect_set_max_tries enabled_fsm 2.

Lemma enabled_reachable : reachable 10 enabled_fsm.
Proof.
  apply (reach_call 0 (reconnect_create 0) CEnable 10); [by constructor|done|clia|reflexivity].
Qed.

Lemma active_reachable : reachable 20 active_fsm.
Proof.
  apply (reach_call 10 enabled_fsm CConnected 20); [apply enabled_reachable|done|clia|].
  vm_compute. reflexivity.
Qed.

Lemma set_max_tries_reachable t f n now :
  reachable t f -> in_u 32 n -> t <= now <= TIME_LIMIT -> reachable now (reconnect_set_max_tries f n).
Proof. intros Hr Hn Ht. by apply (reach_call t f (CSetMaxTries n) now). Qed.

Lemma limited_reachable : reachable 10 limited_fsm.
Proof.
  apply (set_max_tries_reachable 10); [apply enabled_reachable|unfold in_u; lia|clia].
Qed.

Lemma reconnect_invariant_witness :
  Z.odd (seqno active_fsm) = true /\ is_Some (call_step (CDisconnected 0) 30 active_fsm).
Proof.
  pose proof (reconnect_invariant 20 active_fsm active_reachable ltac:(clia)) as (_ & _ & _ & Hq & _ & Hc).
  split; [exact Hq|]. apply Hc; [exact I|clia].
Defined.

Lemma run_follows_timeout_witness :
  reconnect_timeout active_fsm 25 = Some 4995 /\
  exists a f', reconnect_run active_fsm 5020 = Some (a, f') /\ a <> NO_ACTION.
Proof.
  pose proof (run_follows_timeout 20 active_fsm 25 active_reachable ltac:(lia) ltac:(clia)) as (w & Hw & _ & H).
  split; [reflexivity|]. vm_compute in Hw. injection Hw as Hw.
  destruct (H 5020 ltac:(clia)) as (a & f' & Hr & Ha). exists a, f'. split; [exact Hr|].
  apply Ha. rewrite <- Hw. lia.
Defined.

Lemma backoff_doubles_witness :
  exists f', failures [11; 12; 13] enabled_fsm = Some f' /\ 4000 <= backoff f' <= 8000.
Proof.
  destruct (backoff_doubles 10 enabled_fsm 11 [12; 13] enabled_reachable) as (f' & l & _ & E & Hb & _).
  - reflexivity.
  - vm_compute. discriminate.
  - cbn. clia.
  - exists f'. split; [exact E|]. exact Hb.
Defined.

Lemma tries_exhausted_witness :
  exists f', failures [11; 12; 13] limited_fsm = Some f' /\ reconnect_is_enabled f' = false.
Proof.
  destruct (tries_exhausted 10 limited_fsm [11; 12; 13] limited_reachable) as (f' & E & Hd & _).
  - clia.
  - vm_compute. reflexivity.
  - vm_compute. discriminate.
  - vm_compute. discriminate.
  - cbn. clia.
  - exists f'. split; [exact E|exact Hd].
Defined.

Lemma keepalive_witness :
  exists f1, reconnect_run active_fsm 5020 = Some (RECONNECT_PROBE, f1) /\
    reconnect_run f1 10020 = Some (RECONNECT_DISCONNECT, f1).
Proof.
  destruct (keepalive 20 active_fsm 5020 active_reachable) as (f1 & E & _ & H & _).
  - clia.
  - reflexivity.
  - vm_compute. discriminate.
  - vm_compute. discriminate.
  - exists f1. split; [exact E|]. apply (H 10020). clia.
Defined.
