(* ===== verification/X86.v ===== *)
(** * The fragment of x86-64 that the JIT compiler emits

    Instructions, their decoding from bytes and their effect, after the manual of the
    architecture: REX and operand-size prefixes, ModRM with displacement, 32-bit
    results zero-extended, shift counts masked, division faults.  A code address
    is an offset into the code.  The flags are defined by comparisons and tests
    only; a conditional jump after any other instruction is not covered. *)

From S2P Require Import Prelude Memory MapDef.

(** ** Registers and instructions *)

Definition RAX : Z := 0.
Definition RCX : Z := 1.
Definition RDX : Z := 2.
Definition RBX : Z := 3.
Definition RSP : Z := 4.
Definition RBP : Z := 5.
Definition RSI : Z := 6.
Definition RDI : Z := 7.
Definition R8 : Z := 8.
Definition R9 : Z := 9.
Definition R10 : Z := 10.
Definition R11 : Z := 11.
Definition R12 : Z := 12.
Definition R13 : Z := 13.
Definition R14 : Z := 14.
Definition R15 : Z := 15.
#[export] Hint Unfold RAX RCX RDX RBX RSP RBP RSI RDI R8 R9 R10 R11 R12 R13 R14 R15 : consts.

Inductive operand_size : Set := S8 | S16 | S32 | S64.

Inductive alu : Set := AADD | AOR | AAND | ASUB | AXOR | ACMP | ATEST | AMOV.
Inductive shift : Set := SHL | SHR | SAR.
Inductive cond : Set := CE | CNE | CA | CAE | CG | CGE.

(** [w] is true for 64-bit operands.  The destination comes last, as in the AT&T
    syntax. *)
Inductive xinst : Set :=
| XAluRR (w : bool) (o : alu) (src dst : Z)
| XAluRI (w : bool) (o : alu) (imm dst : Z)
| XShiftI (w : bool) (o : shift) (count dst : Z)
| XShiftCL (w : bool) (o : shift) (dst : Z)
| XRol16 (count dst : Z)
| XNeg (w : bool) (dst : Z)
| XMul (w : bool) (src : Z)
| XDiv (w : bool) (src : Z)
| XBswap (w : bool) (dst : Z)
| XMovabs (imm dst : Z)
| XPush (r : Z)
| XPop (r : Z)
| XRet
| XJmp (rel : Z)
| XJcc (c : cond) (rel : Z)
| XCall (r : Z)
| XLoad (s : operand_size) (base disp dst : Z)
| XStore (s : operand_size) (src base disp : Z)
| XStoreImm (s : operand_size) (imm base disp : Z).

#[export] Instance operand_size_eq_dec : EqDecision operand_size.
Proof. solve_decision. Defined.
#[export] Instance alu_eq_dec : EqDecision alu.
Proof. solve_decision. Defined.
#[export] Instance shift_eq_dec : EqDecision shift.
Proof. solve_decision. Defined.
#[export] Instance cond_eq_dec : EqDecision cond.
Proof. solve_decision. Defined.
#[export] Instance xinst_eq_dec : EqDecision xinst.
Proof. solve_decision. Defined.

(** ** Decoding *)

(** A little-endian field of [n] bytes, and what follows it. *)
Definition take_le (n : nat) (bs : bytes) : option (Z * bytes) :=
  if (n <=? length bs)%nat then Some (le_value (take n bs), drop n bs) else None.
Definition take_s (n : nat) (bs : bytes) : option (Z * bytes) :=
  '(v, r) ← take_le n bs; Some (sext (8 * Z.of_nat n) v, r).

(** ModRM: mod, reg and rm, with the extension bits of the REX prefix. *)
Definition take_modrm (xr xb : Z) (bs : bytes) : option (Z * Z * Z * bytes) :=
  match bs with
  | b :: r => Some (b / 64, (b / 8) mod 8 + 8 * xr, b mod 8 + 8 * xb, r)
  | [] => None
  end.

(** The displacement of a memory operand.  A base 4 or 12 means a SIB byte, and mod 0
    with base 5 or 13 an address relative to the program counter: not covered. *)
Definition take_disp (md base : Z) (bs : bytes) : option (Z * bytes) :=
  if base mod 8 =? 4 then None
  else if md =? 0 then if base mod 8 =? 5 then None else Some (0, bs)
  else if md =? 1 then take_s 1 bs
  else if md =? 2 then take_s 4 bs
  else None.

Definition alu_rr (op : Z) : option alu :=
  if op =? 0x01 then Some AADD else if op =? 0x09 then Some AOR else if op =? 0x21 then Some AAND
  else if op =? 0x29 then Some ASUB else if op =? 0x31 then Some AXOR else if op =? 0x39 then Some ACMP
  else if op =? 0x85 then Some ATEST else None.
Definition alu_ext (ext : Z) : option alu :=
  if ext =? 0 then Some AADD else if ext =? 1 then Some AOR else if ext =? 4 then Some AAND
  else if ext =? 5 then Some ASUB else if ext =? 6 then Some AXOR else if ext =? 7 then Some ACMP else None.
Definition shift_ext (ext : Z) : option shift :=
  if ext =? 4 then Some SHL else if ext =? 5 then Some SHR else if ext =? 7 then Some SAR else None.
Definition cond_code (b : Z) : option cond :=
  if b =? 0x84 then Some CE else if b =? 0x85 then Some CNE else if b =? 0x87 then Some CA
  else if b =? 0x83 then Some CAE else if b =? 0x8f then Some CG else if b =? 0x8d then Some CGE else None.

(** Two-byte opcodes, after 0x0f. *)
Definition decode_0f (w : bool) (xr xb : Z) (bs : bytes) : option (xinst * bytes) :=
  match bs with
  | [] => None
  | b :: r =>
      if (b =? 0xb6) || (b =? 0xb7) then
        '(md, reg, rm, r) ← take_modrm xr xb r;
        '(d, r) ← take_disp md rm r;
        if w then None else Some (XLoad (if b =? 0xb6 then S8 else S16) rm d reg, r)
      else if (0xc8 <=? b) && (b <=? 0xcf) then Some (XBswap w (b - 0xc8 + 8 * xb), r)
      else
        c ← cond_code b;
        '(rel, r) ← take_s 4 r; Some (XJcc c rel, r)
  end.

(** The one-byte opcode [op]; [rex] tells whether there was a REX prefix. *)
Definition decode_op (op16 rex w : bool) (xr xb : Z) (op : Z) (bs : bytes) : option (xinst * bytes) :=
  if op16 then
    '(md, reg, rm, r) ← take_modrm xr xb bs;
    if w then None
    else if op =? 0xc1 then
      if (md =? 3) && (reg mod 8 =? 0) then '(n, r) ← take_le 1 r; Some (XRol16 n rm, r) else None
    else
      '(d, r) ← take_disp md rm r;
      if op =? 0x89 then Some (XStore S16 reg rm d, r)
      else if (op =? 0xc7) && (reg mod 8 =? 0)
      then '(v, r) ← take_s 2 r; Some (XStoreImm S16 v rm d, r)
      else None
  else if (0x50 <=? op) && (op <=? 0x57) then Some (XPush (op - 0x50 + 8 * xb), bs)
  else if (0x58 <=? op) && (op <=? 0x5f) then Some (XPop (op - 0x58 + 8 * xb), bs)
  else if op =? 0xc3 then Some (XRet, bs)
  else if op =? 0xe9 then '(rel, r) ← take_s 4 bs; Some (XJmp rel, r)
  else if op =? 0x0f then decode_0f w xr xb bs
  else if (0xb8 <=? op) && (op <=? 0xbf) then
    if w then '(v, r) ← take_le 8 bs; Some (XMovabs v (op - 0xb8 + 8 * xb), r) else None
  else
    '(md, reg, rm, r) ← take_modrm xr xb bs;
    if md =? 3 then
      match alu_rr op with
      | Some o => Some (XAluRR w o reg rm, r)
      | None =>
          if op =? 0x89 then Some (XAluRR w AMOV reg rm, r)
          else if op =? 0x81 then
            o ← alu_ext (reg mod 8); '(v, r) ← take_s 4 r; Some (XAluRI w o v rm, r)
          else if op =? 0xc7 then
            if reg mod 8 =? 0 then '(v, r) ← take_s 4 r; Some (XAluRI w AMOV v rm, r) else None
          else if op =? 0xf7 then
            if reg mod 8 =? 0 then '(v, r) ← take_s 4 r; Some (XAluRI w ATEST v rm, r)
            else if reg mod 8 =? 3 then Some (XNeg w rm, r)
            else if reg mod 8 =? 4 then Some (XMul w rm, r)
            else if reg mod 8 =? 6 then Some (XDiv w rm, r)
            else None
          else if op =? 0xc1 then
            o ← shift_ext (reg mod 8); '(n, r) ← take_le 1 r; Some (XShiftI w o n rm, r)
          else if op =? 0xd3 then o ← shift_ext (reg mod 8); Some (XShiftCL w o rm, r)
          else if op =? 0xff then if reg mod 8 =? 2 then Some (XCall rm, r) else None
          else None
      end
    else
      '(d, r) ← take_disp md rm r;
      if op =? 0x8b then Some (XLoad (if w then S64 else S32) rm d reg, r)
      else if op =? 0x89 then Some (XStore (if w then S64 else S32) reg rm d, r)
      else if op =? 0x88 then
        (* without REX, 4 to 7 would be the high bytes of registers 0 to 3 *)
        if rex || (reg <? 4) then Some (XStore S8 reg rm d, r) else None
      else if (op =? 0xc7) && (reg mod 8 =? 0) then
        '(v, r) ← take_s 4 r; Some (XStoreImm (if w then S64 else S32) v rm d, r)
      else if (op =? 0xc6) && (reg mod 8 =? 0) then
        '(v, r) ← take_s 1 r; Some (XStoreImm S8 v rm d, r)
      else None.

Definition decode (bs : bytes) : option (xinst * bytes) :=
  let '(op16, bs) := match bs with b :: r => if b =? 0x66 then (true, r) else (false, bs) | [] => (false, bs) end in
  let '(rex, bs) :=
    match bs with
    | b :: r => if (0x40 <=? b) && (b <=? 0x4f) then (Some b, r) else (None, bs)
    | [] => (None, bs)
    end in
  let p := default 0x40 rex in
  if Z.testbit p 1 then None
  else
    match bs with
    | op :: r =>
        decode_op op16 (match rex with Some _ => true | None => false end) (Z.testbit p 3) (Z.b2z (Z.testbit p 2))
          (Z.b2z (Z.testbit p 0)) op r
    | [] => None
    end.

(** ** Execution *)

(** [zf], [cf], [sf], [of]; [None] when the last instruction leaves them outside the
    model. *)
Record xflags : Set := mk_flags { zf : bool; cf : bool; sf : bool; ovf : bool }.

Record xstate : Type := mk_x {
  rip : Z;
  xr : Z -> Z;
  flags : option xflags;
  xm : memory
}.

Inductive xresult : Type :=
| XNext (x : xstate)
| XDone (x : xstate)  (** a return to the caller *)
| XStuck.

Definition upd (f : Z -> Z) (r v : Z) : Z -> Z := fun x => if x =? r then v else f x.

Definition width (w : bool) : Z := if w then 64 else 32.
Definition size_bytes (s : operand_size) : nat :=
  match s with S8 => 1 | S16 => 2 | S32 => 4 | S64 => 8 end.

Definition alu_val (o : alu) (W d s : Z) : Z :=
  match o with
  | AADD => wrap W (d + s)
  | ASUB | ACMP => wrap W (d - s)
  | AOR => Z.lor d s
  | AAND | ATEST => Z.land d s
  | AXOR => Z.lxor d s
  | AMOV => s
  end.

Definition cmp_flags (W d s : Z) : xflags :=
  let r := wrap W (d - s) in
  mk_flags (r =? 0) (d <? s) (Z.testbit r (W - 1)) (negb (sext W d - sext W s =? sext W r)).
Definition test_flags (W d s : Z) : xflags :=
  let r := Z.land d s in mk_flags (r =? 0) false (Z.testbit r (W - 1)) false.

Definition alu_flags (o : alu) (W d s : Z) (old : option xflags) : option xflags :=
  match o with
  | ACMP => Some (cmp_flags W d s)
  | ATEST => Some (test_flags W d s)
  | AMOV => old
  | _ => None
  end.

Definition writes (o : alu) : bool := match o with ACMP | ATEST => false | _ => true end.

Definition shift_val (o : shift) (W d n : Z) : Z :=
  let c := Z.land n (W - 1) in
  match o with
  | SHL => wrap W (Z.shiftl d c)
  | SHR => Z.shiftr d c
  | SAR => wrap W (Z.shiftr (sext W d) c)
  end.

Definition cond_holds (c : cond) (f : xflags) : bool :=
  match c with
  | CE => zf f
  | CNE => negb (zf f)
  | CA => negb (cf f) && negb (zf f)
  | CAE => negb (cf f)
  | CG => negb (zf f) && Bool.eqb (sf f) (ovf f)
  | CGE => Bool.eqb (sf f) (ovf f)
  end.

Definition bswap (n : nat) (v : Z) : Z := le_value (rev (le_bytes n v)).

Definition rol16 (v n : Z) : Z :=
  let c := n mod 16 in
  wrap 16 (Z.lor (Z.shiftl (u16 v) c) (Z.shiftr (u16 v) (16 - c))) + (v - u16 v).

Section Exec.
(** What a call of C code at an address does to the registers and the memory. *)
Context (callee : Z -> (Z -> Z) -> memory -> option ((Z -> Z) * memory)).

(** [next] is the offset behind the instruction. *)
Definition xexec (i : xinst) (next : Z) (x : xstate) : xresult :=
  let R := xr x in
  let set r v fl := XNext (mk_x next (upd R r v) fl (xm x)) in
  match i with
  | XAluRR w o src dst =>
      let W := width w in
      let d := wrap W (R dst) in let s := wrap W (R src) in
      let fl := alu_flags o W d s (flags x) in
      if writes o then set dst (alu_val o W d s) fl else XNext (mk_x next R fl (xm x))
  | XAluRI w o imm dst =>
      let W := width w in
      let d := wrap W (R dst) in let s := wrap W imm in
      let fl := alu_flags o W d s (flags x) in
      if writes o then set dst (alu_val o W d s) fl else XNext (mk_x next R fl (xm x))
  | XShiftI w o n dst => set dst (shift_val o (width w) (wrap (width w) (R dst)) n) None
  | XShiftCL w o dst => set dst (shift_val o (width w) (wrap (width w) (R dst)) (u8 (R RCX))) None
  | XRol16 n dst => set dst (rol16 (R dst) n) None
  | XNeg w dst => set dst (wrap (width w) (- R dst)) None
  | XMul w src =>
      let W := width w in
      let p := wrap W (R RAX) * wrap W (R src) in
      XNext (mk_x next (upd (upd R RAX (wrap W p)) RDX (p / 2 ^ W)) None (xm x))
  | XDiv w src =>
      let W := width w in
      let n := wrap W (R RDX) * 2 ^ W + wrap W (R RAX) in
      let s := wrap W (R src) in
      if (s =? 0) || (2 ^ W <=? n / s) then XStuck
      else XNext (mk_x next (upd (upd R RAX (n / s)) RDX (n mod s)) None (xm x))
  | XBswap w dst => set dst (if w then bswap 8 (R dst) else bswap 4 (u32 (R dst))) (flags x)
  | XMovabs imm dst => set dst imm (flags x)
  | XPush r =>
      let a := u64 (R RSP - 8) in
      match store_le (xm x) a 8 (R r) with
      | Some m => XNext (mk_x next (upd R RSP a) (flags x) m)
      | None => XStuck
      end
  | XPop r =>
      match load_le (xm x) (R RSP) 8 with
      | Some v => XNext (mk_x next (upd (upd R RSP (u64 (R RSP + 8))) r v) (flags x) (xm x))
      | None => XStuck
      end
  | XRet =>
      match load_le (xm x) (R RSP) 8 with
      | Some _ => XDone (mk_x next (upd R RSP (u64 (R RSP + 8))) (flags x) (xm x))
      | None => XStuck
      end
  | XJmp rel => XNext (mk_x (next + rel) R (flags x) (xm x))
  | XJcc c rel =>
      match flags x with
      | Some f => XNext (mk_x (if cond_holds c f then next + rel else next) R (flags x) (xm x))
      | None => XStuck
      end
  | XCall r =>
      match callee (R r) R (xm x) with
      | Some (R', m) => XNext (mk_x next R' None m)
      | None => XStuck
      end
  | XLoad s base disp dst =>
      match load_le (xm x) (u64 (R base + disp)) (size_bytes s) with
      | Some v => set dst v (flags x)
      | None => XStuck
      end
  | XStore s src base disp =>
      match store_le (xm x) (u64 (R base + disp)) (size_bytes s) (R src) with
      | Some m => XNext (mk_x next R (flags x) m)
      | None => XStuck
      end
  | XStoreImm s imm base disp =>
      match store_le (xm x) (u64 (R base + disp)) (size_bytes s) (u64 imm) with
      | Some m => XNext (mk_x next R (flags x) m)
      | None => XStuck
      end
  end.

(** One instruction of the code. *)
Definition xstep (code : bytes) (x : xstate) : xresult :=
  if (0 <=? rip x) && (rip x <=? Z.of_nat (length code)) then
    match decode (drop (Z.to_nat (rip x)) code) with
    | Some (i, rest) => xexec i (Z.of_nat (length code) - Z.of_nat (length rest)) x
    | None => XStuck
    end
  else XStuck.

Fixpoint xrun (fuel : nat) (code : bytes) (x : xstate) : option xresult :=
  match fuel with
  | O => None
  | S fuel' =>
      match xstep code x with
      | XNext x' => xrun fuel' code x'
      | r => Some r
      end
  end.

(** Any number of steps. *)
Inductive xsteps (code : bytes) : xstate -> xstate -> Prop :=
| xsteps_refl x : xsteps code x x
| xsteps_step x y z : xstep code x = XNext y -> xsteps code y z -> xsteps code x z.

Lemma xsteps_trans code x y z : xsteps code x y -> xsteps code y z -> xsteps code x z.
Proof. induction 1; [done|]. intros. econstructor; [done|]. auto. Qed.

(** The relation and the function agree. *)
Lemma xsteps_run code x y r :
  xsteps code x y -> xstep code y = r -> (forall y', r <> XNext y') ->
  exists fuel, xrun fuel code x = Some r.
Proof.
  induction 1 as [x|x y z Hs _ IH]; intros Hr Hn.
  - exists 1%nat. simpl. destruct (xstep code x); subst; try done. by destruct (Hn x0).
  - destruct (IH Hr Hn) as [n Hrun]. exists (S n). simpl. by rewrite Hs.
Qed.
End Exec.
