(* ===== verification/JitEnc.v ===== *)
(** * Encoding of the instructions the compiler emits

    An assembler for the fragment of [X86], the reference for the emitters of
    [Jit]: decoding what it produces gives the instruction back. *)

From S2P Require Import Prelude Memory MapDef X86.

(** ** Fields *)

Definition hi (r : Z) : bool := 8 <=? r.

(** A REX prefix, left out when it says nothing. *)
Definition rexb (w r b : bool) : bytes :=
  if w || r || b then [0x40 + 8 * Z.b2z w + 4 * Z.b2z r + Z.b2z b] else [].

Definition modrm (md r m : Z) : Z := 64 * md + 8 * (r mod 8) + m mod 8.

(** ModRM and the displacement of a memory operand. *)
Definition disp_bytes (r m d : Z) : bytes :=
  if (d =? 0) && negb (m mod 8 =? 5) then [modrm 0 r m]
  else if (-128 <=? d) && (d <=? 127) then modrm 1 r m :: le_bytes 1 (u8 d)
  else modrm 2 r m :: le_bytes 4 (u32 d).

Definition alu_op (o : alu) : Z :=
  match o with
  | AADD => 0x01 | AOR => 0x09 | AAND => 0x21 | ASUB => 0x29 | AXOR => 0x31
  | ACMP => 0x39 | ATEST => 0x85 | AMOV => 0x89
  end.
Definition alu_imm_op (o : alu) : Z := match o with AMOV => 0xc7 | ATEST => 0xf7 | _ => 0x81 end.
Definition alu_imm_ext (o : alu) : Z :=
  match o with AOR => 1 | AAND => 4 | ASUB => 5 | AXOR => 6 | ACMP => 7 | _ => 0 end.
Definition shift_code (o : shift) : Z := match o with SHL => 4 | SHR => 5 | SAR => 7 end.
Definition cond_byte (c : cond) : Z :=
  match c with CE => 0x84 | CNE => 0x85 | CA => 0x87 | CAE => 0x83 | CG => 0x8f | CGE => 0x8d end.

Definition is64 (s : operand_size) : bool := match s with S64 => true | _ => false end.
Definition prefix16 (s : operand_size) : bytes := match s with S16 => [0x66] | _ => [] end.

(** ** Instructions *)

Definition enc (x : xinst) : bytes :=
  match x with
  | XAluRR w o s d => rexb w (hi s) (hi d) ++ [alu_op o; modrm 3 s d]
  | XAluRI w o im d =>
      rexb w false (hi d) ++ [alu_imm_op o; modrm 3 (alu_imm_ext o) d] ++ le_bytes 4 (u32 im)
  | XShiftI w o n d => rexb w false (hi d) ++ [0xc1; modrm 3 (shift_code o) d] ++ le_bytes 1 (u8 n)
  | XShiftCL w o d => rexb w false (hi d) ++ [0xd3; modrm 3 (shift_code o) d]
  | XRol16 n d => [0x66] ++ rexb false false (hi d) ++ [0xc1; modrm 3 0 d] ++ le_bytes 1 (u8 n)
  | XNeg w d => rexb w false (hi d) ++ [0xf7; modrm 3 3 d]
  | XMul w s => rexb w false (hi s) ++ [0xf7; modrm 3 4 s]
  | XDiv w s => rexb w false (hi s) ++ [0xf7; modrm 3 6 s]
  | XBswap w d => rexb w false (hi d) ++ [0x0f; 0xc8 + d mod 8]
  | XMovabs im d => rexb true false (hi d) ++ [0xb8 + d mod 8] ++ le_bytes 8 (u64 im)
  | XPush r => rexb false false (hi r) ++ [0x50 + r mod 8]
  | XPop r => rexb false false (hi r) ++ [0x58 + r mod 8]
  | XRet => [0xc3]
  | XJmp rel => [0xe9] ++ le_bytes 4 (u32 rel)
  | XJcc c rel => [0x0f; cond_byte c] ++ le_bytes 4 (u32 rel)
  | XCall r => rexb false false (hi r) ++ [0xff; modrm 3 2 r]
  | XLoad s base disp d =>
      rexb (is64 s) (hi d) (hi base) ++
      match s with S8 => [0x0f; 0xb6] | S16 => [0x0f; 0xb7] | _ => [0x8b] end ++
      disp_bytes d base disp
  | XStore s src base disp =>
      prefix16 s ++
      match s with
      | S8 => [0x40 + 4 * Z.b2z (hi src) + Z.b2z (hi base)]
      | _ => rexb (is64 s) (hi src) (hi base)
      end ++
      match s with S8 => [0x88] | _ => [0x89] end ++ disp_bytes src base disp
  | XStoreImm s im base disp =>
      prefix16 s ++ rexb (is64 s) false (hi base) ++
      match s with S8 => [0xc6] | _ => [0xc7] end ++ disp_bytes 0 base disp ++
      match s with
      | S8 => le_bytes 1 (u8 im) | S16 => le_bytes 2 (u16 im) | S32 | S64 => le_bytes 4 (u32 im)
      end
  end.

Definition is_reg (r : Z) : Prop := 0 <= r < 16.
(** A register that addresses memory without a SIB byte. *)
Definition is_base (r : Z) : Prop := is_reg r /\ r mod 8 <> 4.

Definition imm_fits (s : operand_size) (v : Z) : Prop :=
  match s with S8 => in_s 8 v | S16 => in_s 16 v | S32 | S64 => in_s 32 v end.

(** Operands the encoding can hold. *)
Definition wf_x (x : xinst) : Prop :=
  match x with
  | XAluRR _ _ s d => is_reg s /\ is_reg d
  | XAluRI _ _ im d => in_s 32 im /\ is_reg d
  | XShiftI _ _ n d | XRol16 n d => in_u 8 n /\ is_reg d
  | XShiftCL _ _ r | XNeg _ r | XMul _ r | XDiv _ r | XBswap _ r | XPush r | XPop r | XCall r => is_reg r
  | XMovabs im d => in_u 64 im /\ is_reg d
  | XRet => True
  | XJmp rel | XJcc _ rel => in_s 32 rel
  | XLoad _ base disp d => is_base base /\ in_s 32 disp /\ is_reg d
  | XStore _ s base disp => is_base base /\ in_s 32 disp /\ is_reg s
  | XStoreImm s im base disp => is_base base /\ in_s 32 disp /\ imm_fits s im
  end.

(** ** Decoding gives the instruction back *)

Lemma take_le_bytes n v rest :
  in_u (8 * Z.of_nat n) v -> take_le n (le_bytes n v ++ rest) = Some (v, rest).
Proof.
  intros H. unfold take_le. rewrite length_app, length_le_bytes.
  replace (n <=? n + length rest)%nat with true by (symmetry; apply Nat.leb_le; lia).
  rewrite take_app_length', drop_app_length' by (by rewrite length_le_bytes).
  by rewrite le_value_bytes.
Qed.

Lemma take_s_bytes n v rest :
  (0 < n)%nat -> in_s (8 * Z.of_nat n) v ->
  take_s n (le_bytes n (wrap (8 * Z.of_nat n) v) ++ rest) = Some (v, rest).
Proof.
  intros Hn Hv. unfold take_s. rewrite take_le_bytes by (apply wrap_range; lia). simpl.
  by rewrite sext_wrap, sext_small by (try done; lia).
Qed.

Lemma take_modrm_modrm md r m rest :
  0 <= md < 4 -> is_reg r -> is_reg m ->
  take_modrm (Z.b2z (hi r)) (Z.b2z (hi m)) (modrm md r m :: rest) = Some (md, r, m, rest).
Proof.
  unfold is_reg, take_modrm, modrm, hi. intros Hmd Hr Hm.
  set (b := 64 * md + 8 * (r mod 8) + m mod 8).
  assert (b / 64 = md) as -> by (unfold b; Z.div_mod_to_equations; lia).
  assert ((b / 8) mod 8 = r mod 8) as -> by (unfold b; Z.div_mod_to_equations; lia).
  assert (b mod 8 = m mod 8) as -> by (unfold b; Z.div_mod_to_equations; lia).
  assert (forall x, 0 <= x < 16 -> x mod 8 + 8 * Z.b2z (8 <=? x) = x) as E.
  { intros x Hx. destruct (Z.leb_spec 8 x); cbn [Z.b2z]; Z.div_mod_to_equations; lia. }
  by rewrite !E.
Qed.

(** The register field of an instruction with an opcode extension. *)
Lemma take_modrm_ext md e m rest :
  0 <= md < 4 -> 0 <= e < 8 -> is_reg m ->
  take_modrm 0 (Z.b2z (hi m)) (modrm md e m :: rest) = Some (md, e, m, rest).
Proof.
  intros Hmd He Hm. assert (hi e = false) as E by (unfold hi; lia).
  change 0 with (Z.b2z false) at 1. rewrite <- E. apply take_modrm_modrm; unfold is_reg; lia || done.
Qed.

(** A memory operand. *)
Lemma take_disp_bytes r m d rest :
  is_reg r -> is_base m -> in_s 32 d ->
  exists md rest', md <> 3 /\
    take_modrm (Z.b2z (hi r)) (Z.b2z (hi m)) (disp_bytes r m d ++ rest) = Some (md, r, m, rest') /\
    take_disp md m rest' = Some (d, rest).
Proof.
  intros Hr [Hm H4] Hd. unfold disp_bytes, take_disp.
  assert ((m mod 8 =? 4) = false) as -> by lia.
  destruct ((d =? 0) && negb (m mod 8 =? 5)) eqn:E1;
    [|destruct ((-128 <=? d) && (d <=? 127)) eqn:E2];
    rewrite <- app_comm_cons, take_modrm_modrm by (done || lia).
  - exists 0, rest. split_and!; try done. cbn [Z.eqb].
    assert ((m mod 8 =? 5) = false) as -> by lia. assert (d = 0) as -> by lia. done.
  - exists 1, (le_bytes 1 (u8 d) ++ rest). split_and!; try done. cbn [Z.eqb Pos.eqb].
    apply (take_s_bytes 1); [lia|unfold in_s; lia].
  - exists 2, (le_bytes 4 (u32 d) ++ rest). split_and!; try done. cbn [Z.eqb Pos.eqb].
    apply (take_s_bytes 4); [lia|done].
Qed.

(** Behind a REX prefix or without one. *)
Lemma decode_rexb w r b op rest :
  op <> 0x66 -> ~ (0x40 <= op <= 0x4f) ->
  decode (rexb w r b ++ op :: rest) = decode_op false (w || r || b) w (Z.b2z r) (Z.b2z b) op rest.
Proof.
  intros H1 H2. unfold rexb. assert ((op =? 0x66) = false) as E1 by lia.
  assert ((0x40 <=? op) && (op <=? 0x4f) = false) as E2 by lia.
  destruct w, r, b; try reflexivity.
  unfold decode. cbn [orb app]. rewrite E1, E2. reflexivity.
Qed.

Lemma decode_rexb16 w r b op rest :
  ~ (0x40 <= op <= 0x4f) ->
  decode (0x66 :: rexb w r b ++ op :: rest) = decode_op true (w || r || b) w (Z.b2z r) (Z.b2z b) op rest.
Proof.
  intros H2. unfold rexb. assert ((0x40 <=? op) && (op <=? 0x4f) = false) as E2 by lia.
  destruct w, r, b; try reflexivity.
  unfold decode. cbn [orb app Z.eqb Pos.eqb]. rewrite E2. reflexivity.
Qed.

(** Opcodes that hold a register. *)
Lemma low_bits_hi r : is_reg r -> r mod 8 + 8 * Z.b2z (hi r) = r.
Proof. unfold is_reg, hi. intros. destruct (Z.leb_spec 8 r); cbn [Z.b2z]; Z.div_mod_to_equations; lia. Qed.

(** Evaluates the decoder up to the fields. *)
Ltac dec_op := unfold decode_op; cbn -[take_modrm take_s take_le take_disp le_bytes modrm disp_bytes hi wrap].
Ltac dec_fields :=
  repeat first
    [ rewrite take_modrm_modrm by (done || lia)
    | rewrite take_modrm_ext by (done || lia)
    | rewrite (take_s_bytes 4) by (done || lia)
    | rewrite (take_s_bytes 2) by (done || lia)
    | rewrite (take_s_bytes 1) by (done || lia)
    | rewrite (take_le_bytes 1) by (apply wrap_range; lia)
    | rewrite (take_le_bytes 8) by (apply wrap_range; lia)
    | progress cbn -[take_modrm take_s take_le take_disp le_bytes modrm disp_bytes hi wrap] ].

Lemma decode_enc_alu x rest :
  match x with
  | XAluRR _ _ _ _ | XAluRI _ _ _ _ | XShiftI _ _ _ _ | XShiftCL _ _ _ | XNeg _ _ | XMul _ _ | XDiv _ _
  | XCall _ => True
  | _ => False
  end ->
  wf_x x -> decode (enc x ++ rest) = Some (x, rest).
Proof.
  destruct x; cbn [enc wf_x]; try done; intros _ H; try destruct H as [H H'];
    rewrite <- !app_assoc; cbn [app]; try destruct o; cbn [alu_op alu_imm_op alu_imm_ext shift_code];
    rewrite decode_rexb by lia; dec_op; dec_fields; by rewrite ?(wrap_small 8 count).
Qed.

(** The register in the low bits of an opcode. *)
Lemma mod8_range r : 0 <= r mod 8 < 8.
Proof. apply Z.mod_pos_bound. lia. Qed.

Lemma eqb_off a b : a <> b -> (a =? b) = false.
Proof. lia. Qed.
Lemma range_in a b c : a <= b <= c -> (a <=? b) && (b <=? c) = true.
Proof. lia. Qed.
Lemma range_out a b c : b < a \/ c < b -> (a <=? b) && (b <=? c) = false.
Proof. lia. Qed.

Lemma decode_enc_reg x rest :
  match x with XPush _ | XPop _ | XMovabs _ _ | XBswap _ _ | XRol16 _ _ => True | _ => False end ->
  wf_x x -> decode (enc x ++ rest) = Some (x, rest).
Proof.
  destruct x; cbn [enc wf_x]; try done; intros _ H; rewrite <- ?app_assoc; cbn [app].
  - destruct H as [Hn Hd]. rewrite decode_rexb16 by lia. dec_op. dec_fields. by rewrite (wrap_small 8 count).
  - pose proof (mod8_range dst). rewrite decode_rexb by lia. unfold decode_op, decode_0f.
    cbn [Z.leb Z.eqb Z.compare Pos.eqb Pos.compare Pos.compare_cont andb orb].
    rewrite !(eqb_off (200 + dst mod 8)) by lia. rewrite range_in by lia. cbn [orb].
    by rewrite Z.add_simpl_l, low_bits_hi.
  - destruct H as [Hi Hd]. pose proof (mod8_range dst). rewrite decode_rexb by lia. unfold decode_op.
    rewrite !(eqb_off (184 + dst mod 8)) by lia. rewrite !range_out by lia. rewrite range_in by lia. dec_fields.
    by rewrite Z.add_simpl_l, low_bits_hi, wrap_small.
  - pose proof (mod8_range r). rewrite decode_rexb by lia. unfold decode_op.
    rewrite range_in by lia. by rewrite Z.add_simpl_l, low_bits_hi.
  - pose proof (mod8_range r). rewrite decode_rexb by lia. unfold decode_op.
    rewrite range_out, range_in by lia. by rewrite Z.add_simpl_l, low_bits_hi.
Qed.

Lemma decode_enc_flow x rest :
  match x with XRet | XJmp _ | XJcc _ _ => True | _ => False end ->
  wf_x x -> decode (enc x ++ rest) = Some (x, rest).
Proof.
  destruct x; cbn [enc wf_x]; try done; intros _ H; rewrite <- ?app_assoc; cbn [app].
  - unfold decode. cbn -[take_s le_bytes wrap]. dec_fields. done.
  - destruct c; unfold decode, decode_0f; cbn -[take_s le_bytes wrap]; dec_fields; done.
Qed.

Lemma decode_rex_forced r b op rest :
  decode (0x40 + 4 * Z.b2z r + Z.b2z b :: op :: rest) = decode_op false true false (Z.b2z r) (Z.b2z b) op rest.
Proof. by destruct r, b. Qed.

(** A memory operand behind an opcode: what [take_disp_bytes] leaves to decode. *)
Ltac dec_mem r m d rest Hr Hb Hd :=
  let md := fresh "md" in let tl := fresh "tl" in
  let N := fresh "N" in let E1 := fresh "E" in let E2 := fresh "E" in
  destruct (take_disp_bytes r m d rest Hr Hb Hd) as (md & tl & N & E1 & E2);
  unfold decode_op, decode_0f; cbn -[take_modrm take_s take_le take_disp le_bytes modrm disp_bytes hi wrap];
  try change (Z.b2z (hi 0)) with 0 in E1; rewrite E1;
  cbn -[take_modrm take_s take_le take_disp le_bytes modrm disp_bytes hi wrap];
  rewrite ?(eqb_off md 3 N); rewrite E2; dec_fields.

Lemma decode_enc_load s base disp dst rest :
  wf_x (XLoad s base disp dst) -> decode (enc (XLoad s base disp dst) ++ rest) = Some (XLoad s base disp dst, rest).
Proof.
  cbn [enc wf_x]. intros (Hb & Hd & Hr). rewrite <- !app_assoc.
  destruct s; cbn [app is64]; rewrite decode_rexb by lia; dec_mem dst base disp rest Hr Hb Hd; done.
Qed.

Lemma decode_enc_store s src base disp rest :
  wf_x (XStore s src base disp) -> decode (enc (XStore s src base disp) ++ rest) = Some (XStore s src base disp, rest).
Proof.
  cbn [enc wf_x]. intros (Hb & Hd & Hr). rewrite <- !app_assoc.
  destruct s; cbn [app is64 prefix16];
    rewrite ?decode_rex_forced, ?decode_rexb16, ?decode_rexb by lia; dec_mem src base disp rest Hr Hb Hd; done.
Qed.

Lemma decode_enc_store_imm s im base disp rest :
  wf_x (XStoreImm s im base disp) ->
  decode (enc (XStoreImm s im base disp) ++ rest) = Some (XStoreImm s im base disp, rest).
Proof.
  cbn [enc wf_x]. intros (Hb & Hd & Hi). rewrite <- !app_assoc. assert (is_reg 0) as H0 by (unfold is_reg; lia).
  destruct s; cbn [app is64 prefix16 imm_fits] in *;
    rewrite ?decode_rexb16, ?decode_rexb by lia;
    match goal with |- context [disp_bytes _ _ _ ++ ?tl] => dec_mem 0 base disp tl H0 Hb Hd end; done.
Qed.

(** the assembler and the decoder are inverse: whatever follows the bytes of an
    instruction with encodable operands, decoding gives the instruction and what follows. *)
Theorem decode_enc x rest : wf_x x -> decode (enc x ++ rest) = Some (x, rest).
Proof.
  intros H. destruct x;
    first [(refine (decode_enc_alu _ rest _ H); exact I) | (refine (decode_enc_reg _ rest _ H); exact I) | (refine (decode_enc_flow _ rest _ H); exact I)
          | exact (decode_enc_load _ _ _ _ rest H) | exact (decode_enc_store _ _ _ _ rest H)
          | exact (decode_enc_store_imm _ _ _ _ rest H)].
Qed.
