(* ===== verification/Jit.v ===== *)
(** * The x86-64 JIT compiler (lib/bpf/ubpf_jit_x86_64.c, lib/bpf/ubpf_jit_x86_64.h)

    The emitters append to the buffer of [struct jit_state]; [buf] holds the bytes
    up to [offset], the others are never used.  A failed [ovs_assert] is [Err JAbort]: the
    process ends.  Addresses of C objects that the compiler puts into the code are
    arguments. *)

From S2P Require Import Prelude Ebpf Memory Vm MapDef X86.

Inductive jerr : Set :=
| JAbort | JUnknown (pc opcode : Z) | JNotLoaded | JMmap | JMprotect.

Record jump : Set := mk_jump { offset_loc : Z; target_pc : Z }.

Record jit_state : Type := mk_jit {
  buf : bytes;
  size : Z;
  pc_locs : gmap Z Z;
  exit_loc : Z;
  div_by_zero_loc : Z;
  jumps : list jump
}.

Definition jit_offset (st : jit_state) : Z := Z.of_nat (length (buf st)).

(** [pc_locs] and [jumps] have [MAX_INSTS + 1] and [MAX_INSTS] elements. *)
Definition put_buf (b : bytes) (st : jit_state) : jit_state :=
  mk_jit b (size st) (pc_locs st) (exit_loc st) (div_by_zero_loc st) (jumps st).
Definition put_pc_loc (i : Z) (st : jit_state) : jit_state :=
  mk_jit (buf st) (size st) (<[i := jit_offset st]> (pc_locs st)) (exit_loc st) (div_by_zero_loc st) (jumps st).
Definition put_exit_loc (st : jit_state) : jit_state :=
  mk_jit (buf st) (size st) (pc_locs st) (jit_offset st) (div_by_zero_loc st) (jumps st).
Definition put_div_by_zero_loc (st : jit_state) : jit_state :=
  mk_jit (buf st) (size st) (pc_locs st) (exit_loc st) (jit_offset st) (jumps st).
Definition put_jump (j : jump) (st : jit_state) : jit_state :=
  mk_jit (buf st) (size st) (pc_locs st) (exit_loc st) (div_by_zero_loc st) (jumps st ++ [j]).

Definition emitter : Type := jit_state -> res jerr jit_state.
Definition skip : emitter := fun st => Ok st.
Definition seq_emit (e1 e2 : emitter) : emitter := fun st => let! st := e1 st in e2 st.
Declare Scope emit_scope.
Notation "e1 ;; e2" := (seq_emit e1 e2) (at level 100, e2 at level 200, right associativity, only parsing) : emit_scope.
#[local] Open Scope emit_scope.

(** ** Emitters *)

Definition emit_bytes (data : bytes) : emitter := fun st =>
  if jit_offset st <=? u32 (size st - Z.of_nat (length data))
  then Ok (put_buf (buf st ++ data) st) else Err JAbort.

Definition emit1 (x : Z) : emitter := emit_bytes (le_bytes 1 (u8 x)).
Definition emit2 (x : Z) : emitter := emit_bytes (le_bytes 2 (u16 x)).
Definition emit4 (x : Z) : emitter := emit_bytes (le_bytes 4 (u32 x)).
Definition emit8 (x : Z) : emitter := emit_bytes (le_bytes 8 (u64 x)).

Definition emit_jump_offset (target : Z) : emitter := fun st =>
  if MAX_INSTS <=? Z.of_nat (length (jumps st)) then Undef
  else emit4 0 (put_jump (mk_jump (jit_offset st) (u32 target)) st).

Definition emit_modrm (md r m : Z) : emitter :=
  if Z.land md (Z.lnot 0xc0) =? 0
  then emit1 (Z.lor (Z.lor (Z.land md 0xc0) (Z.shiftl (Z.land r 7) 3)) (Z.land m 7))
  else fun _ => Err JAbort.

Definition emit_modrm_reg2reg (r m : Z) : emitter := emit_modrm 0xc0 r m.

Definition emit_modrm_and_displacement (r m d : Z) : emitter :=
  if (d =? 0) && negb (Z.land m 7 =? RBP) then emit_modrm 0x00 r m
  else if (-128 <=? d) && (d <=? 127) then emit_modrm 0x40 r m;; emit1 d
  else emit_modrm 0x80 r m;; emit4 d.

Definition emit_rex (w r x b : Z) : emitter :=
  if (Z.land w (Z.lnot 1) =? 0) && (Z.land r (Z.lnot 1) =? 0) &&
     (Z.land x (Z.lnot 1) =? 0) && (Z.land b (Z.lnot 1) =? 0)
  then emit1 (Z.lor (Z.lor (Z.lor (Z.lor 0x40 (Z.shiftl w 3)) (Z.shiftl r 2)) (Z.shiftl x 1)) b)
  else fun _ => Err JAbort.

(** [!!(r & 8)]. *)
Definition high_bit (r : Z) : Z := if Z.land r 8 =? 0 then 0 else 1.

Definition emit_basic_rex (w src dst : Z) : emitter :=
  if negb (w =? 0) || negb (Z.land src 8 =? 0) || negb (Z.land dst 8 =? 0)
  then emit_rex w (high_bit src) 0 (high_bit dst) else skip.

Definition emit_push (r : Z) : emitter := emit_basic_rex 0 0 r;; emit1 (Z.lor 0x50 (Z.land r 7)).
Definition emit_pop (r : Z) : emitter := emit_basic_rex 0 0 r;; emit1 (Z.lor 0x58 (Z.land r 7)).

Definition emit_alu32 (op src dst : Z) : emitter :=
  emit_basic_rex 0 src dst;; emit1 op;; emit_modrm_reg2reg src dst.
Definition emit_alu32_imm32 (op src dst imm : Z) : emitter := emit_alu32 op src dst;; emit4 imm.
Definition emit_alu32_imm8 (op src dst imm : Z) : emitter := emit_alu32 op src dst;; emit1 imm.
Definition emit_alu64 (op src dst : Z) : emitter :=
  emit_basic_rex 1 src dst;; emit1 op;; emit_modrm_reg2reg src dst.
Definition emit_alu64_imm32 (op src dst imm : Z) : emitter := emit_alu64 op src dst;; emit4 imm.
Definition emit_alu64_imm8 (op src dst imm : Z) : emitter := emit_alu64 op src dst;; emit1 imm.

Definition emit_mov (src dst : Z) : emitter := emit_alu64 0x89 src dst.
Definition emit_cmp_imm32 (dst imm : Z) : emitter := emit_alu64_imm32 0x81 7 dst imm.
Definition emit_cmp (src dst : Z) : emitter := emit_alu64 0x39 src dst.
Definition emit_jcc (code target : Z) : emitter := emit1 0x0f;; emit1 code;; emit_jump_offset target.

Definition size_is (s t : operand_size) : Z := if decide (s = t) then 1 else 0.

Definition emit_load (s : operand_size) (src dst offset : Z) : emitter :=
  emit_basic_rex (size_is s S64) dst src;;
  match s with
  | S8 => emit1 0x0f;; emit1 0xb6
  | S16 => emit1 0x0f;; emit1 0xb7
  | S32 | S64 => emit1 0x8b
  end;;
  emit_modrm_and_displacement dst src offset.

(** [imm] is an [int64_t]. *)
Definition emit_load_imm (dst imm : Z) : emitter :=
  if (- 2 ^ 31 <=? imm) && (imm <=? 2 ^ 31 - 1) then emit_alu64_imm32 0xc7 0 dst imm
  else emit_basic_rex 1 0 dst;; emit1 (Z.lor 0xb8 (Z.land dst 7));; emit8 imm.

Definition emit_store (s : operand_size) (src dst offset : Z) : emitter :=
  (if decide (s = S16) then emit1 0x66 else skip);;
  (if negb (size_is s S64 =? 0) || negb (Z.land src 8 =? 0) || negb (Z.land dst 8 =? 0) ||
      bool_decide (s = S8)
   then emit_rex (size_is s S64) (high_bit src) 0 (high_bit dst) else skip);;
  emit1 (if decide (s = S8) then 0x88 else 0x89);;
  emit_modrm_and_displacement src dst offset.

Definition emit_store_imm32 (s : operand_size) (dst offset imm : Z) : emitter :=
  (if decide (s = S16) then emit1 0x66 else skip);;
  emit_basic_rex (size_is s S64) 0 dst;;
  emit1 (if decide (s = S8) then 0xc6 else 0xc7);;
  emit_modrm_and_displacement 0 dst offset;;
  match s with S32 | S64 => emit4 imm | S16 => emit2 imm | S8 => emit1 imm end.

Definition emit_call (target : Z) : emitter := emit_load_imm RAX (s64 target);; emit1 0xff;; emit1 0xd0.
Definition emit_jmp (target : Z) : emitter := emit1 0xe9;; emit_jump_offset target.

(** ** Translation *)

Definition EBPF_CLS_MASK : Z := 0x07.
Definition TARGET_PC_EXIT : Z := -1.
Definition TARGET_PC_DIV_BY_ZERO : Z := -2.
Definition REGISTER_MAP_SIZE : Z := 11.
Definition register_map : list Z := [RAX; RDI; RSI; RDX; R9; R8; RBX; R13; R14; R15; RBP].

(** [None] is the failed assertion. *)
Definition map_register (r : Z) : option Z :=
  if r <? REGISTER_MAP_SIZE then register_map !! Z.to_nat (r mod REGISTER_MAP_SIZE) else None.

Definition when (b : bool) (e : emitter) : emitter := if b then e else skip.

Definition muldivmod (pc opcode src dst imm : Z) : emitter :=
  let op := Z.land opcode EBPF_ALU_OP_MASK in
  let mul := op =? Z.land (opcode_of EBPF_OP_MUL_IMM) EBPF_ALU_OP_MASK in
  let div := op =? Z.land (opcode_of EBPF_OP_DIV_IMM) EBPF_ALU_OP_MASK in
  let mod' := op =? Z.land (opcode_of EBPF_OP_MOD_IMM) EBPF_ALU_OP_MASK in
  let is64 := Z.land opcode EBPF_CLS_MASK =? EBPF_CLS_ALU64 in
  when (div || mod')
    (emit_load_imm RCX (u16 pc);;
     (if is64 then emit_alu64 0x85 src src else emit_alu32 0x85 src src);;
     emit_jcc 0x84 TARGET_PC_DIV_BY_ZERO);;
  when (negb (dst =? RAX)) (emit_push RAX);;
  when (negb (dst =? RDX)) (emit_push RDX);;
  (if negb (imm =? 0) then emit_load_imm RCX imm else emit_mov src RCX);;
  emit_mov dst RAX;;
  when (div || mod') (emit_alu32 0x31 RDX RDX);;
  when is64 (emit_rex 1 0 0 0);;
  emit_alu32 0xf7 (if mul then 4 else 6) RCX;;
  when (negb (dst =? RDX)) (when mod' (emit_mov RDX dst);; emit_pop RDX);;
  when (negb (dst =? RAX)) (when (div || mul) (emit_mov RAX dst);; emit_pop RAX).

(** The cases for ALU instructions, jumps, and memory; [None] for the others. *)
Definition translate_alu (i : Z) (o : ebpf_op) (inst : ebpf_inst) (src dst : Z) : option emitter :=
  let im := imm inst in
  let muldiv := Some (muldivmod i (opcode inst) src dst im) in
  match o with
  | EBPF_OP_ADD_IMM => Some (emit_alu32_imm32 0x81 0 dst im)
  | EBPF_OP_ADD_REG => Some (emit_alu32 0x01 src dst)
  | EBPF_OP_SUB_IMM => Some (emit_alu32_imm32 0x81 5 dst im)
  | EBPF_OP_SUB_REG => Some (emit_alu32 0x29 src dst)
  | EBPF_OP_MUL_IMM | EBPF_OP_MUL_REG | EBPF_OP_DIV_IMM | EBPF_OP_DIV_REG
  | EBPF_OP_MOD_IMM | EBPF_OP_MOD_REG => muldiv
  | EBPF_OP_OR_IMM => Some (emit_alu32_imm32 0x81 1 dst im)
  | EBPF_OP_OR_REG => Some (emit_alu32 0x09 src dst)
  | EBPF_OP_AND_IMM => Some (emit_alu32_imm32 0x81 4 dst im)
  | EBPF_OP_AND_REG => Some (emit_alu32 0x21 src dst)
  | EBPF_OP_LSH_IMM => Some (emit_alu32_imm8 0xc1 4 dst im)
  | EBPF_OP_LSH_REG => Some (emit_mov src RCX;; emit_alu32 0xd3 4 dst)
  | EBPF_OP_RSH_IMM => Some (emit_alu32_imm8 0xc1 5 dst im)
  | EBPF_OP_RSH_REG => Some (emit_mov src RCX;; emit_alu32 0xd3 5 dst)
  | EBPF_OP_NEG => Some (emit_alu32 0xf7 3 dst)
  | EBPF_OP_XOR_IMM => Some (emit_alu32_imm32 0x81 6 dst im)
  | EBPF_OP_XOR_REG => Some (emit_alu32 0x31 src dst)
  | EBPF_OP_MOV_IMM => Some (emit_alu32_imm32 0xc7 0 dst im)
  | EBPF_OP_MOV_REG => Some (emit_mov src dst)
  | EBPF_OP_ARSH_IMM => Some (emit_alu32_imm8 0xc1 7 dst im)
  | EBPF_OP_ARSH_REG => Some (emit_mov src RCX;; emit_alu32 0xd3 7 dst)
  | EBPF_OP_LE => Some skip
  | EBPF_OP_BE =>
      Some (if im =? 16 then emit1 0x66;; emit_alu32_imm8 0xc1 0 dst 8;; emit_alu32_imm32 0x81 4 dst 0xffff
            else if (im =? 32) || (im =? 64) then
              emit_basic_rex (if im =? 64 then 1 else 0) 0 dst;; emit1 0x0f;; emit1 (Z.lor 0xc8 (Z.land dst 7))
            else skip)
  | EBPF_OP_ADD64_IMM => Some (emit_alu64_imm32 0x81 0 dst im)
  | EBPF_OP_ADD64_REG => Some (emit_alu64 0x01 src dst)
  | EBPF_OP_SUB64_IMM => Some (emit_alu64_imm32 0x81 5 dst im)
  | EBPF_OP_SUB64_REG => Some (emit_alu64 0x29 src dst)
  | EBPF_OP_MUL64_IMM | EBPF_OP_MUL64_REG | EBPF_OP_DIV64_IMM | EBPF_OP_DIV64_REG
  | EBPF_OP_MOD64_IMM | EBPF_OP_MOD64_REG => muldiv
  | EBPF_OP_OR64_IMM => Some (emit_alu64_imm32 0x81 1 dst im)
  | EBPF_OP_OR64_REG => Some (emit_alu64 0x09 src dst)
  | EBPF_OP_AND64_IMM => Some (emit_alu64_imm32 0x81 4 dst im)
  | EBPF_OP_AND64_REG => Some (emit_alu64 0x21 src dst)
  | EBPF_OP_LSH64_IMM => Some (emit_alu64_imm8 0xc1 4 dst im)
  | EBPF_OP_LSH64_REG => Some (emit_mov src RCX;; emit_alu64 0xd3 4 dst)
  | EBPF_OP_RSH64_IMM => Some (emit_alu64_imm8 0xc1 5 dst im)
  | EBPF_OP_RSH64_REG => Some (emit_mov src RCX;; emit_alu64 0xd3 5 dst)
  | EBPF_OP_NEG64 => Some (emit_alu64 0xf7 3 dst)
  | EBPF_OP_XOR64_IMM => Some (emit_alu64_imm32 0x81 6 dst im)
  | EBPF_OP_XOR64_REG => Some (emit_alu64 0x31 src dst)
  | EBPF_OP_MOV64_IMM => Some (emit_load_imm dst im)
  | EBPF_OP_MOV64_REG => Some (emit_mov src dst)
  | EBPF_OP_ARSH64_IMM => Some (emit_alu64_imm8 0xc1 7 dst im)
  | EBPF_OP_ARSH64_REG => Some (emit_mov src RCX;; emit_alu64 0xd3 7 dst)
  | _ => None
  end.

(** [last] is [vm->num_insts - 1]. *)
Definition translate_jmp (i last : Z) (o : ebpf_op) (inst : ebpf_inst) (src dst : Z) : option emitter :=
  let im := imm inst in
  let target := u32 (i + offset inst + 1) in
  match o with
  | EBPF_OP_JA => Some (emit_jmp target)
  | EBPF_OP_JEQ_IMM => Some (emit_cmp_imm32 dst im;; emit_jcc 0x84 target)
  | EBPF_OP_JEQ_REG => Some (emit_cmp src dst;; emit_jcc 0x84 target)
  | EBPF_OP_JGT_IMM => Some (emit_cmp_imm32 dst im;; emit_jcc 0x87 target)
  | EBPF_OP_JGT_REG => Some (emit_cmp src dst;; emit_jcc 0x87 target)
  | EBPF_OP_JGE_IMM => Some (emit_cmp_imm32 dst im;; emit_jcc 0x83 target)
  | EBPF_OP_JGE_REG => Some (emit_cmp src dst;; emit_jcc 0x83 target)
  | EBPF_OP_JSET_IMM => Some (emit_alu64_imm32 0xf7 0 dst im;; emit_jcc 0x85 target)
  | EBPF_OP_JSET_REG => Some (emit_alu64 0x85 src dst;; emit_jcc 0x85 target)
  | EBPF_OP_JNE_IMM => Some (emit_cmp_imm32 dst im;; emit_jcc 0x85 target)
  | EBPF_OP_JNE_REG => Some (emit_cmp src dst;; emit_jcc 0x85 target)
  | EBPF_OP_JSGT_IMM => Some (emit_cmp_imm32 dst im;; emit_jcc 0x8f target)
  | EBPF_OP_JSGT_REG => Some (emit_cmp src dst;; emit_jcc 0x8f target)
  | EBPF_OP_JSGE_IMM => Some (emit_cmp_imm32 dst im;; emit_jcc 0x8d target)
  | EBPF_OP_JSGE_REG => Some (emit_cmp src dst;; emit_jcc 0x8d target)
  | EBPF_OP_EXIT => Some (when (negb (i =? last)) (emit_jmp TARGET_PC_EXIT))
  | _ => None
  end.

(** [inst2] is the second slot of an LDDW. *)
Definition translate_mem (o : ebpf_op) (inst inst2 : ebpf_inst) (src dst : Z) : option emitter :=
  let im := imm inst in
  let off := offset inst in
  let ind s := Some (emit_mov R10 R11;; emit_alu64 0x01 src R11;; emit_load s R11 RAX im) in
  match o with
  | EBPF_OP_LDABSB => Some (emit_load S8 R10 RAX im)
  | EBPF_OP_LDABSH => Some (emit_load S16 R10 RAX im)
  | EBPF_OP_LDABSW => Some (emit_load S32 R10 RAX im)
  | EBPF_OP_LDABSDW => Some (emit_load S64 R10 RAX im)
  | EBPF_OP_LDINDB => ind S8
  | EBPF_OP_LDINDH => ind S16
  | EBPF_OP_LDINDW => ind S32
  | EBPF_OP_LDINDDW => ind S64
  | EBPF_OP_LDXW => Some (emit_load S32 src dst off)
  | EBPF_OP_LDXH => Some (emit_load S16 src dst off)
  | EBPF_OP_LDXB => Some (emit_load S8 src dst off)
  | EBPF_OP_LDXDW => Some (emit_load S64 src dst off)
  | EBPF_OP_STW => Some (emit_store_imm32 S32 dst off im)
  | EBPF_OP_STH => Some (emit_store_imm32 S16 dst off im)
  | EBPF_OP_STB => Some (emit_store_imm32 S8 dst off im)
  | EBPF_OP_STDW => Some (emit_store_imm32 S64 dst off im)
  | EBPF_OP_STXW => Some (emit_store S32 src dst off)
  | EBPF_OP_STXH => Some (emit_store S16 src dst off)
  | EBPF_OP_STXB => Some (emit_store S8 src dst off)
  | EBPF_OP_STXDW => Some (emit_store S64 src dst off)
  | EBPF_OP_LDDW => Some (emit_load_imm dst (s64 (Z.lor (u32 im) (u64 (Z.shiftl (imm inst2) 32)))))
  | _ => None
  end.

(** What the compiler takes from its process: the address of the function in a slot
    of [ext_funcs], and of [stderr], the format string and [fprintf]. *)
Record jit_addrs : Type := mk_addrs {
  func_at : Z -> Z;
  stderr_at : Z;
  fmt_at : Z;
  fprintf_at : Z
}.

(** [vm->ext_funcs[idx].func] as an address; [None] outside the table. *)
Definition ext_func_addr (vm : ubpf_vm) (ad : jit_addrs) (idx : Z) : option Z :=
  if idx <? 0 then None
  else
    p ← ext_funcs vm !! Z.to_nat idx;
    Some (match func p with Some _ => func_at ad idx | None => 0 end).

(** [case EBPF_OP_CALL]. *)
Definition translate_call (vm : ubpf_vm) (ad : jit_addrs) (idx : Z) : emitter :=
  match ext_func_addr vm ad idx with
  | Some f => emit_mov R9 RCX;; emit_call f
  | None => fun _ => Undef
  end.

(** [state->pc_locs[i] = state->offset]. *)
Definition set_pc_loc (i : Z) : emitter := fun st =>
  if i <=? MAX_INSTS then Ok (put_pc_loc i st) else Undef.

(** The [switch]. *)
Definition translate_inst (vm : ubpf_vm) (ad : jit_addrs) (i : Z) (o : ebpf_op) (inst inst2 : ebpf_inst)
    (src dst : Z) : option emitter :=
  match translate_alu i o inst src dst with
  | Some e => Some e
  | None =>
      match translate_jmp i (num_insts vm - 1) o inst src dst with
      | Some e => Some e
      | None =>
          match translate_mem o inst inst2 src dst with
          | Some e => Some e
          | None => match o with EBPF_OP_CALL => Some (translate_call vm ad (imm inst)) | _ => None end
          end
      end
  end.

(** The loop; each turn consumes an instruction, so [num_insts] turns are enough. *)
Fixpoint translate_insts (fuel : nat) (vm : ubpf_vm) (ad : jit_addrs) (prog : list ebpf_inst) (i : Z) : emitter :=
  match fuel with
  | O => skip
  | S fuel' =>
      if negb (i <? num_insts vm) then skip
      else
        match prog !! Z.to_nat i with
        | None => fun _ => Undef
        | Some inst =>
            set_pc_loc i;;
            match map_register (dst inst), map_register (src inst) with
            | Some d, Some s =>
                match op_of_opcode (opcode inst) with
                | None => fun _ => Err (JUnknown i (opcode inst))
                | Some o =>
                    let lddw := match o with EBPF_OP_LDDW => true | _ => false end in
                    match (if lddw then prog !! Z.to_nat (i + 1) else Some inst) with
                    | None => fun _ => Undef
                    | Some inst2 =>
                        match translate_inst vm ad i o inst inst2 s d with
                        | None => fun _ => Err (JUnknown i (opcode inst))
                        | Some e => e;; translate_insts fuel' vm ad prog (if lddw then i + 2 else i + 1)
                        end
                    end
                end
            | _, _ => fun _ => Err JAbort
            end
        end
  end.

(** What precedes the loop.  [map_register(1)] is RDI: no move is emitted. *)
Definition prologue : emitter :=
  emit_push RBP;; emit_push RBX;; emit_push R13;; emit_push R14;; emit_push R15;;
  emit_mov RDX R10;;
  match map_register 1, map_register 10 with
  | Some r1, Some r10 =>
      when (negb (r1 =? RDI)) (emit_mov RDI r1);;
      emit_mov RSP r10;;
      emit_alu64_imm32 0x81 5 RSP STACK_SIZE
  | _, _ => fun _ => Err JAbort
  end.

(** What follows it: the exit, then the handler of divisions by zero. *)
Definition epilogue (ad : jit_addrs) : emitter :=
  match map_register 0 with
  | Some r0 =>
      (fun st => Ok (put_exit_loc st));;
      when (negb (r0 =? RAX)) (emit_mov r0 RAX);;
      emit_alu64_imm32 0x81 0 RSP STACK_SIZE;;
      emit_pop R15;; emit_pop R14;; emit_pop R13;; emit_pop RBX;; emit_pop RBP;;
      emit1 0xc3;;
      (fun st => Ok (put_div_by_zero_loc st));;
      emit_load_imm RDI (s64 (stderr_at ad));;
      emit_load_imm RSI (s64 (fmt_at ad));;
      emit_mov RCX RDX;;
      emit_call (fprintf_at ad);;
      emit_load_imm r0 (-1);;
      emit_jmp TARGET_PC_EXIT
  | None => fun _ => Err JAbort
  end.

Definition translate (vm : ubpf_vm) (ad : jit_addrs) (prog : list ebpf_inst) : emitter :=
  prologue;; translate_insts (Z.to_nat (num_insts vm)) vm ad prog 0;; epilogue ad.

(** ** Jumps *)

(** The location a recorded target stands for; [None] outside [pc_locs]. *)
Definition target_loc (st : jit_state) (t : Z) : option Z :=
  if t =? u32 TARGET_PC_EXIT then Some (exit_loc st)
  else if t =? u32 TARGET_PC_DIV_BY_ZERO then Some (div_by_zero_loc st)
  else if t <=? MAX_INSTS then Some (default 0 (pc_locs st !! t))
  else None.

(** [memcpy] of the four bytes of [rel] into the buffer. *)
Definition patch (loc rel : Z) (b : bytes) : bytes :=
  take (Z.to_nat loc) b ++ le_bytes 4 (u32 rel) ++ drop (Z.to_nat loc + 4) b.

Definition resolve_jump (st : jit_state) (j : jump) : res jerr jit_state :=
  match target_loc st (target_pc j) with
  | Some l =>
      if offset_loc j + 4 <=? jit_offset st
      then Ok (put_buf (patch (offset_loc j) (l - (offset_loc j + 4)) (buf st)) st)
      else Undef
  | None => Undef
  end.

Fixpoint resolve_list (js : list jump) (st : jit_state) : res jerr jit_state :=
  match js with
  | [] => Ok st
  | j :: js' => let! st := resolve_jump st j in resolve_list js' st
  end.

Definition resolve_jumps (st : jit_state) : res jerr jit_state := resolve_list (jumps st) st.

(** ** Compilation *)

Definition jit_init : jit_state := mk_jit [] 65536 ∅ 0 0 [].

(** [jitted] is the field of [struct ubpf_vm]; [mmap_ok] and [mprotect_ok] tell whether
    the calls succeed.  Returns the field and the result. *)
Definition ubpf_compile (vm : ubpf_vm) (ad : jit_addrs) (jitted : option bytes) (mmap_ok mprotect_ok : bool) :
    option bytes * res jerr bytes :=
  match jitted with
  | Some code => (jitted, Ok code)
  | None =>
      match insts vm with
      | None => (None, Err JNotLoaded)
      | Some prog =>
          match (let! st := translate vm ad prog jit_init in resolve_jumps st) with
          | Ok st =>
              if negb mmap_ok then (None, Err JMmap)
              else if negb mprotect_ok then (None, Err JMprotect)
              else (Some (buf st), Ok (buf st))
          | Err e => (None, Err e)
          | Undef => (None, Undef)
          end
      end
  end.
