(* ===== verification/JitEmit.v ===== *)
(** * What the emitters append

    The output of the compiler as a list of items, bytes and jump offsets still to
    be resolved.  [emits e its]: run in any state of the compiler, [e] appends the
    items, or aborts the process exactly when the buffer has no room for them. *)

From S2P Require Import Prelude Ebpf Memory Vm MapDef X86 JitEnc Jit.

Inductive item : Set := IB (b : Z) | IJ (t : Z).

Definition item_raw (i : item) : bytes := match i with IB b => [b] | IJ _ => le_bytes 4 0 end.
Definition raw (l : list item) : bytes := l ≫= item_raw.
Definition ilen (l : list item) : Z := Z.of_nat (length (raw l)).

(** The jumps recorded for items that start at [off]. *)
Fixpoint jumps_of (off : Z) (l : list item) : list jump :=
  match l with
  | [] => []
  | IB _ :: l' => jumps_of (off + 1) l'
  | IJ t :: l' => mk_jump off t :: jumps_of (off + 4) l'
  end.

Definition app_items (l : list item) (st : jit_state) : jit_state :=
  mk_jit (buf st ++ raw l) (size st) (pc_locs st) (exit_loc st) (div_by_zero_loc st)
    (jumps st ++ jumps_of (jit_offset st) l).

(** Four bytes of the buffer stand behind each recorded jump. *)
Definition wf_jit (st : jit_state) : Prop :=
  size st = 65536 /\ 4 * Z.of_nat (length (jumps st)) <= jit_offset st <= 65536.

Definition emits (e : emitter) (l : list item) : Prop :=
  forall st, wf_jit st ->
  e st = if jit_offset st + ilen l <=? 65536 then Ok (app_items l st) else Err JAbort.

Lemma raw_app l l' : raw (l ++ l') = raw l ++ raw l'.
Proof. apply bind_app. Qed.
Lemma raw_bytes bs : raw (IB <$> bs) = bs.
Proof. induction bs as [|b bs IH]; [done|]. unfold raw in *. cbn. by rewrite IH. Qed.
Lemma ilen_app l l' : ilen (l ++ l') = ilen l + ilen l'.
Proof. unfold ilen. rewrite raw_app, length_app. lia. Qed.
Lemma ilen_bytes bs : ilen (IB <$> bs) = Z.of_nat (length bs).
Proof. unfold ilen. by rewrite raw_bytes. Qed.
Lemma ilen_nonneg l : 0 <= ilen l.
Proof. unfold ilen. lia. Qed.
Lemma ilen_cons_jump t l : ilen (IJ t :: l) = 4 + ilen l.
Proof. change (IJ t :: l) with ([IJ t] ++ l). by rewrite ilen_app. Qed.
Lemma ilen_cons_byte b l : ilen (IB b :: l) = 1 + ilen l.
Proof. change (IB b :: l) with ([IB b] ++ l). by rewrite ilen_app. Qed.

Lemma jumps_of_bytes off bs : jumps_of off (IB <$> bs) = [].
Proof. revert off. induction bs as [|b bs IH]; intros off; [done|]. apply IH. Qed.

Lemma jumps_of_app off l l' : jumps_of off (l ++ l') = jumps_of off l ++ jumps_of (off + ilen l) l'.
Proof.
  revert off. induction l as [|[b|t] l IH]; intros off; cbn [app jumps_of].
  - f_equal. unfold ilen. cbn. lia.
  - rewrite IH, ilen_cons_byte. do 2 f_equal. lia.
  - rewrite IH, ilen_cons_jump. cbn [app]. do 3 f_equal. lia.
Qed.

Lemma jumps_of_count off l : 4 * Z.of_nat (length (jumps_of off l)) <= ilen l.
Proof.
  revert off. induction l as [|[b|t] l IH]; intros off; cbn [jumps_of length].
  - unfold ilen. cbn. lia.
  - rewrite ilen_cons_byte. specialize (IH (off + 1)). lia.
  - rewrite ilen_cons_jump. specialize (IH (off + 4)). lia.
Qed.

Lemma offset_app_items l st : jit_offset (app_items l st) = jit_offset st + ilen l.
Proof. unfold jit_offset, ilen. cbn [app_items buf]. rewrite length_app. lia. Qed.

Lemma app_items_wf l st : wf_jit st -> jit_offset st + ilen l <= 65536 -> wf_jit (app_items l st).
Proof.
  intros [Hs Hj] Hl. split; [done|]. rewrite offset_app_items. cbn [app_items jumps].
  rewrite length_app. pose proof (jumps_of_count (jit_offset st) l). lia.
Qed.

Lemma app_items_app l l' st : app_items l' (app_items l st) = app_items (l ++ l') st.
Proof.
  unfold app_items at 1. rewrite offset_app_items. unfold app_items. cbn [buf size pc_locs exit_loc div_by_zero_loc jumps].
  by rewrite raw_app, jumps_of_app, !app_assoc.
Qed.

Lemma app_items_nil st : app_items [] st = st.
Proof. destruct st. unfold app_items. cbn. by rewrite !app_nil_r. Qed.

(** ** The algebra *)

Lemma emits_seq e1 e2 l1 l2 : emits e1 l1 -> emits e2 l2 -> emits (seq_emit e1 e2) (l1 ++ l2).
Proof.
  intros H1 H2 st Hst. unfold seq_emit. rewrite H1 by done. rewrite ilen_app.
  pose proof (ilen_nonneg l2). destruct (Z.leb_spec (jit_offset st + ilen l1) 65536).
  - cbn [res_bind]. rewrite H2, offset_app_items, app_items_app, Z.add_assoc by (by apply app_items_wf). done.
  - cbn [res_bind]. by destruct (Z.leb_spec (jit_offset st + (ilen l1 + ilen l2)) 65536); [lia|].
Qed.

Lemma emits_skip : emits skip [].
Proof.
  intros st [_ [_ Hst]]. unfold ilen. cbn. rewrite Z.add_0_r, app_items_nil.
  by destruct (Z.leb_spec (jit_offset st) 65536); [|lia].
Qed.

Lemma emits_when b e l : emits e l -> emits (when b e) (if b then l else []).
Proof. destruct b; [done|]. intros _. apply emits_skip. Qed.

Lemma emits_bytes data : Z.of_nat (length data) <= 65536 -> emits (emit_bytes data) (IB <$> data).
Proof.
  intros Hd st [Hs [_ Ho]]. unfold emit_bytes. rewrite Hs, ilen_bytes.
  rewrite wrap_small by (unfold in_u; lia).
  replace (jit_offset st <=? 65536 - Z.of_nat (length data)) with (jit_offset st + Z.of_nat (length data) <=? 65536) by lia.
  case_match; [|done]. unfold app_items, put_buf. by rewrite raw_bytes, jumps_of_bytes, app_nil_r.
Qed.

Lemma emits_le n v : (n <= 8)%nat -> emits (emit_bytes (le_bytes n v)) (IB <$> le_bytes n v).
Proof. intros. apply emits_bytes. rewrite length_le_bytes. lia. Qed.

Lemma emits_1 x : in_u 8 x -> emits (emit1 x) [IB x].
Proof.
  intros Hx. unfold emit1. rewrite wrap_small by done. change [IB x] with (IB <$> [x]).
  replace [x] with (le_bytes 1 x) by (cbn; by rewrite wrap_small). apply emits_le. lia.
Qed.

Lemma emits_jump_offset t : emits (emit_jump_offset t) [IJ (u32 t)].
Proof.
  intros st Hst. unfold emit_jump_offset. destruct Hst as [Hs Hj].
  destruct (Z.leb_spec MAX_INSTS (Z.of_nat (length (jumps st)))); [clia|].
  unfold emit4, emit_bytes, app_items, put_jump, put_buf, jit_offset in *.
  cbn [buf size pc_locs exit_loc div_by_zero_loc jumps jumps_of]. rewrite Hs, length_le_bytes.
  change (ilen [IJ (u32 t)]) with 4. change (u32 (65536 - Z.of_nat 4)) with 65532.
  replace (Z.of_nat (length (buf st)) <=? 65532) with (Z.of_nat (length (buf st)) + 4 <=? 65536) by lia.
  case_match; [|done]. done.
Qed.

(** ** The fields of an instruction *)

Lemma low3 r : Z.land r 7 = r mod 8.
Proof. change 7 with (Z.ones 3). by rewrite Z.land_ones. Qed.

Lemma high_bit_hi r : is_reg r -> high_bit r = Z.b2z (hi r).
Proof.
  intros H. unfold is_reg in H. unfold high_bit, hi.
  assert (r = 0 \/ r = 1 \/ r = 2 \/ r = 3 \/ r = 4 \/ r = 5 \/ r = 6 \/ r = 7 \/ r = 8 \/ r = 9 \/ r = 10 \/
          r = 11 \/ r = 12 \/ r = 13 \/ r = 14 \/ r = 15) as Hr by lia.
  by repeat destruct Hr as [->|Hr]; try rewrite Hr.
Qed.

Lemma bit3_hi r : is_reg r -> negb (Z.land r 8 =? 0) = hi r.
Proof. intros H. apply high_bit_hi in H. unfold high_bit in H. by destruct (_ =? 0), (hi r). Qed.

Lemma emits_rex w r b :
  emits (emit_rex (Z.b2z w) (Z.b2z r) 0 (Z.b2z b)) [IB (0x40 + 8 * Z.b2z w + 4 * Z.b2z r + Z.b2z b)].
Proof. destruct w, r, b; apply emits_1; by split; vm_compute. Qed.

Lemma emits_basic_rex w src dst :
  is_reg src -> is_reg dst -> emits (emit_basic_rex (Z.b2z w) src dst) (IB <$> rexb w (hi src) (hi dst)).
Proof.
  intros Hs Hd. unfold emit_basic_rex, rexb. rewrite !high_bit_hi, !bit3_hi by done.
  destruct w, (hi src), (hi dst); first [exact (emits_rex _ _ _) | exact emits_skip].
Qed.

Lemma modrm_byte md r m :
  0 <= md < 4 ->
  Z.lor (Z.lor (Z.land (64 * md) 0xc0) (Z.shiftl (Z.land r 7) 3)) (Z.land m 7) = modrm md r m.
Proof.
  intros Hmd. rewrite !low3. unfold modrm.
  pose proof (mod8_range r) as Hr. pose proof (mod8_range m) as Hm.
  generalize dependent (r mod 8). generalize dependent (m mod 8). intros a Ha b Hb.
  assert (md = 0 \/ md = 1 \/ md = 2 \/ md = 3) as Hc by lia.
  assert (a = 0 \/ a = 1 \/ a = 2 \/ a = 3 \/ a = 4 \/ a = 5 \/ a = 6 \/ a = 7) as H1 by lia.
  assert (b = 0 \/ b = 1 \/ b = 2 \/ b = 3 \/ b = 4 \/ b = 5 \/ b = 6 \/ b = 7) as H2 by lia.
  by repeat destruct Hc as [->|Hc]; try rewrite Hc; repeat destruct H1 as [->|H1]; try rewrite H1;
    repeat destruct H2 as [->|H2]; try rewrite H2.
Qed.

Lemma modrm_range md r m : 0 <= md < 4 -> in_u 8 (modrm md r m).
Proof. unfold in_u, modrm. pose proof (mod8_range r). pose proof (mod8_range m). lia. Qed.

Lemma emits_modrm md r m : 0 <= md < 4 -> emits (emit_modrm (64 * md) r m) [IB (modrm md r m)].
Proof.
  intros Hmd. unfold emit_modrm.
  replace (Z.land (64 * md) (Z.lnot 192) =? 0) with true.
  - rewrite modrm_byte by done. by apply emits_1, modrm_range.
  - assert (md = 0 \/ md = 1 \/ md = 2 \/ md = 3) as Hc by lia. by repeat destruct Hc as [->|Hc]; try rewrite Hc.
Qed.

(** ** Assembly listings *)

(** An instruction, or a jump to a program counter (or to one of the special targets). *)
Inductive ainst : Set := AI (x : xinst) | AJmp (t : Z) | AJcc (c : cond) (t : Z).

Definition enc_a (a : ainst) : list item :=
  match a with
  | AI x => IB <$> enc x
  | AJmp t => [IB 0xe9; IJ (u32 t)]
  | AJcc c t => [IB 0x0f; IB (cond_byte c); IJ (u32 t)]
  end.
Definition listing (l : list ainst) : list item := l ≫= enc_a.

Lemma listing_app l l' : listing (l ++ l') = listing l ++ listing l'.
Proof. apply bind_app. Qed.
Lemma listing_1 x : listing [AI x] = IB <$> enc x.
Proof. unfold listing. cbn. apply app_nil_r. Qed.

Lemma emits_eq e l l' : emits e l -> l = l' -> emits e l'.
Proof. by intros H <-. Qed.

Lemma emits_list e1 e2 l1 l2 :
  emits e1 (listing l1) -> emits e2 (listing l2) -> emits (seq_emit e1 e2) (listing (l1 ++ l2)).
Proof. intros. rewrite listing_app. by apply emits_seq. Qed.

Lemma emits_cons e1 e2 a l :
  emits e1 (listing [a]) -> emits e2 (listing l) -> emits (seq_emit e1 e2) (listing (a :: l)).
Proof. apply (emits_list e1 e2 [a] l). Qed.

Lemma emits_when_list b e l : emits e (listing l) -> emits (when b e) (listing (if b then l else [])).
Proof. destruct b; [done|]. intros _. apply emits_skip. Qed.

(** The shape of most instructions: prefix, opcode, two registers. *)
Definition emit_alu (w : bool) : Z -> Z -> Z -> emitter := if w then emit_alu64 else emit_alu32.
Definition emit_alu_imm32 (w : bool) : Z -> Z -> Z -> Z -> emitter := if w then emit_alu64_imm32 else emit_alu32_imm32.
Definition emit_alu_imm8 (w : bool) : Z -> Z -> Z -> Z -> emitter := if w then emit_alu64_imm8 else emit_alu32_imm8.

Lemma emits_alu w op s d :
  in_u 8 op -> is_reg s -> is_reg d ->
  emits (emit_alu w op s d) (IB <$> rexb w (hi s) (hi d) ++ [op; modrm 3 s d]).
Proof.
  intros Ho Hs Hd.
  replace (emit_alu w op s d) with
    (seq_emit (emit_basic_rex (Z.b2z w) s d) (seq_emit (emit1 op) (emit_modrm_reg2reg s d))) by (by destruct w).
  rewrite fmap_app. apply emits_seq; [by apply emits_basic_rex|].
  apply (emits_seq _ _ [_] [_]); [by apply emits_1|]. by apply (emits_modrm 3).
Qed.

Lemma emits_app_bytes e1 e2 b1 b2 :
  emits e1 (IB <$> b1) -> emits e2 (IB <$> b2) -> emits (seq_emit e1 e2) (IB <$> b1 ++ b2).
Proof. rewrite fmap_app. apply emits_seq. Qed.

Lemma is_reg_small e : 0 <= e < 8 -> is_reg e.
Proof. unfold is_reg. lia. Qed.
Lemma hi_small e : 0 <= e < 8 -> hi e = false.
Proof. unfold hi. lia. Qed.

Lemma emits_rr w o s d :
  is_reg s -> is_reg d -> emits (emit_alu w (alu_op o) s d) (listing [AI (XAluRR w o s d)]).
Proof. intros. rewrite listing_1. apply emits_alu; try done. destruct o; unfold in_u; cbn; lia. Qed.

(** An opcode extension in place of the first register. *)
Lemma emits_ext w op e d :
  in_u 8 op -> 0 <= e < 8 -> is_reg d ->
  emits (emit_alu w op e d) (IB <$> rexb w false (hi d) ++ [op; modrm 3 e d]).
Proof. intros ? He ?. rewrite <- (hi_small e He) at 1. apply emits_alu; auto using is_reg_small. Qed.

Lemma alu_imm_ext_range o : 0 <= alu_imm_ext o < 8.
Proof. destruct o; cbn; lia. Qed.
Lemma shift_code_range o : 0 <= shift_code o < 8.
Proof. destruct o; cbn; lia. Qed.

Lemma emits_ri w o im d :
  is_reg d -> emits (emit_alu_imm32 w (alu_imm_op o) (alu_imm_ext o) d im) (listing [AI (XAluRI w o im d)]).
Proof.
  intros Hd. rewrite listing_1. cbn [enc]. rewrite app_assoc.
  replace (emit_alu_imm32 w (alu_imm_op o) (alu_imm_ext o) d im) with
    (seq_emit (emit_alu w (alu_imm_op o) (alu_imm_ext o) d) (emit4 im)) by (by destruct w).
  apply emits_app_bytes; [|by apply emits_le; lia].
  apply emits_ext; [destruct o; unfold in_u; cbn; lia|apply alu_imm_ext_range|done].
Qed.

Lemma emits_shift w o n d :
  is_reg d -> emits (emit_alu_imm8 w 0xc1 (shift_code o) d n) (listing [AI (XShiftI w o (u8 n) d)]).
Proof.
  intros Hd. rewrite listing_1. cbn [enc]. rewrite app_assoc, wrap_idem.
  replace (emit_alu_imm8 w 0xc1 (shift_code o) d n) with
    (seq_emit (emit_alu w 0xc1 (shift_code o) d) (emit1 n)) by (by destruct w).
  apply emits_app_bytes; [|by apply emits_le; lia].
  apply emits_ext; [unfold in_u; lia|apply shift_code_range|done].
Qed.

Lemma emits_shift_cl w o d :
  is_reg d -> emits (emit_alu w 0xd3 (shift_code o) d) (listing [AI (XShiftCL w o d)]).
Proof. intros Hd. rewrite listing_1. apply emits_ext; [unfold in_u; lia|apply shift_code_range|done]. Qed.

Lemma emits_neg w d : is_reg d -> emits (emit_alu w 0xf7 3 d) (listing [AI (XNeg w d)]).
Proof. intros Hd. rewrite listing_1. apply emits_ext; [unfold in_u; lia|lia|done]. Qed.

(** mul %ecx and div %ecx, with the prefix emitted apart. *)
Lemma emits_mul_rcx w : emits (seq_emit (when w (emit_rex 1 0 0 0)) (emit_alu32 0xf7 4 RCX)) (listing [AI (XMul w RCX)]).
Proof.
  rewrite listing_1. cbn [enc]. apply emits_app_bytes.
  - destruct w; [apply (emits_rex true false false)|apply emits_skip].
  - apply (emits_ext false 0xf7 4 RCX); unfold in_u, is_reg, RCX; lia.
Qed.
Lemma emits_div_rcx w : emits (seq_emit (when w (emit_rex 1 0 0 0)) (emit_alu32 0xf7 6 RCX)) (listing [AI (XDiv w RCX)]).
Proof.
  rewrite listing_1. cbn [enc]. apply emits_app_bytes.
  - destruct w; [apply (emits_rex true false false)|apply emits_skip].
  - apply (emits_ext false 0xf7 6 RCX); unfold in_u, is_reg, RCX; lia.
Qed.

(** An opcode whose low bits are a register. *)
Lemma lor_low3 base r :
  base = 0x50 \/ base = 0x58 \/ base = 0xb8 \/ base = 0xc8 ->
  Z.lor base (Z.land r 7) = base + r mod 8 /\ in_u 8 (base + r mod 8).
Proof.
  intros Hb. rewrite low3. pose proof (mod8_range r) as Hr. generalize dependent (r mod 8). intros a Ha.
  assert (a = 0 \/ a = 1 \/ a = 2 \/ a = 3 \/ a = 4 \/ a = 5 \/ a = 6 \/ a = 7) as H1 by lia.
  split; [|unfold in_u; lia].
  by repeat destruct Hb as [->|Hb]; try rewrite Hb; repeat destruct H1 as [->|H1]; try rewrite H1.
Qed.

Lemma emits_opreg w base d :
  base = 0x50 \/ base = 0x58 \/ base = 0xb8 -> is_reg d ->
  emits (seq_emit (emit_basic_rex (Z.b2z w) 0 d) (emit1 (Z.lor base (Z.land d 7))))
    (IB <$> rexb w false (hi d) ++ [base + d mod 8]).
Proof.
  intros Hb Hd. destruct (lor_low3 base d) as [-> Hr]; [tauto|]. apply emits_app_bytes.
  - apply (emits_basic_rex w 0 d); [unfold is_reg; lia|done].
  - by apply emits_1.
Qed.

Lemma emits_push r : is_reg r -> emits (emit_push r) (listing [AI (XPush r)]).
Proof. intros. rewrite listing_1. apply (emits_opreg false); auto. Qed.
Lemma emits_pop r : is_reg r -> emits (emit_pop r) (listing [AI (XPop r)]).
Proof. intros. rewrite listing_1. apply (emits_opreg false); auto. Qed.

Lemma seq_emit_assoc e1 e2 e3 l : emits (seq_emit (seq_emit e1 e2) e3) l -> emits (seq_emit e1 (seq_emit e2 e3)) l.
Proof.
  intros H st Hst. rewrite <- H by done. unfold seq_emit. by destruct (e1 st).
Qed.

(** [emit_load_imm]: the short form for a sign-extended 32-bit immediate. *)
Definition mov_imm (im d : Z) : xinst :=
  if (- 2 ^ 31 <=? im) && (im <=? 2 ^ 31 - 1) then XAluRI true AMOV im d else XMovabs (u64 im) d.

Lemma emits_load_imm d im : is_reg d -> emits (emit_load_imm d im) (listing [AI (mov_imm im d)]).
Proof.
  intros Hd. unfold emit_load_imm, mov_imm. case_match; [by apply (emits_ri true AMOV)|].
  apply seq_emit_assoc. rewrite listing_1. cbn [enc]. rewrite app_assoc, wrap_idem. apply emits_app_bytes.
  - apply (emits_opreg true); auto.
  - apply emits_le. lia.
Qed.

Lemma emits_bswap w d :
  is_reg d ->
  emits (seq_emit (emit_basic_rex (Z.b2z w) 0 d) (seq_emit (emit1 0x0f) (emit1 (Z.lor 0xc8 (Z.land d 7)))))
    (listing [AI (XBswap w d)]).
Proof.
  intros Hd. rewrite listing_1. cbn [enc]. destruct (lor_low3 0xc8 d) as [-> Hr]; [tauto|]. apply emits_app_bytes.
  - apply (emits_basic_rex w 0 d); [unfold is_reg; lia|done].
  - apply (emits_app_bytes _ _ [_] [_]); apply emits_1; [unfold in_u; lia|done].
Qed.

Lemma emits_rol16 n d :
  is_reg d -> emits (seq_emit (emit1 0x66) (emit_alu32_imm8 0xc1 0 d n)) (listing [AI (XRol16 (u8 n) d)]).
Proof.
  intros Hd. rewrite listing_1. cbn [enc]. rewrite wrap_idem. apply emits_app_bytes.
  - apply emits_1. unfold in_u. lia.
  - rewrite app_assoc. apply emits_app_bytes; [|by apply emits_le; lia].
    apply (emits_ext false); [unfold in_u; lia|lia|done].
Qed.

(** ** Memory operands, jumps and calls *)

Lemma emits_disp r m d : emits (emit_modrm_and_displacement r m d) (IB <$> disp_bytes r m d).
Proof.
  unfold emit_modrm_and_displacement, disp_bytes. rewrite low3. change RBP with 5.
  case_match; [by apply (emits_modrm 0)|]. case_match.
  - apply (emits_app_bytes _ _ [_]); [by apply (emits_modrm 1)|apply emits_le; lia].
  - apply (emits_app_bytes _ _ [_]); [by apply (emits_modrm 2)|apply emits_le; lia].
Qed.

Lemma size_is_64 s : size_is s S64 = Z.b2z (is64 s).
Proof. by destruct s. Qed.

Lemma emits_load s base d disp :
  is_reg base -> is_reg d -> emits (emit_load s base d disp) (listing [AI (XLoad s base disp d)]).
Proof.
  intros Hb Hd. rewrite listing_1. unfold emit_load. cbn [enc]. rewrite size_is_64.
  apply emits_app_bytes; [by apply emits_basic_rex|]. apply emits_app_bytes; [|apply emits_disp].
  destruct s; try (apply (emits_app_bytes _ _ [_] [_])); apply emits_1; unfold in_u; lia.
Qed.

Lemma emits_store s src base disp :
  is_reg base -> is_reg src -> emits (emit_store s src base disp) (listing [AI (XStore s src base disp)]).
Proof.
  intros Hb Hs. rewrite listing_1. unfold emit_store. cbn [enc]. rewrite size_is_64, !high_bit_hi, !bit3_hi by done.
  apply emits_app_bytes; [destruct s; first [apply emits_skip | apply emits_1; unfold in_u; lia]|].
  apply emits_app_bytes.
  - destruct s; cbn [is64]; destruct (hi src), (hi base); first [exact (emits_rex _ _ _) | exact emits_skip].
  - apply emits_app_bytes; [destruct s; apply (emits_1 _); by split; vm_compute|apply emits_disp].
Qed.

Lemma emits_store_imm s base disp im :
  is_reg base -> emits (emit_store_imm32 s base disp im)
    (listing [AI (XStoreImm s im base disp)]).
Proof.
  intros Hb. rewrite listing_1. unfold emit_store_imm32. cbn [enc]. rewrite size_is_64.
  apply emits_app_bytes; [destruct s; first [apply emits_skip | apply emits_1; unfold in_u; lia]|].
  apply emits_app_bytes; [apply (emits_basic_rex (is64 s) 0); [unfold is_reg; lia|done]|].
  apply emits_app_bytes; [destruct s; apply (emits_1 _); by split; vm_compute|].
  apply emits_app_bytes; [apply emits_disp|]. destruct s; apply emits_le; lia.
Qed.

Lemma emits_jcc c t : emits (emit_jcc (cond_byte c) t) (listing [AJcc c t]).
Proof.
  apply (emits_seq _ _ [_] [_; _]); [apply emits_1; unfold in_u; lia|].
  apply (emits_seq _ _ [_] [_]); [destruct c; apply emits_1; unfold in_u; cbn; lia|].
  apply emits_jump_offset.
Qed.

Lemma emits_jmp t : emits (emit_jmp t) (listing [AJmp t]).
Proof. apply (emits_seq _ _ [_] [_]); [apply emits_1; unfold in_u; lia|apply emits_jump_offset]. Qed.

Lemma emits_call target : emits (emit_call target) (listing [AI (mov_imm (s64 target) RAX); AI (XCall RAX)]).
Proof.
  apply emits_cons; [apply emits_load_imm; unfold is_reg, RAX; lia|].
  apply (emits_seq _ _ [_] [_]); apply emits_1; by split; vm_compute.
Qed.

Lemma emits_ret : emits (emit1 0xc3) (listing [AI XRet]).
Proof. apply emits_1. unfold in_u. lia. Qed.

Lemma emits_mov s d : is_reg s -> is_reg d -> emits (emit_mov s d) (listing [AI (XAluRR true AMOV s d)]).
Proof. apply (emits_rr true AMOV). Qed.
