(* ===== verification/JitAsm.v ===== *)
(** * The assembly listing of a program

    For every eBPF instruction, the x86-64 instructions that [translate] emits for it,
    and the proof that the emitters produce their encoding. *)

From S2P Require Import Prelude Ebpf Memory Vm MapDef X86 JitEnc Jit JitEmit.

(** ** Listings *)

Definition opt_list {A} (b : bool) (l : list A) : list A := if b then l else [].

Definition mov (s d : Z) : ainst := AI (XAluRR true AMOV s d).

Definition asm_muldivmod (mul div mod' w : bool) (pc src dst im : Z) : list ainst :=
  opt_list (div || mod') [AI (mov_imm (u16 pc) RCX); AI (XAluRR w ATEST src src); AJcc CE TARGET_PC_DIV_BY_ZERO] ++
  opt_list (negb (dst =? RAX)) [AI (XPush RAX)] ++
  opt_list (negb (dst =? RDX)) [AI (XPush RDX)] ++
  [if negb (im =? 0) then AI (mov_imm im RCX) else mov src RCX] ++
  [mov dst RAX] ++
  opt_list (div || mod') [AI (XAluRR false AXOR RDX RDX)] ++
  [AI (if mul then XMul w RCX else XDiv w RCX)] ++
  opt_list (negb (dst =? RDX)) (opt_list mod' [mov RDX dst] ++ [AI (XPop RDX)]) ++
  opt_list (negb (dst =? RAX)) (opt_list (div || mul) [mov RAX dst] ++ [AI (XPop RAX)]).

Definition trunc_imm (s : operand_size) (im : Z) : Z :=
  match s with S8 => sext 8 im | S16 => sext 16 im | S32 | S64 => im end.

Definition asm_alu (i : Z) (o : ebpf_op) (inst : ebpf_inst) (src dst : Z) : option (list ainst) :=
  let im := imm inst in
  let rr w o := Some [AI (XAluRR w o src dst)] in
  let ri w o := Some [AI (XAluRI w o im dst)] in
  let si w o := Some [AI (XShiftI w o (u8 im) dst)] in
  let sr w o := Some [mov src RCX; AI (XShiftCL w o dst)] in
  match o with
  | EBPF_OP_ADD_IMM => ri false AADD
  | EBPF_OP_ADD_REG => rr false AADD
  | EBPF_OP_SUB_IMM => ri false ASUB
  | EBPF_OP_SUB_REG => rr false ASUB
  | EBPF_OP_MUL_IMM | EBPF_OP_MUL_REG => Some (asm_muldivmod true false false false i src dst im)
  | EBPF_OP_DIV_IMM | EBPF_OP_DIV_REG => Some (asm_muldivmod false true false false i src dst im)
  | EBPF_OP_MOD_IMM | EBPF_OP_MOD_REG => Some (asm_muldivmod false false true false i src dst im)
  | EBPF_OP_OR_IMM => ri false AOR
  | EBPF_OP_OR_REG => rr false AOR
  | EBPF_OP_AND_IMM => ri false AAND
  | EBPF_OP_AND_REG => rr false AAND
  | EBPF_OP_LSH_IMM => si false SHL
  | EBPF_OP_LSH_REG => sr false SHL
  | EBPF_OP_RSH_IMM => si false SHR
  | EBPF_OP_RSH_REG => sr false SHR
  | EBPF_OP_NEG => Some [AI (XNeg false dst)]
  | EBPF_OP_XOR_IMM => ri false AXOR
  | EBPF_OP_XOR_REG => rr false AXOR
  | EBPF_OP_MOV_IMM => ri false AMOV
  | EBPF_OP_MOV_REG => rr true AMOV
  | EBPF_OP_ARSH_IMM => si false SAR
  | EBPF_OP_ARSH_REG => sr false SAR
  | EBPF_OP_LE => Some []
  | EBPF_OP_BE =>
      Some (if im =? 16 then [AI (XRol16 8 dst); AI (XAluRI false AAND 0xffff dst)]
            else if im =? 32 then [AI (XBswap false dst)]
            else if im =? 64 then [AI (XBswap true dst)]
            else [])
  | EBPF_OP_ADD64_IMM => ri true AADD
  | EBPF_OP_ADD64_REG => rr true AADD
  | EBPF_OP_SUB64_IMM => ri true ASUB
  | EBPF_OP_SUB64_REG => rr true ASUB
  | EBPF_OP_MUL64_IMM | EBPF_OP_MUL64_REG => Some (asm_muldivmod true false false true i src dst im)
  | EBPF_OP_DIV64_IMM | EBPF_OP_DIV64_REG => Some (asm_muldivmod false true false true i src dst im)
  | EBPF_OP_MOD64_IMM | EBPF_OP_MOD64_REG => Some (asm_muldivmod false false true true i src dst im)
  | EBPF_OP_OR64_IMM => ri true AOR
  | EBPF_OP_OR64_REG => rr true AOR
  | EBPF_OP_AND64_IMM => ri true AAND
  | EBPF_OP_AND64_REG => rr true AAND
  | EBPF_OP_LSH64_IMM => si true SHL
  | EBPF_OP_LSH64_REG => sr true SHL
  | EBPF_OP_RSH64_IMM => si true SHR
  | EBPF_OP_RSH64_REG => sr true SHR
  | EBPF_OP_NEG64 => Some [AI (XNeg true dst)]
  | EBPF_OP_XOR64_IMM => ri true AXOR
  | EBPF_OP_XOR64_REG => rr true AXOR
  | EBPF_OP_MOV64_IMM => Some [AI (mov_imm im dst)]
  | EBPF_OP_MOV64_REG => rr true AMOV
  | EBPF_OP_ARSH64_IMM => si true SAR
  | EBPF_OP_ARSH64_REG => sr true SAR
  | _ => None
  end.

Definition asm_jmp (i last : Z) (o : ebpf_op) (inst : ebpf_inst) (src dst : Z) : option (list ainst) :=
  let t := u32 (i + offset inst + 1) in
  let ci c := Some [AI (XAluRI true ACMP (imm inst) dst); AJcc c t] in
  let cr c := Some [AI (XAluRR true ACMP src dst); AJcc c t] in
  match o with
  | EBPF_OP_JA => Some [AJmp t]
  | EBPF_OP_JEQ_IMM => ci CE
  | EBPF_OP_JEQ_REG => cr CE
  | EBPF_OP_JGT_IMM => ci CA
  | EBPF_OP_JGT_REG => cr CA
  | EBPF_OP_JGE_IMM => ci CAE
  | EBPF_OP_JGE_REG => cr CAE
  | EBPF_OP_JSET_IMM => Some [AI (XAluRI true ATEST (imm inst) dst); AJcc CNE t]
  | EBPF_OP_JSET_REG => Some [AI (XAluRR true ATEST src dst); AJcc CNE t]
  | EBPF_OP_JNE_IMM => ci CNE
  | EBPF_OP_JNE_REG => cr CNE
  | EBPF_OP_JSGT_IMM => ci CG
  | EBPF_OP_JSGT_REG => cr CG
  | EBPF_OP_JSGE_IMM => ci CGE
  | EBPF_OP_JSGE_REG => cr CGE
  | EBPF_OP_EXIT => Some (opt_list (negb (i =? last)) [AJmp TARGET_PC_EXIT])
  | _ => None
  end.

Definition asm_mem (o : ebpf_op) (inst inst2 : ebpf_inst) (src dst : Z) : option (list ainst) :=
  let im := imm inst in
  let ab s := Some [AI (XLoad s R10 im RAX)] in
  let ind s := Some [mov R10 R11; AI (XAluRR true AADD src R11); AI (XLoad s R11 im RAX)] in
  let ldx s := Some [AI (XLoad s src (offset inst) dst)] in
  let st s := Some [AI (XStoreImm s (trunc_imm s im) dst (offset inst))] in
  let stx s := Some [AI (XStore s src dst (offset inst))] in
  match o with
  | EBPF_OP_LDABSB => ab S8
  | EBPF_OP_LDABSH => ab S16
  | EBPF_OP_LDABSW => ab S32
  | EBPF_OP_LDABSDW => ab S64
  | EBPF_OP_LDINDB => ind S8
  | EBPF_OP_LDINDH => ind S16
  | EBPF_OP_LDINDW => ind S32
  | EBPF_OP_LDINDDW => ind S64
  | EBPF_OP_LDXW => ldx S32
  | EBPF_OP_LDXH => ldx S16
  | EBPF_OP_LDXB => ldx S8
  | EBPF_OP_LDXDW => ldx S64
  | EBPF_OP_STW => st S32
  | EBPF_OP_STH => st S16
  | EBPF_OP_STB => st S8
  | EBPF_OP_STDW => st S64
  | EBPF_OP_STXW => stx S32
  | EBPF_OP_STXH => stx S16
  | EBPF_OP_STXB => stx S8
  | EBPF_OP_STXDW => stx S64
  | EBPF_OP_LDDW => Some [AI (mov_imm (s64 (Z.lor (u32 im) (u64 (Z.shiftl (imm inst2) 32)))) dst)]
  | _ => None
  end.

Definition asm_call (vm : ubpf_vm) (ad : jit_addrs) (o : ebpf_op) (idx : Z) : option (list ainst) :=
  match o with
  | EBPF_OP_CALL =>
      f ← ext_func_addr vm ad idx; Some [mov R9 RCX; AI (mov_imm (s64 f) RAX); AI (XCall RAX)]
  | _ => None
  end.

Definition asm_inst (vm : ubpf_vm) (ad : jit_addrs) (i : Z) (o : ebpf_op) (inst inst2 : ebpf_inst)
    (src dst : Z) : option (list ainst) :=
  match asm_alu i o inst src dst with
  | Some l => Some l
  | None =>
      match asm_jmp i (num_insts vm - 1) o inst src dst with
      | Some l => Some l
      | None =>
          match asm_mem o inst inst2 src dst with
          | Some l => Some l
          | None => asm_call vm ad o (imm inst)
          end
      end
  end.

Definition asm_prologue : list ainst :=
  [AI (XPush RBP); AI (XPush RBX); AI (XPush R13); AI (XPush R14); AI (XPush R15);
   mov RDX R10; mov RSP RBP; AI (XAluRI true ASUB STACK_SIZE RSP)].

Definition asm_exit : list ainst :=
  [AI (XAluRI true AADD STACK_SIZE RSP);
   AI (XPop R15); AI (XPop R14); AI (XPop R13); AI (XPop RBX); AI (XPop RBP); AI XRet].

Definition asm_div_by_zero (ad : jit_addrs) : list ainst :=
  [AI (mov_imm (s64 (stderr_at ad)) RDI); AI (mov_imm (s64 (fmt_at ad)) RSI); mov RCX RDX;
   AI (mov_imm (s64 (fprintf_at ad)) RAX); AI (XCall RAX); AI (mov_imm (-1) RAX); AJmp TARGET_PC_EXIT].

(** ** The emitters produce the listings *)

Create HintDb emit.
#[export] Hint Resolve emits_list emits_cons emits_skip emits_jcc emits_jmp emits_call emits_ret emits_mov
  emits_load_imm emits_load emits_store emits_store_imm emits_push emits_pop emits_neg : emit.

Lemma emits_nil_r e l : emits (seq_emit e skip) l -> emits e l.
Proof. intros H st Hst. rewrite <- H by done. unfold seq_emit. by destruct (e st). Qed.

Lemma emits_opt b e l : emits e (listing l) -> emits (when b e) (listing (opt_list b l)).
Proof. apply emits_when_list. Qed.

Lemma muldivmod_emits pc op src dst im :
  is_reg src -> is_reg dst ->
  let opc := Z.land op EBPF_ALU_OP_MASK in
  emits (muldivmod pc op src dst im)
    (listing (asm_muldivmod (opc =? 0x20) (opc =? 0x30) (opc =? 0x90)
                (Z.land op EBPF_CLS_MASK =? EBPF_CLS_ALU64) pc src dst im)).
Proof.
  intros Hs Hd opc. unfold muldivmod, asm_muldivmod.
  change (Z.land (opcode_of EBPF_OP_MUL_IMM) EBPF_ALU_OP_MASK) with 0x20.
  change (Z.land (opcode_of EBPF_OP_DIV_IMM) EBPF_ALU_OP_MASK) with 0x30.
  change (Z.land (opcode_of EBPF_OP_MOD_IMM) EBPF_ALU_OP_MASK) with 0x90. fold opc. cbv zeta.
  generalize (opc =? 0x20) (opc =? 0x30) (opc =? 0x90) (Z.land op EBPF_CLS_MASK =? EBPF_CLS_ALU64).
  intros mul div mod' w. assert (forall r, 0 <= r < 16 -> is_reg r) as Hreg by done.
  apply emits_list.
  { apply emits_opt, emits_cons; [apply emits_load_imm, Hreg; clia|]. apply emits_cons; [|apply (emits_jcc CE)].
    destruct w; [by apply (emits_rr true ATEST)|by apply (emits_rr false ATEST)]. }
  apply emits_list; [apply emits_opt, emits_push, Hreg; clia|].
  apply emits_list; [apply emits_opt, emits_push, Hreg; clia|].
  apply emits_list; [case_match; [apply emits_load_imm, Hreg; clia|apply emits_mov; [done|apply Hreg; clia]]|].
  apply emits_list; [apply emits_mov; [done|apply Hreg; clia]|].
  apply emits_list; [apply emits_opt, (emits_rr false AXOR); apply Hreg; clia|].
  apply seq_emit_assoc, emits_list; [destruct mul; [apply emits_mul_rcx|apply emits_div_rcx]|].
  apply emits_list; apply emits_opt, emits_list;
    first [apply emits_opt, emits_mov; [apply Hreg; clia|done] | apply emits_pop, Hreg; clia].
Qed.

(** A translation and a listing agree. *)
Definition agrees (e : option emitter) (l : option (list ainst)) : Prop :=
  match e, l with
  | Some e, Some l => emits e (listing l)
  | None, None => True
  | _, _ => False
  end.

Lemma emits_shift_cl_reg w o src dst :
  is_reg src -> is_reg dst ->
  emits (seq_emit (emit_mov src RCX) (emit_alu w 0xd3 (shift_code o) dst))
    (listing [mov src RCX; AI (XShiftCL w o dst)]).
Proof.
  intros. apply emits_cons; [apply emits_mov; [done|unfold is_reg; clia]|]. by apply emits_shift_cl.
Qed.

Lemma emits_be im dst :
  is_reg dst ->
  emits
    (if im =? 16 then seq_emit (emit1 0x66) (seq_emit (emit_alu32_imm8 0xc1 0 dst 8) (emit_alu32_imm32 0x81 4 dst 0xffff))
     else if (im =? 32) || (im =? 64) then
       seq_emit (emit_basic_rex (if im =? 64 then 1 else 0) 0 dst)
         (seq_emit (emit1 0x0f) (emit1 (Z.lor 0xc8 (Z.land dst 7))))
     else skip)
    (listing (if im =? 16 then [AI (XRol16 8 dst); AI (XAluRI false AAND 0xffff dst)]
              else if im =? 32 then [AI (XBswap false dst)]
              else if im =? 64 then [AI (XBswap true dst)]
              else [])).
Proof.
  intros Hd. destruct (im =? 16).
  - apply seq_emit_assoc, emits_cons; [by apply (emits_rol16 8)|by apply (emits_ri false AAND)].
  - destruct (Z.eqb_spec im 32) as [->|]; [by apply (emits_bswap false)|]. cbn [orb].
    destruct (im =? 64); [by apply (emits_bswap true)|apply emits_skip].
Qed.

Lemma translate_alu_emits i o inst src dst :
  is_reg src -> is_reg dst -> opcode inst = opcode_of o ->
  agrees (translate_alu i o inst src dst) (asm_alu i o inst src dst).
Proof.
  intros Hs Hd Ho. pose proof (muldivmod_emits i (opcode inst) src dst (imm inst) Hs Hd) as Hm.
  rewrite Ho in Hm. unfold translate_alu. rewrite Ho.
  destruct o; cbn [asm_alu agrees]; try done;
    first
      [ exact Hm
      | by apply (emits_rr false AADD) | by apply (emits_rr false ASUB) | by apply (emits_rr false AOR)
      | by apply (emits_rr false AAND) | by apply (emits_rr false AXOR) | by apply emits_mov
      | by apply (emits_rr true AADD) | by apply (emits_rr true ASUB) | by apply (emits_rr true AOR)
      | by apply (emits_rr true AAND) | by apply (emits_rr true AXOR)
      | by apply (emits_ri false AADD) | by apply (emits_ri false ASUB) | by apply (emits_ri false AOR)
      | by apply (emits_ri false AAND) | by apply (emits_ri false AXOR) | by apply (emits_ri false AMOV)
      | by apply (emits_ri true AADD) | by apply (emits_ri true ASUB) | by apply (emits_ri true AOR)
      | by apply (emits_ri true AAND) | by apply (emits_ri true AXOR)
      | by apply (emits_shift false SHL) | by apply (emits_shift false SHR) | by apply (emits_shift false SAR)
      | by apply (emits_shift true SHL) | by apply (emits_shift true SHR) | by apply (emits_shift true SAR)
      | by apply (emits_shift_cl_reg false SHL) | by apply (emits_shift_cl_reg false SHR)
      | by apply (emits_shift_cl_reg false SAR) | by apply (emits_shift_cl_reg true SHL)
      | by apply (emits_shift_cl_reg true SHR) | by apply (emits_shift_cl_reg true SAR)
      | by apply (emits_neg false) | by apply (emits_neg true) | apply emits_skip | by apply emits_be | by apply emits_load_imm ].
Qed.

Lemma translate_jmp_emits i last o inst src dst :
  is_reg src -> is_reg dst -> agrees (translate_jmp i last o inst src dst) (asm_jmp i last o inst src dst).
Proof.
  intros Hs Hd. unfold translate_jmp.
  destruct o; cbn [asm_jmp agrees]; try done;
    first
      [ apply emits_jmp
      | apply emits_opt, emits_jmp
      | apply emits_cons;
        [ first [ by apply (emits_ri true ACMP) | by apply (emits_rr true ACMP)
                | by apply (emits_ri true ATEST) | by apply (emits_rr true ATEST) ]
        | first [ apply (emits_jcc CE) | apply (emits_jcc CNE) | apply (emits_jcc CA) | apply (emits_jcc CAE)
                | apply (emits_jcc CG) | apply (emits_jcc CGE) ] ] ].
Qed.

(** An immediate may be cut to the width of the store. *)
Lemma enc_trunc_imm s im base disp : enc (XStoreImm s (trunc_imm s im) base disp) = enc (XStoreImm s im base disp).
Proof. cbn [enc]. do 4 f_equal. destruct s; cbn [trunc_imm]; by rewrite ?wrap_sext by lia. Qed.

Lemma emits_store_trunc s base disp im :
  is_reg base -> emits (emit_store_imm32 s base disp im) (listing [AI (XStoreImm s (trunc_imm s im) base disp)]).
Proof. intros. rewrite listing_1, enc_trunc_imm, <- listing_1. by apply emits_store_imm. Qed.

Lemma translate_mem_emits o inst inst2 src dst :
  is_reg src -> is_reg dst -> agrees (translate_mem o inst inst2 src dst) (asm_mem o inst inst2 src dst).
Proof.
  intros Hs Hd. assert (forall r, 0 <= r < 16 -> is_reg r) as Hreg by done.
  assert (is_reg R10 /\ is_reg R11 /\ is_reg RAX) as (H10 & H11 & Hax) by (split_and!; apply Hreg; clia).
  unfold translate_mem. destruct o; cbn [asm_mem agrees]; try done;
    first [ by apply emits_load | by apply emits_store | by apply emits_store_trunc | by apply emits_load_imm
          | apply emits_cons; [by apply emits_mov|]; apply emits_cons; [by apply (emits_rr true AADD)|];
            by apply emits_load ].
Qed.

(** The [switch]: the listing exists exactly when an emitter does, unless a call names
    a slot outside [ext_funcs]. *)
Lemma translate_inst_emits vm ad i o inst inst2 src dst :
  is_reg src -> is_reg dst -> opcode inst = opcode_of o ->
  agrees (translate_inst vm ad i o inst inst2 src dst) (asm_inst vm ad i o inst inst2 src dst) \/
  (o = EBPF_OP_CALL /\ ext_func_addr vm ad (imm inst) = None).
Proof.
  intros Hs Hd Ho. unfold translate_inst, asm_inst.
  pose proof (translate_alu_emits i o inst src dst Hs Hd Ho) as H1.
  pose proof (translate_jmp_emits i (num_insts vm - 1) o inst src dst Hs Hd) as H2.
  pose proof (translate_mem_emits o inst inst2 src dst Hs Hd) as H3.
  destruct (translate_alu _ _ _ _ _), (asm_alu _ _ _ _ _); try done; [by left|].
  destruct (translate_jmp _ _ _ _ _ _), (asm_jmp _ _ _ _ _ _); try done; [by left|].
  destruct (translate_mem _ _ _ _ _), (asm_mem _ _ _ _ _); try done; [by left|].
  destruct o; try (by left). unfold asm_call, translate_call.
  destruct (ext_func_addr _ _ _) as [f|]; [|by right]. left. cbn [agrees mbind option_bind].
  apply emits_cons; [apply emits_mov; unfold is_reg; clia|]. apply emits_call.
Qed.
