(* ===== verification/JitCode.v ===== *)
(** * The compiled program

    For a program that [validate_instructions] accepts, what [ubpf_compile] returns: the
    encoding of one assembly listing, with every jump offset resolved; or the end of
    the process when the listing does not fit the buffer. *)

From S2P Require Import Prelude Ebpf Memory Vm Interp InterpProps ValidateInsts ValidateCfg.
From S2P Require Import ExecSafety MapDef.
From S2P Require Import X86 JitEnc Jit JitEmit JitAsm.

(** ** The listing *)

(** The register that holds an eBPF register. *)
Definition mr (r : Z) : Z := default 0 (map_register r).

(** The code of slot [i]; the second half of an LDDW has none. *)
Definition slot_asm (vm : ubpf_vm) (ad : jit_addrs) (prog : list ebpf_inst) (i : nat) : list ainst :=
  match prog !! i with
  | None => []
  | Some inst =>
      match op_of_opcode (opcode inst) with
      | None => []
      | Some o =>
          default []
            (asm_inst vm ad (Z.of_nat i) o inst (if op_is_lddw o then default inst (prog !! S i) else inst)
               (mr (src inst)) (mr (dst inst)))
      end
  end.

(** The code of the [n] slots from [i] on. *)
Definition slots (vm : ubpf_vm) (ad : jit_addrs) (prog : list ebpf_inst) (i n : nat) : list ainst :=
  mjoin (slot_asm vm ad prog <$> seq i n).

Definition program (vm : ubpf_vm) (ad : jit_addrs) (prog : list ebpf_inst) : list ainst :=
  asm_prologue ++ slots vm ad prog 0 (length prog) ++ asm_exit ++ asm_div_by_zero ad.

Definition alen (l : list ainst) : Z := ilen (listing l).

(** Where the code of a jump target starts. *)
Definition loc (vm : ubpf_vm) (ad : jit_addrs) (prog : list ebpf_inst) (t : Z) : Z :=
  if t =? u32 TARGET_PC_EXIT then alen (asm_prologue ++ slots vm ad prog 0 (length prog))
  else if t =? u32 TARGET_PC_DIV_BY_ZERO
  then alen (asm_prologue ++ slots vm ad prog 0 (length prog) ++ asm_exit)
  else alen (asm_prologue ++ slots vm ad prog 0 (Z.to_nat t)).

(** ** Resolved items *)

Fixpoint final_code (f : Z -> Z) (off : Z) (l : list item) : bytes :=
  match l with
  | [] => []
  | IB b :: l' => b :: final_code f (off + 1) l'
  | IJ t :: l' => le_bytes 4 (u32 (f t - (off + 4))) ++ final_code f (off + 4) l'
  end.

Lemma length_final f off l : length (final_code f off l) = length (raw l).
Proof.
  revert off. induction l as [|[b|t] l IH]; intros off; cbn [final_code]; [done| |].
  - cbn [length]. by rewrite IH.
  - rewrite length_app, length_le_bytes, IH. done.
Qed.

Lemma final_app f off l l' : final_code f off (l ++ l') = final_code f off l ++ final_code f (off + ilen l) l'.
Proof.
  revert off. induction l as [|[b|t] l IH]; intros off; cbn [final_code app].
  - f_equal. unfold ilen. cbn. lia.
  - rewrite IH, ilen_cons_byte. do 3 f_equal. lia.
  - rewrite IH, ilen_cons_jump, <- app_assoc. do 3 f_equal. lia.
Qed.

Lemma final_bytes f off bs : final_code f off (IB <$> bs) = bs.
Proof. revert off. induction bs as [|b bs IH]; intros off; cbn; [done|]. by rewrite IH. Qed.

Lemma final_ext f g off l : (forall t, IJ t ∈ l -> f t = g t) -> final_code f off l = final_code g off l.
Proof.
  revert off. induction l as [|[b|t] l IH]; intros off H; cbn [final_code]; [done| |].
  - f_equal. apply IH. intros t Ht. apply H. by apply list_elem_of_further.
  - rewrite H by apply list_elem_of_here. f_equal. apply IH. intros t' Ht. apply H. by apply list_elem_of_further.
Qed.

(** [resolve_jumps] turns the zeros behind the jumps into offsets, and nothing else. *)
Lemma resolve_list_final f A l tail st :
  buf st = A ++ raw l ++ tail ->
  (forall t, IJ t ∈ l -> target_loc st t = Some (f t)) ->
  resolve_list (jumps_of (Z.of_nat (length A)) l) st =
  Ok (put_buf (A ++ final_code f (Z.of_nat (length A)) l ++ tail) st).
Proof.
  revert A st. induction l as [|[b|t] l IH]; intros A st Hb Ht; cbn [jumps_of final_code resolve_list].
  - cbn in Hb. cbn [app]. rewrite <- Hb. by destruct st.
  - replace (Z.of_nat (length A) + 1) with (Z.of_nat (length (A ++ [b]))) by (rewrite length_app; cbn; lia).
    rewrite IH.
    + by rewrite <- app_assoc.
    + rewrite Hb. rewrite <- app_assoc. reflexivity.
    + intros t' Ht'. apply Ht. by apply list_elem_of_further.
  - unfold resolve_jump. cbn [target_pc offset_loc]. rewrite Ht by apply list_elem_of_here.
    assert (jit_offset st = Z.of_nat (length A) + 4 + ilen l + Z.of_nat (length tail)) as Ho.
    { unfold jit_offset, ilen. rewrite Hb, !length_app. change (raw (IJ t :: l)) with (le_bytes 4 0 ++ raw l).
      rewrite length_app, length_le_bytes. lia. }
    pose proof (ilen_nonneg l). destruct (Z.leb_spec (Z.of_nat (length A) + 4) (jit_offset st)); [|lia].
    cbn [res_bind]. set (p := le_bytes 4 (u32 (f t - (Z.of_nat (length A) + 4)))).
    assert (patch (Z.of_nat (length A)) (f t - (Z.of_nat (length A) + 4)) (buf st) = (A ++ p) ++ raw l ++ tail) as ->.
    { unfold patch. fold p. rewrite Hb, Nat2Z.id, take_app_length. rewrite <- !app_assoc. f_equal. f_equal.
      rewrite <- drop_drop, drop_app_length. reflexivity. }
    replace (Z.of_nat (length A) + 4) with (Z.of_nat (length (A ++ p)))
      by (rewrite length_app; unfold p; rewrite length_le_bytes; lia).
    rewrite IH; [by rewrite <- !app_assoc|done|].
    intros t' Ht'. unfold target_loc, put_buf. cbn. apply Ht. by apply list_elem_of_further.
Qed.

(** ** The translation *)

Lemma mr_reg r : 0 <= r <= 10 -> map_register r = Some (mr r) /\ is_reg (mr r).
Proof.
  intros H. assert (r = 0 \/ r = 1 \/ r = 2 \/ r = 3 \/ r = 4 \/ r = 5 \/ r = 6 \/ r = 7 \/ r = 8 \/ r = 9 \/ r = 10)
    as Hr by lia.
  by repeat destruct Hr as [->|Hr]; try rewrite Hr.
Qed.

(** The program counters the loop writes to [pc_locs]. *)
Definition is_start (prog : list ebpf_inst) (i : nat) : bool :=
  match prog !! i with Some inst => negb (opcode inst =? 0) | None => false end.

Section Compiled.
Context (vm : ubpf_vm) (ad : jit_addrs) (prog : list ebpf_inst).
Context (Hok : insts_ok vm prog) (Hn : num_insts vm = Z.of_nat (length prog)).
Context (Hlen : Z.of_nat (length prog) < MAX_INSTS) (Hwf : Forall wf_inst prog).

Abbreviation slots := (slots vm ad prog).
Abbreviation slot_asm := (slot_asm vm ad prog).

Lemma slots_S i n : slots i (S n) = slot_asm i ++ slots (S i) n.
Proof. done. Qed.

Lemma slots_app i n n' : slots i (n + n') = slots i n ++ slots (i + n) n'.
Proof. unfold JitCode.slots. by rewrite seq_app, fmap_app, join_app. Qed.

Lemma slot_asm_second i inst : prog !! i = Some inst -> opcode inst = 0 -> slot_asm i = [].
Proof. intros Hi H0. unfold JitCode.slot_asm. by rewrite Hi, H0. Qed.

Fixpoint locs (off : Z) (i n : nat) (m : gmap Z Z) : gmap Z Z :=
  match n with
  | O => m
  | S n' =>
      locs (off + alen (slot_asm i)) (S i) n'
        (if is_start prog i then <[Z.of_nat i := off]> m else m)
  end.

Definition located (i n : nat) (st : jit_state) : jit_state :=
  mk_jit (buf st ++ raw (listing (slots i n))) (size st) (locs (jit_offset st) i n (pc_locs st))
    (exit_loc st) (div_by_zero_loc st) (jumps st ++ jumps_of (jit_offset st) (listing (slots i n))).

Lemma alen_app l l' : alen (l ++ l') = alen l + alen l'.
Proof. unfold alen. by rewrite listing_app, ilen_app. Qed.
Lemma alen_nonneg l : 0 <= alen l.
Proof. apply ilen_nonneg. Qed.

Lemma located_S i n st :
  is_start prog i = true ->
  located i (S n) st = located (S i) n (app_items (listing (slot_asm i)) (put_pc_loc (Z.of_nat i) st)).
Proof.
  intros Hi. unfold located. rewrite slots_S, listing_app, raw_app, jumps_of_app. cbn [locs]. rewrite Hi.
  cbn [app_items put_pc_loc buf size pc_locs exit_loc div_by_zero_loc jumps].
  rewrite offset_app_items. unfold jit_offset at 8. by rewrite <- !app_assoc.
Qed.

Lemma located_skip i n st :
  is_start prog i = false -> slot_asm i = [] -> located i (S n) st = located (S i) n st.
Proof.
  intros Hi Hs. unfold located. rewrite slots_S, Hs. cbn [locs app]. rewrite Hi, Hs.
  change (alen []) with 0. by rewrite Z.add_0_r.
Qed.

Lemma located_0 i st : located i 0 st = st.
Proof. destruct st. unfold located. cbn. by rewrite !app_nil_r. Qed.

(** The instruction at a start, with the emitter of its code. *)
Lemma start_emits i inst :
  prog !! i = Some inst -> opcode inst <> 0 ->
  exists o e, op_of_opcode (opcode inst) = Some o /\
    map_register (dst inst) = Some (mr (dst inst)) /\ map_register (src inst) = Some (mr (src inst)) /\
    (op_is_lddw o = true -> exists inst2, prog !! S i = Some inst2 /\ opcode inst2 = 0) /\
    translate_inst vm ad (Z.of_nat i) o inst (if op_is_lddw o then default inst (prog !! S i) else inst)
      (mr (src inst)) (mr (dst inst)) = Some e /\
    emits e (listing (slot_asm i)).
Proof using Hok Hwf.
  intros Hi H0. pose proof (Hok i inst Hi) as Hc. destruct (Z.eqb_spec (opcode inst) 0); [done|].
  destruct Hc as (o & Ho & Hop & Hr). pose proof (proj1 (op_of_opcode_Some _ _) Ho) as Ho'.
  assert (wf_inst inst) as (Hw & Hd & Hs & _) by (by eapply Forall_lookup_1 in Hwf).
  unfold regs_ok in Hr. unfold in_u in Hd, Hs.
  destruct (mr_reg (dst inst)) as [Ed Rd]; [lia|]. destruct (mr_reg (src inst)) as [Es Rs]; [lia|].
  set (inst2 := if op_is_lddw o then default inst (prog !! S i) else inst).
  assert (is_Some (translate_inst vm ad (Z.of_nat i) o inst inst2 (mr (src inst)) (mr (dst inst)))) as [e He]
    by (destruct o; eexists; reflexivity).
  exists o, e. split_and!; try done.
  - destruct o; try done. intros _. destruct (ok_lddw _ _ _ _ _ Hop eq_refl) as (nx & Hx & Hz).
    exists nx. split; [|done]. by replace (S i) with (Z.to_nat (Z.of_nat i + 1)) by lia.
  - unfold JitCode.slot_asm. rewrite Hi, Ho. fold inst2.
    destruct (translate_inst_emits vm ad (Z.of_nat i) o inst inst2 _ _ Rs Rd (eq_sym Ho')) as [H|[-> Hf]].
    + rewrite He in H. by destruct (asm_inst _ _ _ _ _ _ _ _).
    + destruct (ok_call _ _ _ _ _ Hop eq_refl) as (Hrg & p & f & Hp & Hfn). unfold ext_func_addr in Hf.
      destruct (Z.ltb_spec (imm inst) 0); [lia|]. by rewrite Hp in Hf.
Qed.

Lemma put_pc_loc_wf i st : wf_jit st -> wf_jit (put_pc_loc i st).
Proof. done. Qed.

(** The slot behind an instruction (or behind both halves of an LDDW) is a start. *)
Lemma next_start i inst o :
  prog !! i = Some inst -> op_of_opcode (opcode inst) = Some o ->
  (op_is_lddw o = true -> exists inst2, prog !! S i = Some inst2 /\ opcode inst2 = 0) ->
  let j := if op_is_lddw o then S (S i) else S i in
  (j <= length prog)%nat /\ (j = length prog \/ starts prog j).
Proof using Hok.
  intros Hi Ho Hl j. pose proof (lookup_lt_Some _ _ _ Hi) as Hlt.
  destruct (op_is_lddw o) eqn:El; subst j.
  - destruct (Hl eq_refl) as (nx & Hx & H0). pose proof (lookup_lt_Some _ _ _ Hx) as Hlt'. split; [lia|].
    destruct (decide (S (S i) = length prog)) as [|Hne]; [by left|]. right.
    apply (starts_next vm prog Hok (S i) nx); [done| |lia]. unfold is_lddw. by rewrite H0.
  - split; [lia|]. destruct (decide (S i = length prog)) as [|Hne]; [by left|]. right.
    apply (starts_next vm prog Hok i inst); [done| |lia]. by rewrite <- (is_lddw_op _ _ Ho).
Qed.

Lemma translate_insts_spec fuel i st :
  (i <= length prog)%nat -> (i = length prog \/ starts prog i) -> (length prog - i <= fuel)%nat -> wf_jit st ->
  translate_insts fuel vm ad prog (Z.of_nat i) st =
  if jit_offset st + alen (slots i (length prog - i)) <=? 65536
  then Ok (located i (length prog - i) st) else Err JAbort.
Proof using Hok Hn Hlen Hwf.
  revert i st. induction fuel as [|fuel IH]; intros i st Hi Hst Hf Hw.
  all: destruct (decide (i = length prog)) as [->|Hne].
  1, 3: rewrite Nat.sub_diag, located_0; cbn [translate_insts]; rewrite ?Hn, ?Z.ltb_irrefl; cbn [negb];
    change (alen (slots (length prog) 0)) with 0; unfold skip; destruct Hw as [_ [_ Hw]];
    by destruct (Z.leb_spec (jit_offset st + 0) 65536); [|lia].
  { lia. }
  destruct Hst as [|(inst & Hx & H0)]; [done|]. cbn [translate_insts]. rewrite Hn.
  destruct (Z.ltb_spec (Z.of_nat i) (Z.of_nat (length prog))); [|lia]. cbn [negb]. rewrite Nat2Z.id, Hx.
  destruct (start_emits i inst Hx H0) as (o & e & Ho & Ed & Es & Hl & He & Hem).
  destruct (next_start i inst o Hx Ho Hl) as [Hj Hjs].
  assert (is_start prog i = true) as His by (unfold is_start; rewrite Hx; lia).
  unfold seq_emit at 1, set_pc_loc. destruct (Z.leb_spec (Z.of_nat i) MAX_INSTS); [|lia]. cbn [res_bind].
  rewrite Ed, Es, Ho. cbv zeta. change (match o with EBPF_OP_LDDW => true | _ => false end) with (op_is_lddw o).
  assert ((if op_is_lddw o then prog !! Z.to_nat (Z.of_nat i + 1) else Some inst) =
          Some (if op_is_lddw o then default inst (prog !! S i) else inst)) as ->.
  { destruct (op_is_lddw o); [|done]. destruct (Hl eq_refl) as (nx & Hnx & _).
    replace (Z.to_nat (Z.of_nat i + 1)) with (S i) by lia. by rewrite Hnx. }
  rewrite He. unfold seq_emit. rewrite (Hem (put_pc_loc (Z.of_nat i) st)) by done.
  replace (if op_is_lddw o then Z.of_nat i + 2 else Z.of_nat i + 1)
    with (Z.of_nat (if op_is_lddw o then S (S i) else S i)) by (destruct (op_is_lddw o); lia).
  set (j := if op_is_lddw o then S (S i) else S i) in *.
  assert (located i (length prog - i) st =
          located j (length prog - j) (app_items (listing (slot_asm i)) (put_pc_loc (Z.of_nat i) st)) /\
          alen (slots i (length prog - i)) = alen (slot_asm i) + alen (slots j (length prog - j))) as [-> ->].
  { replace (length prog - i)%nat with (S (length prog - S i)) by lia. rewrite located_S, slots_S, alen_app by done.
    subst j. destruct (op_is_lddw o); [|done]. destruct (Hl eq_refl) as (nx & Hnx & Hz).
    pose proof (slot_asm_second _ _ Hnx Hz) as Hnil.
    replace (length prog - S i)%nat with (S (length prog - S (S i))) by lia.
    rewrite located_skip, slots_S, Hnil by (try done; unfold is_start; by rewrite Hnx, Hz). done. }
  change (jit_offset (put_pc_loc (Z.of_nat i) st)) with (jit_offset st). change (ilen (listing ?l)) with (alen l).
  pose proof (alen_nonneg (slots j (length prog - j))).
  destruct (Z.leb_spec (jit_offset st + alen (slot_asm i)) 65536).
  - cbn [res_bind]. rewrite IH; [|done..|subst j; destruct (op_is_lddw o); lia|by apply app_items_wf].
    rewrite offset_app_items. change (ilen (listing ?l)) with (alen l). by rewrite Z.add_assoc.
  - cbn [res_bind].
    destruct (Z.leb_spec (jit_offset st + (alen (slot_asm i) + alen (slots j (length prog - j)))) 65536); [lia|done].
Qed.

Lemma locs_other off i n m v : (v < i)%nat -> locs off i n m !! Z.of_nat v = m !! Z.of_nat v.
Proof.
  revert off i m. induction n as [|n IH]; intros off i m Hv; cbn [locs]; [done|].
  rewrite IH by lia. case_match; [|done]. by rewrite lookup_insert_ne by lia.
Qed.

Lemma locs_lookup off i n m v :
  (i <= v < i + n)%nat -> is_start prog v = true ->
  locs off i n m !! Z.of_nat v = Some (off + alen (slots i (v - i))).
Proof.
  revert off i m. induction n as [|n IH]; intros off i m Hv Hs; [lia|]. cbn [locs].
  destruct (decide (v = i)) as [->|Hne].
  - rewrite locs_other by lia. rewrite Hs, lookup_insert_eq, Nat.sub_diag. f_equal. unfold alen, ilen. cbn. lia.
  - rewrite IH by (done || lia). replace (v - i)%nat with (S (v - S i)) by lia.
    rewrite slots_S, alen_app. f_equal. lia.
Qed.

Lemma prologue_emits : emits prologue (listing asm_prologue).
Proof.
  assert (forall r, 0 <= r < 16 -> is_reg r) as Hreg by done.
  unfold prologue. repeat (apply emits_cons; [apply emits_push, Hreg; clia|]).
  apply emits_cons; [apply emits_mov; apply Hreg; clia|].
  change (map_register 1) with (Some RDI). change (map_register 10) with (Some RBP).
  apply (emits_list skip _ []); [apply emits_skip|].
  apply emits_cons; [apply emits_mov; apply Hreg; clia|]. apply (emits_ri true ASUB), Hreg. clia.
Qed.

Definition exit_emitter : emitter :=
  seq_emit (emit_alu64_imm32 0x81 0 RSP STACK_SIZE)
    (seq_emit (emit_pop R15) (seq_emit (emit_pop R14) (seq_emit (emit_pop R13) (seq_emit (emit_pop RBX)
       (seq_emit (emit_pop RBP) (emit1 0xc3)))))).
Definition div_emitter : emitter :=
  seq_emit (emit_load_imm RDI (s64 (stderr_at ad))) (seq_emit (emit_load_imm RSI (s64 (fmt_at ad)))
    (seq_emit (emit_mov RCX RDX) (seq_emit (emit_call (fprintf_at ad)) (seq_emit (emit_load_imm RAX (-1))
       (emit_jmp TARGET_PC_EXIT))))).

Lemma exit_emits : emits exit_emitter (listing asm_exit).
Proof.
  assert (forall r, 0 <= r < 16 -> is_reg r) as Hreg by done.
  apply emits_cons; [apply (emits_ri true AADD), Hreg; clia|].
  repeat (apply emits_cons; [apply emits_pop, Hreg; clia|]). apply emits_ret.
Qed.

Lemma div_emits : emits div_emitter (listing (asm_div_by_zero ad)).
Proof.
  assert (forall r, 0 <= r < 16 -> is_reg r) as Hreg by done.
  apply emits_cons; [apply emits_load_imm, Hreg; clia|]. apply emits_cons; [apply emits_load_imm, Hreg; clia|].
  apply emits_cons; [apply emits_mov; apply Hreg; clia|].
  apply (emits_list _ _ [_; _] [_; _]); [apply emits_call|].
  apply emits_cons; [apply emits_load_imm, Hreg; clia|]. apply emits_jmp.
Qed.

(** The end of the translation. *)
Definition finished (st : jit_state) : jit_state :=
  let st := put_exit_loc st in
  let st := put_div_by_zero_loc (app_items (listing asm_exit) st) in
  app_items (listing (asm_div_by_zero ad)) st.

Lemma epilogue_spec st :
  wf_jit st ->
  epilogue ad st =
  if jit_offset st + alen (asm_exit ++ asm_div_by_zero ad) <=? 65536 then Ok (finished st) else Err JAbort.
Proof.
  intros Hw.
  assert (epilogue ad st =
          let! st := exit_emitter (put_exit_loc st) in div_emitter (put_div_by_zero_loc st)) as ->.
  { unfold epilogue, exit_emitter. change (map_register 0) with (Some RAX).
    unfold seq_emit. cbn [res_bind]. change (when (negb (RAX =? RAX)) (emit_mov RAX RAX)) with skip.
    unfold skip. cbn [res_bind].
    repeat match goal with
      |- res_bind (?e ?s) _ = _ => destruct (e s); cbn [res_bind]; [|reflexivity|reflexivity]
    end. reflexivity. }
  rewrite exit_emits by done. rewrite alen_app. pose proof (alen_nonneg (asm_div_by_zero ad)).
  change (jit_offset (put_exit_loc st)) with (jit_offset st). change (ilen (listing asm_exit)) with (alen asm_exit).
  destruct (Z.leb_spec (jit_offset st + alen asm_exit) 65536); cbn [res_bind].
  - assert (wf_jit (put_div_by_zero_loc (app_items (listing asm_exit) (put_exit_loc st)))) as Hw'
      by (by apply (app_items_wf (listing asm_exit) (put_exit_loc st))).
    rewrite div_emits by done.
    change (jit_offset (put_div_by_zero_loc ?s)) with (jit_offset s). rewrite offset_app_items.
    change (jit_offset (put_exit_loc st)) with (jit_offset st). change (ilen (listing ?l)) with (alen l).
    by rewrite Z.add_assoc.
  - by destruct (Z.leb_spec (jit_offset st + (alen asm_exit + alen (asm_div_by_zero ad))) 65536); [lia|].
Qed.

(** ** Jump targets *)

Definition good_target (t : Z) : Prop :=
  t = u32 TARGET_PC_EXIT \/ t = u32 TARGET_PC_DIV_BY_ZERO \/ exists v, t = Z.of_nat v /\ starts prog v.
Definition good_a (a : ainst) : Prop :=
  match a with AI _ => True | AJmp t | AJcc _ t => good_target (u32 t) end.

Lemma good_items l t : Forall good_a l -> IJ t ∈ listing l -> good_target t.
Proof.
  intros Hl Ht. apply list_elem_of_bind in Ht as (a & Ha & Hin). rewrite Forall_forall in Hl. specialize (Hl a Hin).
  destruct a as [x|t'|c t']; cbn [enc_a good_a] in *.
  - apply list_elem_of_fmap in Ha as (b & ? & _). done.
  - rewrite !elem_of_cons in Ha. destruct Ha as [|[[= ->]|Ha]]; [done|done|by apply not_elem_of_nil in Ha].
  - rewrite !elem_of_cons in Ha. destruct Ha as [|[|[[= ->]|Ha]]]; [done|done|done|by apply not_elem_of_nil in Ha].
Qed.

Lemma good_muldivmod mul div mod' w pc src dst im : Forall good_a (asm_muldivmod mul div mod' w pc src dst im).
Proof.
  unfold asm_muldivmod. destruct mul, div, mod', (negb (dst =? RAX)), (negb (dst =? RDX)), (negb (im =? 0));
    cbn [orb opt_list app]; repeat (apply Forall_cons; split; [first [exact I | right; by left]|]); apply Forall_nil, I.
Qed.

Lemma jump_good i inst o :
  prog !! i = Some inst -> op_of_opcode (opcode inst) = Some o -> is_Some (jump_taken o 0 0 0) ->
  good_target (u32 (u32 (Z.of_nat i + offset inst + 1))).
Proof using Hok Hlen.
  intros Hi Ho Hj. pose proof (Hok i inst Hi) as Hc. destruct (Z.eqb_spec (opcode inst) 0) as [E|E].
  { by rewrite E in Ho. }
  destruct Hc as (o' & Ho' & Hop & _). rewrite Ho in Ho'. injection Ho' as <-.
  destruct (ok_jump _ _ _ _ _ Hop Hj) as (H0 & t & Ht & Hne). pose proof (lookup_lt_Some _ _ _ Ht).
  right. right. exists (Z.to_nat (Z.of_nat i + 1 + offset inst)). split; [|by exists t].
  rewrite wrap_idem, wrap_small by (unfold in_u; clia). lia.
Qed.

Lemma good_slot i : Forall good_a (slot_asm i).
Proof using Hok Hlen.
  unfold JitCode.slot_asm. destruct (prog !! i) as [inst|] eqn:Hi; [|constructor].
  destruct (op_of_opcode (opcode inst)) as [o|] eqn:Ho; [|constructor].
  pose proof (jump_good i inst o Hi Ho) as Hj.
  destruct o; cbn [asm_inst asm_alu asm_jmp asm_mem asm_call default op_is_lddw];
    try apply good_muldivmod; try (specialize (Hj ltac:(eexists; reflexivity)));
    try (repeat (constructor; [exact I || exact Hj|]); constructor); unfold asm_inst;
    cbn [asm_alu asm_jmp asm_mem asm_call default].
  all: first [ destruct (ext_func_addr _ _ _); cbn; by repeat constructor
             | destruct (negb _); repeat constructor; by left
             | repeat case_match; by repeat constructor ].
Qed.

Abbreviation program := (program vm ad prog).
Abbreviation loc := (loc vm ad prog).

Lemma good_program : Forall good_a program.
Proof using Hok Hlen.
  unfold JitCode.program, JitCode.slots. rewrite !Forall_app. split_and!.
  - by repeat constructor.
  - apply Forall_join, Forall_fmap, Forall_forall. intros i _. apply good_slot.
  - by repeat constructor.
  - repeat (apply Forall_cons; split; [exact I|]). apply Forall_cons. split; [by left|constructor].
Qed.

(** ** The whole compiler *)

Definition translated : jit_state :=
  finished (located 0 (length prog) (app_items (listing asm_prologue) jit_init)).

Lemma located_wf i n st : wf_jit st -> jit_offset st + alen (slots i n) <= 65536 -> wf_jit (located i n st).
Proof. apply (app_items_wf (listing (slots i n)) st). Qed.

Lemma offset_located i n st : jit_offset (located i n st) = jit_offset st + alen (slots i n).
Proof. apply (offset_app_items (listing (slots i n)) st). Qed.

Lemma translate_spec :
  (0 < length prog)%nat ->
  translate vm ad prog jit_init = if alen program <=? 65536 then Ok translated else Err JAbort.
Proof using Hok Hn Hlen Hwf.
  intros H0. assert (wf_jit jit_init) as Hw by (unfold wf_jit; split_and!; by vm_compute).
  assert (starts prog 0) as Hs.
  { destruct prog as [|i0 p0] eqn:E; [cbn in H0; lia|]. exists i0. split; [done|]. intros Hz.
    specialize (Hok 0%nat i0 eq_refl). rewrite Hz in Hok. by destruct Hok as (? & ? & _). }
  unfold translate, seq_emit. rewrite prologue_emits by done. unfold JitCode.program. rewrite !alen_app.
  change (jit_offset jit_init) with 0. change (ilen (listing ?l)) with (alen l). rewrite Z.add_0_l.
  pose proof (alen_nonneg (slots 0 (length prog))). pose proof (alen_nonneg (asm_div_by_zero ad)).
  pose proof (alen_nonneg asm_exit). change (alen asm_prologue) with 21 in *. cbn [Z.leb Z.compare Pos.compare Pos.compare_cont res_bind].
  set (st1 := app_items (listing asm_prologue) jit_init).
  assert (wf_jit st1) as Hw1 by (by apply app_items_wf).
  assert (jit_offset st1 = 21) as Ho1 by reflexivity.
  rewrite Hn, Nat2Z.id. change 0 with (Z.of_nat 0). rewrite translate_insts_spec by (done || lia || auto).
  rewrite Nat.sub_0_r, Ho1. change (Z.of_nat 0) with 0.
  destruct (Z.leb_spec (21 + alen (slots 0 (length prog))) 65536); cbn [res_bind].
  - rewrite epilogue_spec by (apply located_wf; [done|lia]).
    rewrite offset_located, alen_app, Ho1. by rewrite <- Z.add_assoc.
  - by destruct (Z.leb_spec (21 + (alen (slots 0 (length prog)) + (alen asm_exit + alen (asm_div_by_zero ad)))) 65536);
      [lia|].
Qed.

Lemma buf_translated : buf translated = raw (listing program).
Proof. unfold translated, finished, located, JitCode.program. cbn [buf app_items put_exit_loc put_div_by_zero_loc jit_init].
  by rewrite !listing_app, !raw_app, <- !app_assoc.
Qed.

Lemma jumps_translated : jumps translated = jumps_of 0 (listing program).
Proof.
  unfold translated, finished, JitCode.program. cbn [jumps app_items put_exit_loc put_div_by_zero_loc located jit_init].
  change (jit_offset (put_div_by_zero_loc ?s)) with (jit_offset s).
  rewrite !listing_app, !jumps_of_app, !offset_app_items.
  change (jit_offset (put_exit_loc ?s)) with (jit_offset s). rewrite offset_located, !offset_app_items.
  change (jit_offset jit_init) with 0. unfold alen. by rewrite <- !app_assoc.
Qed.

Lemma target_translated t : good_target t -> target_loc translated t = Some (loc t).
Proof using Hok Hlen.
  intros Ht. unfold target_loc, JitCode.loc.
  destruct (Z.eqb_spec t (u32 TARGET_PC_EXIT)) as [->|N1].
  { unfold translated, finished. cbn [exit_loc app_items put_exit_loc put_div_by_zero_loc].
    rewrite offset_located, offset_app_items, alen_app. done. }
  destruct (Z.eqb_spec t (u32 TARGET_PC_DIV_BY_ZERO)) as [->|N2].
  { unfold translated, finished. cbn [div_by_zero_loc app_items put_div_by_zero_loc].
    rewrite offset_app_items. change (jit_offset (put_exit_loc ?s)) with (jit_offset s).
    rewrite offset_located, offset_app_items, !alen_app. change (jit_offset jit_init) with 0. unfold alen. by rewrite <- Z.add_assoc. }
  destruct Ht as [|[|(v & -> & Hv)]]; [done..|]. destruct Hv as (inst & Hi & H0).
  pose proof (lookup_lt_Some _ _ _ Hi). destruct (Z.leb_spec (Z.of_nat v) MAX_INSTS); [|lia].
  unfold translated, finished. cbn [pc_locs app_items put_exit_loc put_div_by_zero_loc located].
  rewrite locs_lookup by (lia || (unfold is_start; rewrite Hi; by apply negb_true_iff, Z.eqb_neq)).
  rewrite Nat2Z.id, Nat.sub_0_r, offset_app_items, alen_app. done.
Qed.

(** What the compiler returns. *)
Lemma compile_spec :
  insts vm = Some prog -> (0 < length prog)%nat ->
  let code := final_code loc 0 (listing program) in
  ubpf_compile vm ad None true true =
  if alen program <=? 65536 then (Some code, Ok code) else (None, Err JAbort).
Proof using Hok Hn Hlen Hwf.
  intros Hi H0 code. unfold ubpf_compile. rewrite Hi, translate_spec by done.
  destruct (alen program <=? 65536); [|done]. cbn [res_bind]. unfold resolve_jumps. rewrite jumps_translated.
  change 0 with (Z.of_nat (length (@nil Z))).
  rewrite (resolve_list_final loc [] (listing program) []).
  - cbn [app length negb put_buf buf]. by rewrite app_nil_r.
  - by rewrite buf_translated, app_nil_r.
  - intros t Ht. apply target_translated, (good_items program); [apply good_program|done].
Qed.
End Compiled.
