(* ===== verification/JitRun.v ===== *)
(** * Running the compiled code

    The bytes that [ubpf_compile] returns decode, at the location of each listed
    instruction, to that instruction: a run of the code follows the listing. *)

From S2P Require Import Prelude Ebpf Memory Vm Interp InterpProps ValidateInsts ValidateCfg.
From S2P Require Import ExecSafety MapDef.
From S2P Require Import X86 JitEnc Jit JitEmit JitAsm JitCode.

(** ** Well-formed listings *)

Definition wf_a (a : ainst) : Prop := match a with AI x => wf_x x | _ => True end.

Lemma mr_base r : 0 <= r <= 10 -> is_base (mr r).
Proof.
  intros H. assert (r = 0 \/ r = 1 \/ r = 2 \/ r = 3 \/ r = 4 \/ r = 5 \/ r = 6 \/ r = 7 \/ r = 8 \/ r = 9 \/ r = 10)
    as Hr by lia.
  repeat destruct Hr as [->|Hr]; try rewrite Hr; split; done.
Qed.

Lemma mr_is_reg r : 0 <= r <= 10 -> is_reg (mr r).
Proof. apply mr_reg. Qed.

Lemma wf_mov_imm im d : is_reg d -> wf_x (mov_imm im d).
Proof.
  intros Hd. unfold mov_imm. case_match eqn:E; cbn [wf_x]; (split; [|done]).
  - unfold in_s. lia.
  - apply wrap_range. lia.
Qed.

Lemma wf_muldivmod mul div mod' w pc src dst im :
  is_reg src -> is_reg dst -> Forall wf_a (asm_muldivmod mul div mod' w pc src dst im).
Proof.
  intros Hs Hd. assert (forall r, 0 <= r < 16 -> is_reg r) as Hreg by done.
  assert (is_reg RAX /\ is_reg RCX /\ is_reg RDX) as (? & ? & ?) by (split_and!; apply Hreg; clia).
  unfold asm_muldivmod. destruct mul, div, mod', (negb (dst =? RAX)), (negb (dst =? RDX)), (negb (im =? 0));
    cbn [orb opt_list app];
    repeat (apply Forall_cons; split; [first [by apply wf_mov_imm | exact I | done]|]); by apply Forall_nil.
Qed.

Lemma in_s_mono w w' x : 0 < w <= w' -> in_s w x -> in_s w' x.
Proof. intros Hw Hx. unfold in_s in *. pose proof (Z.pow_le_mono_r 2 (w - 1) (w' - 1)). lia. Qed.

Lemma wf_trunc_imm s im : in_s 32 im -> imm_fits s (trunc_imm s im).
Proof. destruct s; cbn [imm_fits trunc_imm]; intros; try done; apply sext_range; lia. Qed.

Lemma wf_asm_inst vm ad i o inst inst2 l :
  wf_inst inst -> 0 <= src inst <= 10 -> 0 <= dst inst <= 10 ->
  asm_inst vm ad i o inst inst2 (mr (src inst)) (mr (dst inst)) = Some l -> Forall wf_a l.
Proof.
  intros (_ & _ & _ & Hoff & Him) Hs Hd.
  pose proof (mr_base _ Hs) as Bs. pose proof (mr_base _ Hd) as Bd.
  pose proof (proj1 Bs) as Rs. pose proof (proj1 Bd) as Rd.
  assert (forall r, 0 <= r < 16 -> is_reg r) as Hreg by done.
  assert (is_reg RAX /\ is_reg RCX /\ is_reg R9 /\ is_reg R10 /\ is_reg R11) as (? & ? & ? & ? & ?)
    by (split_and!; apply Hreg; clia).
  assert (is_base R10 /\ is_base R11) as [? ?] by (split; split; done).
  assert (in_s 32 (offset inst)) by (apply (in_s_mono 16); [lia|done]).
  assert (in_u 8 (u8 (imm inst))) by (apply wrap_range; lia).
  pose proof (wf_trunc_imm S8 _ Him). pose proof (wf_trunc_imm S16 _ Him).
  destruct o; unfold asm_inst; cbn [asm_alu asm_jmp asm_mem asm_call]; intros E;
    try (injection E as <-);
    try match goal with |- Forall wf_a (asm_muldivmod _ _ _ _ _ _ _ _) => by apply wf_muldivmod end;
    try (repeat (apply Forall_cons; split;
      [first [by apply wf_mov_imm | exact I | cbn [wf_a wf_x imm_fits]; split_and!; assumption | assumption]|]); by apply Forall_nil).
  - repeat case_match; repeat (apply Forall_cons; split); try by apply Forall_nil.
    all: cbn [wf_a wf_x]; first [assumption | split; [unfold in_u, in_s; lia|assumption]].
  - destruct (ext_func_addr _ _ _); [|done]. injection E as <-.
    repeat (apply Forall_cons; split); try by apply Forall_nil. all: first [by apply wf_mov_imm | done].
  - destruct (negb _); repeat (apply Forall_cons; split); by try apply Forall_nil.
Qed.

Section Run.
Context (vm : ubpf_vm) (ad : jit_addrs) (prog : list ebpf_inst).
Context (Hok : insts_ok vm prog) (Hn : num_insts vm = Z.of_nat (length prog)).
Context (Hlen : Z.of_nat (length prog) < MAX_INSTS) (Hwf : Forall wf_inst prog).
Context (Hfit : alen (program vm ad prog) <= 65536).
Context (callee : Z -> (Z -> Z) -> memory -> option ((Z -> Z) * memory)).

Abbreviation program := (program vm ad prog).
Abbreviation loc := (loc vm ad prog).
Definition code : bytes := final_code loc 0 (listing program).

Lemma wf_slot i : Forall wf_a (slot_asm vm ad prog i).
Proof using Hok Hwf.
  unfold slot_asm. destruct (prog !! i) as [inst|] eqn:Hi; [|constructor].
  destruct (op_of_opcode (opcode inst)) as [o|] eqn:Ho; [|constructor].
  destruct (asm_inst _ _ _ _ _ _ _ _) as [l|] eqn:El; [|constructor]. cbn [default].
  pose proof (Hok i inst Hi) as Hc. destruct (Z.eqb_spec (opcode inst) 0) as [E|E]; [by rewrite E in Ho|].
  destruct Hc as (o' & _ & _ & Hr). unfold regs_ok in Hr.
  assert (wf_inst inst) as Hw by (by eapply Forall_lookup_1 in Hwf). pose proof Hw as (_ & Hd & Hs & _).
  unfold in_u in Hd, Hs. eapply wf_asm_inst; [done| | |done]; lia.
Qed.

Lemma wf_program : Forall wf_a program.
Proof using Hok Hwf.
  unfold JitCode.program, slots. rewrite !Forall_app. split_and!.
  - repeat (apply Forall_cons; split; [by repeat split|]). by apply Forall_nil.
  - apply Forall_join, Forall_fmap, Forall_forall. intros i _. apply wf_slot.
  - repeat (apply Forall_cons; split; [by repeat split|]). by apply Forall_nil.
  - repeat (apply Forall_cons; split; [first [by apply wf_mov_imm | by repeat split]|]). by apply Forall_nil.
Qed.

Lemma loc_range t : good_target prog t -> 0 <= loc t <= 65536.
Proof using Hfit.
  intros Ht. pose proof (alen_nonneg (slots vm ad prog 0 (length prog))).
  pose proof (alen_nonneg asm_exit). pose proof (alen_nonneg (asm_div_by_zero ad)).
  unfold JitCode.program in Hfit. rewrite !alen_app in Hfit. change (alen asm_prologue) with 21 in Hfit.
  unfold JitCode.loc. case_match; [|case_match]; rewrite !alen_app; change (alen asm_prologue) with 21; try lia.
  destruct Ht as [->|[->|(v & -> & inst & Hv & _)]]; [lia..|]. pose proof (lookup_lt_Some _ _ _ Hv).
  replace (length prog) with (v + (length prog - v))%nat in Hfit by lia. rewrite slots_app, alen_app in Hfit.
  pose proof (alen_nonneg (slots vm ad prog (0 + v) (length prog - v))).
  pose proof (alen_nonneg (slots vm ad prog 0 v)). rewrite Nat2Z.id. lia.
Qed.

(** The instruction a listed one becomes at offset [off]. *)
Definition inst_of (off : Z) (a : ainst) : xinst :=
  match a with
  | AI x => x
  | AJmp t => XJmp (loc (u32 t) - (off + 5))
  | AJcc c t => XJcc c (loc (u32 t) - (off + 6))
  end.

Lemma final_enc_a off a : final_code loc off (enc_a a) = enc (inst_of off a).
Proof.
  destruct a as [x|t|c t]; cbn [enc_a inst_of enc final_code].
  - apply final_bytes.
  - rewrite app_nil_r, <- Z.add_assoc. reflexivity.
  - rewrite app_nil_r, <- !Z.add_assoc. reflexivity.
Qed.

(** A step at a listed instruction executes it. *)
Lemma step_at l1 a l2 x :
  program = l1 ++ a :: l2 -> rip x = alen l1 ->
  xstep callee code x = xexec callee (inst_of (alen l1) a) (alen l1 + alen [a]) x.
Proof using Hok Hlen Hwf Hfit.
  intros Hp Hx. assert (listing [a] = enc_a a) as Ea by (unfold listing; cbn; apply app_nil_r).
  assert (code = final_code loc 0 (listing l1) ++ enc (inst_of (alen l1) a) ++
    final_code loc (alen l1 + alen [a]) (listing l2)) as Hc.
  { unfold code. rewrite Hp. change (a :: l2) with ([a] ++ l2). rewrite !listing_app, !final_app, Ea, final_enc_a.
    unfold alen. by rewrite Ea, Z.add_0_l. }
  assert (wf_x (inst_of (alen l1) a)) as Hw.
  { pose proof wf_program as H1. pose proof (good_program vm ad prog Hok Hlen) as H2. rewrite Hp in H1, H2.
    apply Forall_app in H1 as [_ [Ha _]%Forall_cons], H2 as [_ [Hg _]%Forall_cons].
    assert (0 <= alen l1 <= 65536).
    { split; [apply alen_nonneg|]. rewrite Hp, alen_app in Hfit. pose proof (alen_nonneg (a :: l2)). lia. }
    destruct a as [x'|t|c t]; cbn [inst_of wf_x wf_a good_a] in *; [done|..];
      pose proof (loc_range _ Hg); unfold in_s; lia. }
  assert (Z.of_nat (length (final_code loc 0 (listing l1))) = alen l1) as Hl1 by (by rewrite length_final).
  unfold xstep. rewrite Hx, Hc, !length_app.
  assert (Z.of_nat (length (enc (inst_of (alen l1) a))) = alen [a]) as Hl2.
  { rewrite <- final_enc_a, length_final. unfold alen, ilen. by rewrite Ea. }
  pose proof (alen_nonneg l1). destruct (Z.leb_spec 0 (alen l1)); [|lia].
  destruct (Z.leb_spec (alen l1) (Z.of_nat (length (final_code loc 0 (listing l1)) + (length (enc (inst_of (alen l1) a)) +
    length (final_code loc (alen l1 + alen [a]) (listing l2)))))); [|lia]. cbn [andb].
  rewrite <- Hl1, Nat2Z.id, drop_app_length, Hl1, decode_enc by done. f_equal. lia.
Qed.
End Run.
