(* ===== verification/JitAlu.v ===== *)
(** * Arithmetic of the compiled code against the interpreter

    The value each listed x86-64 instruction computes is the value that [ubpf_exec]
    assigns, and the flags of a comparison decide its jump, for the instructions on
    which the two agree. *)

From S2P Require Import Prelude Ebpf Memory Vm Interp InterpProps MapDef X86 JitEnc Jit.
From S2P Require Import JitEmit JitAsm.

(** ** Tables of the simple instructions *)

Definition rr_of (o : ebpf_op) : option (bool * alu) :=
  match o with
  | EBPF_OP_ADD_REG => Some (false, AADD) | EBPF_OP_SUB_REG => Some (false, ASUB)
  | EBPF_OP_OR_REG => Some (false, AOR) | EBPF_OP_AND_REG => Some (false, AAND)
  | EBPF_OP_XOR_REG => Some (false, AXOR)
  | EBPF_OP_ADD64_REG => Some (true, AADD) | EBPF_OP_SUB64_REG => Some (true, ASUB)
  | EBPF_OP_OR64_REG => Some (true, AOR) | EBPF_OP_AND64_REG => Some (true, AAND)
  | EBPF_OP_XOR64_REG => Some (true, AXOR) | EBPF_OP_MOV64_REG => Some (true, AMOV)
  | _ => None
  end.

Definition ri_of (o : ebpf_op) : option (bool * alu) :=
  match o with
  | EBPF_OP_ADD_IMM => Some (false, AADD) | EBPF_OP_SUB_IMM => Some (false, ASUB)
  | EBPF_OP_OR_IMM => Some (false, AOR) | EBPF_OP_AND_IMM => Some (false, AAND)
  | EBPF_OP_XOR_IMM => Some (false, AXOR) | EBPF_OP_MOV_IMM => Some (false, AMOV)
  | EBPF_OP_ADD64_IMM => Some (true, AADD) | EBPF_OP_SUB64_IMM => Some (true, ASUB)
  | EBPF_OP_OR64_IMM => Some (true, AOR) | EBPF_OP_AND64_IMM => Some (true, AAND)
  | EBPF_OP_XOR64_IMM => Some (true, AXOR)
  | _ => None
  end.

(** Shifts by an immediate; by a register, without the 32-bit left shift, whose count the
    interpreter takes modulo 64 and the processor modulo 32. *)
Definition si_of (o : ebpf_op) : option (bool * shift) :=
  match o with
  | EBPF_OP_LSH_IMM => Some (false, SHL) | EBPF_OP_RSH_IMM => Some (false, SHR)
  | EBPF_OP_ARSH_IMM => Some (false, SAR)
  | EBPF_OP_LSH64_IMM => Some (true, SHL) | EBPF_OP_RSH64_IMM => Some (true, SHR)
  | EBPF_OP_ARSH64_IMM => Some (true, SAR)
  | _ => None
  end.
Definition sr_of (o : ebpf_op) : option (bool * shift) :=
  match o with
  | EBPF_OP_RSH_REG => Some (false, SHR) | EBPF_OP_ARSH_REG => Some (false, SAR)
  | EBPF_OP_LSH64_REG => Some (true, SHL) | EBPF_OP_RSH64_REG => Some (true, SHR)
  | EBPF_OP_ARSH64_REG => Some (true, SAR)
  | _ => None
  end.

Lemma rr_asm o w a i inst src dst :
  rr_of o = Some (w, a) -> asm_alu i o inst src dst = Some [AI (XAluRR w a src dst)] /\ writes a = true.
Proof. destruct o; cbn; try done; by intros [= <- <-]. Qed.
Lemma ri_asm o w a i inst src dst :
  ri_of o = Some (w, a) -> asm_alu i o inst src dst = Some [AI (XAluRI w a (imm inst) dst)] /\ writes a = true.
Proof. destruct o; cbn; try done; by intros [= <- <-]. Qed.
Lemma si_asm o w a i inst src dst :
  si_of o = Some (w, a) -> asm_alu i o inst src dst = Some [AI (XShiftI w a (u8 (imm inst)) dst)].
Proof. destruct o; cbn [si_of asm_alu]; try done; by intros [= <- <-]. Qed.
Lemma sr_asm o w a i inst src dst :
  sr_of o = Some (w, a) -> asm_alu i o inst src dst = Some [mov src RCX; AI (XShiftCL w a dst)].
Proof. destruct o; cbn [sr_of asm_alu]; try done; by intros [= <- <-]. Qed.

(** ** Values *)

Lemma wrap64_small x : in_u 64 x -> wrap 64 x = x.
Proof. apply wrap_small. Qed.

Ltac wrap_norm :=
  rewrite ?mask32_wrap, ?wrap_wrap_le, ?wrap_add_l, ?wrap_add_r, ?wrap_sub_l, ?wrap_sub_r,
    ?wrap_lor, ?wrap_land, ?wrap_lxor, ?wrap_wrap_le, ?wrap_idem by lia.

Lemma rr_value o w a d s i :
  in_u 64 d -> in_u 64 s -> rr_of o = Some (w, a) ->
  alu_value o d s i = Some (AVal (alu_val a (width w) (wrap (width w) d) (wrap (width w) s))).
Proof.
  intros Hd Hs H. destruct o; cbn [rr_of] in H; try done; injection H as <- <-;
    unfold alu_value; cbn [exec_alu32 exec_alu64 alu_val width]; do 2 f_equal;
    rewrite ?(wrap64_small d), ?(wrap64_small s) by done; wrap_norm; done.
Qed.

Lemma ri_value o w a d s i :
  in_u 64 d -> ri_of o = Some (w, a) ->
  alu_value o d s i = Some (AVal (alu_val a (width w) (wrap (width w) d) (wrap (width w) i))).
Proof.
  intros Hd H. destruct o; cbn [ri_of] in H; try done; injection H as <- <-;
    unfold alu_value; cbn [exec_alu32 exec_alu64 alu_val width]; do 2 f_equal;
    rewrite ?(wrap64_small d) by done; wrap_norm; done.
Qed.

(** A shift count in range survives the masks. *)
Lemma count_mask W n : W = 32 \/ W = 64 -> 0 <= n < W -> Z.land (u8 n) (W - 1) = n.
Proof.
  intros HW Hn. rewrite (wrap_small 8) by (unfold in_u; lia).
  destruct HW as [-> | ->]; [change (32 - 1) with (Z.ones 5)|change (64 - 1) with (Z.ones 6)];
    rewrite Z.land_ones by lia; apply Z.mod_small; lia.
Qed.

Lemma width_cases w : width w = 32 \/ width w = 64.
Proof. destruct w; auto. Qed.

Lemma shift_val_count o w x n : 0 <= n < width w -> shift_val o (width w) x (u8 n) =
  match o with
  | SHL => wrap (width w) (Z.shiftl x n)
  | SHR => Z.shiftr x n
  | SAR => wrap (width w) (Z.shiftr (sext (width w) x) n)
  end.
Proof. intros H. unfold shift_val. rewrite count_mask by (auto using width_cases). done. Qed.

Lemma shr_range_small w x n : in_u w x -> 0 <= n -> in_u w (Z.shiftr x n).
Proof.
  unfold in_u. intros Hx Hn. rewrite Z.shiftr_div_pow2 by lia. pose proof (Z.pow_pos_nonneg 2 n).
  split; [apply Z.div_pos; lia|]. apply Z.div_lt_upper_bound; nia.
Qed.

Lemma si_value o w a d s i :
  in_u 64 d -> si_of o = Some (w, a) -> 0 <= i < width w ->
  alu_value o d s i = Some (AVal (shift_val a (width w) (wrap (width w) d) (u8 i))).
Proof.
  intros Hd H Hi. rewrite shift_val_count by done.
  destruct o; cbn [si_of] in H; try done; injection H as <- <-; cbn [width] in *;
    unfold alu_value; cbn [exec_alu32 exec_alu64]; unfold shl, shr;
    try replace ((0 <=? i) && (i <? 64)) with true by lia; try replace ((0 <=? i) && (i <? 32)) with true by lia;
    cbn [alu_opt]; do 2 f_equal; rewrite ?sext_wrap, ?(wrap64_small d) by done; wrap_norm;
    rewrite ?wrap_shl by lia; try done.
  apply wrap_small, shr_range_small; [apply wrap_range; lia|lia].
Qed.

(** By a register: whenever the interpreter's shift has a value. *)
Lemma sr_value o w a d s i v :
  in_u 64 d -> sr_of o = Some (w, a) -> alu_value o d s i = Some (AVal v) ->
  v = shift_val a (width w) (wrap (width w) d) (u8 s).
Proof.
  intros Hd H. destruct o; cbn [sr_of] in H; try done; injection H as <- <-; cbn [width];
    unfold alu_value; cbn [exec_alu32 exec_alu64]; unfold shl, shr;
    match goal with |- context [(0 <=? ?n) && (?n <? _)] => destruct ((0 <=? n) && (n <? _)) eqn:Hs; [|done] end;
    cbn [alu_opt]; intros [= <-].
  1: rewrite (shift_val_count _ false) by (cbn; lia).
  2: rewrite <- (wrap_wrap_le 8 32 s), (shift_val_count _ false) by (cbn; lia).
  3-5: rewrite (shift_val_count _ true) by (cbn; lia).
  all: cbn [width]; rewrite ?sext_wrap, ?(wrap64_small d) by done; wrap_norm; try done.
  apply wrap_small, shr_range_small; [apply wrap_range; lia|lia].
Qed.

(** Negation and byte swaps. *)
Lemma neg_value (o : ebpf_op) (w : bool) d s i :
  o = (if w then EBPF_OP_NEG64 else EBPF_OP_NEG) -> alu_value o d s i = Some (AVal (wrap (width w) (- d))).
Proof. intros ->. destruct w; unfold alu_value; cbn [exec_alu32 exec_alu64 width]; by wrap_norm. Qed.

Lemma lor_add_high a b n : 0 <= n -> in_u n b -> Z.lor (Z.shiftl a n) b = 2 ^ n * a + b.
Proof.
  intros Hn Hb. assert (Z.land (Z.shiftl a n) b = 0) as H0.
  { apply Z.bits_inj'. intros k Hk. rewrite Z.land_spec, Z.bits_0, Z.shiftl_spec by lia.
    destruct (Z.ltb_spec k n); [by rewrite Z.testbit_neg_r by lia|].
    rewrite (testbit_out n b k) by (done || lia). by rewrite andb_false_r. }
  rewrite <- Z.lxor_lor, <- Z.add_nocarry_lxor by done. rewrite Z.shiftl_mul_pow2 by lia. lia.
Qed.

Lemma bswap16_digits x : bswap16 x = 256 * u8 x + u8 (x / 256).
Proof.
  unfold bswap16. rewrite lor_add_high by (lia || (apply wrap_range; lia)).
  by rewrite Z.shiftr_div_pow2 by lia.
Qed.

Lemma bswap32_digits x : bswap32 x = 65536 * bswap16 x + bswap16 (x / 65536).
Proof.
  unfold bswap32. rewrite lor_add_high by (lia || apply bswap16_range). by rewrite Z.shiftr_div_pow2 by lia.
Qed.

Lemma bswap64_digits x : bswap64 x = 2 ^ 32 * bswap32 x + bswap32 (x / 2 ^ 32).
Proof.
  unfold bswap64. rewrite lor_add_high by (lia || apply bswap32_range). by rewrite Z.shiftr_div_pow2 by lia.
Qed.

(** Products of constants that stand under a quotient. *)
Ltac const_mul :=
  repeat match goal with
  | |- context [Z.div _ (Zpos ?a * Zpos ?b)] => let c := eval vm_compute in (Zpos a * Zpos b) in change (Zpos a * Zpos b) with c
  | |- context [Z.div _ (Zpos ?a * (Zpos ?b * ?r))] =>
      let c := eval vm_compute in (Zpos b * r) in change (Zpos b * r) with c
  end.

Lemma bswap_32 x : bswap 4 x = bswap32 x.
Proof.
  rewrite bswap32_digits, !bswap16_digits. unfold bswap. cbn [le_bytes rev app le_value].
  change (2 ^ 8) with 256. rewrite !Z.div_div by lia. const_mul. lia.
Qed.

Lemma bswap_64 x : bswap 8 x = bswap64 x.
Proof.
  rewrite bswap64_digits, !bswap32_digits, !bswap16_digits. unfold bswap. cbn [le_bytes rev app le_value].
  change (2 ^ 8) with 256. change (2 ^ 32) with 4294967296. rewrite !Z.div_div by lia. const_mul. lia.
Qed.

Lemma rol16_and d : alu_val AAND 32 (wrap 32 (rol16 d 8)) (wrap 32 0xffff) = bswap16 (u16 d).
Proof.
  cbn [alu_val]. change (wrap 32 0xffff) with (Z.ones 16). rewrite Z.land_ones by lia.
  change ((wrap 32 (rol16 d 8)) mod 2 ^ 16) with (wrap 16 (wrap 32 (rol16 d 8))). rewrite wrap_wrap_le by lia.
  unfold rol16. change (8 mod 16) with 8. change (16 - 8) with 8.
  assert (in_u 8 (Z.shiftr (u16 d) 8)) as Hr.
  { rewrite Z.shiftr_div_pow2 by lia. pose proof (wrap_range 16 d). unfold in_u in *.
    split; [apply Z.div_pos; lia|apply Z.div_lt_upper_bound; lia]. }
  rewrite lor_add_high, Z.shiftr_div_pow2 by (done || lia). rewrite Z.shiftr_div_pow2 in Hr by lia.
  rewrite bswap16_digits. pose proof (wrap_range 16 d ltac:(lia)) as H16.
  change (2 ^ 8) with 256 in *. unfold in_u, wrap in *. change (2 ^ 16) with 65536 in *. change (2 ^ 8) with 256 in *.
  Z.div_mod_to_equations. lia.
Qed.

Lemma end_be_value d s i :
  in_u 64 d ->
  alu_value EBPF_OP_BE d s i =
  Some (AVal (if i =? 16 then alu_val AAND 32 (wrap 32 (rol16 d 8)) (wrap 32 0xffff)
              else if i =? 32 then bswap 4 (u32 d)
              else if i =? 64 then bswap 8 d else d)).
Proof.
  intros Hd. unfold alu_value. cbn [exec_alu32]. rewrite rol16_and, bswap_32, bswap_64.
  by rewrite (wrap64_small d).
Qed.

(** ** Products and quotients *)

Definition mul_of (o : ebpf_op) : option bool :=
  match o with
  | EBPF_OP_MUL_IMM | EBPF_OP_MUL_REG => Some false
  | EBPF_OP_MUL64_IMM | EBPF_OP_MUL64_REG => Some true
  | _ => None
  end.

(** [c] is what the code multiplies by. *)
Lemma mul_value o w d s i c :
  mul_of o = Some w ->
  c = match o with EBPF_OP_MUL_IMM | EBPF_OP_MUL64_IMM => u64 i | _ => s end ->
  alu_value o d s i = Some (AVal (wrap (width w) (wrap (width w) d * wrap (width w) c))).
Proof.
  intros H ->. destruct o; cbn [mul_of] in H; try done; injection H as <-;
    unfold alu_value; cbn [exec_alu32 exec_alu64 width]; wrap_norm; by rewrite wrap_mul.
Qed.

(** Whether a division by a register, its width, and whether the remainder is wanted. *)
Definition div_of (o : ebpf_op) : option (bool * bool) :=
  match o with
  | EBPF_OP_DIV_REG => Some (false, false) | EBPF_OP_MOD_REG => Some (false, true)
  | EBPF_OP_DIV64_REG => Some (true, false) | EBPF_OP_MOD64_REG => Some (true, true)
  | _ => None
  end.

Lemma div_value o w md d s i v :
  in_u 64 d -> in_u 64 s -> div_of o = Some (w, md) -> alu_value o d s i = Some (AVal v) ->
  wrap (width w) s <> 0 /\
  v = if md then (wrap (width w) d) mod (wrap (width w) s) else (wrap (width w) d) / (wrap (width w) s).
Proof.
  intros Hd Hs H. destruct o; cbn [div_of] in H; try done; injection H as <- <-;
    unfold alu_value; cbn [exec_alu32 exec_alu64 width]; destruct (Z.eqb_spec s 0); try done;
    unfold udiv, umod; rewrite ?(wrap64_small d), ?(wrap64_small s) by done;
    try (destruct (Z.eqb_spec (u32 s) 0)); try (destruct (Z.eqb_spec s 0)); try done; cbn [alu_opt];
    intros [= <-]; (split; [done|]); try done.
  rewrite mask32_wrap. apply wrap_small. pose proof (wrap_range 32 d ltac:(lia)). pose proof (wrap_range 32 s ltac:(lia)).
  unfold in_u in *. split; [apply Z.div_pos; lia|]. apply Z.div_lt_upper_bound; nia.
Qed.

Lemma div_zero_value o w md d s i :
  div_of o = Some (w, md) -> alu_value o d s i = Some ADivZero -> s = 0.
Proof.
  intros H. destruct o; cbn [div_of] in H; try done; unfold alu_value; cbn [exec_alu32 exec_alu64];
    destruct (Z.eqb_spec s 0); try done; unfold udiv, umod; by case_match.
Qed.

(** ** Comparisons *)

Lemma sub_zero d s : in_u 64 d -> in_u 64 s -> (wrap 64 (d - s) =? 0) = (d =? s).
Proof. intros Hd Hs. destruct (Z.eqb_spec d s) as [->|]; [by rewrite Z.sub_diag|]. word_lia. Qed.

Lemma sign_bit r : in_u 64 r -> Z.testbit r 63 = (sext 64 r <? 0).
Proof.
  intros Hr. unfold in_u in Hr. assert (Z.testbit r 63 = (2 ^ 63 <=? r)) as ->.
  { destruct (Z.leb_spec (2 ^ 63) r).
    - apply Z.testbit_true; [lia|]. assert (r / 2 ^ 63 = 1) as -> by (Z.div_mod_to_equations; lia). done.
    - apply Z.bits_above_log2; [lia|]. destruct (decide (r = 0)) as [->|]; [done|]. apply Z.log2_lt_pow2; lia. }
  unfold sext, wrap. rewrite !Z.mod_small by lia. change (2 ^ (64 - 1)) with (2 ^ 63).
  destruct (Z.leb_spec (2 ^ 63) r), (Z.ltb_spec r (2 ^ 63)); lia.
Qed.

Lemma sext64_cases x : in_u 64 x -> sext 64 x = if x <? 2 ^ 63 then x else x - 2 ^ 64.
Proof. intros Hx. unfold in_u in Hx. unfold sext, wrap. by rewrite Z.mod_small by lia. Qed.

Lemma cmp_ge d s :
  in_u 64 d -> in_u 64 s ->
  Bool.eqb (sf (cmp_flags 64 d s)) (ovf (cmp_flags 64 d s)) = (sext 64 s <=? sext 64 d).
Proof.
  intros Hd Hs. cbn [sf ovf cmp_flags]. change (64 - 1) with 63.
  assert (wrap 64 (d - s) = if s <=? d then d - s else d - s + 2 ^ 64) as Hr.
  { unfold in_u in *. unfold wrap. destruct (Z.leb_spec s d); [apply Z.mod_small; lia|].
    symmetry. apply Z.mod_unique with (-1); lia. }
  pose proof (wrap_range 64 (d - s) ltac:(lia)) as Hw. rewrite sign_bit, !sext64_cases by done.
  rewrite Hr in *. unfold in_u in *. clear Hr.
  destruct (Z.leb_spec s d), (Z.ltb_spec d (2 ^ 63)), (Z.ltb_spec s (2 ^ 63));
    match goal with |- context [?r <? 2 ^ 63] => destruct (Z.ltb_spec r (2 ^ 63)) end;
    match goal with |- Bool.eqb (?a <? 0) (negb (?b =? ?c)) = (?x <=? ?y) =>
      destruct (Z.ltb_spec a 0), (Z.eqb_spec b c), (Z.leb_spec x y) end; (reflexivity || lia).
Qed.

(** The condition of each jump after a comparison of [d] with [s]. *)
Lemma cmp_cond c d s :
  in_u 64 d -> in_u 64 s ->
  cond_holds c (cmp_flags 64 d s) =
  match c with
  | CE => d =? s
  | CNE => negb (d =? s)
  | CA => s <? d
  | CAE => s <=? d
  | CG => sext 64 s <? sext 64 d
  | CGE => sext 64 s <=? sext 64 d
  end.
Proof.
  intros Hd Hs. destruct c; cbn [cond_holds]; rewrite ?cmp_ge by done; cbn [zf cf cmp_flags]; rewrite ?sub_zero by done;
    try done; try lia.
  rewrite !sext64_cases by done. unfold in_u in *. destruct (d <? 2 ^ 63) eqn:?, (s <? 2 ^ 63) eqn:?; lia.
Qed.

(** Whether a jump compares with a register, and the comparison and condition it compiles to. *)
Definition jump_of (o : ebpf_op) : option (bool * alu * cond) :=
  match o with
  | EBPF_OP_JEQ_IMM => Some (false, ACMP, CE) | EBPF_OP_JEQ_REG => Some (true, ACMP, CE)
  | EBPF_OP_JGT_IMM => Some (false, ACMP, CA) | EBPF_OP_JGT_REG => Some (true, ACMP, CA)
  | EBPF_OP_JGE_IMM => Some (false, ACMP, CAE) | EBPF_OP_JGE_REG => Some (true, ACMP, CAE)
  | EBPF_OP_JSET_IMM => Some (false, ATEST, CNE) | EBPF_OP_JSET_REG => Some (true, ATEST, CNE)
  | EBPF_OP_JNE_IMM => Some (false, ACMP, CNE) | EBPF_OP_JNE_REG => Some (true, ACMP, CNE)
  | EBPF_OP_JSGT_IMM => Some (false, ACMP, CG) | EBPF_OP_JSGT_REG => Some (true, ACMP, CG)
  | EBPF_OP_JSGE_IMM => Some (false, ACMP, CGE) | EBPF_OP_JSGE_REG => Some (true, ACMP, CGE)
  | _ => None
  end.

Lemma jump_asm o r a c i last inst src dst :
  jump_of o = Some (r, a, c) ->
  asm_alu i o inst src dst = None /\ writes a = false /\
  asm_jmp i last o inst src dst =
  Some [AI (if r then XAluRR true a src dst else XAluRI true a (imm inst) dst);
        AJcc c (u32 (i + offset inst + 1))].
Proof. destruct o; cbn [jump_of asm_jmp]; try done; intros [= <- <- <-]; done. Qed.

(** The unsigned comparisons with an immediate agree for an immediate that is not negative. *)
Lemma jump_cond o r a c d s i :
  jump_of o = Some (r, a, c) -> in_u 64 d -> in_u 64 s -> in_s 32 i ->
  (o = EBPF_OP_JGT_IMM \/ o = EBPF_OP_JGE_IMM -> 0 <= i) ->
  exists f, alu_flags a 64 d (if r then s else wrap 64 i) None = Some f /\ jump_taken o d s i = Some (cond_holds c f).
Proof.
  intros H Hd Hs Hi H0. assert (in_u 64 (wrap 64 i)) as Hw by (apply wrap_range; lia).
  assert (sext 64 (wrap 64 i) = i) as Es.
  { rewrite sext_wrap. apply sext_small; [lia|]. unfold in_s in *. lia. }
  destruct o; cbn [jump_of] in H; try done; injection H as <- <- <-; cbn [alu_flags];
    eexists; (split; [reflexivity|]); cbn [jump_taken]; rewrite ?cmp_cond, ?Es by done; try done.
  all: assert (wrap 64 i = u32 i) as -> by
    (specialize (H0 ltac:(auto)); unfold in_s in Hi; rewrite !wrap_small by (unfold in_u; lia); done); done.
Qed.
