(* ===== verification/JitSim.v ===== *)
(** * The simulation relation

    How a state of the interpreter appears in the machine that runs the compiled
    code, and what the listed instructions do to it. *)

From S2P Require Import Prelude Ebpf Memory Vm Interp InterpProps MapDef X86 JitEnc Jit.
From S2P Require Import JitEmit JitAsm JitCode JitAlu.

(** ** Memory *)

Lemma load_mono m M a n v : m ⊆ M -> load_le m a n = Some v -> load_le M a n = Some v.
Proof.
  intros Hs. revert a v. induction n as [|n IH]; intros a v; cbn [load_le]; [done|].
  destruct (m !! a) as [b|] eqn:Hb; [|done]. rewrite (lookup_weaken _ _ _ _ Hb Hs). cbn.
  destruct (load_le m (a + 1) n) as [r|] eqn:Hr; [|done]. by rewrite (IH _ _ Hr).
Qed.

(** A store looks at the value modulo its width. *)
Lemma store_le_cong m a n v v' :
  v mod 256 ^ Z.of_nat n = v' mod 256 ^ Z.of_nat n -> store_le m a n v = store_le m a n v'.
Proof.
  revert m a v v'. induction n as [|n IH]; intros m a v v' H; cbn [store_le]; [done|].
  rewrite Nat2Z.inj_succ, Z.pow_succ_r in H by lia.
  assert (0 < 256 ^ Z.of_nat n) by (apply Z.pow_pos_nonneg; lia).
  assert (u8 v = u8 v') as ->.
  { unfold wrap. change (2 ^ 8) with 256. rewrite !Z.rem_mul_r in H by lia. Z.div_mod_to_equations. nia. }
  destruct (m !! a); [|done]. apply IH. rewrite !Z.rem_mul_r in H by lia. Z.div_mod_to_equations. nia.
Qed.

Lemma store_mono m M a n v m' :
  m ⊆ M -> store_le m a n v = Some m' ->
  exists M', store_le M a n v = Some M' /\ m' ⊆ M' /\ dom M' = dom M /\
    (forall i, m !! i = None -> M' !! i = M !! i).
Proof.
  intros Hs H. assert (mapped M a n) as Hm.
  { intros i Hi. destruct (proj2 (store_le_mapped m a n v) ltac:(eauto) i Hi) as [b Hb].
    exists b. by eapply lookup_weaken. }
  destruct (proj1 (store_le_mapped M a n v) Hm) as [M' HM']. exists M'. split; [done|].
  assert (m' ⊆ M') as Hsub.
  { clear Hm. revert m M a v Hs H HM'. induction n as [|n IH]; intros m M a v Hs H HM'; cbn [store_le] in *.
    - by simplify_eq.
    - destruct (m !! a) as [b|]; [|done]. destruct (M !! a); [|done].
      eapply IH; [|exact H|exact HM']. by apply insert_mono. }
  split_and!; [done|by eapply store_le_dom|]. intros i Hi.
  destruct (decide (a <= i < a + Z.of_nat n)) as [Hin|Hout]; [|by eapply store_le_frame].
  destruct (proj2 (store_le_mapped m a n v) ltac:(eauto) i Hin) as [b Hb]. congruence.
Qed.

(** ** Registers *)

Lemma mr_cases r : 0 <= r <= 10 ->
  r = 0 \/ r = 1 \/ r = 2 \/ r = 3 \/ r = 4 \/ r = 5 \/ r = 6 \/ r = 7 \/ r = 8 \/ r = 9 \/ r = 10.
Proof. lia. Qed.

Lemma mr_inj r r' : 0 <= r <= 10 -> 0 <= r' <= 10 -> mr r = mr r' -> r = r'.
Proof.
  intros H%mr_cases H'%mr_cases.
  repeat destruct H as [->|H]; try rewrite H; repeat destruct H' as [->|H']; try rewrite H'; by try done.
Qed.

(** The registers of the machine that hold no eBPF register. *)
Definition temp (t : Z) : Prop := t = RCX \/ t = RSP \/ t = R10 \/ t = R11.

Lemma mr_temp r t : 0 <= r <= 10 -> temp t -> mr r <> t.
Proof.
  intros H%mr_cases Ht. unfold temp in Ht.
  repeat destruct H as [->|H]; try rewrite H; repeat destruct Ht as [->|Ht]; try rewrite Ht; done.
Qed.

Lemma upd_eq R r v : upd R r v r = v.
Proof. unfold upd. by rewrite Z.eqb_refl. Qed.
Lemma upd_ne R r r' v : r' <> r -> upd R r v r' = R r'.
Proof. intros H. unfold upd. by rewrite (proj2 (Z.eqb_neq r' r)). Qed.

(** Reads the registers of a state built by updates. *)
Ltac regs :=
  repeat first
    [ progress cbn [xr xm flags]
    | rewrite upd_eq
    | match goal with |- context [upd _ ?r _ ?r'] => rewrite (upd_ne _ r r') by done end ].

Lemma rget_rset l r r' v :
  length l = 16%nat -> 0 <= r <= 10 -> 0 <= r' <= 10 -> rget (rset l r v) r' = if r' =? r then v else rget l r'.
Proof.
  intros Hl Hr Hr'. unfold rget, rset. destruct (Z.eqb_spec r' r) as [->|].
  - rewrite list_lookup_insert_eq by lia. done.
  - by rewrite list_lookup_insert_ne by lia.
Qed.

(** ** The relation *)

Section Sim.
(** The stack pointer while the program runs, and the memory behind the prologue. *)
Context (sp : Z) (saved : memory).
Context (Hsp : 16 <= sp /\ sp + STACK_SIZE + 48 < 2 ^ 64).

(** [V] tells which eBPF registers hold the interpreter's value: a register not yet
    written, or clobbered by a call, need not. *)
Record sim (V : Z -> bool) (st : exec_state) (x : xstate) : Prop := {
  sim_regs : forall r, 0 <= r <= 10 -> V r = true -> xr x (mr r) = rget (reg st) r;
  sim_sp : xr x RSP = sp;
  sim_mem : mem st ⊆ xm x;
  sim_scratch : forall a, sp - 16 <= a < sp -> is_Some (xm x !! a) /\ mem st !! a = None;
  sim_saved : forall a, sp + STACK_SIZE <= a < sp + STACK_SIZE + 48 -> xm x !! a = saved !! a /\ mem st !! a = None
}.

Definition add_reg (V : Z -> bool) (d : Z) : Z -> bool := fun r => (r =? d) || V r.

(** The program counters and the flags play no role. *)
Lemma sim_pc V st x p n fl : sim V st x -> sim V (mk_state p (reg st) (mem st)) (mk_x n (xr x) fl (xm x)).
Proof. by intros [H1 H2 H3 H4 H5]. Qed.

Lemma sim_write V st x d v p n fl :
  sim V st x -> length (reg st) = 16%nat -> 0 <= d <= 10 ->
  sim (add_reg V d) (mk_state p (rset (reg st) d v) (mem st)) (mk_x n (upd (xr x) (mr d) v) fl (xm x)).
Proof.
  intros [H1 H2 H3 H4 H5] Hl Hd. split; cbn [xr xm reg mem]; try done.
  - intros r Hr Hv. rewrite rget_rset by done. unfold add_reg in Hv. destruct (Z.eqb_spec r d) as [->|Hne].
    + apply upd_eq.
    + rewrite upd_ne; [by apply H1|]. by intros E%mr_inj.
  - rewrite upd_ne; [done|]. intros E. apply (mr_temp d RSP Hd); [unfold temp; auto|done].
Qed.

Lemma sim_temp V st x t v n fl :
  sim V st x -> temp t -> t <> RSP -> sim V st (mk_x n (upd (xr x) t v) fl (xm x)).
Proof.
  intros [H1 H2 H3 H4 H5] Ht Hn. split; cbn [xr xm]; try done.
  - intros r Hr Hv. rewrite upd_ne by (by apply mr_temp). by apply H1.
  - by rewrite upd_ne.
Qed.

(** A store of the program. *)
Lemma sim_store V st x a k v m' p :
  sim V st x -> store_le (mem st) a k v = Some m' ->
  exists M', store_le (xm x) a k v = Some M' /\
    forall n fl, sim V (mk_state p (reg st) m') (mk_x n (xr x) fl M').
Proof.
  intros [H1 H2 H3 H4 H5] Hst. destruct (store_mono _ _ _ _ _ _ H3 Hst) as (M' & HM & Hsub & Hdom & Hfr).
  exists M'. split; [done|]. pose proof (store_le_dom _ _ _ _ _ Hst) as Hd.
  assert (forall i, mem st !! i = None -> m' !! i = None) as Hnone.
  { intros i Hi. apply not_elem_of_dom. rewrite Hd. by apply not_elem_of_dom. }
  intros n fl. split; cbn [xr xm reg mem]; try done.
  - intros i Hi. destruct (H4 i Hi) as [Hs Hno]. rewrite Hfr by done. auto.
  - intros i Hi. destruct (H5 i Hi) as [Hs Hno]. rewrite Hfr by done. auto.
Qed.

(** Only the values matter. *)
Lemma sim_ext V st x y :
  sim V st x -> (forall r, xr y r = xr x r) -> xm y = xm x -> sim V st y.
Proof. intros [H1 H2 H3 H4 H5] Hr Hm. split; rewrite ?Hm, ?Hr; try done. intros r. rewrite Hr. auto. Qed.

(** An instruction that computes [v] into register [d], keeps the others and uses
    the scratch area of the stack. *)
Lemma sim_result V st x y d v p :
  sim V st x -> length (reg st) = 16%nat -> 0 <= d <= 10 ->
  xr y (mr d) = v -> (forall r, 0 <= r <= 10 -> r <> d -> V r = true -> xr y (mr r) = xr x (mr r)) ->
  xr y RSP = sp ->
  (forall a, ~ (sp - 16 <= a < sp) -> xm y !! a = xm x !! a) -> dom (xm y) = dom (xm x) ->
  sim (add_reg V d) (mk_state p (rset (reg st) d v) (mem st)) y.
Proof.
  intros [H1 H2 H3 H4 H5] Hl Hd Hv Hr Hs Hm Hdom. split; cbn [reg mem]; try done.
  - intros r Hrr HV. rewrite rget_rset by done. unfold add_reg in HV. destruct (Z.eqb_spec r d) as [->|]; [done|].
    rewrite Hr by done. by apply H1.
  - apply map_subseteq_spec. intros a b Ha. rewrite Hm; [by eapply lookup_weaken|].
    intros Hin. destruct (H4 a Hin). congruence.
  - intros a Ha. destruct (H4 a Ha) as [Hx Hn]. split; [|done]. apply elem_of_dom. rewrite Hdom. by apply elem_of_dom.
  - intros a Ha. rewrite Hm by (clia). by apply H5.
Qed.

Lemma sim_weaken V V' st x :
  sim V st x -> (forall r, 0 <= r <= 10 -> V' r = true -> V r = true) -> sim V' st x.
Proof. intros [H1 H2 H3 H4 H5] HV. split; auto. Qed.
End Sim.
