(* ===== verification/JitInst.v ===== *)
(** * One instruction of the compiled code

    The listing of each supported eBPF instruction takes a machine state that represents
    an interpreter state to one that represents the next. *)

From S2P Require Import Prelude Ebpf Memory Vm Interp InterpProps ValidateInsts ExecSafety.
From S2P Require Import MapDef.
From S2P Require Import X86 JitEnc Jit JitEmit JitAsm JitCode JitAlu JitSim.

(** ** Which instructions agree *)

(** The compiler and the interpreter differ on the others: see [JitCorrect.jit_differs]. *)
Definition supported (o : ebpf_op) (inst : ebpf_inst) : bool :=
  match o with
  | EBPF_OP_DIV_IMM | EBPF_OP_MOD_IMM | EBPF_OP_DIV64_IMM | EBPF_OP_MOD64_IMM => false
  | EBPF_OP_MUL_IMM | EBPF_OP_MUL64_IMM => negb (imm inst =? 0)
  | EBPF_OP_MUL_REG | EBPF_OP_MUL64_REG | EBPF_OP_DIV_REG | EBPF_OP_DIV64_REG
  | EBPF_OP_MOD_REG | EBPF_OP_MOD64_REG => imm inst =? 0
  | EBPF_OP_LSH_REG | EBPF_OP_MOV_REG => false
  | EBPF_OP_LE => imm inst =? 64
  | EBPF_OP_JGT_IMM | EBPF_OP_JGE_IMM => 0 <=? imm inst
  | EBPF_OP_LDABSB | EBPF_OP_LDABSH | EBPF_OP_LDABSW | EBPF_OP_LDABSDW
  | EBPF_OP_LDINDB | EBPF_OP_LDINDH | EBPF_OP_LDINDW | EBPF_OP_LDINDDW => false
  | _ => true
  end.

(** Whether an instruction reads its [dst] and its [src] register. *)
Definition reads_dst (o : ebpf_op) : bool :=
  match o with
  | EBPF_OP_MOV_IMM | EBPF_OP_MOV_REG | EBPF_OP_MOV64_IMM | EBPF_OP_MOV64_REG | EBPF_OP_LDDW
  | EBPF_OP_LDXB | EBPF_OP_LDXH | EBPF_OP_LDXW | EBPF_OP_LDXDW | EBPF_OP_JA | EBPF_OP_CALL | EBPF_OP_EXIT => false
  | _ => true
  end.
Definition reads_src (o : ebpf_op) : bool :=
  match o with
  | EBPF_OP_ADD_REG | EBPF_OP_SUB_REG | EBPF_OP_MUL_REG | EBPF_OP_DIV_REG | EBPF_OP_OR_REG | EBPF_OP_AND_REG
  | EBPF_OP_LSH_REG | EBPF_OP_RSH_REG | EBPF_OP_MOD_REG | EBPF_OP_XOR_REG | EBPF_OP_MOV_REG | EBPF_OP_ARSH_REG
  | EBPF_OP_ADD64_REG | EBPF_OP_SUB64_REG | EBPF_OP_MUL64_REG | EBPF_OP_DIV64_REG | EBPF_OP_OR64_REG
  | EBPF_OP_AND64_REG | EBPF_OP_LSH64_REG | EBPF_OP_RSH64_REG | EBPF_OP_MOD64_REG | EBPF_OP_XOR64_REG
  | EBPF_OP_MOV64_REG | EBPF_OP_ARSH64_REG
  | EBPF_OP_LDXB | EBPF_OP_LDXH | EBPF_OP_LDXW | EBPF_OP_LDXDW
  | EBPF_OP_STXB | EBPF_OP_STXH | EBPF_OP_STXW | EBPF_OP_STXDW
  | EBPF_OP_JEQ_REG | EBPF_OP_JGT_REG | EBPF_OP_JGE_REG | EBPF_OP_JSET_REG | EBPF_OP_JNE_REG
  | EBPF_OP_JSGT_REG | EBPF_OP_JSGE_REG => true
  | _ => false
  end.

Definition reads_ok (V : Z -> bool) (o : ebpf_op) (inst : ebpf_inst) : Prop :=
  (reads_dst o = true -> V (dst inst) = true) /\ (reads_src o = true -> V (src inst) = true).

Section Inst.
Context (callee : Z -> (Z -> Z) -> memory -> option ((Z -> Z) * memory)).
Context (sp : Z) (saved : memory).
Context (Hsp : 16 <= sp /\ sp + STACK_SIZE + 48 < 2 ^ 64).

Abbreviation sim := (sim sp saved).

(** ** Straight-line code *)

Definition straight (i : xinst) : bool := match i with XRet | XJmp _ | XJcc _ _ => false | _ => true end.

Fixpoint xseq (xs : list xinst) (x : xstate) : option xstate :=
  match xs with
  | [] => Some x
  | i :: xs' =>
      if straight i then match xexec callee i 0 x with XNext y => xseq xs' y | _ => None end else None
  end.

(** The listing [l] takes the state to one that represents [st']. *)
Definition runs_to (l : option (list ainst)) (x : xstate) (V : Z -> bool) (st : exec_state) : Prop :=
  exists xs y, l = Some (AI <$> xs) /\ xseq xs x = Some y /\ sim V st y.

Lemma sim_reg_range V st x r :
  sim V st x -> wf_state st -> 0 <= r <= 10 -> V r = true ->
  xr x (mr r) = rget (reg st) r /\ in_u 64 (rget (reg st) r).
Proof. intros Hs Hw Hr Hv. split; [by eapply sim_regs|apply rget_range, Hw]. Qed.

(** ** Arithmetic *)

Lemma exec_alu_value o i st st' :
  exec_alu o i st = Some (Continue st') ->
  exists v, alu_value o (rget (reg st) (dst i)) (rget (reg st) (src i)) (imm i) = Some (AVal v) /\
    st' = mk_state (pc st) (rset (reg st) (dst i) v) (mem st).
Proof.
  unfold exec_alu, alu_value. destruct (exec_alu32 _ _ _ _) as [[]|]; try done; [intros [= <-]; eauto|].
  destruct (exec_alu64 _ _ _ _) as [[]|]; try done. intros [= <-]. eauto.
Qed.

(** What the two sides of an ALU instruction hold. *)
Record alu_pre (V : Z -> bool) (o : ebpf_op) (inst : ebpf_inst) (st : exec_state) (x : xstate) : Prop := {
  ap_sim : sim V st x;
  ap_wf : wf_state st;
  ap_inst : wf_inst inst;
  ap_src : 0 <= src inst <= 10;
  ap_dst : 0 <= dst inst <= 9;
  ap_reads : reads_ok V o inst
}.

Lemma ap_dst_val V o inst st x :
  alu_pre V o inst st x -> reads_dst o = true -> xr x (mr (dst inst)) = rget (reg st) (dst inst).
Proof. intros [Hs Hw _ _ Hd [Hr _]] H. eapply sim_regs; [done|lia|auto]. Qed.
Lemma ap_src_val V o inst st x :
  alu_pre V o inst st x -> reads_src o = true -> xr x (mr (src inst)) = rget (reg st) (src inst).
Proof. intros [Hs Hw _ Hsr _ [_ Hr]] H. eapply sim_regs; [done|lia|auto]. Qed.

Lemma ap_write V o inst st x v p n fl :
  alu_pre V o inst st x ->
  sim (add_reg V (dst inst)) (mk_state p (rset (reg st) (dst inst) v) (mem st))
    (mk_x n (upd (xr x) (mr (dst inst)) v) fl (xm x)).
Proof. intros [Hs Hw _ _ Hd _]. apply sim_write; [done|apply Hw|lia]. Qed.

Lemma rr_sim V o inst st x st' w a i :
  alu_pre V o inst st x -> rr_of o = Some (w, a) -> exec_alu o inst st = Some (Continue st') ->
  runs_to (asm_alu i o inst (mr (src inst)) (mr (dst inst))) x (add_reg V (dst inst)) st'.
Proof.
  intros Hp Ho He. apply exec_alu_value in He as (v & Hv & ->). pose proof (ap_wf _ _ _ _ _ Hp) as Hw.
  rewrite (rr_value o w a) in Hv by (done || apply rget_range, Hw). injection Hv as <-.
  destruct (rr_asm o w a i inst (mr (src inst)) (mr (dst inst)) Ho) as [-> Hwr].
  eexists [_], _. split; [reflexivity|]. cbn [xseq straight xexec]. rewrite Hwr. split; [reflexivity|].
  rewrite (ap_src_val V o inst st x Hp) by (by destruct o).
  assert (a = AMOV \/ reads_dst o = true) as [-> |Hr] by (destruct o; cbn in Ho; simplify_eq Ho; auto).
  - cbn [alu_val]. by apply ap_write with (o := o).
  - rewrite (ap_dst_val V o inst st x Hp Hr). by apply ap_write with (o := o).
Qed.

Lemma ri_sim V o inst st x st' w a i :
  alu_pre V o inst st x -> ri_of o = Some (w, a) -> exec_alu o inst st = Some (Continue st') ->
  runs_to (asm_alu i o inst (mr (src inst)) (mr (dst inst))) x (add_reg V (dst inst)) st'.
Proof.
  intros Hp Ho He. apply exec_alu_value in He as (v & Hv & ->). pose proof (ap_wf _ _ _ _ _ Hp) as Hw.
  rewrite (ri_value o w a) in Hv by (done || apply rget_range, Hw). injection Hv as <-.
  destruct (ri_asm o w a i inst (mr (src inst)) (mr (dst inst)) Ho) as [-> Hwr].
  eexists [_], _. split; [reflexivity|]. cbn [xseq straight xexec]. rewrite Hwr. split; [reflexivity|].
  assert (a = AMOV \/ reads_dst o = true) as [-> |Hr] by (destruct o; cbn in Ho; simplify_eq Ho; auto).
  - cbn [alu_val]. by apply ap_write with (o := o).
  - rewrite (ap_dst_val V o inst st x Hp Hr). by apply ap_write with (o := o).
Qed.

Lemma si_sim V o inst st x st' w a i :
  alu_pre V o inst st x -> si_of o = Some (w, a) -> 0 <= imm inst < width w ->
  exec_alu o inst st = Some (Continue st') ->
  runs_to (asm_alu i o inst (mr (src inst)) (mr (dst inst))) x (add_reg V (dst inst)) st'.
Proof.
  intros Hp Ho Hi He. apply exec_alu_value in He as (v & Hv & ->). pose proof (ap_wf _ _ _ _ _ Hp) as Hw.
  rewrite (si_value o w a) in Hv by (done || apply rget_range, Hw). injection Hv as <-.
  rewrite (si_asm o w a) by done. eexists [_], _. split; [reflexivity|]. cbn [xseq straight xexec]. split; [reflexivity|].
  rewrite (ap_dst_val V o inst st x Hp) by (by destruct o). by apply ap_write with (o := o).
Qed.

Lemma ap_temp V o inst st x t v n fl :
  alu_pre V o inst st x -> temp t -> t <> RSP -> alu_pre V o inst st (mk_x n (upd (xr x) t v) fl (xm x)).
Proof. intros [Hs ? ? ? ? ?] Ht Hn. split; try done. by apply sim_temp. Qed.

Lemma temp_rcx : temp RCX.
Proof. by left. Qed.

Lemma sr_sim V o inst st x st' w a i :
  alu_pre V o inst st x -> sr_of o = Some (w, a) -> exec_alu o inst st = Some (Continue st') ->
  runs_to (asm_alu i o inst (mr (src inst)) (mr (dst inst))) x (add_reg V (dst inst)) st'.
Proof.
  intros Hp Ho He. apply exec_alu_value in He as (v & Hv & ->). pose proof (ap_wf _ _ _ _ _ Hp) as Hw.
  apply (sr_value o w a) in Hv; [|apply rget_range, Hw|done]. subst v. rewrite (sr_asm o w a) by done.
  set (x1 := mk_x 0 (upd (xr x) RCX (wrap 64 (xr x (mr (src inst))))) (flags x) (xm x)).
  assert (alu_pre V o inst st x1) as Hp1 by (by apply ap_temp; [|apply temp_rcx|]).
  eexists [XAluRR true AMOV (mr (src inst)) RCX; _], _. split; [reflexivity|].
  cbn [xseq straight xexec writes alu_val alu_flags width]. fold x1. split; [reflexivity|].
  rewrite (ap_dst_val V o inst st x1 Hp1) by (by destruct o).
  assert (xr x1 RCX = rget (reg st) (src inst)) as ->.
  { unfold x1. cbn [xr]. rewrite upd_eq, (ap_src_val V o inst st x Hp) by (by destruct o).
    apply wrap_small, rget_range, Hw. }
  by apply ap_write with (o := o).
Qed.

Lemma neg_sim V (w : bool) inst st x st' i :
  let o := if w then EBPF_OP_NEG64 else EBPF_OP_NEG in
  alu_pre V o inst st x -> exec_alu o inst st = Some (Continue st') ->
  runs_to (asm_alu i o inst (mr (src inst)) (mr (dst inst))) x (add_reg V (dst inst)) st'.
Proof.
  intros o Hp He. apply exec_alu_value in He as (v & Hv & ->). rewrite (neg_value o w) in Hv by done. injection Hv as <-.
  eexists [XNeg w _], _. split; [by destruct w|]. cbn [xseq straight xexec]. split; [reflexivity|].
  rewrite (ap_dst_val V o inst st x Hp) by (by destruct w). by apply ap_write with (o := o).
Qed.

Lemma load_imm_val im : in_s 64 im -> forall d n x, xexec callee (mov_imm im d) n x = XNext (mk_x n (upd (xr x) d (wrap 64 im)) (flags x) (xm x)).
Proof. intros Him d n x. unfold mov_imm. by case_match. Qed.

Lemma straight_mov_imm im d : straight (mov_imm im d) = true.
Proof. unfold mov_imm. by case_match. Qed.

Lemma mov64_sim V inst st x st' i :
  alu_pre V EBPF_OP_MOV64_IMM inst st x -> exec_alu EBPF_OP_MOV64_IMM inst st = Some (Continue st') ->
  runs_to (asm_alu i EBPF_OP_MOV64_IMM inst (mr (src inst)) (mr (dst inst))) x (add_reg V (dst inst)) st'.
Proof.
  intros Hp He. apply exec_alu_value in He as (v & Hv & ->). injection Hv as <-.
  pose proof (ap_inst _ _ _ _ _ Hp) as (_ & _ & _ & _ & Him).
  eexists [mov_imm _ _], _. split; [reflexivity|]. cbn [xseq]. rewrite straight_mov_imm, load_imm_val.
  - split; [reflexivity|]. by apply ap_write with (o := EBPF_OP_MOV64_IMM).
  - unfold in_s in *. lia.
Qed.

(** The instruction leaves its register as it is. *)
Lemma same_value_sim V o inst st x :
  alu_pre V o inst st x -> reads_dst o = true ->
  sim (add_reg V (dst inst)) (mk_state (pc st) (rset (reg st) (dst inst) (rget (reg st) (dst inst))) (mem st)) x.
Proof.
  intros Hp Hr. pose proof (ap_write V o inst st x (rget (reg st) (dst inst)) (pc st) (rip x) (flags x) Hp) as H.
  destruct H as [H1 H2 H3 H4 H5]. split; try done.
  - intros r Hrr Hv. rewrite <- H1 by done. cbn [xr]. unfold upd.
    destruct (Z.eqb_spec (mr r) (mr (dst inst))) as [E|]; [|done]. rewrite E. by apply (ap_dst_val V o).
  - apply (sim_sp _ _ _ _ _ (ap_sim _ _ _ _ _ Hp)).
Qed.

Lemma end_sim V o inst st x st' i :
  o = EBPF_OP_LE \/ o = EBPF_OP_BE -> supported o inst = true ->
  alu_pre V o inst st x -> exec_alu o inst st = Some (Continue st') ->
  runs_to (asm_alu i o inst (mr (src inst)) (mr (dst inst))) x (add_reg V (dst inst)) st'.
Proof.
  intros Ho Hsup Hp He. apply exec_alu_value in He as (v & Hv & ->). pose proof (ap_wf _ _ _ _ _ Hp) as Hw.
  pose proof (rget_range (reg st) (dst inst) (wf_regs _ Hw)) as Hd. destruct Ho as [-> | ->].
  - cbn [supported] in Hsup. apply Z.eqb_eq in Hsup. unfold alu_value in Hv. cbn [exec_alu32] in Hv. rewrite Hsup in Hv.
    injection Hv as <-. rewrite wrap_small by done. exists [], x. split_and!; try done.
    by apply same_value_sim with (o := EBPF_OP_LE).
  - rewrite end_be_value in Hv by done. cbn [asm_alu].
    pose proof (ap_dst_val V EBPF_OP_BE inst st x Hp eq_refl) as Hx.
    destruct (imm inst =? 16); [|destruct (imm inst =? 32); [|destruct (imm inst =? 64)]]; injection Hv as <-.
    + eexists [XRol16 8 _; XAluRI false AAND 0xffff _], _. split; [reflexivity|].
      cbn [xseq straight xexec writes width alu_flags xr flags xm]. split; [reflexivity|]. rewrite upd_eq, Hx.
      eapply sim_ext; [by apply (ap_write V EBPF_OP_BE inst st x _ (pc st) 0 None)| |done].
      intros r. cbn [xr]. unfold upd. by case_match.
    + eexists [XBswap false _], _. split; [reflexivity|]. cbn [xseq straight xexec]. split; [reflexivity|].
      rewrite Hx. by apply ap_write with (o := EBPF_OP_BE).
    + eexists [XBswap true _], _. split; [reflexivity|]. cbn [xseq straight xexec]. split; [reflexivity|].
      rewrite Hx. by apply ap_write with (o := EBPF_OP_BE).
    + exists [], x. split_and!; try done. by apply same_value_sim with (o := EBPF_OP_BE).
Qed.

(** ** Multiplication and division *)

Lemma xseq_app xs ys x : xseq (xs ++ ys) x = xseq xs x ≫= xseq ys.
Proof.
  revert x. induction xs as [|i xs IH]; intros x; cbn [app xseq]; [done|].
  destruct (straight i); [|done]. by destruct (xexec callee i 0 x).
Qed.

Lemma push_spec x a r :
  xr x RSP = a + 8 -> 0 <= a < 2 ^ 64 -> mapped (xm x) a 8 ->
  exists M, xexec callee (XPush r) 0 x = XNext (mk_x 0 (upd (xr x) RSP a) (flags x) M) /\
    load_le M a 8 = Some (wrap 64 (xr x r)) /\
    (forall i, ~ (a <= i < a + 8) -> M !! i = xm x !! i) /\ dom M = dom (xm x).
Proof.
  intros Hs Ha Hm. destruct (proj1 (store_le_mapped (xm x) a 8 (xr x r)) Hm) as [M HM]. exists M.
  cbn [xexec]. rewrite Hs. replace (a + 8 - 8) with a by lia. rewrite (wrap_small 64 a) by done. rewrite HM.
  split_and!; [done| | |by eapply store_le_dom].
  - by apply load_store_le in HM.
  - intros i Hi. by eapply store_le_frame in HM.
Qed.

Lemma pop_spec x a r v :
  xr x RSP = a -> 0 <= a -> a + 8 < 2 ^ 64 -> load_le (xm x) a 8 = Some v ->
  xexec callee (XPop r) 0 x = XNext (mk_x 0 (upd (upd (xr x) RSP (a + 8)) r v) (flags x) (xm x)).
Proof. intros Hs Ha Ha' Hl. cbn [xexec]. rewrite Hs, Hl. rewrite wrap_small by (unfold in_u; lia). done. Qed.

Lemma xseq_pop x a r v xs :
  xr x RSP = a -> 0 <= a -> a + 8 < 2 ^ 64 -> load_le (xm x) a 8 = Some v ->
  xseq (XPop r :: xs) x = xseq xs (mk_x 0 (upd (upd (xr x) RSP (a + 8)) r v) (flags x) (xm x)).
Proof. intros. cbn [xseq straight]. by rewrite (pop_spec x a r v). Qed.

Lemma xseq_add_rsp x a n xs :
  xr x RSP = a -> 0 <= n -> 0 <= a -> a + n < 2 ^ 64 ->
  xseq (XAluRI true AADD n RSP :: xs) x = xseq xs (mk_x 0 (upd (xr x) RSP (a + n)) None (xm x)).
Proof.
  intros Hx Hn Ha Hl. cbn [xseq straight xexec writes alu_val width alu_flags]. rewrite Hx.
  by rewrite !(wrap_small 64) by (rewrite ?(wrap_small 64); unfold in_u; lia).
Qed.

Definition save (d : Z) : list xinst :=
  opt_list (negb (d =? RAX)) [XPush RAX] ++ opt_list (negb (d =? RDX)) [XPush RDX].
(** [hi]: the result is in RDX. *)
Definition restore (h : bool) (d : Z) : list xinst :=
  opt_list (negb (d =? RDX)) (opt_list h [XAluRR true AMOV RDX d] ++ [XPop RDX]) ++
  opt_list (negb (d =? RAX)) (opt_list (negb h) [XAluRR true AMOV RAX d] ++ [XPop RAX]).

(** The middle computes [v] into RDX or RAX and touches RCX besides. *)
Definition computes (mid : list xinst) (h : bool) (v : Z) (x : xstate) : Prop :=
  forall y, (forall r, r <> RSP -> xr y r = xr x r) ->
  exists z, xseq mid y = Some z /\ xm z = xm y /\ xr z (if h then RDX else RAX) = v /\
    (forall r, r <> RAX -> r <> RDX -> r <> RCX -> xr z r = xr y r).

(** The result is in [d], and the other registers are as they were. *)
Definition delivers (xs : list xinst) (d v : Z) (x : xstate) : Prop :=
  exists z, xseq xs x = Some z /\ xr z d = v /\ xr z RSP = sp /\
    (forall r, r <> d -> r <> RCX -> r <> RSP -> in_u 64 (xr x r) -> xr z r = xr x r) /\
    (forall a, ~ (sp - 16 <= a < sp) -> xm z !! a = xm x !! a) /\ dom (xm z) = dom (xm x).

Lemma mov_spec s d x :
  xexec callee (XAluRR true AMOV s d) 0 x = XNext (mk_x 0 (upd (xr x) d (wrap 64 (xr x s))) (flags x) (xm x)).
Proof. reflexivity. Qed.

Ltac deliver_tail Hzm Hzr Hy Hfr Hdom :=
  eexists; (split; [reflexivity|]); split_and!;
  [ regs; rewrite ?wrap_small by done; done
  | regs; lia
  | intros r ? ? ? ?; cbn [xr];
    repeat match goal with |- context [upd _ ?t _ r] =>
      destruct (decide (r = t)) as [->|]; [first [done | regs; by rewrite ?wrap_small]|rewrite (upd_ne _ t r) by done] end;
    rewrite Hzr by done; by apply Hy
  | intros a Ha; cbn [xm]; rewrite ?Hzm; rewrite ?Hfr by lia; done
  | cbn [xm]; rewrite ?Hzm; exact Hdom ].

Lemma deliver_rax mid h v x :
  xr x RSP = sp -> mapped (xm x) (sp - 8) 8 -> in_u 64 v -> computes mid h v x ->
  delivers (save RAX ++ mid ++ restore h RAX) RAX v x.
Proof using Hsp.
  intros Hs Hm Hv Hc. destruct (push_spec x (sp - 8) RDX) as (M & Hpush & Hl & Hfr & Hdom); [lia|clia|done|].
  set (y := mk_x 0 (upd (xr x) RSP (sp - 8)) (flags x) M) in *.
  assert (forall r, r <> RSP -> xr y r = xr x r) as Hy by (intros; by apply upd_ne).
  destruct (Hc y Hy) as (z & Hz & Hzm & Hzv & Hzr).
  assert (xr z RSP = sp - 8) as Hzs by (rewrite Hzr by done; apply upd_eq).
  unfold delivers, save, restore. change (negb (RAX =? RAX)) with false. change (negb (RAX =? RDX)) with true.
  cbn [opt_list app xseq straight]. rewrite Hpush, xseq_app, Hz. cbn [mbind option_bind].
  destruct h; cbn [opt_list app negb xseq straight]; rewrite ?mov_spec;
    (rewrite (pop_spec _ (sp - 8) _ (wrap 64 (xr x RDX))); [|regs; done|clia|clia|cbn [xm]; by rewrite Hzm]).
  all: rewrite ?Hzv; deliver_tail Hzm Hzr Hy Hfr Hdom.
Qed.

Lemma deliver_rdx mid h v x :
  xr x RSP = sp -> mapped (xm x) (sp - 8) 8 -> in_u 64 v -> computes mid h v x ->
  delivers (save RDX ++ mid ++ restore h RDX) RDX v x.
Proof using Hsp.
  intros Hs Hm Hv Hc. destruct (push_spec x (sp - 8) RAX) as (M & Hpush & Hl & Hfr & Hdom); [lia|clia|done|].
  set (y := mk_x 0 (upd (xr x) RSP (sp - 8)) (flags x) M) in *.
  assert (forall r, r <> RSP -> xr y r = xr x r) as Hy by (intros; by apply upd_ne).
  destruct (Hc y Hy) as (z & Hz & Hzm & Hzv & Hzr).
  assert (xr z RSP = sp - 8) as Hzs by (rewrite Hzr by done; apply upd_eq).
  unfold delivers, save, restore. change (negb (RDX =? RAX)) with true. change (negb (RDX =? RDX)) with false.
  cbn [opt_list app xseq straight]. rewrite Hpush, xseq_app, Hz. cbn [mbind option_bind].
  destruct h; cbn [opt_list app negb xseq straight]; rewrite ?mov_spec;
    (rewrite (pop_spec _ (sp - 8) _ (wrap 64 (xr x RAX))); [|regs; done|clia|clia|cbn [xm]; by rewrite Hzm]).
  all: rewrite ?Hzv; deliver_tail Hzm Hzr Hy Hfr Hdom.
Qed.

Lemma deliver_other mid h v x d :
  d <> RAX -> d <> RDX -> d <> RSP -> d <> RCX ->
  xr x RSP = sp -> mapped (xm x) (sp - 16) 16 -> in_u 64 v -> computes mid h v x ->
  delivers (save d ++ mid ++ restore h d) d v x.
Proof using Hsp.
  intros N1 N2 N3 N4 Hs Hm Hv Hc.
  destruct (push_spec x (sp - 8) RAX) as (M1 & Hpush1 & Hl1 & Hfr1 & Hdom1); [lia|clia| |].
  { intros i Hi. apply Hm. lia. }
  set (x1 := mk_x 0 (upd (xr x) RSP (sp - 8)) (flags x) M1) in *.
  destruct (push_spec x1 (sp - 16) RDX) as (M2 & Hpush2 & Hl2 & Hfr2 & Hdom2); [unfold x1; regs; lia|clia| |].
  { intros i Hi. apply elem_of_dom. unfold x1. cbn [xm]. rewrite Hdom1. apply elem_of_dom, Hm. lia. }
  set (y := mk_x 0 (upd (xr x1) RSP (sp - 16)) (flags x1) M2) in *.
  assert (forall r, r <> RSP -> xr y r = xr x r) as Hy by (intros; unfold y, x1; cbn [xr]; by rewrite !upd_ne).
  destruct (Hc y Hy) as (z & Hz & Hzm & Hzv & Hzr).
  change (xm y) with M2 in Hzm. assert (xr z RSP = sp - 16) as Hzs by (rewrite Hzr by done; apply upd_eq).
  assert (load_le M2 (sp - 8) 8 = Some (wrap 64 (xr x RAX))) as Hl1'.
  { rewrite <- Hl1. apply load_le_ext. intros i Hi. apply Hfr2. lia. }
  assert (wrap 64 (xr x1 RDX) = wrap 64 (xr x RDX)) as E2 by (unfold x1; by regs).
  assert (forall a, ~ (sp - 16 <= a < sp) -> M2 !! a = xm x !! a) as Hfr.
  { intros a Ha. rewrite Hfr2 by lia. apply Hfr1. lia. }
  assert (dom M2 = dom (xm x)) as Hdom by (rewrite Hdom2; exact Hdom1).
  unfold delivers, save, restore.
  rewrite (proj2 (Z.eqb_neq d RAX)), (proj2 (Z.eqb_neq d RDX)) by done.
  cbn [opt_list app negb xseq straight]. rewrite Hpush1, Hpush2, xseq_app, Hz. cbn [mbind option_bind].
  destruct h; cbn [opt_list app negb xseq straight]; rewrite ?mov_spec;
    (rewrite (pop_spec _ (sp - 16) _ (wrap 64 (xr x RDX))); [|regs; done|clia|clia|cbn [xm]; by rewrite Hzm, Hl2, E2]);
    rewrite ?mov_spec;
    (rewrite (pop_spec _ (sp - 8) _ (wrap 64 (xr x RAX))); [|regs; lia|clia|clia|cbn [xm]; by rewrite Hzm]).
  all: regs; rewrite ?Hzv.
  all: deliver_tail Hzm Hzr Hy Hfr Hdom.
Qed.

Lemma deliver mid h v V st x r :
  sim V st x -> 0 <= r <= 10 -> in_u 64 v -> computes mid h v x ->
  delivers (save (mr r) ++ mid ++ restore h (mr r)) (mr r) v x.
Proof using Hsp.
  intros Hs Hr Hv Hc. pose proof (sim_sp _ _ _ _ _ Hs) as Hx.
  assert (forall k, 0 <= k <= 16 -> mapped (xm x) (sp - k) (Z.to_nat k)) as Hm.
  { intros k Hk i Hi. apply (sim_scratch _ _ _ _ _ Hs). lia. }
  assert (mr r <> RCX /\ mr r <> RSP) as [? ?] by (split; apply mr_temp; unfold temp; auto).
  destruct (decide (mr r = RAX)) as [->|]; [apply deliver_rax; try done; by apply (Hm 8)|].
  destruct (decide (mr r = RDX)) as [->|]; [apply deliver_rdx; try done; by apply (Hm 8)|].
  apply deliver_other; try done. by apply (Hm 16).
Qed.

(** [ldc] puts [c] into RCX. *)
Definition loads (ldc : xinst) (c : Z) (x : xstate) : Prop :=
  straight ldc = true /\
  forall y, (forall r, r <> RSP -> xr y r = xr x r) ->
    xexec callee ldc 0 y = XNext (mk_x 0 (upd (xr y) RCX c) (flags y) (xm y)).

Lemma loads_imm im x : in_s 32 im -> loads (mov_imm im RCX) (wrap 64 im) x.
Proof.
  intros Him. split; [apply straight_mov_imm|]. intros y _. apply load_imm_val. unfold in_s in *. lia.
Qed.

Lemma loads_reg s x : s <> RSP -> loads (XAluRR true AMOV s RCX) (wrap 64 (xr x s)) x.
Proof. intros Hs. split; [done|]. intros y Hy. by rewrite mov_spec, Hy. Qed.

Lemma computes_mul ldc c w d x :
  loads ldc c x -> d <> RSP -> d <> RCX ->
  computes [ldc; XAluRR true AMOV d RAX; XMul w RCX] false
    (wrap (width w) (wrap (width w) (xr x d) * wrap (width w) c)) x.
Proof.
  intros [Hst Hl] N1 N2 y Hy. cbn [xseq]. rewrite Hst, (Hl y Hy). cbn [straight]. rewrite mov_spec.
  eexists. split; [cbn [xexec]; reflexivity|]. cbn [xr xm]. split_and!; try done.
  - regs. rewrite Hy by done. rewrite wrap_wrap_le by (destruct w; cbn; lia). done.
  - intros r H1 H2 H3. by rewrite !upd_ne.
Qed.

Lemma computes_div ldc c w (md : bool) d x :
  loads ldc c x -> d <> RSP -> d <> RCX -> wrap (width w) c <> 0 ->
  computes [ldc; XAluRR true AMOV d RAX; XAluRR false AXOR RDX RDX; XDiv w RCX] md
    (if md then (wrap (width w) (xr x d)) mod (wrap (width w) c) else (wrap (width w) (xr x d)) / (wrap (width w) c)) x.
Proof.
  intros [Hst Hl] N1 N2 Hc y Hy. cbn [xseq]. rewrite Hst, (Hl y Hy). cbn [straight]. rewrite mov_spec.
  cbn [xexec writes alu_val width alu_flags xr flags xm]. rewrite Z.lxor_nilpotent. regs.
  assert (wrap (width w) 0 = 0) as -> by (by destruct w). rewrite Z.mul_0_l, Z.add_0_l. rewrite Hy by done.
  rewrite wrap_wrap_le by (destruct w; cbn; lia).
  assert (0 <= width w) as HW by (destruct w; cbn; lia).
  pose proof (wrap_range (width w) c HW) as R1. pose proof (wrap_range (width w) (xr x d) HW) as R2.
  unfold in_u in R1, R2. destruct (Z.eqb_spec (wrap (width w) c) 0); [done|]. cbn [orb].
  destruct (Z.leb_spec (2 ^ width w) (wrap (width w) (xr x d) / wrap (width w) c)) as [Hbig|].
  { assert (wrap (width w) (xr x d) / wrap (width w) c <= wrap (width w) (xr x d)); [|lia].
    apply Z.div_le_upper_bound; nia. }
  eexists. split; [reflexivity|]. cbn [xr xm]. split_and!; try done.
  - destruct md; by regs.
  - intros r H1 H2 H3. by rewrite !upd_ne.
Qed.

(** From the register contents to the relation. *)
Lemma delivered V o inst st x xs v :
  alu_pre V o inst st x -> delivers xs (mr (dst inst)) v x ->
  exists y, xseq xs x = Some y /\
    sim (add_reg V (dst inst)) (mk_state (pc st) (rset (reg st) (dst inst) v) (mem st)) y.
Proof.
  intros Hp (z & Hz & Hv & Hs & Hr & Hm & Hdom). exists z. split; [done|]. pose proof Hp as [Hsim Hw _ _ Hd _].
  eapply sim_result; try done; [apply Hw|lia|]. intros r Hrr Hne HV. apply Hr.
  - intros E%mr_inj; [done|done|lia].
  - apply mr_temp; [done|unfold temp; auto].
  - apply mr_temp; [done|unfold temp; auto].
  - rewrite (sim_regs _ _ _ _ _ Hsim) by done. apply rget_range, Hw.
Qed.

Definition ldc_of (src im : Z) : xinst := if negb (im =? 0) then mov_imm im RCX else XAluRR true AMOV src RCX.

Lemma asm_mul_shape w pc src dst im :
  asm_muldivmod true false false w pc src dst im =
  AI <$> (save dst ++ [ldc_of src im; XAluRR true AMOV dst RAX; XMul w RCX] ++ restore false dst).
Proof.
  unfold asm_muldivmod, save, restore, ldc_of. by destruct (negb (dst =? RAX)), (negb (dst =? RDX)), (negb (im =? 0)).
Qed.

Definition div_tail (w md : bool) (src dst im : Z) : list xinst :=
  save dst ++ [ldc_of src im; XAluRR true AMOV dst RAX; XAluRR false AXOR RDX RDX; XDiv w RCX] ++ restore md dst.

Lemma asm_div_shape w md pc src dst im :
  asm_muldivmod false (negb md) md w pc src dst im =
  [AI (mov_imm (u16 pc) RCX); AI (XAluRR w ATEST src src); AJcc CE TARGET_PC_DIV_BY_ZERO] ++
  (AI <$> div_tail w md src dst im).
Proof.
  unfold asm_muldivmod, div_tail, save, restore, ldc_of.
  by destruct md, (negb (dst =? RAX)), (negb (dst =? RDX)), (negb (im =? 0)).
Qed.

Lemma mul_sim V o inst st x st' w i :
  alu_pre V o inst st x -> mul_of o = Some w -> supported o inst = true ->
  exec_alu o inst st = Some (Continue st') ->
  runs_to (asm_alu i o inst (mr (src inst)) (mr (dst inst))) x (add_reg V (dst inst)) st'.
Proof using Hsp.
  intros Hp Ho Hsup He. apply exec_alu_value in He as (v & Hv & ->). pose proof Hp as [Hsim Hw Hi Hs Hd Hr].
  assert (mr (dst inst) <> RCX /\ mr (dst inst) <> RSP) as [? ?] by (split; apply mr_temp; unfold temp; auto; lia).
  assert (mr (src inst) <> RSP) by (apply mr_temp; unfold temp; auto; lia).
  set (c := match o with EBPF_OP_MUL_IMM | EBPF_OP_MUL64_IMM => u64 (imm inst) | _ => rget (reg st) (src inst) end).
  rewrite (mul_value o w _ _ _ c) in Hv by done. injection Hv as <-.
  assert (asm_alu i o inst (mr (src inst)) (mr (dst inst)) =
          Some (asm_muldivmod true false false w i (mr (src inst)) (mr (dst inst)) (imm inst))) as ->.
  { destruct o; cbn [mul_of] in Ho; try done; by injection Ho as <-. }
  rewrite asm_mul_shape.
  assert (loads (ldc_of (mr (src inst)) (imm inst)) c x) as Hld.
  { destruct Hi as (_ & _ & _ & _ & Him). unfold ldc_of.
    destruct o; cbn [mul_of supported] in *; try done; subst c; cbv beta iota; rewrite ?Hsup; try (by apply loads_imm).
    all: apply Z.eqb_eq in Hsup; rewrite Hsup; cbn [negb Z.eqb];
      erewrite <- (ap_src_val _ _ _ _ _ Hp) by done; rewrite <- (wrap_small 64 (xr x (mr (src inst)))) at 1; try (by apply loads_reg);
      erewrite (ap_src_val _ _ _ _ _ Hp) by done; apply rget_range, Hw. }
  rewrite <- (ap_dst_val _ _ _ _ _ Hp) by (by destruct o).
  assert (0 <= width w <= 64) as HW by (destruct w; cbn; lia).
  assert (exists y, xseq (save (mr (dst inst)) ++ [ldc_of (mr (src inst)) (imm inst); XAluRR true AMOV (mr (dst inst)) RAX;
      XMul w RCX] ++ restore false (mr (dst inst))) x = Some y /\ sim (add_reg V (dst inst)) (mk_state (pc st)
      (rset (reg st) (dst inst) (wrap (width w) (wrap (width w) (xr x (mr (dst inst))) * wrap (width w) c))) (mem st)) y)
    as (y & Hy & Hsy).
  { eapply delivered; [done|]. eapply deliver; [done|lia| |by apply computes_mul].
    apply (in_u_mono (width w)); [done|]. apply wrap_range. lia. }
  eexists _, y. done.
Qed.

(** Behind the test for zero. *)
Lemma div_sim V o inst st x st' w md :
  alu_pre V o inst st x -> div_of o = Some (w, md) -> supported o inst = true ->
  exec_alu o inst st = Some (Continue st') ->
  exists y, xseq (div_tail w md (mr (src inst)) (mr (dst inst)) (imm inst)) x = Some y /\ sim (add_reg V (dst inst)) st' y.
Proof using Hsp.
  intros Hp Ho Hsup He. apply exec_alu_value in He as (v & Hv & ->). pose proof Hp as [Hsim Hw Hi Hs Hd Hr].
  assert (mr (dst inst) <> RCX /\ mr (dst inst) <> RSP) as [? ?] by (split; apply mr_temp; unfold temp; auto; lia).
  assert (mr (src inst) <> RSP) by (apply mr_temp; unfold temp; auto; lia).
  pose proof (rget_range (reg st) (src inst) (wf_regs _ Hw)) as R1.
  pose proof (rget_range (reg st) (dst inst) (wf_regs _ Hw)) as R2.
  apply (div_value o w md) in Hv as [Hnz ->]; try done.
  assert (imm inst = 0) as Hi0 by (destruct o; cbn [div_of supported] in *; try done; by apply Z.eqb_eq).
  unfold div_tail, ldc_of. rewrite Hi0. cbn [negb Z.eqb].
  assert (loads (XAluRR true AMOV (mr (src inst)) RCX) (rget (reg st) (src inst)) x) as Hld.
  { rewrite <- (ap_src_val _ _ _ _ _ Hp) by (by destruct o). rewrite <- (wrap_small 64 (xr x (mr (src inst)))).
    - by apply loads_reg.
    - by rewrite (ap_src_val _ _ _ _ _ Hp) by (by destruct o). }
  rewrite <- (ap_dst_val _ _ _ _ _ Hp) by (by destruct o).
  eapply delivered; [done|]. eapply deliver; [done|lia| |by apply computes_div].
  assert (0 <= width w <= 64) as HW by (destruct w; cbn; lia). apply (in_u_mono (width w)); [done|].
  pose proof (wrap_range (width w) (rget (reg st) (src inst)) ltac:(lia)) as W1.
  pose proof (wrap_range (width w) (xr x (mr (dst inst))) ltac:(lia)) as W2. unfold in_u in *.
  destruct md.
  - pose proof (Z.mod_pos_bound (wrap (width w) (xr x (mr (dst inst)))) (wrap (width w) (rget (reg st) (src inst)))). lia.
  - split; [apply Z.div_pos; lia|]. apply Z.div_lt_upper_bound; nia.
Qed.

(** ** All straight arithmetic *)

Lemma alu_sim V o inst st x st' i :
  alu_pre V o inst st x -> supported o inst = true -> div_of o = None ->
  (forall w k, alu_classify o = Some (w, k, false) -> is_shift k = true -> 0 <= imm inst < w) ->
  exec_alu o inst st = Some (Continue st') ->
  runs_to (asm_alu i o inst (mr (src inst)) (mr (dst inst))) x (add_reg V (dst inst)) st'.
Proof using Hsp.
  intros Hp Hsup Hdiv Hsh He.
  destruct (rr_of o) as [[w a]|] eqn:E1; [by eapply rr_sim|].
  destruct (ri_of o) as [[w a]|] eqn:E2; [by eapply ri_sim|].
  destruct (si_of o) as [[w a]|] eqn:E3.
  { eapply si_sim; try done.
    destruct o; cbn [si_of] in E3; try done; injection E3 as <- <-; cbn [width]; eapply Hsh; reflexivity. }
  destruct (sr_of o) as [[w a]|] eqn:E4; [by eapply sr_sim|].
  destruct (mul_of o) as [w|] eqn:E5; [by eapply mul_sim|].
  destruct o; cbn [rr_of ri_of si_of sr_of mul_of div_of supported] in *; try done;
    first [ exact (neg_sim V false inst st x st' i Hp He) | exact (neg_sim V true inst st x st' i Hp He)
          | by eapply end_sim; eauto | by eapply mov64_sim | discriminate He ].
Qed.

(** ** Loads and stores *)

Definition load_of (o : ebpf_op) : option operand_size :=
  match o with
  | EBPF_OP_LDXB => Some S8 | EBPF_OP_LDXH => Some S16 | EBPF_OP_LDXW => Some S32 | EBPF_OP_LDXDW => Some S64
  | _ => None
  end.
Definition stx_of (o : ebpf_op) : option operand_size :=
  match o with
  | EBPF_OP_STXB => Some S8 | EBPF_OP_STXH => Some S16 | EBPF_OP_STXW => Some S32 | EBPF_OP_STXDW => Some S64
  | _ => None
  end.
Definition st_of (o : ebpf_op) : option operand_size :=
  match o with
  | EBPF_OP_STB => Some S8 | EBPF_OP_STH => Some S16 | EBPF_OP_STW => Some S32 | EBPF_OP_STDW => Some S64
  | _ => None
  end.

(** What the two sides of a memory instruction hold; a store may go through R10. *)
Record mem_pre (V : Z -> bool) (o : ebpf_op) (inst : ebpf_inst) (st : exec_state) (x : xstate) : Prop := {
  mp_sim : sim V st x;
  mp_wf : wf_state st;
  mp_inst : wf_inst inst;
  mp_src : 0 <= src inst <= 10;
  mp_dst : 0 <= dst inst <= 10;
  mp_reads : reads_ok V o inst
}.

Lemma load_sim V o inst st x st' env prog s inst2 :
  mem_pre V o inst st x -> load_of o = Some s -> exec_mem env prog o inst st = Some (Continue st') ->
  runs_to (asm_mem o inst inst2 (mr (src inst)) (mr (dst inst))) x (add_reg V (dst inst)) st'.
Proof.
  intros [Hsim Hw Hi Hs Hd [_ Hr]] Ho He.
  assert (asm_mem o inst inst2 (mr (src inst)) (mr (dst inst)) =
          Some [AI (XLoad s (mr (src inst)) (offset inst) (mr (dst inst)))] /\
          exec_load env inst (size_bytes s) st = Continue st') as [-> Hl].
  { destruct o; cbn [load_of] in Ho; try done; injection Ho as <-; cbn [exec_mem] in He; by injection He. }
  unfold exec_load in Hl. destruct (env_check _ _ _); [|done].
  destruct (load_le (mem st) _ _) as [v|] eqn:Hv; [|done]. injection Hl as <-.
  eexists [_], _. split; [reflexivity|]. cbn [xseq straight xexec].
  rewrite (sim_regs _ _ _ _ _ Hsim) by (try lia; apply Hr; by destruct o).
  rewrite (load_mono _ _ _ _ _ (sim_mem _ _ _ _ _ Hsim) Hv). split; [reflexivity|].
  apply sim_write; [done|apply Hw|done].
Qed.

Lemma stx_sim V o inst st x st' env prog s inst2 :
  mem_pre V o inst st x -> stx_of o = Some s -> exec_mem env prog o inst st = Some (Continue st') ->
  runs_to (asm_mem o inst inst2 (mr (src inst)) (mr (dst inst))) x V st'.
Proof.
  intros [Hsim Hw Hi Hs Hd [Hr1 Hr2]] Ho He.
  assert (asm_mem o inst inst2 (mr (src inst)) (mr (dst inst)) =
          Some [AI (XStore s (mr (src inst)) (mr (dst inst)) (offset inst))] /\
          exec_store env inst (size_bytes s) (rget (reg st) (src inst)) st = Continue st') as [-> Hl].
  { destruct o; cbn [stx_of] in Ho; try done; injection Ho as <-; cbn [exec_mem] in He; by injection He. }
  unfold exec_store in Hl. destruct (env_check _ _ _); [|done].
  destruct (store_le (mem st) _ _ _) as [m'|] eqn:Hv; [|done]. injection Hl as <-.
  destruct (sim_store sp saved V st x _ _ _ m' (pc st) Hsim Hv) as (M' & HM & Hs').
  eexists [_], _. split; [reflexivity|]. cbn [xseq straight xexec].
  rewrite !(sim_regs _ _ _ _ _ Hsim) by (first [lia | apply Hr1; by destruct o | apply Hr2; by destruct o]).
  rewrite HM. split; [reflexivity|]. apply Hs'.
Qed.

Lemma trunc_imm_cong s im :
  (u64 (trunc_imm s im)) mod 256 ^ Z.of_nat (size_bytes s) = im mod 256 ^ Z.of_nat (size_bytes s).
Proof.
  replace (256 ^ Z.of_nat (size_bytes s)) with (2 ^ (8 * Z.of_nat (size_bytes s))) by (by destruct s).
  change (wrap (8 * Z.of_nat (size_bytes s)) (u64 (trunc_imm s im)) = wrap (8 * Z.of_nat (size_bytes s)) im).
  rewrite wrap_wrap_le by (destruct s; cbn; lia). destruct s; cbn [trunc_imm]; try done; by apply wrap_sext.
Qed.

Lemma st_sim V o inst st x st' env prog s inst2 :
  mem_pre V o inst st x -> st_of o = Some s -> exec_mem env prog o inst st = Some (Continue st') ->
  runs_to (asm_mem o inst inst2 (mr (src inst)) (mr (dst inst))) x V st'.
Proof.
  intros [Hsim Hw Hi Hs Hd [Hr1 Hr2]] Ho He.
  assert (asm_mem o inst inst2 (mr (src inst)) (mr (dst inst)) =
          Some [AI (XStoreImm s (trunc_imm s (imm inst)) (mr (dst inst)) (offset inst))] /\
          exec_store env inst (size_bytes s) (imm inst) st = Continue st') as [-> Hl].
  { destruct o; cbn [st_of] in Ho; try done; injection Ho as <-; cbn [exec_mem] in He; by injection He. }
  unfold exec_store in Hl. destruct (env_check _ _ _); [|done].
  destruct (store_le (mem st) _ _ _) as [m'|] eqn:Hv; [|done]. injection Hl as <-.
  destruct (sim_store sp saved V st x _ _ _ m' (pc st) Hsim Hv) as (M' & HM & Hs').
  eexists [_], _. split; [reflexivity|]. cbn [xseq straight xexec].
  rewrite !(sim_regs _ _ _ _ _ Hsim) by (first [lia | apply Hr1; by destruct o]).
  rewrite (store_le_cong _ _ _ _ (imm inst)) by apply trunc_imm_cong.
  rewrite HM. split; [reflexivity|]. apply Hs'.
Qed.

Lemma lddw_sim V inst st x st' env prog inst2 :
  mem_pre V EBPF_OP_LDDW inst st x -> prog !! Z.to_nat (pc st) = Some inst2 ->
  exec_mem env prog EBPF_OP_LDDW inst st = Some (Continue st') ->
  runs_to (asm_mem EBPF_OP_LDDW inst inst2 (mr (src inst)) (mr (dst inst))) x (add_reg V (dst inst)) st'.
Proof.
  intros [Hsim Hw Hi Hs Hd _] Hp He. cbn [exec_mem] in He. rewrite Hp in He. injection He as <-.
  set (v := Z.lor (u32 (imm inst)) (u64 (Z.shiftl (imm inst2) 32))).
  assert (in_u 64 v) as Hv.
  { apply lor_range; [lia| |apply wrap_range; lia]. apply in_u_32_64, wrap_range. lia. }
  eexists [mov_imm (s64 v) _], _. split; [reflexivity|]. cbn [xseq]. rewrite straight_mov_imm, load_imm_val.
  - split; [reflexivity|]. rewrite wrap_sext, (wrap_small 64 v) by (done || lia). apply sim_write; [done|apply Hw|done].
  - apply sext_range. lia.
Qed.
End Inst.
