(* ===== verification/JitSound.v ===== *)
(** * The compiled program against the interpreter

    A program on which the compiler and the interpreter agree instruction by instruction
    returns from the compiled code what [ubpf_exec] returns. *)

From S2P Require Import Prelude Ebpf Memory Vm Interp InterpProps ValidateInsts ValidateCfg.
From S2P Require Import ExecSafety MapDef.
From S2P Require Import X86 JitEnc Jit JitEmit JitAsm JitCode JitRun JitAlu JitSim JitInst.

(** ** Registers that hold a value *)

(** The registers valid behind an instruction: a call keeps r6 to r10 and sets r0. *)
Definition writes_dst (o : ebpf_op) : bool :=
  match alu_value o 0 0 0 with
  | Some _ => true
  | None => match o with EBPF_OP_LDXB | EBPF_OP_LDXH | EBPF_OP_LDXW | EBPF_OP_LDXDW | EBPF_OP_LDDW => true | _ => false end
  end.

Definition post (V : Z -> bool) (o : ebpf_op) (inst : ebpf_inst) : Z -> bool :=
  match o with
  | EBPF_OP_CALL => fun r => (r =? 0) || (V r && negb ((1 <=? r) && (r <=? 5)))
  | _ => if writes_dst o then add_reg V (dst inst) else V
  end.

(** The registers listed for each slot. *)
Definition valid (Vs : list (list Z)) (i : nat) (r : Z) : bool :=
  match Vs !! i with Some l => bool_decide (r ∈ l) | None => false end.

Definition regs11 : list Z := [0; 1; 2; 3; 4; 5; 6; 7; 8; 9; 10].

(** Slot [i] is supported, reads valid registers only, and leaves what its successors
    list; [nargs] is the number of arguments of an external function. *)
Definition slot_typed (nargs : Z -> Z) (prog : list ebpf_inst) (Vs : list (list Z)) (i : nat) : bool :=
  match prog !! i with
  | None => false
  | Some inst =>
      match op_of_opcode (opcode inst) with
      | None => true
      | Some o =>
          let V := valid Vs i in
          supported o inst && (negb (reads_dst o) || V (dst inst)) && (negb (reads_src o) || V (src inst)) &&
          match o with
          | EBPF_OP_CALL => forallb (fun r => negb (r <=? nargs (imm inst)) || V r) [1; 2; 3; 4; 5]
          | EBPF_OP_EXIT => V 0
          | _ => true
          end &&
          forallb (fun j => forallb (fun r => negb (valid Vs (Z.to_nat j) r) || post V o inst r) regs11)
            (next_pcs inst o (Z.of_nat i))
      end
  end.

(** On entry r1 and r10 are set. *)
Definition typed (nargs : Z -> Z) (prog : list ebpf_inst) (Vs : list (list Z)) : bool :=
  forallb (slot_typed nargs prog Vs) (seq 0 (length prog)) &&
  forallb (fun r => negb (valid Vs 0 r) || (r =? 1) || (r =? 10)) regs11.

(** ** Runs *)

(** The runs of the interpreter that end with EXIT or with a division by zero, not
    with an access out of bounds. *)
Inductive clean (vm : ubpf_vm) (env : exec_env) (prog : list ebpf_inst) : exec_state -> Z -> memory -> Prop :=
| clean_exit st inst :
    prog !! Z.to_nat (pc st) = Some inst -> op_of_opcode (opcode inst) = Some EBPF_OP_EXIT ->
    clean vm env prog st (rget (reg st) 0) (mem st)
| clean_div st inst o :
    prog !! Z.to_nat (pc st) = Some inst -> op_of_opcode (opcode inst) = Some o ->
    alu_value o (rget (reg st) (dst inst)) (rget (reg st) (src inst)) (imm inst) = Some ADivZero ->
    clean vm env prog st UINT64_MAX (mem st)
| clean_step st st' v m :
    exec_step vm env prog st = Continue st' -> clean vm env prog st' v m -> clean vm env prog st v m.

Lemma exec_alu_divzero o inst st :
  alu_value o (rget (reg st) (dst inst)) (rget (reg st) (src inst)) (imm inst) = Some ADivZero ->
  exec_alu o inst st = Some (Return UINT64_MAX (mem st)).
Proof.
  unfold alu_value, exec_alu. destruct (exec_alu32 _ _ _ _); [by intros [= ->]|]. by intros ->.
Qed.

(** They are runs of [ubpf_exec]. *)
Lemma clean_returns vm env prog st v m :
  clean vm env prog st v m -> exists fuel, exec_loop fuel vm env prog st = Returned v m.
Proof.
  induction 1 as [st inst Hi Ho|st inst o Hi Ho Hz|st st' v m Hs _ [fuel IH]].
  - exists 1%nat. cbn [exec_loop]. unfold exec_step. rewrite Hi, Ho. done.
  - exists 1%nat. cbn [exec_loop]. unfold exec_step. rewrite Hi, Ho.
    rewrite (exec_alu_divzero o inst (mk_state (u16 (pc st + 1)) (reg st) (mem st)) Hz). done.
  - exists (S fuel). cbn [exec_loop]. by rewrite Hs.
Qed.

(** ** The machine *)

Definition callee_saved (r : Z) : Prop :=
  r = RBX \/ r = RSP \/ r = RBP \/ r = R12 \/ r = R13 \/ r = R14 \/ r = R15.

(** The parts of the machine stack around the stack of the program: what pushes use,
    and what the prologue saves. *)
Definition pushed (sp a : Z) : Prop := sp - 16 <= a < sp.
Definition kept (sp a : Z) : Prop := sp + STACK_SIZE <= a < sp + STACK_SIZE + 48.

(** A C function called with the stack pointer at [sp]: it preserves the registers the
    System V convention reserves and the caller's frame. *)
Definition returns_from (sp : Z) (R R' : Z -> Z) (M M' : memory) : Prop :=
  (forall r, callee_saved r -> R' r = R r) /\
  (forall a, kept sp a -> M' !! a = M !! a) /\
  (forall a, pushed sp a -> is_Some (M !! a) -> is_Some (M' !! a)).

(** What the code behind the addresses does: an external function as the interpreter's
    model of it does, looking at its arguments only; [fprintf] nothing the program sees. *)
Record abi (vm : ubpf_vm) (ad : jit_addrs) (nargs : Z -> Z) (sp : Z)
    (callee : Z -> (Z -> Z) -> memory -> option ((Z -> Z) * memory)) : Prop := {
  abi_addr : forall idx, in_u 64 (func_at ad idx);
  abi_fprintf_addr : in_u 64 (fprintf_at ad);
  abi_args : forall idx p f args args' m,
    0 <= idx -> ext_funcs vm !! Z.to_nat idx = Some p -> func p = Some f ->
    take (Z.to_nat (nargs idx)) args = take (Z.to_nat (nargs idx)) args' -> f args m = f args' m;
  abi_call : forall idx p f R M m v m',
    0 <= idx -> ext_funcs vm !! Z.to_nat idx = Some p -> func p = Some f ->
    R RSP = sp -> m ⊆ M -> (forall a, pushed sp a \/ kept sp a -> m !! a = None) ->
    f [R RDI; R RSI; R RDX; R RCX; R R8] m = Some (v, m') ->
    exists R' M', callee (func_at ad idx) R M = Some (R', M') /\ returns_from sp R R' M M' /\
      R' RAX = u64 v /\ m' ⊆ M' /\ (forall a, pushed sp a \/ kept sp a -> m' !! a = None);
  abi_fprintf : forall R M m,
    R RSP = sp -> m ⊆ M -> (forall a, pushed sp a \/ kept sp a -> m !! a = None) ->
    exists R' M', callee (fprintf_at ad) R M = Some (R', M') /\ returns_from sp R R' M M' /\ m ⊆ M'
}.

Lemma in_regs11 r : 0 <= r <= 10 -> r ∈ regs11.
Proof. intros H%mr_cases. unfold regs11. rewrite !elem_of_cons. tauto. Qed.

Lemma forallb_elem {A} (f : A -> bool) l x : forallb f l = true -> x ∈ l -> f x = true.
Proof. intros H Hx. rewrite forallb_forall in H. apply H. by apply list_elem_of_In. Qed.

Definition at_rip (n : Z) (x : xstate) : xstate := mk_x n (xr x) (flags x) (xm x).

Section Sound.
Context (vm : ubpf_vm) (ad : jit_addrs) (prog : list ebpf_inst).
Context (Hok : insts_ok vm prog) (Hn : num_insts vm = Z.of_nat (length prog)).
Context (Hlen : Z.of_nat (length prog) < MAX_INSTS) (Hwf : Forall wf_inst prog).
Context (Hfit : alen (program vm ad prog) <= 65536).
Context (nargs : Z -> Z) (Vs : list (list Z)) (Ht : typed nargs prog Vs = true).
Context (callee : Z -> (Z -> Z) -> memory -> option ((Z -> Z) * memory)) (sp : Z) (saved : memory).
Context (Hsp : 16 <= sp /\ sp + STACK_SIZE + 48 < 2 ^ 64) (Habi : abi vm ad nargs sp callee).
Context (env : exec_env) (W : Z -> Prop) (Henv : wf_env env) (Hext : ext_ok vm env W).

Abbreviation code := (code vm ad prog).
Abbreviation program := (program vm ad prog).
Abbreviation slots := (slots vm ad prog).
Abbreviation slot_asm := (slot_asm vm ad prog).
Abbreviation sim := (sim sp saved).
Abbreviation steps := (xsteps callee code).

Lemma xexec_at i n k x y :
  straight i = true -> xexec callee i 0 x = XNext y -> xexec callee i n (at_rip k x) = XNext (at_rip n y).
Proof.
  intros Hst H. destruct i; try done; cbn [xexec at_rip xr flags xm] in *;
    repeat match goal with
    | H : (if ?b then _ else _) = XNext _ |- _ => destruct b; try done
    | H : match ?b with _ => _ end = XNext _ |- _ => destruct b; try done
    | p : (_ * _)%type |- _ => destruct p
    end; by injection H as <-.
Qed.

Lemma run_straight l1 xs l2 x y :
  program = l1 ++ (AI <$> xs) ++ l2 -> xseq callee xs x = Some y ->
  steps (at_rip (alen l1) x) (at_rip (alen (l1 ++ (AI <$> xs))) y).
Proof using Hok Hlen Hwf Hfit.
  revert l1 x. induction xs as [|i xs IH]; intros l1 x Hp Hx; cbn [xseq] in Hx.
  - injection Hx as ->. cbn. rewrite app_nil_r. constructor.
  - destruct (straight i) eqn:Hst; [|done]. destruct (xexec callee i 0 x) as [x1| |] eqn:He; try done.
    eapply xsteps_step.
    + rewrite (step_at vm ad prog Hok Hlen Hwf Hfit callee l1 (AI i) ((AI <$> xs) ++ l2)) by done.
      by apply xexec_at.
    + rewrite <- alen_app. replace (l1 ++ (AI <$> i :: xs)) with ((l1 ++ [AI i]) ++ (AI <$> xs))
        by (by rewrite <- app_assoc).
      apply IH; [|done]. rewrite Hp. by rewrite <- app_assoc.
Qed.

(** The code before slot [i]. *)
Definition before (i : nat) : list ainst := asm_prologue ++ slots 0 i.
Definition after (i : nat) : list ainst :=
  slots (S i) (length prog - S i) ++ asm_exit ++ asm_div_by_zero ad.

Lemma program_at i : (i < length prog)%nat -> program = before i ++ slot_asm i ++ after i.
Proof.
  intros Hi. unfold JitCode.program, before, after. rewrite <- !app_assoc. f_equal.
  replace (length prog) with (i + S (length prog - S i))%nat at 1 by lia.
  rewrite slots_app, slots_S. by rewrite <- !app_assoc.
Qed.

Lemma before_S i : before (S i) = before i ++ slot_asm i.
Proof. unfold before. rewrite <- app_assoc. f_equal. replace (S i) with (i + 1)%nat by lia. rewrite slots_app, slots_S.
  cbn [Nat.add]. by rewrite app_nil_r.
Qed.

Lemma loc_before i : (i < length prog)%nat -> loc vm ad prog (Z.of_nat i) = alen (before i).
Proof using Hlen.
  intros Hi. unfold loc. destruct (Z.eqb_spec (Z.of_nat i) (u32 TARGET_PC_EXIT)) as [E|].
  { change (u32 TARGET_PC_EXIT) with 4294967295 in E. clia. }
  destruct (Z.eqb_spec (Z.of_nat i) (u32 TARGET_PC_DIV_BY_ZERO)) as [E|];
    [change (u32 TARGET_PC_DIV_BY_ZERO) with 4294967294 in E; clia|].
  by rewrite Nat2Z.id.
Qed.

(** ** What the check of the registers gives *)

Record slot_facts (i : nat) (inst : ebpf_inst) (o : ebpf_op) : Prop := {
  sf_supported : supported o inst = true;
  sf_reads : reads_ok (valid Vs i) o inst;
  sf_exit : o = EBPF_OP_EXIT -> valid Vs i 0 = true;
  sf_call : o = EBPF_OP_CALL -> forall r, 1 <= r <= 5 -> r <= nargs (imm inst) -> valid Vs i r = true;
  sf_next : forall p r, p ∈ next_pcs inst o (Z.of_nat i) -> 0 <= r <= 10 -> valid Vs (Z.to_nat p) r = true ->
            post (valid Vs i) o inst r = true
}.

Lemma typed_slot i inst o :
  prog !! i = Some inst -> op_of_opcode (opcode inst) = Some o -> slot_facts i inst o.
Proof using Ht.
  clear Hsp. intros Hi Ho. pose proof (lookup_lt_Some _ _ _ Hi) as Hlt. unfold typed in Ht. apply andb_true_iff in Ht as [H _].
  apply (forallb_elem _ _ i) in H; [|apply elem_of_seq; lia]. unfold slot_typed in H. rewrite Hi, Ho in H.
  rewrite !andb_true_iff in H. destruct H as ((((H1 & H2) & H3) & H4) & H5). split; [done|..].
  - split; intros Hr; [rewrite Hr in H2; exact H2|rewrite Hr in H3; exact H3].
  - by intros ->.
  - intros -> r Hr Hna. apply (forallb_elem _ _ r) in H4.
    + cbn beta in H4. rewrite (proj2 (Z.leb_le r (nargs (imm inst))) Hna) in H4. exact H4.
    + rewrite !elem_of_cons. lia.
  - intros p r Hp Hr Hv. pose proof (forallb_elem _ _ p H5 Hp) as H6.
    pose proof (forallb_elem _ _ r H6 (in_regs11 r Hr)) as H7. cbn beta in H7. rewrite Hv in H7. exact H7.
Qed.

(** An accepted instruction: its registers and its opcode. *)
Lemma accepted_slot i inst :
  prog !! i = Some inst -> opcode inst <> 0 ->
  exists o, op_of_opcode (opcode inst) = Some o /\ opcode_ok vm prog (Z.of_nat i) inst o /\ wf_inst inst /\
    0 <= src inst <= 10 /\ 0 <= dst inst <= 10 /\ (op_is_store o = false -> dst inst <= 9).
Proof using Hok Hwf.
  clear Hsp. intros Hi H0. pose proof (Hok i inst Hi) as Hc. destruct (Z.eqb_spec (opcode inst) 0); [done|].
  destruct Hc as (o & Ho & Hop & Hs & Hd). assert (wf_inst inst) as Hw by (by eapply Forall_lookup_1 in Hwf).
  pose proof Hw as (_ & Hd' & Hs' & _). unfold in_u in *. exists o. split_and!; try done; try lia.
  intros Hst. rewrite Hst in Hd. destruct Hd as [|[? _]]; [lia|done].
Qed.

Lemma slot_asm_eq i inst o l :
  prog !! i = Some inst -> op_of_opcode (opcode inst) = Some o ->
  asm_inst vm ad (Z.of_nat i) o inst (if op_is_lddw o then default inst (prog !! S i) else inst)
    (mr (src inst)) (mr (dst inst)) = Some l -> slot_asm i = l.
Proof. intros Hi Ho Hl. unfold JitCode.slot_asm. by rewrite Hi, Ho, Hl. Qed.

(** A slot of straight-line code. *)
Lemma straight_slot i xs x y :
  (i < length prog)%nat -> slot_asm i = AI <$> xs -> xseq callee xs x = Some y ->
  steps (at_rip (alen (before i)) x) (at_rip (alen (before (S i))) y).
Proof using Hok Hlen Hwf Hfit.
  intros Hi Hs Hx. rewrite before_S, Hs. eapply run_straight; [|done]. by rewrite <- Hs, <- program_at.
Qed.

(** ** Steps *)

(** The state the interpreter dispatches on: behind [pc++]. *)
Definition fetched (st : exec_state) : exec_state := mk_state (u16 (pc st + 1)) (reg st) (mem st).

Lemma sim_fetched V st x : sim V st x -> sim V (fetched st) x.
Proof. by intros [H1 H2 H3 H4 H5]. Qed.

Lemma wf_fetched st : wf_state st -> wf_state (fetched st).
Proof. intros [H1 H2 H3 H4]. split; try done. apply wrap_range. lia. Qed.

Lemma fetched_pc st i : pc st = Z.of_nat i -> (i < length prog)%nat -> pc (fetched st) = Z.of_nat (S i).
Proof using Hlen. clear Hsp. intros Hp Hi. cbn. rewrite Hp, wrap_small by (unfold in_u; clia). lia. Qed.

(** The machine reaches the code of the interpreter's next program counter. *)
Definition lands (i : nat) (o : ebpf_op) (inst : ebpf_inst) (x : xstate) (st' : exec_state) : Prop :=
  exists j y, pc st' = Z.of_nat j /\ steps (at_rip (alen (before i)) x) (at_rip (alen (before j)) y) /\
    sim (post (valid Vs i) o inst) st' y.

(** What holds at an instruction. *)
Record at_slot (i : nat) (inst : ebpf_inst) (o : ebpf_op) (st : exec_state) (x : xstate) : Prop := {
  as_inst : prog !! i = Some inst;
  as_op : op_of_opcode (opcode inst) = Some o;
  as_ok : opcode_ok vm prog (Z.of_nat i) inst o;
  as_wf_inst : wf_inst inst;
  as_src : 0 <= src inst <= 10;
  as_dst : 0 <= dst inst <= 10;
  as_dst9 : op_is_store o = false -> dst inst <= 9;
  as_facts : slot_facts i inst o;
  as_pc : pc st = Z.of_nat i;
  as_sim : sim (valid Vs i) st x;
  as_wf : wf_state st
}.

Lemma as_lt i inst o st x : at_slot i inst o st x -> (i < length prog)%nat.
Proof. intros H. eapply lookup_lt_Some, (as_inst _ _ _ _ _ H). Qed.

Lemma as_alu_pre i inst o st x :
  at_slot i inst o st x -> op_is_store o = false -> alu_pre sp saved (valid Vs i) o inst (fetched st) x.
Proof.
  intros [? ? ? ? ? ? H9 Hf ? Hs Hw] Hst. specialize (H9 Hst). split; try done; [by apply sim_fetched|by apply wf_fetched|lia|].
  apply Hf.
Qed.

Lemma as_mem_pre i inst o st x : at_slot i inst o st x -> mem_pre sp saved (valid Vs i) o inst (fetched st) x.
Proof. intros [? ? ? ? ? ? H9 Hf ? Hs Hw]. split; try done; [by apply sim_fetched|by apply wf_fetched|apply Hf]. Qed.

Lemma alu_writes o d s i : is_Some (alu_value o d s i) -> writes_dst o = true /\ op_is_store o = false /\ o <> EBPF_OP_CALL.
Proof. intros [r Hr]. destruct o; try done; discriminate Hr. Qed.

Lemma lands_straight i inst o st x st' xs y V :
  at_slot i inst o st x -> slot_asm i = AI <$> xs -> xseq callee xs x = Some y ->
  pc st' = pc (fetched st) -> sim V st' y -> V = post (valid Vs i) o inst -> lands i o inst x st'.
Proof using Hok Hlen Hwf Hfit.
  intros Ha Hs Hx Hp Hsim ->. exists (S i), y. split_and!; [|by eapply straight_slot; [eapply as_lt|..]|done].
  rewrite Hp. apply fetched_pc; [apply Ha|by eapply as_lt].
Qed.

Lemma step_alu i inst o st x st' :
  at_slot i inst o st x -> div_of o = None -> exec_alu o inst (fetched st) = Some (Continue st') -> lands i o inst x st'.
Proof using Hok Hlen Hwf Hfit Hsp.
  intros Ha Hd He. destruct (exec_alu_value _ _ _ _ He) as (v & Hv & _).
  destruct (alu_writes o _ _ _ (mk_is_Some _ _ Hv)) as (Hw & Hst & Hc).
  pose proof (as_alu_pre _ _ _ _ _ Ha Hst) as Hp. pose proof Ha as [Hi Ho Hok' _ _ _ _ Hf _ _ _].
  destruct (alu_sim callee sp saved Hsp _ o inst _ x st' (Z.of_nat i) Hp (sf_supported _ _ _ Hf) Hd (ok_shift _ _ _ _ _ Hok') He)
    as (xs & y & Hasm & Hx & Hsim).
  eapply lands_straight; [done| |exact Hx|by eapply exec_alu_pc|exact Hsim|].
  - eapply slot_asm_eq; [done..|]. unfold asm_inst. by rewrite Hasm.
  - unfold post. destruct o; try done; by rewrite Hw.
Qed.

Lemma step_mem i inst o st x st' :
  at_slot i inst o st x -> exec_alu o inst (fetched st) = None ->
  exec_mem env prog o inst (fetched st) = Some (Continue st') -> lands i o inst x st'.
Proof using Hok Hlen Hwf Hfit Hsp.
  intros Ha Hna He. pose proof (as_mem_pre _ _ _ _ _ Ha) as Hp. pose proof Ha as [Hi Ho Hok' _ _ _ _ Hf Hpc _ _].
  pose proof (exec_mem_pc _ _ _ _ _ _ He) as Hpc'.
  destruct (op_is_lddw o) eqn:Hl.
  - assert (o = EBPF_OP_LDDW) as -> by (by destruct o).
    destruct (ok_lddw _ _ _ _ _ Hok' eq_refl) as (nx & Hnx & H0).
    replace (Z.to_nat (Z.of_nat i + 1)) with (S i) in Hnx by (clear; lia).
    pose proof (lookup_lt_Some _ _ _ Hnx) as Hlt. pose proof (fetched_pc st i Hpc (as_lt _ _ _ _ _ Ha)) as Hfp.
    destruct (lddw_sim callee sp saved _ inst _ x st' env prog nx Hp) as (xs & y & Hasm & Hx & Hsim).
    + by rewrite Hfp, Nat2Z.id.
    + done.
    + exists (S (S i)), y. split_and!.
      * rewrite Hpc', Hfp, wrap_small by (clear Hsp; unfold in_u; clia). clear; lia.
      * rewrite (before_S (S i)), (slot_asm_second vm ad prog (S i) nx Hnx H0), app_nil_r.
        eapply straight_slot; [by eapply as_lt| |done].
        eapply slot_asm_eq; [done..|]. cbn [op_is_lddw]. by rewrite Hnx.
      * exact Hsim.
  - assert (exists V, V = post (valid Vs i) o inst /\ runs_to callee sp saved (asm_mem o inst inst (mr (src inst)) (mr (dst inst))) x V st')
      as (V & HV & xs & y & Hasm & Hx & Hsim).
    { destruct (load_of o) as [s|] eqn:E1; [exists (add_reg (valid Vs i) (dst inst)); split; [by destruct o|by eapply load_sim]|].
      destruct (stx_of o) as [s|] eqn:E2; [exists (valid Vs i); split; [by destruct o|by eapply stx_sim]|].
      destruct (st_of o) as [s|] eqn:E3; [exists (valid Vs i); split; [by destruct o|by eapply st_sim]|].
      destruct o; discriminate || done. }
    eapply lands_straight; [done| |exact Hx|done|exact Hsim|done].
    eapply slot_asm_eq; [done..|]. rewrite Hl. unfold asm_inst. destruct o; done.
Qed.

(** ** Jumps *)

Lemma jump_dest i inst o :
  prog !! i = Some inst -> opcode_ok vm prog (Z.of_nat i) inst o -> is_Some (jump_taken o 0 0 0) ->
  exists j, (j < length prog)%nat /\ Z.of_nat j = Z.of_nat i + 1 + offset inst /\
    loc vm ad prog (u32 (u32 (Z.of_nat i + offset inst + 1))) = alen (before j).
Proof using Hlen.
  clear Hsp. intros Hi Hop Hj. destruct (ok_jump _ _ _ _ _ Hop Hj) as (H0 & t & Ht' & _).
  pose proof (lookup_lt_Some _ _ _ Ht') as Hlt. exists (Z.to_nat (Z.of_nat i + 1 + offset inst)).
  split_and!; [done|lia|]. rewrite <- loc_before by done. f_equal. rewrite wrap_idem, wrap_small by (unfold in_u; clia). lia.
Qed.

(** A conditional jump in the listing. *)
Lemma step_jcc l1 c t l2 x f :
  program = l1 ++ AJcc c t :: l2 -> rip x = alen l1 -> flags x = Some f ->
  xstep callee code x =
  XNext (at_rip (if cond_holds c f then loc vm ad prog (u32 t) else alen (l1 ++ [AJcc c t])) x).
Proof using Hok Hlen Hwf Hfit.
  intros Hp Hr Hf. rewrite (step_at vm ad prog Hok Hlen Hwf Hfit callee l1 (AJcc c t) l2) by done.
  cbn [inst_of xexec]. rewrite Hf, alen_app. change (alen [AJcc c t]) with 6. unfold at_rip. rewrite Hf.
  repeat f_equal. destruct (cond_holds c f); clear; lia.
Qed.

Lemma step_jmp l1 t l2 x :
  program = l1 ++ AJmp t :: l2 -> rip x = alen l1 ->
  xstep callee code x = XNext (at_rip (loc vm ad prog (u32 t)) x).
Proof using Hok Hlen Hwf Hfit.
  intros Hp Hr. rewrite (step_at vm ad prog Hok Hlen Hwf Hfit callee l1 (AJmp t) l2) by done.
  cbn [inst_of xexec]. change (alen [AJmp t]) with 5. unfold at_rip. repeat f_equal. clear; lia.
Qed.

(** A comparison and the jump behind it. *)
Lemma cmp_jump w l1 (r : bool) a c t l2 im s d x f :
  let i := if r then XAluRR w a s d else XAluRI w a im d in
  program = l1 ++ AI i :: AJcc c t :: l2 -> rip x = alen l1 -> writes a = false ->
  (forall old, alu_flags a (width w) (wrap (width w) (xr x d)) (wrap (width w) (if r then xr x s else im)) old = Some f) ->
  steps x (mk_x (if cond_holds c f then loc vm ad prog (u32 t) else alen (l1 ++ [AI i; AJcc c t])) (xr x) (Some f) (xm x)).
Proof using Hok Hlen Hwf Hfit.
  intros i Hp Hr Ha Hf. set (x1 := mk_x (alen (l1 ++ [AI i])) (xr x) (Some f) (xm x)).
  eapply (xsteps_step _ _ _ x1); [|eapply xsteps_step; [|constructor]].
  - rewrite (step_at vm ad prog Hok Hlen Hwf Hfit callee l1 (AI i) (AJcc c t :: l2)) by done.
    unfold x1. rewrite alen_app. cbn [inst_of]. subst i. destruct r; cbn [xexec]; by rewrite Ha, Hf.
  - rewrite (step_jcc (l1 ++ [AI i]) c t l2 x1 f); [|by rewrite <- app_assoc|done..].
    unfold at_rip, x1. cbn [xr flags xm]. by rewrite <- app_assoc.
Qed.

Lemma alu_flags_old a w d s old : writes a = false -> alu_flags a w d s old = alu_flags a w d s None.
Proof. by destruct a. Qed.

(** The operands of the comparison are the registers the interpreter compares. *)
Lemma cmp_operands i inst o st x r a c f old :
  at_slot i inst o st x -> jump_of o = Some (r, a, c) -> writes a = false ->
  alu_flags a 64 (rget (reg st) (dst inst)) (if r then rget (reg st) (src inst) else wrap 64 (imm inst)) None = Some f ->
  alu_flags a 64 (wrap 64 (xr x (mr (dst inst)))) (wrap 64 (if r then xr x (mr (src inst)) else imm inst)) old = Some f.
Proof.
  intros [Hi Ho Hok' Hwi Hs Hd _ Hf Hpc Hsim Hw] Hj Hwr Hfl. rewrite alu_flags_old by done. rewrite <- Hfl.
  destruct (sf_reads _ _ _ Hf) as [H1 H2].
  rewrite (sim_regs _ _ _ _ _ Hsim (dst inst)) by (try done; apply H1; by destruct o).
  rewrite (wrap_small 64 (rget (reg st) (dst inst))) by (apply rget_range, Hw).
  f_equal. destruct r; [|done].
  rewrite (sim_regs _ _ _ _ _ Hsim (src inst)) by (try done; apply H2; by destruct o).
  apply wrap_small, rget_range, Hw.
Qed.

Lemma step_jump i inst o st x st' :
  at_slot i inst o st x -> exec_alu o inst (fetched st) = None -> exec_mem env prog o inst (fetched st) = None ->
  is_Some (jump_taken o 0 0 0) -> exec_jmp vm o inst (fetched st) = Some (Continue st') -> lands i o inst x st'.
Proof using Hok Hlen Hwf Hfit.
  intros Ha Hna Hnm Hj He. pose proof Ha as [Hi Ho Hok' Hwi Hs Hd _ Hf Hpc Hsim Hw].
  pose proof (as_lt _ _ _ _ _ Ha) as Hlt. pose proof (fetched_pc st i Hpc Hlt) as Hfp.
  destruct (jump_dest i inst o Hi Hok' Hj) as (j & Hjl & Hjz & Hjloc).
  assert (post (valid Vs i) o inst = valid Vs i) as HV by (destruct o; destruct Hj as [? [=]]; done).
  assert (u16 (pc (fetched st) + offset inst) = Z.of_nat j) as Hju.
  { clear Hsp. rewrite Hfp, wrap_small by (unfold in_u; clia). lia. }
  assert (forall b : bool, exec_jmp vm o inst (fetched st) =
            Some (Continue (mk_state (if b then u16 (pc (fetched st) + offset inst) else pc (fetched st)) (reg st) (mem st))) ->
          st' = mk_state (Z.of_nat (if b then j else S i)) (reg st) (mem st)) as Hst.
  { intros b Hb. rewrite Hju, Hfp in Hb. assert (Some (Continue st') = Some (Continue (mk_state (if b then Z.of_nat j else Z.of_nat (S i))
      (reg st) (mem st)))) as [= ->] by (by rewrite <- He). by destruct b. }
  destruct (jump_of o) as [[[r a] c]|] eqn:Hjo.
  - destruct (jump_asm o r a c (Z.of_nat i) (num_insts vm - 1) inst (mr (src inst)) (mr (dst inst)) Hjo) as (Ha1 & Hwr & Ha2).
    destruct (jump_cond o r a c (rget (reg st) (dst inst)) (rget (reg st) (src inst)) (imm inst) Hjo) as (f & Hfl & Htk).
    { apply rget_range, Hw. } { apply rget_range, Hw. } { apply Hwi. }
    { pose proof (sf_supported _ _ _ Hf) as Hsu. intros [-> | ->]; cbn [supported] in Hsu; by apply Z.leb_le in Hsu. }
    assert (st' = mk_state (Z.of_nat (if cond_holds c f then j else S i)) (reg st) (mem st)) as ->.
    { apply Hst. unfold exec_jmp. cbn [fetched reg mem]. destruct o; try done; by rewrite Htk. }
    assert (slot_asm i = [AI (if r then XAluRR true a (mr (src inst)) (mr (dst inst)) else XAluRI true a (imm inst) (mr (dst inst)));
                          AJcc c (u32 (Z.of_nat i + offset inst + 1))]) as Hsl.
    { eapply slot_asm_eq; [done..|]. unfold asm_inst. by rewrite Ha1, Ha2. }
    exists (if cond_holds c f then j else S i), (mk_x 0 (xr x) (Some f) (xm x)). split_and!; [done| |by rewrite HV; apply sim_pc].
    pose proof (program_at i Hlt) as Hprog. rewrite Hsl in Hprog.
    pose proof (cmp_jump true _ r a c _ _ _ _ _ (at_rip (alen (before i)) x) f Hprog eq_refl Hwr) as Hrun.
    rewrite Hjloc, <- Hsl, <- before_S in Hrun. destruct (cond_holds c f); apply Hrun; clear Hrun; intros old; cbn [xr at_rip].
    all: by eapply cmp_operands.
  - assert (o = EBPF_OP_JA) as -> by (destruct o; try done; destruct Hj as [? [=]]).
    rewrite (Hst true) by done. exists j, x. split_and!; [done| |by rewrite HV; destruct Hsim].
    pose proof (program_at i Hlt) as Hprog. rewrite (slot_asm_eq i inst EBPF_OP_JA _ Hi Ho eq_refl) in Hprog.
    eapply xsteps_step; [|constructor]. rewrite (step_jmp _ _ _ (at_rip (alen (before i)) x) Hprog) by done.
    by rewrite Hjloc.
Qed.

(** ** Calls *)

Lemma take_args n (a b : list Z) :
  length a = length b -> (forall k, (k < n)%nat -> a !! k = b !! k) -> take n a = take n b.
Proof.
  intros Hl H. apply list_eq. intros k. destruct (decide (k < n)%nat).
  - rewrite !lookup_take_lt by done. auto.
  - by rewrite !lookup_take_ge by lia.
Qed.

(** The machine state when a C function is reached. *)
Definition call_regs (R : Z -> Z) (f : Z) : Z -> Z := upd (upd R RCX (wrap 64 (R R9))) RAX f.

Lemma call_args V st x f k :
  sim V st x -> wf_state st -> (forall r, 1 <= r <= 5 -> r <= k -> V r = true) ->
  let R := call_regs (xr x) f in
  take (Z.to_nat k) [R RDI; R RSI; R RDX; R RCX; R R8] =
  take (Z.to_nat k) [rget (reg st) 1; rget (reg st) 2; rget (reg st) 3; rget (reg st) 4; rget (reg st) 5].
Proof.
  clear Hsp. intros Hsim Hw HV R. apply take_args; [done|]. intros n Hk.
  assert (forall r, 1 <= r <= 5 -> r <= k -> xr x (mr r) = rget (reg st) r) as Hr.
  { intros r H1 H2. eapply sim_regs; [done|lia|auto]. }
  destruct n as [|[|[|[|[|n]]]]]; cbn [lookup list_lookup]; try done; f_equal; unfold R, call_regs.
  - rewrite !upd_ne by done. apply (Hr 1); lia.
  - rewrite !upd_ne by done. apply (Hr 2); lia.
  - rewrite !upd_ne by done. apply (Hr 3); lia.
  - rewrite upd_ne, upd_eq by done. change R9 with (mr 4). rewrite (Hr 4) by lia. apply wrap_small, rget_range, Hw.
  - rewrite !upd_ne by done. apply (Hr 5); lia.
Qed.

Lemma saved_regs r : 6 <= r <= 10 -> callee_saved (mr r).
Proof.
  intros H. assert (r = 6 \/ r = 7 \/ r = 8 \/ r = 9 \/ r = 10) as Hr by lia. unfold callee_saved.
  repeat destruct Hr as [->|Hr]; try rewrite Hr; cbn; autounfold with consts; tauto.
Qed.

Lemma sim_call V st x R' M' v m' p f :
  sim V st x -> wf_state st -> returns_from sp (call_regs (xr x) f) R' (xm x) M' -> R' RAX = u64 v -> m' ⊆ M' ->
  (forall a, pushed sp a \/ kept sp a -> m' !! a = None) ->
  sim (fun r => (r =? 0) || (V r && negb ((1 <=? r) && (r <=? 5)))) (mk_state p (rset (reg st) 0 (u64 v)) m')
    (mk_x 0 R' None M').
Proof.
  intros [H1 H2 H3 H4 H5] Hw (Hsv & Hk & Hpu) Hax Hm Hno. split; cbn [xr xm reg mem].
  - intros r Hr Hv. rewrite rget_rset by (apply Hw || lia). destruct (Z.eqb_spec r 0) as [->|Hne]; [done|].
    cbn [orb] in Hv. apply andb_true_iff in Hv as [Hv Hr5]. rewrite <- H1 by done.
    rewrite Hsv by (apply saved_regs; lia). unfold call_regs.
    rewrite !upd_ne; [done|apply mr_temp; unfold temp; auto|]. intros E. change RAX with (mr 0) in E. by apply mr_inj in E.
  - rewrite Hsv by (unfold callee_saved; auto). unfold call_regs. by rewrite !upd_ne.
  - done.
  - intros a Ha. split; [|apply Hno; by left]. apply Hpu; [done|]. by apply H4.
  - intros a Ha. split; [|apply Hno; by right]. rewrite Hk by done. by apply H5.
Qed.

Lemma step_call i inst st x st' :
  at_slot i inst EBPF_OP_CALL st x -> exec_call vm inst (fetched st) = Continue st' -> lands i EBPF_OP_CALL inst x st'.
Proof using Hok Hlen Hwf Hfit Habi Hsp.
  intros Ha He. pose proof Ha as [Hi Ho Hok' Hwi Hs Hd _ Hf Hpc Hsim Hw].
  unfold exec_call in He. destruct (Z.ltb_spec (imm inst) 0) as [|H0]; [done|].
  destruct (ext_funcs vm !! Z.to_nat (imm inst)) as [p|] eqn:Hp; [|done].
  destruct (func p) as [f|] eqn:Hfn; [|done]. cbn [fetched reg mem] in He.
  destruct (f _ (mem st)) as [[v m']|] eqn:Hfv; [|done]. injection He as <-.
  set (R := call_regs (xr x) (func_at ad (imm inst))).
  assert (f [R RDI; R RSI; R RDX; R RCX; R R8] (mem st) = Some (v, m')) as Hcall.
  { rewrite <- Hfv. eapply (abi_args _ _ _ _ _ Habi); [exact H0|done..|].
    apply (call_args (valid Vs i)); [done|done|]. by apply (sf_call _ _ _ Hf). }
  destruct (abi_call _ _ _ _ _ Habi (imm inst) p f R (xm x) (mem st) v m' H0 Hp Hfn) as (R' & M' & Hc & Hret & Hax & Hm & Hno); try done.
  { unfold R, call_regs. rewrite !upd_ne by done. apply Hsim. }
  { apply Hsim. }
  { intros a [Hin|Hin]; [by apply (sim_scratch _ _ _ _ _ Hsim)|by apply (sim_saved _ _ _ _ _ Hsim)]. }
  eapply (lands_straight i inst EBPF_OP_CALL st x _
    [XAluRR true AMOV R9 RCX; mov_imm (s64 (func_at ad (imm inst))) RAX; XCall RAX] (mk_x 0 R' None M')); [done| | |done| |reflexivity].
  - eapply slot_asm_eq; [done..|]. unfold asm_inst. cbn [asm_alu asm_jmp asm_mem asm_call op_is_lddw].
    unfold ext_func_addr. destruct (Z.ltb_spec (imm inst) 0); [lia|]. rewrite Hp. cbn [mbind option_bind]. by rewrite Hfn.
  - cbn [xseq straight]. rewrite mov_spec, straight_mov_imm, load_imm_val by (apply sext_range; lia).
    cbn [xexec xr xm]. rewrite upd_eq, wrap_sext, (wrap_small 64 (func_at ad (imm inst))) by (lia || apply (abi_addr _ _ _ _ _ Habi)).
    fold (call_regs (xr x) (func_at ad (imm inst))). fold R. by rewrite Hc.
  - by eapply sim_call.
Qed.

(** ** Divisions *)

Definition div_head (w : bool) (i src : Z) : list ainst :=
  [AI (mov_imm (u16 i) RCX); AI (XAluRR w ATEST src src); AJcc CE TARGET_PC_DIV_BY_ZERO].

Lemma asm_div o w md i inst src dst :
  div_of o = Some (w, md) ->
  asm_alu i o inst src dst = Some (div_head w i src ++ (AI <$> div_tail w md src dst (imm inst))).
Proof.
  intros H. unfold div_head. rewrite <- asm_div_shape. destruct o; cbn [div_of] in H; try done; by injection H as <- <-.
Qed.

Lemma slot_div i inst o w md :
  prog !! i = Some inst -> op_of_opcode (opcode inst) = Some o -> div_of o = Some (w, md) ->
  slot_asm i = div_head w (Z.of_nat i) (mr (src inst)) ++
    (AI <$> div_tail w md (mr (src inst)) (mr (dst inst)) (imm inst)).
Proof. intros Hi Ho Hd. eapply slot_asm_eq; [done..|]. unfold asm_inst. by rewrite (asm_div o w md). Qed.

(** The test of the divisor. *)
Lemma div_check i inst o st x w md :
  at_slot i inst o st x -> div_of o = Some (w, md) ->
  let s := wrap (width w) (rget (reg st) (src inst)) in
  exists f,
  steps (at_rip (alen (before i)) x)
    (mk_x (if s =? 0 then loc vm ad prog (u32 TARGET_PC_DIV_BY_ZERO)
           else alen (before i ++ div_head w (Z.of_nat i) (mr (src inst))))
       (upd (xr x) RCX (wrap 64 (u16 (Z.of_nat i)))) (Some f) (xm x)).
Proof using Hok Hlen Hwf Hfit Hsp.
  intros Ha Hd s. pose proof Ha as [Hi Ho Hok' Hwi Hs Hdd _ Hf Hpc Hsim Hw].
  pose proof (program_at i (as_lt _ _ _ _ _ Ha)) as Hprog. rewrite (slot_div i inst o w md Hi Ho Hd), <- app_assoc in Hprog.
  set (T := (AI <$> div_tail w md (mr (src inst)) (mr (dst inst)) (imm inst)) ++ after i) in Hprog.
  set (y := mk_x 0 (upd (xr x) RCX (wrap 64 (u16 (Z.of_nat i)))) (flags x) (xm x)).
  assert (xseq callee [mov_imm (u16 (Z.of_nat i)) RCX] x = Some y) as Hy.
  { cbn [xseq]. rewrite straight_mov_imm, load_imm_val; [done|].
    pose proof (wrap_range 16 (Z.of_nat i)). unfold in_u, in_s in *. lia. }
  pose proof (run_straight (before i) [mov_imm (u16 (Z.of_nat i)) RCX] _ x y Hprog Hy) as Hrun1.
  set (f := test_flags (width w) s s). exists f.
  eapply xsteps_trans; [exact Hrun1|].
  pose proof (cmp_jump w (before i ++ [AI (mov_imm (u16 (Z.of_nat i)) RCX)]) true ATEST CE TARGET_PC_DIV_BY_ZERO T 0
    (mr (src inst)) (mr (src inst)) (at_rip (alen (before i ++ [AI (mov_imm (u16 (Z.of_nat i)) RCX)])) y) f) as Hrun2.
  cbv zeta in Hrun2. rewrite <- !app_assoc in Hrun2. cbn [cond_holds zf test_flags f] in Hrun2. rewrite Z.land_diag in Hrun2.
  apply Hrun2; try done. intros old. cbn [at_rip y xr]. rewrite upd_ne by (apply mr_temp; unfold temp; auto).
  rewrite (sim_regs _ _ _ _ _ Hsim) by (try done; apply (sf_reads _ _ _ Hf); by destruct o). done.
Qed.

Lemma step_div i inst o st x st' w md :
  at_slot i inst o st x -> div_of o = Some (w, md) -> exec_alu o inst (fetched st) = Some (Continue st') ->
  lands i o inst x st'.
Proof using Hok Hlen Hwf Hfit Hsp.
  intros Ha Hd He. pose proof Ha as [Hi Ho Hok' Hwi Hs Hdd _ Hf Hpc Hsim Hw].
  assert (op_is_store o = false) as Hst by (by destruct o).
  destruct (exec_alu_value _ _ _ _ He) as (v & Hv & _).
  apply (div_value o w md) in Hv as [Hnz _]; [|apply rget_range, Hw|apply rget_range, Hw|done].
  destruct (div_check i inst o st x w md Ha Hd) as [f Hrun]. cbn [fetched reg] in Hnz.
  rewrite (proj2 (Z.eqb_neq _ _) Hnz) in Hrun.
  pose proof (ap_temp sp saved _ _ _ _ x RCX (wrap 64 (u16 (Z.of_nat i))) 0 (Some f) (as_alu_pre _ _ _ _ _ Ha Hst) temp_rcx ltac:(done)) as Hp.
  destruct (div_sim callee sp saved Hsp _ o inst _ _ st' w md Hp Hd (sf_supported _ _ _ Hf) He) as (y & Hy & Hsy).
  exists (S i), y. split_and!.
  - rewrite (exec_alu_pc _ _ _ _ He). apply fetched_pc; [done|by eapply as_lt].
  - eapply xsteps_trans; [exact Hrun|]. rewrite before_S, (slot_div i inst o w md Hi Ho Hd), app_assoc.
    refine (run_straight _ _ (after i) _ y _ Hy). rewrite (program_at i (as_lt _ _ _ _ _ Ha)).
    by rewrite (slot_div i inst o w md Hi Ho Hd), <- !app_assoc.
  - unfold post. destruct o; try done.
Qed.

(** ** The end *)

(** The registers that the prologue pushed, and the return address. *)
Context (rbp0 rbx0 r13_0 r14_0 r15_0 ret0 : Z).
Context (Hsv15 : load_le saved (sp + STACK_SIZE) 8 = Some r15_0).
Context (Hsv14 : load_le saved (sp + STACK_SIZE + 8) 8 = Some r14_0).
Context (Hsv13 : load_le saved (sp + STACK_SIZE + 16) 8 = Some r13_0).
Context (Hsvbx : load_le saved (sp + STACK_SIZE + 24) 8 = Some rbx0).
Context (Hsvbp : load_le saved (sp + STACK_SIZE + 32) 8 = Some rbp0).
Context (Hsvret : load_le saved (sp + STACK_SIZE + 40) 8 = Some ret0).

(** The value to return is in place. *)
Definition ready (v : Z) (m : memory) (x : xstate) : Prop :=
  exists st, sim (fun _ => false) st x /\ mem st = m /\ xr x RAX = v.

(** A return with value [v], memory [m], and the caller's registers. *)
Definition returned (v : Z) (m : memory) (z : xstate) : Prop :=
  xr z RAX = v /\ m ⊆ xm z /\ xr z RSP = sp + STACK_SIZE + 48 /\
  xr z RBP = rbp0 /\ xr z RBX = rbx0 /\ xr z R13 = r13_0 /\ xr z R14 = r14_0 /\ xr z R15 = r15_0.

Definition exit_loc_of : Z := loc vm ad prog (u32 TARGET_PC_EXIT).

Lemma exit_loc_before : exit_loc_of = alen (before (length prog)).
Proof. done. Qed.

Lemma load_saved x st V k v :
  sim V st x -> 0 <= k <= 40 -> load_le saved (sp + STACK_SIZE + k) 8 = Some v ->
  load_le (xm x) (sp + STACK_SIZE + k) 8 = Some v.
Proof. intros Hs Hk <-. apply load_le_ext. intros i Hi. apply (sim_saved _ _ _ _ _ Hs). lia. Qed.

Lemma exit_run v m x :
  ready v m x -> exists y z, steps (at_rip exit_loc_of x) y /\ xstep callee code y = XDone z /\ returned v m z.
Proof using Hok Hlen Hwf Hfit Hsp Hsv15 Hsv14 Hsv13 Hsvbx Hsvbp Hsvret.
  intros (st & Hs & <- & Hv). pose proof (sim_sp _ _ _ _ _ Hs) as Hx.
  set (B := sp + STACK_SIZE) in *.
  assert (0 <= B /\ B + 48 < 2 ^ 64) as HB by (subst B; clia).
  assert (forall k w, 0 <= k <= 40 -> load_le saved (B + k) 8 = Some w -> load_le (xm x) (B + k) 8 = Some w) as Hld
    by (intros; by eapply load_saved).
  rewrite <- (Z.add_0_r B) in Hsv15. apply Hld in Hsv15, Hsv14, Hsv13, Hsvbx, Hsvbp, Hsvret; try lia.
  rewrite Z.add_0_r in Hsv15.
  set (R1 := upd (xr x) RSP B).
  set (R2 := upd (upd R1 RSP (B + 8)) R15 r15_0). set (R3 := upd (upd R2 RSP (B + 8 + 8)) R14 r14_0).
  set (R4 := upd (upd R3 RSP (B + 16 + 8)) R13 r13_0). set (R5 := upd (upd R4 RSP (B + 24 + 8)) RBX rbx0).
  set (R6 := upd (upd R5 RSP (B + 32 + 8)) RBP rbp0).
  set (xs := [XAluRI true AADD STACK_SIZE RSP; XPop R15; XPop R14; XPop R13; XPop RBX; XPop RBP]).
  assert (xseq callee xs x = Some (mk_x 0 R6 None (xm x))) as Hxs.
  { assert (R2 RSP = B + 8 /\ R3 RSP = B + 16 /\ R4 RSP = B + 24 /\ R5 RSP = B + 32) as (E2 & E3 & E4 & E5).
    { unfold R5, R4, R3, R2. split_and!; rewrite upd_ne, upd_eq by done; lia. }
    unfold xs. rewrite (xseq_add_rsp _ x sp) by (done || clia). fold B. fold R1.
    rewrite (xseq_pop _ _ B R15 r15_0) by (done || lia || apply upd_eq). cbn [xr xm flags]. fold R2.
    rewrite (xseq_pop _ _ (B + 8) R14 r14_0) by (done || lia). cbn [xr xm flags]. fold R3.
    rewrite (xseq_pop _ _ (B + 16) R13 r13_0) by (done || lia). cbn [xr xm flags]. fold R4.
    rewrite (xseq_pop _ _ (B + 24) RBX rbx0) by (done || lia). cbn [xr xm flags]. fold R5.
    rewrite (xseq_pop _ _ (B + 32) RBP rbp0) by (done || lia). cbn [xr xm flags]. by fold R6. }
  assert (program = before (length prog) ++ (AI <$> xs) ++ AI XRet :: asm_div_by_zero ad) as Hp.
  { unfold JitCode.program, before. by rewrite <- app_assoc. }
  pose proof (run_straight _ xs _ x _ Hp Hxs) as Hrun. rewrite <- exit_loc_before in Hrun.
  set (y := at_rip (alen (before (length prog) ++ (AI <$> xs))) (mk_x 0 R6 None (xm x))) in Hrun.
  eexists y, _. split; [done|]. split.
  - rewrite (step_at vm ad prog Hok Hlen Hwf Hfit callee (before (length prog) ++ (AI <$> xs)) (AI XRet) (asm_div_by_zero ad));
      [|by rewrite <- app_assoc|done].
    cbn [inst_of xexec y at_rip xr xm flags]. assert (R6 RSP = B + 40) as -> by (unfold R6; rewrite upd_ne, upd_eq by done; lia).
    rewrite Hsvret. reflexivity.
  - unfold returned. cbn [xr xm]. rewrite wrap_small by (unfold in_u; lia). fold B.
    unfold R6, R5, R4, R3, R2, R1. split_and!; try (regs; first [done | lia]). apply Hs.
Qed.

Lemma loc_div : loc vm ad prog (u32 TARGET_PC_DIV_BY_ZERO) = alen (before (length prog) ++ asm_exit).
Proof.
  unfold loc, before. change (u32 TARGET_PC_DIV_BY_ZERO =? u32 TARGET_PC_EXIT) with false.
  rewrite Z.eqb_refl. by rewrite <- app_assoc.
Qed.

(** The handler of divisions by zero returns all ones. *)
Lemma div_zero_run V st x :
  sim V st x ->
  exists y, steps (at_rip (loc vm ad prog (u32 TARGET_PC_DIV_BY_ZERO)) x) (at_rip exit_loc_of y) /\
    ready UINT64_MAX (mem st) y.
Proof using Hok Hlen Hwf Hfit Habi.
  intros Hs. pose proof Hs as [_ Hx Hm Hsc Hsd].
  set (R := upd (upd (upd (upd (xr x) RDI (wrap 64 (s64 (stderr_at ad)))) RSI (wrap 64 (s64 (fmt_at ad)))) RDX
                   (wrap 64 (xr x RCX))) RAX (fprintf_at ad)).
  destruct (abi_fprintf _ _ _ _ _ Habi R (xm x) (mem st)) as (R' & M' & Hc & (Hsv & Hk & Hpu) & Hm').
  { unfold R. regs. done. } { done. } { intros a [Ha|Ha]; [by apply Hsc|by apply Hsd]. }
  set (xs := [mov_imm (s64 (stderr_at ad)) RDI; mov_imm (s64 (fmt_at ad)) RSI; XAluRR true AMOV RCX RDX;
              mov_imm (s64 (fprintf_at ad)) RAX; XCall RAX; mov_imm (-1) RAX]).
  set (y := mk_x 0 (upd R' RAX UINT64_MAX) None M').
  assert (xseq callee xs x = Some y) as Hxs.
  { unfold xs. cbn [xseq straight]. rewrite !straight_mov_imm. rewrite load_imm_val by (apply sext_range; lia).
    rewrite load_imm_val by (apply sext_range; lia). rewrite mov_spec. rewrite load_imm_val by (apply sext_range; lia).
    cbn [xr xm flags]. rewrite !(upd_ne _ _ RCX) by done.
    rewrite (wrap_sext 64 (fprintf_at ad)), (wrap_small 64 (fprintf_at ad)) by (lia || apply (abi_fprintf_addr _ _ _ _ _ Habi)).
    fold R. cbn [xexec xr xm]. assert (R RAX = fprintf_at ad) as -> by apply upd_eq. rewrite Hc.
    rewrite load_imm_val by (unfold in_s; lia). done. }
  assert (program = (before (length prog) ++ asm_exit) ++ (AI <$> xs) ++ [AJmp TARGET_PC_EXIT]) as Hp.
  { unfold JitCode.program, before. by rewrite <- !app_assoc. }
  pose proof (run_straight _ xs _ x y Hp Hxs) as Hrun. rewrite <- loc_div in Hrun. exists y. split.
  - eapply xsteps_trans; [exact Hrun|]. eapply xsteps_step; [|constructor].
    rewrite (step_jmp ((before (length prog) ++ asm_exit) ++ (AI <$> xs)) TARGET_PC_EXIT []); [done| |done].
    by rewrite <- app_assoc.
  - exists (mk_state 0 [] (mem st)). split_and!; [|done|apply upd_eq]. unfold y. split; cbn [xr xm mem]; try done.
    + rewrite upd_ne, Hsv by (done || (unfold callee_saved; auto)). unfold R. by regs.
    + intros a Ha. split; [|by apply Hsc]. apply Hpu; [done|]. by apply Hsc.
    + intros a Ha. rewrite Hk by done. by apply Hsd.
Qed.

(** ** The simulation *)

Lemma at_start i st x inst :
  prog !! i = Some inst -> opcode inst <> 0 -> pc st = Z.of_nat i -> sim (valid Vs i) st x -> wf_state st ->
  exists o, at_slot i inst o st x.
Proof using Hok Hwf Ht.
  intros Hi H0 Hp Hs Hw. destruct (accepted_slot i inst Hi H0) as (o & Ho & Hop & Hwi & Hsr & Hd & H9).
  exists o. split; try done. by apply typed_slot.
Qed.

Lemma step_lands i inst o st x st' :
  at_slot i inst o st x -> exec_step vm env prog st = Continue st' -> lands i o inst x st'.
Proof using Hok Hn Hlen Hwf Hfit Hsp Habi.
  intros Ha He. pose proof Ha as [Hi Ho _ _ _ _ _ Hf Hpc _ _]. unfold exec_step in He.
  rewrite Hpc, Nat2Z.id, Hi, Ho in He. rewrite <- Hpc in He. fold (fetched st) in He.
  destruct (exec_alu o inst (fetched st)) as [r|] eqn:Ea.
  { subst r. destruct (div_of o) as [[w md]|] eqn:Ed; [by eapply step_div|by apply (step_alu i inst o st)]. }
  destruct (exec_mem env prog o inst (fetched st)) as [r|] eqn:Em; [subst r; by eapply step_mem|].
  destruct (exec_jmp vm o inst (fetched st)) as [r|] eqn:Ej.
  - subst r. destruct (jump_taken o 0 0 0) as [b|] eqn:Hj.
    + by eapply step_jump.
    + destruct o; cbn [exec_jmp] in Ej; try discriminate Ej; try discriminate Hj. injection Ej as Ej.
      eapply step_call; done.
  - exfalso. pose proof (sf_supported _ _ _ Hf) as Hsu. destruct o; discriminate.
Qed.

Lemma clean_fetch st v m : clean vm env prog st v m -> is_Some (prog !! Z.to_nat (pc st)).
Proof.
  destruct 1 as [? ? Hi|? ? ? Hi|? ? ? ? He]; [by eauto..|]. unfold exec_step in He.
  by destruct (prog !! Z.to_nat (pc st)); [eauto|].
Qed.

(** The next instruction is a start. *)
Lemma next_is_start i inst o j :
  prog !! i = Some inst -> op_of_opcode (opcode inst) = Some o -> Z.of_nat j ∈ next_pcs inst o (Z.of_nat i) ->
  (j < length prog)%nat -> starts prog j.
Proof using Hok Hlen.
  intros Hi Ho Hj Hlt. destruct (op_is_lddw o) eqn:Hl.
  - assert (o = EBPF_OP_LDDW) as -> by (by destruct o).
    destruct (lddw_succs vm prog Hok Hlen i inst Hi Ho) as (_ & _ & Hnx & Hst). rewrite Hnx in Hj.
    apply list_elem_of_singleton, Nat2Z.inj in Hj as ->. auto.
  - rewrite (next_pcs_succs vm prog Hok Hlen i inst o Hi Ho Hl) in Hj.
    apply list_elem_of_fmap in Hj as (u & E%Nat2Z.inj & Hu). subst u.
    by apply (succs_start vm prog Hok Hlen i inst o).
Qed.

Lemma exit_ready i inst st x :
  at_slot i inst EBPF_OP_EXIT st x ->
  steps (at_rip (alen (before i)) x) (at_rip exit_loc_of x) /\ ready (rget (reg st) 0) (mem st) x.
Proof using Hok Hn Hlen Hwf Hfit.
  intros Ha. pose proof Ha as [Hi Ho _ _ _ _ _ Hf Hpc Hsim Hw]. pose proof (as_lt _ _ _ _ _ Ha) as Hlt. split.
  - assert (slot_asm i = opt_list (negb (Z.of_nat i =? num_insts vm - 1)) [AJmp TARGET_PC_EXIT]) as Hsl
      by (by eapply slot_asm_eq).
    pose proof (program_at i Hlt) as Hp. rewrite Hsl, Hn in Hp. rewrite Hn in Hsl.
    destruct (Z.eqb_spec (Z.of_nat i) (Z.of_nat (length prog) - 1)) as [E|]; cbn [negb opt_list app] in *.
    + rewrite exit_loc_before. replace (length prog) with (S i) by (clear Hsp; lia). rewrite before_S, Hsl, app_nil_r. constructor.
    + eapply xsteps_step; [|constructor]. by rewrite (step_jmp (before i) TARGET_PC_EXIT (after i)).
  - exists st. split_and!; [by eapply sim_weaken|done|]. change RAX with (mr 0).
    eapply sim_regs; [done|done|]. by apply (sf_exit _ _ _ Hf).
Qed.

Lemma div_ready i inst o st x :
  at_slot i inst o st x ->
  alu_value o (rget (reg st) (dst inst)) (rget (reg st) (src inst)) (imm inst) = Some ADivZero ->
  exists y, steps (at_rip (alen (before i)) x) (at_rip exit_loc_of y) /\ ready UINT64_MAX (mem st) y.
Proof using Hok Hlen Hwf Hfit Hsp Habi.
  intros Ha Hz. pose proof Ha as [Hi Ho _ _ _ _ _ Hf Hpc Hsim Hw].
  assert (exists w md, div_of o = Some (w, md)) as (w & md & Hd).
  { destruct o; unfold alu_value in Hz; cbn [exec_alu32 exec_alu64] in Hz; try discriminate Hz; eauto.
    all: unfold shl, shr, udiv, umod in Hz; by repeat case_match. }
  pose proof (div_zero_value _ _ _ _ _ _ Hd Hz) as Hs0. destruct (div_check i inst o st x w md Ha Hd) as [f Hrun].
  rewrite Hs0 in Hrun. replace (wrap (width w) 0 =? 0) with true in Hrun by (by destruct w).
  set (x1 := mk_x 0 (upd (xr x) RCX (wrap 64 (u16 (Z.of_nat i)))) (Some f) (xm x)).
  destruct (div_zero_run (valid Vs i) st x1) as (y & Hy & Hr); [by apply sim_temp; [|apply temp_rcx|]|].
  exists y. split; [|done]. eapply xsteps_trans; [exact Hrun|exact Hy].
Qed.

(** From any instruction of a clean run. *)
Lemma sound_from st v m :
  clean vm env prog st v m -> forall i x m0,
  pc st = Z.of_nat i -> starts prog i -> sim (valid Vs i) st x -> good env W m0 st ->
  exists y z, steps (at_rip (alen (before i)) x) y /\ xstep callee code y = XDone z /\ returned v m z.
Proof using Hok Hn Hlen Hwf Hfit Ht Hsp Habi Henv Hext Hsv15 Hsv14 Hsv13 Hsvbx Hsvbp Hsvret.
  induction 1 as [st inst Hi Ho|st inst o Hi Ho Hz|st st' v m Hs Hcl IH]; intros i x m0 Hp (inst' & Hi' & H0) Hsim Hg.
  - rewrite Hp, Nat2Z.id, Hi' in Hi. injection Hi as ->.
    destruct (at_start i st x inst Hi' H0 Hp Hsim ltac:(apply Hg)) as [o Ha].
    pose proof (as_op _ _ _ _ _ Ha) as Ho'. rewrite Ho in Ho'. injection Ho' as <-.
    destruct (exit_ready i inst st x Ha) as [H1 H2]. destruct (exit_run _ _ _ H2) as (y & z & Hy & Hz & Hr).
    exists y, z. split_and!; try done. by eapply xsteps_trans.
  - rewrite Hp, Nat2Z.id, Hi' in Hi. injection Hi as ->.
    destruct (at_start i st x inst Hi' H0 Hp Hsim ltac:(apply Hg)) as [o' Ha].
    pose proof (as_op _ _ _ _ _ Ha) as Ho'. rewrite Ho in Ho'. injection Ho' as <-.
    destruct (div_ready i inst o st x Ha Hz) as (x1 & H1 & H2). destruct (exit_run _ _ _ H2) as (y & z & Hy & Hz' & Hr).
    exists y, z. split_and!; try done. by eapply xsteps_trans.
  - destruct (at_start i st x inst' Hi' H0 Hp Hsim ltac:(apply Hg)) as [o Ha].
    destruct (step_lands i inst' o st x st' Ha Hs) as (j & x1 & Hpj & Hrun & Hsim').
    assert (good env W m0 st') as Hg' by (pose proof (exec_step_good vm env prog W Henv Hext m0 st Hg) as G; by rewrite Hs in G).
    destruct (exec_step_next _ _ _ _ _ Hs) as (inst2 & Hi2 & Hnx). rewrite Hp, Nat2Z.id, Hi' in Hi2. injection Hi2 as <-.
    rewrite (as_op _ _ _ _ _ Ha), Hp, Hpj in Hnx.
    destruct (clean_fetch _ _ _ Hcl) as [i2 Hf]. rewrite Hpj, Nat2Z.id in Hf.
    destruct (IH j x1 m0 Hpj) as (y & z & Hy & Hz & Hr).
    + apply (next_is_start i inst' o j); [done|exact (as_op _ _ _ _ _ Ha)|done|by eapply lookup_lt_Some].
    + eapply sim_weaken; [done|]. intros r Hr Hv. eapply (sf_next _ _ _ (as_facts _ _ _ _ _ Ha)); [done|done|].
      by rewrite Nat2Z.id.
    + done.
    + exists y, z. split_and!; try done. by eapply xsteps_trans.
Qed.
End Sound.
