(* ===== verification/JitCorrect.v ===== *)
(** * Correctness of the compiler

    [ubpf_compile] and [ubpf_exec] agree on the programs of the supported fragment, and
    differ on concrete programs outside of it. *)

From S2P Require Import Prelude Ebpf Memory Vm Interp InterpProps ValidateInsts ValidateCfg.
From S2P Require Import ExecSafety MapDef.
From S2P Require Import X86 JitEnc Jit JitEmit JitAsm JitCode JitRun JitAlu JitSim JitInst.
From S2P Require Import JitSound.

(** ** Entry *)

(** How the caller enters the code: the context in RDI, a machine stack with room
    for the frame, apart from the memory of the program; the program's stack lies
    inside the frame, where the interpreter's [stack] is taken to be. *)
Record jit_entry (env : exec_env) (m : memory) (x : xstate) : Prop := {
  je_rip : rip x = 0;
  je_ctx : xr x RDI = mem_base env;
  je_rsp : xr x RSP = stack_base env + STACK_SIZE + 40;
  je_room : 16 <= stack_base env /\ stack_base env + STACK_SIZE + 48 < 2 ^ 64;
  je_saved : forall r, callee_saved r -> in_u 64 (xr x r);
  je_mem : m ⊆ xm x;
  je_frame : forall a, pushed (stack_base env) a \/ kept (stack_base env) a -> is_Some (xm x !! a) /\ m !! a = None
}.

(** Registers pushed one after the other. *)
Lemma push_list callee rs x top :
  xr x RSP = top -> Forall (fun r => r <> RSP /\ in_u 64 (xr x r)) rs ->
  let n := 8 * Z.of_nat (length rs) in
  0 <= top - n -> top <= 2 ^ 64 -> mapped (xm x) (top - n) (Z.to_nat n) ->
  exists p R M,
    (forall xs, xseq callee ((XPush <$> rs) ++ xs) x = xseq callee xs (mk_x p R (flags x) M)) /\
    R RSP = top - n /\ (forall r, r <> RSP -> R r = xr x r) /\
    (forall k r, rs !! k = Some r -> load_le M (top - 8 * Z.of_nat (S k)) 8 = Some (xr x r)) /\
    (forall a, ~ (top - n <= a < top) -> M !! a = xm x !! a) /\ dom M = dom (xm x).
Proof.
  revert x top. induction rs as [|r rs IH]; intros x top Hs Hrs n Hn Ht Hm.
  { exists (rip x), (xr x), (xm x). cbn in n. split_and!; try done; [by destruct x|lia]. }
  apply Forall_cons in Hrs as [[Hr Hv] Hrs]. cbn [length] in n.
  destruct (push_spec callee x (top - 8) r) as (M1 & E1 & L1 & F1 & D1); [lia|lia| |].
  { intros i Hi. apply Hm. lia. }
  set (x1 := mk_x 0 (upd (xr x) RSP (top - 8)) (flags x) M1) in *.
  assert (forall r', r' <> RSP -> xr x1 r' = xr x r') as Hx1 by (intros; by apply upd_ne).
  destruct (IH x1 (top - 8)) as (p & R & M & E & HR & Hrest & HL & HF & HD).
  - apply upd_eq.
  - eapply Forall_impl; [exact Hrs|]. cbn beta. intros r' [H1 H2]. by rewrite Hx1.
  - lia.
  - lia.
  - intros i Hi. apply elem_of_dom. unfold x1. cbn [xm]. rewrite D1. apply elem_of_dom, Hm. lia.
  - exists p, R, M. split_and!.
    + intros xs. cbn [fmap list_fmap app xseq straight]. rewrite E1. apply E.
    + lia.
    + intros r' H'. by rewrite Hrest, Hx1.
    + intros [|k] r' Hk; cbn in Hk.
      * injection Hk as <-. rewrite wrap_small in L1 by done. rewrite <- L1. change (8 * Z.of_nat 1) with 8.
        apply load_le_ext. intros i Hi. apply HF. lia.
      * specialize (HL k r' Hk). rewrite Hx1 in HL.
        -- rewrite <- HL. f_equal. lia.
        -- rewrite Forall_lookup in Hrs. by apply (Hrs k r').
    + intros a Ha. rewrite HF by lia. unfold x1. cbn [xm]. apply F1. lia.
    + rewrite HD. exact D1.
Qed.

Definition prologue_insts : list xinst :=
  (XPush <$> [RBP; RBX; R13; R14; R15]) ++
  [XAluRR true AMOV RDX R10; XAluRR true AMOV RSP RBP; XAluRI true ASUB STACK_SIZE RSP].

(** The frame behind the prologue. *)
Lemma prologue_run callee env m x :
  jit_entry env m x ->
  let sp := stack_base env in let B := sp + STACK_SIZE in
  exists y, xseq callee prologue_insts x = Some y /\
    xr y RSP = sp /\ xr y RBP = B /\ xr y RDI = mem_base env /\
    (forall a, ~ kept sp a -> xm y !! a = xm x !! a) /\ dom (xm y) = dom (xm x) /\
    load_le (xm y) B 8 = Some (xr x R15) /\ load_le (xm y) (B + 8) 8 = Some (xr x R14) /\
    load_le (xm y) (B + 16) 8 = Some (xr x R13) /\ load_le (xm y) (B + 24) 8 = Some (xr x RBX) /\
    load_le (xm y) (B + 32) 8 = Some (xr x RBP).
Proof.
  intros [Hrip Hctx Hrsp Hroom Hsv Hm Hfr] sp B. fold sp in Hrsp, Hroom, Hfr. fold B in Hrsp, Hroom.
  assert (0 <= sp /\ sp + STACK_SIZE = B) as [Hs0 HB] by (unfold B; lia).
  destruct (push_list callee [RBP; RBX; R13; R14; R15] x (B + 40)) as (p & R & M & E & HR & Hrest & HL & HF & HD); [done| | | | |].
  { unfold callee_saved in Hsv. repeat (apply Forall_cons; split; [split; [done|apply Hsv; autounfold with consts; tauto]|]). by constructor. }
  { cbn. clia. } { clia. }
  { cbn [length]. intros i Hi. apply Hfr. right. unfold kept. lia. }
  cbn [length] in *.
  pose proof (HL 0%nat _ eq_refl) as L0. pose proof (HL 1%nat _ eq_refl) as L1. pose proof (HL 2%nat _ eq_refl) as L2.
  pose proof (HL 3%nat _ eq_refl) as L3. pose proof (HL 4%nat _ eq_refl) as L4.
  replace (B + 40 - 8 * Z.of_nat 1) with (B + 32) in L0 by lia. replace (B + 40 - 8 * Z.of_nat 2) with (B + 24) in L1 by lia.
  replace (B + 40 - 8 * Z.of_nat 3) with (B + 16) in L2 by lia. replace (B + 40 - 8 * Z.of_nat 4) with (B + 8) in L3 by lia.
  replace (B + 40 - 8 * Z.of_nat 5) with B in L4, HR by lia.
  assert (wrap 64 B = B) as EB by (apply wrap_small; unfold in_u; clia).
  unfold prologue_insts. rewrite E. cbn [xseq straight]. rewrite !mov_spec.
  cbn [xexec writes alu_val width alu_flags xr flags xm].
  eexists. split; [reflexivity|]. cbn [xr xm]. regs. rewrite HR, !EB. split_and!; try done.
  - rewrite (wrap_small 64 STACK_SIZE) by (unfold in_u; clia). replace (B - STACK_SIZE) with sp by lia.
    apply wrap_small. unfold in_u. clia.
  - by rewrite Hrest.
  - intros a Ha. apply HF. unfold kept in Ha. lia.
Qed.

(** ** The theorem *)

Definition entry_state (env : exec_env) (regs0 : list Z) (m : memory) : exec_state :=
  mk_state 0 (rset (rset regs0 1 (mem_base env)) 10 (u64 (stack_base env + STACK_SIZE))) m.

(** The registers the code leaves for its caller. *)
Definition returns_to_caller (x z : xstate) : Prop :=
  xr z RSP = xr x RSP + 8 /\
  xr z RBP = xr x RBP /\ xr z RBX = xr x RBX /\ xr z R13 = xr x R13 /\ xr z R14 = xr x R14 /\ xr z R15 = xr x R15.

Lemma entry_sim env regs0 m x y Vs :
  jit_entry env m x -> length regs0 = 16%nat ->
  (forall r, 0 <= r <= 10 -> valid Vs 0 r = true -> r = 1 \/ r = 10) ->
  xr y RSP = stack_base env -> xr y RBP = stack_base env + STACK_SIZE -> xr y RDI = mem_base env ->
  (forall a, ~ kept (stack_base env) a -> xm y !! a = xm x !! a) -> dom (xm y) = dom (xm x) ->
  sim (stack_base env) (xm y) (valid Vs 0) (entry_state env regs0 m) y.
Proof.
  intros [Hrip Hctx Hrsp Hroom Hsv Hm Hfr] Hl HV Hs Hbp Hdi Hma Hdom. split; cbn [entry_state reg mem].
  - intros r Hr Hv. rewrite rget_rset by (lia || (unfold rset; by rewrite length_insert)).
    destruct (HV r Hr Hv) as [-> | ->]; cbn [Z.eqb Pos.eqb].
    + rewrite rget_rset by (done || lia). done.
    + rewrite wrap_small by (unfold in_u; clia). done.
  - done.
  - apply map_subseteq_spec. intros a b Ha. rewrite Hma; [by eapply lookup_weaken|].
    intros Hk. destruct (Hfr a (or_intror Hk)). congruence.
  - intros a Ha. destruct (Hfr a (or_introl Ha)) as [H1 H2]. split; [|done]. apply elem_of_dom. rewrite Hdom. by apply elem_of_dom.
  - intros a Ha. split; [done|]. by apply Hfr; right.
Qed.

Lemma typed_entry nargs prog Vs r :
  typed nargs prog Vs = true -> 0 <= r <= 10 -> valid Vs 0 r = true -> r = 1 \/ r = 10.
Proof.
  unfold typed. intros [_ H]%andb_true_iff Hr Hv. apply (forallb_elem _ _ r) in H; [|by apply in_regs11].
  cbn beta in H. rewrite Hv in H. cbn [negb orb] in H. lia.
Qed.

(** C3: the compiler is correct on its supported fragment.  Take a program that the
    verifier's first pass accepts and that [typed] accepts (only instructions on which
    the compiler and the interpreter agree, every register read holds a value on all paths,
    r1 to r5 not read after a call), compiled to [code].  If the interpreter's run from the
    entry ends with EXIT or a division by zero, with value [v] and memory [m'], then the
    compiled code, entered by a C caller, returns with [v] in RAX, the same memory, the
    stack pointer popped and the registers of the caller restored.  C functions are
    assumed to follow the calling convention. *)
Theorem jit_correct vm ad prog code env W nargs Vs callee regs0 m v m' x :
  insts vm = Some prog -> num_insts vm = Z.of_nat (length prog) -> Z.of_nat (length prog) < MAX_INSTS ->
  Forall wf_inst prog -> validate_instructions vm prog = Ok tt ->
  ubpf_compile vm ad None true true = (Some code, Ok code) ->
  typed nargs prog Vs = true ->
  wf_env env -> ext_ok vm env W -> abi vm ad nargs (stack_base env) callee ->
  length regs0 = 16%nat -> Forall (in_u 64) regs0 -> wf_memory m -> user_memory m -> jit_entry env m x ->
  clean vm env prog (entry_state env regs0 m) v m' ->
  (exists fuel, ubpf_exec fuel vm env regs0 m = Returned v m') /\
  exists fuel z, xrun callee fuel code x = Some (XDone z) /\
    xr z RAX = v /\ m' ⊆ xm z /\ returns_to_caller x z.
Proof.
  intros Hi Hn Hlen Hwf Hv Hcomp Ht Henv Hext Habi Hl Hr Hm Hu Hent Hcl.
  split. { unfold ubpf_exec. rewrite Hi. by apply clean_returns. }
  apply validate_instructions_insts_ok in Hv as Hok.
  destruct (clean_fetch vm prog env _ _ _ Hcl) as [i0 Hi0]. cbn [entry_state pc] in Hi0.
  change (Z.to_nat 0) with 0%nat in Hi0. pose proof (lookup_lt_Some _ _ _ Hi0) as H0.
  pose proof (compile_spec vm ad prog Hok Hn Hlen Hwf Hi H0) as Hspec. cbv zeta in Hspec. rewrite Hcomp in Hspec.
  destruct (Z.leb_spec (alen (program vm ad prog)) 65536) as [Hfit|]; [|done]. injection Hspec as Hcode.
  change (code = JitRun.code vm ad prog) in Hcode. subst code.
  destruct (prologue_run callee env m x Hent) as (y & Hy & Hsp & Hbp & Hdi & Hma & Hdom & L15 & L14 & L13 & Lbx & Lbp).
  pose proof Hent as [Hrip _ Hrsp Hroom _ _ Hfr].
  destruct (proj1 (load_le_mapped (xm y) (stack_base env + STACK_SIZE + 40) 8)) as [ret0 Lret].
  { intros a Ha. apply elem_of_dom. rewrite Hdom. apply elem_of_dom, Hfr. right. unfold kept. lia. }
  pose proof (entry_sim env regs0 m x y Vs Hent Hl (fun r => typed_entry nargs prog Vs r Ht) Hsp Hbp Hdi Hma Hdom) as Hsim.
  assert (starts prog 0) as Hst.
  { exists i0. split; [done|]. intros Hz. specialize (Hok 0%nat i0 Hi0). rewrite Hz in Hok. by destruct Hok as (? & ? & _). }
  destruct (sound_from vm ad prog Hok Hn Hlen Hwf Hfit nargs Vs Ht callee (stack_base env) (xm y) Hroom Habi env W Henv Hext
    _ _ _ _ _ _ L15 L14 L13 Lbx Lbp Lret _ _ _ Hcl 0%nat y m eq_refl Hst Hsim) as (y1 & z & Hrun & Hdone & Hax & Hmz & Hsz & H1 & H2 & H3 & H4 & H5).
  { split_and!; [by apply wf_entry|done|by intros a _ _]. }
  pose proof (run_straight vm ad prog Hok Hlen Hwf Hfit callee [] prologue_insts
    (slots vm ad prog 0 (length prog) ++ asm_exit ++ asm_div_by_zero ad) x y eq_refl Hy) as Hpro.
  destruct (xsteps_run callee (JitRun.code vm ad prog) x y1 (XDone z)) as [fuel Hfuel].
  - eapply xsteps_trans; [|exact Hrun]. assert (x = at_rip (alen []) x) as Hx by (destruct x; cbn in Hrip; by subst).
    rewrite Hx at 1. exact Hpro.
  - done.
  - done.
  - exists fuel, z. split_and!; try done. unfold returns_to_caller. rewrite Hrsp. split_and!; try done. rewrite Hsz. lia.
Qed.

(** ** A concrete machine *)

(** A context at 4096, the frame at 8176 to 9264; RSP points at a return address. *)
Definition jit_env : exec_env := mk_env 4096 64 8192.
Definition jit_ad : jit_addrs := mk_addrs (fun i => 0x500000 + u8 i) 0x7ffff0000010 0x400000 0x7fff00000020.
Definition zeros (base : Z) (n : nat) : memory := list_to_map ((fun i => (base + Z.of_nat i, 0)) <$> seq 0 n).
Definition jit_frame : memory := zeros 8176 (Z.to_nat 1088).
Definition jit_x : xstate := mk_x 0 (upd (upd (fun r => 100 + u8 r) RDI 4096) RSP 9256) None jit_frame.

(** The sum of two arguments, as the interpreter calls it and as the machine does:
    the code returns in RAX and clobbers the argument registers. *)
Definition add_func : ext_func := fun args m =>
  Some (default 0 (args !! 0%nat) + default 0 (args !! 1%nat), m).
Definition jit_callee (a : Z) (R : Z -> Z) (M : memory) : option ((Z -> Z) * memory) :=
  if a =? 0x500001 then Some (upd (upd (upd R RDI 0) RSI 0) RAX (u64 (R RDI + R RSI)), M)
  else if a =? 0x7fff00000020 then Some (upd R RAX 0, M)
  else None.
Definition jit_vm (prog : list ebpf_inst) : ubpf_vm :=
  let vm := (ubpf_register_function (ubpf_create 1) 1 "add"
               (mk_proto (Some add_func) (replicate 5 UNINIT) (replicate 5 SIZE_64) UNINIT)).2 in
  mk_vm (prog_id vm) (Some prog) (Z.of_nat (length prog)) (ext_funcs vm) (ext_func_names vm) (ext_maps vm)
    (ext_map_names vm) (nb_maps vm) (loaded_at vm).

Lemma zeros_lookup base n a : base <= a < base + Z.of_nat n -> is_Some (zeros base n !! a).
Proof.
  intros Ha. unfold zeros. apply elem_of_dom. rewrite dom_list_to_map_L. apply elem_of_list_to_set.
  rewrite <- list_fmap_compose. apply list_elem_of_fmap. exists (Z.to_nat (a - base)). split; [unfold compose; simpl; lia|].
  apply elem_of_seq. lia.
Qed.

Lemma jit_entry_x : jit_entry jit_env ∅ jit_x.
Proof.
  split.
  - reflexivity.
  - reflexivity.
  - reflexivity.
  - split; vm_compute; congruence.
  - intros r Hr. unfold callee_saved in Hr. unfold jit_x. cbn [xr].
    by repeat destruct Hr as [->|Hr]; try rewrite Hr; split; vm_compute.
  - apply map_empty_subseteq.
  - intros a Ha. split; [|apply lookup_empty]. cbn [jit_x xm]. apply zeros_lookup.
    unfold pushed, kept, jit_env in Ha. cbn [stack_base] in Ha. clia.
Qed.

Lemma jit_vm_func prog idx p f :
  0 <= idx -> ext_funcs (jit_vm prog) !! Z.to_nat idx = Some p -> func p = Some f -> idx = 1 /\ f = add_func.
Proof.
  intros H0 Hp Hf. destruct (decide (idx = 1)) as [->|Hne].
  - cbn in Hp. injection Hp as <-. cbn in Hf. by injection Hf as <-.
  - assert (ext_funcs (jit_vm prog) !! Z.to_nat idx = replicate 64 null_proto !! Z.to_nat idx) as E.
    { apply (list_lookup_insert_ne (replicate 64 null_proto)). lia. }
    rewrite E in Hp. apply lookup_replicate in Hp as [-> _]. done.
Qed.

Lemma jit_abi prog : abi (jit_vm prog) jit_ad (fun _ => 2) (stack_base jit_env) jit_callee.
Proof.
  split.
  - intros idx. unfold jit_ad. cbn [func_at]. pose proof (wrap_range 8 idx). unfold in_u in *. lia.
  - by split; vm_compute.
  - intros idx p f args args' m H0 Hp Hf E. destruct (jit_vm_func _ _ _ _ H0 Hp Hf) as [_ ->]. unfold add_func.
    change (Z.to_nat 2) with 2%nat in E. destruct args as [|a [|b args]], args' as [|a' [|b' args']]; cbn in *; by simplify_eq.
  - intros idx p f R M m v m' H0 Hp Hf Hs Hm Hno Hv. destruct (jit_vm_func _ _ _ _ H0 Hp Hf) as [-> ->].
    injection Hv as <- <-. exists (upd (upd (upd R RDI 0) RSI 0) RAX (u64 (R RDI + R RSI))), M.
    split; [done|]. split; [|done]. split; [|by split]. intros r Hr. rewrite !upd_ne; [done|..].
    all: intros ->; by repeat destruct Hr as [Hr|Hr].
  - intros R M m Hs Hm _. exists (upd R RAX 0), M. split; [done|]. split; [|done]. split; [|by split].
    intros r Hr. rewrite upd_ne; [done|]. intros ->. by repeat destruct Hr as [Hr|Hr].
Qed.

Lemma jit_ext_ok prog : ext_ok (jit_vm prog) jit_env (fun _ => False).
Proof.
  intros p f args m v m' Hp Hf Hv Hm Hu. apply list_elem_of_lookup_1 in Hp as [i Hi].
  destruct (jit_vm_func prog (Z.of_nat i) p f) as [_ ->]; [lia|by rewrite Nat2Z.id|done|].
  injection Hv as <- <-. by split_and!.
Qed.

(** [r1 = 20; r2 = 22; r0 = add(r1, r2); r2 = 2; r0 /= r2; if r0 == 21 goto +1; r0 = 0; exit]. *)
Definition jit_prog : list ebpf_inst :=
  [mk_op EBPF_OP_MOV64_IMM 1 0 0 20; mk_op EBPF_OP_MOV64_IMM 2 0 0 22; mk_op EBPF_OP_CALL 0 0 0 1;
   mk_op EBPF_OP_MOV64_IMM 2 0 0 2; mk_op EBPF_OP_DIV64_REG 0 2 0 0; mk_op EBPF_OP_JEQ_IMM 0 0 1 21;
   mk_op EBPF_OP_MOV64_IMM 0 0 0 0; mk_op EBPF_OP_EXIT 0 0 0 0].
Definition jit_valid : list (list Z) := [[]; [1]; [1; 2]; [0]; [0; 2]; [0]; []; [0]].

Definition compiled (prog : list ebpf_inst) : bytes := default [] (ubpf_compile (jit_vm prog) jit_ad None true true).1.

Lemma jit_correct_witness :
  (exists fuel, ubpf_exec fuel (jit_vm jit_prog) jit_env (replicate 16 7) ∅ = Returned 21 ∅) /\
  exists fuel z, xrun jit_callee fuel (compiled jit_prog) jit_x = Some (XDone z) /\ xr z RAX = 21 /\
    ∅ ⊆ xm z /\ returns_to_caller jit_x z.
Proof.
  apply (jit_correct (jit_vm jit_prog) jit_ad jit_prog (compiled jit_prog) jit_env (fun _ => False) (fun _ => 2) jit_valid jit_callee
    (replicate 16 7) ∅ 21 ∅ jit_x).
  - reflexivity.
  - reflexivity.
  - vm_compute; reflexivity.
  - repeat (apply Forall_cons; split; [by repeat split; vm_compute|]). by apply Forall_nil.
  - vm_compute; reflexivity.
  - vm_compute; reflexivity.
  - vm_compute; reflexivity.
  - split; simpl; clia.
  - apply jit_ext_ok.
  - apply jit_abi.
  - reflexivity.
  - apply Forall_replicate. unfold in_u. lia.
  - intros a b H. done.
  - intros a [b H]. done.
  - apply jit_entry_x.
  - do 6 (eapply clean_step; [vm_compute; reflexivity|]).
    match goal with |- clean ?a ?b ?c ?st _ _ => exact (clean_exit a b c st (mk_op EBPF_OP_EXIT 0 0 0 0) eq_refl eq_refl) end.
Defined.

(** ** The size of the code *)

(** C34: for a program that the verifier's first pass accepts, the compiler
    reads and writes inside its tables and either returns the encoding of the program's
    listing, with every jump offset resolved to the place where its target starts, or
    aborts the process: exactly when the code is longer than the 65536 bytes of the buffer. *)
Theorem ubpf_compile_exact vm ad prog :
  insts vm = Some prog -> num_insts vm = Z.of_nat (length prog) -> Z.of_nat (length prog) < MAX_INSTS ->
  (0 < length prog)%nat -> Forall wf_inst prog -> validate_instructions vm prog = Ok tt ->
  ubpf_compile vm ad None true true =
  if alen (program vm ad prog) <=? 65536
  then (Some (final_code (loc vm ad prog) 0 (listing (program vm ad prog))),
        Ok (final_code (loc vm ad prog) 0 (listing (program vm ad prog))))
  else (None, Err JAbort).
Proof.
  intros Hi Hn Hlen H0 Hwf Hv. apply validate_instructions_insts_ok in Hv. by apply compile_spec.
Qed.

(** 9400 additions of seven bytes do not fit. *)
Definition big_prog : list ebpf_inst :=
  replicate (Z.to_nat 9400) (mk_op EBPF_OP_ADD64_IMM 0 0 0 1) ++ [mk_op EBPF_OP_EXIT 0 0 0 0].

Lemma ubpf_compile_exact_witness :
  ubpf_compile (jit_vm jit_prog) jit_ad None true true = (Some (compiled jit_prog), Ok (compiled jit_prog)).
Proof.
  rewrite (ubpf_compile_exact (jit_vm jit_prog) jit_ad jit_prog).
  - vm_compute; reflexivity.
  - reflexivity.
  - reflexivity.
  - vm_compute; reflexivity.
  - vm_compute; lia.
  - repeat (apply Forall_cons; split; [by repeat split; vm_compute|]). by apply Forall_nil.
  - vm_compute; reflexivity.
Defined.

(** ** Where the two differ *)

Definition return_value (r : option xresult) : option Z :=
  match r with Some (XDone z) => Some (xr z RAX) | _ => None end.
Definition interp_value (r : exec_result) : option Z := match r with Returned v _ => Some v | _ => None end.

(** The interpreter's and the compiled code's value of an accepted program. *)
Definition both (prog : list ebpf_inst) : option (option Z * option Z) :=
  match validate_instructions (jit_vm prog) prog with
  | Ok tt =>
      Some (interp_value (ubpf_exec (length prog) (jit_vm prog) jit_env (replicate 16 0) ∅),
            return_value (xrun jit_callee 100 (compiled prog) jit_x))
  | _ => None
  end.

Definition ret0 (l : list ebpf_inst) : list ebpf_inst := l ++ [mk_op EBPF_OP_EXIT 0 0 0 0].
(** [r0 = 0; r1 = 8; r1 /= 2; r0 = r1]: the divisor tested for zero is r0. *)
Definition div_imm_prog : list ebpf_inst :=
  ret0 [mk_op EBPF_OP_MOV64_IMM 0 0 0 0; mk_op EBPF_OP_MOV64_IMM 1 0 0 8; mk_op EBPF_OP_DIV64_IMM 1 0 0 2;
        mk_op EBPF_OP_MOV64_REG 0 1 0 0].
(** [r0 = 5; r1 = 8; r1 *= 0; r0 = r1]: an immediate 0 is taken for a register operand. *)
Definition mul_zero_prog : list ebpf_inst :=
  ret0 [mk_op EBPF_OP_MOV64_IMM 0 0 0 5; mk_op EBPF_OP_MOV64_IMM 1 0 0 8; mk_op EBPF_OP_MUL64_IMM 1 0 0 0;
        mk_op EBPF_OP_MOV64_REG 0 1 0 0].
(** [r1 = -1; w0 = w1]: the 32-bit move copies 64 bits. *)
Definition mov32_prog : list ebpf_inst :=
  ret0 [mk_op EBPF_OP_MOV64_IMM 1 0 0 (-1); mk_op EBPF_OP_MOV_REG 0 1 0 0].
(** [r0 = 0x12345; r0 = le16 r0]: no truncation. *)
Definition le16_prog : list ebpf_inst :=
  ret0 [mk_op EBPF_OP_MOV64_IMM 0 0 0 0x12345; mk_op EBPF_OP_LE 0 0 0 16].
(** [r1 = 2^32; r0 = 1; if r1 > -1 goto +1; r0 = 0]: the immediate is sign-extended. *)
Definition jgt_prog : list ebpf_inst :=
  ret0 [mk_op EBPF_OP_MOV64_IMM 1 0 0 1; mk_op EBPF_OP_LSH64_IMM 1 0 0 32; mk_op EBPF_OP_MOV64_IMM 0 0 0 1;
        mk_op EBPF_OP_JGT_IMM 1 0 1 (-1); mk_op EBPF_OP_MOV64_IMM 0 0 0 0].
(** [r1 = 40; r0 = 1; w0 <<= w1]: the processor takes the count modulo 32. *)
Definition lsh32_prog : list ebpf_inst :=
  ret0 [mk_op EBPF_OP_MOV64_IMM 1 0 0 40; mk_op EBPF_OP_MOV64_IMM 0 0 0 1; mk_op EBPF_OP_LSH_REG 0 1 0 0].
(** [r1 = 3; r2 = 4; r0 = add(r1, r2); r0 = r1]: a call clobbers r1. *)
Definition call_prog : list ebpf_inst :=
  ret0 [mk_op EBPF_OP_MOV64_IMM 1 0 0 3; mk_op EBPF_OP_MOV64_IMM 2 0 0 4; mk_op EBPF_OP_CALL 0 0 0 1;
        mk_op EBPF_OP_MOV64_REG 0 1 0 0].


Example jit_prog_agrees : both jit_prog = Some (Some 21, Some 21).
Proof. vm_compute; reflexivity. Qed.

Lemma big_prog_aborts : ubpf_compile (jit_vm big_prog) jit_ad None true true = (None, Err JAbort).
Proof.
  rewrite (compile_spec (jit_vm big_prog) jit_ad big_prog).
  - assert ((alen (program (jit_vm big_prog) jit_ad big_prog) <=? 65536) = false) as -> by (vm_compute; reflexivity). done.
  - apply validate_instructions_insts_ok. vm_compute. reflexivity.
  - vm_compute. reflexivity.
  - vm_compute. reflexivity.
  - apply Forall_app. split; [apply Forall_replicate|apply Forall_singleton]; by repeat split; vm_compute.
  - reflexivity.
  - apply Nat.ltb_lt. vm_compute. reflexivity.
Qed.
