(* ===== verification/BpfProg.v ===== *)
(** * Loading a program (lib/bpf.c, [load_bpf_prog])

    Loads the object file, then compiles the program; the compiled code is kept in
    [vm->jitted], here an argument and a result. *)

From S2P Require Import Prelude Ebpf Memory Vm Interp InterpProps ValidateInsts ValidateCfg.
From S2P Require Import ExecSafety.
From S2P Require Import RegState AluRange ValidateAccesses WalkProps Helpers AccessSound.
From S2P Require Import MapDef Maps Loader LoaderProps LoaderInv.
From S2P Require Import X86 JitEnc Jit JitEmit JitAsm JitCode.

(** [Err tt]: a failed assertion ends the process. *)
Definition load_bpf_prog (verifier : bool) (indet : walk -> Z) (now : Z) (fresh : nat -> Z) (str_addr : Z) (spare : bytes)
    (ad : jit_addrs) (mmap_ok mprotect_ok : bool) (vm : ubpf_vm) (jitted : option bytes) (maps : gmap Z ubpf_map) (elf : bytes) :
    res unit (bool * lstate * option bytes) :=
  match ubpf_load_elf verifier indet now fresh str_addr spare vm maps elf with
  | Ok (rv, _, st) =>
      if rv <? 0 then Ok (false, st, jitted)
      else
        match ubpf_compile (l_vm st) ad jitted mmap_ok mprotect_ok with
        | (j, Ok _) => Ok (true, st, j)
        | (_, Err JAbort) => Err tt
        | (j, Err _) => Ok (false, st, j)
        | (_, Undef) => Undef
        end
  | Err e => Err e
  | Undef => Undef
  end.

Lemma insts_of_bytes_wf n bs : (length bs <= n)%nat -> wf_bytes bs -> Forall wf_inst (insts_of_bytes bs).
Proof.
  revert bs. induction n as [|n IH]; intros bs Hn Hb.
  - destruct bs; [by constructor|cbn in Hn; lia].
  - destruct bs as [|b0 [|b1 [|b2 [|b3 [|b4 [|b5 [|b6 [|b7 bs]]]]]]]]; cbn [insts_of_bytes]; try by constructor.
    unfold wf_bytes in *. rewrite !Forall_cons in Hb. destruct Hb as (?&?&?&?&?&?&?&?&Hb).
    constructor; [by apply wf_inst_of_bytes|]. apply IH; [cbn in Hn; lia|done].
Qed.

(** ** The outcome *)

(** The program behind the machine, with the facts the compiler relies on. *)
Record loaded (vm : ubpf_vm) (prog : list ebpf_inst) : Prop := {
  ld_insts : insts vm = Some prog;
  ld_num : num_insts vm = Z.of_nat (length prog);
  ld_len : Z.of_nat (length prog) < MAX_INSTS;
  ld_wf : Forall wf_inst prog;
  ld_valid : validate_instructions vm prog = Ok tt;
  ld_cfg : validate_cfg prog = Ok tt
}.

Lemma load_elf_loaded indet now fresh str_addr spare vm maps elf r e st :
  wf_bytes elf -> ubpf_load_elf true indet now fresh str_addr spare vm maps elf = Ok (r, e, st) ->
  r = -1 \/ (r = 0 /\ exists prog, loaded (l_vm st) prog).
Proof.
  intros Hw H. destruct (load_elf_outcome _ _ _ _ _ _ _ _ _ _ _ H) as [(-> & _)|(-> & _ & _ & Hf & vm1 & size & Hs & _ & Hv & Hi & Hn & _)];
    [by left|]. right. split; [done|]. exists (insts_of_bytes (take size (l_text st))).
  apply validate_Ok in Hv as (Hlen & Hok & Hc & _). split; try done.
  - eapply insts_of_bytes_wf; [done|]. apply Forall_take. by eapply load_elf_bytes.
  - apply validate_instructions_insts_ok. apply (insts_ok_ext vm1); [|done].
    destruct Hs as (_ & _ & Hs & _). by rewrite Hf.
Qed.

Lemma load_bpf_prog_spec indet now fresh str_addr spare ad mmap_ok mprotect_ok vm maps elf :
  wf_bytes elf ->
  match load_bpf_prog true indet now fresh str_addr spare ad mmap_ok mprotect_ok vm None maps elf with
  | Ok (false, _, j) => j = None
  | Ok (true, st, j) =>
      exists prog, loaded (l_vm st) prog /\ alen (program (l_vm st) ad prog) <= 65536 /\
        j = Some (final_code (loc (l_vm st) ad prog) 0 (listing (program (l_vm st) ad prog)))
  | Err _ =>
      exists e st prog, ubpf_load_elf true indet now fresh str_addr spare vm maps elf = Ok (0, e, st) /\
        loaded (l_vm st) prog /\ 65536 < alen (program (l_vm st) ad prog)
  | Undef => ubpf_load_elf true indet now fresh str_addr spare vm maps elf = Undef
  end.
Proof.
  intros Hw. unfold load_bpf_prog.
  destruct (ubpf_load_elf true indet now fresh str_addr spare vm maps elf) as [[[r e] st]|e|] eqn:El; [| |done].
  2: { exfalso. revert El. unfold ubpf_load_elf. repeat case_match; done. }
  destruct (load_elf_loaded _ _ _ _ _ _ _ _ _ _ _ Hw El) as [-> |[-> [prog Hp]]]; [done|]. cbn [Z.ltb Z.compare].
  pose proof Hp as [Hi Hn Hlen Hwf Hv Hc]. apply validate_instructions_insts_ok in Hv.
  assert (0 < length prog)%nat as H0 by (destruct prog; [done|cbn; lia]).
  pose proof (compile_spec (l_vm st) ad prog Hv Hn Hlen Hwf Hi H0) as Hs. cbv zeta in Hs.
  unfold ubpf_compile in *. rewrite Hi in *. cbn [negb] in Hs.
  destruct (Z.leb_spec (alen (program (l_vm st) ad prog)) 65536).
  - destruct (let! st1 := translate (l_vm st) ad prog jit_init in resolve_jumps st1) as [st2|e2|]; [|done|done].
    injection Hs as Hs. destruct mmap_ok, mprotect_ok; cbn [negb]; try done. exists prog. by rewrite Hs.
  - destruct (let! st1 := translate (l_vm st) ad prog jit_init in resolve_jumps st1) as [st2|e2|]; [done| |done].
    injection Hs as ->. by exists e, st, prog.
Qed.

(** what loading leaves, for every file of bytes and with the verifier on, on a
    machine without code: the call fails and there is no code; or it succeeds, the program was
    accepted, and the code is the encoding of its listing with resolved jumps, of at most
    65536 bytes; or the process ends because the listing of the accepted program is longer. *)
Theorem load_bpf_prog_outcome indet now fresh str_addr spare ad mmap_ok mprotect_ok vm maps elf :
  wf_bytes elf ->
  match load_bpf_prog true indet now fresh str_addr spare ad mmap_ok mprotect_ok vm None maps elf with
  | Ok (false, _, j) => j = None
  | Ok (true, st, j) =>
      exists prog, loaded (l_vm st) prog /\ alen (program (l_vm st) ad prog) <= 65536 /\
        j = Some (final_code (loc (l_vm st) ad prog) 0 (listing (program (l_vm st) ad prog)))
  | Err _ =>
      exists e st prog, ubpf_load_elf true indet now fresh str_addr spare vm maps elf = Ok (0, e, st) /\
        loaded (l_vm st) prog /\ 65536 < alen (program (l_vm st) ad prog)
  | Undef => ubpf_load_elf true indet now fresh str_addr spare vm maps elf = Undef
  end.
Proof. apply load_bpf_prog_spec. Qed.

(** The sample object file, with a map and a call, on a machine with the helpers. *)
Definition sample_addrs : jit_addrs := mk_addrs (fun i => 0x500000 + u8 i) 0x7ffff0000010 0x400000 0x7fff00000020.

Lemma sample_elf2_bytes : wf_bytes (sample_elf (rel 8 1 1 ++ rel 40 2 2)).
Proof.
  assert (forallb (fun b => (0 <=? b) && (b <? 256)) (sample_elf (rel 8 1 1 ++ rel 40 2 2)) = true) as H
    by (vm_compute; reflexivity).
  apply Forall_forall. intros b Hb. apply forallb_forall with (x := b) in H; [|by apply list_elem_of_In].
  apply andb_true_iff in H as [?%Z.leb_le ?%Z.ltb_lt]. by unfold in_u.
Qed.

Lemma load_bpf_prog_outcome_witness :
  let load := load_bpf_prog true (fun _ => 0) 7 sample_fresh 0x5000 [] sample_addrs in
  let elf := sample_elf (rel 8 1 1 ++ rel 40 2 2) in
  match load true true (create_ubpf_vm no_impls 1) None ∅ elf with
  | Ok (true, st, Some code) =>
      exists prog, loaded (l_vm st) prog /\ alen (program (l_vm st) sample_addrs prog) <= 65536 /\
        code = final_code (loc (l_vm st) sample_addrs prog) 0 (listing (program (l_vm st) sample_addrs prog))
  | _ => False
  end.
Proof.
  intros load elf.
  pose proof (load_bpf_prog_outcome (fun _ => 0) 7 sample_fresh 0x5000 [] sample_addrs true true
                (create_ubpf_vm no_impls 1) ∅ elf sample_elf2_bytes) as H.
  fold load in H.
  assert (match load true true (create_ubpf_vm no_impls 1) None ∅ elf with Ok (true, _, Some _) => True | _ => False end) as H0
    by (vm_compute; exact I).
  revert H0 H. generalize (load true true (create_ubpf_vm no_impls 1) None ∅ elf).
  intros [[[[] st] [code|]]|e|] H0 H; try destruct H0.
  destruct H as (prog & Hp & Hl & Hc). exists prog. split; [exact Hp|]. split; [exact Hl|]. injection Hc as Hc. exact Hc.
Defined.
