(* ===== verification/OfpBuf.v ===== *)
(** * Buffers (lib/ofpbuf.c, include/openvswitch/ofpbuf.h)

    An ofpbuf is a block of memory with a part of it in use, and two pointers into it.
    Every allocation gives the block a new number, so that a pointer kept across a
    reallocation is recognised as stale.  The contents of fresh memory is an argument
    [junk].  A failed [ovs_assert] is [Err tt]. *)

From S2P Require Import Prelude MapDef.

Inductive ofpbuf_source : Set := OFPBUF_MALLOC | OFPBUF_STACK | OFPBUF_STUB.

#[export] Instance ofpbuf_source_eq_dec : EqDecision ofpbuf_source.
Proof. solve_decision. Defined.

(** [data], [header] and [msg] are relative to [base]; [None] is NULL. *)
Record ofpbuf : Type := mk_ofpbuf {
  ob_block : nat;
  ob_mem : bytes;
  ob_data : Z;
  ob_size : Z;
  ob_allocated : Z;
  ob_header : option Z;
  ob_msg : option Z;
  ob_source : ofpbuf_source
}.

(** [n] bytes of the block from [off] on; [memcpy] into it. *)
Definition peek (mem : bytes) (off n : Z) : option bytes :=
  if (0 <=? off) && (0 <=? n) && (off + n <=? Z.of_nat (length mem))
  then Some (take (Z.to_nat n) (drop (Z.to_nat off) mem)) else None.
Definition poke (mem : bytes) (off : Z) (bs : bytes) : option bytes :=
  if (0 <=? off) && (off + Z.of_nat (length bs) <=? Z.of_nat (length mem))
  then Some (take (Z.to_nat off) mem ++ bs ++ drop (Z.to_nat off + length bs) mem) else None.

Definition set_mem (b : ofpbuf) (mem : bytes) : ofpbuf :=
  mk_ofpbuf (ob_block b) mem (ob_data b) (ob_size b) (ob_allocated b) (ob_header b) (ob_msg b) (ob_source b).
Definition set_data (b : ofpbuf) (data size : Z) : ofpbuf :=
  mk_ofpbuf (ob_block b) (ob_mem b) data size (ob_allocated b) (ob_header b) (ob_msg b) (ob_source b).
Definition set_marks (b : ofpbuf) (header msg : option Z) : ofpbuf :=
  mk_ofpbuf (ob_block b) (ob_mem b) (ob_data b) (ob_size b) (ob_allocated b) header msg (ob_source b).

(** ** Inline functions of the header *)

Definition ofpbuf_const_initializer (data : bytes) (size : Z) : ofpbuf :=
  mk_ofpbuf 0 data 0 (u32 size) (u32 size) None None OFPBUF_STACK.

Definition ofpbuf_tail (b : ofpbuf) : Z := ob_data b + ob_size b.
Definition ofpbuf_end (b : ofpbuf) : Z := ob_allocated b.
Definition ofpbuf_headroom (b : ofpbuf) : Z := u64 (ob_data b).
Definition ofpbuf_tailroom (b : ofpbuf) : Z := u64 (ofpbuf_end b - ofpbuf_tail b).

Definition ofpbuf_at (b : ofpbuf) (offset size : Z) : option Z :=
  if u64 (offset + size) <=? ob_size b then Some (ob_data b + offset) else None.
Definition ofpbuf_at_assert (b : ofpbuf) (offset size : Z) : res unit Z :=
  if u64 (offset + size) <=? ob_size b then Ok (ob_data b + offset) else Err tt.

Definition ofpbuf_headersize (b : ofpbuf) : option Z :=
  h ← ob_header b; m ← ob_msg b; Some (u64 (m - h)).
Definition ofpbuf_msgsize (b : ofpbuf) : option Z :=
  m ← ob_msg b; Some (u64 (ofpbuf_tail b - m)).

Definition ofpbuf_clear (b : ofpbuf) : ofpbuf := set_data b 0 0.

(** Returns the address of the bytes removed. *)
Definition ofpbuf_pull (b : ofpbuf) (size : Z) : res unit (Z * ofpbuf) :=
  if size <=? ob_size b then Ok (ob_data b, set_data b (ob_data b + size) (u32 (ob_size b - size))) else Err tt.

(** [None] is the null pointer. *)
Definition ofpbuf_try_pull (b : ofpbuf) (size : Z) : res unit (option Z * ofpbuf) :=
  if size <=? ob_size b then let! (p, b') := ofpbuf_pull b size in Ok (Some p, b') else Ok (None, b).

(** [memcmp] of the contents. *)
Definition ofpbuf_equal (a b : ofpbuf) : option bool :=
  if ob_size a =? ob_size b then
    x ← peek (ob_mem a) (ob_data a) (ob_size a);
    y ← peek (ob_mem b) (ob_data b) (ob_size a);
    Some (bool_decide (x = y))
  else Some false.

Section Ofpbuf.
(** Byte [i] of a fresh block. *)
Context (junk : nat -> Z).

Definition xmalloc (n : Z) : bytes := junk <$> seq 0 (Z.to_nat n).
Definition xrealloc (mem : bytes) (n : Z) : bytes :=
  take (Z.to_nat n) mem ++ drop (length mem) (xmalloc n).

(** ** Creation *)

Definition ofpbuf_use__ (base : bytes) (allocated size : Z) (source : ofpbuf_source) : ofpbuf :=
  mk_ofpbuf 0 base 0 (u32 size) (u32 allocated) None None source.

Definition ofpbuf_use_stack (base : bytes) : ofpbuf := ofpbuf_use__ base (Z.of_nat (length base)) 0 OFPBUF_STACK.
Definition ofpbuf_use_stub (base : bytes) : ofpbuf := ofpbuf_use__ base (Z.of_nat (length base)) 0 OFPBUF_STUB.
Definition ofpbuf_use_const (data : bytes) (size : Z) : ofpbuf := ofpbuf_use__ data size size OFPBUF_STACK.

Definition ofpbuf_init (size : Z) : ofpbuf := ofpbuf_use__ (xmalloc size) size 0 OFPBUF_MALLOC.
Definition ofpbuf_new (size : Z) : ofpbuf := ofpbuf_init size.

(** ** Reallocation *)

Definition ofpbuf_copy__ (b : ofpbuf) (new_base : bytes) (new_headroom new_tailroom : Z) : option bytes :=
  let old_headroom := ofpbuf_headroom b in
  let old_tailroom := ofpbuf_tailroom b in
  let copy_headroom := Z.min old_headroom new_headroom in
  let copy_tailroom := Z.min old_tailroom new_tailroom in
  bs ← peek (ob_mem b) (old_headroom - copy_headroom) (u64 (copy_headroom + ob_size b + copy_tailroom));
  poke new_base (new_headroom - copy_headroom) bs.

Definition ofpbuf_resize__ (b : ofpbuf) (new_headroom new_tailroom : Z) : res unit ofpbuf :=
  let new_allocated := u64 (new_headroom + ob_size b + new_tailroom) in
  let moved := res_of (ofpbuf_copy__ b (xmalloc new_allocated) new_headroom new_tailroom) in
  let! new_base :=
    match ob_source b with
    | OFPBUF_MALLOC =>
        if new_headroom =? ofpbuf_headroom b then Ok (xrealloc (ob_mem b) new_allocated) else moved
    | OFPBUF_STACK => Err tt
    | OFPBUF_STUB => moved
    end in
  let move p := new_headroom + (p - ob_data b) in
  Ok (mk_ofpbuf (S (ob_block b)) new_base new_headroom (ob_size b) (u32 new_allocated)
        (move <$> ob_header b) (move <$> ob_msg b) OFPBUF_MALLOC).

Definition ofpbuf_prealloc_tailroom (b : ofpbuf) (size : Z) : res unit ofpbuf :=
  if ofpbuf_tailroom b <? size then ofpbuf_resize__ b (ofpbuf_headroom b) (Z.max size 64) else Ok b.

Definition ofpbuf_prealloc_headroom (b : ofpbuf) (size : Z) : res unit ofpbuf :=
  if ofpbuf_headroom b <? size then ofpbuf_resize__ b (Z.max size 64) (ofpbuf_tailroom b) else Ok b.

Definition ofpbuf_trim (b : ofpbuf) : res unit ofpbuf :=
  if bool_decide (ob_source b = OFPBUF_MALLOC) && (negb (ofpbuf_headroom b =? 0) || negb (ofpbuf_tailroom b =? 0))
  then ofpbuf_resize__ b 0 0 else Ok b.

(** ** Appending *)

(** Returns the address of the new bytes. *)
Definition ofpbuf_put_uninit (b : ofpbuf) (size : Z) : res unit (Z * ofpbuf) :=
  let! b := ofpbuf_prealloc_tailroom b size in
  Ok (ofpbuf_tail b, set_data b (ob_data b) (u32 (ob_size b + size))).

(** [memcpy] to an address in the block. *)
Definition store (b : ofpbuf) (p : Z) (bs : bytes) : res unit ofpbuf :=
  let! mem := res_of (poke (ob_mem b) p bs) in Ok (set_mem b mem).

Definition ofpbuf_put (b : ofpbuf) (p : bytes) : res unit (Z * ofpbuf) :=
  let! (dst, b) := ofpbuf_put_uninit b (Z.of_nat (length p)) in
  let! b := store b dst p in Ok (dst, b).

Definition ofpbuf_put_zeros (b : ofpbuf) (size : Z) : res unit (Z * ofpbuf) :=
  let! (dst, b) := ofpbuf_put_uninit b size in
  let! b := store b dst (replicate (Z.to_nat size) 0) in Ok (dst, b).

Definition ofpbuf_padto (b : ofpbuf) (length : Z) : res unit ofpbuf :=
  if ob_size b <? length then let! (_, b) := ofpbuf_put_zeros b (length - ob_size b) in Ok b else Ok b.

(** [delta] is an [int]. *)
Definition ofpbuf_shift (b : ofpbuf) (delta : Z) : res unit ofpbuf :=
  if (if 0 <? delta then delta <=? ofpbuf_tailroom b else if delta <? 0 then - delta <=? ofpbuf_headroom b else true)
  then
    if negb (delta =? 0) then
      let dst := ob_data b + delta in
      let! bs := res_of (peek (ob_mem b) (ob_data b) (ob_size b)) in
      let! b := store b dst bs in Ok (set_data b dst (ob_size b))
    else Ok b
  else Err tt.

(** ** Prefixing *)

Definition ofpbuf_reserve (b : ofpbuf) (size : Z) : res unit ofpbuf :=
  if ob_size b =? 0 then
    let! b := ofpbuf_prealloc_tailroom b size in Ok (set_data b (ob_data b + size) (ob_size b))
  else Err tt.

Definition ofpbuf_push_uninit (b : ofpbuf) (size : Z) : res unit (Z * ofpbuf) :=
  let! b := ofpbuf_prealloc_headroom b size in
  let b := set_data b (ob_data b - size) (u32 (ob_size b + size)) in
  Ok (ob_data b, b).

Definition ofpbuf_push (b : ofpbuf) (p : bytes) : res unit (Z * ofpbuf) :=
  let! (dst, b) := ofpbuf_push_uninit b (Z.of_nat (length p)) in
  let! b := store b dst p in Ok (dst, b).

Definition ofpbuf_push_zeros (b : ofpbuf) (size : Z) : res unit (Z * ofpbuf) :=
  let! (dst, b) := ofpbuf_push_uninit b size in
  let! b := store b dst (replicate (Z.to_nat size) 0) in Ok (dst, b).

(** [data] does not point into the buffer. *)
Definition ofpbuf_insert (b : ofpbuf) (offset : Z) (data : bytes) : res unit ofpbuf :=
  let n := Z.of_nat (length data) in
  if offset <? ob_size b then
    let! (_, b) := ofpbuf_put_uninit b n in
    let! bs := res_of (peek (ob_mem b) (ob_data b + offset) (ob_size b - offset - n)) in
    let! b := store b (ob_data b + offset + n) bs in
    store b (ob_data b + offset) data
  else if offset =? ob_size b then let! (_, b) := ofpbuf_put b data in Ok b
  else Err tt.

(** ** Copies *)

Definition ofpbuf_new_with_headroom (size headroom : Z) : res unit ofpbuf :=
  ofpbuf_reserve (ofpbuf_new (u64 (size + headroom))) headroom.

Definition ofpbuf_clone_data_with_headroom (data : bytes) (headroom : Z) : res unit ofpbuf :=
  let! b := ofpbuf_new_with_headroom (Z.of_nat (length data)) headroom in
  let! (_, b) := ofpbuf_put b data in Ok b.

Definition ofpbuf_clone_data (data : bytes) : res unit ofpbuf := ofpbuf_clone_data_with_headroom data 0.

Definition ofpbuf_clone_with_headroom (b : ofpbuf) (headroom : Z) : res unit ofpbuf :=
  let! bs := res_of (peek (ob_mem b) (ob_data b) (ob_size b)) in
  let! c := ofpbuf_clone_data_with_headroom bs headroom in
  let move p := ob_data c + (p - ob_data b) in
  Ok (set_marks c (move <$> ob_header b) (move <$> ob_msg b)).

Definition ofpbuf_clone (b : ofpbuf) : res unit ofpbuf := ofpbuf_clone_with_headroom b 0.

(** The bytes returned, and the buffer left. *)
Definition ofpbuf_steal_data (b : ofpbuf) : res unit (bytes * ofpbuf) :=
  let! p :=
    match ob_source b with
    | OFPBUF_MALLOC =>
        if ob_data b =? 0 then Ok (ob_mem b) else res_of (peek (ob_mem b) (ob_data b) (ob_size b))
    | _ => res_of (peek (ob_mem b) (ob_data b) (ob_size b))
    end in
  Ok (p, mk_ofpbuf (S (ob_block b)) [] 0 (ob_size b) (ob_allocated b) None None (ob_source b)).

End Ofpbuf.
