(* ===== verification/OfpBufProps.v ===== *)
(** * What the buffer operations do to the bytes in use

    A well-formed buffer is refined to the list of its bytes in use: appending, prefixing,
    inserting, removing and reallocating are the list operations, and [header] and [msg] keep
    pointing at the same bytes. *)

From S2P Require Import Prelude MapDef OfpBuf.

(** The block is headroom, bytes in use and tailroom. *)
Record lay (b : ofpbuf) (pre c post : bytes) : Prop := {
  lay_mem : ob_mem b = pre ++ c ++ post;
  lay_data : ob_data b = Z.of_nat (length pre);
  lay_size : ob_size b = Z.of_nat (length c);
  lay_allocated : ob_allocated b = Z.of_nat (length pre + length c + length post);
  lay_bound : ob_allocated b < 2 ^ 32
}.

Definition contents (b : ofpbuf) : bytes := take (Z.to_nat (ob_size b)) (drop (Z.to_nat (ob_data b)) (ob_mem b)).

Record wf_ofpbuf (b : ofpbuf) : Prop := {
  wf_ob_data : 0 <= ob_data b;
  wf_ob_size : 0 <= ob_size b;
  wf_ob_room : ob_data b + ob_size b <= ob_allocated b;
  wf_ob_allocated : ob_allocated b = Z.of_nat (length (ob_mem b));
  wf_ob_bound : ob_allocated b < 2 ^ 32
}.

(** The marks of [b'] point [k] bytes further into the contents than those of [b]. *)
Definition moved (k : Z) (b b' : ofpbuf) : Prop :=
  (fun p => p - ob_data b + k) <$> ob_header b = (fun p => p - ob_data b') <$> ob_header b' /\
  (fun p => p - ob_data b + k) <$> ob_msg b = (fun p => p - ob_data b') <$> ob_msg b'.

(** Room for [n] bytes was made in [b']. *)
Definition grows (b : ofpbuf) (n : Z) (b' : ofpbuf) : Prop :=
  ob_source b' <> OFPBUF_STACK /\ ob_allocated b' <= ob_allocated b + Z.max n 64.

(** [n] bytes can be added, if need be in a larger block. *)
Definition growable (b : ofpbuf) (n : Z) : Prop :=
  ob_source b <> OFPBUF_STACK /\ ob_allocated b + Z.max n 64 < 2 ^ 32.

Lemma lay_contents b pre c post : lay b pre c post -> contents b = c.
Proof.
  intros [Hm Hd Hs _ _]. unfold contents. rewrite Hm, Hd, Hs, !Nat2Z.id, drop_app_length. apply take_app_length.
Qed.

Lemma lay_wf b pre c post : lay b pre c post -> wf_ofpbuf b.
Proof. intros [Hm Hd Hs Ha Hb]. split; rewrite ?Hm, ?length_app; lia. Qed.

Lemma wf_lay b : wf_ofpbuf b -> exists pre post, lay b pre (contents b) post.
Proof.
  intros [H1 H2 H3 H4 H5]. set (d := Z.to_nat (ob_data b)). set (s := Z.to_nat (ob_size b)).
  exists (take d (ob_mem b)), (drop (d + s) (ob_mem b)).
  assert (length (contents b) = s) as Hc. { unfold contents. rewrite length_take, length_drop. lia. }
  assert (length (take d (ob_mem b)) = d) as Ht by (rewrite length_take; lia).
  split; rewrite ?Hc, ?Ht, ?length_drop; try lia.
  unfold contents. fold d s. rewrite <- (drop_drop _ s d), take_drop. by rewrite take_drop.
Qed.

Lemma moved_trans j k a b c : moved j a b -> moved k b c -> moved (j + k) a c.
Proof.
  intros [H1 H2] [H3 H4]. unfold moved.
  assert (forall o o' o'' : option Z, (fun p => p - ob_data a + j) <$> o = (fun p => p - ob_data b) <$> o' ->
    (fun p => p - ob_data b + k) <$> o' = (fun p => p - ob_data c) <$> o'' ->
    (fun p => p - ob_data a + (j + k)) <$> o = (fun p => p - ob_data c) <$> o'') as H.
  { intros [x|] [y|] [z|]; cbn; intros E1 E2; simplify_eq; try done. f_equal. lia. }
  split; [by eapply H|by eapply H].
Qed.

Lemma moved_refl b b' : ob_data b' = ob_data b -> ob_header b' = ob_header b -> ob_msg b' = ob_msg b -> moved 0 b b'.
Proof.
  intros E1 E2 E3. unfold moved. rewrite E1, E2, E3.
  split; [destruct (ob_header b)|destruct (ob_msg b)]; try done; apply (f_equal Some); lia.
Qed.

(** ** Memory *)

Lemma peek_app pre c post :
  peek (pre ++ c ++ post) (Z.of_nat (length pre)) (Z.of_nat (length c)) = Some c.
Proof.
  unfold peek. rewrite !length_app. rewrite !(proj2 (Z.leb_le _ _)) by lia. cbn [andb].
  by rewrite !Nat2Z.id, drop_app_length, take_app_length.
Qed.

Lemma poke_app pre old c post :
  length old = length c -> poke (pre ++ old ++ post) (Z.of_nat (length pre)) c = Some (pre ++ c ++ post).
Proof.
  intros Hl. unfold poke. rewrite !length_app. rewrite !(proj2 (Z.leb_le _ _)) by lia. cbn [andb].
  rewrite Nat2Z.id, take_app_length, <- Hl. do 2 f_equal.
  by rewrite <- drop_drop, drop_app_length, drop_app_length.
Qed.

Section Props.
Context (junk : nat -> Z).

Lemma length_xmalloc n : length (xmalloc junk n) = Z.to_nat n.
Proof. unfold xmalloc. by rewrite length_fmap, length_seq. Qed.

(** ** Reallocation *)

Lemma rooms b pre c post : lay b pre c post ->
  ofpbuf_headroom b = Z.of_nat (length pre) /\ ofpbuf_tailroom b = Z.of_nat (length post).
Proof.
  intros [_ Hd Hs Ha Hb]. unfold ofpbuf_headroom, ofpbuf_tailroom, ofpbuf_end, ofpbuf_tail.
  rewrite Hd, Hs, Ha in *. split; [apply wrap_small; unfold in_u; lia|]. rewrite wrap_small; unfold in_u; lia.
Qed.

(** Moving a block: what lies around the contents is kept as far as there is room. *)
Lemma copy_bytes (pre c post m : bytes) nh nt :
  0 <= nh -> 0 <= nt -> length m = Z.to_nat (nh + Z.of_nat (length c) + nt) ->
  let ch := Z.min (Z.of_nat (length pre)) nh in
  let ct := Z.min (Z.of_nat (length post)) nt in
  exists pre' post',
    (bs ← peek (pre ++ c ++ post) (Z.of_nat (length pre) - ch) (ch + Z.of_nat (length c) + ct); poke m (nh - ch) bs) = Some (pre' ++ c ++ post') /\
    Z.of_nat (length pre') = nh /\ Z.of_nat (length post') = nt.
Proof using.
  intros H1 H2 Hlm ch ct. set (k := Z.to_nat (Z.of_nat (length pre) - ch)). set (l := Z.to_nat ct).
  assert (pre ++ c ++ post = take k pre ++ (drop k pre ++ c ++ take l post) ++ drop l post) as E.
  { rewrite <- !app_assoc, (take_drop l post), (app_assoc (take k pre)), take_drop. done. }
  assert (length (take k pre) = k) as Hk by (rewrite length_take; lia).
  assert (length (drop k pre ++ c ++ take l post) = Z.to_nat (ch + Z.of_nat (length c) + ct)) as Hw.
  { rewrite !length_app, length_drop, length_take. lia. }
  pose proof (peek_app (take k pre) (drop k pre ++ c ++ take l post) (drop l post)) as Hp.
  rewrite <- E, Hk, Hw in Hp. replace (Z.of_nat k) with (Z.of_nat (length pre) - ch) in Hp by lia.
  rewrite Z2Nat.id in Hp by lia. rewrite Hp. cbn [mbind option_bind].
  set (a := Z.to_nat (nh - ch)). set (w := Z.to_nat (ch + Z.of_nat (length c) + ct)) in *.
  assert (m = take a m ++ take w (drop a m) ++ drop w (drop a m)) as Em by (by rewrite take_drop, take_drop).
  assert (length (take a m) = a) as Hla by (rewrite length_take; lia).
  assert (length (take w (drop a m)) = w) as Hlw by (rewrite length_take, length_drop; lia).
  pose proof (poke_app (take a m) (take w (drop a m)) (drop k pre ++ c ++ take l post) (drop w (drop a m))
    ltac:(by rewrite Hw)) as Hq.
  rewrite <- Em, Hla in Hq. replace (Z.of_nat a) with (nh - ch) in Hq by lia. rewrite Hq.
  exists (take a m ++ drop k pre), (take l post ++ drop w (drop a m)).
  split; [by rewrite <- !app_assoc|]. rewrite !length_app, !length_drop, Hla, length_take. lia.
Qed.

(** Changing the tailroom of a block in place. *)
Lemma realloc_bytes pre c post nt : 0 <= nt ->
  exists post', xrealloc junk (pre ++ c ++ post) (Z.of_nat (length pre) + Z.of_nat (length c) + nt) = pre ++ c ++ post' /\ Z.of_nat (length post') = nt.
Proof.
  intros Hn. set (k := Z.to_nat nt).
  exists (take k post ++ drop (length (pre ++ c ++ post)) (xmalloc junk (Z.of_nat (length pre) + Z.of_nat (length c) + nt))). split.
  - unfold xrealloc.
    replace (Z.to_nat (Z.of_nat (length pre) + Z.of_nat (length c) + nt)) with (length pre + (length c + k))%nat by lia.
    by rewrite take_app_add, take_app_add, <- !app_assoc.
  - rewrite length_app, length_take, length_drop, length_xmalloc, !length_app. lia.
Qed.

(** The bytes that [ofpbuf_copy__] keeps. *)
Lemma copy_lay b pre c post nh nt :
  lay b pre c post -> 0 <= nh -> 0 <= nt -> nh + ob_size b + nt < 2 ^ 32 ->
  exists pre' post', ofpbuf_copy__ b (xmalloc junk (nh + ob_size b + nt)) nh nt = Some (pre' ++ c ++ post') /\
    Z.of_nat (length pre') = nh /\ Z.of_nat (length post') = nt.
Proof.
  intros Hl H1 H2 H3. destruct (rooms _ _ _ _ Hl) as [Hh Ht]. destruct Hl as [Hm Hd Hs Ha Hb].
  destruct (copy_bytes pre c post (xmalloc junk (nh + ob_size b + nt)) nh nt) as (pre' & post' & E & Hl'); [done|done|rewrite length_xmalloc; lia|].
  exists pre', post'. split; [|done]. unfold ofpbuf_copy__. rewrite Hh, Ht, Hm, Hs in *. rewrite wrap_small by (unfold in_u; lia). exact E.
Qed.

Lemma resize_lay b pre c post nh nt :
  lay b pre c post -> ob_source b <> OFPBUF_STACK -> 0 <= nh -> 0 <= nt -> nh + ob_size b + nt < 2 ^ 32 ->
  exists b' pre' post', ofpbuf_resize__ junk b nh nt = Ok b' /\ lay b' pre' c post' /\
    Z.of_nat (length pre') = nh /\ Z.of_nat (length post') = nt /\ moved 0 b b' /\ ob_source b' = OFPBUF_MALLOC.
Proof.
  intros Hl Hsrc H1 H2 H3. pose proof (rooms _ _ _ _ Hl) as [Hh _]. pose proof Hl as [Hm Hd Hs Ha Hb].
  unfold ofpbuf_resize__. rewrite wrap_small by (unfold in_u; lia).
  destruct (copy_lay b pre c post nh nt Hl H1 H2 H3) as (pre1 & post1 & Hc & E1 & E2). rewrite Hc. cbn [res_of].
  assert (exists pre' post', match ob_source b with
    | OFPBUF_MALLOC =>
        if nh =? ofpbuf_headroom b then Ok (xrealloc junk (ob_mem b) (nh + ob_size b + nt)) else Ok (pre1 ++ c ++ post1)
    | OFPBUF_STACK => Err tt
    | OFPBUF_STUB => Ok (pre1 ++ c ++ post1)
    end = Ok (pre' ++ c ++ post') /\ Z.of_nat (length pre') = nh /\ Z.of_nat (length post') = nt) as (pre' & post' & -> & E3 & E4).
  { destruct (ob_source b); [|done|by exists pre1, post1].
    destruct (Z.eqb_spec nh (ofpbuf_headroom b)) as [->|_]; [|by exists pre1, post1].
    rewrite Hh, Hs, Hm. destruct (realloc_bytes pre c post nt H2) as (post' & -> & Hp). by exists pre, post'. }
  cbn [res_bind]. eexists _, pre', post'. split; [reflexivity|]. split_and!; try done.
  - split; cbn; [done|lia|done| |].
    + rewrite wrap_small by (unfold in_u; lia). lia.
    + rewrite wrap_small by (unfold in_u; lia). lia.
  - split; cbn; [destruct (ob_header b)|destruct (ob_msg b)]; try done; apply (f_equal Some); lia.
Qed.

Lemma prealloc_tailroom_lay b pre c post n :
  lay b pre c post -> growable b n -> 0 <= n ->
  exists b' pre' post', ofpbuf_prealloc_tailroom junk b n = Ok b' /\ lay b' pre' c post' /\
    length pre' = length pre /\ n <= Z.of_nat (length post') /\ moved 0 b b' /\ grows b n b'.
Proof.
  intros Hl [Hs Hg] Hn. destruct (rooms _ _ _ _ Hl) as [Hh Ht]. unfold ofpbuf_prealloc_tailroom. rewrite Hh, Ht.
  destruct (Z.ltb_spec (Z.of_nat (length post)) n).
  - pose proof Hl as [_ _ Hsz Ha _].
    destruct (resize_lay b pre c post (Z.of_nat (length pre)) (Z.max n 64) Hl Hs) as (b' & pre' & post' & E & H1 & H2 & H3 & H4 & H5); [lia..|].
    pose proof H1 as [_ _ H6 H7 _]. exists b', pre', post'. split_and!; try done; [lia..|]. split; [by rewrite H5|lia].
  - exists b, pre, post. split_and!; try done; [by apply moved_refl|]. split; [done|lia].
Qed.

Lemma prealloc_headroom_lay b pre c post n :
  lay b pre c post -> growable b n -> 0 <= n ->
  exists b' pre' post', ofpbuf_prealloc_headroom junk b n = Ok b' /\ lay b' pre' c post' /\
    n <= Z.of_nat (length pre') /\ moved 0 b b' /\ grows b n b'.
Proof.
  intros Hl [Hs Hg] Hn. destruct (rooms _ _ _ _ Hl) as [Hh Ht]. unfold ofpbuf_prealloc_headroom. rewrite Hh, Ht.
  destruct (Z.ltb_spec (Z.of_nat (length pre)) n).
  - pose proof Hl as [_ _ Hsz Ha _].
    destruct (resize_lay b pre c post (Z.max n 64) (Z.of_nat (length post)) Hl Hs) as (b' & pre' & post' & E & H1 & H2 & H3 & H4 & H5); [lia..|].
    pose proof H1 as [_ _ H6 H7 _]. exists b', pre', post'. split_and!; try done; [lia..|]. split; [by rewrite H5|lia].
  - exists b, pre, post. split_and!; try done; [by apply moved_refl|]. split; [done|lia].
Qed.

(** ** Appending and prefixing *)

Lemma put_uninit_lay b pre c post n :
  lay b pre c post -> growable b n -> 0 <= n ->
  exists b' pre' slack post', ofpbuf_put_uninit junk b n = Ok (Z.of_nat (length (pre' ++ c)), b') /\
    lay b' pre' (c ++ slack) post' /\ Z.of_nat (length slack) = n /\ length pre' = length pre /\ moved 0 b b' /\ grows b n b'.
Proof.
  intros Hl Hg Hn. destruct (prealloc_tailroom_lay b pre c post n Hl Hg Hn) as (b' & pre' & post' & E & Hl' & Hp & Hr & Hm & Hgr).
  pose proof Hl' as [Em Ed Es Ea Eb]. unfold ofpbuf_put_uninit. rewrite E. cbn [res_bind].
  exists (set_data b' (ob_data b') (u32 (ob_size b' + n))), pre', (take (Z.to_nat n) post'), (drop (Z.to_nat n) post').
  assert (length (take (Z.to_nat n) post') = Z.to_nat n) as Ht by (rewrite length_take; lia).
  split; [|split_and!; try done; [|lia]].
  - unfold ofpbuf_tail. rewrite length_app. do 2 f_equal. lia.
  - split; cbn; rewrite ?length_app, ?length_drop, ?Ht; try lia.
    + rewrite Em, <- app_assoc, take_drop. done.
    + rewrite wrap_small by (unfold in_u; lia). lia.
Qed.

Lemma push_uninit_lay b pre c post n :
  lay b pre c post -> growable b n -> 0 <= n ->
  exists b' pre' slack post', ofpbuf_push_uninit junk b n = Ok (Z.of_nat (length pre'), b') /\
    lay b' pre' (slack ++ c) post' /\ Z.of_nat (length slack) = n /\ moved n b b' /\ grows b n b'.
Proof.
  intros Hl Hg Hn. destruct (prealloc_headroom_lay b pre c post n Hl Hg Hn) as (b' & pre' & post' & E & Hl' & Hr & Hm & Hgr).
  pose proof Hl' as [Em Ed Es Ea Eb]. unfold ofpbuf_push_uninit. rewrite E. cbn [res_bind].
  set (k := (length pre' - Z.to_nat n)%nat).
  assert (length (take k pre') = k) as Ht by (rewrite length_take; lia).
  eexists _, (take k pre'), (drop k pre'), post'. cbn [ob_data set_data].
  split; [rewrite Ht; do 2 f_equal; lia|]. split_and!.
  - split; cbn; rewrite ?length_app, ?length_drop, ?Ht; try lia.
    + rewrite Em, <- !app_assoc, (app_assoc (take k pre')), take_drop. done.
    + rewrite wrap_small by (unfold in_u; lia). lia.
  - rewrite length_drop. lia.
  - replace n with (0 + n) by lia. apply (moved_trans _ _ _ b'); [done|].
    split; cbn; [destruct (ob_header b')|destruct (ob_msg b')]; try done; apply (f_equal Some); lia.
  - done.
Qed.

(** A [memcpy] over [old], somewhere in the bytes in use. *)
Lemma store_lay b pre c1 old c2 post bs :
  lay b pre (c1 ++ old ++ c2) post -> length bs = length old ->
  exists b', store b (Z.of_nat (length (pre ++ c1))) bs = Ok b' /\ lay b' pre (c1 ++ bs ++ c2) post /\ moved 0 b b' /\
    ob_source b' = ob_source b /\ ob_allocated b' = ob_allocated b.
Proof.
  intros [Em Ed Es Ea Eb] Hbs. unfold store. rewrite Em.
  replace (pre ++ (c1 ++ old ++ c2) ++ post) with ((pre ++ c1) ++ old ++ (c2 ++ post)) by (by rewrite <- !app_assoc).
  rewrite poke_app by done. cbn [res_of res_bind]. eexists. split; [reflexivity|]. split_and!; try done; [|by apply moved_refl].
  split; cbn; rewrite ?length_app in *; try lia. by rewrite <- !app_assoc.
Qed.

Lemma put_lay b pre c post p :
  lay b pre c post -> growable b (Z.of_nat (length p)) ->
  exists b' pre' post', ofpbuf_put junk b p = Ok (Z.of_nat (length (pre' ++ c)), b') /\ lay b' pre' (c ++ p) post' /\
    length pre' = length pre /\ moved 0 b b' /\ grows b (Z.of_nat (length p)) b'.
Proof.
  intros Hl Hg. destruct (put_uninit_lay b pre c post _ Hl Hg) as (b1 & pre1 & sl & post1 & E & Hl1 & Hs & Hp & Hm & Hgr); [lia|].
  rewrite <- (app_nil_r sl) in Hl1.
  destruct (store_lay b1 pre1 c sl [] post1 p Hl1) as (b2 & E2 & Hl2 & Hm2 & Hs2 & Ha2); [lia|]. rewrite app_nil_r in Hl2.
  unfold ofpbuf_put. rewrite E. cbn [res_bind]. rewrite E2. cbn [res_bind]. exists b2, pre1, post1. split_and!; try done.
  - by apply (moved_trans 0 0 _ b1).
  - destruct Hgr. split; congruence.
Qed.

Lemma push_lay b pre c post p :
  lay b pre c post -> growable b (Z.of_nat (length p)) ->
  exists b' pre' post', ofpbuf_push junk b p = Ok (Z.of_nat (length pre'), b') /\ lay b' pre' (p ++ c) post' /\
    moved (Z.of_nat (length p)) b b' /\ grows b (Z.of_nat (length p)) b'.
Proof.
  intros Hl Hg. destruct (push_uninit_lay b pre c post _ Hl Hg) as (b1 & pre1 & sl & post1 & E & Hl1 & Hs & Hm & Hgr); [lia|].
  destruct (store_lay b1 pre1 [] sl c post1 p Hl1) as (b2 & E2 & Hl2 & Hm2 & Hs2 & Ha2); [lia|]. rewrite app_nil_r in E2.
  unfold ofpbuf_push. rewrite E. cbn [res_bind]. rewrite E2. cbn [res_bind]. exists b2, pre1, post1. split_and!; try done.
  - rewrite <- (Z.add_0_r (Z.of_nat _)). by apply (moved_trans _ _ _ b1).
  - destruct Hgr. split; congruence.
Qed.

Lemma put_zeros_eq b n : 0 <= n -> ofpbuf_put_zeros junk b n = ofpbuf_put junk b (replicate (Z.to_nat n) 0).
Proof. intros Hn. unfold ofpbuf_put_zeros, ofpbuf_put. by rewrite length_replicate, Z2Nat.id. Qed.

Lemma push_zeros_eq b n : 0 <= n -> ofpbuf_push_zeros junk b n = ofpbuf_push junk b (replicate (Z.to_nat n) 0).
Proof. intros Hn. unfold ofpbuf_push_zeros, ofpbuf_push. by rewrite length_replicate, Z2Nat.id. Qed.

Lemma insert_lay b pre c1 c2 post p :
  lay b pre (c1 ++ c2) post -> growable b (Z.of_nat (length p)) ->
  exists b' pre' post', ofpbuf_insert junk b (Z.of_nat (length c1)) p = Ok b' /\ lay b' pre' (c1 ++ p ++ c2) post' /\ moved 0 b b'.
Proof.
  intros Hl Hg. unfold ofpbuf_insert. rewrite (lay_size _ _ _ _ Hl), length_app. destruct (Z.ltb_spec (Z.of_nat (length c1)) (Z.of_nat (length c1 + length c2))).
  - destruct (put_uninit_lay b pre _ post _ Hl Hg) as (b1 & pre1 & sl & post1 & E & Hl1 & Hs & Hp & Hm & Hgr); [lia|].
    rewrite E. cbn [res_bind]. pose proof Hl1 as [Em Ed Es Ea Eb]. rewrite Em, Ed, Es.
    replace (pre1 ++ ((c1 ++ c2) ++ sl) ++ post1) with ((pre1 ++ c1) ++ c2 ++ (sl ++ post1)) by (by rewrite <- !app_assoc).
    replace (Z.of_nat (length pre1) + Z.of_nat (length c1)) with (Z.of_nat (length (pre1 ++ c1))) by (rewrite length_app; lia).
    replace (Z.of_nat (length ((c1 ++ c2) ++ sl)) - Z.of_nat (length c1) - Z.of_nat (length p)) with (Z.of_nat (length c2))
      by (rewrite !length_app; lia).
    rewrite peek_app. cbn [res_of res_bind].
    set (k := length p). set (gap := take k (c2 ++ sl)). set (old := drop k (c2 ++ sl)).
    assert (length gap = k) as Hgap by (unfold gap; rewrite length_take, length_app; lia).
    assert (length old = length c2) as Hold by (unfold old; rewrite length_drop, length_app; lia).
    assert ((c1 ++ c2) ++ sl = (c1 ++ gap) ++ old ++ []) as Ec
      by (unfold gap, old; by rewrite app_nil_r, <- !app_assoc, take_drop).
    rewrite Ec in Hl1.
    destruct (store_lay b1 pre1 _ _ _ post1 c2 Hl1) as (b2 & E2 & Hl2 & Hm2 & _ & _); [done|].
    replace (Z.of_nat (length (pre1 ++ c1)) + Z.of_nat k) with (Z.of_nat (length (pre1 ++ c1 ++ gap))) by (rewrite !length_app, Hgap; lia).
    rewrite E2. cbn [res_bind]. rewrite (lay_data _ _ _ _ Hl2), app_nil_r, <- app_assoc in *.
    destruct (store_lay b2 pre1 c1 gap c2 post1 p Hl2) as (b3 & E3 & Hl3 & Hm3 & _ & _); [done|].
    rewrite length_app, Nat2Z.inj_add in E3. rewrite E3. exists b3, pre1, post1. split_and!; try done.
    apply (moved_trans 0 0 _ b1); [done|]. by apply (moved_trans 0 0 _ b2).
  - assert (c2 = []) as -> by (apply length_zero_iff_nil; lia). rewrite !app_nil_r in *.
    rewrite (proj2 (Z.eqb_eq _ _)) by (cbn [length]; lia).
    destruct (put_lay b pre c1 post p Hl Hg) as (b' & pre' & post' & E & Hl' & _ & Hm & _). rewrite E. cbn [res_bind]. by exists b', pre', post'.
Qed.

Lemma pull_lay b pre c1 c2 post :
  lay b pre (c1 ++ c2) post ->
  ofpbuf_pull b (Z.of_nat (length c1)) =
    Ok (ob_data b, set_data b (ob_data b + Z.of_nat (length c1)) (Z.of_nat (length c2))) /\
  lay (set_data b (ob_data b + Z.of_nat (length c1)) (Z.of_nat (length c2))) (pre ++ c1) c2 post.
Proof.
  intros [Em Ed Es Ea Eb]. rewrite length_app in *. unfold ofpbuf_pull. rewrite (proj2 (Z.leb_le _ _)) by lia. split.
  - do 3 f_equal. rewrite wrap_small by (unfold in_u; lia). lia.
  - split; cbn; rewrite ?length_app; try lia. by rewrite Em, <- !app_assoc.
Qed.

Lemma clone_data_lay data headroom :
  0 <= headroom -> Z.of_nat (length data) + headroom + Z.max headroom (Z.max (Z.of_nat (length data)) 64) < 2 ^ 32 ->
  exists b pre post, ofpbuf_clone_data_with_headroom junk data headroom = Ok b /\ lay b pre data post /\
    Z.of_nat (length pre) = headroom /\ ob_header b = None /\ ob_msg b = None.
Proof.
  intros H1 H2. unfold ofpbuf_clone_data_with_headroom, ofpbuf_new_with_headroom, ofpbuf_new, ofpbuf_init, ofpbuf_reserve.
  rewrite (wrap_small 64) by (unfold in_u; lia). set (n := Z.of_nat (length data) + headroom).
  set (b0 := ofpbuf_use__ _ _ _ _). cbn [ob_size b0 ofpbuf_use__]. change (u32 0 =? 0) with true. cbv iota.
  assert (lay b0 [] [] (xmalloc junk n)) as Hl0.
  { split; cbn; rewrite ?length_xmalloc, ?wrap_small by (unfold in_u; lia); try done; lia. }
  destruct (rooms _ _ _ _ Hl0) as [_ Ht]. rewrite length_xmalloc in Ht.
  unfold ofpbuf_prealloc_tailroom. rewrite (proj2 (Z.ltb_ge _ _)) by lia. cbn [res_bind].
  set (b1 := set_data _ _ _).
  assert (lay b1 (take (Z.to_nat headroom) (xmalloc junk n)) [] (drop (Z.to_nat headroom) (xmalloc junk n))) as Hl1.
  { split; cbn; rewrite ?length_take, ?length_drop, ?length_xmalloc, ?wrap_small by (unfold in_u; lia); try lia. by rewrite take_drop. }
  destruct (put_lay b1 _ _ _ data Hl1) as (b2 & pre & post & E & Hl2 & Hp & [Hm1 Hm2] & _).
  { split; [done|]. cbn. rewrite wrap_small by (unfold in_u; lia). lia. }
  rewrite E. cbn [res_bind]. exists b2, pre, post. split_and!; try done.
  - rewrite Hp, length_take, length_xmalloc. lia.
  - by destruct (ob_header b2).
  - by destruct (ob_msg b2).
Qed.
End Props.

(** ** The refinement *)

(** [b'] holds [c'], and its marks moved [k] bytes further into the contents. *)
Record becomes (b : ofpbuf) (k : Z) (b' : ofpbuf) (c' : bytes) : Prop := {
  be_wf : wf_ofpbuf b';
  be_contents : contents b' = c';
  be_moved : moved k b b'
}.

Lemma lay_becomes b k b' pre c post : lay b' pre c post -> moved k b b' -> becomes b k b' c.
Proof. intros Hl Hm. split; [by eapply lay_wf|by eapply lay_contents|done]. Qed.


(** A buffer with room for four bytes, holding three, with its marks at its start. *)
Definition small_buf : ofpbuf := mk_ofpbuf 0 [1; 2; 3; 0] 0 3 4 (Some 0) (Some 1) OFPBUF_MALLOC.


(** cloning a well-formed buffer gives a separate block with the same bytes and marks. *)
Theorem ofpbuf_clone_same junk b headroom :
  wf_ofpbuf b -> 0 <= headroom -> ob_size b + headroom + Z.max headroom (Z.max (ob_size b) 64) < 2 ^ 32 ->
  exists c, ofpbuf_clone_with_headroom junk b headroom = Ok c /\ becomes b 0 c (contents b) /\ ob_data c = headroom.
Proof.
  intros Hw H1 H2. destruct (wf_lay b Hw) as (pre & post & Hl). pose proof Hl as [Em Ed Es Ea Eb].
  unfold ofpbuf_clone_with_headroom. rewrite Em, Ed, Es, peek_app. cbn [res_of res_bind].
  destruct (clone_data_lay junk (contents b) headroom) as (c & pre' & post' & E & Hl' & Hh & _); [lia|lia|].
  rewrite E. cbn [res_bind]. eexists. split; [reflexivity|]. split; [|cbn; destruct Hl'; lia].
  apply (lay_becomes _ _ _ pre' _ post').
  - destruct Hl'. by split.
  - split; cbn; [destruct (ob_header b)|destruct (ob_msg b)]; try done; apply (f_equal Some); lia.
Qed.

Lemma ofpbuf_clone_same_witness :
  exists c, ofpbuf_clone_with_headroom (fun _ => 99) small_buf 5 = Ok c /\ becomes small_buf 0 c [1; 2; 3] /\ ob_data c = 5.
Proof. apply (ofpbuf_clone_same (fun _ => 99) small_buf 5); [split; cbn; lia|lia|cbn; lia]. Defined.
