(* ===== verification/DpPacket.v ===== *)
(** * Packets (lib/dp-packet.c, lib/dp-packet.h, built without DPDK)

    A packet is a block of memory with a part of it in use.  [allocated_] and [data_ofs] have 16
    bits, whatever the size of the block.  Addresses are relative to the block; a block gets a new
    number when it is allocated.  A failed [ovs_assert] or [OVS_NOT_REACHED] is [Err tt]. *)

From S2P Require Import Prelude MapDef OfpBuf.

Inductive dp_packet_source : Set := DPBUF_MALLOC | DPBUF_STACK | DPBUF_STUB | DPBUF_DPDK | DPBUF_AFXDP.

#[export] Instance dp_packet_source_eq_dec : EqDecision dp_packet_source.
Proof. solve_decision. Defined.

Definition DP_PACKET_OL_RSS_HASH_MASK : Z := 1.
Definition DP_PACKET_OL_FLOW_MARK_MASK : Z := 2.
Definition UINT16_MAX : Z := 2 ^ 16 - 1.
Definition ETH_HEADER_LEN : Z := 14.
#[export] Hint Unfold UINT16_MAX ETH_HEADER_LEN : consts.

(** The fields behind [source], copied at once by a clone.  [dp_md] are the bytes of the union. *)
Record dp_layers : Set := mk_layers {
  l2_pad_size : Z;
  l2_5_ofs : Z;
  l3_ofs : Z;
  l4_ofs : Z;
  cutlen : Z;
  packet_type : Z;
  dp_md : bytes
}.

(** [dp_base] tells whether [base_] is not NULL. *)
Record dp_packet : Set := mk_dp {
  dp_block : nat;
  dp_base : bool;
  dp_mem : bytes;
  allocated_ : Z;
  data_ofs : Z;
  size_ : Z;
  ol_flags : Z;
  rss_hash : Z;
  flow_mark : Z;
  dp_source : dp_packet_source;
  dp_lay : dp_layers
}.

Definition set_dp_data (b : dp_packet) (ofs size : Z) : dp_packet :=
  mk_dp (dp_block b) (dp_base b) (dp_mem b) (allocated_ b) ofs size (ol_flags b) (rss_hash b) (flow_mark b) (dp_source b) (dp_lay b).
Definition set_dp_mem (b : dp_packet) (mem : bytes) : dp_packet :=
  mk_dp (dp_block b) (dp_base b) mem (allocated_ b) (data_ofs b) (size_ b) (ol_flags b) (rss_hash b) (flow_mark b) (dp_source b) (dp_lay b).
Definition set_dp_offload (b : dp_packet) (flags hash mark : Z) : dp_packet :=
  mk_dp (dp_block b) (dp_base b) (dp_mem b) (allocated_ b) (data_ofs b) (size_ b) flags hash mark (dp_source b) (dp_lay b).
Definition set_dp_lay (b : dp_packet) (l : dp_layers) : dp_packet :=
  mk_dp (dp_block b) (dp_base b) (dp_mem b) (allocated_ b) (data_ofs b) (size_ b) (ol_flags b) (rss_hash b) (flow_mark b) (dp_source b) l.

(** ** Accessors *)

(** [None] is NULL. *)
Definition dp_packet_data (b : dp_packet) : option Z := if data_ofs b =? UINT16_MAX then None else Some (data_ofs b).

(** The address of the data in arithmetic with [base_]: NULL counts from a base that is NULL only. *)
Definition data_addr (b : dp_packet) : option Z :=
  match dp_packet_data b with
  | Some p => Some p
  | None => if dp_base b then None else Some 0
  end.

(** [p] is an address in the block; an address computed from a NULL base is NULL if nothing was added. *)
Definition dp_packet_set_data (b : dp_packet) (p : Z) : res unit dp_packet :=
  if dp_base b then Ok (set_dp_data b (u16 p) (size_ b))
  else if p =? 0 then Ok (set_dp_data b UINT16_MAX (size_ b)) else Undef.

Definition dp_packet_size (b : dp_packet) : Z := size_ b.
Definition dp_packet_set_size (b : dp_packet) (v : Z) : dp_packet := set_dp_data b (data_ofs b) (u32 v).

Definition dp_packet_tail (b : dp_packet) : option Z := p ← data_addr b; Some (p + size_ b).
Definition dp_packet_end (b : dp_packet) : Z := allocated_ b.
Definition dp_packet_headroom (b : dp_packet) : option Z := u64 <$> data_addr b.
Definition dp_packet_tailroom (b : dp_packet) : option Z := t ← dp_packet_tail b; Some (u64 (dp_packet_end b - t)).

Definition dp_packet_at (b : dp_packet) (offset size : Z) : option (option Z) :=
  if u64 (offset + size) <=? size_ b then p ← data_addr b; Some (Some (p + offset)) else Some None.

Definition dp_packet_at_assert (b : dp_packet) (offset size : Z) : res unit Z :=
  if u64 (offset + size) <=? size_ b then let! p := res_of (data_addr b) in Ok (p + offset) else Err tt.

Definition dp_packet_clear (b : dp_packet) : res unit dp_packet :=
  let! b := dp_packet_set_data b 0 in Ok (dp_packet_set_size b 0).

Definition dp_packet_l2_pad_size (b : dp_packet) : Z := l2_pad_size (dp_lay b).

(** The difference of the size and the padding is an [int] or [uint32_t]: 32 bits, unsigned. *)
Definition dp_packet_pull (b : dp_packet) (size : Z) : res unit (Z * dp_packet) :=
  let! data := res_of (data_addr b) in
  if size <=? u32 (size_ b - dp_packet_l2_pad_size b) then
    let! b := dp_packet_set_data b (data + size) in
    Ok (data, dp_packet_set_size b (size_ b - size))
  else Err tt.

Definition dp_packet_try_pull (b : dp_packet) (size : Z) : res unit (option Z * dp_packet) :=
  if size <=? u32 (size_ b - dp_packet_l2_pad_size b) then let! (p, b') := dp_packet_pull b size in Ok (Some p, b') else Ok (None, b).

Definition dp_packet_equal (a b : dp_packet) : option bool :=
  if size_ a =? size_ b then
    p ← data_addr a; q ← data_addr b;
    x ← peek (dp_mem a) p (size_ a); y ← peek (dp_mem b) q (size_ a);
    Some (bool_decide (x = y))
  else Some false.

(** ** Layers *)

Definition PT_ETH : Z := 0.
Definition dp_packet_is_eth (b : dp_packet) : bool := packet_type (dp_lay b) =? PT_ETH.
Definition dp_packet_eth (b : dp_packet) : option Z :=
  if dp_packet_is_eth b && negb (l3_ofs (dp_lay b) =? UINT16_MAX) then dp_packet_data b else None.

Definition dp_packet_reset_offsets (b : dp_packet) : dp_packet :=
  let l := dp_lay b in set_dp_lay b (mk_layers 0 UINT16_MAX UINT16_MAX UINT16_MAX (cutlen l) (packet_type l) (dp_md l)).

(** A pointer to a layer; [Some None] is NULL. *)
Definition layer (b : dp_packet) (ofs : Z) : option (option Z) :=
  if ofs =? UINT16_MAX then Some None else p ← data_addr b; Some (Some (p + ofs)).
Definition dp_packet_l2_5 (b : dp_packet) : option (option Z) := layer b (l2_5_ofs (dp_lay b)).
Definition dp_packet_l3 (b : dp_packet) : option (option Z) := layer b (l3_ofs (dp_lay b)).
Definition dp_packet_l4 (b : dp_packet) : option (option Z) := layer b (l4_ofs (dp_lay b)).

(** The offset of a pointer; NULL is [None]. *)
Definition layer_ofs (b : dp_packet) (l : option Z) : option Z :=
  match l with None => Some UINT16_MAX | Some p => d ← data_addr b; Some (u16 (p - d)) end.
Definition dp_packet_set_l2_5 (b : dp_packet) (p : option Z) : option dp_packet :=
  o ← layer_ofs b p; let l := dp_lay b in
  Some (set_dp_lay b (mk_layers (l2_pad_size l) o (l3_ofs l) (l4_ofs l) (cutlen l) (packet_type l) (dp_md l))).
Definition dp_packet_set_l3 (b : dp_packet) (p : option Z) : option dp_packet :=
  o ← layer_ofs b p; let l := dp_lay b in
  Some (set_dp_lay b (mk_layers (l2_pad_size l) (l2_5_ofs l) o (l4_ofs l) (cutlen l) (packet_type l) (dp_md l))).
Definition dp_packet_set_l4 (b : dp_packet) (p : option Z) : option dp_packet :=
  o ← layer_ofs b p; let l := dp_lay b in
  Some (set_dp_lay b (mk_layers (l2_pad_size l) (l2_5_ofs l) (l3_ofs l) o (cutlen l) (packet_type l) (dp_md l))).

Definition dp_packet_set_l2_pad_size (b : dp_packet) (pad_size : Z) : res unit dp_packet :=
  let l := dp_lay b in
  if pad_size <=? size_ b
  then Ok (set_dp_lay b (mk_layers pad_size (l2_5_ofs l) (l3_ofs l) (l4_ofs l) (cutlen l) (packet_type l) (dp_md l))) else Err tt.

(** The size from a layer to the end, without padding. *)
Definition layer_size (b : dp_packet) (l : option (option Z)) : option Z :=
  p ← l;
  match p with
  | None => Some 0
  | Some p => t ← dp_packet_tail b; Some (u64 (t - p - dp_packet_l2_pad_size b))
  end.
Definition dp_packet_l3_size (b : dp_packet) : option Z := layer_size b (dp_packet_l3 b).
Definition dp_packet_l4_size (b : dp_packet) : option Z := layer_size b (dp_packet_l4 b).

Definition set_dp_cutlen (b : dp_packet) (n : Z) : dp_packet :=
  let l := dp_lay b in set_dp_lay b (mk_layers (l2_pad_size l) (l2_5_ofs l) (l3_ofs l) (l4_ofs l) n (packet_type l) (dp_md l)).
Definition dp_packet_reset_cutlen (b : dp_packet) : dp_packet := set_dp_cutlen b 0.
Definition dp_packet_set_cutlen (b : dp_packet) (max_len : Z) : Z * dp_packet :=
  let max_len := Z.max max_len ETH_HEADER_LEN in
  let n := if size_ b <=? max_len then 0 else size_ b - max_len in (n, set_dp_cutlen b n).
Definition dp_packet_get_cutlen (b : dp_packet) : Z := cutlen (dp_lay b).
Definition dp_packet_get_send_len (b : dp_packet) : Z := u32 (size_ b - dp_packet_get_cutlen b).

(** ** Hash and mark *)

Definition dp_packet_get_rss_hash (b : dp_packet) : Z := rss_hash b.
Definition dp_packet_set_rss_hash (b : dp_packet) (hash : Z) : dp_packet :=
  set_dp_offload b (Z.lor (ol_flags b) DP_PACKET_OL_RSS_HASH_MASK) hash (flow_mark b).
Definition dp_packet_rss_valid (b : dp_packet) : bool := negb (Z.land (ol_flags b) DP_PACKET_OL_RSS_HASH_MASK =? 0).
Definition dp_packet_has_flow_mark (b : dp_packet) : option Z :=
  if negb (Z.land (ol_flags b) DP_PACKET_OL_FLOW_MARK_MASK =? 0) then Some (flow_mark b) else None.
Definition dp_packet_set_flow_mark (b : dp_packet) (mark : Z) : dp_packet :=
  set_dp_offload b (Z.lor (ol_flags b) DP_PACKET_OL_FLOW_MARK_MASK) (rss_hash b) mark.
Definition dp_packet_reset_offload (b : dp_packet) : dp_packet := set_dp_offload b 0 (rss_hash b) (flow_mark b).

(** [off] is an [int]. *)
Definition dp_packet_reset_packet (b : dp_packet) (off : Z) : res unit dp_packet :=
  let b := dp_packet_set_size b (size_ b - off) in
  let! data := res_of (data_addr b) in
  let! b := dp_packet_set_data b (data + off) in
  Ok (dp_packet_reset_offsets b).

(** ** Memory *)

Section Alloc.
(** Byte [i] of a fresh block, the uninitialised fields of a packet, and the metadata that
    [pkt_metadata_init] leaves. *)
Context (junk : nat -> Z) (stale : dp_packet) (md0 : bytes).

Definition dp_packet_init__ (b : dp_packet) (allocated : Z) (source : dp_packet_source) : dp_packet :=
  mk_dp (dp_block b) (dp_base b) (dp_mem b) (u16 allocated) (data_ofs b) (size_ b) 0 (rss_hash b) (flow_mark b) source
    (mk_layers 0 UINT16_MAX UINT16_MAX UINT16_MAX 0 PT_ETH md0).

(** [base] is the block, [None] for NULL. *)
Definition dp_packet_use__ (base : option bytes) (allocated : Z) (source : dp_packet_source) : dp_packet :=
  let b := mk_dp 0 (bool_decide (is_Some base)) (default [] base) 0 (if base is Some _ then 0 else UINT16_MAX) 0
             0 (rss_hash stale) (flow_mark stale) source (dp_lay stale) in
  dp_packet_init__ b allocated source.

Definition dp_packet_use (base : option bytes) (allocated : Z) : dp_packet := dp_packet_use__ base allocated DPBUF_MALLOC.
Definition dp_packet_use_stub (base : bytes) : dp_packet := dp_packet_use__ (Some base) (Z.of_nat (length base)) DPBUF_STUB.
Definition dp_packet_use_const (data : bytes) (size : Z) : dp_packet :=
  dp_packet_set_size (dp_packet_use__ (Some data) size DPBUF_STACK) size.
Definition dp_packet_init (size : Z) : dp_packet := dp_packet_use (if size =? 0 then None else Some (xmalloc junk size)) size.
Definition dp_packet_new (size : Z) : dp_packet := dp_packet_init size.

Definition dp_packet_copy__ (b : dp_packet) (new_base : bytes) (new_headroom new_tailroom : Z) : option bytes :=
  old_headroom ← dp_packet_headroom b;
  old_tailroom ← dp_packet_tailroom b;
  let copy_headroom := Z.min old_headroom new_headroom in
  let copy_tailroom := Z.min old_tailroom new_tailroom in
  bs ← peek (dp_mem b) (old_headroom - copy_headroom) (u64 (copy_headroom + size_ b + copy_tailroom));
  poke new_base (new_headroom - copy_headroom) bs.

Definition dp_packet_resize__ (b : dp_packet) (new_headroom new_tailroom : Z) : res unit dp_packet :=
  let new_allocated := u64 (new_headroom + size_ b + new_tailroom) in
  let copied := res_of (dp_packet_copy__ b (xmalloc junk new_allocated) new_headroom new_tailroom) in
  let! new_base :=
    match dp_source b with
    | DPBUF_MALLOC =>
        let! headroom := res_of (dp_packet_headroom b) in
        if new_headroom =? headroom then Ok (xrealloc junk (dp_mem b) new_allocated) else copied
    | DPBUF_STUB => copied
    | DPBUF_STACK | DPBUF_DPDK | DPBUF_AFXDP => Err tt
    end in
  let b := mk_dp (S (dp_block b)) true new_base (u16 new_allocated) (data_ofs b) (size_ b) (ol_flags b) (rss_hash b) (flow_mark b)
             DPBUF_MALLOC (dp_lay b) in
  if bool_decide (dp_packet_data b = Some new_headroom) then Ok b else dp_packet_set_data b new_headroom.

Definition dp_packet_prealloc_tailroom (b : dp_packet) (size : Z) : res unit dp_packet :=
  let! t := res_of (dp_packet_tailroom b) in
  if t <? size then let! h := res_of (dp_packet_headroom b) in dp_packet_resize__ b h (Z.max size 64) else Ok b.

Definition dp_packet_prealloc_headroom (b : dp_packet) (size : Z) : res unit dp_packet :=
  let! h := res_of (dp_packet_headroom b) in
  if h <? size then let! t := res_of (dp_packet_tailroom b) in dp_packet_resize__ b (Z.max size 64) t else Ok b.

Definition dp_store (b : dp_packet) (p : Z) (bs : bytes) : res unit dp_packet :=
  let! mem := res_of (poke (dp_mem b) p bs) in Ok (set_dp_mem b mem).

(** [delta] is an [int]. *)
Definition dp_packet_shift (b : dp_packet) (delta : Z) : res unit dp_packet :=
  let! t := res_of (dp_packet_tailroom b) in
  let! h := res_of (dp_packet_headroom b) in
  if (if 0 <? delta then delta <=? t else if delta <? 0 then - delta <=? h else true)
  then
    if negb (delta =? 0) then
      let! data := res_of (data_addr b) in
      let! bs := res_of (peek (dp_mem b) data (size_ b)) in
      let! b := dp_store b (data + delta) bs in dp_packet_set_data b (data + delta)
    else Ok b
  else Err tt.

Definition dp_packet_put_uninit (b : dp_packet) (size : Z) : res unit (Z * dp_packet) :=
  let! b := dp_packet_prealloc_tailroom b size in
  let! p := res_of (dp_packet_tail b) in Ok (p, dp_packet_set_size b (size_ b + size)).

Definition dp_packet_put (b : dp_packet) (p : bytes) : res unit (Z * dp_packet) :=
  let! (dst, b) := dp_packet_put_uninit b (Z.of_nat (length p)) in
  let! b := dp_store b dst p in Ok (dst, b).
Definition dp_packet_put_zeros (b : dp_packet) (size : Z) : res unit (Z * dp_packet) :=
  let! (dst, b) := dp_packet_put_uninit b size in
  let! b := dp_store b dst (replicate (Z.to_nat size) 0) in Ok (dst, b).

Definition dp_packet_reserve (b : dp_packet) (size : Z) : res unit dp_packet :=
  if size_ b =? 0 then
    let! b := dp_packet_prealloc_tailroom b size in
    let! data := res_of (data_addr b) in dp_packet_set_data b (data + size)
  else Err tt.
Definition dp_packet_reserve_with_tailroom (b : dp_packet) (headroom tailroom : Z) : res unit dp_packet :=
  if size_ b =? 0 then
    let! b := dp_packet_prealloc_tailroom b (u64 (headroom + tailroom)) in
    let! data := res_of (data_addr b) in dp_packet_set_data b (data + headroom)
  else Err tt.

Definition dp_packet_push_uninit (b : dp_packet) (size : Z) : res unit (Z * dp_packet) :=
  let! b := dp_packet_prealloc_headroom b size in
  let! data := res_of (data_addr b) in
  let! b := dp_packet_set_data b (data - size) in
  let b := dp_packet_set_size b (size_ b + size) in
  let! data := res_of (data_addr b) in Ok (data, b).
Definition dp_packet_push (b : dp_packet) (p : bytes) : res unit (Z * dp_packet) :=
  let! (dst, b) := dp_packet_push_uninit b (Z.of_nat (length p)) in
  let! b := dp_store b dst p in Ok (dst, b).
Definition dp_packet_push_zeros (b : dp_packet) (size : Z) : res unit (Z * dp_packet) :=
  let! (dst, b) := dp_packet_push_uninit b size in
  let! b := dp_store b dst (replicate (Z.to_nat size) 0) in Ok (dst, b).

Definition dp_packet_new_with_headroom (size headroom : Z) : res unit dp_packet :=
  dp_packet_reserve (dp_packet_new (u64 (size + headroom))) headroom.
Definition dp_packet_clone_data_with_headroom (data : bytes) (headroom : Z) : res unit dp_packet :=
  let! b := dp_packet_new_with_headroom (Z.of_nat (length data)) headroom in
  let! (_, b) := dp_packet_put b data in Ok b.
Definition dp_packet_clone_data (data : bytes) : res unit dp_packet := dp_packet_clone_data_with_headroom data 0.
Definition dp_packet_clone_with_headroom (b : dp_packet) (headroom : Z) : res unit dp_packet :=
  let! data := res_of (data_addr b) in
  let! bs := res_of (peek (dp_mem b) data (size_ b)) in
  let! c := dp_packet_clone_data_with_headroom bs headroom in
  let c := set_dp_lay c (dp_lay b) in
  let c := if dp_packet_rss_valid b then dp_packet_set_rss_hash c (dp_packet_get_rss_hash b) else c in
  Ok (match dp_packet_has_flow_mark b with Some mark => dp_packet_set_flow_mark c mark | None => c end).
Definition dp_packet_clone (b : dp_packet) : res unit dp_packet := dp_packet_clone_with_headroom b 0.

(** The bytes returned, and the packet left. *)
Definition dp_packet_steal_data (b : dp_packet) : res unit (bytes * dp_packet) :=
  let! p :=
    match dp_source b with
    | DPBUF_DPDK | DPBUF_AFXDP => Err tt
    | _ =>
        let! data := res_of (data_addr b) in
        if bool_decide (dp_source b = DPBUF_MALLOC) && (data =? 0) then Ok (dp_mem b)
        else res_of (peek (dp_mem b) data (size_ b))
    end in
  Ok (p, mk_dp (S (dp_block b)) false [] (allocated_ b) UINT16_MAX (size_ b) (ol_flags b) (rss_hash b) (flow_mark b) (dp_source b) (dp_lay b)).

(** ** Headers that grow and shrink *)

Definition dp_packet_adjust_layer_offset (offset increment : Z) : Z :=
  if offset =? UINT16_MAX then offset else u16 (offset + increment).

Definition adjust_l3_l4 (l : dp_layers) (increment : Z) : dp_layers :=
  mk_layers (l2_pad_size l) (l2_5_ofs l) (dp_packet_adjust_layer_offset (l3_ofs l) increment)
    (dp_packet_adjust_layer_offset (l4_ofs l) increment) (cutlen l) (packet_type l) (dp_md l).
Definition adjust_l2_5 (l : dp_layers) (increment : Z) : dp_layers :=
  mk_layers (l2_pad_size l) (dp_packet_adjust_layer_offset (l2_5_ofs l) increment) (l3_ofs l) (l4_ofs l)
    (cutlen l) (packet_type l) (dp_md l).

(** [increment] is an [int], whose smallest value cannot be negated. *)
Definition dp_packet_resize_l2_5 (b : dp_packet) (increment : Z) : res unit (option Z * dp_packet) :=
  let! (_, b) := if 0 <=? increment then dp_packet_push_uninit b increment
                 else if increment =? - 2 ^ 31 then Undef else dp_packet_pull b (- increment) in
  let b := set_dp_lay b (adjust_l3_l4 (dp_lay b) increment) in Ok (dp_packet_data b, b).
Definition dp_packet_resize_l2 (b : dp_packet) (increment : Z) : res unit (option Z * dp_packet) :=
  let! (_, b) := dp_packet_resize_l2_5 b increment in
  let b := set_dp_lay b (adjust_l2_5 (dp_lay b) increment) in Ok (dp_packet_data b, b).

(** ** The helpers of BPF programs (lib/bpf.c)

    The context is the packet.  The result is a pointer, [None] for NULL. *)

Definition ubpf_adjust_head (packet : dp_packet) (offset : Z) : res unit (option Z * dp_packet) :=
  if 0 <=? offset then let! (pkt, b) := dp_packet_push_zeros packet offset in Ok (Some pkt, b)
  else if offset =? - 2 ^ 31 then Undef
  else let! b := dp_packet_reset_packet packet (- offset) in Ok (dp_packet_data b, b).

Definition ubpf_packet_data (packet : dp_packet) : option Z := dp_packet_data packet.
Definition ubpf_get_rss_hash (packet : dp_packet) : Z := dp_packet_get_rss_hash packet.

End Alloc.
