(* ===== verification/DpPacketProps.v ===== *)
(** * Packets refine strings of bytes

    [dlay] describes a packet whose block fits the 16-bit fields; the operations keep it and act
    on the contents as on a list, whatever is reallocated underneath. *)

From S2P Require Import Prelude MapDef OfpBuf OfpBufProps DpPacket.

Record dlay (b : dp_packet) (pre c post : bytes) : Prop := {
  dl_base : dp_base b = true;
  dl_mem : dp_mem b = pre ++ c ++ post;
  dl_data : data_ofs b = Z.of_nat (length pre);
  dl_size : size_ b = Z.of_nat (length c);
  dl_allocated : allocated_ b = Z.of_nat (length pre + length c + length post);
  dl_bound : allocated_ b < UINT16_MAX
}.

(** The contents, and what has to hold of the memory to grow. *)
Definition dcontents (b : dp_packet) : bytes := take (Z.to_nat (size_ b)) (drop (Z.to_nat (data_ofs b)) (dp_mem b)).
Definition movable (b : dp_packet) : Prop := dp_source b = DPBUF_MALLOC \/ dp_source b = DPBUF_STUB.

(** What a packet carries besides its bytes. *)
Definition carried (b : dp_packet) : dp_layers * Z * Z * Z := (dp_lay b, ol_flags b, rss_hash b, flow_mark b).

(** [n] bytes can be added in [room] or in a larger block; [dgrows]: room for them was made in [b']. *)
Definition dgrowable (b : dp_packet) (room : bytes) (n : Z) : Prop :=
  n <= Z.of_nat (length room) \/ movable b /\ allocated_ b + Z.max n 64 < UINT16_MAX.
Definition dgrows (b : dp_packet) (n : Z) (b' : dp_packet) : Prop :=
  (movable b -> movable b') /\ allocated_ b' <= allocated_ b + Z.max n 64 /\ carried b' = carried b.

Lemma dlay_contents b pre c post : dlay b pre c post -> dcontents b = c.
Proof.
  intros [_ Hm Hd Hs _ _]. unfold dcontents. rewrite Hm, Hd, Hs, !Nat2Z.id, drop_app_length. apply take_app_length.
Qed.

Lemma dlay_addr b pre c post : dlay b pre c post -> data_addr b = Some (Z.of_nat (length pre)) /\ dp_packet_data b = Some (Z.of_nat (length pre)).
Proof.
  intros [_ _ Hd _ Ha Hb]. unfold data_addr, dp_packet_data. rewrite Hd, (proj2 (Z.eqb_neq _ _)) by clia. done.
Qed.

Lemma dlay_rooms b pre c post : dlay b pre c post ->
  dp_packet_headroom b = Some (Z.of_nat (length pre)) /\ dp_packet_tailroom b = Some (Z.of_nat (length post)) /\
  dp_packet_tail b = Some (Z.of_nat (length pre + length c)).
Proof.
  intros Hl. destruct (dlay_addr _ _ _ _ Hl) as [Hp _]. destruct Hl as [_ _ Hd Hs Ha Hb].
  unfold dp_packet_headroom, dp_packet_tailroom, dp_packet_tail, dp_packet_end. rewrite Hp. cbn [fmap option_fmap option_map mbind option_bind].
  rewrite Hs, Ha in *. autounfold with consts in *. rewrite !wrap_small by (unfold in_u; lia). split_and!; apply (f_equal Some); lia.
Qed.

Lemma dlay_set_data b pre c post ofs : dlay b pre c post -> 0 <= ofs < UINT16_MAX -> dp_packet_set_data b ofs = Ok (set_dp_data b ofs (size_ b)).
Proof. intros Hl Ho. unfold dp_packet_set_data. rewrite (dl_base _ _ _ _ Hl), wrap_small by (unfold in_u; clia). done. Qed.

(** The same bytes with other borders. *)
Lemma dlay_borders b pre c post pre' c' post' :
  dlay b pre c post -> pre' ++ c' ++ post' = pre ++ c ++ post ->
  dlay (set_dp_data b (Z.of_nat (length pre')) (Z.of_nat (length c'))) pre' c' post'.
Proof.
  intros [H1 H2 H3 H4 H5 H6] E. pose proof (f_equal length E) as El. rewrite !length_app in El.
  split; cbn; try done; [congruence|lia].
Qed.

Lemma wrap_below w x : 0 <= w -> - 2 ^ w <= x < 0 -> wrap w x = 2 ^ w + x.
Proof. intros Hw Hx. unfold wrap. symmetry. apply (Z.mod_unique_pos _ _ (-1)); lia. Qed.

Lemma set_size_data b ofs sz v : dp_packet_set_size (set_dp_data b ofs sz) v = set_dp_data b ofs (u32 v).
Proof. done. Qed.

Section Props.
Context (junk : nat -> Z).

Lemma dp_copy_lay b pre c post nh nt :
  dlay b pre c post -> 0 <= nh -> 0 <= nt -> nh + size_ b + nt < 2 ^ 32 ->
  exists pre' post', dp_packet_copy__ b (xmalloc junk (nh + size_ b + nt)) nh nt = Some (pre' ++ c ++ post') /\
    Z.of_nat (length pre') = nh /\ Z.of_nat (length post') = nt.
Proof.
  intros Hl H1 H2 H3. destruct (dlay_rooms _ _ _ _ Hl) as (Hh & Ht & _). destruct Hl as [_ Hm Hd Hs Ha Hb].
  destruct (copy_bytes pre c post (xmalloc junk (nh + size_ b + nt)) nh nt) as (pre' & post' & E & Hl'); [done|done|rewrite length_xmalloc; lia|].
  exists pre', post'. split; [|done]. unfold dp_packet_copy__. rewrite Hh, Ht. cbn [mbind option_bind]. rewrite Hm, Hs in *.
  rewrite wrap_small by (unfold in_u; lia). exact E.
Qed.

(** The block after a reallocation, whatever its size: only [allocated_] is cut to 16 bits. *)
Lemma dp_resize_mem b pre c post nh nt :
  dlay b pre c post -> movable b -> 0 <= nh < UINT16_MAX -> 0 <= nt -> nh + size_ b + nt < 2 ^ 32 ->
  exists pre' post', Z.of_nat (length pre') = nh /\ Z.of_nat (length post') = nt /\
    dp_packet_resize__ junk b nh nt =
      Ok (mk_dp (S (dp_block b)) true (pre' ++ c ++ post') (u16 (nh + size_ b + nt)) nh (size_ b) (ol_flags b) (rss_hash b) (flow_mark b)
            DPBUF_MALLOC (dp_lay b)).
Proof.
  intros Hl Hm H1 H2 H3. pose proof (dlay_rooms _ _ _ _ Hl) as (Hh & _). pose proof Hl as [Hb Em Ed Es Ea Hu].
  autounfold with consts in *. unfold dp_packet_resize__. rewrite (wrap_small 64) by (unfold in_u; lia).
  destruct (dp_copy_lay b pre c post nh nt Hl) as (pre1 & post1 & Hc & E1 & E2); [lia..|]. rewrite Hc, Hh. cbn [res_of res_bind].
  assert (exists pre' post', match dp_source b with
    | DPBUF_MALLOC =>
        if nh =? Z.of_nat (length pre) then Ok (xrealloc junk (dp_mem b) (nh + size_ b + nt)) else Ok (pre1 ++ c ++ post1)
    | DPBUF_STUB => Ok (pre1 ++ c ++ post1)
    | _ => Err tt
    end = Ok (pre' ++ c ++ post') /\ Z.of_nat (length pre') = nh /\ Z.of_nat (length post') = nt) as (pre' & post' & -> & E3 & E4).
  { destruct Hm as [-> | ->]; [|by exists pre1, post1].
    destruct (Z.eqb_spec nh (Z.of_nat (length pre))) as [->|_]; [|by exists pre1, post1].
    rewrite Es, Em. destruct (realloc_bytes junk pre c post nt H2) as (post' & -> & Hp). by exists pre, post'. }
  cbn [res_bind]. exists pre', post'. split_and!; [done..|].
  case_bool_decide as Hd; [|unfold dp_packet_set_data; cbn; rewrite (wrap_small 16 nh) by (unfold in_u; lia); done].
  unfold dp_packet_data in Hd. cbn in Hd. case_match; [done|]. injection Hd as Hd. by rewrite Hd.
Qed.

Lemma dp_resize_lay b pre c post nh nt :
  dlay b pre c post -> movable b -> 0 <= nh -> 0 <= nt -> nh + size_ b + nt < UINT16_MAX ->
  exists b' pre' post', dp_packet_resize__ junk b nh nt = Ok b' /\ dlay b' pre' c post' /\
    Z.of_nat (length pre') = nh /\ Z.of_nat (length post') = nt /\ carried b' = carried b /\ dp_source b' = DPBUF_MALLOC.
Proof.
  intros Hl Hm H1 H2 H3. pose proof (dl_size _ _ _ _ Hl) as Es. autounfold with consts in *.
  destruct (dp_resize_mem b pre c post nh nt Hl Hm) as (pre' & post' & E3 & E4 & ->); [clia..|].
  eexists _, pre', post'. split; [done|]. split_and!; try done.
  split; cbn; rewrite ?wrap_small by (unfold in_u; lia); autounfold with consts; lia || done.
Qed.

Lemma dp_prealloc_tailroom_lay b pre c post n :
  dlay b pre c post -> dgrowable b post n -> 0 <= n ->
  exists b' pre' post', dp_packet_prealloc_tailroom junk b n = Ok b' /\ dlay b' pre' c post' /\
    length pre' = length pre /\ n <= Z.of_nat (length post') /\ dgrows b n b'.
Proof.
  intros Hl Hg Hn. destruct (dlay_rooms _ _ _ _ Hl) as (Hh & Ht & _). unfold dp_packet_prealloc_tailroom. rewrite Hh, Ht. cbn [res_of res_bind].
  destruct (Z.ltb_spec (Z.of_nat (length post)) n).
  - destruct Hg as [Hg|[Hs Hg]]; [lia|]. pose proof Hl as [_ _ _ Hsz Ha _].
    destruct (dp_resize_lay b pre c post (Z.of_nat (length pre)) (Z.max n 64) Hl Hs) as (b' & pre' & post' & E & H1 & H2 & H3 & H4 & H5); [lia..|].
    pose proof H1 as [_ _ _ H6 H7 _]. exists b', pre', post'. split_and!; try done; [lia..|]. split_and!; [by left|lia|done].
  - exists b, pre, post. split_and!; try done. split_and!; [done|lia|done].
Qed.

Lemma dp_prealloc_headroom_lay b pre c post n :
  dlay b pre c post -> dgrowable b pre n -> 0 <= n ->
  exists b' pre' post', dp_packet_prealloc_headroom junk b n = Ok b' /\ dlay b' pre' c post' /\
    n <= Z.of_nat (length pre') /\ dgrows b n b'.
Proof.
  intros Hl Hg Hn. destruct (dlay_rooms _ _ _ _ Hl) as (Hh & Ht & _). unfold dp_packet_prealloc_headroom. rewrite Hh, Ht. cbn [res_of res_bind].
  destruct (Z.ltb_spec (Z.of_nat (length pre)) n).
  - destruct Hg as [Hg|[Hs Hg]]; [lia|]. pose proof Hl as [_ _ _ Hsz Ha _].
    destruct (dp_resize_lay b pre c post (Z.max n 64) (Z.of_nat (length post)) Hl Hs) as (b' & pre' & post' & E & H1 & H2 & H3 & H4 & H5); [lia..|].
    pose proof H1 as [_ _ _ H6 H7 _]. exists b', pre', post'. split_and!; try done; [lia..|]. split_and!; [by left|lia|done].
  - exists b, pre, post. split_and!; try done. split_and!; [done|lia|done].
Qed.

(** ** Appending and prefixing *)

Lemma dp_put_uninit_lay b pre c post n :
  dlay b pre c post -> dgrowable b post n -> 0 <= n ->
  exists b' pre' slack post', dp_packet_put_uninit junk b n = Ok (Z.of_nat (length (pre' ++ c)), b') /\
    dlay b' pre' (c ++ slack) post' /\ Z.of_nat (length slack) = n /\ length pre' = length pre /\ dgrows b n b'.
Proof.
  intros Hl Hg Hn. destruct (dp_prealloc_tailroom_lay b pre c post n Hl Hg Hn) as (b' & pre' & post' & E & Hl' & Hp & Hr & Hgr).
  destruct (dlay_rooms _ _ _ _ Hl') as (_ & _ & Ht'). pose proof Hl' as [_ Em Ed Es Ea Eb].
  unfold dp_packet_put_uninit. rewrite E. cbn [res_bind]. rewrite Ht'. cbn [res_of res_bind].
  assert (length (take (Z.to_nat n) post') = Z.to_nat n) as Ht by (rewrite length_take; lia).
  exists (dp_packet_set_size b' (size_ b' + n)), pre', (take (Z.to_nat n) post'), (drop (Z.to_nat n) post').
  split_and!; [by rewrite length_app| |lia|done|exact Hgr].
  unfold dp_packet_set_size. autounfold with consts in *. rewrite wrap_small by (unfold in_u; lia).
  replace (data_ofs b') with (Z.of_nat (length pre')) by lia.
  replace (size_ b' + n) with (Z.of_nat (length (c ++ take (Z.to_nat n) post'))) by (rewrite length_app; lia).
  apply (dlay_borders b' pre' c post'); [done|]. by rewrite <- app_assoc, take_drop.
Qed.

Lemma dp_push_uninit_lay b pre c post n :
  dlay b pre c post -> dgrowable b pre n -> 0 <= n ->
  exists b' pre' slack post', dp_packet_push_uninit junk b n = Ok (Z.of_nat (length pre'), b') /\
    dlay b' pre' (slack ++ c) post' /\ Z.of_nat (length slack) = n /\ dgrows b n b'.
Proof.
  intros Hl Hg Hn. destruct (dp_prealloc_headroom_lay b pre c post n Hl Hg Hn) as (b' & pre' & post' & E & Hl' & Hr & Hgr).
  destruct (dlay_addr _ _ _ _ Hl') as [Ha' _]. pose proof Hl' as [_ Em Ed Es Ea Eb]. autounfold with consts in *.
  unfold dp_packet_push_uninit. rewrite E. cbn [res_bind]. rewrite Ha'. cbn [res_of res_bind].
  rewrite (dlay_set_data _ _ _ _ _ Hl') by clia. cbn [res_bind]. set (k := (length pre' - Z.to_nat n)%nat).
  assert (length (take k pre') = k) as Ht by (rewrite length_take; lia).
  assert (dlay (set_dp_data b' (Z.of_nat (length (take k pre'))) (Z.of_nat (length (drop k pre' ++ c)))) (take k pre') (drop k pre' ++ c) post') as Hl1.
  { apply (dlay_borders b' pre' c post'); [done|]. by rewrite <- !app_assoc, (app_assoc (take k pre')), take_drop. }
  rewrite set_size_data; cbn [size_ set_dp_data]; rewrite wrap_small by (unfold in_u; lia). rewrite Ht in *. rewrite length_app, length_drop in Hl1.
  replace (Z.of_nat (length pre') - n) with (Z.of_nat k) by lia.
  replace (size_ b' + n) with (Z.of_nat (length pre' - k + length c)) by lia.
  eexists _, (take k pre'), (drop k pre'), post'. split_and!; [|exact Hl1|rewrite length_drop; lia|exact Hgr].
  rewrite (proj1 (dlay_addr _ _ _ _ Hl1)). done.
Qed.

(** A [memcpy] over [old], somewhere in the bytes in use. *)
Lemma dp_store_lay b pre c1 old c2 post bs :
  dlay b pre (c1 ++ old ++ c2) post -> length bs = length old ->
  exists b', dp_store b (Z.of_nat (length (pre ++ c1))) bs = Ok b' /\ dlay b' pre (c1 ++ bs ++ c2) post /\
    carried b' = carried b /\ dp_source b' = dp_source b /\ allocated_ b' = allocated_ b.
Proof using.
  intros [Eb Em Ed Es Ea Eu] Hbs. unfold dp_store. rewrite Em.
  replace (pre ++ (c1 ++ old ++ c2) ++ post) with ((pre ++ c1) ++ old ++ (c2 ++ post)) by (by rewrite <- !app_assoc).
  rewrite poke_app by done. cbn [res_of res_bind]. eexists. split; [reflexivity|]. split_and!; try done.
  split; cbn; rewrite ?length_app in *; try lia; [done|by rewrite <- !app_assoc].
Qed.

Lemma dp_put_lay b pre c post p :
  dlay b pre c post -> dgrowable b post (Z.of_nat (length p)) ->
  exists b' pre' post', dp_packet_put junk b p = Ok (Z.of_nat (length (pre' ++ c)), b') /\ dlay b' pre' (c ++ p) post' /\
    length pre' = length pre /\ dgrows b (Z.of_nat (length p)) b'.
Proof.
  intros Hl Hg. destruct (dp_put_uninit_lay b pre c post _ Hl Hg) as (b1 & pre1 & sl & post1 & E & Hl1 & Hs & Hp & Hgr); [lia|].
  rewrite <- (app_nil_r sl) in Hl1.
  destruct (dp_store_lay b1 pre1 c sl [] post1 p Hl1) as (b2 & E2 & Hl2 & Hc2 & Hs2 & Ha2); [lia|]. rewrite app_nil_r in Hl2.
  unfold dp_packet_put. rewrite E. cbn [res_bind]. rewrite E2. cbn [res_bind]. exists b2, pre1, post1. split_and!; try done.
  destruct Hgr as (? & ? & ?). unfold dgrows, movable in *. rewrite Hs2, Ha2. split_and!; [done..|congruence].
Qed.

Lemma dp_push_lay b pre c post p :
  dlay b pre c post -> dgrowable b pre (Z.of_nat (length p)) ->
  exists b' pre' post', dp_packet_push junk b p = Ok (Z.of_nat (length pre'), b') /\ dlay b' pre' (p ++ c) post' /\
    dgrows b (Z.of_nat (length p)) b'.
Proof.
  intros Hl Hg. destruct (dp_push_uninit_lay b pre c post _ Hl Hg) as (b1 & pre1 & sl & post1 & E & Hl1 & Hs & Hgr); [lia|].
  destruct (dp_store_lay b1 pre1 [] sl c post1 p Hl1) as (b2 & E2 & Hl2 & Hc2 & Hs2 & Ha2); [lia|]. rewrite app_nil_r in E2.
  unfold dp_packet_push. rewrite E. cbn [res_bind]. rewrite E2. cbn [res_bind]. exists b2, pre1, post1. split_and!; try done.
  destruct Hgr as (? & ? & ?). unfold dgrows, movable in *. rewrite Hs2, Ha2. split_and!; [done..|congruence].
Qed.

Lemma dp_put_zeros_eq b n : 0 <= n -> dp_packet_put_zeros junk b n = dp_packet_put junk b (replicate (Z.to_nat n) 0).
Proof. intros. unfold dp_packet_put_zeros, dp_packet_put. by rewrite length_replicate, Z2Nat.id. Qed.
Lemma dp_push_zeros_eq b n : 0 <= n -> dp_packet_push_zeros junk b n = dp_packet_push junk b (replicate (Z.to_nat n) 0).
Proof. intros. unfold dp_packet_push_zeros, dp_packet_push. by rewrite length_replicate, Z2Nat.id. Qed.

(** ** Removing from the head *)

(** The first [c1] bytes become headroom. *)
Lemma dlay_advance b pre c1 c2 post : dlay b pre (c1 ++ c2) post ->
  dlay (set_dp_data b (Z.of_nat (length pre + length c1)) (Z.of_nat (length c2))) (pre ++ c1) c2 post.
Proof using. intros Hl. rewrite <- length_app. apply (dlay_borders _ _ _ _ _ _ _ Hl). by rewrite <- !app_assoc. Qed.

Lemma dp_pull_lay b pre c1 c2 post :
  dlay b pre (c1 ++ c2) post -> Z.of_nat (length c1) <= size_ b - l2_pad_size (dp_lay b) -> 0 <= l2_pad_size (dp_lay b) ->
  exists b', dp_packet_pull b (Z.of_nat (length c1)) = Ok (Z.of_nat (length pre), b') /\ dlay b' (pre ++ c1) c2 post /\ carried b' = carried b.
Proof using.
  intros Hl Hp H0. destruct (dlay_addr _ _ _ _ Hl) as [Ha _]. pose proof Hl as [_ _ _ Es Eal Eu]. rewrite length_app in *. autounfold with consts in *.
  unfold dp_packet_pull, dp_packet_l2_pad_size. rewrite Ha. cbn [res_of res_bind].
  rewrite (wrap_small 32), (proj2 (Z.leb_le _ _)) by (unfold in_u; lia).
  rewrite (dlay_set_data _ _ _ _ _ Hl) by clia. cbn [res_bind]. rewrite set_size_data. cbn [size_ set_dp_data]. rewrite wrap_small by (unfold in_u; lia).
  eexists. split; [reflexivity|]. split; [|done].
  replace (_ + Z.of_nat (length c1)) with (Z.of_nat (length pre + length c1)) by lia.
  replace (size_ b - _) with (Z.of_nat (length c2)) by lia. by apply dlay_advance.
Qed.

Lemma dp_reset_packet_lay b pre c1 c2 post :
  dlay b pre (c1 ++ c2) post ->
  exists b', dp_packet_reset_packet b (Z.of_nat (length c1)) = Ok b' /\ dlay b' (pre ++ c1) c2 post /\
    dp_lay b' = dp_lay (dp_packet_reset_offsets b) /\ dp_source b' = dp_source b.
Proof using.
  intros Hl. destruct (dlay_addr _ _ _ _ Hl) as [Ha _]. pose proof Hl as [_ _ _ Es Eal Eu]. rewrite length_app in *. autounfold with consts in *.
  unfold dp_packet_reset_packet, dp_packet_set_size. rewrite wrap_small by (unfold in_u; lia).
  change (data_addr (set_dp_data b (data_ofs b) _)) with (data_addr b). rewrite Ha. cbn [res_of res_bind].
  unfold dp_packet_set_data. cbn [dp_base set_dp_data]. rewrite (dl_base _ _ _ _ Hl), wrap_small by (unfold in_u; lia). cbn [res_bind].
  eexists. split; [reflexivity|]. split_and!; [|done|done].
  destruct (dlay_advance _ _ _ _ _ Hl) as [? Em Ed Es' Ea' Eu']. cbn in *. split; cbn; try done; try lia.
Qed.

(** ** Allocation and copies *)

Context (stale : dp_packet) (md0 : bytes).

Lemma dp_new_lay n : 0 < n < UINT16_MAX ->
  dlay (dp_packet_new junk stale md0 n) [] [] (xmalloc junk n) /\ dp_source (dp_packet_new junk stale md0 n) = DPBUF_MALLOC /\
  ol_flags (dp_packet_new junk stale md0 n) = 0.
Proof.
  intros Hn. autounfold with consts in *. unfold dp_packet_new, dp_packet_init. rewrite (proj2 (Z.eqb_neq _ _)) by lia.
  split; [|done]. split; cbn; rewrite ?length_xmalloc, ?wrap_small by (unfold in_u; lia); autounfold with consts; lia || done.
Qed.

Lemma dp_clone_data_lay data headroom :
  0 <= headroom -> 0 < Z.of_nat (length data) + headroom < UINT16_MAX ->
  exists b pre post, dp_packet_clone_data_with_headroom junk stale md0 data headroom = Ok b /\ dlay b pre data post /\
    Z.of_nat (length pre) = headroom /\ ol_flags b = 0.
Proof.
  intros H0 Hn. unfold dp_packet_clone_data_with_headroom, dp_packet_new_with_headroom, dp_packet_reserve.
  autounfold with consts in *. rewrite wrap_small by (unfold in_u; lia).
  destruct (dp_new_lay (Z.of_nat (length data) + headroom)) as (Hl & Hs & Hf); [clia|]. set (b0 := dp_packet_new _ _ _ _) in *.
  rewrite (dl_size _ _ _ _ Hl). cbn [length Z.of_nat Z.eqb].
  unfold dp_packet_prealloc_tailroom. rewrite (proj1 (proj2 (dlay_rooms _ _ _ _ Hl))). cbn [res_of res_bind].
  rewrite length_xmalloc, (proj2 (Z.ltb_ge _ _)) by lia. cbn [res_bind].
  rewrite (proj1 (dlay_addr _ _ _ _ Hl)). cbn [res_of res_bind length Z.of_nat Z.add].
  rewrite (dlay_set_data _ _ _ _ _ Hl) by clia. cbn [res_bind]. set (m := xmalloc junk (Z.of_nat (length data) + headroom)) in *.
  assert (length m = Z.to_nat (Z.of_nat (length data) + headroom)) as Hm by apply length_xmalloc.
  pose proof (dlay_borders b0 [] [] m (take (Z.to_nat headroom) m) [] (drop (Z.to_nat headroom) m) Hl) as Hl1.
  rewrite (dl_size _ _ _ _ Hl). rewrite length_take, Nat.min_l, Z2Nat.id in Hl1 by lia. cbn [length Z.of_nat Z.add].
  specialize (Hl1 (take_drop _ _)). change (Z.of_nat (length [])) with 0 in Hl1.
  destruct (dp_put_lay _ _ _ _ data Hl1) as (b' & pre' & post' & E & Hl' & Hp & _ & _ & Hc); [left; rewrite length_drop; lia|].
  change (Z.of_nat 0) with 0. rewrite Z.add_0_l. cbn [Z.eqb res_bind]. rewrite E. cbn [res_bind]. exists b', pre', post'. split_and!; [done|done|rewrite Hp, length_take; lia|].
  injection Hc as _ -> _ _. done.
Qed.

Lemma dp_clone_lay b pre c post headroom :
  dlay b pre c post -> 0 <= headroom -> 0 < size_ b + headroom < UINT16_MAX ->
  exists b' pre' post', dp_packet_clone_with_headroom junk stale md0 b headroom = Ok b' /\ dlay b' pre' c post' /\
    Z.of_nat (length pre') = headroom /\ dp_lay b' = dp_lay b /\
    dp_packet_rss_valid b' = dp_packet_rss_valid b /\ (dp_packet_rss_valid b = true -> rss_hash b' = rss_hash b) /\
    dp_packet_has_flow_mark b' = dp_packet_has_flow_mark b.
Proof.
  intros Hl H0 Hn. destruct (dlay_addr _ _ _ _ Hl) as [Ha _]. pose proof Hl as [_ Em _ Es _ _].
  unfold dp_packet_clone_with_headroom. rewrite Ha, Es, Em. cbn [res_of res_bind]. rewrite peek_app. cbn [res_of res_bind].
  destruct (dp_clone_data_lay c headroom) as (b' & pre' & post' & E & [? ? ? ? ? ?] & Hp & Hf); [done|lia|]. rewrite E. cbn [res_bind].
  eexists _, pre', post'. split; [reflexivity|].
  unfold dp_packet_has_flow_mark, dp_packet_rss_valid, dp_packet_set_flow_mark, dp_packet_set_rss_hash, dp_packet_get_rss_hash.
  destruct (Z.land (ol_flags b) DP_PACKET_OL_RSS_HASH_MASK =? 0), (Z.land (ol_flags b) DP_PACKET_OL_FLOW_MARK_MASK =? 0);
    cbn; rewrite Hf; cbn; split_and!; done.
Qed.
End Props.

(** ** Packets as strings *)

Record wf_dp (b : dp_packet) : Prop := {
  wf_dp_base : dp_base b = true;
  wf_dp_data : 0 <= data_ofs b;
  wf_dp_room : data_ofs b + size_ b <= allocated_ b;
  wf_dp_allocated : allocated_ b = Z.of_nat (length (dp_mem b));
  wf_dp_bound : allocated_ b < UINT16_MAX;
  wf_dp_pad : 0 <= l2_pad_size (dp_lay b) <= size_ b
}.

Lemma wf_dlay b : wf_dp b -> exists pre post, dlay b pre (dcontents b) post /\
  Z.of_nat (length pre) = data_ofs b /\ Z.of_nat (length post) = allocated_ b - data_ofs b - size_ b.
Proof.
  intros [H0 H1 H3 H4 H5 H6]. set (d := Z.to_nat (data_ofs b)). set (s := Z.to_nat (size_ b)).
  exists (take d (dp_mem b)), (drop (d + s) (dp_mem b)).
  assert (length (dcontents b) = s) as Hc. { unfold dcontents. rewrite length_take, length_drop. lia. }
  assert (length (take d (dp_mem b)) = d) as Ht by (rewrite length_take; lia).
  split; [|rewrite Ht, length_drop; lia]. split; rewrite ?Hc, ?Ht, ?length_drop; try lia; [done|].
  unfold dcontents. fold d s. rewrite <- (drop_drop _ s d), take_drop. by rewrite take_drop.
Qed.

(** [b'] holds [c], and carries what [b] carried. *)
Definition dholds (b b' : dp_packet) (c : bytes) : Prop := wf_dp b' /\ dcontents b' = c /\ carried b' = carried b.

Lemma dlay_wf b pre c post : dlay b pre c post -> 0 <= l2_pad_size (dp_lay b) <= Z.of_nat (length c) -> wf_dp b.
Proof. intros [H0 Hm Hd Hs Ha Hb] Hp. split; rewrite ?Hm, ?length_app; lia || done. Qed.

Lemma dlay_holds b b' pre c post :
  dlay b' pre c post -> carried b' = carried b -> 0 <= l2_pad_size (dp_lay b) <= Z.of_nat (length c) -> dholds b b' c.
Proof.
  intros Hl Hc Hp. split_and!; [|by eapply dlay_contents|done]. eapply dlay_wf; [done|]. injection Hc as -> _ _ _. done.
Qed.

(** Moving the bytes within the block. *)
Lemma dp_shift_lay b pre c post delta :
  dlay b pre c post -> - Z.of_nat (length pre) <= delta <= Z.of_nat (length post) -> delta <> 0 ->
  exists b' pre' post', dp_packet_shift b delta = Ok b' /\ dlay b' pre' c post' /\ carried b' = carried b /\
    Z.of_nat (length pre') = Z.of_nat (length pre) + delta.
Proof.
  intros Hl Hd Hz. destruct (dlay_rooms _ _ _ _ Hl) as (Hh & Ht & _). destruct (dlay_addr _ _ _ _ Hl) as [Ha _].
  pose proof Hl as [Eb Em Ed Es Ea Eu]. autounfold with consts in *. unfold dp_packet_shift. rewrite Hh, Ht, Ha. cbn [res_of res_bind].
  replace (if 0 <? delta then _ else _) with true.
  2: { symmetry. destruct (Z.ltb_spec 0 delta); [apply Z.leb_le; lia|]. destruct (Z.ltb_spec delta 0); [apply Z.leb_le|]; lia. }
  rewrite (proj2 (Z.eqb_neq _ _)) by done. cbn [negb]. rewrite Em, Es, peek_app. cbn [res_of res_bind].
  unfold dp_store, poke. rewrite Em, !(proj2 (Z.leb_le _ _)) by (rewrite ?length_app; lia). cbn [andb res_of res_bind].
  unfold dp_packet_set_data. cbn [dp_base set_dp_mem]. rewrite Eb, wrap_small by (unfold in_u; lia).
  set (k := Z.to_nat (Z.of_nat (length pre) + delta)).
  assert (length (take k (pre ++ c ++ post)) = k) as Hk by (rewrite length_take, !length_app; lia).
  eexists _, (take k (pre ++ c ++ post)), (drop (k + length c) (pre ++ c ++ post)). split; [reflexivity|]. split_and!; [|done|lia].
  split; cbn; rewrite ?Hk, ?length_drop, ?length_app; autounfold with consts; lia || done.
Qed.

(** C40: while its block stays below 2^16 - 1 bytes, a packet is the string of its bytes: putting,
    pushing (bytes or zeros), pulling and shifting are the operations on strings, however the block is
    reallocated or moved, and keep the layer offsets, the hash and the mark; pulling more than the
    bytes before the padding fails, and [dp_packet_try_pull] then changes nothing; a clone has
    the same bytes, layers, hash and mark. *)
Theorem dp_packet_refines junk stale md0 b p n delta :
  wf_dp b -> movable b -> allocated_ b + Z.max (Z.of_nat (length p)) 64 < UINT16_MAX ->
  0 <= n -> 0 < size_ b + n < UINT16_MAX -> - data_ofs b <= delta <= allocated_ b - data_ofs b - size_ b ->
  (exists q b', dp_packet_put junk b p = Ok (q, b') /\ dholds b b' (dcontents b ++ p)) /\
  (exists q b', dp_packet_put_zeros junk b (Z.of_nat (length p)) = Ok (q, b') /\ dholds b b' (dcontents b ++ replicate (length p) 0)) /\
  (exists q b', dp_packet_push junk b p = Ok (q, b') /\ dholds b b' (p ++ dcontents b)) /\
  (exists q b', dp_packet_push_zeros junk b (Z.of_nat (length p)) = Ok (q, b') /\ dholds b b' (replicate (length p) 0 ++ dcontents b)) /\
  (if n <=? size_ b - l2_pad_size (dp_lay b) then
     exists b', dp_packet_pull b n = Ok (data_ofs b, b') /\ dp_packet_try_pull b n = Ok (Some (data_ofs b), b') /\
       dholds b b' (drop (Z.to_nat n) (dcontents b))
   else dp_packet_pull b n = Err tt /\ dp_packet_try_pull b n = Ok (None, b)) /\
  (exists b', dp_packet_shift b delta = Ok b' /\ dholds b b' (dcontents b)) /\
  (exists b', dp_packet_clone_with_headroom junk stale md0 b n = Ok b' /\ wf_dp b' /\ dcontents b' = dcontents b /\
     dp_lay b' = dp_lay b /\ dp_packet_rss_valid b' = dp_packet_rss_valid b /\
     (dp_packet_rss_valid b = true -> dp_packet_get_rss_hash b' = dp_packet_get_rss_hash b) /\
     dp_packet_has_flow_mark b' = dp_packet_has_flow_mark b).
Proof.
  intros Hw Hm Hg Hn Hs Hd. destruct (wf_dlay b Hw) as (pre & post & Hl & Hpre & Hpost). pose proof (wf_dp_pad _ Hw) as Hpad.
  pose proof (dl_size _ _ _ _ Hl) as Esz. pose proof (wf_dp_bound _ Hw) as Hu. pose proof (dl_allocated _ _ _ _ Hl) as Hal. split_and!.
  - destruct (dp_put_lay junk b _ _ _ p Hl) as (b' & ? & ? & E & Hl' & _ & _ & _ & Hc); [by right|].
    eexists _, b'. split; [done|]. eapply dlay_holds; [done..|]. rewrite length_app. lia.
  - rewrite dp_put_zeros_eq, Nat2Z.id by lia.
    destruct (dp_put_lay junk b _ _ _ (replicate (length p) 0) Hl) as (b' & ? & ? & E & Hl' & _ & _ & _ & Hc); [right; by rewrite length_replicate|].
    eexists _, b'. split; [done|]. eapply dlay_holds; [done..|]. rewrite length_app. lia.
  - destruct (dp_push_lay junk b _ _ _ p Hl) as (b' & ? & ? & E & Hl' & _ & _ & Hc); [by right|].
    eexists _, b'. split; [done|]. eapply dlay_holds; [done..|]. rewrite length_app. lia.
  - rewrite dp_push_zeros_eq, Nat2Z.id by lia.
    destruct (dp_push_lay junk b _ _ _ (replicate (length p) 0) Hl) as (b' & ? & ? & E & Hl' & _ & _ & Hc); [right; by rewrite length_replicate|].
    eexists _, b'. split; [done|]. eapply dlay_holds; [done..|]. rewrite length_app. lia.
  - unfold dp_packet_try_pull, dp_packet_l2_pad_size. autounfold with consts in *. rewrite (wrap_small 32) by (unfold in_u; lia).
    destruct (Z.leb_spec n (size_ b - l2_pad_size (dp_lay b))).
    + rewrite <- (take_drop (Z.to_nat n) (dcontents b)) in Hl.
      assert (length (take (Z.to_nat n) (dcontents b)) = Z.to_nat n) as Htk by (rewrite length_take; lia).
      destruct (dp_pull_lay b _ _ _ _ Hl) as (b' & E & Hl' & Hc); [lia..|]. rewrite Htk, Z2Nat.id, Hpre in E by lia.
      exists b'. rewrite E. split_and!; [done..|]. eapply dlay_holds; [done..|]. rewrite length_drop. lia.
    + unfold dp_packet_pull, dp_packet_l2_pad_size. rewrite (proj1 (dlay_addr _ _ _ _ Hl)), (wrap_small 32), (proj2 (Z.leb_gt _ _)) by (unfold in_u; lia).
      done.
  - destruct (decide (delta = 0)) as [->|Hz].
    + exists b. unfold dp_packet_shift. destruct (dlay_rooms _ _ _ _ Hl) as (-> & -> & _). split; [done|].
      eapply dlay_holds; [done..|lia].
    + destruct (dp_shift_lay b _ _ _ delta Hl) as (b' & ? & ? & E & Hl' & Hc & _); [lia|done|].
      exists b'. split; [done|]. eapply dlay_holds; [done..|]. lia.
  - destruct (dp_clone_lay junk stale md0 b _ _ _ n Hl) as (b' & ? & ? & E & Hl' & _ & Hlay & H1 & H2 & H3); [lia..|].
    exists b'. split_and!; try done; [eapply dlay_wf; [done|]; rewrite Hlay; lia|by eapply dlay_contents].
Qed.

(** A packet of three bytes in a block of five, whose layers start at its second and third byte. *)
Definition small_packet : dp_packet :=
  mk_dp 0 true [0; 1; 2; 3; 0] 5 1 3 1 77 0 DPBUF_STUB (mk_layers 0 UINT16_MAX 1 2 0 PT_ETH []).

Lemma small_packet_wf : wf_dp small_packet /\ movable small_packet.
Proof. split; [|by right]. split; cbn; autounfold with consts; lia || done. Qed.

Lemma dp_packet_refines_witness :
  (exists q b', dp_packet_push (fun _ => 99) small_packet [7; 8] = Ok (q, b') /\ dholds small_packet b' [7; 8; 1; 2; 3]) /\
  (exists b', dp_packet_pull small_packet 2 = Ok (1, b') /\ dholds small_packet b' [3]).
Proof.
  destruct small_packet_wf as [Hw Hm].
  destruct (dp_packet_refines (fun _ => 99) small_packet [] small_packet [7; 8] 2 1 Hw Hm) as (_ & _ & H1 & _ & H2 & _);
    [cbn; autounfold with consts; lia..|].
  split; [exact H1|]. cbn [Z.leb] in H2. destruct H2 as (b' & H2 & _ & H3). exists b'. split; [exact H2|exact H3].
Defined.

(** ** Headers that grow and shrink *)

(** What lies behind the header keeps its place relative to the moved layers. *)
Lemma dp_resize_l2_5_lay junk b pre c post increment :
  dlay b pre c post -> dgrowable b pre increment -> 0 <= l2_pad_size (dp_lay b) ->
  - (size_ b - l2_pad_size (dp_lay b)) <= increment -> - 2 ^ 31 < increment ->
  exists b' pre' c' post', dp_packet_resize_l2_5 junk b increment = Ok (dp_packet_data b', b') /\ dlay b' pre' c' post' /\
    Z.of_nat (length c') = size_ b + increment /\ dp_lay b' = adjust_l3_l4 (dp_lay b) increment /\
    (forall o, 0 <= o -> 0 <= o + increment -> drop (Z.to_nat (o + increment)) c' = drop (Z.to_nat o) c).
Proof.
  intros Hl Hg H0 H1 H2. pose proof (dl_size _ _ _ _ Hl) as Es. unfold dp_packet_resize_l2_5.
  assert (forall b' pre' c' post' l, dlay b' pre' c' post' -> dlay (set_dp_lay b' l) pre' c' post') as Hset by (intros ????? []; by split).
  destruct (Z.leb_spec 0 increment).
  - destruct (dp_push_uninit_lay junk b pre c post increment Hl Hg) as (b' & pre' & sl & post' & -> & Hl' & Hs & _ & _ & Hc); [done|].
    injection Hc as Hc _ _ _. cbn [res_bind]. eexists _, pre', (sl ++ c), post'. split; [reflexivity|].
    split_and!; [by apply Hset|rewrite length_app; lia|cbn; by rewrite Hc|]. intros o Ho Ho'.
    replace (Z.to_nat (o + increment)) with (length sl + Z.to_nat o)%nat by lia. apply drop_app_add.
  - rewrite (proj2 (Z.eqb_neq _ _)) by lia. rewrite <- (take_drop (Z.to_nat (- increment)) c) in Hl.
    assert (length (take (Z.to_nat (- increment)) c) = Z.to_nat (- increment)) as Htk by (rewrite length_take; lia).
    destruct (dp_pull_lay b _ _ _ _ Hl) as (b' & E & Hl' & Hc); [lia..|]. rewrite Htk, Z2Nat.id in E by lia. rewrite E.
    injection Hc as Hc _ _ _. cbn [res_bind]. eexists _, _, _, post. split; [reflexivity|].
    split_and!; [by apply Hset|rewrite length_drop; lia|cbn; by rewrite Hc|]. intros o Ho Ho'.
    rewrite drop_drop. f_equal. lia.
Qed.

(** [dp_packet_resize_l2] changes the length by [increment], and every layer offset that is set and
    stays in range still marks the same bytes up to the end of the packet; an offset not set stays so. *)
Theorem resize_l2_layers junk b increment :
  wf_dp b -> movable b -> allocated_ b + Z.max increment 64 < UINT16_MAX ->
  - (size_ b - l2_pad_size (dp_lay b)) <= increment ->
  exists b', dp_packet_resize_l2 junk b increment = Ok (dp_packet_data b', b') /\ wf_dp b' /\ size_ b' = size_ b + increment /\
    forall ofs, ofs ∈ [l2_5_ofs; l3_ofs; l4_ofs] ->
      let o := ofs (dp_lay b) in
      (o = UINT16_MAX -> ofs (dp_lay b') = UINT16_MAX) /\
      (0 <= o < UINT16_MAX -> 0 <= o + increment <= UINT16_MAX ->
         ofs (dp_lay b') = o + increment /\ drop (Z.to_nat (ofs (dp_lay b'))) (dcontents b') = drop (Z.to_nat o) (dcontents b)).
Proof.
  intros Hw Hm Hg Hi. destruct (wf_dlay b Hw) as (pre & post & Hl & _ & _). pose proof (wf_dp_pad _ Hw) as Hpad.
  pose proof (dl_size _ _ _ _ Hl) as Es. pose proof (wf_dp_room _ Hw) as Hr. pose proof (wf_dp_bound _ Hw) as Hu.
  pose proof (wf_dp_data _ Hw) as Hd0. autounfold with consts in *.
  destruct (dp_resize_l2_5_lay junk b pre _ post increment Hl) as (b' & pre' & c' & post' & E & Hl' & Hs & Hlay & Hdrop); [right; by split|lia..|].
  unfold dp_packet_resize_l2. rewrite E. cbn [res_bind]. set (b2 := set_dp_lay b' _).
  assert (dlay b2 pre' c' post') as Hl2 by (destruct Hl'; by split).
  assert (dp_lay b2 = adjust_l2_5 (adjust_l3_l4 (dp_lay b) increment) increment) as Hlay2 by (unfold b2; cbn; by rewrite Hlay).
  exists b2. split; [done|]. split; [eapply dlay_wf; [done|]; rewrite Hlay2; cbn; lia|].
  split; [rewrite (dl_size _ _ _ _ Hl2); lia|]. intros ofs Hofs. set (o := ofs (dp_lay b)).
  assert (ofs (dp_lay b2) = dp_packet_adjust_layer_offset o increment) as ->.
  { rewrite Hlay2. rewrite !elem_of_cons in Hofs. by destruct Hofs as [-> | [-> | [-> | []%not_elem_of_nil]]]. }
  rewrite (dlay_contents _ _ _ _ Hl2). unfold dp_packet_adjust_layer_offset. autounfold with consts. split.
  - by intros ->.
  - intros Ho Ho'. rewrite (proj2 (Z.eqb_neq _ _)), wrap_small by (unfold in_u; lia). split; [done|]. apply Hdrop; lia.
Qed.

Lemma resize_l2_layers_witness :
  exists b', dp_packet_resize_l2 (fun _ => 99) small_packet (-1) = Ok (dp_packet_data b', b') /\ size_ b' = 2 /\
    l3_ofs (dp_lay b') = 0 /\ drop (Z.to_nat (l3_ofs (dp_lay b'))) (dcontents b') = [2; 3].
Proof.
  destruct small_packet_wf as [Hw Hm].
  destruct (resize_l2_layers (fun _ => 99) small_packet (-1) Hw Hm) as (b' & H1 & _ & H2 & H3); [cbn; autounfold with consts; lia..|].
  exists b'. destruct (H3 l3_ofs) as [_ H4]; [right; left|]. destruct H4 as [H4 H5]; [cbn; autounfold with consts; lia..|].
  split_and!; [exact H1|exact H2|exact H4|exact H5].
Defined.

(** ** The helper that grows and shrinks the head *)

(** [ubpf_adjust_head] prefixes zeros or drops bytes of the head, returns the new start and, when it
    drops, forgets the layers; asked to drop more bytes than there are, it does not fail: the packet
    then claims almost 2^32 bytes, far beyond its block. *)
Theorem adjust_head_exact junk b offset :
  wf_dp b -> movable b -> allocated_ b + Z.max offset 64 < UINT16_MAX -> - 2 ^ 31 < offset ->
  if 0 <=? offset then
    exists b', ubpf_adjust_head junk b offset = Ok (dp_packet_data b', b') /\ dholds b b' (replicate (Z.to_nat offset) 0 ++ dcontents b)
  else if - offset <=? size_ b then
    exists b', ubpf_adjust_head junk b offset = Ok (dp_packet_data b', b') /\ wf_dp b' /\
      dcontents b' = drop (Z.to_nat (- offset)) (dcontents b) /\ dp_lay b' = dp_lay (dp_packet_reset_offsets b)
  else
    exists b', ubpf_adjust_head junk b offset = Ok (dp_packet_data b', b') /\ size_ b' = 2 ^ 32 + size_ b + offset /\
      dp_mem b' = dp_mem b /\ Z.of_nat (length (dp_mem b')) < size_ b'.
Proof.
  intros Hw Hm Hg Ho. destruct (wf_dlay b Hw) as (pre & post & Hl & Hpre & _). pose proof (wf_dp_pad _ Hw) as Hpad.
  pose proof (dl_size _ _ _ _ Hl) as Es. pose proof (wf_dp_room _ Hw) as Hr. pose proof (wf_dp_bound _ Hw) as Hu.
  pose proof (wf_dp_data _ Hw) as Hd0. unfold ubpf_adjust_head. destruct (Z.leb_spec 0 offset) as [H0|H0].
  - rewrite dp_push_zeros_eq by done.
    destruct (dp_push_lay junk b _ _ _ (replicate (Z.to_nat offset) 0) Hl) as (b' & ? & ? & -> & Hl' & _ & _ & Hc);
      [right; split; [done|rewrite length_replicate; lia]|]. cbn [res_bind].
    exists b'. rewrite (proj2 (dlay_addr _ _ _ _ Hl')). split; [done|]. eapply dlay_holds; [done..|]. rewrite length_app. lia.
  - rewrite (proj2 (Z.eqb_neq _ _)) by lia. destruct (Z.leb_spec (- offset) (size_ b)).
    + rewrite <- (take_drop (Z.to_nat (- offset)) (dcontents b)) in Hl.
      assert (length (take (Z.to_nat (- offset)) (dcontents b)) = Z.to_nat (- offset)) as Htk by (rewrite length_take; lia).
      destruct (dp_reset_packet_lay b _ _ _ _ Hl) as (b' & E & Hl' & Hlay & _). rewrite Htk, Z2Nat.id in E by lia.
      exists b'. rewrite E. cbn [res_bind]. split_and!; [done| |by eapply dlay_contents|done].
      eapply dlay_wf; [done|]. rewrite Hlay. cbn. lia.
    + autounfold with consts in *. unfold dp_packet_reset_packet, dp_packet_set_size, dp_packet_set_data.
      change (data_addr (set_dp_data b (data_ofs b) ?v)) with (data_addr b).
      rewrite (proj1 (dlay_addr _ _ _ _ Hl)). cbn [res_of res_bind dp_base set_dp_data]. rewrite (wf_dp_base _ Hw). cbn [res_bind].
      eexists. split; [reflexivity|]. pose proof (wf_dp_allocated _ Hw). cbn [size_ dp_packet_reset_offsets set_dp_lay set_dp_data dp_mem].
      rewrite wrap_below by lia. split_and!; [lia|done|lia].
Qed.

Lemma adjust_head_exact_witness :
  (exists b', ubpf_adjust_head (fun _ => 99) small_packet 2 = Ok (dp_packet_data b', b') /\ dholds small_packet b' [0; 0; 1; 2; 3]) /\
  (exists b', ubpf_adjust_head (fun _ => 99) small_packet (-4) = Ok (dp_packet_data b', b') /\ size_ b' = 4294967295 /\
     dp_mem b' = dp_mem small_packet /\ Z.of_nat (length (dp_mem b')) < size_ b').
Proof.
  destruct small_packet_wf as [Hw Hm]. split.
  - apply (adjust_head_exact (fun _ => 99) small_packet 2 Hw Hm); cbn; autounfold with consts; lia.
  - apply (adjust_head_exact (fun _ => 99) small_packet (-4) Hw Hm); cbn; autounfold with consts; lia.
Defined.

(** The head grown past 16 bits: the block has the room, [allocated_] does not say so. *)
Lemma push_zeros_truncated junk b pre c post n :
  dlay b pre c post -> movable b -> Z.of_nat (length pre) < n -> 64 <= n < UINT16_MAX ->
  2 ^ 16 <= n + size_ b + Z.of_nat (length post) ->
  exists b', dp_packet_push_zeros junk b n = Ok (0, b') /\ size_ b' = n + size_ b /\ data_ofs b' = 0 /\
    Z.of_nat (length (dp_mem b')) = n + size_ b + Z.of_nat (length post) /\
    allocated_ b' = n + size_ b + Z.of_nat (length post) - 2 ^ 16.
Proof.
  intros Hl Hm H1 H2 H3. destruct (dlay_rooms _ _ _ _ Hl) as (Hh & Ht & _). pose proof Hl as [Eb Em Ed Es Ea Eu]. autounfold with consts in *.
  destruct (dp_resize_mem junk b pre c post n (Z.of_nat (length post)) Hl Hm) as (pre' & post' & E1 & E2 & E); [clia..|].
  unfold dp_packet_push_zeros, dp_packet_push_uninit, dp_packet_prealloc_headroom. rewrite Hh, Ht. cbn [res_of res_bind].
  rewrite (proj2 (Z.ltb_lt _ _)) by lia. cbn [res_bind]. rewrite Z.max_l, E by lia. cbn [res_bind]. set (b1 := mk_dp _ _ _ _ _ _ _ _ _ _ _).
  assert (data_addr b1 = Some n) as Ha1. { unfold data_addr, dp_packet_data. cbn. rewrite (proj2 (Z.eqb_neq _ _)) by clia. done. }
  rewrite Ha1. cbn [res_of res_bind]. unfold dp_packet_set_data. cbn [dp_base b1]. rewrite Z.sub_diag. cbn [res_bind].
  assert (data_addr (dp_packet_set_size (set_dp_data b1 (u16 0) (size_ b1)) (size_ (set_dp_data b1 (u16 0) (size_ b1)) + n)) = Some 0) as -> by done.
  cbn [res_of res_bind]. unfold dp_store, poke. cbn [dp_mem dp_packet_set_size set_dp_data b1 size_].
  rewrite length_replicate, !length_app, !(proj2 (Z.leb_le _ _)) by lia. cbn [andb res_of res_bind].
  eexists. split; [reflexivity|]. cbn [b1 size_ data_ofs dp_mem allocated_ set_dp_mem set_dp_data dp_packet_set_size].
  rewrite wrap_small by (unfold in_u; lia). split_and!; [lia|done| |].
  - rewrite !length_app, length_take, length_drop, length_replicate, !length_app. lia.
  - rewrite <- (Z.sub_add (2 ^ 16) (n + size_ b + Z.of_nat (length post))) at 1.
    rewrite <- wrap_add_r. change (wrap 16 (2 ^ 16)) with 0. rewrite Z.add_0_r. apply wrap_small. unfold in_u. lia.
Qed.

(** growing the head with [ubpf_adjust_head] so that the block reaches 2^16 bytes truncates
    [allocated_]: the tailroom is then computed as almost 2^64, and the next [dp_packet_put] of more than
    what is left writes past the end of the block instead of reallocating it. *)
Theorem adjust_head_overflows junk b offset p :
  wf_dp b -> movable b -> data_ofs b < offset -> 64 <= offset < UINT16_MAX ->
  let rest := allocated_ b - data_ofs b - size_ b in
  2 ^ 16 <= offset + size_ b + rest -> rest < Z.of_nat (length p) < 2 ^ 32 ->
  exists b', ubpf_adjust_head junk b offset = Ok (Some 0, b') /\
    dp_packet_tailroom b' = Some (2 ^ 64 - 2 ^ 16 + rest) /\ dp_packet_put junk b' p = Undef.
Proof.
  intros Hw Hm H1 H2 rest H3 H4. destruct (wf_dlay b Hw) as (pre & post & Hl & Hpre & Hpost). fold rest in Hpost.
  pose proof (wf_dp_room _ Hw). pose proof (wf_dp_bound _ Hw). pose proof (wf_dp_data _ Hw). pose proof (wf_dp_pad _ Hw).
  destruct (push_zeros_truncated junk b pre _ post offset Hl Hm) as (b' & E & Es & Ed & El & Ea); [lia..|].
  unfold ubpf_adjust_head. rewrite (proj2 (Z.leb_le _ _)), E by lia. exists b'. split; [done|]. autounfold with consts in *.
  assert (dp_packet_tail b' = Some (offset + size_ b)) as Et.
  { unfold dp_packet_tail, data_addr, dp_packet_data. rewrite Ed, Es. done. }
  assert (dp_packet_tailroom b' = Some (2 ^ 64 - 2 ^ 16 + rest)) as Er.
  { unfold dp_packet_tailroom, dp_packet_end. rewrite Et, Ea. cbn [mbind option_bind]. rewrite wrap_below by lia. apply (f_equal Some). lia. }
  split; [done|]. unfold dp_packet_put, dp_packet_put_uninit, dp_packet_prealloc_tailroom. rewrite Er. cbn [res_of res_bind].
  rewrite (proj2 (Z.ltb_ge _ _)) by lia. cbn [res_bind]. rewrite Et. cbn [res_of res_bind].
  unfold dp_store, poke. cbn [dp_mem dp_packet_set_size set_dp_data].
  rewrite (proj2 (Z.leb_gt (offset + size_ b + _) _)) by lia. by rewrite andb_false_r.
Qed.

Lemma adjust_head_overflows_witness :
  let b := mk_dp 0 true (replicate 600 7) 600 0 600 0 0 0 DPBUF_MALLOC (mk_layers 0 UINT16_MAX UINT16_MAX UINT16_MAX 0 PT_ETH []) in
  exists b', ubpf_adjust_head (fun _ => 0) b 65000 = Ok (Some 0, b') /\
    dp_packet_tailroom b' = Some (2 ^ 64 - 2 ^ 16 + 0) /\ dp_packet_put (fun _ => 0) b' [1] = Undef.
Proof.
  intros b. assert (wf_dp b) as Hw. { split; [reflexivity|cbn; autounfold with consts; try lia..]. }
  apply (adjust_head_overflows (fun _ => 0) b 65000 [1] Hw); [by left|cbn; autounfold with consts; lia..].
Defined.
