(* ===== verification/OfpMsgs.v ===== *)
(** * OpenFlow message headers (lib/ofp-msgs.c)

    Headers of five shapes: plain, vendor, and statistics with or without a vendor.  The
    tables [raw_infos] are generated by the build from ofp-msgs.h and are an argument;
    [table_ok] states what the generator enforces.  The host is little-endian. *)

From S2P Require Import Prelude MapDef OfpBuf OfpBufProps.

Definition be_bytes (n : nat) (x : Z) : bytes := rev (le_bytes n x).
Definition be_value (bs : bytes) : Z := le_value (rev bs).

(** [ntohs] and [ntohl] of a field; [None] outside the memory. *)
Definition be_field (m : bytes) (off n : Z) : option Z := be_value <$> peek m off n.

Definition OFPT_VENDOR : Z := 4.
Definition OFPT10_STATS_REQUEST : Z := 16.
Definition OFPT10_STATS_REPLY : Z := 17.
Definition OFPT11_STATS_REQUEST : Z := 18.
Definition OFPT11_STATS_REPLY : Z := 19.
Definition OFPST_VENDOR : Z := 0xffff.
Definition NX_VENDOR_ID : Z := 0x2320.
Definition ONF_VENDOR_ID : Z := 0x4f4e4600.
Definition OFP10_VERSION : Z := 1.
Definition OFP15_VERSION : Z := 6.
#[export] Hint Unfold OFPT_VENDOR OFPT10_STATS_REQUEST OFPT10_STATS_REPLY OFPT11_STATS_REQUEST OFPT11_STATS_REPLY
  OFPST_VENDOR NX_VENDOR_ID ONF_VENDOR_ID OFP10_VERSION OFP15_VERSION : consts.

(** The errors that the modelled functions return. *)
Inductive ofperr : Set :=
| OFPERR_OFPBRC_BAD_LEN | OFPERR_OFPBRC_BAD_VENDOR | OFPERR_OFPBRC_BAD_SUBTYPE | OFPERR_OFPBRC_BAD_STAT
| OFPERR_OFPBRC_BAD_TYPE | OFPERR_OFPBRC_EPERM | OFPERR_OFPBRC_IS_SLAVE
| OFPERR_OFPBMC_BAD_TYPE | OFPERR_OFPBMC_BAD_LEN | OFPERR_OFPBAC_BAD_ARGUMENT.

(** An error code, or the end of the process by a failed assertion. *)
Inductive failure : Set := Error (e : ofperr) | Abort.

Definition lift {A} (r : res unit A) : res failure A :=
  match r with Ok a => Ok a | Err _ => Err Abort | Undef => Undef end.

Record ofphdrs : Set := mk_hdrs { h_version : Z; h_type : Z; h_stat : Z; h_vendor : Z; h_subtype : Z }.

#[export] Instance ofphdrs_eq_dec : EqDecision ofphdrs.
Proof. solve_decision. Defined.

Record raw_info : Type := mk_info {
  instances : list ofphdrs;
  min_version : Z;
  max_version : Z;
  min_body : Z;
  extra_multiple : Z
}.

(** [if (length < n) return OFPERR_OFPBRC_BAD_LEN]. *)
Definition need (length n : Z) : res failure unit :=
  if length <? n then Err (Error OFPERR_OFPBRC_BAD_LEN) else Ok tt.

(** [oh] is the memory that the message starts at. *)
Definition ofphdrs_decode (oh : bytes) (length : Z) : res failure ofphdrs :=
  let! _ := need length 8 in
  let! version := res_of (be_field oh 0 1) in
  let! type := res_of (be_field oh 1 1) in
  if type =? OFPT_VENDOR then
    let! _ := need length 16 in
    let! vendor := res_of (be_field oh 8 4) in
    if (vendor =? NX_VENDOR_ID) || (vendor =? ONF_VENDOR_ID) then
      let! subtype := res_of (be_field oh 12 4) in
      Ok (mk_hdrs version type 0 vendor subtype)
    else Err (Error OFPERR_OFPBRC_BAD_VENDOR)
  else if (version =? OFP10_VERSION) && ((type =? OFPT10_STATS_REQUEST) || (type =? OFPT10_STATS_REPLY)) then
    let! _ := need length 12 in
    let! stat := res_of (be_field oh 8 2) in
    if stat =? OFPST_VENDOR then
      let! _ := need length 16 in
      let! vendor := res_of (be_field oh 12 4) in
      if vendor =? NX_VENDOR_ID then
        let! _ := need length 24 in
        let! subtype := res_of (be_field oh 16 4) in
        Ok (mk_hdrs version type stat vendor subtype)
      else Err (Error OFPERR_OFPBRC_BAD_VENDOR)
    else Ok (mk_hdrs version type stat 0 0)
  else if negb (version =? OFP10_VERSION) && ((type =? OFPT11_STATS_REQUEST) || (type =? OFPT11_STATS_REPLY)) then
    let! _ := need length 16 in
    let! stat := res_of (be_field oh 8 2) in
    if stat =? OFPST_VENDOR then
      let! _ := need length 24 in
      let! vendor := res_of (be_field oh 16 4) in
      if (vendor =? NX_VENDOR_ID) || (vendor =? ONF_VENDOR_ID) then
        let! subtype := res_of (be_field oh 20 4) in
        Ok (mk_hdrs version type stat vendor subtype)
      else Err (Error OFPERR_OFPBRC_BAD_VENDOR)
    else Ok (mk_hdrs version type stat 0 0)
  else Ok (mk_hdrs version type 0 0 0).

(** [switch] over the enumerators of [enum ofp_version]. *)
Definition known_version (v : Z) : bool := (OFP10_VERSION <? v) && (v <=? OFP15_VERSION).

Definition ofp_is_stat_request (version type : Z) : bool :=
  if version =? OFP10_VERSION then type =? OFPT10_STATS_REQUEST
  else if known_version version then type =? OFPT11_STATS_REQUEST else false.
Definition ofp_is_stat_reply (version type : Z) : bool :=
  if version =? OFP10_VERSION then type =? OFPT10_STATS_REPLY
  else if known_version version then type =? OFPT11_STATS_REPLY else false.
Definition ofp_is_stat (version type : Z) : bool :=
  ofp_is_stat_request version type || ofp_is_stat_reply version type.
Definition ofphdrs_is_stat (h : ofphdrs) : bool := ofp_is_stat (h_version h) (h_type h).

Definition ofphdrs_len (h : ofphdrs) : Z :=
  if h_type h =? OFPT_VENDOR then 16
  else if h_version h =? OFP10_VERSION then
    if (h_type h =? OFPT10_STATS_REQUEST) || (h_type h =? OFPT10_STATS_REPLY)
    then (if h_stat h =? OFPST_VENDOR then 24 else 12) else 8
  else if known_version (h_version h) then
    if (h_type h =? OFPT11_STATS_REQUEST) || (h_type h =? OFPT11_STATS_REPLY)
    then (if h_stat h =? OFPST_VENDOR then 24 else 16) else 8
  else 8.

Definition ofpraw_check_length (info : raw_info) (hdrs_len len : Z) : res failure unit :=
  let min_len := u32 (hdrs_len + min_body info) in
  if extra_multiple info =? 0 then
    if negb (len =? min_len) then Err (Error OFPERR_OFPBRC_BAD_LEN) else Ok tt
  else if extra_multiple info =? 1 then
    if len <? min_len then Err (Error OFPERR_OFPBRC_BAD_LEN) else Ok tt
  else
    if (len <? min_len) || negb ((len - min_len) mod extra_multiple info =? 0)
    then Err (Error OFPERR_OFPBRC_BAD_LEN) else Ok tt.

(** The fields that [ofpraw_put__] writes, in the order of their addresses; [None] is
    [OVS_NOT_REACHED].  [xid] is the transaction id as a number, in network order in memory. *)
Definition hdr_bytes (h : ofphdrs) (version len xid : Z) : option bytes :=
  let oh := be_bytes 1 version ++ be_bytes 1 (h_type h) ++ be_bytes 2 (u16 len) ++ be_bytes 4 xid in
  if h_type h =? OFPT_VENDOR then Some (oh ++ be_bytes 4 (h_vendor h) ++ be_bytes 4 (h_subtype h))
  else if (version =? OFP10_VERSION) && ((h_type h =? OFPT10_STATS_REQUEST) || (h_type h =? OFPT10_STATS_REPLY)) then
    let osm := oh ++ be_bytes 2 (h_stat h) ++ be_bytes 2 0 in
    if h_stat h =? OFPST_VENDOR then
      if h_vendor h =? NX_VENDOR_ID then Some (osm ++ be_bytes 4 (h_vendor h) ++ be_bytes 4 (h_subtype h) ++ be_bytes 4 0)
      else None
    else Some osm
  else if negb (version =? OFP10_VERSION) && ((h_type h =? OFPT11_STATS_REQUEST) || (h_type h =? OFPT11_STATS_REPLY)) then
    let osm := oh ++ be_bytes 2 (h_stat h) ++ be_bytes 2 0 ++ be_bytes 4 0 in
    if h_stat h =? OFPST_VENDOR then Some (osm ++ be_bytes 4 (h_vendor h) ++ be_bytes 4 (h_subtype h))
    else Some osm
  else Some oh.

Definition ofpmsg_update_length (b : ofpbuf) : res failure ofpbuf :=
  let! oh := lift (ofpbuf_at_assert b 0 8) in
  lift (store b (oh + 2) (be_bytes 2 (u16 (ob_size b)))).

Section Msgs.
Context (junk : nat -> Z).
(** A raw type is the index of its entry. *)
Context (raw_infos : list raw_info).

Definition raw_info_get (raw : Z) : res failure raw_info :=
  match raw_infos !! Z.to_nat raw with Some i => Ok i | None => Err Abort end.

Definition raw_instance_get (info : raw_info) (version : Z) : res failure ofphdrs :=
  if (min_version info <=? version) && (version <=? max_version info)
  then res_of (instances info !! Z.to_nat (version - min_version info)) else Err Abort.

(** The search of [raw_instance_map]. *)
Fixpoint find_raw (infos : list raw_info) (raw : Z) (h : ofphdrs) : option Z :=
  match infos with
  | [] => None
  | i :: infos' => if bool_decide (h ∈ instances i) then Some raw else find_raw infos' (raw + 1) h
  end.

Definition ofpraw_from_ofphdrs (h : ofphdrs) : res failure Z :=
  match find_raw raw_infos 0 h with
  | Some raw => Ok raw
  | None => Err (Error (if negb (h_vendor h =? 0) then OFPERR_OFPBRC_BAD_SUBTYPE
                        else if ofphdrs_is_stat h then OFPERR_OFPBRC_BAD_STAT else OFPERR_OFPBRC_BAD_TYPE))
  end.

(** Returns the type and the buffer behind the header, with its marks set. *)
Definition ofpraw_pull (msg : ofpbuf) : res failure (Z * ofpbuf) :=
  let! h := ofphdrs_decode (drop (Z.to_nat (ob_data msg)) (ob_mem msg)) (ob_size msg) in
  let! raw := ofpraw_from_ofphdrs h in
  let! info := raw_info_get raw in
  let! instance := raw_instance_get info (h_version h) in
  let! _ := ofpraw_check_length info (ofphdrs_len instance) (ob_size msg) in
  let! (header, b) := lift (ofpbuf_pull msg (ofphdrs_len instance)) in
  Ok (raw, set_marks b (Some header) (Some (ob_data b))).

Definition ofpraw_pull_assert (msg : ofpbuf) : res failure (Z * ofpbuf) :=
  match ofpraw_pull msg with Err (Error _) => Err Abort | r => r end.

(** [oh] is the memory the message lies in; its own length field bounds the buffer. *)
Definition ofpraw_decode (oh : bytes) : res failure Z :=
  let! len := res_of (be_field oh 2 2) in
  let! (raw, _) := ofpraw_pull (ofpbuf_const_initializer oh len) in Ok raw.

Definition ofpraw_put__ (raw version xid extra_tailroom : Z) (buf : ofpbuf) : res failure ofpbuf :=
  let! info := raw_info_get raw in
  let! h := raw_instance_get info version in
  let! buf := lift (ofpbuf_prealloc_tailroom junk buf (u64 (u32 (ofphdrs_len h + min_body info) + extra_tailroom))) in
  let! (header, buf) := lift (ofpbuf_put_uninit junk buf (ofphdrs_len h)) in
  let buf := set_marks buf (Some header) (Some (ofpbuf_tail buf)) in
  match hdr_bytes h version (ob_size buf) xid with
  | Some bs => lift (store buf header bs)
  | None => Err Abort
  end.

Definition ofpraw_alloc_xid (raw version xid extra_tailroom : Z) : res failure ofpbuf :=
  ofpraw_put__ raw version xid extra_tailroom (ofpbuf_new junk 0).

(** Version and transaction id of the request. *)
Definition ofpraw_alloc_reply (raw : Z) (request : bytes) (extra_tailroom : Z) : res failure ofpbuf :=
  let! version := res_of (be_field request 0 1) in
  let! xid := res_of (be_field request 4 4) in
  ofpraw_alloc_xid raw version xid extra_tailroom.

(** ** What the generator enforces *)

(** The headers it makes. *)
Definition valid_hdrs (h : ofphdrs) : Prop :=
  in_u 8 (h_version h) /\ in_u 8 (h_type h) /\ in_u 16 (h_stat h) /\ in_u 32 (h_vendor h) /\ in_u 32 (h_subtype h) /\
  if h_type h =? OFPT_VENDOR then h_stat h = 0 /\ (h_vendor h = NX_VENDOR_ID \/ h_vendor h = ONF_VENDOR_ID)
  else if ((h_version h =? OFP10_VERSION) && ((h_type h =? OFPT10_STATS_REQUEST) || (h_type h =? OFPT10_STATS_REPLY))) ||
          (negb (h_version h =? OFP10_VERSION) && ((h_type h =? OFPT11_STATS_REQUEST) || (h_type h =? OFPT11_STATS_REPLY)))
  then (h_version h <= OFP15_VERSION) /\ (0 < h_version h) /\
       if h_stat h =? OFPST_VENDOR
       then h_vendor h = NX_VENDOR_ID \/ (h_version h <> OFP10_VERSION /\ h_vendor h = ONF_VENDOR_ID)
       else h_vendor h = 0 /\ h_subtype h = 0
  else h_stat h = 0 /\ h_vendor h = 0 /\ h_subtype h = 0.

Record table_ok : Prop := {
  tb_instance : forall i info v, raw_infos !! i = Some info -> min_version info <= v <= max_version info ->
    exists h, instances info !! Z.to_nat (v - min_version info) = Some h /\ h_version h = v /\ valid_hdrs h;
  tb_unique : forall i j a b h, raw_infos !! i = Some a -> raw_infos !! j = Some b ->
    h ∈ instances a -> h ∈ instances b -> i = j;
  tb_sizes : forall i info, raw_infos !! i = Some info ->
    0 <= min_version info /\ 0 <= min_body info < 2 ^ 16 /\ 0 <= extra_multiple info < 2 ^ 16
}.

(** Whether a message of this type may have a body of [n] bytes. *)
Definition body_ok (info : raw_info) (n : Z) : bool :=
  if extra_multiple info =? 0 then n =? min_body info
  else (min_body info <=? n) && ((n - min_body info) mod extra_multiple info =? 0).

End Msgs.

(** ** The messages for BPF programs (include/openvswitch/ofp-msgs.h)

    Nicira messages of all versions, each a structure followed by bytes. *)

Inductive bpf_msg : Set :=
| BPF_LOAD_PROG | BPF_UNLOAD_PROG | BPF_UPDATE_MAP | BPF_DUMP_MAP_REQUEST | BPF_DUMP_MAP_REPLY
| BPF_DELETE_MAP | BPF_SHOW_PROG_REQUEST | BPF_SHOW_PROG_REPLY.

#[export] Instance bpf_msg_eq_dec : EqDecision bpf_msg.
Proof. solve_decision. Defined.

Definition bpf_subtype (m : bpf_msg) : Z :=
  match m with
  | BPF_LOAD_PROG => 32 | BPF_UNLOAD_PROG => 33 | BPF_UPDATE_MAP => 34 | BPF_DUMP_MAP_REQUEST => 35
  | BPF_DUMP_MAP_REPLY => 36 | BPF_DELETE_MAP => 37 | BPF_SHOW_PROG_REQUEST => 38 | BPF_SHOW_PROG_REPLY => 39
  end.

(** The size of the structure. *)
Definition bpf_min_body (m : bpf_msg) : Z :=
  match m with
  | BPF_LOAD_PROG => 8 | BPF_UNLOAD_PROG => 4 | BPF_UPDATE_MAP => 16 | BPF_DUMP_MAP_REQUEST => 4
  | BPF_DUMP_MAP_REPLY => 4 | BPF_DELETE_MAP => 12 | BPF_SHOW_PROG_REQUEST => 4 | BPF_SHOW_PROG_REPLY => 4
  end.

Definition bpf_hdrs (m : bpf_msg) (v : Z) : ofphdrs := mk_hdrs v OFPT_VENDOR 0 NX_VENDOR_ID (bpf_subtype m).

Definition bpf_info (m : bpf_msg) : raw_info :=
  mk_info (bpf_hdrs m <$> [1; 2; 3; 4; 5; 6]) 1 6 (bpf_min_body m) 1.

(** The generated tables contain these messages; [raw_of] gives the enumerators. *)
Record bpf_table (raw_infos : list raw_info) (raw_of : bpf_msg -> Z) : Prop := {
  bt_table : table_ok raw_infos;
  bt_raw : forall m, 0 <= raw_of m /\ raw_infos !! Z.to_nat (raw_of m) = Some (bpf_info m)
}.

(** A table of these messages only. *)
Definition bpf_msgs : list bpf_msg :=
  [BPF_LOAD_PROG; BPF_UNLOAD_PROG; BPF_UPDATE_MAP; BPF_DUMP_MAP_REQUEST; BPF_DUMP_MAP_REPLY;
   BPF_DELETE_MAP; BPF_SHOW_PROG_REQUEST; BPF_SHOW_PROG_REPLY].
Definition bpf_infos : list raw_info := bpf_info <$> bpf_msgs.
Definition bpf_raw (m : bpf_msg) : Z := bpf_subtype m - 32.
