(* ===== verification/OfpMsgsProps.v ===== *)
(** * Headers are read back as written

    [ofpraw_pull] recovers the type and the body from what [ofpraw_put__] and
    [ofpmsg_update_length] produce, for each of the five shapes of header. *)

From S2P Require Import Prelude MapDef OfpBuf OfpBufProps OfpMsgs.

(** ** Fields *)

Lemma length_be_bytes n x : length (be_bytes n x) = n.
Proof. unfold be_bytes. by rewrite length_rev, length_le_bytes. Qed.

Lemma be_value_bytes n x : in_u (8 * Z.of_nat n) x -> be_value (be_bytes n x) = x.
Proof. intros H. unfold be_value, be_bytes. rewrite rev_involutive. by apply le_value_bytes. Qed.

Lemma be_field_app m pre n x post off :
  m = pre ++ be_bytes n x ++ post -> off = Z.of_nat (length pre) -> in_u (8 * Z.of_nat n) x ->
  be_field m off (Z.of_nat n) = Some x.
Proof.
  intros -> -> Hx. unfold be_field. pose proof (peek_app pre (be_bytes n x) post) as H. rewrite length_be_bytes in H.
  rewrite H. cbn. by rewrite be_value_bytes.
Qed.

Lemma peek_skip a m off n : 0 <= off -> peek (a ++ m) (Z.of_nat (length a) + off) n = peek m off n.
Proof.
  intros Ho. unfold peek. rewrite length_app, !Nat2Z.inj_add.
  replace (0 <=? Z.of_nat (length a) + off) with (0 <=? off) by (rewrite !(proj2 (Z.leb_le _ _)) by lia; done).
  replace (Z.of_nat (length a) + off + n <=? Z.of_nat (length a) + Z.of_nat (length m)) with (off + n <=? Z.of_nat (length m))
    by (destruct (Z.leb_spec (off + n) (Z.of_nat (length m))), (Z.leb_spec (Z.of_nat (length a) + off + n) (Z.of_nat (length a) + Z.of_nat (length m))); lia || done).
  destruct (_ && _); [|done]. rewrite Z2Nat.inj_add, Nat2Z.id by lia. rewrite <- drop_drop, drop_app_length. done.
Qed.

Lemma be_field_skip a m off n :
  0 <= off -> be_field (a ++ m) (Z.of_nat (length a) + off) n = be_field m off n.
Proof. intros Ho. unfold be_field. by rewrite peek_skip. Qed.

Lemma be_field_here n x post : in_u (8 * Z.of_nat n) x -> be_field (be_bytes n x ++ post) 0 (Z.of_nat n) = Some x.
Proof. intros Hx. by apply (be_field_app _ [] n x post 0). Qed.

(** Steps over the fields in front of the one that is read. *)
Lemma be_field_next k x m off n : Z.of_nat k <= off ->
  be_field (be_bytes k x ++ m) off n = be_field m (off - Z.of_nat k) n.
Proof.
  intros H. rewrite <- (be_field_skip (be_bytes k x) m (off - Z.of_nat k) n) by lia. f_equal. rewrite length_be_bytes. lia.
Qed.

Ltac read_field :=
  rewrite <- ?app_assoc; repeat rewrite be_field_next by (vm_compute; congruence);
  match goal with |- context [be_field (be_bytes ?n ?x ++ ?r) ?o ?w] =>
    change o with 0; change w with (Z.of_nat n); rewrite (be_field_here n x r) by (cbn; assumption || (split; vm_compute; congruence)) end.

(** ** Headers *)

(** The start of every header. *)
Definition oh_bytes (version type len xid : Z) : bytes :=
  be_bytes 1 version ++ be_bytes 1 type ++ be_bytes 2 (u16 len) ++ be_bytes 4 xid.

(** What follows it. *)
Definition ext_bytes (h : ofphdrs) : bytes :=
  if h_type h =? OFPT_VENDOR then be_bytes 4 (h_vendor h) ++ be_bytes 4 (h_subtype h)
  else if (h_version h =? OFP10_VERSION) && ((h_type h =? OFPT10_STATS_REQUEST) || (h_type h =? OFPT10_STATS_REPLY)) then
    be_bytes 2 (h_stat h) ++ be_bytes 2 0 ++
    if h_stat h =? OFPST_VENDOR then be_bytes 4 (h_vendor h) ++ be_bytes 4 (h_subtype h) ++ be_bytes 4 0 else []
  else if negb (h_version h =? OFP10_VERSION) && ((h_type h =? OFPT11_STATS_REQUEST) || (h_type h =? OFPT11_STATS_REPLY)) then
    be_bytes 2 (h_stat h) ++ be_bytes 2 0 ++ be_bytes 4 0 ++
    if h_stat h =? OFPST_VENDOR then be_bytes 4 (h_vendor h) ++ be_bytes 4 (h_subtype h) else []
  else [].

Lemma hdr_bytes_eq h len xid :
  valid_hdrs h -> hdr_bytes h (h_version h) len xid = Some (oh_bytes (h_version h) (h_type h) len xid ++ ext_bytes h).
Proof.
  intros (_ & _ & _ & _ & _ & H). unfold hdr_bytes, ext_bytes, oh_bytes.
  destruct (h_type h =? OFPT_VENDOR); [by rewrite <- !app_assoc|].
  destruct ((h_version h =? OFP10_VERSION) && _) eqn:E10.
  - cbn [orb] in H. destruct H as (_ & _ & H). destruct (h_stat h =? OFPST_VENDOR); [|by rewrite <- !app_assoc].
    apply andb_true_iff in E10 as [E10%Z.eqb_eq _]. destruct H as [->|[? _]]; [|done]. by rewrite <- !app_assoc.
  - destruct (negb _ && _); [|by rewrite app_nil_r].
    destruct (h_stat h =? OFPST_VENDOR); by rewrite <- !app_assoc.
Qed.

Lemma ext_bytes_length h : valid_hdrs h -> 8 + Z.of_nat (length (ext_bytes h)) = ofphdrs_len h.
Proof.
  intros (_ & _ & _ & _ & _ & H). unfold ext_bytes, ofphdrs_len.
  destruct (h_type h =? OFPT_VENDOR); [done|].
  destruct (Z.eqb_spec (h_version h) OFP10_VERSION) as [Ev|Ev]; cbn [andb negb orb] in *.
  - destruct ((h_type h =? OFPT10_STATS_REQUEST) || _); [|done]. by destruct (h_stat h =? OFPST_VENDOR).
  - destruct ((h_type h =? OFPT11_STATS_REQUEST) || _); [|by destruct (known_version _)].
    destruct H as (H1 & H2 & _). assert (known_version (h_version h) = true) as ->.
    { unfold known_version. rewrite (proj2 (Z.ltb_lt _ _)), (proj2 (Z.leb_le _ _)) by clia. done. }
    by destruct (h_stat h =? OFPST_VENDOR).
Qed.

Lemma ofphdrs_decode_hdr h len xid rest L :
  valid_hdrs h -> in_u 32 xid -> ofphdrs_len h <= L ->
  ofphdrs_decode ((oh_bytes (h_version h) (h_type h) len xid ++ ext_bytes h) ++ rest) L = Ok h.
Proof.
  intros Hv Hx HL. rewrite <- (ext_bytes_length h Hv) in HL. destruct Hv as (Hve & Hty & Hst & Hvn & Hsu & H).
  assert (forall k, k <= L -> need L k = Ok tt) as Hneed by (intros k Hk; unfold need; by rewrite (proj2 (Z.ltb_ge _ _))).
  unfold ofphdrs_decode, oh_bytes. rewrite Hneed by lia. cbn [res_bind].
  read_field. cbn [res_of res_bind]. read_field. cbn [res_of res_bind].
  destruct h as [ve ty st vn su]; cbn [h_version h_type h_stat h_vendor h_subtype] in *. unfold ext_bytes in *.
  cbn [h_version h_type h_stat h_vendor h_subtype] in *.
  destruct (ty =? OFPT_VENDOR).
  { destruct H as [-> H]. rewrite !length_app, !length_be_bytes in HL. rewrite Hneed by lia. cbn [res_bind].
    read_field. cbn [res_of res_bind]. assert ((vn =? NX_VENDOR_ID) || (vn =? ONF_VENDOR_ID) = true) as -> by (by destruct H as [-> | ->]).
    read_field. done. }
  destruct ((ve =? OFP10_VERSION) && _) eqn:E10.
  { cbn [orb] in H. destruct H as (_ & _ & H). destruct (st =? OFPST_VENDOR) eqn:Es.
    - rewrite !length_app, !length_be_bytes in HL. rewrite !Hneed by lia. cbn [res_bind]. read_field. cbn [res_of res_bind].
      rewrite Es. apply andb_true_iff in E10 as [E10%Z.eqb_eq _]. destruct H as [->|[? _]]; [|done].
      read_field. cbn [res_of res_bind]. rewrite Z.eqb_refl. read_field. done.
    - destruct H as [-> ->]. rewrite !length_app, !length_be_bytes in HL. rewrite !Hneed by lia. cbn [res_bind].
      read_field. cbn [res_of res_bind]. by rewrite Es. }
  destruct (negb (ve =? OFP10_VERSION) && _); [|cbn [orb] in H; by destruct H as (-> & -> & ->)].
  destruct H as (_ & _ & H). destruct (st =? OFPST_VENDOR) eqn:Es.
  - rewrite !length_app, !length_be_bytes in HL. rewrite !Hneed by lia. cbn [res_bind]. read_field. cbn [res_of res_bind].
    rewrite Es. read_field. cbn [res_of res_bind].
    assert ((vn =? NX_VENDOR_ID) || (vn =? ONF_VENDOR_ID) = true) as -> by (by destruct H as [-> | [_ ->]]). read_field. done.
  - destruct H as [-> ->]. rewrite !length_app, !length_be_bytes in HL. rewrite !Hneed by lia. cbn [res_bind].
    read_field. cbn [res_of res_bind]. by rewrite Es.
Qed.

(** ** Messages *)

Lemma check_length_exact info hl n :
  0 <= hl -> 0 <= n -> 0 <= min_body info < 2 ^ 16 -> hl < 2 ^ 16 -> 0 <= extra_multiple info ->
  ofpraw_check_length info hl (hl + n) = if body_ok info n then Ok tt else Err (Error OFPERR_OFPBRC_BAD_LEN).
Proof.
  intros H1 H2 H3 H4 H5. unfold ofpraw_check_length, body_ok. rewrite wrap_small by (unfold in_u; lia).
  replace (hl + n - (hl + min_body info)) with (n - min_body info) by lia.
  destruct (Z.eqb_spec (extra_multiple info) 0).
  { destruct (Z.eqb_spec n (min_body info)), (Z.eqb_spec (hl + n) (hl + min_body info)); cbn; lia || done. }
  destruct (Z.ltb_spec (hl + n) (hl + min_body info)), (Z.leb_spec (min_body info) n); try lia; cbn [orb andb].
  - by destruct (extra_multiple info =? 1).
  - destruct (Z.eqb_spec (extra_multiple info) 1) as [->|]; [by rewrite Z.mod_1_r|]. by destruct (_ =? 0).
Qed.

Section Table.
Context (junk : nat -> Z) (raw_infos : list raw_info) (Htable : table_ok raw_infos).

Lemma find_raw_unique infos k i info h :
  infos !! i = Some info -> h ∈ instances info ->
  (forall i' j a b h, infos !! i' = Some a -> infos !! j = Some b -> h ∈ instances a -> h ∈ instances b -> i' = j) ->
  find_raw infos k h = Some (k + Z.of_nat i).
Proof.
  revert k i. induction infos as [|a infos IH]; intros k i Hi Hh Hu; [done|]. cbn [find_raw]. destruct i as [|i]; cbn in Hi.
  - injection Hi as ->. rewrite bool_decide_true by done. f_equal. lia.
  - rewrite bool_decide_false.
    + rewrite (IH (k + 1) i Hi Hh); [f_equal; lia|]. intros i' j a' b' h' Ha Hb Ha' Hb'.
      assert (S i' = S j) as [=] by (by apply (Hu (S i') (S j) a' b' h')). done.
    + intros Ha. by discriminate (Hu 0%nat (S i) a info h eq_refl Hi Ha Hh).
Qed.

(** The entry of a raw type for a version. *)
Definition entry (raw : Z) (info : raw_info) (v : Z) (h : ofphdrs) : Prop :=
  0 <= raw /\ raw_infos !! Z.to_nat raw = Some info /\ min_version info <= v <= max_version info /\
  instances info !! Z.to_nat (v - min_version info) = Some h /\ h_version h = v /\ valid_hdrs h.

Lemma entry_exists raw info v :
  0 <= raw -> raw_infos !! Z.to_nat raw = Some info -> min_version info <= v <= max_version info -> exists h, entry raw info v h.
Proof using Htable. intros H0 Hr Hv. destruct (tb_instance _ Htable _ _ _ Hr Hv) as (h & ? & ? & ?). by exists h. Qed.

Lemma ofphdrs_len_range h : 8 <= ofphdrs_len h <= 24.
Proof. unfold ofphdrs_len. repeat case_match; lia. Qed.

Lemma raw_get raw info v h :
  entry raw info v h -> raw_info_get raw_infos raw = Ok info /\ raw_instance_get info v = Ok h.
Proof.
  intros (_ & Hr & Hv & Hi & _). unfold raw_info_get, raw_instance_get. rewrite Hr, Hi.
  by rewrite !(proj2 (Z.leb_le _ _)) by lia.
Qed.

(** The message a header starts. *)
Definition hdr (h : ofphdrs) (len xid : Z) : bytes := oh_bytes (h_version h) (h_type h) len xid ++ ext_bytes h.

Lemma length_hdr h len xid : valid_hdrs h -> Z.of_nat (length (hdr h len xid)) = ofphdrs_len h.
Proof.
  intros Hv. rewrite <- (ext_bytes_length h Hv). unfold hdr, oh_bytes. rewrite !length_app, !length_be_bytes. lia.
Qed.

Lemma pull_message raw info v h len xid body rest :
  entry raw info v h -> in_u 32 xid -> ofphdrs_len h + Z.of_nat (length body) < 2 ^ 16 ->
  let m := hdr h len xid ++ body ++ rest in
  let L := ofphdrs_len h + Z.of_nat (length body) in
  ofpraw_pull raw_infos (ofpbuf_const_initializer m L) =
  if body_ok info (Z.of_nat (length body))
  then Ok (raw, mk_ofpbuf 0 m (ofphdrs_len h) (Z.of_nat (length body)) L (Some 0) (Some (ofphdrs_len h)) OFPBUF_STACK)
  else Err (Error OFPERR_OFPBRC_BAD_LEN).
Proof using Htable.
  intros He Hx HL m L. destruct (raw_get _ _ _ _ He) as [Hi Hin]. pose proof He as (H0 & Hr & Hv & Hh & Hver & Hvalid).
  pose proof (ofphdrs_len_range h) as Hlen. destruct (tb_sizes _ Htable _ _ Hr) as (_ & Hmb & Hem).
  unfold ofpraw_pull, ofpbuf_const_initializer. cbn [ob_data ob_mem ob_size]. rewrite !wrap_small by (unfold in_u; lia).
  change (drop (Z.to_nat 0) m) with m. unfold m at 1, hdr. rewrite ofphdrs_decode_hdr by (done || lia). cbn [res_bind].
  unfold ofpraw_from_ofphdrs. rewrite (find_raw_unique raw_infos 0 (Z.to_nat raw) info h Hr);
    [|by apply list_elem_of_lookup; eexists|by apply Htable].
  replace (0 + Z.of_nat (Z.to_nat raw)) with raw by lia. cbn [res_bind]. rewrite Hi. cbn [res_bind]. rewrite Hver, Hin. cbn [res_bind].
  unfold L. rewrite check_length_exact by lia. destruct (body_ok _ _); [|done]. cbn [res_bind].
  unfold ofpbuf_pull. cbn [ob_size ob_data]. rewrite (proj2 (Z.leb_le _ _)) by lia. cbn [lift res_bind].
  rewrite wrap_small by (unfold in_u; lia). unfold set_marks, set_data. cbn. do 3 f_equal; lia.
Qed.

Lemma alloc_lay raw info v h xid extra :
  entry raw info v h -> 0 <= extra < 2 ^ 31 -> in_u 32 xid ->
  exists b post, ofpraw_alloc_xid junk raw_infos raw v xid extra = Ok b /\ lay b [] (hdr h (ofphdrs_len h) xid) post /\
    ob_header b = Some 0 /\ ob_msg b = Some (ofphdrs_len h) /\ ob_source b <> OFPBUF_STACK /\ ob_allocated b < 2 ^ 31 + 2 ^ 17.
Proof using Htable.
  intros He Hex Hx. destruct (raw_get _ _ _ _ He) as [Hi Hin]. pose proof He as (H0 & Hr & Hv & Hh & Hver & Hvalid).
  subst v. pose proof (ofphdrs_len_range h) as Hlen. destruct (tb_sizes _ Htable _ _ Hr) as (_ & Hmb & Hem).
  unfold ofpraw_alloc_xid, ofpraw_put__. rewrite Hi. cbn [res_bind]. rewrite Hin. cbn [res_bind].
  rewrite (wrap_small 32), wrap_small by (unfold in_u; lia). set (n := ofphdrs_len h + min_body info + extra).
  assert (lay (ofpbuf_new junk 0) [] [] []) as Hl0 by (split; done).
  destruct (prealloc_tailroom_lay junk _ _ _ _ n Hl0) as (b1 & pre1 & post1 & E1 & Hl1 & Hp1 & Hr1 & Hm1 & [Hs1 Ha1]); [split; [done|change (ob_allocated (ofpbuf_new junk 0)) with 0; lia]|lia|].
  change (ob_allocated (ofpbuf_new junk 0)) with 0 in Ha1. rewrite E1. cbn [lift res_bind]. assert (pre1 = []) as -> by (by apply length_zero_iff_nil).
  destruct (put_uninit_lay junk _ _ _ _ (ofphdrs_len h) Hl1) as (b2 & pre2 & sl & post2 & E2 & Hl2 & Hsl & Hp2 & Hm2 & [Hs2 Ha2]); [split; [done|lia]|lia|].
  rewrite E2. cbn [lift res_bind]. assert (pre2 = []) as -> by (by apply length_zero_iff_nil). cbn [app length] in *.
  cbn [ob_size set_marks]. rewrite hdr_bytes_eq by done.
  set (b3 := set_marks b2 _ _). assert (lay b3 [] ([] ++ sl ++ []) post2) as Hl3 by (rewrite app_nil_r; by destruct Hl2).
  pose proof (lay_size _ _ _ _ Hl2) as Hsz. cbn [app] in Hsz.
  destruct (store_lay b3 [] [] sl [] post2 (hdr h (ob_size b2) xid) Hl3) as (b4 & E4 & Hl4 & [Hm4 Hm5] & Hs4 & Ha4).
  { pose proof (length_hdr h (ob_size b2) xid Hvalid). lia. }
  cbn [app length] in E4. unfold hdr in E4. rewrite E4. cbn [lift]. exists b4, post2. cbn [app] in Hl4. rewrite app_nil_r in Hl4.
  split; [done|]. split; [by rewrite Hsz, Hsl in Hl4|].
  pose proof (lay_data _ _ _ _ Hl4) as Hd4. pose proof (lay_data _ _ _ _ Hl2) as Hd2. cbn in Hd2, Hd4.
  unfold b3 in Hm4, Hm5, Hs4, Ha4. cbn in Hm4, Hm5, Hs4, Ha4. unfold ofpbuf_tail in Hm5. rewrite Hd2, Hd4, Hsz, Hsl in *.
  split_and!.
  - destruct (ob_header b4); [|done]. injection Hm4 as Hm4. f_equal. lia.
  - destruct (ob_msg b4); [|done]. injection Hm5 as Hm5. f_equal. lia.
  - by rewrite Hs4.
  - rewrite Ha4. lia.
Qed.

(** The two bytes of the length are replaced. *)
Lemma update_length_lay b pre h len xid c post :
  lay b pre (hdr h len xid ++ c) post ->
  exists b', ofpmsg_update_length b = Ok b' /\ lay b' pre (hdr h (ob_size b) xid ++ c) post /\ ob_size b' = ob_size b.
Proof.
  intros Hl. pose proof (lay_size _ _ _ _ Hl) as Hs. pose proof (lay_data _ _ _ _ Hl) as Hd.
  assert (8 <= length (hdr h len xid))%nat as H8 by (unfold hdr, oh_bytes; rewrite !length_app, !length_be_bytes; lia).
  rewrite length_app in Hs. unfold ofpmsg_update_length, ofpbuf_at_assert. change (u64 (0 + 8)) with 8.
  rewrite (proj2 (Z.leb_le _ _)) by lia. cbn [lift res_bind]. rewrite Hd.
  set (c1 := be_bytes 1 (h_version h) ++ be_bytes 1 (h_type h)). set (c2 := be_bytes 4 xid ++ ext_bytes h ++ c).
  assert (hdr h len xid ++ c = c1 ++ be_bytes 2 (u16 len) ++ c2) as E by (unfold hdr, oh_bytes, c1, c2; by rewrite <- !app_assoc).
  rewrite E in Hl. destruct (store_lay b pre c1 _ c2 post (be_bytes 2 (u16 (ob_size b))) Hl) as (b' & E' & Hl' & _).
  { by rewrite !length_be_bytes. }
  replace (Z.of_nat (length pre) + 0 + 2) with (Z.of_nat (length (pre ++ c1))) by (rewrite length_app; unfold c1; rewrite length_app, !length_be_bytes; lia).
  rewrite E'. cbn [lift]. exists b'. split; [done|].
  assert (c1 ++ be_bytes 2 (u16 (ob_size b)) ++ c2 = hdr h (ob_size b) xid ++ c) as E2 by (unfold hdr, oh_bytes, c1, c2; by rewrite <- !app_assoc).
  rewrite E2 in Hl'. split; [done|]. rewrite (lay_size _ _ _ _ Hl'), (lay_size _ _ _ _ Hl).
  unfold c1, c2, hdr, oh_bytes. rewrite !length_app, !length_be_bytes. lia.
Qed.
End Table.

(** headers are read back as written.  For a table with the properties that
    its generator enforces, take any message type, a version it exists in, a transaction id
    and a body that fits into a message: a message made with [ofpraw_alloc_xid], [ofpbuf_put]
    of the body and [ofpmsg_update_length] has its size in its length field, and
    [ofpraw_pull] finds the type and leaves the body, or reports a bad length exactly when
    the body has a length the type does not allow. *)
Theorem ofpraw_roundtrip junk raw_infos raw info v xid body :
  table_ok raw_infos -> 0 <= raw -> raw_infos !! Z.to_nat raw = Some info -> min_version info <= v <= max_version info ->
  in_u 32 xid -> Z.of_nat (length body) < 2 ^ 16 - 24 ->
  exists b1 q b2 b3,
    ofpraw_alloc_xid junk raw_infos raw v xid (Z.of_nat (length body)) = Ok b1 /\
    ofpbuf_put junk b1 body = Ok (q, b2) /\ ofpmsg_update_length b2 = Ok b3 /\
    be_field (contents b3) 2 2 = Some (Z.of_nat (length (contents b3))) /\
    match ofpraw_pull raw_infos (ofpbuf_const_initializer (contents b3) (Z.of_nat (length (contents b3)))) with
    | Ok (raw', b4) => body_ok info (Z.of_nat (length body)) = true /\ raw' = raw /\ contents b4 = body
    | Err e => body_ok info (Z.of_nat (length body)) = false /\ e = Error OFPERR_OFPBRC_BAD_LEN
    | Undef => False
    end.
Proof.
  intros Ht H0 Hr Hv Hx Hb. destruct (entry_exists raw_infos Ht raw info v H0 Hr Hv) as [h He].
  pose proof He as (_ & _ & _ & _ & Hver & Hvalid). pose proof (ofphdrs_len_range h) as Hlen.
  destruct (alloc_lay junk raw_infos Ht raw info v h xid (Z.of_nat (length body)) He) as (b1 & post1 & E1 & Hl1 & _ & _ & Hs1 & Ha1); [lia|done|].
  destruct (put_lay junk b1 _ _ _ body Hl1) as (b2 & pre2 & post2 & E2 & Hl2 & Hp2 & _ & _); [split; [done|lia]|].
  destruct (update_length_lay b2 pre2 h _ xid body post2 Hl2) as (b3 & E3 & Hl3 & Hs3).
  eexists b1, _, b2, b3. split_and!; [exact E1|exact E2|exact E3| |].
  all: rewrite (lay_contents _ _ _ _ Hl3).
  all: assert (Z.of_nat (length (hdr h (ob_size b2) xid ++ body)) = ofphdrs_len h + Z.of_nat (length body)) as HL
         by (rewrite length_app, Nat2Z.inj_add, length_hdr by done; lia).
  - assert (ob_size b2 = ofphdrs_len h + Z.of_nat (length body)) as -> by (rewrite <- Hs3, (lay_size _ _ _ _ Hl3), HL; done).
    rewrite length_app, Nat2Z.inj_add, length_hdr by done. unfold hdr, oh_bytes.
    rewrite (wrap_small 16) by (unfold in_u; lia). assert (in_u 16 (ofphdrs_len h + Z.of_nat (length body))) by (unfold in_u; lia).
    read_field. done.
  - rewrite HL. pose proof (pull_message raw_infos Ht raw info v h (ob_size b2) xid body [] He Hx) as Hp. cbv zeta in Hp.
    rewrite app_nil_r in Hp. rewrite Hp by lia. clear Hp.
    destruct (body_ok _ _); [|done]. split_and!; [done..|]. unfold contents. cbn [ob_size ob_data ob_mem].
    rewrite <- (length_hdr h (ob_size b2) xid Hvalid), !Nat2Z.id, drop_app_length. by rewrite take_ge.
Qed.

(** ** A table *)

Lemma bpf_subtype_inj m m' : bpf_subtype m = bpf_subtype m' -> m = m'.
Proof. by destruct m, m'. Qed.

Lemma bpf_hdrs_valid m v : 1 <= v <= 6 -> valid_hdrs (bpf_hdrs m v).
Proof.
  intros Hv. assert (in_u 32 (bpf_subtype m)) by (destruct m; split; vm_compute; congruence).
  unfold valid_hdrs, bpf_hdrs; cbn [h_version h_type h_stat h_vendor h_subtype].
  split_and!; try done; try (by split; vm_compute). 1: unfold in_u; lia.
  by rewrite Z.eqb_refl; split; [|left].
Qed.

Lemma bpf_infos_lookup i info : bpf_infos !! i = Some info -> exists m, bpf_msgs !! i = Some m /\ info = bpf_info m.
Proof. unfold bpf_infos. rewrite list_lookup_fmap. destruct (bpf_msgs !! i) as [m|]; [|done]. intros [= <-]. by exists m. Qed.

Lemma bpf_msgs_nodup i j m : bpf_msgs !! i = Some m -> bpf_msgs !! j = Some m -> i = j.
Proof. intros Hi Hj. eapply NoDup_lookup; [|exact Hi|exact Hj]. apply (bool_decide_unpack _). vm_compute. exact I. Qed.

Lemma bpf_infos_ok : bpf_table bpf_infos bpf_raw.
Proof.
  split; [split|].
  - intros i info v (m & _ & ->)%bpf_infos_lookup Hv. cbn in Hv. exists (bpf_hdrs m v). split_and!; [|done|by apply bpf_hdrs_valid].
    assert (v = 1 \/ v = 2 \/ v = 3 \/ v = 4 \/ v = 5 \/ v = 6) as H by lia. by repeat destruct H as [->|H]; subst.
  - intros i j a b h (m & Hm & ->)%bpf_infos_lookup (m' & Hm' & ->)%bpf_infos_lookup Ha Hb.
    apply list_elem_of_fmap in Ha as (v & -> & _). apply list_elem_of_fmap in Hb as (v' & E & _).
    injection E as _ E. apply bpf_subtype_inj in E as ->. by eapply bpf_msgs_nodup.
  - intros i info (m & _ & ->)%bpf_infos_lookup. by destruct m.
  - intros m. by destruct m.
Qed.

Lemma ofpraw_roundtrip_witness :
  exists b1 q b2 b3,
    ofpraw_alloc_xid (fun _ => 99) bpf_infos 0 4 17 10 = Ok b1 /\
    ofpbuf_put (fun _ => 99) b1 (replicate 10 5) = Ok (q, b2) /\ ofpmsg_update_length b2 = Ok b3 /\
    match ofpraw_pull bpf_infos (ofpbuf_const_initializer (contents b3) (Z.of_nat (length (contents b3)))) with
    | Ok (raw', b4) => raw' = 0 /\ contents b4 = replicate 10 5
    | _ => False
    end.
Proof.
  destruct (ofpraw_roundtrip (fun _ => 99) bpf_infos 0 (bpf_info BPF_LOAD_PROG) 4 17 (replicate 10 5)) as (b1 & q & b2 & b3 & E1 & E2 & E3 & _ & H).
  - apply bpf_infos_ok.
  - lia.
  - reflexivity.
  - cbn; lia.
  - split; vm_compute; congruence.
  - cbn; lia.
  - exists b1, q, b2, b3. split; [exact E1|]. split; [exact E2|]. split; [exact E3|].
    destruct (ofpraw_pull _ _) as [[raw' b4]|e|]; [destruct H as (_ & H1 & H2); split; [exact H1|exact H2]| |destruct H].
    destruct H as [H _]. vm_compute in H. discriminate H.
Defined.

Example load_header :
  match ofpraw_alloc_xid (fun _ => 99) bpf_infos (bpf_raw BPF_LOAD_PROG) 4 17 0 with
  | Ok b => contents b = [4; 4; 0; 16; 0; 0; 0; 17; 0; 0; 0x23; 0x20; 0; 0; 0; 32]
  | _ => False
  end.
Proof. vm_compute. reflexivity. Qed.
