(* ===== verification/OfpBpf.v ===== *)
(** * OpenFlow messages for BPF programs (lib/ofp-bpf.c, include/openflow/orange-ext.h)

    Each message is a structure in network order, followed by bytes.  The class [Struct]
    is the layout of a structure; [StructOk] says that reading gives back what was written.
    The identifiers in a dump request and the fields of a dump reply are not converted by
    the code: they are in the order of the host, which is little-endian. *)

From S2P Require Import Prelude MapDef OfpBuf OfpBufProps OfpMsgs OfpMsgsProps.

(** ** Structures *)

Class Struct (A : Type) : Type := {
  sizeof : Z;
  to_wire : A -> bytes;
  of_wire : bytes -> option A
}.
Arguments sizeof A {_}.

Class StructOk (A : Type) `{Struct A} : Type := {
  fits : A -> Prop;
  wire_length : forall a, Z.of_nat (length (to_wire a)) = sizeof A;
  wire_roundtrip : forall a rest, fits a -> of_wire (to_wire a ++ rest) = Some a
}.

Record ol_bpf_load_prog : Set := mk_load { load_prog_id : Z; load_file_len : Z }.
#[export] Instance load_struct : Struct ol_bpf_load_prog := {
  sizeof := 8;
  to_wire m := be_bytes 2 (load_prog_id m) ++ be_bytes 2 0 ++ be_bytes 4 (load_file_len m);
  of_wire bs := p ← be_field bs 0 2; l ← be_field bs 4 4; Some (mk_load p l)
}.

(** The structures of the unload and show requests: an identifier and padding. *)
Record ol_bpf_unload_prog : Set := mk_prog { unload_prog : Z }.
#[export] Instance unload_struct : Struct ol_bpf_unload_prog := {
  sizeof := 4;
  to_wire m := be_bytes 2 (unload_prog m) ++ be_bytes 2 0;
  of_wire bs := p ← be_field bs 0 2; Some (mk_prog p)
}.

Record ol_bpf_show_prog_request : Set := mk_show { show_prog_id : Z }.
#[export] Instance show_struct : Struct ol_bpf_show_prog_request := {
  sizeof := 4;
  to_wire m := be_bytes 2 (show_prog_id m) ++ be_bytes 2 0;
  of_wire bs := p ← be_field bs 0 2; Some (mk_show p)
}.

Record ol_bpf_update_map : Set := mk_update {
  update_prog_id : Z; update_map_id : Z; update_key_size : Z; update_value_size : Z; update_nb_elems : Z }.
#[export] Instance update_struct : Struct ol_bpf_update_map := {
  sizeof := 16;
  to_wire m := be_bytes 2 (update_prog_id m) ++ be_bytes 2 (update_map_id m) ++ be_bytes 4 (update_key_size m) ++
               be_bytes 4 (update_value_size m) ++ be_bytes 4 (update_nb_elems m);
  of_wire bs := p ← be_field bs 0 2; i ← be_field bs 2 2; k ← be_field bs 4 4; v ← be_field bs 8 4; n ← be_field bs 12 4;
                Some (mk_update p i k v n)
}.

Record ol_bpf_dump_map_request : Set := mk_dump { dump_prog : Z; dump_nb_maps : Z }.
#[export] Instance dump_struct : Struct ol_bpf_dump_map_request := {
  sizeof := 4;
  to_wire m := be_bytes 2 (dump_prog m) ++ be_bytes 2 (dump_nb_maps m);
  of_wire bs := p ← be_field bs 0 2; n ← be_field bs 2 2; Some (mk_dump p n)
}.

Record ol_bpf_delete_map : Set := mk_delete { delete_prog : Z; delete_map : Z; delete_key_size : Z; delete_nb_elems : Z }.
#[export] Instance delete_struct : Struct ol_bpf_delete_map := {
  sizeof := 12;
  to_wire m := be_bytes 2 (delete_prog m) ++ be_bytes 2 (delete_map m) ++ be_bytes 4 (delete_key_size m) ++
               be_bytes 4 (delete_nb_elems m);
  of_wire bs := p ← be_field bs 0 2; i ← be_field bs 2 2; k ← be_field bs 4 4; n ← be_field bs 8 4;
                Some (mk_delete p i k n)
}.

Section Messages.
Context (junk : nat -> Z) (raw_infos : list raw_info) (raw_of : bpf_msg -> Z).

(** ** Decoding

    [oh] is the memory that starts with the message. *)

(** The common beginning: the buffer, its type, and the structure. *)
Definition pull_struct {A} `{Struct A} (m : bpf_msg) (oh : bytes) : res failure (A * ofpbuf) :=
  let! len := res_of (be_field oh 2 2) in
  let! (raw, b) := ofpraw_pull_assert raw_infos (ofpbuf_const_initializer oh len) in
  if negb (raw =? raw_of m) then Err (Error OFPERR_OFPBMC_BAD_TYPE)
  else
    let! (buffer, b) := lift (ofpbuf_pull b (sizeof A)) in
    let! s := res_of (of_wire (drop (Z.to_nat buffer) oh)) in
    Ok (s, b).

(** [ofpbuf_try_pull] of the bytes behind it; the result is the memory from there on. *)
Definition pull_data (b : ofpbuf) (size : Z) : res failure bytes :=
  let! (p, b) := lift (ofpbuf_try_pull b size) in
  match p with
  | Some p => Ok (drop (Z.to_nat p) (ob_mem b))
  | None => Err (Error OFPERR_OFPBMC_BAD_LEN)
  end.

Definition ofputil_decode_bpf_load_prog (oh : bytes) : res failure (ol_bpf_load_prog * bytes) :=
  let! (msg, b) := pull_struct BPF_LOAD_PROG oh in
  if load_file_len msg =? 0 then Err (Error OFPERR_OFPBMC_BAD_LEN)
  else let! elf_file := pull_data b (load_file_len msg) in Ok (msg, elf_file).

Definition ofputil_decode_bpf_unload_prog (oh : bytes) : res failure ol_bpf_unload_prog :=
  let! (msg, _) := pull_struct BPF_UNLOAD_PROG oh in Ok msg.

Definition ofputil_decode_bpf_show_prog_request (oh : bytes) : res failure ol_bpf_show_prog_request :=
  let! (msg, _) := pull_struct BPF_SHOW_PROG_REQUEST oh in
  if show_prog_id msg =? 0 then Err (Error OFPERR_OFPBRC_EPERM) else Ok msg.

(** The size is computed in 32 bits. *)
Definition ofputil_decode_bpf_update_map (oh : bytes) : res failure (ol_bpf_update_map * bytes) :=
  let! (msg, b) := pull_struct BPF_UPDATE_MAP oh in
  if update_prog_id msg =? 0 then Err (Error OFPERR_OFPBRC_EPERM)
  else
    let data_size := u32 (update_nb_elems msg * u32 (update_key_size msg + update_value_size msg)) in
    let! data := pull_data b data_size in Ok (msg, data).

Definition ofputil_decode_bpf_dump_map_request (oh : bytes) : res failure (ol_bpf_dump_map_request * bytes) :=
  let! (msg, b) := pull_struct BPF_DUMP_MAP_REQUEST oh in
  if dump_prog msg =? 0 then Err (Error OFPERR_OFPBRC_EPERM)
  else let! maps := pull_data b (2 * dump_nb_maps msg) in Ok (msg, maps).

Definition ofputil_decode_bpf_delete_map (oh : bytes) : res failure (ol_bpf_delete_map * bytes) :=
  let! (msg, b) := pull_struct BPF_DELETE_MAP oh in
  if delete_prog msg =? 0 then Err (Error OFPERR_OFPBRC_EPERM)
  else
    let data_size := u32 (delete_nb_elems msg * delete_key_size msg) in
    let! keys := pull_data b data_size in Ok (msg, keys).

(** ** Encoding

    [xid] is the transaction id that [ofpraw_alloc] takes from its counter. *)

(** [request->msg] written through. *)
Definition write_msg (b : ofpbuf) (bs : bytes) : res failure ofpbuf :=
  match ob_msg b with Some p => lift (store b p bs) | None => Undef end.

(** The common beginning: the header, and the structure over zeros. *)
Definition put_struct {A} `{Struct A} (m : bpf_msg) (version xid tailroom : Z) (s : A) : res failure ofpbuf :=
  let! request := ofpraw_alloc_xid junk raw_infos (raw_of m) version xid tailroom in
  let! (_, request) := lift (ofpbuf_put_zeros junk request (sizeof A)) in
  write_msg request (to_wire s).

Definition put_data (request : ofpbuf) (data : bytes) : res failure ofpbuf :=
  let! (_, request) := lift (ofpbuf_put junk request data) in Ok request.

Definition ofputil_encode_bpf_load_prog (version xid prog_id : Z) (program : bytes) : res failure ofpbuf :=
  let length := Z.of_nat (length program) in
  let! request := put_struct BPF_LOAD_PROG version xid length (mk_load (u16 prog_id) (u32 length)) in
  put_data request program.

Definition ofputil_encode_bpf_unload_prog (version xid prog : Z) : res failure ofpbuf :=
  put_struct BPF_UNLOAD_PROG version xid 0 (mk_prog (u16 prog)).

Definition ofputil_encode_bpf_show_prog_request (version xid prog_id : Z) : res failure ofpbuf :=
  put_struct BPF_SHOW_PROG_REQUEST version xid 0 (mk_show (u16 prog_id)).

(** [None] is NULL. *)
Definition ofputil_encode_bpf_update_map (version xid prog map : Z) (key value : bytes) (nb_elems : Z) :
    res failure (option ofpbuf) :=
  if negb (nb_elems =? 1) then Ok None
  else
    let key_size := Z.of_nat (length key) in
    let value_size := Z.of_nat (length value) in
    let! request := put_struct BPF_UPDATE_MAP version xid (u64 (nb_elems * u64 (key_size + value_size)))
                      (mk_update (u16 prog) (u16 map) (u32 key_size) (u32 value_size) (u32 nb_elems)) in
    let! request := put_data request key in
    let! request := put_data request value in
    let! request := ofpmsg_update_length request in Ok (Some request).

(** The identifiers are copied as they are in memory. *)
Definition ids_bytes (maps : list Z) : bytes := flat_map (le_bytes 2) maps.

Definition ofputil_encode_bpf_dump_map_request (version xid prog : Z) (maps : list Z) : res failure ofpbuf :=
  let nb_maps := u16 (Z.of_nat (length maps)) in
  let! request := put_struct BPF_DUMP_MAP_REQUEST version xid (2 * nb_maps) (mk_dump (u16 prog) nb_maps) in
  let! request := put_data request (ids_bytes maps) in
  ofpmsg_update_length request.

(** One key is copied, whatever [nb_elems] is. *)
Definition ofputil_encode_bpf_delete_bpf_map (version xid prog map : Z) (key : bytes) (nb_elems : Z) : res failure ofpbuf :=
  let key_size := Z.of_nat (length key) in
  let! request := put_struct BPF_DELETE_MAP version xid (u64 (nb_elems * key_size))
                    (mk_delete (u16 prog) (u16 map) (u32 key_size) (u32 nb_elems)) in
  let! request := put_data request key in
  ofpmsg_update_length request.

(** A map of a dump reply: its header, of which the padding keeps the bytes of the
    memory it was built in, and its entries. *)
Record dumped : Set := mk_dumped { dm_map : Z; dm_pad : bytes; dm_key_size : Z; dm_value_size : Z; dm_nb : Z; dm_data : bytes }.

Definition dumped_size (d : dumped) : Z := u32 (dm_nb d * u32 (dm_key_size d + dm_value_size d)).

(** [data[i]], with the fields filled in; [None] when the memory is shorter than what is copied. *)
Definition dumped_bytes (d : dumped) : option bytes :=
  entries ← read_bytes (dm_data d) (dumped_size d);
  Some (le_bytes 2 (dm_map d) ++ dm_pad d ++ le_bytes 4 (dm_key_size d) ++ le_bytes 4 (dm_value_size d) ++ le_bytes 4 (dm_nb d) ++ entries).

Fixpoint put_dumped (ds : list dumped) (b : ofpbuf) : res failure ofpbuf :=
  match ds with
  | [] => Ok b
  | d :: ds' =>
      let! bs := res_of (dumped_bytes d) in
      let! b := put_data b bs in put_dumped ds' b
  end.

Definition ofputil_encode_bpf_dump_map_reply (msg : ol_bpf_dump_map_request) (oh : bytes) (ds : list dumped) : res failure ofpbuf :=
  let all_maps_size := u64 (foldr (fun d n => 16 + dumped_size d + n) 0 ds) in
  let! output_buffer := ofpraw_alloc_reply junk raw_infos (raw_of BPF_DUMP_MAP_REPLY) oh all_maps_size in
  let! (_, output_buffer) := lift (ofpbuf_put_zeros junk output_buffer 4) in
  let! output_buffer := write_msg output_buffer (le_bytes 2 (dump_prog msg) ++ le_bytes 2 (dump_nb_maps msg)) in
  let! output_buffer := put_dumped ds output_buffer in
  ofpmsg_update_length output_buffer.

End Messages.
