(* ===== verification/OfpBpfProps.v ===== *)
(** * Messages arrive as they were sent *)

From S2P Require Import Prelude MapDef OfpBuf OfpBufProps OfpMsgs OfpMsgsProps OfpBpf.

(** ** Layouts *)

Ltac struct_ok inst :=
  first [intros a; reflexivity
  |intros a rest Hfits; cbv beta in Hfits; destruct_and? Hfits; unfold of_wire, to_wire, inst;
   repeat (read_field; cbn [mbind option_bind]); by destruct a].

#[export] Instance load_ok : StructOk ol_bpf_load_prog.
Proof.
  refine {| fits m := in_u 16 (load_prog_id m) /\ in_u 32 (load_file_len m) |}.
  all: struct_ok load_struct.
Defined.

#[export] Instance unload_ok : StructOk ol_bpf_unload_prog.
Proof.
  refine {| fits m := in_u 16 (unload_prog m) |}.
  all: struct_ok unload_struct.
Defined.

#[export] Instance show_ok : StructOk ol_bpf_show_prog_request.
Proof.
  refine {| fits m := in_u 16 (show_prog_id m) |}.
  all: struct_ok show_struct.
Defined.

#[export] Instance update_ok : StructOk ol_bpf_update_map.
Proof.
  refine {| fits m := in_u 16 (update_prog_id m) /\ in_u 16 (update_map_id m) /\ in_u 32 (update_key_size m) /\
            in_u 32 (update_value_size m) /\ in_u 32 (update_nb_elems m) |}.
  all: struct_ok update_struct.
Defined.

#[export] Instance dump_ok : StructOk ol_bpf_dump_map_request.
Proof.
  refine {| fits m := in_u 16 (dump_prog m) /\ in_u 16 (dump_nb_maps m) |}.
  all: struct_ok dump_struct.
Defined.

#[export] Instance delete_ok : StructOk ol_bpf_delete_map.
Proof.
  refine {| fits m := in_u 16 (delete_prog m) /\ in_u 16 (delete_map m) /\ in_u 32 (delete_key_size m) /\ in_u 32 (delete_nb_elems m) |}.
  all: struct_ok delete_struct.
Defined.

(** ** Sending and receiving *)

Section Transfer.
Context (junk : nat -> Z) (raw_infos : list raw_info) (raw_of : bpf_msg -> Z) (Ht : bpf_table raw_infos raw_of).

Lemma bpf_entry m v : 1 <= v <= 6 -> entry raw_infos (raw_of m) (bpf_info m) v (bpf_hdrs m v).
Proof using Ht.
  intros Hv. destruct (bt_raw _ _ Ht m) as [H0 Hr]. split_and!; try done; try (by cbn; lia); [|by apply bpf_hdrs_valid].
  assert (v = 1 \/ v = 2 \/ v = 3 \/ v = 4 \/ v = 5 \/ v = 6) as H by lia. by repeat destruct H as [->|H]; subst.
Qed.

Lemma raw_of_inj m m' : raw_of m = raw_of m' -> m = m'.
Proof using Ht.
  intros E. destruct (bt_raw _ _ Ht m) as [_ H], (bt_raw _ _ Ht m') as [_ H']. rewrite E, H' in H. injection H as H _.
  apply (f_equal h_subtype) in H || idtac. by apply bpf_subtype_inj.
Qed.

(** The bytes of a message. *)
Definition message {A} `{Struct A} (m : bpf_msg) (v xid : Z) (s : A) (data : bytes) : bytes :=
  hdr (bpf_hdrs m v) (16 + sizeof A + Z.of_nat (length data)) xid ++ to_wire s ++ data.

(** The buffer behind the structure. *)
Definition received {A} `{Struct A} (m : bpf_msg) (v xid : Z) (s : A) (data : bytes) : ofpbuf :=
  mk_ofpbuf 0 (message m v xid s data) (16 + sizeof A) (Z.of_nat (length data)) (16 + sizeof A + Z.of_nat (length data))
    (Some 0) (Some 16) OFPBUF_STACK.

Lemma hdr_length m v len xid : 1 <= v <= 6 -> length (hdr (bpf_hdrs m v) len xid) = 16%nat.
Proof. intros Hv. pose proof (length_hdr _ len xid (bpf_hdrs_valid m v Hv)) as H. change (ofphdrs_len _) with 16 in H. lia. Qed.

Lemma message_length {A} `{StructOk A} m v xid s data :
  1 <= v <= 6 -> Z.of_nat (length (message m v xid s data)) = 16 + sizeof A + Z.of_nat (length data).
Proof. intros Hv. unfold message. rewrite !length_app, hdr_length, !Nat2Z.inj_add, wire_length by done. lia. Qed.

(** A message of type [m] read as one of type [m']. *)
Lemma pull_struct_message {A} `{StructOk A} m m' v xid (s : A) data :
  1 <= v <= 6 -> in_u 32 xid -> fits s -> sizeof A = bpf_min_body m -> 16 + sizeof A + Z.of_nat (length data) < 2 ^ 16 ->
  pull_struct raw_infos raw_of m' (message m v xid s data) =
  if bool_decide (m' = m) then Ok (s, received m v xid s data) else Err (Error OFPERR_OFPBMC_BAD_TYPE).
Proof using Ht.
  intros Hv Hx Hs Hsz Hlen. pose proof (bpf_entry m v Hv) as He. pose proof (wire_length s) as Hw.
  set (L := 16 + sizeof A + Z.of_nat (length data)) in *.
  unfold pull_struct. assert (be_field (message m v xid s data) 2 2 = Some L) as ->.
  { unfold message, hdr, oh_bytes. rewrite wrap_small by (unfold in_u; lia).
    assert (in_u 16 L) by (unfold in_u; lia). fold L. read_field. done. }
  cbn [res_of res_bind].
  assert (L = ofphdrs_len (bpf_hdrs m v) + Z.of_nat (length (to_wire s ++ data))) as HL.
  { change (ofphdrs_len _) with 16. rewrite length_app. lia. }
  pose proof (pull_message raw_infos (bt_table _ _ Ht) _ _ _ _ L xid (to_wire s ++ data) [] He Hx) as Hp. cbv zeta in Hp.
  rewrite <- HL, app_nil_r in Hp. unfold ofpraw_pull_assert, message. fold L. rewrite Hp by lia.
  assert (body_ok (bpf_info m) (Z.of_nat (length (to_wire s ++ data))) = true) as ->.
  { unfold body_ok. cbn [bpf_info min_body extra_multiple Z.eqb]. rewrite Z.mod_1_r, <- Hsz, (proj2 (Z.leb_le _ _)) by (rewrite length_app; lia). done. }
  cbn [res_bind]. case_bool_decide as Hm.
  - subst m'. rewrite Z.eqb_refl. cbn [negb]. unfold ofpbuf_pull. cbn [ob_size ob_data].
    rewrite (proj2 (Z.leb_le _ _)) by (rewrite length_app; lia). cbn [lift res_bind].
    change (ofphdrs_len (bpf_hdrs m v)) with 16. change (Z.to_nat 16) with 16%nat.
    rewrite <- (hdr_length m v L xid Hv) at 1. rewrite drop_app_length, wire_roundtrip by done. cbn [res_of res_bind].
    unfold set_data, received, message. fold L. cbn. do 3 f_equal. rewrite length_app, wrap_small by (unfold in_u; lia). lia.
  - rewrite (proj2 (Z.eqb_neq _ _)); [done|]. intros E. by apply Hm, raw_of_inj.
Qed.

Lemma pull_data_received {A} `{StructOk A} m v xid (s : A) data n :
  1 <= v <= 6 -> 0 <= n ->
  pull_data (received m v xid s data) n =
  if n <=? Z.of_nat (length data) then Ok data else Err (Error OFPERR_OFPBMC_BAD_LEN).
Proof.
  intros Hv Hn. unfold pull_data, ofpbuf_try_pull, received, ofpbuf_pull. cbn [ob_size ob_data].
  destruct (n <=? _); [|done]. cbn [lift res_bind ob_mem set_data]. f_equal. unfold message.
  replace (Z.to_nat (16 + sizeof A)) with (length (hdr (bpf_hdrs m v) (16 + sizeof A + Z.of_nat (length data)) xid ++ to_wire s)).
  - by rewrite app_assoc, drop_app_length.
  - rewrite length_app, hdr_length by done. pose proof (wire_length s). lia.
Qed.

(** A buffer that holds a message up to its length field, in a block of bounded size. *)
Definition holds_message {A} `{Struct A} (m : bpf_msg) (v xid : Z) (s : A) (data : bytes) (k : Z) (b : ofpbuf) : Prop :=
  exists len pre post, lay b pre (hdr (bpf_hdrs m v) len xid ++ to_wire s ++ data) post /\
    ob_source b <> OFPBUF_STACK /\ ob_allocated b <= 2 ^ 31 + 2 ^ 18 + k.

Lemma put_struct_holds {A} `{StructOk A} m v xid tailroom (s : A) :
  1 <= v <= 6 -> in_u 32 xid -> 0 <= tailroom < 2 ^ 31 -> 0 <= sizeof A < 2 ^ 16 ->
  exists b, put_struct junk raw_infos raw_of m v xid tailroom s = Ok b /\ holds_message m v xid s [] 0 b.
Proof using Ht.
  intros Hv Hx Hr Hsz. pose proof (bpf_entry m v Hv) as He.
  destruct (alloc_lay junk raw_infos (bt_table _ _ Ht) _ _ _ _ xid tailroom He Hr Hx) as (b1 & post1 & E1 & Hl1 & _ & Hm1 & Hs1 & Ha1).
  unfold put_struct. rewrite E1. cbn [res_bind]. rewrite put_zeros_eq by lia.
  destruct (put_lay junk b1 _ _ _ (replicate (Z.to_nat (sizeof A)) 0) Hl1) as (b2 & pre2 & post2 & E2 & Hl2 & Hp2 & [_ Hm2] & [Hs2 Ha2]).
  { rewrite length_replicate. split; [done|lia]. }
  rewrite E2. cbn [lift res_bind]. unfold write_msg. assert (pre2 = []) as -> by (by apply length_zero_iff_nil).
  change (ofphdrs_len _) with 16 in *. rewrite Hm1, (lay_data _ _ _ _ Hl1), (lay_data _ _ _ _ Hl2) in Hm2. cbn in Hm2.
  destruct (ob_msg b2) as [p|]; [|done]. injection Hm2 as Hm2. rewrite length_replicate in *.
  set (h0 := hdr (bpf_hdrs m v) 16 xid) in *. pose proof (wire_length s) as Hw.
  rewrite <- (app_nil_r (replicate (Z.to_nat (sizeof A)) 0)) in Hl2.
  destruct (store_lay b2 [] h0 (replicate (Z.to_nat (sizeof A)) 0) [] post2 (to_wire s) Hl2) as (b3 & E3 & Hl3 & _ & Hs3 & Ha3).
  { rewrite length_replicate. lia. }
  replace p with (Z.of_nat (length ([] ++ h0))) by (cbn [app]; unfold h0; rewrite hdr_length by done; lia).
  rewrite E3. cbn [lift]. exists b3. split; [done|]. exists 16, [], post2. split_and!; [done|by rewrite Hs3|lia].
Qed.

Lemma put_data_holds {A} `{StructOk A} m v xid (s : A) d d' k b :
  0 <= k < 2 ^ 20 -> Z.of_nat (length d') < 2 ^ 20 -> holds_message m v xid s d k b ->
  exists b', put_data junk b d' = Ok b' /\ holds_message m v xid s (d ++ d') (k + Z.of_nat (length d') + 64) b'.
Proof.
  intros Hk Hd (len & pre & post & Hl & Hs & Ha).
  destruct (put_lay junk b pre _ post d' Hl) as (b' & pre' & post' & E & Hl' & Hp & _ & [Hs' Ha']); [split; [done|lia]|].
  unfold put_data. rewrite E. cbn [lift res_bind]. exists b'. split; [done|]. exists len, pre', post'. rewrite <- !app_assoc in Hl'.
  split_and!; try done. lia.
Qed.

(** What [ofpmsg_update_length] leaves. *)
Lemma update_length_message {A} `{StructOk A} m v xid (s : A) d k b :
  1 <= v <= 6 -> holds_message m v xid s d k b ->
  exists b', ofpmsg_update_length b = Ok b' /\ contents b' = message m v xid s d /\ holds_message m v xid s d k b'.
Proof.
  intros Hv (len & pre & post & Hl & Hs & Ha). destruct (update_length_lay b pre _ len xid _ post Hl) as (b' & E & Hl' & Hsz).
  assert (ob_size b = 16 + sizeof A + Z.of_nat (length d)) as Hsb.
  { rewrite (lay_size _ _ _ _ Hl), !length_app, hdr_length, !Nat2Z.inj_add, wire_length by done. lia. }
  exists b'. split; [done|]. rewrite Hsb in Hl'. split; [by rewrite (lay_contents _ _ _ _ Hl')|].
  exists (16 + sizeof A + Z.of_nat (length d)), pre, post. split; [done|].
  unfold ofpmsg_update_length, store in E. destruct (ofpbuf_at_assert b 0 8); [|done|done]. cbn [lift res_bind] in E.
  destruct (poke _ _ _); [|done]. injection E as <-. done.
Qed.
End Transfer.

(** The bytes on the wire: [vconn_send] updates the length field once more. *)
Definition sends (r : res failure ofpbuf) (wire : bytes) : Prop :=
  exists b b', r = Ok b /\ ofpmsg_update_length b = Ok b' /\ contents b' = wire.

Section Roundtrip.
Context (junk : nat -> Z) (raw_infos : list raw_info) (raw_of : bpf_msg -> Z) (Ht : bpf_table raw_infos raw_of).
Context (v xid : Z) (Hv : 1 <= v <= 6) (Hx : in_u 32 xid).

Lemma struct_sends {A} `{StructOk A} m (s : A) tailroom :
  0 <= tailroom < 2 ^ 31 -> 0 <= sizeof A < 2 ^ 16 ->
  sends (put_struct junk raw_infos raw_of m v xid tailroom s) (message m v xid s []).
Proof using Ht Hv Hx.
  intros Hr Hs. destruct (put_struct_holds junk raw_infos raw_of Ht m v xid tailroom s Hv Hx Hr Hs) as (b & E & Hb).
  destruct (update_length_message m v xid s [] 0 b Hv Hb) as (b' & E' & Hc & _). by exists b, b'.
Qed.

Lemma data_sends {A} `{StructOk A} m (s : A) tailroom d :
  0 <= tailroom < 2 ^ 31 -> 0 <= sizeof A < 2 ^ 16 -> Z.of_nat (length d) < 2 ^ 20 ->
  let r := let! b := put_struct junk raw_infos raw_of m v xid tailroom s in put_data junk b d in
  sends r (message m v xid s d) /\ sends (let! b := r in ofpmsg_update_length b) (message m v xid s d).
Proof using Ht Hv Hx.
  intros Hr Hs Hd r. destruct (put_struct_holds junk raw_infos raw_of Ht m v xid tailroom s Hv Hx Hr Hs) as (b & E & Hb).
  destruct (put_data_holds junk m v xid s [] d 0 b ltac:(lia) Hd Hb) as (b1 & E1 & H1). cbn [app] in H1.
  destruct (update_length_message m v xid s d _ b1 Hv H1) as (b2 & E2 & Hc & H2).
  destruct (update_length_message m v xid s d _ b2 Hv H2) as (b3 & E3 & Hc3 & _).
  assert (r = Ok b1) as -> by (unfold r; rewrite E; exact E1). split; [by exists b1, b2|]. exists b2, b3. by cbn [res_bind].
Qed.

Lemma load_roundtrip prog program :
  in_u 16 prog -> Z.of_nat (length program) < 2 ^ 16 - 24 ->
  exists wire, sends (ofputil_encode_bpf_load_prog junk raw_infos raw_of v xid prog program) wire /\
    ofputil_decode_bpf_load_prog raw_infos raw_of wire =
    if Z.of_nat (length program) =? 0 then Err (Error OFPERR_OFPBMC_BAD_LEN)
    else Ok (mk_load prog (Z.of_nat (length program)), program).
Proof using Ht Hv Hx.
  intros Hp Hl. unfold ofputil_encode_bpf_load_prog. rewrite !wrap_small by (done || (unfold in_u; lia)).
  eexists. split; [apply data_sends; cbn; lia|]. unfold ofputil_decode_bpf_load_prog.
  rewrite (pull_struct_message raw_infos raw_of Ht) by (done || (cbn; lia) || (split; [done|unfold in_u; cbn; lia])).
  rewrite bool_decide_true by done. cbn [res_bind load_file_len]. destruct (_ =? 0); [done|].
  rewrite pull_data_received by (done || lia). by rewrite Z.leb_refl.
Qed.

Lemma unload_roundtrip prog :
  in_u 16 prog ->
  exists wire, sends (ofputil_encode_bpf_unload_prog junk raw_infos raw_of v xid prog) wire /\
    ofputil_decode_bpf_unload_prog raw_infos raw_of wire = Ok (mk_prog prog).
Proof using Ht Hv Hx.
  intros Hp. unfold ofputil_encode_bpf_unload_prog. rewrite wrap_small by done.
  eexists. split; [apply struct_sends; cbn; lia|]. unfold ofputil_decode_bpf_unload_prog.
  rewrite (pull_struct_message raw_infos raw_of Ht) by (done || (cbn; lia)). by rewrite bool_decide_true.
Qed.

Lemma show_roundtrip prog :
  in_u 16 prog ->
  exists wire, sends (ofputil_encode_bpf_show_prog_request junk raw_infos raw_of v xid prog) wire /\
    ofputil_decode_bpf_show_prog_request raw_infos raw_of wire =
    if prog =? 0 then Err (Error OFPERR_OFPBRC_EPERM) else Ok (mk_show prog).
Proof using Ht Hv Hx.
  intros Hp. unfold ofputil_encode_bpf_show_prog_request. rewrite wrap_small by done.
  eexists. split; [apply struct_sends; cbn; lia|]. unfold ofputil_decode_bpf_show_prog_request.
  rewrite (pull_struct_message raw_infos raw_of Ht) by (done || (cbn; lia)). by rewrite bool_decide_true.
Qed.

Lemma update_roundtrip prog map key value :
  in_u 16 prog -> in_u 16 map -> Z.of_nat (length key) + Z.of_nat (length value) < 2 ^ 16 - 32 ->
  exists b wire, ofputil_encode_bpf_update_map junk raw_infos raw_of v xid prog map key value 1 = Ok (Some b) /\ sends (Ok b) wire /\
    ofputil_decode_bpf_update_map raw_infos raw_of wire =
    if prog =? 0 then Err (Error OFPERR_OFPBRC_EPERM)
    else Ok (mk_update prog map (Z.of_nat (length key)) (Z.of_nat (length value)) 1, key ++ value).
Proof using Ht Hv Hx.
  intros Hp Hm Hl. unfold ofputil_encode_bpf_update_map. cbn [negb Z.eqb Pos.eqb].
  rewrite !wrap_small by (done || (unfold in_u; lia) || (rewrite ?wrap_small; unfold in_u; lia)).
  set (s := mk_update _ _ _ _ _).
  destruct (put_struct_holds junk raw_infos raw_of Ht BPF_UPDATE_MAP v xid (1 * (Z.of_nat (length key) + Z.of_nat (length value))) s Hv Hx)
    as (b & E & Hb); [lia|cbn; lia|]. rewrite E. cbn [res_bind].
  destruct (put_data_holds junk BPF_UPDATE_MAP v xid s [] key 0 b) as (b1 & E1 & H1); [lia|lia|done|]. rewrite E1. cbn [res_bind app] in *.
  destruct (put_data_holds junk BPF_UPDATE_MAP v xid s key value (0 + Z.of_nat (length key) + 64) b1) as (b2 & E2 & H2); [lia|lia|done|]. rewrite E2. cbn [res_bind].
  destruct (update_length_message BPF_UPDATE_MAP v xid s _ _ b2 Hv H2) as (b3 & E3 & _ & H3). rewrite E3. cbn [res_bind].
  destruct (update_length_message BPF_UPDATE_MAP v xid s _ _ b3 Hv H3) as (b4 & E4 & Hc & _).
  eexists _, _. split; [reflexivity|]. split; [exists b3, b4; split_and!; [reflexivity|exact E4|exact Hc]|]. unfold ofputil_decode_bpf_update_map.
  rewrite (pull_struct_message raw_infos raw_of Ht) by (done || (cbn; rewrite length_app; lia) || (split_and!; (done || (unfold in_u; cbn; lia)))).
  rewrite bool_decide_true by done. cbn [res_bind update_prog_id s]. destruct (prog =? 0); [done|].
  rewrite pull_data_received by (done || apply wrap_range; lia).
  unfold s at 1 2 3. cbn [update_nb_elems update_key_size update_value_size].
  rewrite (wrap_small 32 (_ + _)) by (unfold in_u; lia). rewrite wrap_small by (unfold in_u; lia).
  rewrite (proj2 (Z.leb_le _ _)); [done|]. rewrite length_app. lia.
Qed.

Lemma length_ids_bytes maps : length (ids_bytes maps) = (2 * length maps)%nat.
Proof. induction maps as [|x maps IH]; [done|]. cbn [ids_bytes flat_map]. rewrite length_app, length_le_bytes. unfold ids_bytes in IH. rewrite IH. cbn [length]. lia. Qed.

Lemma dump_roundtrip prog maps :
  in_u 16 prog -> Z.of_nat (length maps) < 2 ^ 15 - 10 ->
  let wire := message BPF_DUMP_MAP_REQUEST v xid (mk_dump prog (Z.of_nat (length maps))) (ids_bytes maps) in
  sends (ofputil_encode_bpf_dump_map_request junk raw_infos raw_of v xid prog maps) wire /\
    ofputil_decode_bpf_dump_map_request raw_infos raw_of wire =
    if prog =? 0 then Err (Error OFPERR_OFPBRC_EPERM)
    else Ok (mk_dump prog (Z.of_nat (length maps)), ids_bytes maps).
Proof using Ht Hv Hx.
  intros Hp Hl wire. unfold wire, ofputil_encode_bpf_dump_map_request. rewrite !wrap_small by (done || (unfold in_u; lia)).
  set (s := mk_dump _ _).
  destruct (data_sends BPF_DUMP_MAP_REQUEST s (2 * Z.of_nat (length maps)) (ids_bytes maps)) as [_ Hs]; [lia|cbn; lia|rewrite length_ids_bytes; lia|].
  split.
  { destruct Hs as (b & b' & E & H). exists b, b'. split; [|exact H]. by destruct (put_struct _ _ _ _ _ _ _ _). }
  unfold ofputil_decode_bpf_dump_map_request.
  rewrite (pull_struct_message raw_infos raw_of Ht)
    by (done || (cbn; rewrite length_ids_bytes; lia) || (split_and!; (done || (unfold in_u; cbn; lia)))).
  rewrite bool_decide_true by done. cbn [res_bind dump_prog dump_nb_maps s]. destruct (prog =? 0); [done|].
  rewrite pull_data_received by (done || lia). rewrite (proj2 (Z.leb_le _ _)); [done|]. rewrite length_ids_bytes. lia.
Qed.

Lemma delete_roundtrip prog map key :
  in_u 16 prog -> in_u 16 map -> Z.of_nat (length key) < 2 ^ 16 - 28 ->
  exists wire, sends (ofputil_encode_bpf_delete_bpf_map junk raw_infos raw_of v xid prog map key 1) wire /\
    ofputil_decode_bpf_delete_map raw_infos raw_of wire =
    if prog =? 0 then Err (Error OFPERR_OFPBRC_EPERM)
    else Ok (mk_delete prog map (Z.of_nat (length key)) 1, key).
Proof using Ht Hv Hx.
  intros Hp Hm Hl. unfold ofputil_encode_bpf_delete_bpf_map. rewrite !wrap_small by (done || (unfold in_u; lia)).
  set (s := mk_delete _ _ _ _).
  destruct (data_sends BPF_DELETE_MAP s (1 * Z.of_nat (length key)) key) as [_ Hs]; [lia|cbn; lia|lia|].
  eexists. split.
  { destruct Hs as (b & b' & E & H). exists b, b'. split; [|exact H]. by destruct (put_struct _ _ _ _ _ _ _ _). }
  unfold ofputil_decode_bpf_delete_map.
  rewrite (pull_struct_message raw_infos raw_of Ht) by (done || (cbn; lia) || (split_and!; (done || (unfold in_u; cbn; lia)))).
  rewrite bool_decide_true by done. cbn [res_bind delete_prog delete_nb_elems delete_key_size s]. destruct (prog =? 0); [done|].
  rewrite pull_data_received by (done || apply wrap_range; lia).
  rewrite (proj2 (Z.leb_le _ _)); [done|]. unfold s. cbn [delete_nb_elems delete_key_size]. rewrite wrap_small by (unfold in_u; lia). lia.
Qed.
End Roundtrip.

(** what the encoders send is what the decoders return, for every version, transaction
    id, identifier and content that fits into an OpenFlow message: program files (an empty one is
    refused), unload and show requests, one key and value for an update, the identifiers of a dump
    request, and one key for a deletion.  Identifier 0 is refused by all but load and unload. *)
Theorem bpf_messages_roundtrip junk raw_infos raw_of v xid prog map program key value maps :
  bpf_table raw_infos raw_of -> 1 <= v <= 6 -> in_u 32 xid -> in_u 16 prog -> in_u 16 map ->
  Z.of_nat (length program) < 2 ^ 16 - 24 -> Z.of_nat (length key) + Z.of_nat (length value) < 2 ^ 16 - 32 ->
  Z.of_nat (length maps) < 2 ^ 15 - 10 ->
  let guarded {A} (r : res failure A) := if prog =? 0 then Err (Error OFPERR_OFPBRC_EPERM) else r in
  (exists wire, sends (ofputil_encode_bpf_load_prog junk raw_infos raw_of v xid prog program) wire /\
     ofputil_decode_bpf_load_prog raw_infos raw_of wire =
     if Z.of_nat (length program) =? 0 then Err (Error OFPERR_OFPBMC_BAD_LEN)
     else Ok (mk_load prog (Z.of_nat (length program)), program)) /\
  (exists wire, sends (ofputil_encode_bpf_unload_prog junk raw_infos raw_of v xid prog) wire /\
     ofputil_decode_bpf_unload_prog raw_infos raw_of wire = Ok (mk_prog prog)) /\
  (exists wire, sends (ofputil_encode_bpf_show_prog_request junk raw_infos raw_of v xid prog) wire /\
     ofputil_decode_bpf_show_prog_request raw_infos raw_of wire = guarded (Ok (mk_show prog))) /\
  (exists b wire, ofputil_encode_bpf_update_map junk raw_infos raw_of v xid prog map key value 1 = Ok (Some b) /\ sends (Ok b) wire /\
     ofputil_decode_bpf_update_map raw_infos raw_of wire =
     guarded (Ok (mk_update prog map (Z.of_nat (length key)) (Z.of_nat (length value)) 1, key ++ value))) /\
  (exists wire, sends (ofputil_encode_bpf_dump_map_request junk raw_infos raw_of v xid prog maps) wire /\
     ofputil_decode_bpf_dump_map_request raw_infos raw_of wire =
     guarded (Ok (mk_dump prog (Z.of_nat (length maps)), ids_bytes maps))) /\
  (exists wire, sends (ofputil_encode_bpf_delete_bpf_map junk raw_infos raw_of v xid prog map key 1) wire /\
     ofputil_decode_bpf_delete_map raw_infos raw_of wire =
     guarded (Ok (mk_delete prog map (Z.of_nat (length key)) 1, key))).
Proof.
  intros Ht Hv Hx Hp Hm H1 H2 H3 guarded. split_and!.
  - by apply load_roundtrip.
  - by apply unload_roundtrip.
  - by apply show_roundtrip.
  - by apply update_roundtrip.
  - eexists. by apply dump_roundtrip.
  - apply delete_roundtrip; try done. lia.
Qed.

Lemma bpf_messages_roundtrip_witness :
  (exists wire, sends (ofputil_encode_bpf_load_prog (fun _ => 99) bpf_infos bpf_raw 4 17 3 [127; 69; 76; 70]) wire /\
     ofputil_decode_bpf_load_prog bpf_infos bpf_raw wire = Ok (mk_load 3 4, [127; 69; 76; 70])) /\
  (exists b wire, ofputil_encode_bpf_update_map (fun _ => 99) bpf_infos bpf_raw 4 17 3 1 [5] [6; 7] 1 = Ok (Some b) /\ sends (Ok b) wire /\
     ofputil_decode_bpf_update_map bpf_infos bpf_raw wire = Ok (mk_update 3 1 1 2 1, [5; 6; 7])).
Proof.
  destruct (bpf_messages_roundtrip (fun _ => 99) bpf_infos bpf_raw 4 17 3 1 [127; 69; 76; 70] [5] [6; 7] []) as (H1 & _ & _ & H2 & _).
  - exact bpf_infos_ok.
  - lia.
  - split; vm_compute; congruence.
  - split; vm_compute; congruence.
  - split; vm_compute; congruence.
  - cbn; lia.
  - cbn; lia.
  - cbn; lia.
  - split; [exact H1|exact H2].
Defined.
