(* ===== verification/OfpPrint.v ===== *)
(** * Printing a dumped map (lib/ofp-print.c)

    What the client prints of the reply to a dump request.  [ds_put_cstr] and [ds_put_format]
    append to a string, which is the result here.  The fields of the reply are read in the order
    of the host, little-endian, as they were written. *)

From stdpp Require Import pretty.
From S2P Require Import Prelude MapDef HashMap OfpBuf OfpBufProps OfpMsgs OfpMsgsProps OfpBpf.
From S2P Require Import OfpBpfProps.

(** ** Structures of the reply *)

Definition le_field (m : bytes) (off n : Z) : option Z := le_value <$> peek m off n.

Record ol_bpf_dump_map_reply : Set := mk_reply { reply_prog : Z; reply_nb_maps : Z }.
#[export] Instance dump_reply_struct : Struct ol_bpf_dump_map_reply := {
  sizeof := 4;
  to_wire m := le_bytes 2 (reply_prog m) ++ le_bytes 2 (reply_nb_maps m);
  of_wire bs := p ← le_field bs 0 2; n ← le_field bs 2 2; Some (mk_reply p n)
}.

Record ol_bpf_dump_map : Set := mk_dump_map { dump_map : Z; dump_pad : Z * Z; dump_key_size : Z; dump_value_size : Z; dump_nb_elems : Z }.
#[export] Instance dump_map_struct : Struct ol_bpf_dump_map := {
  sizeof := 16;
  to_wire m := le_bytes 2 (dump_map m) ++ [(dump_pad m).1; (dump_pad m).2] ++ le_bytes 4 (dump_key_size m) ++ le_bytes 4 (dump_value_size m) ++
               le_bytes 4 (dump_nb_elems m);
  of_wire bs := i ← le_field bs 0 2; p ← bs !! 2%nat; q ← bs !! 3%nat; k ← le_field bs 4 4; v ← le_field bs 8 4;
                n ← le_field bs 12 4; Some (mk_dump_map i (p, q) k v n)
}.

(** ** Text *)

Definition newline : string := String (Ascii.ascii_of_nat 10) EmptyString.

(** [%d] of an [unsigned int]: read as an [int]. *)
Definition int_text (x : Z) : string := pretty (sext 32 (u32 x)).

Definition hex_digit (d : Z) : string :=
  default EmptyString (["0"; "1"; "2"; "3"; "4"; "5"; "6"; "7"; "8"; "9"; "a"; "b"; "c"; "d"; "e"; "f"]%string !! Z.to_nat d).
(** [%02x] and [%u] of a byte. *)
Definition hex_byte (b : Z) : string := (hex_digit (b / 16) +:+ hex_digit (b mod 16))%string.
Definition decimal_byte (b : Z) : string := pretty b.

(** What stands in front of byte number [i]. *)
Definition separator (i : Z) (sep : string) : string :=
  if i =? 0 then ""%string else if i mod 16 =? 0 then newline else if i mod 8 =? 0 then "  "%string else sep.

Fixpoint print_bytes (fmt : Z -> string) (i : Z) (data : bytes) (sep : string) : string :=
  match data with
  | [] => EmptyString
  | b :: data' => (separator i sep +:+ fmt b +:+ print_bytes fmt (i + 1) data' sep)%string
  end.

Definition ofp_print_hex (data : bytes) (sep : string) : string := print_bytes hex_byte 0 data sep.
Definition ofp_print_decimal (data : bytes) (sep : string) : string := print_bytes decimal_byte 0 data sep.

Definition print_field (hex : bool) (data : bytes) : string :=
  if hex then ofp_print_hex data " " else ofp_print_decimal data " ".

(** [data] is the memory from the element on; [None] outside it. *)
Definition ofp_print_bpf_dump_map_element (map : ol_bpf_dump_map) (data : bytes) (hex : bool) : option string :=
  key ← read_bytes data (dump_key_size map);
  value ← read_bytes (drop (Z.to_nat (dump_key_size map)) data) (dump_value_size map);
  Some ("Key: " +:+ print_field hex key +:+ newline +:+ "Value: " +:+ print_field hex value +:+ newline)%string.

(** [element_size] is added to the pointer as an [int]; the elements stay in front of it only if
    it is not negative. *)
Fixpoint print_elements (n : nat) (map : ol_bpf_dump_map) (element_size : Z) (data : bytes) (hex : bool) : option string :=
  match n with
  | O => Some EmptyString
  | S n' =>
      if element_size <? 0 then None
      else
        s ← ofp_print_bpf_dump_map_element map data hex;
        rest ← print_elements n' map element_size (drop (Z.to_nat element_size) data) hex;
        Some (s +:+ rest)%string
  end.

(** Layouts. *)
Lemma le_field_app m pre n x post off w :
  m = pre ++ le_bytes n x ++ post -> off = Z.of_nat (length pre) -> w = Z.of_nat n -> in_u (8 * Z.of_nat n) x ->
  le_field m off w = Some x.
Proof.
  intros -> -> -> Hx. unfold le_field. pose proof (peek_app pre (le_bytes n x) post) as H. rewrite length_le_bytes in H.
  rewrite H. cbn [fmap option_fmap option_map]. f_equal. by apply le_value_bytes.
Qed.

#[export] Instance dump_reply_ok : StructOk ol_bpf_dump_map_reply.
Proof.
  refine {| fits m := in_u 16 (reply_prog m) /\ in_u 16 (reply_nb_maps m) |}.
  - intros a. cbn [to_wire dump_reply_struct]. by rewrite length_app, !length_le_bytes.
  - intros [p n] rest [Hp Hn]. cbn [to_wire of_wire dump_reply_struct reply_prog reply_nb_maps] in *. rewrite <- app_assoc.
    rewrite (le_field_app (le_bytes 2 p ++ le_bytes 2 n ++ rest) [] 2 p (le_bytes 2 n ++ rest) 0 2) by done. cbn [mbind option_bind].
    by rewrite (le_field_app (le_bytes 2 p ++ le_bytes 2 n ++ rest) (le_bytes 2 p) 2 n rest 2 2) by done.
Defined.

#[export] Instance dump_map_ok : StructOk ol_bpf_dump_map.
Proof.
  refine {| fits m := in_u 16 (dump_map m) /\ in_u 32 (dump_key_size m) /\ in_u 32 (dump_value_size m) /\ in_u 32 (dump_nb_elems m) |}.
  - intros a. cbn [to_wire dump_map_struct]. by rewrite !length_app, !length_le_bytes.
  - intros [i [p q] k v n] rest (Hi & Hk & Hv & Hn). cbn [to_wire of_wire dump_map_struct dump_map dump_pad dump_key_size dump_value_size dump_nb_elems] in *.
    rewrite <- !app_assoc. set (m := le_bytes 2 i ++ _). rewrite (le_field_app m [] 2 i ([p; q] ++ le_bytes 4 k ++ le_bytes 4 v ++ le_bytes 4 n ++ rest) 0 2) by done. cbn [mbind option_bind fst snd].
    assert (m !! 2%nat = Some p /\ m !! 3%nat = Some q) as [-> ->]
      by (unfold m; rewrite !lookup_app_r by (rewrite length_le_bytes; lia); by rewrite length_le_bytes). cbn [mbind option_bind].
    set (h := le_bytes 2 i ++ [p; q]).
    rewrite (le_field_app m h 4 k (le_bytes 4 v ++ le_bytes 4 n ++ rest) 4 4) by (done || (unfold h, m; by rewrite <- !app_assoc)).
    cbn [mbind option_bind].
    rewrite (le_field_app m (h ++ le_bytes 4 k) 4 v (le_bytes 4 n ++ rest) 8 4) by (done || (unfold h, m; by rewrite <- !app_assoc)).
    cbn [mbind option_bind].
    by rewrite (le_field_app m (h ++ le_bytes 4 k ++ le_bytes 4 v) 4 n rest 12 4) by (done || (unfold h, m; by rewrite <- !app_assoc)).
Defined.

Section Print.
Context (raw_infos : list raw_info) (raw_of : bpf_msg -> Z).

Definition ofp_print_bpf_dump_map_reply (oh : bytes) (hex : bool) : res failure string :=
  match pull_struct (A := ol_bpf_dump_map_reply) raw_infos raw_of BPF_DUMP_MAP_REPLY oh with
  | Err (Error _) => Ok "Wrong message reply!"%string
  | Err Abort => Err Abort
  | Undef => Undef
  | Ok (buffer, b) =>
      if negb (reply_nb_maps buffer =? 1) then
        Ok ("Only 1 map is allowed not " +:+ int_text (reply_nb_maps buffer) +:+ "!")%string
      else
        let! (p, b) := lift (ofpbuf_pull b (sizeof ol_bpf_dump_map)) in
        let! map := res_of (of_wire (drop (Z.to_nat p) oh)) in
        let element_size := sext 32 (u32 (dump_key_size map + dump_value_size map)) in
        let! (data, b) := lift (ofpbuf_pull b (u32 (dump_nb_elems map * element_size))) in
        (* the counter of the loop is an [int] *)
        if 2 ^ 31 <=? dump_nb_elems map then Undef else
        let! elements := res_of (print_elements (Z.to_nat (dump_nb_elems map)) map element_size (drop (Z.to_nat data) oh) hex) in
        Ok (newline +:+ "The map contains " +:+ int_text (dump_nb_elems map) +:+ " element(s)" +:+ newline +:+ elements)%string
  end.

End Print.
