(* ===== verification/Hex.v ===== *)
(** * Bytes read from hexadecimal text (lib/util.c, lib/ofpbuf.c, lib/dp-packet.c)

    [ofpbuf_put_hex] and [dp_packet_put_hex] append the bytes that a text spells; what
    [ofp_print_hex] prints is read back. *)

From Stdlib Require Import Ascii.
From stdpp Require Import strings.
From S2P Require Import Prelude MapDef OfpBuf OfpBufProps DpPacket DpPacketProps OfpPrint.

(** The value of a digit; a C string ends with a NUL, as every [string] does here. *)
Definition hexit_value (c : Ascii.ascii) : Z :=
  let x := Z.of_nat (Ascii.nat_of_ascii c) in
  if (48 <=? x) && (x <=? 57) then x - 48
  else if (97 <=? x) && (x <=? 102) then x - 97 + 10
  else if (65 <=? x) && (x <=? 70) then x - 65 + 10
  else -1.

(** [n] digits; [value] is the value read so far. *)
Fixpoint hexits_from (s : string) (n : nat) (value : Z) : option Z :=
  match n with
  | O => Some value
  | S n' =>
      match s with
      | EmptyString => None
      | String c s' => if hexit_value c <? 0 then None else hexits_from s' n' (u64 (u64 (Z.shiftl value 4) + hexit_value c))
      end
  end.

(** The value, and [None] for the result that is not [ok]. *)
Definition hexits_value (s : string) (n : nat) : option Z := hexits_from s n 0.

(** The text from the first character on that is not in [accept]. *)
Fixpoint skip_chars (accept : list Ascii.ascii) (s : string) : string :=
  match s with
  | EmptyString => EmptyString
  | String c s' => if bool_decide (c ∈ accept) then skip_chars accept s' else s
  end.

Definition skip_char (s : string) : string := match s with EmptyString => EmptyString | String _ s' => s' end.

Section Loop.
Context {B : Type} (put : B -> bytes -> res unit (Z * B)) (accept : list Ascii.ascii).

(** The loop: the text left and the buffer.  Every iteration but the last takes two characters. *)
Fixpoint put_hex_loop (fuel : nat) (b : B) (s : string) : res unit (string * B) :=
  match fuel with
  | O => Undef
  | S fuel' =>
      let s := skip_chars accept s in
      match hexits_value s 2 with
      | None => Ok (s, b)
      | Some byte => let! (_, b) := put b [u8 byte] in put_hex_loop fuel' b (skip_char (skip_char s))
      end
  end.

End Loop.

Definition tab : Ascii.ascii := Ascii.ascii_of_nat 9.
Definition cr : Ascii.ascii := Ascii.ascii_of_nat 13.
Definition lf : Ascii.ascii := Ascii.ascii_of_nat 10.

(** The characters skipped between bytes. *)
Definition ofpbuf_blanks : list ascii := [" "; "."; tab; cr; lf]%char.
Definition dp_packet_blanks : list ascii := [" "; tab; cr; lf]%char.

(** The text left, the number of bytes added, and the buffer. *)
Definition ofpbuf_put_hex (junk : nat -> Z) (b : ofpbuf) (s : string) : res unit (string * Z * ofpbuf) :=
  let! (rest, b') := put_hex_loop (ofpbuf_put junk) ofpbuf_blanks (S (String.length s)) b s in
  Ok (rest, u64 (ob_size b' - ob_size b), b').

Definition dp_packet_put_hex (junk : nat -> Z) (b : dp_packet) (s : string) : res unit (string * Z * dp_packet) :=
  let! (rest, b') := put_hex_loop (dp_packet_put junk) dp_packet_blanks (S (String.length s)) b s in
  Ok (rest, u64 (size_ b' - size_ b), b').

Example put_hex_abc :
  ofpbuf_put_hex (fun _ => 0) (ofpbuf_init (fun _ => 0) 0) "0a eDg"
  = Ok ("g"%string, 2, mk_ofpbuf 1 ([10; 237] ++ replicate 62 0) 0 2 64 None None OFPBUF_MALLOC).
Proof. vm_compute. reflexivity. Qed.

(** ** Reading what was printed *)

Lemma hex_digit_read d : 0 <= d < 16 -> exists c, hex_digit d = String c EmptyString /\ hexit_value c = d /\
  c ∉ ofpbuf_blanks.
Proof.
  intros Hd. assert (d ∈ (Z.of_nat <$> seq 0 16)) as H.
  { apply list_elem_of_fmap. exists (Z.to_nat d). split; [lia|]. apply elem_of_seq. lia. }
  cbn in H. repeat (apply elem_of_cons in H as [-> | H];
    [eexists; split; [reflexivity|split; [reflexivity|apply (bool_decide_unpack _); vm_compute; exact I]]|]).
  by apply not_elem_of_nil in H.
Qed.

Lemma string_app_assoc (r s t : string) : ((r +:+ s) +:+ t = r +:+ s +:+ t)%string.
Proof. induction r as [|c r IH]; [done|]. exact (f_equal (String c) IH). Qed.

Lemma string_app_length (s t : string) : String.length (s +:+ t) = (String.length s + String.length t)%nat.
Proof. induction s as [|c s IH]; [done|]. exact (f_equal S IH). Qed.

Section Printed.
Context {B : Type} (put : B -> bytes -> res unit (Z * B)) (accept : list ascii).
Hypothesis Haccept : accept ⊆ ofpbuf_blanks.
Hypothesis Hblanks : [" "; lf]%char ⊆ accept.

(** The bytes appended one by one. *)
Fixpoint put_all (b : B) (data : bytes) : res unit B :=
  match data with
  | [] => Ok b
  | x :: data' => let! (_, b) := put b [x] in put_all b data'
  end.

Lemma skip_in c t : c ∈ accept -> skip_chars accept (String c t) = skip_chars accept t.
Proof using. intros H. cbn. by rewrite bool_decide_true. Qed.

Lemma skip_separator i t : skip_chars accept (separator i " " +:+ t) = skip_chars accept t.
Proof.
  assert (" "%char ∈ accept) as H1 by set_solver. assert (lf ∈ accept) as H2 by set_solver.
  unfold separator. repeat case_match; [done|exact (skip_in lf t H2)|exact (eq_trans (skip_in " " (" " +:+ t) H1) (skip_in " " t H1))|].
  exact (skip_in " " t H1).
Qed.

Lemma read_hex_byte x t : in_u 8 x ->
  let s := (hex_byte x +:+ t)%string in
  skip_chars accept s = s /\ hexits_value s 2 = Some x /\ skip_char (skip_char s) = t.
Proof.
  intros Hx s. unfold in_u in Hx. pose proof (Z.div_mod x 16) as Hdm. pose proof (Z.mod_pos_bound x 16) as Hm.
  destruct (hex_digit_read (x / 16)) as (c & Ec & Hc & Ac); [split; [apply Z.div_pos|apply Z.div_lt_upper_bound]; lia|].
  destruct (hex_digit_read (x mod 16)) as (d & Ed & Hd & _); [lia|].
  assert (s = String c (String d t)) as E by (unfold s, hex_byte; rewrite Ec, Ed; done). rewrite E.
  split_and!; [cbn; rewrite bool_decide_false; [done|]; intros Hin; by apply Ac, Haccept| |done].
  unfold hexits_value. cbn -[wrap Z.shiftl]. rewrite Hc, Hd, !(proj2 (Z.ltb_ge _ _)) by lia.
  rewrite Z.shiftl_0_l. change (u64 0) with 0. rewrite Z.add_0_l, (wrap_small 64 (x / 16)) by (unfold in_u; lia).
  rewrite Z.shiftl_mul_pow2, (wrap_small 64 (x / 16 * 2 ^ 4)), wrap_small by (unfold in_u; lia).
  destruct t; apply (f_equal Some); lia.
Qed.

Lemma put_hex_printed rest data : forall i b fuel,
  Forall (in_u 8) data -> (length data < fuel)%nat -> hexits_value (skip_chars accept rest) 2 = None ->
  put_hex_loop put accept fuel b (print_bytes hex_byte i data " " +:+ rest)
  = let! b' := put_all b data in Ok (skip_chars accept rest, b').
Proof.
  induction data as [|x data IH]; intros i b fuel Hd Hf Hr; (destruct fuel as [|fuel]; [cbn in Hf; lia|]).
  - cbn [print_bytes put_hex_loop put_all]. change (EmptyString +:+ rest) with rest. by rewrite Hr.
  - apply Forall_cons in Hd as [Hx Hd]. cbn [print_bytes put_hex_loop put_all]. rewrite !string_app_assoc, skip_separator.
    destruct (read_hex_byte x (print_bytes hex_byte (i + 1) data " " +:+ rest) Hx) as (-> & -> & ->).
    rewrite (wrap_small 8) by done. destruct (put b [x]) as [[q b']| |]; cbn [res_bind]; try done. apply IH; [done| |done]. cbn in Hf. lia.
Qed.

End Printed.

(** The text has two characters for every byte. *)
Lemma length_printed data : forall i, Forall (in_u 8) data -> (2 * length data <= String.length (print_bytes hex_byte i data " "))%nat.
Proof.
  induction data as [|x data IH]; intros i Hd; [done|]. apply Forall_cons in Hd as [Hx Hd]. specialize (IH (i + 1) Hd).
  cbn [print_bytes length]. rewrite !string_app_length. unfold in_u in Hx.
  pose proof (Z.mod_pos_bound x 16) as Hm.
  destruct (hex_digit_read (x / 16)) as (c & Ec & _ & _); [split; [apply Z.div_pos|apply Z.div_lt_upper_bound]; lia|].
  destruct (hex_digit_read (x mod 16)) as (d & Ed & _ & _); [lia|].
  assert (String.length (hex_byte x) = 2%nat) by (unfold hex_byte; by rewrite Ec, Ed). lia.
Qed.

Lemma ofpbuf_blanks_ok : ofpbuf_blanks ⊆ ofpbuf_blanks /\ [" "; lf]%char ⊆ ofpbuf_blanks.
Proof. unfold ofpbuf_blanks. set_solver. Qed.
Lemma dp_packet_blanks_ok : dp_packet_blanks ⊆ ofpbuf_blanks /\ [" "; lf]%char ⊆ dp_packet_blanks.
Proof. unfold ofpbuf_blanks, dp_packet_blanks. set_solver. Qed.

(** Appending byte by byte, in either kind of buffer. *)
Lemma ofpbuf_put_all junk data : forall b pre c post,
  lay b pre c post -> ob_source b <> OFPBUF_STACK -> ob_allocated b + 64 * (1 + Z.of_nat (length data)) < 2 ^ 32 ->
  exists b' pre' post', put_all (ofpbuf_put junk) b data = Ok b' /\ lay b' pre' (c ++ data) post' /\ moved 0 b b'.
Proof.
  induction data as [|x data IH]; intros b pre c post Hl Hs Ha.
  - exists b, pre, post. rewrite app_nil_r. split_and!; [done|done|]. by apply moved_refl.
  - destruct (put_lay junk b pre c post [x] Hl) as (b1 & pre1 & post1 & E & Hl1 & _ & Hm1 & Hs1 & Ha1); [split; [done|cbn in *; lia]|].
    destruct (IH b1 pre1 (c ++ [x]) post1 Hl1 Hs1) as (b2 & pre2 & post2 & E2 & Hl2 & Hm2); [cbn in *; lia|].
    exists b2, pre2, post2. cbn [put_all]. rewrite E. cbn [res_bind]. rewrite <- app_assoc in Hl2. split_and!; [done|done|].
    by apply (moved_trans 0 0 _ b1).
Qed.

Lemma dp_put_all junk data : forall b pre c post,
  dlay b pre c post -> movable b -> allocated_ b + 64 * (1 + Z.of_nat (length data)) < UINT16_MAX ->
  exists b' pre' post', put_all (dp_packet_put junk) b data = Ok b' /\ dlay b' pre' (c ++ data) post' /\ carried b' = carried b.
Proof.
  induction data as [|x data IH]; intros b pre c post Hl Hs Ha.
  - exists b, pre, post. by rewrite app_nil_r.
  - destruct (dp_put_lay junk b pre c post [x] Hl) as (b1 & pre1 & post1 & E & Hl1 & _ & Hs1 & Ha1 & Hc1); [right; split; [done|cbn in *; lia]|].
    destruct (IH b1 pre1 (c ++ [x]) post1 Hl1 (Hs1 Hs)) as (b2 & pre2 & post2 & E2 & Hl2 & Hc2); [cbn in *; lia|].
    exists b2, pre2, post2. cbn [put_all]. rewrite E. cbn [res_bind]. rewrite <- app_assoc in Hl2. split_and!; [done|done|congruence].
Qed.

(** the bytes that [ofp_print_hex] prints are the bytes that [ofpbuf_put_hex] and
    [dp_packet_put_hex] append when they read the text, whatever follows it that is not a pair of digits;
    they report the number of bytes and stop at the first character that is not a blank. *)
Theorem hex_roundtrip junk b d data rest :
  wf_ofpbuf b -> ob_source b <> OFPBUF_STACK -> wf_dp d -> movable d -> Forall (in_u 8) data ->
  ob_allocated b + 64 * (1 + Z.of_nat (length data)) < 2 ^ 32 -> allocated_ d + 64 * (1 + Z.of_nat (length data)) < UINT16_MAX ->
  let text := (ofp_print_hex data " " +:+ rest)%string in
  (hexits_value (skip_chars ofpbuf_blanks rest) 2 = None ->
   exists b', ofpbuf_put_hex junk b text = Ok (skip_chars ofpbuf_blanks rest, Z.of_nat (length data), b') /\
     becomes b 0 b' (contents b ++ data)) /\
  (hexits_value (skip_chars dp_packet_blanks rest) 2 = None ->
   exists d', dp_packet_put_hex junk d text = Ok (skip_chars dp_packet_blanks rest, Z.of_nat (length data), d') /\
     dholds d d' (dcontents d ++ data)).
Proof.
  intros Hw Hs Hd Hm Hdata Ha Had text. pose proof (length_printed data 0 Hdata) as Hlen.
  assert (length data < S (String.length text))%nat as Hfuel by (unfold text, ofp_print_hex; rewrite string_app_length; lia).
  split; intros Hr.
  - destruct (wf_lay b Hw) as (pre & post & Hl). destruct (ofpbuf_put_all junk data b _ _ _ Hl Hs Ha) as (b' & pre' & post' & E & Hl' & Hmv).
    exists b'. split; [|by eapply lay_becomes]. unfold ofpbuf_put_hex. unfold text at 2, ofp_print_hex.
    rewrite put_hex_printed, E by (done || apply ofpbuf_blanks_ok). cbn [res_bind]. do 3 f_equal.
    destruct Hl as [_ _ Es _ _], Hl' as [_ _ Es' Ea' Eb']. rewrite Es, Es', length_app in *.
    rewrite wrap_small by (unfold in_u; lia). lia.
  - destruct (wf_dlay d Hd) as (pre & post & Hl & _). destruct (dp_put_all junk data d _ _ _ Hl Hm Had) as (d' & pre' & post' & E & Hl' & Hc).
    exists d'. pose proof (wf_dp_pad _ Hd) as Hpad.
    split; [|eapply dlay_holds; [done..|]; rewrite length_app, <- (Nat2Z.id (length (dcontents d))), <- (dl_size _ _ _ _ Hl); lia].
    unfold dp_packet_put_hex. unfold text at 2, ofp_print_hex.
    rewrite put_hex_printed, E by (done || apply dp_packet_blanks_ok). cbn [res_bind]. do 3 f_equal.
    destruct Hl as [_ _ _ Es _ _], Hl' as [_ _ _ Es' Ea' Eb']. rewrite Es, Es', length_app in *. autounfold with consts in *.
    rewrite wrap_small by (unfold in_u; lia). lia.
Qed.

Lemma hex_roundtrip_witness :
  exists b', ofpbuf_put_hex (fun _ => 0) small_buf "00 ff 10;" = Ok (";"%string, 3, b') /\ becomes small_buf 0 b' [1; 2; 3; 0; 255; 16].
Proof.
  destruct small_packet_wf as [Hw Hm].
  destruct (hex_roundtrip (fun _ => 0) small_buf small_packet [0; 255; 16] ";") as [H _];
    [split; cbn; lia|discriminate|exact Hw|exact Hm| |cbn; lia|cbn; autounfold with consts; lia|].
  - repeat constructor; lia.
  - apply H. reflexivity.
Defined.
