(* ===== verification/BpfControl.v ===== *)
(** * Control of the loaded programs (ofproto/ofproto.c, [handle_bpf_*], [handle_dump_map],
      [handle_delete_map])

    The state is the table of loaded machines with their compiled code (a list: the order in
    which a walk of the hash table meets them is not fixed, and no theorem uses it), and the maps
    by their addresses.  Handlers are sequences of
    early returns: an error leaves the state as it is at that point.  [slave] is the answer of
    [reject_slave_controller].  Log messages are left out. *)

From S2P Require Import Prelude Ebpf Memory Vm Interp ValidateInsts ValidateCfg RegState.
From S2P Require Import AluRange ValidateAccesses Helpers.
From S2P Require Import MapDef HashMap Maps Loader X86 Jit BpfProg.
From S2P Require Import OfpBuf OfpMsgs OfpBpf.

Definition OFPBPF_MAX : Z := 0xfffe.
Definition OFPBPF_ALL : Z := 0xffff.
#[export] Hint Unfold OFPBPF_MAX OFPBPF_ALL : consts.

Record ctl : Type := mk_ctl {
  ubpf_vms : list (ubpf_vm * option bytes);
  map_heap : gmap Z ubpf_map
}.

(** ** The table *)

Definition has_id (prog_id : Z) (e : ubpf_vm * option bytes) : bool := Vm.prog_id e.1 =? prog_id.

Definition ofproto_get_ubpf_vm (st : ctl) (prog_id : Z) : option ubpf_vm :=
  fst <$> (snd <$> list_find (fun e => has_id prog_id e) (ubpf_vms st)).

Definition ofproto_bpf_prog_exists (st : ctl) (prog_id : Z) : bool :=
  bool_decide (is_Some (ofproto_get_ubpf_vm st prog_id)).

Definition ubpf_vms_insert (st : ctl) (e : ubpf_vm * option bytes) : ctl := mk_ctl (e :: ubpf_vms st) (map_heap st).

(** [hmap_remove] of the machine that was found. *)
Definition ubpf_vms_remove (st : ctl) (prog_id : Z) : ctl :=
  match list_find (fun e => has_id prog_id e) (ubpf_vms st) with
  | Some (i, _) => mk_ctl (delete i (ubpf_vms st)) (map_heap st)
  | None => st
  end.

(** ** Results

    The state after the handler, and the reply if there is one. *)
Inductive outcome : Type :=
| Done (st : ctl) (reply : option bytes)
| Fails (st : ctl) (e : ofperr)
| Aborts
| Undefined.

(** A decoder or encoder in front of the rest of a handler. *)
Definition try_res {A} (st : ctl) (r : res failure A) (k : A -> outcome) : outcome :=
  match r with
  | Ok a => k a
  | Err (Error e) => Fails st e
  | Err Abort => Aborts
  | Undef => Undefined
  end.
Notation "'try!' x ':=' r 'at' st 'in' k" := (try_res st r (fun x => k))
  (at level 10, x strict pattern, r at level 100, st at level 0, k at level 200).

Definition reject_slave_controller (slave : bool) : res failure unit :=
  if slave then Err (Error OFPERR_OFPBRC_IS_SLAVE) else Ok tt.

(** Map number [i] of a machine: its address and itself; [None] outside the table or when
    there is no map. *)
Definition map_at (st : ctl) (vm : ubpf_vm) (i : Z) : option (Z * ubpf_map) :=
  a ← ext_maps vm !! Z.to_nat i; m ← map_heap st !! a; Some (a, m).

Definition put_map (st : ctl) (a : Z) (m : ubpf_map) : ctl := mk_ctl (ubpf_vms st) (<[a := m]> (map_heap st)).

Section Handlers.
Context (junk : nat -> Z) (raw_infos : list raw_info) (raw_of : bpf_msg -> Z).
Context (slave : bool).

(** ** Loading and unloading *)

(** What a load takes from the process: see [load_bpf_prog]. *)
Record load_env : Type := mk_load_env {
  le_impls : helper_impls;
  le_indet : walk -> Z;
  le_now : Z;
  le_fresh : nat -> Z;
  le_str_addr : Z;
  le_spare : bytes;
  le_addrs : jit_addrs;
  le_mmap_ok : bool;
  le_mprotect_ok : bool
}.

(** [ubpf_destroy] frees the machine but not its maps. *)
Definition handle_bpf_load_prog (le : load_env) (oh : bytes) (st : ctl) : outcome :=
  try! _ := reject_slave_controller slave at st in
  try! (msg, elf_file) := ofputil_decode_bpf_load_prog raw_infos raw_of oh at st in
  if OFPBPF_MAX <? load_prog_id msg then Fails st OFPERR_OFPBRC_EPERM
  else if ofproto_bpf_prog_exists st (load_prog_id msg) then Fails st OFPERR_OFPBRC_EPERM
  else
    let vm := create_ubpf_vm (le_impls le) (load_prog_id msg) in
    let elf := take (Z.to_nat (load_file_len msg)) elf_file in
    match load_bpf_prog true (le_indet le) (le_now le) (le_fresh le) (le_str_addr le) (le_spare le) (le_addrs le)
            (le_mmap_ok le) (le_mprotect_ok le) vm None (map_heap st) elf with
    | Ok (loaded, ls, jitted) =>
        let st1 := mk_ctl (ubpf_vms st) (l_maps ls) in
        if loaded then Done (ubpf_vms_insert st1 (l_vm ls, jitted)) None
        else Fails st1 OFPERR_OFPBRC_EPERM
    | Err _ => Aborts
    | Undef => Undefined
    end.

Definition handle_bpf_unload_prog (oh : bytes) (st : ctl) : outcome :=
  try! _ := reject_slave_controller slave at st in
  try! msg := ofputil_decode_bpf_unload_prog raw_infos raw_of oh at st in
  match ofproto_get_ubpf_vm st (unload_prog msg) with
  | None => Fails st OFPERR_OFPBRC_EPERM
  | Some vm => Done (ubpf_vms_remove st (unload_prog msg)) None
  end.

(** ** Showing *)

(** A pointer into a buffer: stale once the buffer was reallocated. *)
Definition write_ptr (b : ofpbuf) (p : nat * Z) (bs : bytes) : res failure ofpbuf :=
  if (p.1 =? ob_block b)%nat then lift (store b p.2 bs) else Undef.

Definition put_bpf_show_prog_info (b : ofpbuf) (vm : ubpf_vm) : res failure ofpbuf :=
  let! (info, b) := lift (ofpbuf_put_zeros junk b 16) in
  lift (store b info (be_bytes 2 (u16 (Vm.prog_id vm)) ++ be_bytes 2 (u16 (nb_maps vm)) ++ be_bytes 4 0 ++
                      be_bytes 8 (u64 (loaded_at vm)))).

Fixpoint put_infos (vms : list (ubpf_vm * option bytes)) (b : ofpbuf) : res failure ofpbuf :=
  match vms with
  | [] => Ok b
  | e :: vms' => let! b := put_bpf_show_prog_info b e.1 in put_infos vms' b
  end.

(** The length field of the reply is set when it is sent. *)
Definition handle_bpf_show_prog (oh : bytes) (st : ctl) : outcome :=
  try! _ := reject_slave_controller slave at st in
  try! msg := ofputil_decode_bpf_show_prog_request raw_infos raw_of oh at st in
  try! buf := ofpraw_alloc_reply junk raw_infos (raw_of BPF_SHOW_PROG_REPLY) oh 0 at st in
  try! (_, buf) := lift (ofpbuf_put_zeros junk buf 4) at st in
  try! body := res_of (ob_msg buf) at st in
  let reply := (ob_block buf, body) in
  let send (r : res failure ofpbuf) (n : Z) :=
    try! buf := r at st in
    try! buf := write_ptr buf reply (be_bytes 2 (u16 n)) at st in
    try! buf := ofpmsg_update_length buf at st in
    try! bs := res_of (peek (ob_mem buf) (ob_data buf) (ob_size buf)) at st in
    Done st (Some bs) in
  if negb (show_prog_id msg =? OFPBPF_ALL) then
    match ofproto_get_ubpf_vm st (show_prog_id msg) with
    | None => Fails st OFPERR_OFPBRC_EPERM
    | Some vm => send (put_bpf_show_prog_info buf vm) 1
    end
  else send (put_infos (ubpf_vms st) buf) (Z.of_nat (length (ubpf_vms st))).

(** ** Maps *)

(** The loop over the entries of an update, [i] iterations done and [n] left; [data] is the
    memory from the cursor on.  The counter is an [int]: its increment overflows at the end of its range. *)
Fixpoint update_entries (n : nat) (i : Z) (key_size value_size a : Z) (data : bytes) (st : ctl) : outcome :=
  match n with
  | O => Done st None
  | S n' =>
      match map_heap st !! a with
      | None => Undefined
      | Some m =>
          match ubpf_map_update (Some m) (Some data) (Some (drop (Z.to_nat key_size) data)) with
          | None => Undefined
          | Some (r, m') =>
              let st' := put_map st a (default m m') in
              if r <? 0 then Fails st' OFPERR_OFPBRC_EPERM
              else if i =? 2 ^ 31 - 1 then Undefined
              else update_entries n' (i + 1) key_size value_size a (drop (Z.to_nat (key_size + value_size)) data) st'
          end
      end
  end.

Definition handle_bpf_update_map (oh : bytes) (st : ctl) : outcome :=
  try! _ := reject_slave_controller slave at st in
  try! (msg, data) := ofputil_decode_bpf_update_map raw_infos raw_of oh at st in
  match ofproto_get_ubpf_vm st (update_prog_id msg) with
  | None => Fails st OFPERR_OFPBRC_EPERM
  | Some vm =>
      if nb_maps vm <=? update_map_id msg then Fails st OFPERR_OFPBRC_EPERM
      else
        match map_at st vm (update_map_id msg) with
        | None => Undefined
        | Some (a, m) =>
            if negb (update_key_size msg =? m_key_size m) then Fails st OFPERR_OFPBRC_EPERM
            else if negb (update_value_size msg =? m_value_size m) then Fails st OFPERR_OFPBRC_EPERM
            else update_entries (Z.to_nat (update_nb_elems msg)) 0 (update_key_size msg) (update_value_size msg) a data st
        end
  end.

(** [maps[i]], in the order of the host. *)
Definition map_id (maps : bytes) (i : nat) : option Z := le_value <$> read_bytes (drop (2 * i) maps) 2.

(** The first loop: the maps of the request, or an error. *)
Fixpoint collect_maps (n : nat) (i : nat) (maps : bytes) (vm : ubpf_vm) (st : ctl) : res failure (list (Z * ubpf_map)) :=
  match n with
  | O => Ok []
  | S n' =>
      let! id := res_of (map_id maps i) in
      if nb_maps vm <=? id then Err (Error OFPERR_OFPBRC_EPERM)
      else
        let! (_, m) := res_of (map_at st vm id) in
        match map_size (ops m), map_dump (ops m) with
        | None, _ => Err (Error OFPERR_OFPBRC_EPERM)
        | _, None => Err (Error OFPERR_OFPBRC_EPERM)
        | Some _, Some _ => let! rest := collect_maps n' (S i) maps vm st in Ok ((id, m) :: rest)
        end
  end.

(** The second loop, for one map: the memory is allocated from the size, then the entries are
    written into it. *)
Definition dump_one (e : Z * ubpf_map) : res failure dumped :=
  let '(id, m) := e in
  match map_size (ops m), map_dump (ops m) with
  | Some size, Some dump =>
      let! n := res_of (size m) in
      let! (bs, nb) := res_of (dump m) in
      let map_data_size := u32 (n * u32 (m_key_size m + m_value_size m) + 16) in
      if 16 + Z.of_nat (length bs) <=? map_data_size
      then Ok (mk_dumped id [junk 2; junk 3] (m_key_size m) (m_value_size m) nb bs)
      else Undef
  | _, _ => Undef
  end.

Fixpoint dump_all (es : list (Z * ubpf_map)) : res failure (list dumped) :=
  match es with
  | [] => Ok []
  | e :: es' => let! d := dump_one e in let! ds := dump_all es' in Ok (d :: ds)
  end.

Definition handle_dump_map (oh : bytes) (st : ctl) : outcome :=
  try! _ := reject_slave_controller slave at st in
  try! (msg, maps) := ofputil_decode_bpf_dump_map_request raw_infos raw_of oh at st in
  match ofproto_get_ubpf_vm st (dump_prog msg) with
  | None => Fails st OFPERR_OFPBRC_EPERM
  | Some vm =>
      if dump_nb_maps msg <=? 0 then Fails st OFPERR_OFPBRC_EPERM
      else
        try! es := collect_maps (Z.to_nat (dump_nb_maps msg)) 0 maps vm st at st in
        try! ds := dump_all es at st in
        try! buf := ofputil_encode_bpf_dump_map_reply junk raw_infos raw_of msg oh ds at st in
        try! bs := res_of (peek (ob_mem buf) (ob_data buf) (ob_size buf)) at st in
        Done st (Some bs)
  end.

(** The loop over the keys of a deletion; the status of each is only logged. *)
Fixpoint delete_keys (n : nat) (i : Z) (key_size a : Z) (keys : bytes) (st : ctl) : outcome :=
  match n with
  | O => Done st None
  | S n' =>
      match map_heap st !! a with
      | None => Undefined
      | Some m =>
          match map_delete (ops m) with
          | None => Undefined
          | Some f =>
              match f m keys with
              | None => Undefined
              | Some (_, m') =>
                  if i =? 2 ^ 31 - 1 then Undefined
                  else delete_keys n' (i + 1) key_size a (drop (Z.to_nat key_size) keys) (put_map st a m')
              end
          end
      end
  end.

Definition handle_delete_map (oh : bytes) (st : ctl) : outcome :=
  try! _ := reject_slave_controller slave at st in
  try! (msg, keys) := ofputil_decode_bpf_delete_map raw_infos raw_of oh at st in
  match ofproto_get_ubpf_vm st (delete_prog msg) with
  | None => Fails st OFPERR_OFPBRC_EPERM
  | Some vm =>
      if nb_maps vm <=? delete_map msg then Fails st OFPERR_OFPBRC_EPERM
      else if delete_nb_elems msg <=? 0 then Fails st OFPERR_OFPBRC_EPERM
      else
        match ext_map_names vm !! Z.to_nat (delete_map msg) with
        | None => Undefined
        | Some None => Fails st OFPERR_OFPBRC_EPERM
        | Some (Some name) =>
            let a := ubpf_lookup_registered_map vm name in
            if a =? 0 then Fails st OFPERR_OFPBRC_EPERM
            else delete_keys (Z.to_nat (delete_nb_elems msg)) 0 (delete_key_size msg) a keys st
        end
  end.

(** ** Dispatch

    The type of the message selects the handler; [None] is a message of another type, which is not
    for these handlers. *)
Definition handle_bpf_message (le : load_env) (oh : bytes) (st : ctl) : option outcome :=
  match ofpraw_decode raw_infos oh with
  | Ok raw =>
      if raw =? raw_of BPF_LOAD_PROG then Some (handle_bpf_load_prog le oh st)
      else if raw =? raw_of BPF_UNLOAD_PROG then Some (handle_bpf_unload_prog oh st)
      else if raw =? raw_of BPF_SHOW_PROG_REQUEST then Some (handle_bpf_show_prog oh st)
      else if raw =? raw_of BPF_UPDATE_MAP then Some (handle_bpf_update_map oh st)
      else if raw =? raw_of BPF_DUMP_MAP_REQUEST then Some (handle_dump_map oh st)
      else if raw =? raw_of BPF_DELETE_MAP then Some (handle_delete_map oh st)
      else None
  | Err (Error e) => Some (Fails st e)
  | Err Abort => Some Aborts
  | Undef => Some Undefined
  end.

End Handlers.
