(* ===== verification/BpfControlProps.v ===== *)
(** * Invariants of the control of programs

    The states that sequences of requests can reach are well formed; [handles] is the step from
    one state to the next, whatever the answer to the request. *)

From S2P Require Import Prelude Ebpf Memory Vm Interp ValidateInsts ValidateCfg RegState.
From S2P Require Import AluRange ValidateAccesses Helpers.
From S2P Require Import AccessSound MapDef HashMap Maps Loader LoaderProps LoaderInv X86.
From S2P Require Import JitEnc Jit JitEmit JitAsm JitCode BpfProg.
From S2P Require Import OfpBuf OfpBufProps OfpMsgs OfpMsgsProps OfpBpf OfpBpfProps BpfControl.

(** ** Well-formed states *)

(** The code is the compilation of the program of the machine. *)
Definition compiled (vm : ubpf_vm) (prog : list ebpf_inst) (code : bytes) : Prop :=
  exists ad, alen (program vm ad prog) <= 65536 /\ code = final_code (loc vm ad prog) 0 (listing (program vm ad prog)).

Definition live (heap : gmap Z ubpf_map) (a : Z) : Prop := a <> 0 /\ exists m, heap !! a = Some m /\ kinded m.

Record entry_ok (heap : gmap Z ubpf_map) (e : ubpf_vm * option bytes) : Prop := {
  eo_wf : wf_vm e.1;
  eo_id : 0 <= Vm.prog_id e.1 <= OFPBPF_MAX;
  eo_prog : exists prog code, loaded e.1 prog /\ e.2 = Some code /\ compiled e.1 prog code;
  eo_maps : Forall (live heap) (registered e.1)
}.

Definition ids (st : ctl) : list Z := (fun e => Vm.prog_id e.1) <$> ubpf_vms st.
Definition addresses (st : ctl) : list Z := ubpf_vms st ≫= (fun e => registered e.1).

(** No two programs share an identifier or a map. *)
Record wf_ctl (st : ctl) : Prop := {
  wc_ids : NoDup (ids st);
  wc_entries : Forall (entry_ok (map_heap st)) (ubpf_vms st);
  wc_addresses : NoDup (addresses st)
}.

Lemma wf_ctl_empty heap : wf_ctl (mk_ctl [] heap).
Proof. split; constructor. Qed.

(** ** Outcomes *)

Definition state_after (o : outcome) : option ctl :=
  match o with Done st _ | Fails st _ => Some st | Aborts | Undefined => None end.

Lemma try_res_state {A} st (r : res failure A) k st' :
  state_after (try_res st r k) = Some st' -> st' = st \/ exists a, r = Ok a /\ state_after (k a) = Some st'.
Proof. destruct r as [a|[e|]|]; cbn; [eauto|by intros [= <-]; left|done|done]. Qed.

(** Follows a handler through its early returns; what is left are the calls that change the state. *)
Ltac walk_handler H :=
  repeat match type of H with
  | state_after (try_res _ _ _) = _ => apply try_res_state in H as [->|(? & ? & H)]; [try reflexivity|]
  | state_after (match ?x with _ => _ end) = _ => destruct x eqn:?
  | state_after (Done _ _) = _ => injection H as <-; try reflexivity
  | state_after (Fails _ _) = _ => injection H as <-; try reflexivity
  | state_after _ = _ => discriminate H
  end.

(** ** Decoded data is part of the message *)

Lemma lift_Ok {A} (r : res unit A) a : lift r = Ok a -> r = Ok a.
Proof. destruct r as [x|[]|]; cbn; [by intros [= ->]|done|done]. Qed.

Section Decode.
Context (raw_infos : list raw_info) (raw_of : bpf_msg -> Z).

Lemma ofpbuf_pull_mem b n p b' : ofpbuf_pull b n = Ok (p, b') -> ob_mem b' = ob_mem b.
Proof. unfold ofpbuf_pull. case_match; [|done]. by intros [= _ <-]. Qed.

(** Opens a successful computation and keeps what it says of the memory. *)
Ltac mem_inv :=
  repeat progress (res_inv; subst; simplify_eq;
    repeat match goal with H : lift _ = Ok _ |- _ => apply lift_Ok in H end);
  repeat match goal with
  | H : ofpbuf_pull _ _ = Ok _ |- _ => apply ofpbuf_pull_mem in H
  end.

Lemma ofpraw_pull_mem msg raw b : ofpraw_pull_assert raw_infos msg = Ok (raw, b) -> ob_mem b = ob_mem msg.
Proof.
  unfold ofpraw_pull_assert. destruct (ofpraw_pull raw_infos msg) as [x|[]|] eqn:E; try done. intros [= ->]. revert E.
  unfold ofpraw_pull. intros E. mem_inv. done.
Qed.

Lemma pull_struct_mem {A} `{Struct A} m oh (s : A) b : pull_struct raw_infos raw_of m oh = Ok (s, b) -> ob_mem b = oh.
Proof.
  unfold pull_struct. intros E. mem_inv.
  match goal with H : ofpraw_pull_assert _ _ = _ |- _ => apply ofpraw_pull_mem in H end.
  unfold ofpbuf_const_initializer in *. cbn [ob_mem] in *. congruence.
Qed.

Lemma pull_data_suffix b n d : pull_data b n = Ok d -> exists k, d = drop k (ob_mem b).
Proof. unfold pull_data, ofpbuf_try_pull. intros E. mem_inv.
  match goal with H : ob_mem _ = ob_mem _ |- _ => rewrite H end. eauto.
Qed.

Lemma decode_load_suffix oh msg elf : ofputil_decode_bpf_load_prog raw_infos raw_of oh = Ok (msg, elf) -> exists k, elf = drop k oh.
Proof.
  unfold ofputil_decode_bpf_load_prog. intros E. mem_inv.
  match goal with H : pull_struct _ _ _ _ = _ |- _ => apply pull_struct_mem in H as <- end. by eapply pull_data_suffix.
Qed.

Lemma be_field_nonneg oh off n x : wf_bytes oh -> be_field oh off n = Some x -> 0 <= x.
Proof.
  intros Hw. unfold be_field, peek. case_match; [|done]. cbn. intros [= <-]. apply le_value_nonneg.
  apply Forall_rev. by apply Forall_take, Forall_drop.
Qed.

Lemma decode_load_id oh msg elf :
  wf_bytes oh -> ofputil_decode_bpf_load_prog raw_infos raw_of oh = Ok (msg, elf) -> 0 <= load_prog_id msg.
Proof.
  intros Hw. unfold ofputil_decode_bpf_load_prog, pull_struct, of_wire, load_struct. intros E. mem_inv.
  match goal with H : _ ≫= _ = Some msg |- _ => rename H into Hm end.
  apply bind_Some in Hm as (p & Hp & Hm). apply bind_Some in Hm as (l & _ & [= <-]).
  eapply be_field_nonneg, Hp. by apply Forall_drop.
Qed.

End Decode.

(** ** Changes of the maps *)

Record same_programs (st st' : ctl) : Prop := {
  sp_vms : ubpf_vms st' = ubpf_vms st;
  sp_live : forall a, live (map_heap st) a -> live (map_heap st') a
}.

#[export] Instance same_programs_preorder : PreOrder same_programs.
Proof.
  split; [by split|]. intros a b c [H1 H2] [H3 H4]. split; [congruence|auto].
Qed.

Lemma wf_ctl_same st st' : same_programs st st' -> wf_ctl st -> wf_ctl st'.
Proof.
  intros [Hv Hl] [H1 H2 H3]. split; unfold ids, addresses; rewrite Hv; try done.
  eapply Forall_impl; [exact H2|]. intros e [E1 E2 E3 E4]. split; try done. by eapply Forall_impl.
Qed.

Lemma put_map_same st a m m' :
  map_heap st !! a = Some m -> (kinded m -> kinded m') -> same_programs st (put_map st a m').
Proof.
  intros Ha Hk. split; [done|]. intros b (H0 & mb & Hb & Hkb). split; [done|]. cbn [map_heap put_map].
  destruct (decide (b = a)) as [->|Hne]; [rewrite lookup_insert_eq|rewrite lookup_insert_ne by done; eauto].
  exists m'. split; [done|]. apply Hk. congruence.
Qed.

Lemma update_entries_same n i ks vs a data st st' :
  state_after (update_entries n i ks vs a data st) = Some st' -> same_programs st st'.
Proof.
  revert i data st. induction n as [|n IH]; intros i data st; cbn [update_entries]; [by intros [= <-]|].
  destruct (map_heap st !! a) as [m|] eqn:Ha; [|done].
  destruct (ubpf_map_update _ _ _) as [[r m']|] eqn:Hu; [|done].
  assert (same_programs st (put_map st a (default m m'))) as Hs.
  { eapply put_map_same; [done|]. intros Hk. by destruct (map_update_kinded _ _ _ _ _ Hk Hu) as (m1 & -> & Hm1). }
  case_match; [by intros [= <-]|]. case_match; [done|]. intros Hn%IH. by etrans.
Qed.

Lemma delete_keys_same n i ks a keys st st' :
  state_after (delete_keys n i ks a keys st) = Some st' -> same_programs st st'.
Proof.
  revert i keys st. induction n as [|n IH]; intros i keys st; cbn [delete_keys]; [by intros [= <-]|].
  destruct (map_heap st !! a) as [m|] eqn:Ha; [|done]. destruct (map_delete (ops m)) as [f|] eqn:Hf; [|done].
  destruct (f m keys) as [[r m']|] eqn:Hd; [|done]. case_match; [done|]. intros Hn%IH. etrans; [|exact Hn].
  eapply put_map_same; [done|]. intros Hk. by eapply map_delete_kinded.
Qed.

Section Same.
Context (junk : nat -> Z) (raw_infos : list raw_info) (raw_of : bpf_msg -> Z) (slave : bool) (oh : bytes) (st : ctl).

Lemma show_state st' : state_after (handle_bpf_show_prog junk raw_infos raw_of slave oh st) = Some st' -> st' = st.
Proof. unfold handle_bpf_show_prog. intros H. walk_handler H. Qed.

Lemma dump_state st' : state_after (handle_dump_map junk raw_infos raw_of slave oh st) = Some st' -> st' = st.
Proof. unfold handle_dump_map. intros H. walk_handler H. Qed.

Lemma update_state st' : state_after (handle_bpf_update_map raw_infos raw_of slave oh st) = Some st' -> same_programs st st'.
Proof. unfold handle_bpf_update_map. intros H. walk_handler H. by eapply update_entries_same. Qed.

Lemma delete_state st' : state_after (handle_delete_map raw_infos raw_of slave oh st) = Some st' -> same_programs st st'.
Proof. unfold handle_delete_map. intros H. walk_handler H. by eapply delete_keys_same. Qed.

End Same.

(** ** The table as a map from identifiers *)

Definition row (e : ubpf_vm * option bytes) : Z * ubpf_vm := (Vm.prog_id e.1, e.1).
Definition programs (st : ctl) : gmap Z ubpf_vm := list_to_map (row <$> ubpf_vms st).

Lemma ids_rows st : ids st = (row <$> ubpf_vms st).*1.
Proof. unfold ids. rewrite <- list_fmap_compose. done. Qed.

Lemma get_programs st id : ofproto_get_ubpf_vm st id = programs st !! id.
Proof.
  unfold ofproto_get_ubpf_vm, programs. induction (ubpf_vms st) as [|e vms IH]; [done|]. cbn [list_find fmap list_fmap].
  unfold row at 1. rewrite list_to_map_cons. unfold has_id at 1. case_decide as Hd.
  - apply Is_true_true, Z.eqb_eq in Hd as <-. by rewrite lookup_insert_eq.
  - rewrite lookup_insert_ne by (intros E; apply Hd, Is_true_true, Z.eqb_eq, E). rewrite <- IH.
    by destruct (list_find _ vms) as [[]|].
Qed.

Lemma exists_programs st id : ofproto_bpf_prog_exists st id = false <-> programs st !! id = None.
Proof. unfold ofproto_bpf_prog_exists. rewrite get_programs, bool_decide_eq_false. symmetry. apply eq_None_not_Some. Qed.

Lemma programs_None st id : programs st !! id = None <-> id ∉ ids st.
Proof. rewrite ids_rows. symmetry. apply not_elem_of_list_to_map. Qed.

(** Removal, up to the order of the table. *)
Lemma remove_spec st id :
  match ofproto_get_ubpf_vm st id with
  | None => ubpf_vms_remove st id = st
  | Some vm => exists e, e.1 = vm /\ Vm.prog_id vm = id /\ ubpf_vms st ≡ₚ e :: ubpf_vms (ubpf_vms_remove st id) /\
      map_heap (ubpf_vms_remove st id) = map_heap st
  end.
Proof.
  unfold ofproto_get_ubpf_vm, ubpf_vms_remove. destruct (list_find _ _) as [[i e]|] eqn:E; [|done]. cbn.
  apply list_find_Some in E as (Hi & Hd & _). exists e. split_and!; try done.
  - by apply Is_true_true, Z.eqb_eq in Hd.
  - by apply delete_Permutation.
Qed.

Lemma programs_remove st id : wf_ctl st -> is_Some (ofproto_get_ubpf_vm st id) -> programs (ubpf_vms_remove st id) = delete id (programs st).
Proof.
  intros [Hn _ _] [vm Hg]. pose proof (remove_spec st id) as H. rewrite Hg in H. destruct H as (e & <- & <- & Hp & _).
  rewrite ids_rows in Hn. apply (fmap_Permutation row) in Hp. unfold programs.
  rewrite (list_to_map_proper _ _ Hn Hp). rewrite fmap_cons. change (row e) with (Vm.prog_id e.1, e.1). rewrite list_to_map_cons, delete_insert_id; [done|].
  apply not_elem_of_list_to_map_1. rewrite Hp in Hn. cbn [fmap list_fmap] in Hn. by apply NoDup_cons in Hn as [? _].
Qed.

Lemma wf_ctl_remove st id : wf_ctl st -> wf_ctl (ubpf_vms_remove st id).
Proof.
  intros Hw. pose proof (remove_spec st id) as H. destruct (ofproto_get_ubpf_vm st id) as [vm|]; [|by rewrite H].
  destruct H as (e & _ & _ & Hp & Hh). destruct Hw as [H1 H2 H3]. unfold ids, addresses in *.
  rewrite Hp in H1, H2, H3. cbn in *. apply NoDup_cons in H1 as [_ H1]. apply Forall_cons in H2 as [_ H2].
  apply NoDup_app in H3 as (_ & _ & H3). split; [done| |done]. by rewrite Hh.
Qed.

(** ** Loading *)

(** Addresses that the allocator returns are new, for as many maps as a program can have. *)
Record fresh_ok (fresh : nat -> Z) (heap : gmap Z ubpf_map) : Prop := {
  fr_nonzero : forall k, fresh k <> 0;
  fr_unused : forall k, heap !! fresh k = None;
  fr_inj : forall j k, Z.of_nat j < MAX_EXT_MAPS -> Z.of_nat k < MAX_EXT_MAPS -> fresh j = fresh k -> j = k
}.

Lemma create_vm_start impls id :
  wf_vm (create_ubpf_vm impls id) /\ Vm.prog_id (create_ubpf_vm impls id) = id /\ nb_maps (create_ubpf_vm impls id) = 0.
Proof. split_and!; [|reflexivity|reflexivity]. apply register_functions_wf, wf_ubpf_create. Qed.

Lemma load_bpf_prog_elf verifier indet now fresh str_addr spare ad mm mp vm j maps elf b ls j' :
  load_bpf_prog verifier indet now fresh str_addr spare ad mm mp vm j maps elf = Ok (b, ls, j') ->
  exists r e, ubpf_load_elf verifier indet now fresh str_addr spare vm maps elf = Ok (r, e, ls).
Proof. unfold load_bpf_prog. intros H. repeat case_match; simplify_eq; eauto. Qed.

Lemma lmaps_same fresh id st ls :
  fresh_ok fresh (map_heap st) -> lmaps fresh (map_heap st) id ls -> same_programs st (mk_ctl (ubpf_vms st) (l_maps ls)).
Proof.
  intros [_ Hu _] Hl. split; [done|]. intros a (H0 & m & Hm & Hk). split; [done|]. exists m. split; [|done].
  cbn [map_heap]. rewrite (lm_kept _ _ _ _ Hl); [done|]. intros k ->. by rewrite Hu in Hm.
Qed.

Lemma lmaps_live fresh id st ls :
  fresh_ok fresh (map_heap st) -> lmaps fresh (map_heap st) id ls -> Forall (live (l_maps ls)) (registered (l_vm ls)).
Proof.
  intros [H0 _ _] Hl. rewrite (lm_registered _ _ _ _ Hl). apply Forall_fmap, Forall_forall. intros k Hk%elem_of_seq. cbn.
  split; [apply H0|]. apply (lm_created _ _ _ _ Hl). lia.
Qed.

Lemma lmaps_next fresh heap id ls : lmaps fresh heap id ls -> Z.of_nat (l_next ls) <= MAX_EXT_MAPS.
Proof.
  intros Hl. pose proof (f_equal length (lm_registered _ _ _ _ Hl)) as H. pose proof (wf_nb_maps _ (lm_wf _ _ _ _ Hl)).
  unfold registered in H. rewrite length_take, length_fmap, length_seq in H. lia.
Qed.

Lemma wf_ctl_insert fresh id st ls code :
  wf_ctl st -> fresh_ok fresh (map_heap st) -> lmaps fresh (map_heap st) id ls -> 0 <= id <= OFPBPF_MAX ->
  programs st !! id = None -> (exists prog, loaded (l_vm ls) prog /\ compiled (l_vm ls) prog code) ->
  wf_ctl (ubpf_vms_insert (mk_ctl (ubpf_vms st) (l_maps ls)) (l_vm ls, Some code)).
Proof.
  intros Hw Hf Hl Hid Hnone (prog & Hp & Hc). pose proof (wf_ctl_same _ _ (lmaps_same _ _ _ _ Hf Hl) Hw) as [H1 H2 H3].
  pose proof (lm_id _ _ _ _ Hl) as Hi. split; cbn.
  - apply NoDup_cons. split; [|done]. rewrite Hi. by apply programs_None.
  - constructor; [|done]. split; cbn [fst snd]; [apply Hl|by rewrite Hi|by exists prog, code|by eapply lmaps_live].
  - apply NoDup_app. split_and!; [| |done].
    + pose proof (lmaps_next _ _ _ _ Hl). rewrite (lm_registered _ _ _ _ Hl). apply NoDup_fmap_2_strong; [|apply NoDup_seq].
      intros j k Hj%elem_of_seq Hk%elem_of_seq. apply Hf; lia.
    + rewrite (lm_registered _ _ _ _ Hl). intros a (k & -> & _)%list_elem_of_fmap (e & Ha & He)%list_elem_of_bind.
      pose proof (wc_entries _ Hw) as Hen. rewrite Forall_forall in Hen. pose proof (eo_maps _ _ (Hen e He)) as Hm.
      rewrite Forall_forall in Hm. destruct (Hm _ Ha) as (_ & m & Hm' & _). by rewrite (fr_unused _ _ Hf) in Hm'.
Qed.

Section Programs.
Context (junk : nat -> Z) (raw_infos : list raw_info) (raw_of : bpf_msg -> Z).

(** What the handler of a load does, in every case. *)
Definition load_spec (slave : bool) (le : load_env) (oh : bytes) (st : ctl) (o : outcome) : Prop :=
  let decoded := ofputil_decode_bpf_load_prog raw_infos raw_of oh in
  let load msg elf :=
    ubpf_load_elf true (le_indet le) (le_now le) (le_fresh le) (le_str_addr le) (le_spare le)
      (create_ubpf_vm (le_impls le) (load_prog_id msg)) (map_heap st) (take (Z.to_nat (load_file_len msg)) elf) in
  match o with
  | Done st' reply =>
      reply = None /\ slave = false /\
      exists msg elf vm, decoded = Ok (msg, elf) /\ 0 <= load_prog_id msg <= OFPBPF_MAX /\
        programs st !! load_prog_id msg = None /\ Vm.prog_id vm = load_prog_id msg /\ (exists prog, loaded vm prog) /\
        programs st' = <[load_prog_id msg := vm]> (programs st) /\ map_heap st ⊆ map_heap st'
  | Fails st' _ => ubpf_vms st' = ubpf_vms st /\ map_heap st ⊆ map_heap st'
  | Aborts => decoded = Err Abort \/
      exists msg elf e ls prog, decoded = Ok (msg, elf) /\ load msg elf = Ok (0, e, ls) /\ loaded (l_vm ls) prog /\
        65536 < alen (program (l_vm ls) (le_addrs le) prog)
  | Undefined => decoded = Undef \/ exists msg elf, decoded = Ok (msg, elf) /\ load msg elf = Undef
  end.

Lemma lmaps_subset fresh heap id ls : fresh_ok fresh heap -> lmaps fresh heap id ls -> heap ⊆ l_maps ls.
Proof.
  intros [_ Hu _] Hl. apply map_subseteq_spec. intros a m Ha. rewrite (lm_kept _ _ _ _ Hl); [done|].
  intros k ->. by rewrite Hu in Ha.
Qed.

Lemma handle_load_spec slave le oh st :
  wf_ctl st -> wf_bytes oh -> fresh_ok (le_fresh le) (map_heap st) ->
  let o := handle_bpf_load_prog raw_infos raw_of slave le oh st in
  load_spec slave le oh st o /\ (forall st', state_after o = Some st' -> wf_ctl st').
Proof.
  intros Hw Hoh Hf o. unfold o, handle_bpf_load_prog, load_spec.
  assert (forall e, (ubpf_vms st = ubpf_vms st /\ map_heap st ⊆ map_heap st) /\ forall st', state_after (Fails st e) = Some st' -> wf_ctl st')
    as Hstay by (intros e; split; [done|by intros st' [= <-]]).
  destruct slave; [apply Hstay|]. cbn [reject_slave_controller try_res].
  destruct (ofputil_decode_bpf_load_prog raw_infos raw_of oh) as [[msg elf]|[e|]|] eqn:Ed; cbn [try_res];
    [|apply Hstay|split; [by left|done]|split; [by left|done]].
  destruct (Z.ltb_spec OFPBPF_MAX (load_prog_id msg)); [apply Hstay|].
  destruct (ofproto_bpf_prog_exists _ _) eqn:He; [apply Hstay|]. apply exists_programs in He.
  pose proof (decode_load_id _ _ _ _ _ Hoh Ed) as Hid. destruct (decode_load_suffix _ _ _ _ _ Ed) as [n Hn].
  destruct (create_vm_start (le_impls le) (load_prog_id msg)) as (Hv1 & Hv2 & Hv3).
  set (f := take _ elf). assert (wf_bytes f) as Hfb by (unfold f; rewrite Hn; by apply Forall_take, Forall_drop).
  pose proof (load_bpf_prog_spec (le_indet le) (le_now le) (le_fresh le) (le_str_addr le) (le_spare le) (le_addrs le)
    (le_mmap_ok le) (le_mprotect_ok le) (create_ubpf_vm (le_impls le) (load_prog_id msg)) (map_heap st) f Hfb) as Hs.
  destruct (load_bpf_prog _ _ _ _ _ _ _ _ _ _ _ _ _) as [[[b ls] j]|x|] eqn:El.
  - apply load_bpf_prog_elf in El as (r & e & El). apply (load_elf_maps _ _ _ _ _ _ _ _ _ _ _ _ Hv1 Hv3) in El as Hl.
    rewrite Hv2 in Hl. pose proof (lmaps_subset _ _ _ _ Hf Hl) as Hsub. destruct b.
    + destruct Hs as (prog & Hp & Hal & ->). split.
      * split; [done|]. split; [done|]. exists msg, elf, (l_vm ls). pose proof (lm_id _ _ _ _ Hl) as Hi. split_and!; try done; [eauto|].
        unfold programs at 1. cbn [ubpf_vms ubpf_vms_insert]. rewrite fmap_cons. unfold row at 1. cbn [fst]. rewrite list_to_map_cons, Hi. done.
      * intros st' [= <-]. eapply wf_ctl_insert; try done. exists prog. split; [done|]. by eexists.
    + split; [done|]. intros st' [= <-]. eapply wf_ctl_same, Hw. by eapply lmaps_same.
  - destruct Hs as (e & ls & prog & H1 & H2 & H3). split; [|done]. right. by exists msg, elf, e, ls, prog.
  - split; [|done]. right. by exists msg, elf.
Qed.

(** ** Sequences of requests *)

(** The table, seen from outside: a program that was verified appears under an unused
    identifier, a program goes, or nothing changes. *)
Inductive table_step (P : gmap Z ubpf_vm) : gmap Z ubpf_vm -> Prop :=
| table_load vm prog : 0 <= Vm.prog_id vm <= OFPBPF_MAX -> P !! Vm.prog_id vm = None -> loaded vm prog ->
    table_step P (<[Vm.prog_id vm := vm]> P)
| table_unload id : is_Some (P !! id) -> table_step P (delete id P)
| table_stay : table_step P P.

(** One message to one of the handlers, whatever the answer; the process goes on. *)
Inductive handles (st : ctl) : ctl -> Prop :=
| handles_message slave le oh o st' :
    wf_bytes oh -> fresh_ok (le_fresh le) (map_heap st) ->
    handle_bpf_message junk raw_infos raw_of slave le oh st = Some o -> state_after o = Some st' -> handles st st'.

Lemma handle_unload_spec slave oh st :
  wf_ctl st ->
  match handle_bpf_unload_prog raw_infos raw_of slave oh st with
  | Done st' reply =>
      reply = None /\ slave = false /\
      exists msg, ofputil_decode_bpf_unload_prog raw_infos raw_of oh = Ok msg /\ is_Some (programs st !! unload_prog msg) /\
        programs st' = delete (unload_prog msg) (programs st) /\ map_heap st' = map_heap st /\ wf_ctl st'
  | Fails st' _ => st' = st
  | Aborts => ofputil_decode_bpf_unload_prog raw_infos raw_of oh = Err Abort
  | Undefined => ofputil_decode_bpf_unload_prog raw_infos raw_of oh = Undef
  end.
Proof using.
  intros Hw. unfold handle_bpf_unload_prog. destruct slave; [done|]. cbn [reject_slave_controller try_res].
  destruct (ofputil_decode_bpf_unload_prog _ _ _) as [msg|[e|]|]; cbn [try_res]; try done.
  pose proof (remove_spec st (unload_prog msg)) as Hr. pose proof (programs_remove st (unload_prog msg) Hw) as Hp.
  destruct (ofproto_get_ubpf_vm st (unload_prog msg)) as [vm|] eqn:Hg; [|done]. split; [done|]. split; [done|]. exists msg.
  destruct Hr as (e & _ & _ & _ & Hh). rewrite <- get_programs, Hg. split_and!; eauto using wf_ctl_remove.
Qed.

Lemma handles_wf st st' : wf_ctl st -> handles st st' -> wf_ctl st' /\ table_step (programs st) (programs st').
Proof using.
  intros Hw [slave le oh o st1 Hoh Hf Hm Ho]. revert Hm. unfold handle_bpf_message.
  assert (same_programs st st1 -> wf_ctl st1 /\ table_step (programs st) (programs st1)) as Hsame.
  { intros Hs. split; [by eapply wf_ctl_same|]. unfold programs. rewrite (sp_vms _ _ Hs). constructor. }
  destruct (ofpraw_decode raw_infos oh) as [raw|[e|]|]; [|intros [= <-]; by injection Ho as <-; apply Hsame|by intros [= <-]|by intros [= <-]].
  repeat case_match; intros [= <-].
  - destruct (handle_load_spec slave le oh st Hw Hoh Hf) as [Hl Hwf]. split; [by apply Hwf|].
    destruct (handle_bpf_load_prog _ _ _ _ _ _) as [st2 r|st2 e| |]; try done; injection Ho as <-.
    + destruct Hl as (_ & _ & msg & elf & vm & _ & Hid & Hn & Hv & [prog Hp] & -> & _). rewrite <- Hv in *. by econstructor.
    + destruct Hl as [Hl _]. unfold programs. rewrite Hl. constructor.
  - pose proof (handle_unload_spec slave oh st Hw) as Hu.
    destruct (handle_bpf_unload_prog _ _ _ _ _) as [st2 r|st2 e| |]; try done; injection Ho as <-.
    + destruct Hu as (_ & _ & msg & _ & Hs & -> & _ & Hwf). split; [done|by constructor].
    + subst st2. by apply Hsame.
  - apply show_state in Ho as ->. by apply Hsame.
  - by eapply Hsame, update_state.
  - apply dump_state in Ho as ->. by apply Hsame.
  - by eapply Hsame, delete_state.
Qed.

Lemma reachable_inv heap st : rtc handles (mk_ctl [] heap) st -> wf_ctl st /\ rtc table_step ∅ (programs st).
Proof using.
  intros H. refine (rtc_ind_r (fun st => wf_ctl st /\ rtc table_step ∅ (programs st)) (mk_ctl [] heap) _ _ st H).
  - split; [apply wf_ctl_empty|]. reflexivity.
  - intros a b _ Hs [Ha Hr]. destruct (handles_wf _ _ Ha Hs). split; [done|]. by eapply rtc_r.
Qed.

End Programs.


(** A load of the sample object file as program 1, and what follows. *)
Definition sample_env : load_env :=
  mk_load_env no_impls (fun _ => 0) 7 sample_fresh 0x5000 [] sample_addrs true true.
Definition sample_load : bytes :=
  let elf := sample_elf (rel 8 1 1 ++ rel 40 2 2) in
  message BPF_LOAD_PROG 4 17 (mk_load 1 (Z.of_nat (length elf))) elf.
Definition sample_unload : bytes := message BPF_UNLOAD_PROG 4 18 (mk_prog 1) [].

Lemma wf_bytes_check bs : forallb (fun b => (0 <=? b) && (b <? 256)) bs = true -> wf_bytes bs.
Proof.
  intros H. apply Forall_forall. intros b Hb. apply forallb_forall with (x := b) in H; [|by apply list_elem_of_In].
  apply andb_true_iff in H as [?%Z.leb_le ?%Z.ltb_lt]. by unfold in_u.
Qed.

Lemma sample_fresh_ok : fresh_ok sample_fresh ∅.
Proof.
  split; unfold sample_fresh; [intros k|intros k; apply lookup_empty|intros j k Hj Hk].
  - pose proof (Z.mod_pos_bound (Z.of_nat k) (2 ^ 20)). lia.
  - autounfold with consts in *. rewrite !Z.mod_small by lia. lia.
Qed.

Definition sample_state : ctl :=
  default (mk_ctl [] ∅) (state_after (handle_bpf_load_prog bpf_infos bpf_raw false sample_env sample_load (mk_ctl [] ∅))).

Lemma sample_handles : handles (fun _ => 0) bpf_infos bpf_raw (mk_ctl [] ∅) sample_state.
Proof.
  eapply (handles_message _ _ _ _ false sample_env sample_load).
  - apply wf_bytes_check. vm_compute. reflexivity.
  - apply sample_fresh_ok.
  - unfold handle_bpf_message. replace (ofpraw_decode bpf_infos sample_load) with (Ok (E := failure) 0) by (vm_compute; reflexivity).
    reflexivity.
  - unfold sample_state. destruct (state_after _) eqn:E; [done|]. exfalso.
    assert (is_Some (state_after (handle_bpf_load_prog bpf_infos bpf_raw false sample_env sample_load (mk_ctl [] ∅)))) as [x Hx].
    { apply is_Some_alt. vm_compute. exact I. }
    congruence.
Qed.


(** loading and unloading, in every case: a load adds the program of the message,
    verified, under an identifier that was free, and an unload removes the named program; both
    leave the other programs and all maps as they were, also when they fail.  The process ends only
    on a message that the dispatcher would have refused or on a program whose code is too long. *)
Theorem load_unload_outcome raw_infos raw_of slave le oh st :
  wf_ctl st -> wf_bytes oh -> fresh_ok (le_fresh le) (map_heap st) ->
  load_spec raw_infos raw_of slave le oh st (handle_bpf_load_prog raw_infos raw_of slave le oh st) /\
  match handle_bpf_unload_prog raw_infos raw_of slave oh st with
  | Done st' reply =>
      reply = None /\ slave = false /\
      exists msg, ofputil_decode_bpf_unload_prog raw_infos raw_of oh = Ok msg /\ is_Some (programs st !! unload_prog msg) /\
        programs st' = delete (unload_prog msg) (programs st) /\ map_heap st' = map_heap st /\ wf_ctl st'
  | Fails st' _ => st' = st
  | Aborts => ofputil_decode_bpf_unload_prog raw_infos raw_of oh = Err Abort
  | Undefined => ofputil_decode_bpf_unload_prog raw_infos raw_of oh = Undef
  end.
Proof.
  intros Hw Hoh Hf. split; [by apply handle_load_spec|by apply handle_unload_spec].
Qed.

Lemma unload_done raw_infos raw_of oh st msg :
  wf_ctl st -> ofputil_decode_bpf_unload_prog raw_infos raw_of oh = Ok msg ->
  is_Some (ofproto_get_ubpf_vm st (unload_prog msg)) ->
  exists st', handle_bpf_unload_prog raw_infos raw_of false oh st = Done st' None /\ programs st' = delete (unload_prog msg) (programs st).
Proof.
  intros Hw Hd Hg. pose proof (handle_unload_spec raw_infos raw_of false oh st Hw) as H. revert H.
  unfold handle_bpf_unload_prog. cbn [reject_slave_controller try_res]. rewrite Hd. cbn [try_res].
  destruct Hg as [vm ->]. intros (_ & _ & m & [= <-] & _ & Hp & _). eauto.
Qed.

Lemma load_unload_outcome_witness :
  load_spec bpf_infos bpf_raw false sample_env sample_load (mk_ctl [] ∅)
    (handle_bpf_load_prog bpf_infos bpf_raw false sample_env sample_load (mk_ctl [] ∅)) /\
  exists st', handle_bpf_unload_prog bpf_infos bpf_raw false sample_unload sample_state = Done st' None /\ programs st' = delete 1 (programs sample_state).
Proof.
  split.
  - refine (proj1 (load_unload_outcome bpf_infos bpf_raw false sample_env sample_load (mk_ctl [] ∅) _ _ _)).
    + apply wf_ctl_empty.
    + apply wf_bytes_check. vm_compute. reflexivity.
    + exact sample_fresh_ok.
  - refine (unload_done bpf_infos bpf_raw sample_unload sample_state (mk_prog 1) _ _ _).
    + exact (proj1 (reachable_inv _ _ _ _ _ (rtc_once _ _ sample_handles))).
    + vm_compute. reflexivity.
    + apply is_Some_alt. vm_compute. exact I.
Defined.
