(* ===== verification/BpfControlMaps.v ===== *)
(** * Updates and deletions that arrive as messages

    From the encoder of the controller, over the wire, through the decoder and the handler, to
    what a program finds when it looks the key up. *)

From S2P Require Import Prelude Ebpf Memory Vm Interp ValidateInsts ValidateCfg RegState.
From S2P Require Import AluRange ValidateAccesses Helpers.
From S2P Require Import AccessSound MapDef HashMap Maps Loader LoaderProps LoaderInv X86.
From S2P Require Import JitEnc Jit JitEmit JitAsm JitCode BpfProg.
From S2P Require Import OfpBuf OfpBufProps OfpMsgs OfpMsgsProps OfpBpf OfpBpfProps BpfControl.
From S2P Require Import BpfControlProps.

Lemma put_map_id st a m : map_heap st !! a = Some m -> put_map st a m = st.
Proof. intros H. unfold put_map. rewrite insert_id by done. by destruct st. Qed.

Lemma map_at_Some st vm i a m : map_at st vm i = Some (a, m) -> ext_maps vm !! Z.to_nat i = Some a /\ map_heap st !! a = Some m.
Proof.
  unfold map_at. destruct (ext_maps vm !! _) as [b|]; [|done]. cbn. destruct (map_heap st !! b) eqn:E; [|done]. cbn.
  by intros [= <- <-].
Qed.

Lemma read_bytes_all bs : read_bytes bs (Z.of_nat (length bs)) = Some bs.
Proof. unfold read_bytes. rewrite Z.leb_refl, Nat2Z.id. by rewrite take_ge by lia. Qed.

(** One entry of an update: the map refuses it and nothing changes, or it is stored. *)
Lemma update_one `{KeyedMap wf} st a m key k value :
  wf m -> map_heap st !! a = Some m -> wf_bytes (key ++ value) -> km_key m key = Some k -> Z.of_nat (length value) = m_value_size m ->
  let o := update_entries 1 0 (Z.of_nat (length key)) (m_value_size m) a (key ++ value) st in
  o = Fails st OFPERR_OFPBRC_EPERM \/
  exists m', o = Done (put_map st a m') None /\ wf m' /\ (forall key', km_key m' key' = km_key m key') /\ km_abs m' k = Some value /\
    forall key' k', wf_bytes key' -> km_key m key' = Some k' -> k' <> k -> km_abs m' k' = km_abs m k'.
Proof.
  intros Hwf Ha Hb Hk Hv o. unfold o. cbn [update_entries]. rewrite Ha, Nat2Z.id, drop_app_length.
  destruct (km_update m (key ++ value) k value value Hwf Hb (km_prefix _ _ _ _ Hk)) as (r & m' & -> & Hwf' & Hkeys & Hr & Hne & Heq).
  { rewrite <- Hv. apply read_bytes_all. }
  cbn [default]. destruct (Z.ltb_spec r 0).
  - left. rewrite Hne by lia. by rewrite put_map_id.
  - right. destruct Heq as [H1 H2]; [lia|]. exists m'. split_and!; try done.
Qed.

Section Messages.
Context (junk : nat -> Z) (raw_infos : list raw_info) (raw_of : bpf_msg -> Z) (Ht : bpf_table raw_infos raw_of).
Context (v xid : Z) (Hv : 1 <= v <= 6) (Hx : in_u 32 xid).
Context (st : ctl) (prog map : Z) (vm : ubpf_vm) (a : Z) (m : ubpf_map).
Context (Hp : in_u 16 prog) (Hp0 : prog <> 0) (Hm : in_u 16 map).
Context (Hvm : ofproto_get_ubpf_vm st prog = Some vm) (Hmap : map < nb_maps vm) (Hat : map_at st vm map = Some (a, m)).

Lemma update_visible `{KeyedMap wf} key k value :
  Z.of_nat (length key) + Z.of_nat (length value) < 2 ^ 16 - 32 -> wf_bytes (key ++ value) ->
  wf m -> Z.of_nat (length key) = m_key_size m -> Z.of_nat (length value) = m_value_size m -> km_key m key = Some k ->
  exists b wire, ofputil_encode_bpf_update_map junk raw_infos raw_of v xid prog map key value 1 = Ok (Some b) /\ sends (Ok b) wire /\
    let o := handle_bpf_update_map raw_infos raw_of false wire st in
    o = Fails st OFPERR_OFPBRC_EPERM \/
    exists m', o = Done (put_map st a m') None /\ wf m' /\ ubpf_map_lookup (Some m') (Some key) = Some (Some value, Some m') /\
      forall key' k', wf_bytes key' -> km_key m key' = Some k' -> k' <> k ->
        exists r, ubpf_map_lookup (Some m) (Some key') = Some (r, Some m) /\ ubpf_map_lookup (Some m') (Some key') = Some (r, Some m').
Proof using Ht Hv Hx Hp Hp0 Hm Hvm Hmap Hat.
  intros Hl Hb Hwf Hks Hvs Hk.
  destruct (update_roundtrip junk raw_infos raw_of Ht v xid Hv Hx prog map key value Hp Hm Hl) as (b & wire & E & Hs & Hd).
  exists b, wire. split; [done|]. split; [done|]. cbv zeta. apply map_at_Some in Hat as Ha. destruct Ha as [_ Ha].
  unfold handle_bpf_update_map. cbn [reject_slave_controller try_res]. rewrite Hd, (proj2 (Z.eqb_neq _ _)) by done. cbn [try_res].
  cbn [update_prog_id update_map_id update_key_size update_value_size update_nb_elems]. rewrite Hvm, (proj2 (Z.leb_gt _ _)), Hat by done.
  rewrite <- Hks, Z.eqb_refl, Hvs, Z.eqb_refl. cbn [negb]. apply Forall_app in Hb as Hb'. destruct Hb' as [Hbk _].
  destruct (update_one st a m key k value Hwf Ha Hb Hk Hvs) as [E1|(m' & E1 & Hwf' & Hkeys & H1 & H2)]; [by left|right].
  exists m'. split; [exact E1|]. split; [done|]. split.
  - rewrite (km_lookup m' key k Hwf') by (by rewrite ?Hkeys). by rewrite H1.
  - intros key' k' Hb2 Hk2 Hne. exists (km_abs m k'). rewrite (km_lookup m key' k') by done.
    rewrite (km_lookup m' key' k') by (by rewrite ?Hkeys). by rewrite (H2 key' k').
Qed.

Lemma delete_one key k :
  wf_hash m -> read_bytes key (m_key_size m) = Some k ->
  exists r m', map_delete (ops m) = Some hashmap_op_delete /\ hashmap_op_delete m key = Some (r, m') /\ wf_hash m' /\
    m_key_size m' = m_key_size m /\ hash_contents m' = delete k (hash_contents m).
Proof using.
  intros (Hty & Hks & Hvs & Hmx & hm & Hd & Hwf) Hk. pose proof (hashmap_delete_spec _ _ _ (proj1 Hks) Hmx hm key k Hwf Hk) as H.
  unfold ops, hashmap_op_delete, hash_contents. rewrite Hty, Hd. case_decide as Hc.
  - rewrite H. cbn. eexists _, _. split; [done|]. split; [done|]. split; [unfold wf_hash; cbn; eauto 8|]. split; [done|]. cbn.
    by rewrite delete_id.
  - destruct H as (hm' & -> & Hwf' & Hc'). cbn. eexists _, _. split; [done|]. split; [done|]. split; [unfold wf_hash; cbn; eauto 8|done].
Qed.

Lemma delete_visible name key :
  Z.of_nat (length key) < 2 ^ 16 - 28 -> wf_bytes key -> wf_hash m -> Z.of_nat (length key) = m_key_size m ->
  ext_map_names vm !! Z.to_nat map = Some (Some name) -> ubpf_lookup_registered_map vm name = a -> a <> 0 ->
  exists wire m', sends (ofputil_encode_bpf_delete_bpf_map junk raw_infos raw_of v xid prog map key 1) wire /\
    handle_delete_map raw_infos raw_of false wire st = Done (put_map st a m') None /\ wf_hash m' /\
    hash_contents m' = delete key (hash_contents m) /\ ubpf_map_lookup (Some m') (Some key) = Some (None, Some m').
Proof using Ht Hv Hx Hp Hp0 Hm Hvm Hmap Hat.
  intros Hl Hb Hwf Hks Hname Hreg Ha0.
  destruct (delete_roundtrip junk raw_infos raw_of Ht v xid Hv Hx prog map key Hp Hm Hl) as (wire & Hs & Hd).
  apply map_at_Some in Hat as Ha. destruct Ha as [_ Ha].
  assert (read_bytes key (m_key_size m) = Some key) as Hk by (rewrite <- Hks; apply read_bytes_all).
  destruct (delete_one key key Hwf Hk) as (r & m' & E1 & E2 & Hwf' & Hks' & Hc). exists wire, m'. split; [done|].
  split; [|split_and!; try done].
  - unfold handle_delete_map. cbn [reject_slave_controller try_res]. rewrite Hd, (proj2 (Z.eqb_neq _ _)) by done. cbn [try_res].
    cbn [delete_prog delete_map delete_key_size delete_nb_elems]. rewrite Hvm, (proj2 (Z.leb_gt _ _)), Hname, Hreg by done.
    rewrite (proj2 (Z.eqb_neq _ _)) by done. cbn [Z.leb Z.compare]. change (Z.to_nat 1) with 1%nat. cbn [delete_keys]. by rewrite Ha, E1, E2.
  - rewrite (km_lookup m' key key Hwf' Hb); [|cbn; by rewrite Hks']. cbn. by rewrite Hc, lookup_delete_eq.
Qed.

End Messages.

(** an update that a controller encodes, sends, and that the switch handles: it
    refuses it and nothing changes, or the lookup helper finds the value under the key and under
    every other key what it found before; the other maps and the programs are untouched.  For every
    kind of map with keys. *)
Theorem update_message_visible `{KeyedMap wf} junk raw_infos raw_of v xid st prog map vm a m key k value :
  bpf_table raw_infos raw_of -> 1 <= v <= 6 -> in_u 32 xid -> in_u 16 prog -> prog <> 0 -> in_u 16 map ->
  ofproto_get_ubpf_vm st prog = Some vm -> map < nb_maps vm -> map_at st vm map = Some (a, m) ->
  Z.of_nat (length key) + Z.of_nat (length value) < 2 ^ 16 - 32 -> wf_bytes (key ++ value) ->
  wf m -> Z.of_nat (length key) = m_key_size m -> Z.of_nat (length value) = m_value_size m -> km_key m key = Some k ->
  exists b wire, ofputil_encode_bpf_update_map junk raw_infos raw_of v xid prog map key value 1 = Ok (Some b) /\ sends (Ok b) wire /\
    let o := handle_bpf_update_map raw_infos raw_of false wire st in
    o = Fails st OFPERR_OFPBRC_EPERM \/
    exists m', o = Done (put_map st a m') None /\ wf m' /\ ubpf_map_lookup (Some m') (Some key) = Some (Some value, Some m') /\
      forall key' k', wf_bytes key' -> km_key m key' = Some k' -> k' <> k ->
        exists r, ubpf_map_lookup (Some m) (Some key') = Some (r, Some m) /\ ubpf_map_lookup (Some m') (Some key') = Some (r, Some m').
Proof. intros. by eapply update_visible. Qed.

(** a deletion that a controller encodes, sends, and that the switch handles always
    succeeds on a hash map with keys of that size: afterwards the map has the same entries but the
    named one, and the lookup helper does not find the key. *)
Theorem delete_message_visible junk raw_infos raw_of v xid st prog map vm a m name key :
  bpf_table raw_infos raw_of -> 1 <= v <= 6 -> in_u 32 xid -> in_u 16 prog -> prog <> 0 -> in_u 16 map ->
  ofproto_get_ubpf_vm st prog = Some vm -> map < nb_maps vm -> map_at st vm map = Some (a, m) ->
  Z.of_nat (length key) < 2 ^ 16 - 28 -> wf_bytes key -> wf_hash m -> Z.of_nat (length key) = m_key_size m ->
  ext_map_names vm !! Z.to_nat map = Some (Some name) -> ubpf_lookup_registered_map vm name = a -> a <> 0 ->
  exists wire m', sends (ofputil_encode_bpf_delete_bpf_map junk raw_infos raw_of v xid prog map key 1) wire /\
    handle_delete_map raw_infos raw_of false wire st = Done (put_map st a m') None /\ wf_hash m' /\
    hash_contents m' = delete key (hash_contents m) /\ ubpf_map_lookup (Some m') (Some key) = Some (None, Some m').
Proof. intros. by eapply delete_visible. Qed.

(** ** The sample program and its map *)

Definition sample_vm : ubpf_vm := default (ubpf_create 0) (ofproto_get_ubpf_vm sample_state 1).
Definition sample_addr : Z := sample_fresh 0.
Definition sample_map : ubpf_map := mk_map UBPF_MAP_TYPE_HASHMAP 4 8 2 (DHashmap (ubpf_hashmap_create (mk_def 4 4 8 2 0))).

Lemma sample_get : ofproto_get_ubpf_vm sample_state 1 = Some sample_vm.
Proof.
  unfold sample_vm. destruct (ofproto_get_ubpf_vm sample_state 1) eqn:E; [done|]. exfalso.
  assert (is_Some (ofproto_get_ubpf_vm sample_state 1)) as [x Hx] by (apply is_Some_alt; vm_compute; exact I). congruence.
Qed.

Lemma sample_map_at : map_at sample_state sample_vm 0 = Some (sample_addr, sample_map).
Proof. vm_compute. reflexivity. Qed.

Lemma sample_map_wf : wf_hash sample_map.
Proof.
  destruct (create_hash_wf (mk_def 4 4 8 2 0) []) as (m & E & H); [split; vm_compute; split; congruence|done|cbn; lia|].
  injection E as <-. exact H.
Qed.

Lemma update_message_visible_witness :
  exists b wire, ofputil_encode_bpf_update_map (fun _ => 9) bpf_infos bpf_raw 4 17 1 0 [1; 0; 0; 0] [1; 2; 3; 4; 5; 6; 7; 8] 1 = Ok (Some b) /\
    sends (Ok b) wire /\
    let o := handle_bpf_update_map bpf_infos bpf_raw false wire sample_state in
    o = Fails sample_state OFPERR_OFPBRC_EPERM \/
    exists m', o = Done (put_map sample_state sample_addr m') None /\
      ubpf_map_lookup (Some m') (Some [1; 0; 0; 0]) = Some (Some [1; 2; 3; 4; 5; 6; 7; 8], Some m').
Proof.
  destruct (update_message_visible (wf := wf_hash) (fun _ => 9) bpf_infos bpf_raw 4 17 sample_state 1 0 sample_vm sample_addr sample_map
    [1; 0; 0; 0] [1; 0; 0; 0] [1; 2; 3; 4; 5; 6; 7; 8]) as (b & wire & E & Hs & H).
  - exact bpf_infos_ok.
  - lia.
  - split; vm_compute; congruence.
  - split; vm_compute; congruence.
  - lia.
  - split; vm_compute; congruence.
  - exact sample_get.
  - vm_compute. reflexivity.
  - exact sample_map_at.
  - cbn; lia.
  - apply wf_bytes_check. reflexivity.
  - exact sample_map_wf.
  - reflexivity.
  - reflexivity.
  - reflexivity.
  - exists b, wire. split; [exact E|]. split; [exact Hs|]. destruct H as [H|(m' & H & _ & Hl & _)]; [left; exact H|right].
    exists m'. split; [exact H|exact Hl].
Defined.

Lemma delete_message_visible_witness :
  exists wire m', sends (ofputil_encode_bpf_delete_bpf_map (fun _ => 9) bpf_infos bpf_raw 4 17 1 0 [1; 0; 0; 0] 1) wire /\
    handle_delete_map bpf_infos bpf_raw false wire sample_state = Done (put_map sample_state sample_addr m') None /\
    ubpf_map_lookup (Some m') (Some [1; 0; 0; 0]) = Some (None, Some m').
Proof.
  destruct (delete_message_visible (fun _ => 9) bpf_infos bpf_raw 4 17 sample_state 1 0 sample_vm sample_addr sample_map "m"
    [1; 0; 0; 0]) as (wire & m' & Hs & H & _ & _ & Hl).
  - exact bpf_infos_ok.
  - lia.
  - split; vm_compute; congruence.
  - split; vm_compute; congruence.
  - lia.
  - split; vm_compute; congruence.
  - exact sample_get.
  - vm_compute. reflexivity.
  - exact sample_map_at.
  - cbn; lia.
  - apply wf_bytes_check. reflexivity.
  - exact sample_map_wf.
  - reflexivity.
  - vm_compute. reflexivity.
  - vm_compute. reflexivity.
  - vm_compute. congruence.
  - exists wire, m'. split; [exact Hs|]. split; [exact H|exact Hl].
Defined.

(** ** Requests that leave the message or call nothing *)

(** An object file whose map is an array, loaded as program 1. *)
Definition array_load : bytes :=
  let data := le_bytes 4 1 ++ le_bytes 4 4 ++ le_bytes 4 8 ++ le_bytes 4 2 ++ le_bytes 4 0 in
  let elf := mk_elf sample_text (rel 8 1 1 ++ rel 40 2 2) sample_syms sample_strs data data_shdr in
  message BPF_LOAD_PROG 4 17 (mk_load 1 (Z.of_nat (length elf))) elf.
Definition array_state : ctl :=
  default (mk_ctl [] ∅) (state_after (handle_bpf_load_prog bpf_infos bpf_raw false sample_env array_load (mk_ctl [] ∅))).

(** [n] programs. *)
Definition many (n : nat) : ctl :=
  mk_ctl ((fun i => (mk_vm (Z.of_nat i) None 0 [] [] [] [] 0 0, None)) <$> seq 1 n) ∅.

(** The first entry already lies outside the message. *)
Lemma update_first raw_infos raw_of oh st msg data vm a m :
  ofputil_decode_bpf_update_map raw_infos raw_of oh = Ok (msg, data) -> ofproto_get_ubpf_vm st (update_prog_id msg) = Some vm ->
  update_map_id msg < nb_maps vm -> map_at st vm (update_map_id msg) = Some (a, m) -> update_key_size msg = m_key_size m ->
  update_value_size msg = m_value_size m -> 0 < update_nb_elems msg ->
  ubpf_map_update (Some m) (Some data) (Some (drop (Z.to_nat (m_key_size m)) data)) = None ->
  handle_bpf_update_map raw_infos raw_of false oh st = Undefined.
Proof.
  intros Hd Hg Hlt Ha Hk Hv Hn Hu. unfold handle_bpf_update_map. cbn [reject_slave_controller try_res]. rewrite Hd. cbn [try_res].
  rewrite Hg, (proj2 (Z.leb_gt _ _)), Ha, Hk, Hv, !Z.eqb_refl by done. cbn [negb].
  destruct (Z.to_nat (update_nb_elems msg)) eqn:E; [lia|]. cbn [update_entries].
  destruct (map_at_Some _ _ _ _ _ Ha) as [_ ->]. by rewrite Hu.
Qed.

Lemma delete_first raw_infos raw_of oh st msg keys vm name a m f :
  ofputil_decode_bpf_delete_map raw_infos raw_of oh = Ok (msg, keys) -> ofproto_get_ubpf_vm st (delete_prog msg) = Some vm ->
  delete_map msg < nb_maps vm -> ext_map_names vm !! Z.to_nat (delete_map msg) = Some (Some name) ->
  ubpf_lookup_registered_map vm name = a -> a <> 0 -> map_heap st !! a = Some m -> 0 < delete_nb_elems msg ->
  map_delete (ops m) = Some f -> f m keys = None ->
  handle_delete_map raw_infos raw_of false oh st = Undefined.
Proof.
  intros Hd Hg Hlt Hname <- H0 Hm Hn Hf Hu. unfold handle_delete_map. cbn [reject_slave_controller try_res]. rewrite Hd. cbn [try_res].
  rewrite Hg, !(proj2 (Z.leb_gt _ _)), Hname, (proj2 (Z.eqb_neq _ _)) by done.
  destruct (Z.to_nat (delete_nb_elems msg)) eqn:E; [lia|]. cbn [delete_keys]. by rewrite Hm, Hf, Hu.
Qed.

Lemma update_overrun :
  handle_bpf_update_map bpf_infos bpf_raw false (message BPF_UPDATE_MAP 4 17 (mk_update 1 0 4 8 (2 ^ 30)) []) sample_state = Undefined.
Proof.
  apply (update_first _ _ _ _ (mk_update 1 0 4 8 (2 ^ 30)) [] sample_vm sample_addr sample_map).
  - vm_compute. reflexivity.
  - exact sample_get.
  - vm_compute. reflexivity.
  - exact sample_map_at.
  - reflexivity.
  - reflexivity.
  - reflexivity.
  - reflexivity.
Qed.

Lemma delete_overrun :
  handle_delete_map bpf_infos bpf_raw false (message BPF_DELETE_MAP 4 17 (mk_delete 1 0 4 (2 ^ 30)) []) sample_state = Undefined.
Proof.
  apply (delete_first _ _ _ _ (mk_delete 1 0 4 (2 ^ 30)) [] sample_vm "m" sample_addr sample_map hashmap_op_delete).
  - vm_compute. reflexivity.
  - exact sample_get.
  - vm_compute. reflexivity.
  - vm_compute. reflexivity.
  - vm_compute. reflexivity.
  - vm_compute. congruence.
  - exact (proj2 (map_at_Some _ _ _ _ _ sample_map_at)).
  - reflexivity.
  - reflexivity.
  - reflexivity.
Qed.

