(* ===== verification/BpfDump.v ===== *)
(** * A map that is dumped over the wire

    From the request of the controller, through the handler of the switch, to the text that the
    client prints of the reply. *)

From stdpp Require Import pretty.
From S2P Require Import Prelude Ebpf Memory Vm Interp ValidateInsts ValidateCfg RegState.
From S2P Require Import AluRange ValidateAccesses Helpers.
From S2P Require Import AccessSound MapDef HashMap Maps Loader LoaderProps LoaderInv X86.
From S2P Require Import JitEnc Jit JitEmit JitAsm JitCode BpfProg.
From S2P Require Import OfpBuf OfpBufProps OfpMsgs OfpMsgsProps OfpBpf OfpBpfProps OfpPrint.
From S2P Require Import BpfControl BpfControlProps BpfControlMaps.

(** The text of one entry. *)
Definition element_text (hex : bool) (e : bytes * bytes) : string :=
  ("Key: " +:+ print_field hex e.1 +:+ newline +:+ "Value: " +:+ print_field hex e.2 +:+ newline)%string.

Definition entries_bytes (es : list (bytes * bytes)) : bytes := flat_map (fun e => e.1 ++ e.2) es.
Definition dump_text (hex : bool) (es : list (bytes * bytes)) : string :=
  (newline +:+ "The map contains " +:+ int_text (Z.of_nat (length es)) +:+ " element(s)" +:+ newline +:+
   foldr (fun e s => element_text hex e +:+ s) EmptyString es)%string.

Definition entry_sizes (ks vs : Z) (e : bytes * bytes) : Prop := Z.of_nat (length e.1) = ks /\ Z.of_nat (length e.2) = vs.

Lemma length_entries ks vs es : Forall (entry_sizes ks vs) es -> Z.of_nat (length (entries_bytes es)) = Z.of_nat (length es) * (ks + vs).
Proof.
  induction 1 as [|e es [H1 H2] _ IH]; [done|]. cbn [entries_bytes flat_map length]. unfold entries_bytes in IH. rewrite !length_app. lia.
Qed.

Lemma read_bytes_app a b n : Z.of_nat (length a) = n -> read_bytes (a ++ b) n = Some a.
Proof. intros <-. apply read_bytes_prefix, read_bytes_all. Qed.

Lemma print_elements_entries map es hex rest :
  Forall (entry_sizes (dump_key_size map) (dump_value_size map)) es ->
  0 <= dump_key_size map + dump_value_size map ->
  print_elements (length es) map (dump_key_size map + dump_value_size map) (entries_bytes es ++ rest) hex =
  Some (foldr (fun e s => element_text hex e +:+ s)%string EmptyString es).
Proof.
  intros H H0. induction H as [|[k v] es [H1 H2] _ IH]; [done|]. cbn [entries_bytes flat_map length print_elements foldr fst snd] in *.
  rewrite (proj2 (Z.ltb_ge _ _)) by done. rewrite <- !app_assoc. unfold ofp_print_bpf_dump_map_element.
  rewrite (read_bytes_app k) by done. cbn [mbind option_bind].
  rewrite <- H1 at 1. rewrite Nat2Z.id, drop_app_length, (read_bytes_app v) by done. cbn [mbind option_bind].
  replace (Z.to_nat (dump_key_size map + dump_value_size map)) with (length (k ++ v)) by (rewrite length_app; lia).
  rewrite app_assoc, drop_app_length. unfold entries_bytes in IH. rewrite IH. done.
Qed.

Section Dump.
Context (junk : nat -> Z) (raw_infos : list raw_info) (raw_of : bpf_msg -> Z) (Ht : bpf_table raw_infos raw_of).
Context (v xid : Z) (Hv : 1 <= v <= 6) (Hx : in_u 32 xid).

(** A reply takes version and transaction id from the request. *)
Lemma alloc_reply_message {A} `{StructOk A} m (s : A) d raw extra :
  ofpraw_alloc_reply junk raw_infos raw (message m v xid s d) extra = ofpraw_alloc_xid junk raw_infos raw v xid extra.
Proof using Hv Hx.
  unfold ofpraw_alloc_reply, message, hdr, oh_bytes. cbn [bpf_hdrs h_version h_type].
  assert (in_u 8 v) by (unfold in_u; lia). read_field. cbn [res_of res_bind]. read_field. done.
Qed.

(** The reply to a request for one map. *)
Definition dump_reply (prog : Z) (h : ol_bpf_dump_map) (es : list (bytes * bytes)) : bytes :=
  message BPF_DUMP_MAP_REPLY v xid (mk_reply prog 1) (to_wire h ++ entries_bytes es).

Definition dump_header (map : Z) (m : ubpf_map) (es : list (bytes * bytes)) : ol_bpf_dump_map :=
  mk_dump_map map (junk 2, junk 3) (m_key_size m) (m_value_size m) (Z.of_nat (length es)).

Lemma encode_reply {A} `{StructOk A} (s : A) d prog map m es :
  in_u 32 (m_key_size m) -> in_u 32 (m_value_size m) -> Forall (entry_sizes (m_key_size m) (m_value_size m)) es ->
  Z.of_nat (length es) * (m_key_size m + m_value_size m) < 2 ^ 16 - 36 -> m_key_size m + m_value_size m < 2 ^ 32 ->
  exists b, ofputil_encode_bpf_dump_map_reply junk raw_infos raw_of (mk_dump prog 1) (message BPF_DUMP_MAP_REQUEST v xid s d)
    [mk_dumped map [junk 2; junk 3] (m_key_size m) (m_value_size m) (Z.of_nat (length es)) (entries_bytes es)] = Ok b /\
    peek (ob_mem b) (ob_data b) (ob_size b) = Some (dump_reply prog (dump_header map m es) es).
Proof using Ht Hv Hx.
  intros Hks Hvs Hes Hlen Hsum. unfold in_u in *. pose proof (length_entries _ _ _ Hes) as Hle.
  set (dm := mk_dumped _ _ _ _ _ _). assert (dumped_size dm = Z.of_nat (length (entries_bytes es))) as Hds.
  { unfold dumped_size. cbn [dm_nb dm_key_size dm_value_size dm]. rewrite (wrap_small 32 (_ + _)), wrap_small by (unfold in_u; lia). lia. }
  assert (dumped_bytes dm = Some (to_wire (dump_header map m es) ++ entries_bytes es)) as Hdb.
  { unfold dumped_bytes. rewrite Hds. cbn [dm_data dm]. rewrite read_bytes_all. cbn [mbind option_bind dm_map dm_pad dm_key_size dm_value_size dm_nb dm].
    cbn [to_wire dump_map_struct dump_header dump_map dump_pad dump_key_size dump_value_size dump_nb_elems fst snd]. by rewrite <- !app_assoc. }
  unfold ofputil_encode_bpf_dump_map_reply. rewrite alloc_reply_message. cbn [foldr dump_prog dump_nb_maps]. rewrite Hds.
  rewrite wrap_small by (unfold in_u; lia). set (n := 16 + _ + 0).
  destruct (put_struct_holds junk raw_infos raw_of Ht BPF_DUMP_MAP_REPLY v xid n (mk_reply prog 1) Hv Hx) as (b & E & Hb); [unfold n; lia|cbn; lia|].
  unfold put_struct in E. cbn [sizeof dump_reply_struct to_wire reply_prog reply_nb_maps] in E.
  destruct (ofpraw_alloc_xid _ _ _ _ _ _) as [b0|e|]; [|done|done]. cbn [res_bind] in *.
  destruct (lift (ofpbuf_put_zeros junk b0 4)) as [[p b1]|e|]; [|done|done]. cbn [res_bind] in *. rewrite E. cbn [res_bind put_dumped].
  rewrite Hdb. cbn [res_of res_bind].
  destruct (put_data_holds junk BPF_DUMP_MAP_REPLY v xid (mk_reply prog 1) [] (to_wire (dump_header map m es) ++ entries_bytes es) 0 b) as (b2 & E2 & H2);
    [lia| |done|].
  { rewrite length_app, Nat2Z.inj_add, wire_length. cbn [sizeof dump_map_struct]. lia. }
  rewrite E2. cbn [res_bind app] in *.
  destruct (update_length_message BPF_DUMP_MAP_REPLY v xid (mk_reply prog 1) _ _ b2 Hv H2) as (b3 & E3 & Hc & H3). exists b3. split; [done|].
  destruct H3 as (len & pre & post & Hl & _). pose proof (lay_contents _ _ _ _ Hl) as Hc3.
  rewrite (lay_mem _ _ _ _ Hl), (lay_data _ _ _ _ Hl), (lay_size _ _ _ _ Hl), peek_app. by rewrite <- Hc3, Hc.
Qed.

(** The client prints the entries of the reply. *)
Lemma print_reply prog h es hex :
  in_u 16 prog -> fits h -> dump_nb_elems h = Z.of_nat (length es) -> Forall (entry_sizes (dump_key_size h) (dump_value_size h)) es ->
  Z.of_nat (length es) * (dump_key_size h + dump_value_size h) < 2 ^ 16 - 36 -> dump_key_size h + dump_value_size h < 2 ^ 31 ->
  Z.of_nat (length es) < 2 ^ 31 ->
  ofp_print_bpf_dump_map_reply raw_infos raw_of (dump_reply prog h es) hex = Ok (dump_text hex es).
Proof using Ht Hv Hx.
  intros Hp Hf Hn Hes Hlen Hsum Hcount. pose proof Hf as (Hi & Hks & Hvs & Hnb). unfold in_u in *. pose proof (length_entries _ _ _ Hes) as Hle.
  pose proof (wire_length h) as Hw. cbn [sizeof dump_map_struct] in Hw. set (d := to_wire h ++ entries_bytes es).
  assert (Z.of_nat (length d) = 16 + Z.of_nat (length (entries_bytes es))) as Hd by (unfold d; rewrite length_app; lia).
  unfold ofp_print_bpf_dump_map_reply, dump_reply. fold d.
  rewrite (pull_struct_message raw_infos raw_of Ht BPF_DUMP_MAP_REPLY BPF_DUMP_MAP_REPLY v xid (mk_reply prog 1) d);
    [|done|done|split; [done|split; vm_compute; congruence]|done|cbn [sizeof dump_reply_struct]; lia].
  rewrite bool_decide_true by done. cbn [reply_nb_maps negb Z.eqb Pos.eqb]. unfold received, ofpbuf_pull at 1. cbn [ob_size ob_data sizeof dump_map_struct].
  rewrite (proj2 (Z.leb_le _ _)) by lia. cbn [lift res_bind].
  assert (drop (Z.to_nat (16 + sizeof ol_bpf_dump_map_reply)) (message BPF_DUMP_MAP_REPLY v xid (mk_reply prog 1) d) = d) as Hdrop.
  { unfold message. rewrite app_assoc.
    replace (Z.to_nat _) with (length (hdr (bpf_hdrs BPF_DUMP_MAP_REPLY v) (16 + sizeof ol_bpf_dump_map_reply + Z.of_nat (length d)) xid ++ to_wire (mk_reply prog 1))).
    - by rewrite drop_app_length.
    - rewrite length_app, hdr_length by done. pose proof (wire_length (mk_reply prog 1)). lia. }
  rewrite Hdrop. unfold d at 1. rewrite wire_roundtrip by done. cbn [res_of res_bind].
  rewrite (wrap_small 32 (_ + _)) by (unfold in_u; lia). rewrite sext_small by (unfold in_s; lia). unfold ofpbuf_pull. cbn [ob_size ob_data set_data].
  rewrite (wrap_small 32 (dump_nb_elems h * _)), Hn by (unfold in_u; lia). rewrite (wrap_small 32 (Z.of_nat (length d) - 16)) by (unfold in_u; lia).
  rewrite (proj2 (Z.leb_le _ _)) by lia. cbn [lift res_bind]. rewrite (proj2 (Z.leb_gt _ _)) by lia.
  rewrite Nat2Z.id. replace (Z.to_nat (16 + sizeof ol_bpf_dump_map_reply + 16)) with (Z.to_nat (16 + sizeof ol_bpf_dump_map_reply) + length (to_wire h))%nat
    by (cbn [sizeof dump_reply_struct]; lia).
  rewrite <- drop_drop, Hdrop. unfold d. rewrite drop_app_length, <- (app_nil_r (entries_bytes es)), print_elements_entries by (done || lia).
  done.
Qed.

Context (st : ctl) (prog map : Z) (vm : ubpf_vm) (a : Z) (m : ubpf_map).
Context (Hp : in_u 16 prog) (Hp0 : prog <> 0) (Hm : in_u 16 map).
Context (Hvm : ofproto_get_ubpf_vm st prog = Some vm) (Hmap : map < nb_maps vm) (Hat : map_at st vm map = Some (a, m)).

(** The entries of a hash map, in the order of the dump. *)
Lemma hash_entries : wf_hash m ->
  exists hm es, m_data m = DHashmap hm /\ hashmap_op_size m = Some (Z.of_nat (length es)) /\
    hashmap_op_dump m = Some (entries_bytes es, Z.of_nat (length es)) /\ es ≡ₚ map_to_list (hash_contents m) /\
    Forall (entry_sizes (m_key_size m) (m_value_size m)) es.
Proof using.
  intros (_ & _ & _ & _ & hm & Hd & Hwf). exists hm, (kv <$> elems hm). unfold hashmap_op_size, hashmap_op_dump, hash_contents. rewrite Hd.
  split; [done|]. rewrite length_fmap, <- (wf_count _ _ _ _ Hwf). split; [done|]. split.
  - unfold ubpf_hashmap_dump. do 2 f_equal. unfold elems. clear. induction (buckets hm) as [|b bs IH]; [done|]. cbn [fmap list_fmap concat].
    rewrite IH, fmap_app. unfold entries_bytes. rewrite flat_map_app. f_equal. induction b as [|e b IHb]; [done|]. cbn in *. by rewrite IHb.
  - split.
    + unfold HashMap.contents. symmetry. apply map_to_list_to_map. by eapply NoDup_kv.
    + apply Forall_fmap, Forall_concat, Forall_lookup. intros i b Hb. eapply Forall_impl; [by eapply (wf_elems _ _ _ _ Hwf)|].
      intros e He. unfold elem_ok in He. split; cbn; apply He.
Qed.
Lemma map_id_one : map_id (ids_bytes [map]) 0 = Some map.
Proof using Hm.
  unfold map_id. change (drop (2 * 0) (ids_bytes [map])) with (le_bytes 2 map ++ []). rewrite app_nil_r. pose proof (read_bytes_all (le_bytes 2 map)) as H.
  rewrite length_le_bytes in H. change (Z.of_nat 2) with 2 in H. rewrite H. cbn [fmap option_fmap option_map]. f_equal. by apply le_value_bytes.
Qed.

Lemma dump_printed hex :
  wf_hash m -> 0 < m_key_size m -> m_key_size m + m_value_size m < 2 ^ 31 ->
  Z.of_nat (base.size (hash_contents m)) * (m_key_size m + m_value_size m) < 2 ^ 16 - 36 ->
  exists wire reply es, sends (ofputil_encode_bpf_dump_map_request junk raw_infos raw_of v xid prog [map]) wire /\
    handle_dump_map junk raw_infos raw_of false wire st = Done st (Some reply) /\ es ≡ₚ map_to_list (hash_contents m) /\
    ofp_print_bpf_dump_map_reply raw_infos raw_of reply hex = Ok (dump_text hex es).
Proof using Ht Hv Hx Hp Hp0 Hm Hvm Hmap Hat.
  intros Hwf H0 Hsum Hlen. pose proof Hwf as (Hty & Hks & Hvs & _). destruct (hash_entries Hwf) as (hm & es & _ & Hsz & Hdump & Hperm & Hes).
  assert (base.size (hash_contents m) = length es) as Hn by (rewrite Hperm; symmetry; apply length_map_to_list). rewrite Hn in Hlen.
  destruct (dump_roundtrip junk raw_infos raw_of Ht v xid Hv Hx prog [map] Hp ltac:(cbn; lia)) as [Hs Hd]. cbn [length] in Hs, Hd.
  change (Z.of_nat 1) with 1 in Hs, Hd. rewrite (proj2 (Z.eqb_neq prog 0)) in Hd by done.
  assert (Z.of_nat (length es) < 2 ^ 16) as Hes16 by (unfold in_u in *; nia).
  destruct (encode_reply (mk_dump prog 1) (ids_bytes [map]) prog map m es) as (b & Eb & Hpk); [done..|lia|].
  eexists _, (dump_reply prog (dump_header map m es) es), es. split; [exact Hs|]. split; [|split; [done|]].
  - unfold handle_dump_map. cbn [reject_slave_controller try_res]. rewrite Hd. cbn [try_res dump_prog dump_nb_maps]. rewrite Hvm.
    change (1 <=? 0) with false. change (Z.to_nat 1) with 1%nat. cbn [collect_maps]. rewrite map_id_one. cbn [res_of res_bind].
    rewrite (proj2 (Z.leb_gt _ _)), Hat by done. cbn [res_of res_bind]. unfold dump_all, dump_one, ops. rewrite Hty. cbn [map_size map_dump ubpf_hashmap_ops res_bind try_res].
    rewrite Hty. cbn [map_size map_dump ubpf_hashmap_ops]. rewrite Hsz, Hdump. cbn [res_of res_bind]. pose proof (length_entries _ _ _ Hes) as Hle. unfold in_u in *.
    rewrite (wrap_small 32 (m_key_size m + m_value_size m)), wrap_small by (unfold in_u; lia). rewrite (proj2 (Z.leb_le _ _)) by lia. cbn [res_bind try_res].
    rewrite Eb. cbn [try_res]. rewrite Hpk. done.
  - apply print_reply; try done; [|lia]. split_and!; try done. unfold dump_header, in_u. cbn [dump_nb_elems]. lia.
Qed.
End Dump.


(** The sample map with one entry. *)
Definition one_entry : ubpf_map :=
  match ubpf_map_update (Some sample_map) (Some [1; 0; 0; 0]) (Some [10; 11; 12; 13; 14; 15; 16; 17]) with
  | Some (_, Some m) => m
  | _ => sample_map
  end.
Definition one_state : ctl := put_map sample_state sample_addr one_entry.

Lemma one_entry_wf : wf_hash one_entry.
Proof.
  destruct (km_update (wf := wf_hash) sample_map [1; 0; 0; 0] [1; 0; 0; 0] [10; 11; 12; 13; 14; 15; 16; 17] [10; 11; 12; 13; 14; 15; 16; 17])
    as (r & m' & E & Hwf & _); [exact sample_map_wf|by apply wf_bytes_check|done|done|].
  unfold one_entry. rewrite E. exact Hwf.
Qed.

Lemma put_map_get st a m id : ofproto_get_ubpf_vm (put_map st a m) id = ofproto_get_ubpf_vm st id.
Proof. done. Qed.

