(* ===== verification/BpfDatapath.v ===== *)
(** * Programs on batches of packets (lib/odp-execute.c, lib/packets.c, lib/bpf.h)

    The action that runs a program on every packet of a batch, frees the packets that do not
    pass, and closes the gaps.  Packets are pointers.  The memory and the compiled code are
    arguments: [jitted] takes the memory, the packet and its size and returns the value of the
    program and the memory it leaves; [None] is a run that leaves the C semantics. *)

From S2P Require Import Prelude.

Inductive bpf_result : Set := BPF_UNKNOWN | BPF_MATCH | BPF_NO_MATCH.

#[export] Instance bpf_result_eq_dec : EqDecision bpf_result.
Proof. solve_decision. Defined.

Record dp_packet_batch : Set := mk_batch { batch_count : Z; batch_packets : list Z }.

(** Array stores. *)
Definition put_packet (ps : list Z) (i : Z) (p : Z) : option (list Z) :=
  if (0 <=? i) && (i <? Z.of_nat (length ps)) then Some (<[Z.to_nat i := p]> ps) else None.

Section Datapath.
Context {M : Type} (jitted : M -> Z -> Z -> option (Z * M)) (dp_packet_size : M -> Z -> Z).
(** [dp_packet_delete] frees the packet. *)
Context (dp_packet_delete : M -> Z -> M).

Definition ubpf_handle_packet (m : M) (packet : Z) : option (bpf_result * M) :=
  r ← jitted m packet (dp_packet_size m packet);
  Some (if r.1 =? 1 then BPF_MATCH else BPF_NO_MATCH, r.2).

Definition run_bpf_prog (m : M) (packet : Z) : option (bool * M) :=
  r ← ubpf_handle_packet m packet; Some (bool_decide (r.1 = BPF_MATCH), r.2).

Definition execute_bpf_prog (m : M) (packet : Z) : option (bool * M) := run_bpf_prog m packet.

(** The first loop, over the packets from here on: the flags, the number of dropped packets,
    and the memory. *)
Fixpoint run_batch (ps : list Z) (m : M) : option (list bool * Z * M) :=
  match ps with
  | [] => Some ([], 0, m)
  | p :: ps' =>
      r ← execute_bpf_prog m p;
      rest ← run_batch ps' (if r.1 : bool then r.2 else dp_packet_delete r.2 p);
      Some (r.1 :: rest.1.1, (if r.1 : bool then rest.1.2 else 1 + rest.1.2), rest.2)
  end.

(** The second loop: [n] iterations left, at index [s]. *)
Fixpoint compact (n : nat) (s step : Z) (pass : list bool) (ps : list Z) : option (list Z) :=
  match n with
  | O => Some ps
  | S n' =>
      b ← pass !! Z.to_nat s;
      if negb b then compact n' (s + 1) (step + 1) pass ps
      else if 0 <? step then
        p ← ps !! Z.to_nat s;
        ps' ← put_packet ps (s - step) p;
        compact n' (s + 1) step pass ps'
      else compact n' (s + 1) step pass ps
  end.

(** [vm] tells whether the action names a machine.  Without one the flags stay uninitialised, and
    the second loop reads them; an array of no flags is undefined. *)
Definition odp_execute_bpf_prog (vm : bool) (batch : dp_packet_batch) (m : M) : option (dp_packet_batch * M) :=
  let n := Z.to_nat (batch_count batch) in
  if batch_count batch <=? 0 then None
  else if vm then
    r ← run_batch (take n (batch_packets batch)) m;
    ps ← compact (n - 1) 0 0 r.1.1 (batch_packets batch);
    Some (mk_batch (batch_count batch - r.1.2) ps, r.2)
  else if batch_count batch <=? 1 then Some (batch, m) else None.

(** ** What it leaves *)

(** The packets that remain in the batch. *)
Definition remaining (b : dp_packet_batch) : list Z := take (Z.to_nat (batch_count b)) (batch_packets b).

(** The packets whose flag is set. *)
Definition passed (ps : list Z) (pass : list bool) : list Z := zip ps pass ≫= (fun e => if e.2 : bool then [e.1] else []).

Lemma run_batch_flags ps m pass d m' :
  run_batch ps m = Some (pass, d, m') -> length pass = length ps /\ d = Z.of_nat (length ps) - Z.of_nat (length (passed ps pass)).
Proof using.
  revert m pass d. induction ps as [|p ps IH]; intros m pass d; cbn [run_batch]; [by intros [= <- <- _]|].
  destruct (execute_bpf_prog m p) as [[b m1]|]; [|done]. cbn [mbind option_bind fst snd].
  destruct (run_batch ps _) as [[[pass1 d1] m2]|] eqn:E; [|done]. cbn [mbind option_bind fst snd]. intros [= <- <- ->].
  apply IH in E as [Hl ->]. split; [cbn; lia|]. unfold passed. cbn [zip zip_with mbind list_bind fst snd].
  fold (passed ps pass1). rewrite length_app. destruct b; cbn [length]; lia.
Qed.

Lemma passed_snoc ps p pass b : length ps = length pass -> passed (ps ++ [p]) (pass ++ [b]) = passed ps pass ++ (if b : bool then [p] else []).
Proof using.
  intros Hl. unfold passed. rewrite zip_with_app by done. rewrite bind_app. f_equal. cbn. by rewrite app_nil_r.
Qed.

Lemma passed_length ps pass : (length (passed ps pass) <= length ps)%nat.
Proof using.
  revert pass. induction ps as [|p ps IH]; intros [|b pass]; cbn; [lia..|]. specialize (IH pass). unfold passed in IH.
  rewrite length_app. destruct b; cbn; lia.
Qed.

Lemma passed_elem ps pass p : p ∈ passed ps pass -> p ∈ ps.
Proof using.
  unfold passed. intros ([q b] & Hq & H)%list_elem_of_bind. apply elem_of_zip_l in H. destruct b; cbn in Hq; [|by apply not_elem_of_nil in Hq].
  by apply list_elem_of_singleton in Hq as ->.
Qed.

(** The second loop keeps the packets that passed in front and has not touched the rest. *)
Lemma compact_spec n pass ps k :
  (k + n <= length pass)%nat -> (k + n <= length ps)%nat ->
  let front i := passed (take i ps) (take i pass) in
  compact n (Z.of_nat k) (Z.of_nat (k - length (front k))) pass (front k ++ drop (length (front k)) ps) =
  Some (front (k + n)%nat ++ drop (length (front (k + n)%nat)) ps).
Proof using.
  intros Hp Hs front. revert k Hp Hs. induction n as [|n IH]; intros k Hp Hs; cbn [compact]; [by rewrite Nat.add_0_r|].
  destruct (lookup_lt_is_Some_2 pass k) as [b Hb]; [lia|]. destruct (lookup_lt_is_Some_2 ps k) as [p Hpk]; [lia|].
  assert (front (S k) = front k ++ (if b then [p] else [])) as Hf.
  { unfold front. rewrite (take_S_r ps k p Hpk), (take_S_r pass k b Hb). apply passed_snoc. rewrite !length_take. lia. }
  pose proof (passed_length (take k ps) (take k pass)) as Hle. fold (front k) in Hle. rewrite length_take in Hle.
  rewrite Nat2Z.id, Hb. cbn [mbind option_bind]. specialize (IH (S k) ltac:(lia) ltac:(lia)). replace (k + S n)%nat with (S k + n)%nat by lia.
  rewrite Hf in IH. destruct b; cbn [negb].
  - rewrite length_app in IH. cbn [length] in IH. replace (S k - (length (front k) + 1))%nat with (k - length (front k))%nat in IH by lia.
    replace (Z.of_nat (S k)) with (Z.of_nat k + 1) in IH by lia.
    assert (forall a, ps !! length (front k) = Some a -> drop (length (front k)) ps = a :: drop (length (front k) + 1) ps) as Hd.
    { intros a Ha. rewrite (drop_S _ _ _ Ha). by rewrite Nat.add_1_r. }
    destruct (Z.ltb_spec 0 (Z.of_nat (k - length (front k)))) as [Hst|Hst].
    + rewrite lookup_app_r by lia. rewrite lookup_drop. replace (length (front k) + (k - length (front k)))%nat with k by lia.
      rewrite Hpk. cbn [mbind option_bind]. unfold put_packet. rewrite length_app, length_drop.
      replace (Z.of_nat k - Z.of_nat (k - length (front k))) with (Z.of_nat (length (front k))) by lia.
      rewrite (proj2 (Z.leb_le _ _)), (proj2 (Z.ltb_lt _ _)) by lia. cbn [andb mbind option_bind]. rewrite Nat2Z.id.
      destruct (lookup_lt_is_Some_2 ps (length (front k))) as [a Ha]; [lia|]. rewrite (Hd a Ha), insert_app_r_alt, Nat.sub_diag by lia. cbn [insert list_insert].
      rewrite <- IH, <- app_assoc. done.
    + assert (length (front k) = k) as Hk by lia. rewrite (Hd p) by (by rewrite Hk). rewrite <- IH, <- app_assoc. done.
  - rewrite app_nil_r in IH. replace (Z.of_nat (S k)) with (Z.of_nat k + 1) in IH by lia.
    replace (Z.of_nat (k - length (front k)) + 1) with (Z.of_nat (S k - length (front k))) by lia. exact IH.
Qed.

(** What is left of a batch whose last packet is [x] with flag [b]. *)
Lemma execute_batch init x rest pi b m m' d :
  run_batch (init ++ [x]) m = Some (pi ++ [b], d, m') -> length pi = length init ->
  exists batch', odp_execute_bpf_prog true (mk_batch (Z.of_nat (length init) + 1) (init ++ [x] ++ rest)) m = Some (batch', m') /\
    remaining batch' = passed init pi ++ (if b : bool then take 1 (drop (length (passed init pi)) (init ++ [x])) else []).
Proof using.
  intros Hr Hl. destruct (run_batch_flags _ _ _ _ _ Hr) as [_ Hd]. rewrite passed_snoc, !length_app in Hd by done. cbn [length] in Hd.
  pose proof (passed_length init pi) as Hle. set (k := length (passed init pi)) in *.
  unfold odp_execute_bpf_prog. cbn [batch_count batch_packets]. rewrite (proj2 (Z.leb_gt _ _)) by lia.
  replace (Z.to_nat (Z.of_nat (length init) + 1)) with (length (init ++ [x])) by (rewrite length_app; cbn; lia).
  rewrite app_assoc, take_app_length, Hr. cbn [mbind option_bind fst snd].
  assert (compact (length init) 0 0 (pi ++ [b]) ((init ++ [x]) ++ rest) = Some (passed init pi ++ drop k ((init ++ [x]) ++ rest))) as Hc.
  { assert (take (length init) ((init ++ [x]) ++ rest) = init) as E1 by (by rewrite <- app_assoc, take_app_length).
    assert (take (length init) (pi ++ [b]) = pi) as E2 by (by rewrite <- Hl, take_app_length).
    pose proof (compact_spec (length init) (pi ++ [b]) ((init ++ [x]) ++ rest) 0) as Hc. cbv zeta in Hc. cbn [Nat.add] in Hc.
    rewrite E1, E2 in Hc. apply Hc; rewrite ?length_app; cbn; lia. }
  replace (length (init ++ [x]) - 1)%nat with (length init) by (rewrite length_app; cbn; lia). rewrite Hc. cbn [mbind option_bind].
  eexists. split; [done|]. unfold remaining. cbn [batch_count batch_packets]. fold k in Hd.
  rewrite take_app_ge by (fold k; destruct b; cbn [length] in Hd; lia). f_equal. fold k. destruct b; cbn [length] in Hd.
  - replace (Z.to_nat _ - k)%nat with 1%nat by lia. rewrite drop_app_le by (rewrite length_app; cbn; lia).
    rewrite take_app_le; [done|]. rewrite length_drop, length_app. cbn. lia.
  - replace (Z.to_nat _ - k)%nat with 0%nat by lia. done.
Qed.

End Datapath.

(** C39: what the action leaves of a batch, for every program and every batch: the
    packets that passed, in their order, but for the last slot: when the last packet passed, the
    slot behind the others that passed is not filled with it.  The batch is right exactly when no
    packet was dropped or the last one was; otherwise the last packet is lost, and a packet that was
    freed or that is already in the batch stands in its place. *)
Theorem batch_after_program {M} (jitted : M -> Z -> Z -> option (Z * M)) size delete init x rest pi b m m' d :
  NoDup (init ++ [x]) -> run_batch jitted size delete (init ++ [x]) m = Some (pi ++ [b], d, m') ->
  exists batch', odp_execute_bpf_prog jitted size delete true (mk_batch (Z.of_nat (length init) + 1) (init ++ [x] ++ rest)) m = Some (batch', m') /\
    remaining batch' = passed init pi ++ (if b : bool then take 1 (drop (length (passed init pi)) (init ++ [x])) else []) /\
    (remaining batch' = passed (init ++ [x]) (pi ++ [b]) <-> d = 0 \/ b = false) /\
    (b = true -> d <> 0 -> x ∉ remaining batch').
Proof.
  intros Hn Hr. destruct (run_batch_flags _ _ _ _ _ _ _ _ Hr) as [Hl Hd]. rewrite !length_app in Hl. cbn in Hl.
  destruct (execute_batch jitted size delete init x rest pi b m m' d Hr ltac:(lia)) as (batch' & E & Hrem).
  exists batch'. split; [done|]. split; [done|]. rewrite passed_snoc in * by lia. rewrite !length_app in Hd. cbn [length] in Hd.
  pose proof (passed_length init pi) as Hle. rewrite Hrem.
  assert (x ∉ init) as Hx by (apply NoDup_app in Hn as (_ & Hn & _); intros H; apply (Hn x H), list_elem_of_here).
  destruct b; cbn [length] in Hd; [|split; [rewrite app_nil_r; tauto|done]].
  destruct (decide (length (passed init pi) = length init)) as [Hk|Hk].
  - rewrite Hk, drop_app_length. cbn [take]. split; [split; [left; lia|done]|intros _ ?; lia].
  - destruct (lookup_lt_is_Some_2 init (length (passed init pi))) as [y Hy]; [lia|]. apply list_elem_of_lookup_2 in Hy as Hin.
    rewrite (drop_S (init ++ [x]) y) by (by apply lookup_app_l_Some). cbn [take].
    split; [split|].
    + intros H%app_inv_head. injection H as ->. done.
    + intros [?|?]; [lia|done].
    + intros _ _ [H%passed_elem|H%list_elem_of_singleton]%elem_of_app; [done|]. by subst y.
Qed.

(** Packets 1, 2, 3 and 5, of which the second is dropped: packet 5 is lost, packet 3 is there twice. *)
Lemma batch_after_program_witness :
  let jitted (m : list Z) p n := Some (p mod 2, m) in
  (exists batch', odp_execute_bpf_prog jitted (fun _ _ => 64) (fun m p => p :: m) true (mk_batch 4 [1; 2; 3; 5; 0]) [] = Some (batch', [2]) /\
     remaining batch' = [1; 3; 3] /\ 5 ∉ remaining batch').
Proof.
  intros jitted.
  destruct (batch_after_program jitted (fun _ _ => 64) (fun m p => p :: m) [1; 2; 3] 5 [0] [true; false; true] true [] [2] 1) as (b' & E & Hr & _ & Hx).
  - repeat (apply NoDup_cons; split; [set_solver|]). apply NoDup_nil_2.
  - vm_compute. reflexivity.
  - exists b'. split; [exact E|]. split; [rewrite Hr; vm_compute; reflexivity|apply Hx; [reflexivity|lia]].
Defined.
