(* ===== verification/CStrings.v ===== *)
(** * Numbers in strings

    What the code uses of the C library to read numbers from text (strtoul, strtoll, atoi), for the C locale and
    64-bit longs, and the checked conversions of lib/util.c and lib/ofp-parse.c on top of it.  A C string
    is a [string]; the pointer behind a number is the rest of the string. *)

From Stdlib Require Import Ascii.
From stdpp Require Import pretty.
From S2P Require Import Prelude.

#[local] Open Scope Z_scope.

Definition is_space (c : Ascii.ascii) : bool := let n := Z.of_nat (Ascii.nat_of_ascii c) in (n =? 32) || ((9 <=? n) && (n <=? 13)).

Fixpoint skip_spaces (s : string) : string :=
  match s with
  | String c s' => if is_space c then skip_spaces s' else s
  | EmptyString => s
  end.

(** The value of a digit or letter; 36 for other characters. *)
Definition digit_value (c : Ascii.ascii) : Z :=
  let n := Z.of_nat (Ascii.nat_of_ascii c) in
  if (48 <=? n) && (n <=? 57) then n - 48
  else if (97 <=? n) && (n <=? 122) then n - 87
  else if (65 <=? n) && (n <=? 90) then n - 55
  else 36.

(** The digits of a number in [base], after those of [v]; [any] tells whether there was one. *)
Fixpoint scan_digits (base v : Z) (any : bool) (s : string) : Z * bool * string :=
  match s with
  | String c s' => if digit_value c <? base then scan_digits base (v * base + digit_value c) true s' else (v, any, s)
  | EmptyString => (v, any, s)
  end.

(** The prefix of a number: base 16 allows 0x in front of a digit, base 0 selects the base by the prefix. *)
Definition scan_prefix (base : Z) (s : string) : Z * string :=
  match s with
  | String "0" (String x (String d _ as s')) =>
      if ((base =? 0) || (base =? 16)) && bool_decide (x = "x" \/ x = "X")%char && (digit_value d <? 16) then (16, s')
      else (if base =? 0 then 8 else base, s)
  | String "0" _ => (if base =? 0 then 8 else base, s)
  | _ => (if base =? 0 then 10 else base, s)
  end.

(** Sign, magnitude, and rest of the string; [None] if there is no number. *)
Definition scan_number (base : Z) (s : string) : option (bool * Z * string) :=
  let s := skip_spaces s in
  let '(neg, s) := match s with
                   | String "-" s' => (true, s')
                   | String "+" s' => (false, s')
                   | _ => (false, s)
                   end in
  let '(b, s) := scan_prefix base s in
  let '(v, any, tail) := scan_digits b 0 false s in
  if any : bool then Some (neg, v, tail) else None.

Definition ULONG_MAX : Z := 2 ^ 64 - 1.
Definition LLONG_MAX : Z := 2 ^ 63 - 1.
Definition LLONG_MIN : Z := - 2 ^ 63.

(** A number that does not fit gives the greatest; a minus sign negates the unsigned value. *)
Definition strtoul (s : string) (base : Z) : Z * string :=
  match scan_number base s with
  | None => (0, s)
  | Some (neg, v, tail) => (if ULONG_MAX <? v then ULONG_MAX else if neg then u64 (- v) else v, tail)
  end.

(** The flag tells whether errno is set to ERANGE. *)
Definition strtoll (s : string) (base : Z) : Z * string * bool :=
  match scan_number base s with
  | None => (0, s, false)
  | Some (neg, v, tail) =>
      let x := if neg then - v else v in
      if x <? LLONG_MIN then (LLONG_MIN, tail, true) else if LLONG_MAX <? x then (LLONG_MAX, tail, true) else (x, tail, false)
  end.

(** A value that does not fit into an [int] leaves the C semantics. *)
Definition atoi (s : string) : option Z :=
  let '(x, _, _) := strtoll s 10 in if (- 2 ^ 31 <=? x) && (x <? 2 ^ 31) then Some x else None.

(** ** lib/util.c and lib/ofp-parse.c *)

Definition str_to_llong_with_tail (s : string) (base : Z) : bool * Z * string :=
  let '(x, tail, erange) := strtoll s base in
  if erange || bool_decide (tail = s) then (false, 0, tail) else (true, x, tail).

Definition str_to_llong (s : string) (base : Z) : bool * Z :=
  let '(ok, x, tail) := str_to_llong_with_tail s base in
  if negb (bool_decide (tail = EmptyString)) then (false, 0) else (ok, x).

Definition str_to_int (s : string) (base : Z) : bool * Z :=
  let '(ok, ll) := str_to_llong s base in
  if negb ok || (ll <? - 2 ^ 31) || (2 ^ 31 - 1 <? ll) then (false, 0) else (true, ll).

(** [inr] is the text of the error. *)
Definition double_quote : string := String (Ascii.ascii_of_nat 34) EmptyString.
Definition str_to_u16 (str name : string) : Z + string :=
  let '(ok, value) := str_to_int str 0 in
  if negb ok || (value <? 0) || (65535 <? value)
  then inr ("invalid " +:+ name +:+ " " +:+ double_quote +:+ str +:+ double_quote)%string else inl value.

(** ** Decimal numbers are read back *)

Lemma digit_of_char x : (x < 10)%N -> digit_value (pretty_N_char x) = Z.of_N x /\ is_space (pretty_N_char x) = false /\ pretty_N_char x <> "-"%char /\ pretty_N_char x <> "+"%char.
Proof.
  intros H. assert (x = 0 \/ x = 1 \/ x = 2 \/ x = 3 \/ x = 4 \/ x = 5 \/ x = 6 \/ x = 7 \/ x = 8 \/ x = 9)%N as Hx by lia.
  repeat (destruct Hx as [->|Hx]; [by split_and!|]). subst x. by split_and!.
Qed.

Lemma scan_pretty_go x : forall s, (0 < x)%N -> scan_digits 10 0 false (pretty_N_go x s) = scan_digits 10 (Z.of_N x) true s.
Proof.
  induction (N.lt_wf_0 x) as [x _ IH]. intros s Hx. rewrite pretty_N_go_step by done.
  assert (x mod 10 < 10)%N as Hm by (by apply N.mod_lt). destruct (digit_of_char _ Hm) as [Hd _].
  assert (forall any, scan_digits 10 (Z.of_N (x / 10)) any (String (pretty_N_char (x mod 10)) s) = scan_digits 10 (Z.of_N x) true s) as Hstep.
  { intros any. cbn [scan_digits]. rewrite Hd, (proj2 (Z.ltb_lt _ _)) by lia. f_equal. pose proof (N.div_mod' x 10). lia. }
  destruct (decide (x / 10 = 0)%N) as [E|E].
  - rewrite E in *. rewrite pretty_N_go_0. exact (Hstep false).
  - rewrite IH; [apply Hstep|by apply N.div_lt|by apply N.neq_0_lt_0].
Qed.

(** The first character of a decimal number. *)
Lemma pretty_go_head x : forall s, (0 < x)%N -> exists d s', (0 < d < 10)%N /\ pretty_N_go x s = String (pretty_N_char d) s'.
Proof.
  induction (N.lt_wf_0 x) as [x _ IH]. intros s Hx. rewrite pretty_N_go_step by done. destruct (decide (x / 10 = 0)%N) as [E|E].
  - rewrite E, pretty_N_go_0. exists (x mod 10)%N, s. split; [|done]. pose proof (N.div_mod' x 10). pose proof (N.mod_lt x 10). lia.
  - apply IH; [by apply N.div_lt|by apply N.neq_0_lt_0].
Qed.

(** A decimal number that is not 0 is scanned to its end, in base 10 and in base 0. *)
Lemma scan_number_pos p base : base = 0 \/ base = 10 -> scan_number base (pretty (Z.pos p)) = Some (false, Z.pos p, EmptyString).
Proof.
  intros Hb. unfold pretty, pretty_Z, pretty, pretty_positive, pretty, pretty_N. rewrite decide_False by done.
  destruct (pretty_go_head (N.pos p) EmptyString) as (d & s' & Hd & Hs); [lia|]. pose proof (scan_pretty_go (N.pos p) EmptyString ltac:(lia)) as Hv.
  rewrite Hs in *. clear Hs.
  assert (d = 1 \/ d = 2 \/ d = 3 \/ d = 4 \/ d = 5 \/ d = 6 \/ d = 7 \/ d = 8 \/ d = 9)%N as Hx by lia.
  unfold scan_number. repeat (destruct Hx as [->|Hx]); subst; destruct Hb as [-> | ->]; cbn [pretty_N_char skip_spaces scan_prefix];
    change (is_space _) with false; cbv iota; cbn [scan_prefix Z.eqb]; cbn [pretty_N_char] in Hv; by rewrite Hv.
Qed.

Lemma scan_number_pretty x base : 0 <= x -> base = 0 \/ base = 10 -> scan_number base (pretty x) = Some (false, x, EmptyString).
Proof. intros Hx Hb. destruct x as [|p|p]; [by destruct Hb as [-> | ->]|by apply scan_number_pos|lia]. Qed.

Lemma strtoul_pretty x : 0 <= x <= ULONG_MAX -> strtoul (pretty x) 10 = (x, EmptyString).
Proof. intros Hx. unfold strtoul. rewrite scan_number_pretty by (lia || auto). by rewrite (proj2 (Z.ltb_ge _ _)) by lia. Qed.

Lemma strtoll_pretty x base : 0 <= x <= LLONG_MAX -> base = 0 \/ base = 10 -> strtoll (pretty x) base = (x, EmptyString, false).
Proof.
  intros Hx Hb. unfold strtoll. rewrite scan_number_pretty by (lia || done). unfold LLONG_MAX, LLONG_MIN in *.
  by rewrite (proj2 (Z.ltb_ge _ _)), (proj2 (Z.ltb_ge _ _)) by lia.
Qed.

Lemma atoi_pretty x : 0 <= x < 2 ^ 31 -> atoi (pretty x) = Some x.
Proof.
  intros Hx. unfold atoi. rewrite strtoll_pretty by (unfold LLONG_MAX; auto || lia). by rewrite (proj2 (Z.leb_le _ _)), (proj2 (Z.ltb_lt _ _)) by lia.
Qed.

Lemma pretty_not_empty (x : Z) : pretty x <> EmptyString.
Proof.
  destruct x as [|p|p]; [done| |done]. unfold pretty, pretty_Z, pretty, pretty_positive, pretty, pretty_N. rewrite decide_False by done.
  destruct (pretty_go_head (N.pos p) EmptyString) as (d & s' & _ & ->); [lia|done].
Qed.

Lemma str_to_u16_pretty x name : in_u 16 x -> str_to_u16 (pretty x) name = inl x.
Proof.
  intros Hx. unfold in_u in Hx. unfold str_to_u16, str_to_int, str_to_llong, str_to_llong_with_tail. rewrite strtoll_pretty by (unfold LLONG_MAX; auto || lia).
  rewrite bool_decide_false by (intros E; by eapply pretty_not_empty). cbn [orb]. rewrite bool_decide_true by done. cbn [negb orb].
  rewrite (proj2 (Z.ltb_ge x (- 2 ^ 31))), (proj2 (Z.ltb_ge (2 ^ 31 - 1) x)) by lia. cbn [negb orb].
  by rewrite (proj2 (Z.ltb_ge _ _)), (proj2 (Z.ltb_ge _ _)) by lia.
Qed.
