(* ===== verification/OfpCtl.v ===== *)
(** * The commands of ovs-ofctl for programs and maps (utilities/ovs-ofctl.c)

    A command is the list of its words, argv[0] being its name; argv[argc] is NULL.  It ends with a
    fatal error, with an error that is only logged, or with a request for the switch.  The connection, the version it
    negotiates and the transaction id are arguments; so are the files and the standard input, and the values that
    [key_size] and [value_size] happen to have before they are assigned. *)

From stdpp Require Import pretty.
From S2P Require Import Prelude MapDef OfpBuf OfpMsgs OfpBpf BpfControl CStrings.

#[local] Open Scope Z_scope.

Inductive exit : Set := Fatal | Logged | Assertion.

(** ** Words *)

(** argv[i]; outside the array, and where NULL is used as a string, the C semantics ends. *)
Definition argv_at (argv : list string) (i : Z) : res exit (option string) :=
  if (0 <=? i) && (i <=? Z.of_nat (length argv)) then Ok (argv !! Z.to_nat i) else Undef.
Definition word (argv : list string) (i : Z) : res exit string :=
  let! w := argv_at argv i in res_of w.

(** [const ovs_be16 x = atoi(argv[i])]. *)
Definition id_word (argv : list string) (i : Z) : res exit Z :=
  let! w := word argv i in let! x := res_of (atoi w) in Ok (u16 x).

Definition argc (argv : list string) : Z := Z.of_nat (length argv).

(** ** Keys and values *)

(** The loop that looks for the word "value", from word [k] on. *)
Fixpoint value_word (k : Z) (args : list string) : Z :=
  match args with
  | [] => 0
  | w :: args' => if bool_decide (w = "value"%string) then k else value_word (k + 1) args'
  end.

Definition get_map_key_size (args : list string) (key_size : Z) : res exit Z :=
  let! first := word args 0 in
  if negb (bool_decide (first = "key"%string)) then Ok key_size
  else
    let value_pos := value_word 0 args in
    Ok (if value_pos =? 0 then u16 (u16 (argc args) - 1) else u16 (u16 value_pos - 1)).

Definition get_map_value_size (args : list string) (key_size value_size : Z) : res exit Z :=
  let value_pos := key_size + 1 in
  let! w := word args value_pos in
  if negb (bool_decide (w = "value"%string)) then Ok value_size
  else Ok (u16 (u16 (argc args) - value_pos - 1)).

(** The loops of [map_parse_key] and [map_parse_value]: [n] words from word [i] on. *)
Fixpoint parse_words (n : nat) (i : Z) (args : list string) : res exit bytes :=
  match n with
  | O => Ok []
  | S n' =>
      let! w := word args i in
      let '(x, endptr) := strtoul w 10 in
      if negb (bool_decide (endptr = EmptyString)) then Err Logged
      else let! rest := parse_words n' (i + 1) args in Ok (u8 x :: rest)
  end.

Definition map_parse_key (args : list string) (key_size : Z) : res exit bytes := parse_words (Z.to_nat key_size) 1 args.
Definition map_parse_value (args : list string) (key_size value_size : Z) : res exit bytes :=
  parse_words (Z.to_nat value_size) (key_size + 1 + 1) args.

(** ** Commands *)

(** A request that is sent without a reply, or whose reply is printed, in hexadecimal or verbosely if the flag is set. *)
Inductive sent_request : Type :=
| NoReply (request : ofpbuf)
| Printed (request : ofpbuf) (verbosity : bool).

Definition encoded {A} (r : res failure A) : res exit A :=
  match r with
  | Ok a => Ok a
  | Err _ => Err Assertion
  | Undef => Undef
  end.

Section Commands.
Context (junk : nat -> Z) (raw_infos : list raw_info) (raw_of : bpf_msg -> Z).
Context (version xid : Z).
Context (fopen : string -> option bytes) (stdin : bytes).
Context (key_size0 value_size0 : Z).

(** [char program[length]] and what is read into it. *)
Definition read_program (length : Z) (stream : bytes) : res exit bytes :=
  if length <=? 0 then Undef
  else if Z.of_nat (List.length stream) <? length then Err Fatal
  else Ok (take (Z.to_nat length) stream).

Definition ofctl_load_bpf_prog (argv : list string) : res exit sent_request :=
  let! prog_id := id_word argv 2 in
  let! filename := word argv 3 in
  let! program :=
    (if bool_decide (filename = "-"%string) then
       if argc argv <? 5 then Err Fatal
       else let! w := word argv 4 in let! length := res_of (atoi w) in read_program length stdin
     else
       match fopen filename with
       | None => Err Fatal
       | Some file => read_program (Z.of_nat (List.length file)) file
       end) in
  let! request := encoded (ofputil_encode_bpf_load_prog junk raw_infos raw_of version xid prog_id program) in
  Ok (NoReply request).

Definition ofctl_show_bpf_prog (argv : list string) : res exit sent_request :=
  let! w := argv_at argv 2 in
  let! prog := match w with None => Ok OFPBPF_ALL | Some w => let! x := res_of (atoi w) in Ok (u16 x) end in
  let! request := encoded (ofputil_encode_bpf_show_prog_request junk raw_infos raw_of version xid prog) in
  Ok (Printed request (prog =? OFPBPF_ALL)).

Definition ofctl_unload_bpf_prog (argv : list string) : res exit sent_request :=
  let! prog := id_word argv 2 in
  let! request := encoded (ofputil_encode_bpf_unload_prog junk raw_infos raw_of version xid prog) in
  Ok (NoReply request).

Definition ofctl_update_bpf_map (argv : list string) : res exit sent_request :=
  let! prog := id_word argv 2 in
  let! map := id_word argv 3 in
  let args := drop 4 argv in
  let! key_size := get_map_key_size args key_size0 in
  let! value_size := get_map_value_size args key_size value_size0 in
  if (key_size =? 0) || (value_size =? 0) then Err Fatal
  else
    let! key := map_parse_key args key_size in
    let! value := map_parse_value args key_size value_size in
    let! request := encoded (ofputil_encode_bpf_update_map junk raw_infos raw_of version xid prog map key value 1) in
    let! request := res_of request in
    Ok (NoReply request).

Definition ofctl_dump_bpf_map (argv : list string) : res exit sent_request :=
  let! prog := id_word argv 2 in
  let! map := id_word argv 3 in
  let! w := argv_at argv 4 in
  let hex := match w with None => false | Some w => bool_decide (w = "hex"%string) end in
  let! request := encoded (ofputil_encode_bpf_dump_map_request junk raw_infos raw_of version xid prog [map]) in
  Ok (Printed request hex).

Definition ofctl_delete_bpf_map (argv : list string) : res exit sent_request :=
  let! prog := id_word argv 2 in
  let! map := id_word argv 3 in
  let args := drop 4 argv in
  let! key_size := get_map_key_size args key_size0 in
  if key_size =? 0 then Err Fatal
  else
    let! key := map_parse_key args key_size in
    let! request := encoded (ofputil_encode_bpf_delete_bpf_map junk raw_infos raw_of version xid prog map key 1) in
    Ok (NoReply request).

(** ** Dispatch *)

(** [mode_rw] is set for the mode OVS_RW. *)
Record ovs_cmdl_command : Type := mk_command { cmd_name : string; min_args : Z; max_args : Z; handler : list string -> res exit sent_request; mode_rw : bool }.

Definition bpf_commands : list ovs_cmdl_command :=
  [mk_command "load-bpf-prog" 2 3 ofctl_load_bpf_prog true; mk_command "unload-bpf-prog" 2 2 ofctl_unload_bpf_prog true;
   mk_command "show-bpf-prog" 1 2 ofctl_show_bpf_prog true; mk_command "update-bpf-map" 7 (2 ^ 31 - 1) ofctl_update_bpf_map true;
   mk_command "dump-bpf-map" 3 4 ofctl_dump_bpf_map false; mk_command "delete-bpf-map" 5 (2 ^ 31 - 1) ofctl_delete_bpf_map false].

(** The commands from here on. *)
Fixpoint run_command (read_only : bool) (commands : list ovs_cmdl_command) (argv : list string) : res exit sent_request :=
  match commands with
  | [] => Err Fatal
  | p :: commands' =>
      let! w := word argv 0 in
      if bool_decide (cmd_name p = w) then
        let n_arg := argc argv - 1 in
        if n_arg <? min_args p then Err Fatal
        else if max_args p <? n_arg then Err Fatal
        else if read_only && mode_rw p then Err Fatal
        else handler p argv
      else run_command read_only commands' argv
  end.

(** Only the commands above; the other commands of ovs-ofctl are not looked for. *)
Definition ovs_cmdl_run_command__ (read_only : bool) (argv : list string) : res exit sent_request :=
  if argc argv <? 1 then Err Fatal else run_command read_only bpf_commands argv.

Definition ovs_cmdl_run_command (argv : list string) : res exit sent_request := ovs_cmdl_run_command__ false argv.
Definition ovs_cmdl_run_command_read_only (argv : list string) : res exit sent_request := ovs_cmdl_run_command__ true argv.

End Commands.
