(* ===== verification/OfpCtlProps.v ===== *)
(** * From the command line to the maps

    What a user types is what the program finds in its maps; and the command lines that are not
    treated as they should be. *)

From stdpp Require Import pretty.
From S2P Require Import Prelude Ebpf Memory Vm Interp ValidateInsts ValidateCfg RegState.
From S2P Require Import AluRange ValidateAccesses Helpers MapDef HashMap Maps Loader BpfProg.
From S2P Require Import OfpBuf OfpBufProps OfpMsgs OfpMsgsProps OfpBpf OfpBpfProps BpfControl.
From S2P Require Import BpfControlProps BpfControlMaps.
From S2P Require Import CStrings OfpCtl.

#[local] Open Scope Z_scope.

(** ** Words *)

Lemma pretty_not_value (b : Z) : 0 <= b -> pretty b <> "value"%string.
Proof.
  intros Hb E. pose proof (scan_number_pretty b 10 Hb ltac:(auto)) as H. rewrite E in H. discriminate H.
Qed.

Lemma word_at argv i w : argv !! i = Some w -> word argv (Z.of_nat i) = Ok w.
Proof.
  intros H. unfold word, argv_at. pose proof (lookup_lt_Some _ _ _ H). rewrite (proj2 (Z.leb_le _ _)), (proj2 (Z.leb_le _ _)) by lia.
  cbn [andb res_bind]. by rewrite Nat2Z.id, H.
Qed.

Lemma parse_words_pretty bs : forall i args rest, wf_bytes bs -> drop i args = ((pretty : Z -> string) <$> bs) ++ rest ->
  parse_words (length bs) (Z.of_nat i) args = Ok bs.
Proof.
  induction bs as [|b bs IH]; intros i args rest Hb Hd; [done|]. apply Forall_cons in Hb as [Hb1 Hb]. cbn [fmap list_fmap app] in Hd. cbn [length parse_words].
  assert (args !! i = Some (pretty b)) as Hi by (rewrite <- (Nat.add_0_r i), <- lookup_drop, Hd; done).
  rewrite (word_at _ _ _ Hi). cbn [res_bind]. unfold in_u in Hb1. rewrite strtoul_pretty by (unfold ULONG_MAX; lia).
  rewrite bool_decide_true by done. cbn [negb]. replace (Z.of_nat i + 1) with (Z.of_nat (S i)) by lia.
  rewrite (IH (S i) args rest Hb) by (by rewrite <- Nat.add_1_r, <- drop_drop, Hd). cbn [res_bind]. by rewrite wrap_small.
Qed.

Lemma value_word_found bs rest : forall k, wf_bytes bs -> value_word k (((pretty : Z -> string) <$> bs) ++ "value"%string :: rest) = k + Z.of_nat (length bs).
Proof.
  induction bs as [|b bs IH]; intros k Hb; cbn [fmap list_fmap app value_word length]; [rewrite bool_decide_true by done; lia|].
  apply Forall_cons in Hb as [Hb1 Hb]. unfold in_u in Hb1. rewrite bool_decide_false by (apply pretty_not_value; lia). rewrite IH by done. lia.
Qed.

Lemma value_word_none bs : forall k, wf_bytes bs -> value_word k ((pretty : Z -> string) <$> bs) = 0.
Proof.
  induction bs as [|b bs IH]; intros k Hb; cbn [fmap list_fmap value_word]; [done|].
  apply Forall_cons in Hb as [Hb1 Hb]. unfold in_u in Hb1. rewrite bool_decide_false by (apply pretty_not_value; lia). by apply IH.
Qed.

Definition texts (bs : bytes) : list string := (pretty : Z -> string) <$> bs.
Definition key_words (key : bytes) : list string := "key"%string :: texts key.
Definition update_words (key value : bytes) : list string := key_words key ++ "value"%string :: texts value.

Lemma length_texts bs : length (texts bs) = length bs.
Proof. apply length_fmap. Qed.

Lemma id_word_pretty argv i x : argv !! i = Some (pretty x) -> in_u 16 x -> id_word argv (Z.of_nat i) = Ok x.
Proof.
  intros H Hx. unfold id_word. rewrite (word_at _ _ _ H). cbn [res_bind]. rewrite atoi_pretty by (unfold in_u in Hx; lia). cbn [res_of res_bind].
  by rewrite wrap_small.
Qed.

Lemma update_words_sizes key value k0 v0 : wf_bytes key -> Z.of_nat (length key) + Z.of_nat (length value) < 2 ^ 16 - 2 ->
  get_map_key_size (update_words key value) k0 = Ok (Z.of_nat (length key)) /\
  get_map_value_size (update_words key value) (Z.of_nat (length key)) v0 = Ok (Z.of_nat (length value)).
Proof.
  intros Hk Hl. assert (argc (update_words key value) = Z.of_nat (length key) + Z.of_nat (length value) + 2) as Ha.
  { unfold argc, update_words, key_words. rewrite length_app. cbn [length]. rewrite !length_texts. lia. }
  split.
  - unfold get_map_key_size. rewrite (word_at _ 0 "key"%string) by done. cbn [res_bind]. rewrite bool_decide_true by done. cbn [negb].
    unfold update_words, key_words. cbn [app value_word]. rewrite bool_decide_false by done. unfold texts. rewrite value_word_found by done.
    rewrite (proj2 (Z.eqb_neq _ _)) by lia. rewrite (wrap_small 16 (0 + 1 + _)) by (unfold in_u; lia). rewrite wrap_small by (unfold in_u; lia). by replace (0 + 1 + Z.of_nat (length key) - 1) with (Z.of_nat (length key)) by lia.
  - unfold get_map_value_size. replace (Z.of_nat (length key) + 1) with (Z.of_nat (S (length key))) by lia.
    rewrite (word_at _ _ "value"%string). 2: { unfold update_words, key_words. cbn [app]. rewrite lookup_cons. rewrite lookup_app_r by (rewrite length_texts; lia).
      by rewrite length_texts, Nat.sub_diag. }
    cbn [res_bind]. rewrite bool_decide_true by done. cbn [negb]. rewrite Ha, (wrap_small 16 (_ + _ + 2)) by (unfold in_u; lia).
    rewrite wrap_small by (unfold in_u; lia). by replace (Z.of_nat (length key) + Z.of_nat (length value) + 2 - Z.of_nat (S (length key)) - 1) with (Z.of_nat (length value)) by lia.
Qed.

Lemma key_words_size key k0 : wf_bytes key -> Z.of_nat (length key) < 2 ^ 16 - 1 -> get_map_key_size (key_words key) k0 = Ok (Z.of_nat (length key)).
Proof.
  intros Hk Hl. unfold get_map_key_size. rewrite (word_at _ 0 "key"%string) by done. cbn [res_bind]. rewrite bool_decide_true by done. cbn [negb].
  unfold key_words at 1. cbn [value_word]. rewrite bool_decide_false by done. unfold texts. rewrite value_word_none by done. cbn [Z.eqb].
  assert (argc (key_words key) = Z.of_nat (length key) + 1) as -> by (unfold argc, key_words; cbn [length]; rewrite length_texts; lia).
  rewrite (wrap_small 16 (_ + 1)) by (unfold in_u; lia). rewrite wrap_small by (unfold in_u; lia). by replace (Z.of_nat (length key) + 1 - 1) with (Z.of_nat (length key)) by lia.
Qed.

Lemma update_words_bytes key value : wf_bytes key -> wf_bytes value ->
  map_parse_key (update_words key value) (Z.of_nat (length key)) = Ok key /\
  map_parse_value (update_words key value) (Z.of_nat (length key)) (Z.of_nat (length value)) = Ok value.
Proof.
  intros Hk Hv. unfold map_parse_key, map_parse_value. rewrite !Nat2Z.id. split.
  - by apply (parse_words_pretty key 1 _ ("value"%string :: texts value)).
  - replace (Z.of_nat (length key) + 1 + 1) with (Z.of_nat (S (S (length key)))) by lia. apply (parse_words_pretty value _ _ []); [done|]. rewrite app_nil_r.
    unfold update_words, key_words. cbn [app drop]. rewrite <- Nat.add_1_r, <- drop_drop, <- (length_texts key), drop_app_length. done.
Qed.

Section Commands.
Context (junk : nat -> Z) (raw_infos : list raw_info) (raw_of : bpf_msg -> Z) (v xid : Z).
Context (fopen : string -> option bytes) (stdin : bytes) (k0 v0 : Z).
Abbreviation run := (ovs_cmdl_run_command junk raw_infos raw_of v xid fopen stdin k0 v0).

Lemma run_hit c argv : argv !! 0%nat = Some (cmd_name c) -> c ∈ bpf_commands junk raw_infos raw_of v xid fopen stdin k0 v0 ->
  min_args c <= argc argv - 1 <= max_args c -> run argv = handler c argv.
Proof.
  intros H0 Hc Hn. unfold ovs_cmdl_run_command, ovs_cmdl_run_command__. assert (1 <= argc argv) by (unfold argc; destruct argv; [done|cbn [length]; lia]).
  rewrite (proj2 (Z.ltb_ge _ _)) by lia. unfold bpf_commands in *.
  assert (word argv 0 = Ok (cmd_name c)) as Hw by exact (word_at _ 0 _ H0).
  repeat (apply elem_of_cons in Hc as [->|Hc]; [cbn [run_command]; rewrite Hw; cbn [res_bind cmd_name min_args max_args handler] in *;
    repeat (rewrite bool_decide_false by done); rewrite bool_decide_true by done;
    rewrite (proj2 (Z.ltb_ge _ _)), (proj2 (Z.ltb_ge _ _)) by lia; done|]).
  by apply not_elem_of_nil in Hc.
Qed.

(** An update that is typed. *)
Lemma update_command_sends br prog map key value b :
  in_u 16 prog -> in_u 16 map -> wf_bytes key -> wf_bytes value -> key <> [] -> value <> [] ->
  Z.of_nat (length key) + Z.of_nat (length value) < 2 ^ 16 - 2 ->
  ofputil_encode_bpf_update_map junk raw_infos raw_of v xid prog map key value 1 = Ok (Some b) ->
  run (["update-bpf-map"%string; br; pretty prog; pretty map] ++ update_words key value) = Ok (NoReply b).
Proof.
  intros Hp Hm Hk Hv Hk0 Hv0 Hl E. set (argv := _ ++ _).
  assert (1 <= Z.of_nat (length key)) by (destruct key; [done|cbn [length]; lia]). assert (1 <= Z.of_nat (length value)) by (destruct value; [done|cbn [length]; lia]).
  assert (argc argv = Z.of_nat (length key) + Z.of_nat (length value) + 6) as Ha.
  { unfold argc, argv, update_words, key_words. rewrite !length_app. cbn [length]. rewrite !length_texts. lia. }
  rewrite (run_hit (mk_command "update-bpf-map" 7 (2 ^ 31 - 1) (ofctl_update_bpf_map junk raw_infos raw_of v xid k0 v0) true));
    [|done|by (do 3 right; left)|cbn [min_args max_args]; lia].
  cbn [handler]. unfold ofctl_update_bpf_map. change 2 with (Z.of_nat 2) at 1. change 3 with (Z.of_nat 3) at 1.
  rewrite (id_word_pretty argv 2 prog), (id_word_pretty argv 3 map) by done. cbn [res_bind].
  change (drop 4 argv) with (update_words key value). destruct (update_words_sizes key value k0 v0 Hk Hl) as [E1 E2]. rewrite E1. cbn [res_bind]. rewrite E2. cbn [res_bind].
  rewrite !(proj2 (Z.eqb_neq _ _)) by lia. cbn [orb]. destruct (update_words_bytes key value Hk Hv) as [E3 E4].
  rewrite E3. cbn [res_bind]. rewrite E4. cbn [res_bind].
  rewrite E. done.
Qed.
End Commands.

(** ** What is typed is what the switch decodes *)

Section Typed.
Context (junk : nat -> Z) (raw_infos : list raw_info) (raw_of : bpf_msg -> Z) (Ht : bpf_table raw_infos raw_of).
Context (v xid : Z) (Hv : 1 <= v <= 6) (Hx : in_u 32 xid).
Context (fopen : string -> option bytes) (stdin : bytes) (k0 v0 : Z).
Abbreviation run := (ovs_cmdl_run_command junk raw_infos raw_of v xid fopen stdin k0 v0).
Context (br : string) (prog map : Z) (Hp : in_u 16 prog) (Hm : in_u 16 map).

(** The command [c] is in the table and its words are between its bounds. *)
Ltac hit := erewrite (run_hit junk raw_infos raw_of v xid fopen stdin k0 v0 (mk_command _ _ _ _ _));
  [cbn [handler]|reflexivity|unfold bpf_commands; repeat first [left; reflexivity|right]|unfold argc; cbn [min_args max_args length]; lia].

Lemma sends_request r wire : sends r wire -> exists b, r = Ok b /\ sends (Ok b) wire.
Proof using. intros (b & b' & -> & H). exists b. split; [done|]. by exists b, b'. Qed.

Lemma load_typed file elf : file <> "-"%string -> fopen file = Some elf -> 0 < Z.of_nat (length elf) < 2 ^ 16 - 24 ->
  exists b wire, run ["load-bpf-prog"%string; br; pretty prog; file] = Ok (NoReply b) /\ sends (Ok b) wire /\
    ofputil_decode_bpf_load_prog raw_infos raw_of wire = Ok (mk_load prog (Z.of_nat (length elf)), elf).
Proof.
  intros Hf Eo Hl. destruct (load_roundtrip junk raw_infos raw_of Ht v xid Hv Hx prog elf Hp) as (wire & (b & E & Hs)%sends_request & Hd); [lia|].
  exists b, wire. split; [|split; [done|by rewrite Hd, (proj2 (Z.eqb_neq _ _)) by lia]]. hit. unfold ofctl_load_bpf_prog. set (argv := [_; _; _; _]).
  change 2 with (Z.of_nat 2) at 1. rewrite (id_word_pretty argv 2 prog) by done. change 3 with (Z.of_nat 3) at 1. rewrite (word_at argv 3 file) by done. cbn [res_bind].
  rewrite bool_decide_false by done. rewrite Eo. unfold read_program. rewrite (proj2 (Z.leb_gt _ _)), Z.ltb_irrefl by lia. cbn [res_bind].
  rewrite take_ge by lia. rewrite E. done.
Qed.

Lemma unload_typed : exists b wire, run ["unload-bpf-prog"%string; br; pretty prog] = Ok (NoReply b) /\ sends (Ok b) wire /\
    ofputil_decode_bpf_unload_prog raw_infos raw_of wire = Ok (mk_prog prog).
Proof.
  destruct (unload_roundtrip junk raw_infos raw_of Ht v xid Hv Hx prog Hp) as (wire & (b & E & Hs)%sends_request & Hd).
  exists b, wire. split; [|done]. hit. unfold ofctl_unload_bpf_prog. set (argv := [_; _; _]).
  change 2 with (Z.of_nat 2). rewrite (id_word_pretty argv 2 prog) by done. cbn [res_bind]. by rewrite E.
Qed.

Lemma show_typed : prog <> 0 -> exists b wire, run ["show-bpf-prog"%string; br; pretty prog] = Ok (Printed b (prog =? OFPBPF_ALL)) /\ sends (Ok b) wire /\
    ofputil_decode_bpf_show_prog_request raw_infos raw_of wire = Ok (mk_show prog).
Proof.
  intros Hp0. destruct (show_roundtrip junk raw_infos raw_of Ht v xid Hv Hx prog Hp) as (wire & (b & E & Hs)%sends_request & Hd).
  exists b, wire. split; [|split; [done|by rewrite Hd, (proj2 (Z.eqb_neq _ _))]]. hit. unfold ofctl_show_bpf_prog.
  cbn [argv_at]. unfold argv_at. cbn [res_bind lookup list_lookup Z.to_nat length]. 
  change ((0 <=? 2) && (2 <=? Z.of_nat 3)) with true. cbn [res_bind]. change (Z.to_nat 2) with 2%nat. cbn [lookup list_lookup].
  rewrite atoi_pretty by (unfold in_u in Hp; lia). cbn [res_of res_bind]. rewrite wrap_small by done. by rewrite E.
Qed.

Lemma update_typed key value : prog <> 0 -> wf_bytes key -> wf_bytes value -> key <> [] -> value <> [] ->
  Z.of_nat (length key) + Z.of_nat (length value) < 2 ^ 16 - 32 ->
  exists b wire, run (["update-bpf-map"%string; br; pretty prog; pretty map] ++ update_words key value) = Ok (NoReply b) /\ sends (Ok b) wire /\
    ofputil_decode_bpf_update_map raw_infos raw_of wire = Ok (mk_update prog map (Z.of_nat (length key)) (Z.of_nat (length value)) 1, key ++ value).
Proof.
  intros Hp0 Hk Hvl Hk0 Hv0 Hl. destruct (update_roundtrip junk raw_infos raw_of Ht v xid Hv Hx prog map key value Hp Hm Hl) as (b & wire & E & Hs & Hd).
  exists b, wire. split; [|split; [done|by rewrite Hd, (proj2 (Z.eqb_neq _ _))]]. apply update_command_sends; try done. lia.
Qed.

Lemma dump_typed hex : prog <> 0 -> exists b wire, run (["dump-bpf-map"%string; br; pretty prog; pretty map] ++ (if hex : bool then ["hex"%string] else [])) = Ok (Printed b hex) /\
    sends (Ok b) wire /\ ofputil_decode_bpf_dump_map_request raw_infos raw_of wire = Ok (mk_dump prog 1, ids_bytes [map]).
Proof.
  intros Hp0. destruct (dump_roundtrip junk raw_infos raw_of Ht v xid Hv Hx prog [map] Hp) as [(b & E & Hs)%sends_request Hd]; [cbn; lia|].
  eexists b, _. split; [|split; [exact Hs|by rewrite Hd, (proj2 (Z.eqb_neq _ _))]]. destruct hex; cbn [app]; hit; unfold ofctl_dump_bpf_map;
    change (id_word ?l 2) with (id_word l (Z.of_nat 2)); change (id_word ?l 3) with (id_word l (Z.of_nat 3));
    rewrite (id_word_pretty _ 2 prog), (id_word_pretty _ 3 map) by done; cbn [res_bind]; unfold argv_at; cbn [length Z.of_nat];
    [change ((0 <=? 4) && _) with true|change ((0 <=? 4) && _) with true]; cbn [res_bind]; change (Z.to_nat 4) with 4%nat; cbn [lookup list_lookup];
    rewrite E; done.
Qed.

Lemma delete_typed key : prog <> 0 -> wf_bytes key -> key <> [] -> Z.of_nat (length key) < 2 ^ 16 - 28 ->
  exists b wire, run (["delete-bpf-map"%string; br; pretty prog; pretty map] ++ key_words key) = Ok (NoReply b) /\ sends (Ok b) wire /\
    ofputil_decode_bpf_delete_map raw_infos raw_of wire = Ok (mk_delete prog map (Z.of_nat (length key)) 1, key).
Proof.
  intros Hp0 Hk Hk0 Hl. destruct (delete_roundtrip junk raw_infos raw_of Ht v xid Hv Hx prog map key Hp Hm Hl) as (wire & (b & E & Hs)%sends_request & Hd).
  exists b, wire. split; [|split; [done|by rewrite Hd, (proj2 (Z.eqb_neq _ _))]]. set (argv := _ ++ _).
  assert (1 <= Z.of_nat (length key)) by (destruct key; [done|cbn [length]; lia]).
  assert (argc argv = Z.of_nat (length key) + 5) as Ha by (unfold argc, argv, key_words; cbn [length app]; rewrite length_texts; lia).
  erewrite (run_hit junk raw_infos raw_of v xid fopen stdin k0 v0 (mk_command "delete-bpf-map" _ _ _ _)); [cbn [handler]|reflexivity|by (do 5 right; left)|cbn [min_args max_args]; lia].
  unfold ofctl_delete_bpf_map. change 2 with (Z.of_nat 2) at 1. change 3 with (Z.of_nat 3) at 1. rewrite (id_word_pretty argv 2 prog), (id_word_pretty argv 3 map) by done. cbn [res_bind].
  change (drop 4 argv) with (key_words key). rewrite key_words_size by (done || lia).
  cbn [res_bind]. rewrite (proj2 (Z.eqb_neq _ _)) by lia. unfold map_parse_key. rewrite Nat2Z.id.
  pose proof (parse_words_pretty key 1 (key_words key) [] Hk) as Hpw. change (Z.of_nat 1) with 1 in Hpw.
  rewrite Hpw by (by rewrite app_nil_r). cbn [res_bind]. by rewrite E.
Qed.
End Typed.



(** C5: An update, from the command line to the map: a well-formed command is sent, and the switch refuses it without any change, or afterwards the
    lookup helper finds the typed value under the typed key and under every other key what it found before. *)
Theorem update_command_visible `{KeyedMap wf} junk raw_infos raw_of v xid fopen stdin k0 v0 br st prog map vm a m key k value :
  bpf_table raw_infos raw_of -> 1 <= v <= 6 -> in_u 32 xid -> in_u 16 prog -> prog <> 0 -> in_u 16 map ->
  ofproto_get_ubpf_vm st prog = Some vm -> map < nb_maps vm -> map_at st vm map = Some (a, m) ->
  Z.of_nat (length key) + Z.of_nat (length value) < 2 ^ 16 - 32 -> wf_bytes key -> wf_bytes value -> key <> [] -> value <> [] ->
  wf m -> Z.of_nat (length key) = m_key_size m -> Z.of_nat (length value) = m_value_size m -> km_key m key = Some k ->
  exists b wire, ovs_cmdl_run_command junk raw_infos raw_of v xid fopen stdin k0 v0
      (["update-bpf-map"%string; br; pretty prog; pretty map] ++ update_words key value) = Ok (NoReply b) /\ sends (Ok b) wire /\
    let o := handle_bpf_update_map raw_infos raw_of false wire st in
    o = Fails st OFPERR_OFPBRC_EPERM \/
    exists m', o = Done (put_map st a m') None /\ wf m' /\ ubpf_map_lookup (Some m') (Some key) = Some (Some value, Some m') /\
      forall key' k', wf_bytes key' -> km_key m key' = Some k' -> k' <> k ->
        exists r, ubpf_map_lookup (Some m) (Some key') = Some (r, Some m) /\ ubpf_map_lookup (Some m') (Some key') = Some (r, Some m').
Proof.
  intros Ht Hv Hx Hp Hp0 Hm Hvm Hmap Hat Hl Hk Hvl Hk0 Hv0 Hwf Hks Hvs Hkey.
  destruct (update_visible junk raw_infos raw_of Ht v xid Hv Hx st prog map vm a m Hp Hp0 Hm Hvm Hmap Hat key k value Hl) as (b & wire & E & Hs & Ho);
    [by apply Forall_app|done|done|done|done|].
  exists b, wire. split; [|split; [exact Hs|exact Ho]]. apply update_command_sends; try done. lia.
Qed.

Lemma update_command_visible_witness :
  exists b wire, ovs_cmdl_run_command (fun _ => 9) bpf_infos bpf_raw 4 17 (fun _ => None) [] 0 0
      ["update-bpf-map"; "br0"; "1"; "0"; "key"; "1"; "0"; "0"; "0"; "value"; "1"; "2"; "3"; "4"; "5"; "6"; "7"; "8"]%string = Ok (NoReply b) /\ sends (Ok b) wire /\
    let o := handle_bpf_update_map bpf_infos bpf_raw false wire sample_state in
    o = Fails sample_state OFPERR_OFPBRC_EPERM \/
    exists m', o = Done (put_map sample_state sample_addr m') None /\
      ubpf_map_lookup (Some m') (Some [1; 0; 0; 0]) = Some (Some [1; 2; 3; 4; 5; 6; 7; 8], Some m').
Proof.
  destruct (update_command_visible (wf := wf_hash) (fun _ => 9) bpf_infos bpf_raw 4 17 (fun _ => None) [] 0 0 "br0" sample_state 1 0 sample_vm sample_addr sample_map
    [1; 0; 0; 0] [1; 0; 0; 0] [1; 2; 3; 4; 5; 6; 7; 8]) as (b & wire & E & Hs & H).
  - exact bpf_infos_ok.
  - lia.
  - split; vm_compute; congruence.
  - split; vm_compute; congruence.
  - lia.
  - split; vm_compute; congruence.
  - exact sample_get.
  - vm_compute. reflexivity.
  - exact sample_map_at.
  - cbn; lia.
  - apply wf_bytes_check. reflexivity.
  - apply wf_bytes_check. reflexivity.
  - discriminate.
  - discriminate.
  - exact sample_map_wf.
  - reflexivity.
  - reflexivity.
  - reflexivity.
  - exists b, wire. split; [exact E|]. split; [exact Hs|]. destruct H as [H|(m' & H & _ & Hl & _)]; [left; exact H|right].
    exists m'. split; [exact H|exact Hl].
Defined.

(** ** Command lines that are not treated as they should be *)

Section Faults.
Context (junk : nat -> Z) (raw_infos : list raw_info) (raw_of : bpf_msg -> Z) (v xid : Z).
Context (fopen : string -> option bytes) (stdin : bytes) (k0 v0 : Z).
Abbreviation run := (ovs_cmdl_run_command junk raw_infos raw_of v xid fopen stdin k0 v0).
Context (br : string) (prog map : Z) (Hp : in_u 16 prog) (Hm : in_u 16 map).

Lemma run_many c argv : argv !! 0%nat = Some (cmd_name c) -> c ∈ bpf_commands junk raw_infos raw_of v xid fopen stdin k0 v0 ->
  min_args c <= max_args c < argc argv - 1 -> run argv = Err Fatal.
Proof using.
  intros H0 Hc Hn. unfold ovs_cmdl_run_command, ovs_cmdl_run_command__. assert (1 <= argc argv) by (unfold argc; destruct argv; [done|cbn [length]; lia]).
  rewrite (proj2 (Z.ltb_ge _ _)) by lia. unfold bpf_commands in *. assert (word argv 0 = Ok (cmd_name c)) as Hw by exact (word_at _ 0 _ H0).
  repeat (apply elem_of_cons in Hc as [->|Hc]; [cbn [run_command]; rewrite Hw; cbn [res_bind cmd_name min_args max_args handler] in *;
    repeat (rewrite bool_decide_false by done); rewrite bool_decide_true by done;
    rewrite (proj2 (Z.ltb_ge _ _)), (proj2 (Z.ltb_lt _ _)) by lia; done|]).
  by apply not_elem_of_nil in Hc.
Qed.

Lemma load_stdin_refused length : run ["load-bpf-prog"%string; br; pretty prog; "-"%string] = Err Fatal /\ run ["load-bpf-prog"%string; br; pretty prog; "-"%string; length] = Err Fatal.
Proof.
  split.
  - erewrite (run_hit junk raw_infos raw_of v xid fopen stdin k0 v0 (mk_command "load-bpf-prog" _ _ _ _)); [cbn [handler]|reflexivity|by left|unfold argc; cbn [min_args max_args List.length]; lia].
    unfold ofctl_load_bpf_prog. change (id_word ?l 2) with (id_word l (Z.of_nat 2)). by rewrite (id_word_pretty _ 2 prog) by done.
  - apply (run_many (mk_command "load-bpf-prog" 2 3 (ofctl_load_bpf_prog junk raw_infos raw_of v xid fopen stdin) true)); [done|by left|unfold argc; cbn; lia].
Qed.

Lemma load_without_file : run ["load-bpf-prog"%string; br; pretty prog] = Undef.
Proof.
  erewrite (run_hit junk raw_infos raw_of v xid fopen stdin k0 v0 (mk_command "load-bpf-prog" _ _ _ _)); [cbn [handler]|reflexivity|by left|unfold argc; cbn [min_args max_args List.length]; lia].
  unfold ofctl_load_bpf_prog. change (id_word ?l 2) with (id_word l (Z.of_nat 2)). by rewrite (id_word_pretty _ 2 prog) by done.
Qed.

Lemma update_without_value key : wf_bytes key -> (3 <= length key)%nat -> Z.of_nat (length key) < 2 ^ 16 - 1 ->
  run (["update-bpf-map"%string; br; pretty prog; pretty map] ++ key_words key) = Undef.
Proof.
  intros Hk H3 Hl. set (argv := _ ++ _). assert (argc argv = Z.of_nat (length key) + 5) as Ha by (unfold argc, argv, key_words; cbn [length app]; rewrite length_texts; lia).
  erewrite (run_hit junk raw_infos raw_of v xid fopen stdin k0 v0 (mk_command "update-bpf-map" _ _ _ _)); [cbn [handler]|reflexivity|by (do 3 right; left)|cbn [min_args max_args]; lia].
  unfold ofctl_update_bpf_map. change 2 with (Z.of_nat 2) at 1. change 3 with (Z.of_nat 3) at 1. rewrite (id_word_pretty argv 2 prog), (id_word_pretty argv 3 map) by done. cbn [res_bind].
  change (drop 4 argv) with (key_words key). rewrite key_words_size by (done || lia). cbn [res_bind]. unfold get_map_value_size, word, argv_at.
  assert (length (key_words key) = S (length key)) as Hlen by (unfold key_words; cbn [length]; by rewrite length_texts).
  rewrite (proj2 (Z.leb_le _ _)), (proj2 (Z.leb_le _ _)) by lia. cbn [andb res_bind]. rewrite lookup_ge_None_2 by lia. done.
Qed.
End Faults.

(** In read-only mode the commands that are marked as changing something are refused.  Deletion is not marked: it is run. *)
Theorem read_only_commands junk raw_infos raw_of v xid fopen stdin k0 v0 argv :
  let run := ovs_cmdl_run_command junk raw_infos raw_of v xid fopen stdin k0 v0 in
  let run_ro := ovs_cmdl_run_command_read_only junk raw_infos raw_of v xid fopen stdin k0 v0 in
  (argv !! 0%nat = Some "delete-bpf-map"%string \/ argv !! 0%nat = Some "dump-bpf-map"%string -> run_ro argv = run argv) /\
  (argv !! 0%nat = Some "load-bpf-prog"%string \/ argv !! 0%nat = Some "unload-bpf-prog"%string \/ argv !! 0%nat = Some "show-bpf-prog"%string \/
   argv !! 0%nat = Some "update-bpf-map"%string -> run_ro argv = Err Fatal).
Proof.
  intros run run_ro. unfold run, run_ro, ovs_cmdl_run_command, ovs_cmdl_run_command_read_only, ovs_cmdl_run_command__, bpf_commands.
  destruct argv as [|w argv]; [split; [by intros [?|?]|done]|]. cbn [lookup list_lookup]. split.
  - intros [[= ->]|[= ->]]; reflexivity.
  - destruct (argc (w :: argv) <? 1); [done|]. assert (word (w :: argv) 0 = Ok w) as Hw by reflexivity.
    intros [[= ->]|[[= ->]|[[= ->]|[= ->]]]]; cbn [run_command]; rewrite Hw; cbn [res_bind cmd_name min_args max_args mode_rw andb];
      repeat (rewrite bool_decide_false by done); rewrite bool_decide_true by done; by destruct (_ <? _); [|destruct (_ <? _)].
Qed.

(** Command lines that are not treated as they should be: a program cannot be read from the standard input, with or without a length; without a file name
    or without the word "value" a null pointer is used; without the word "key" the outcome depends on an uninitialised variable; a word that is no
    number is only logged; and numbers that are no bytes are taken for bytes. *)
Theorem command_faults junk v xid fopen stdin k0 v0 br prog map length key :
  in_u 16 prog -> in_u 16 map -> wf_bytes key -> (3 <= List.length key)%nat -> Z.of_nat (List.length key) < 2 ^ 16 - 1 ->
  let run k0 v0 := ovs_cmdl_run_command junk bpf_infos bpf_raw v xid fopen stdin k0 v0 in
  run k0 v0 ["load-bpf-prog"%string; br; pretty prog; "-"%string] = Err Fatal /\
  run k0 v0 ["load-bpf-prog"%string; br; pretty prog; "-"%string; length] = Err Fatal /\
  run k0 v0 ["load-bpf-prog"%string; br; pretty prog] = Undef /\
  run k0 v0 (["update-bpf-map"%string; br; pretty prog; pretty map] ++ key_words key) = Undef /\
  run 9 v0 ["update-bpf-map"; br; "1"; "0"; "kee"; "5"; "value"; "6"]%string = Undef /\
  run 1 v0 ["update-bpf-map"; br; "1"; "0"; "kee"; "5"; "value"; "6"]%string = run k0 v0 ["update-bpf-map"; br; "1"; "0"; "key"; "5"; "value"; "6"]%string /\
  run k0 v0 ["update-bpf-map"; br; "1"; "0"; "key"; "0x5"; "value"; "6"]%string = Err Logged /\
  run k0 v0 ["update-bpf-map"; br; "1"; "0"; "key"; "256"; "value"; "-1"]%string = run k0 v0 ["update-bpf-map"; br; "1"; "0"; "key"; "0"; "value"; "255"]%string.
Proof.
  intros Hp Hm Hk H3 Hl run. destruct (load_stdin_refused junk bpf_infos bpf_raw v xid fopen stdin k0 v0 br prog Hp length) as [H1 H2].
  split; [exact H1|]. split; [exact H2|]. split; [by apply load_without_file|]. split; [by apply update_without_value|]. by split_and!.
Qed.

Lemma command_faults_witness :
  ovs_cmdl_run_command (fun _ => 9) bpf_infos bpf_raw 4 17 (fun _ => None) [] 0 0 ["load-bpf-prog"; "br0"; "1"; "-"; "8"]%string = Err Fatal /\
  ovs_cmdl_run_command (fun _ => 9) bpf_infos bpf_raw 4 17 (fun _ => None) [] 0 0 ["update-bpf-map"; "br0"; "1"; "0"; "key"; "1"; "2"; "3"]%string = Undef.
Proof.
  destruct (command_faults (fun _ => 9) 4 17 (fun _ => None) [] 0 0 "br0" 1 0 "8" [1; 2; 3]) as (_ & H1 & _ & H2 & _).
  - split; vm_compute; congruence.
  - split; vm_compute; congruence.
  - apply wf_bytes_check. reflexivity.
  - cbn; lia.
  - cbn; lia.
  - split; [exact H1|exact H2].
Defined.
