(* ===== verification/BpfAction.v ===== *)
(** * The action that runs a program (lib/ofp-actions.c, ofproto/ofproto-dpif-xlate.c, lib/netlink.c)

    A flow names a program by its id, in text, in OpenFlow messages and in the list of actions of the
    switch; translation to the datapath replaces the id by the address of the machine, in a Netlink
    attribute.  Lists of actions are buffers, positions in them offsets.  The address of a machine is the
    argument [vm_addr]; [put_NXAST_EXECUTE_PROG], which the build generates, is an argument too. *)

From Stdlib Require Import Ascii.
From stdpp Require Import pretty.
From S2P Require Import Prelude Ebpf Memory Vm Interp MapDef OfpBuf OfpMsgs OfpBpf BpfControl.
From S2P Require Import CStrings.

#[local] Open Scope Z_scope.

(** ** Netlink attributes *)

Definition NLMSG_ALIGNTO : Z := 4.
Definition NLA_HDRLEN : Z := 4.
Definition UINT16_MAX : Z := 65535.
Definition OVS_ACTION_ATTR_EXECUTE_PROG : Z := 22.

Definition ROUND_UP (x y : Z) : Z := (x + (y - 1)) / y * y.
Definition PAD_SIZE (x y : Z) : Z := ROUND_UP x y - x.

Definition nl_attr_oversized (payload_size : Z) : bool := UINT16_MAX - NLA_HDRLEN <? payload_size.

(** The length field of the attribute at [nla]. *)
Definition nla_len (b : ofpbuf) (nla : Z) : res unit Z :=
  let! h := res_of (peek (ob_mem b) nla 2) in Ok (le_value h).

Definition nl_attr_get (b : ofpbuf) (nla : Z) : res unit Z :=
  let! n := nla_len b nla in if NLA_HDRLEN <=? n then Ok (nla + 4) else Err tt.

Definition nl_attr_get_size (b : ofpbuf) (nla : Z) : res unit Z :=
  let! n := nla_len b nla in if NLA_HDRLEN <=? n then Ok (n - NLA_HDRLEN) else Err tt.

Definition nl_attr_get_unspec (b : ofpbuf) (nla size : Z) : res unit Z :=
  let! n := nla_len b nla in if NLA_HDRLEN + size <=? n then Ok (nla + 4) else Err tt.

Definition nl_attr_get_u16 (b : ofpbuf) (nla : Z) : res unit Z :=
  let! p := nl_attr_get_unspec b nla 2 in let! x := res_of (peek (ob_mem b) p 2) in Ok (le_value x).

Section Action.
Context (junk : nat -> Z).

Definition nl_msg_put_uninit (msg : ofpbuf) (size : Z) : res unit (Z * ofpbuf) :=
  let pad := PAD_SIZE size NLMSG_ALIGNTO in
  let! (p, msg) := ofpbuf_put_uninit junk msg (size + pad) in
  let! msg := if pad =? 0 then Ok msg else store msg (p + size) (replicate (Z.to_nat pad) 0) in
  Ok (p, msg).

Definition nl_msg_put_unspec_uninit (msg : ofpbuf) (type size : Z) : res unit (Z * ofpbuf) :=
  let total_size := NLA_HDRLEN + size in
  let! (nla, msg) := nl_msg_put_uninit msg total_size in
  if nl_attr_oversized size then Err tt
  else
    let! msg := store msg nla (le_bytes 2 (u16 total_size)) in
    let! msg := store msg (nla + 2) (le_bytes 2 (u16 type)) in
    Ok (nla + 4, msg).

Definition nl_msg_put_unspec (msg : ofpbuf) (type : Z) (data : bytes) : res unit ofpbuf :=
  let! (ptr, msg) := nl_msg_put_unspec_uninit msg type (Z.of_nat (length data)) in
  if Z.of_nat (length data) =? 0 then Ok msg else store msg ptr data.

Definition nl_msg_put_u16 (msg : ofpbuf) (type value : Z) : res unit ofpbuf := nl_msg_put_unspec msg type (le_bytes 2 value).

(** ** The action of a flow *)

(** [OFPACT_EXECUTE_PROG] is the last of the actions; the structure is a type, [raw], the length, and the id, padded to 8. *)
Definition OFPACT_EXECUTE_PROG : Z := 58.
Definition sizeof_ofpact_execute_prog : Z := 8.

Definition ofpact_init (b : ofpbuf) (ofpact type len : Z) : res unit ofpbuf :=
  let! b := store b ofpact (replicate (Z.to_nat len) 0) in
  let! b := store b ofpact (le_bytes 1 (u8 type)) in
  let! b := store b (ofpact + 1) (le_bytes 1 (u8 (-1))) in
  store b (ofpact + 2) (le_bytes 2 (u16 len)).

Definition ofpact_put (ofpacts : ofpbuf) (type len : Z) : res unit (Z * ofpbuf) :=
  let! (header, b) := ofpbuf_put_uninit junk ofpacts len in
  let b := set_marks b (Some header) (ob_msg b) in
  let! b := ofpact_init b header type len in
  Ok (header, b).

Definition ofpact_put_EXECUTE_PROG (ofpacts : ofpbuf) : res unit (Z * ofpbuf) :=
  ofpact_put ofpacts OFPACT_EXECUTE_PROG sizeof_ofpact_execute_prog.

(** The id of the action at [a]. *)
Definition ofpact_get_prog_id (ofpacts : ofpbuf) (a : Z) : res unit Z :=
  let! t := res_of (peek (ob_mem ofpacts) a 1) in
  if le_value t =? OFPACT_EXECUTE_PROG then let! i := res_of (peek (ob_mem ofpacts) (a + 4) 2) in Ok (le_value i) else Err tt.

(** The wire format is read at [nebp] of a message. *)
Definition decode_NXAST_RAW_EXECUTE_PROG (msg : bytes) (nebp : Z) (out : ofpbuf) : res unit ofpbuf :=
  let! (oep, out) := ofpact_put_EXECUTE_PROG out in
  let! i := res_of (peek msg (nebp + 10) 2) in
  store out (oep + 4) (le_bytes 2 (be_value i)).

Definition encode_EXECUTE_PROG (put_NXAST_EXECUTE_PROG : ofpbuf -> res unit (Z * ofpbuf)) (prog_id : Z) (out : ofpbuf) : res unit ofpbuf :=
  let! (nebp, out) := put_NXAST_EXECUTE_PROG out in store out (nebp + 10) (be_bytes 2 prog_id).

(** [colors.param] and [colors.end] are the arguments. *)
Definition format_EXECUTE_PROG (param end_ : string) (prog_id : Z) : string :=
  (param +:+ "prog:" +:+ end_ +:+ pretty prog_id)%string.

(** The action is appended before its argument is read: with an error it stays, with the id 0. *)
Definition parse_EXECUTE_PROG (arg : string) (ofpacts : ofpbuf) : res unit (option string * ofpbuf) :=
  let! (a, b) := ofpact_put_EXECUTE_PROG ofpacts in
  match str_to_u16 arg "prog_id" with
  | inl id => let! b := store b (a + 4) (le_bytes 2 id) in Ok (None, b)
  | inr e => Ok (Some e, b)
  end.

(** The part of [ofproto_check_ofpacts] for this action. *)
Definition check_execute_prog (st : ctl) (prog_id : Z) : option ofperr :=
  if negb (ofproto_bpf_prog_exists st prog_id) then Some OFPERR_OFPBAC_BAD_ARGUMENT else None.

(** ** Translation *)

(** The walk over the machines with the hash of [prog] writes the address of each that has the id. *)
Fixpoint set_vm (vm_addr : ubpf_vm -> Z) (vms : list (ubpf_vm * option bytes)) (prog p : Z) (b : ofpbuf) : res unit ofpbuf :=
  match vms with
  | [] => Ok b
  | e :: vms' =>
      let! b := if has_id prog e then store b p (le_bytes 8 (vm_addr e.1)) else Ok b in
      set_vm vm_addr vms' prog p b
  end.

Definition xlate_execute_prog_action (vm_addr : ubpf_vm -> Z) (st : ctl) (odp_actions : ofpbuf) (prog_id : Z) : res unit ofpbuf :=
  let! (p, odp_actions) := nl_msg_put_unspec_uninit odp_actions OVS_ACTION_ATTR_EXECUTE_PROG 8 in
  set_vm vm_addr (ubpf_vms st) prog_id p odp_actions.

(** The machine that [odp_execute_bpf_prog] reads from the attribute at [a]. *)
Definition action_vm (b : ofpbuf) (a : Z) : res unit Z :=
  let! p := nl_attr_get b a in let! v := res_of (peek (ob_mem b) p 8) in Ok (le_value v).

(** The text of the datapath action at [a], and what is appended for such a text. *)
Definition format_odp_execute_prog (b : ofpbuf) (a : Z) : res unit string :=
  let! x := nl_attr_get_u16 b a in Ok ("prog(" +:+ pretty x +:+ ")")%string.

Definition put_odp_execute_prog (actions : ofpbuf) (prog_id : Z) : res unit ofpbuf :=
  nl_msg_put_u16 actions OVS_ACTION_ATTR_EXECUTE_PROG prog_id.
End Action.
