(* ===== verification/BpfActionProps.v ===== *)
(** * What the action runs

    The attribute that translation appends names the machine with the id of the flow, if it is loaded; text and
    wire format keep the id.  And what happens to flows whose program was unloaded. *)

From Stdlib Require Import Ascii.
From stdpp Require Import pretty.
From S2P Require Import Prelude Ebpf Memory Vm Interp MapDef OfpBuf OfpBufProps OfpMsgs.
From S2P Require Import OfpMsgsProps OfpBpf BpfControl CStrings BpfAction.

#[local] Open Scope Z_scope.

(** ** Layout of the buffers *)

(** Bytes stored [k] bytes behind a position of the contents. *)
Lemma store_at b pre c1 old c2 post p bs :
  lay b pre (c1 ++ old ++ c2) post -> length bs = length old -> p = Z.of_nat (length pre + length c1) ->
  exists b', store b p bs = Ok b' /\ lay b' pre (c1 ++ bs ++ c2) post /\ moved 0 b b' /\ ob_source b' = ob_source b /\ ob_allocated b' = ob_allocated b.
Proof. intros Hl Hb ->. rewrite <- length_app. by apply (store_lay b pre c1 old). Qed.

(** Bytes of the contents that are read. *)
Lemma peek_at b pre c1 c c2 post p n :
  lay b pre (c1 ++ c ++ c2) post -> p = Z.of_nat (length pre + length c1) -> n = Z.of_nat (length c) -> peek (ob_mem b) p n = Some c.
Proof.
  intros [Em _ _ _ _] -> ->. rewrite Em, <- length_app.
  replace (pre ++ (c1 ++ c ++ c2) ++ post) with ((pre ++ c1) ++ c ++ (c2 ++ post)) by (by rewrite <- !app_assoc). apply peek_app.
Qed.

Lemma split_bytes (l : bytes) n : (n <= length l)%nat -> exists l1 l2, l = l1 ++ l2 /\ length l1 = n.
Proof. intros H. exists (take n l), (drop n l). split; [by rewrite take_drop|]. rewrite length_take. lia. Qed.

Section Layout.
Context (junk : nat -> Z).

Definition attr_header (type size : Z) : bytes := le_bytes 2 (u16 (NLA_HDRLEN + size)) ++ le_bytes 2 (u16 type).

Lemma pad_bounds x : 0 <= PAD_SIZE x NLMSG_ALIGNTO < 4.
Proof. unfold PAD_SIZE, ROUND_UP, NLMSG_ALIGNTO. pose proof (Z.div_mod (x + (4 - 1)) 4). pose proof (Z.mod_pos_bound (x + (4 - 1)) 4). lia. Qed.

Lemma put_uninit_pad b pre c post size :
  let pad := PAD_SIZE size NLMSG_ALIGNTO in
  lay b pre c post -> growable b (size + pad) -> 0 <= size ->
  exists b' pre' slack post', nl_msg_put_uninit junk b size = Ok (Z.of_nat (length pre' + length c), b') /\
    lay b' pre' (c ++ slack ++ replicate (Z.to_nat pad) 0) post' /\ Z.of_nat (length slack) = size /\ grows b (size + pad) b'.
Proof.
  intros pad Hl Hg Hs. pose proof (pad_bounds size) as Hp. fold pad in Hp.
  destruct (put_uninit_lay junk b pre c post (size + pad) Hl Hg ltac:(lia)) as (b' & pre' & all & post' & E & Hl' & Hn & _ & _ & Hgr).
  destruct (split_bytes all (Z.to_nat size)) as (slack & old & -> & Hk); [lia|]. rewrite length_app in Hn.
  unfold nl_msg_put_uninit. fold pad. rewrite E. cbn [res_bind]. rewrite length_app. destruct (Z.eqb_spec pad 0) as [H0|H0].
  - rewrite H0 in *. destruct old; [|cbn in *; lia]. cbn [res_bind]. by exists b', pre', slack, post'; split_and!; try done; lia.
  - rewrite app_assoc in Hl'. rewrite <- (app_nil_r old) in Hl'.
    destruct (store_at b' pre' (c ++ slack) old [] post' (Z.of_nat (length pre' + length c) + size) (replicate (Z.to_nat pad) 0) Hl')
      as (b2 & E2 & Hl2 & _ & Hs2 & Ha2); [rewrite length_replicate; lia|rewrite length_app; lia|].
    rewrite E2. cbn [res_bind]. rewrite app_nil_r, <- app_assoc in Hl2. exists b2, pre', slack, post'. split_and!; try done; [lia|].
    destruct Hgr. split; by rewrite ?Hs2, ?Ha2.
Qed.

Lemma put_unspec_uninit_lay b pre c post type size :
  let pad := PAD_SIZE (NLA_HDRLEN + size) NLMSG_ALIGNTO in
  lay b pre c post -> growable b (NLA_HDRLEN + size + pad) -> 0 <= size <= UINT16_MAX - NLA_HDRLEN ->
  exists b' pre' slack post', nl_msg_put_unspec_uninit junk b type size = Ok (Z.of_nat (length pre' + length c) + 4, b') /\
    lay b' pre' (c ++ attr_header type size ++ slack ++ replicate (Z.to_nat pad) 0) post' /\ Z.of_nat (length slack) = size /\
    grows b (NLA_HDRLEN + size + pad) b'.
Proof.
  intros pad Hl Hg Hs. unfold NLA_HDRLEN, UINT16_MAX in *.
  destruct (put_uninit_pad b pre c post (4 + size) Hl Hg ltac:(lia)) as (b1 & pre' & all & post' & E & Hl1 & Hn & Hgr1 & Hgr2).
  destruct (split_bytes all 2) as (o1 & all2 & -> & H1); [lia|]. rewrite length_app in Hn.
  destruct (split_bytes all2 2) as (o2 & slack & -> & H2); [lia|]. rewrite length_app in Hn.
  unfold nl_msg_put_unspec_uninit, NLA_HDRLEN, nl_attr_oversized, UINT16_MAX. rewrite E. cbn [res_bind]. rewrite (proj2 (Z.ltb_ge _ _)) by (unfold NLA_HDRLEN; lia).
  rewrite <- !app_assoc in Hl1.
  destruct (store_at b1 pre' c o1 _ post' (Z.of_nat (length pre' + length c)) (le_bytes 2 (u16 (4 + size))) Hl1) as (b2 & E2 & Hl2 & _ & Hs2 & Ha2);
    [by rewrite length_le_bytes|lia|]. rewrite E2. cbn [res_bind]. rewrite app_assoc in Hl2.
  destruct (store_at b2 pre' _ o2 _ post' (Z.of_nat (length pre' + length c) + 2) (le_bytes 2 (u16 type)) Hl2) as (b3 & E3 & Hl3 & _ & Hs3 & Ha3);
    [by rewrite length_le_bytes|rewrite length_app, length_le_bytes; lia|]. rewrite E3. cbn [res_bind].
  exists b3, pre', slack, post'. split_and!; [done| |lia|split; [by rewrite Hs3, Hs2|by rewrite Ha3, Ha2]].
  unfold attr_header, NLA_HDRLEN. rewrite <- !app_assoc in *. exact Hl3.
Qed.
End Layout.

(** ** Translation *)

Lemma get_find st id vm : ofproto_get_ubpf_vm st id = Some vm -> exists e, e ∈ ubpf_vms st /\ e.1 = vm /\ has_id id e = true.
Proof.
  unfold ofproto_get_ubpf_vm. destruct (list_find _ _) as [[i e]|] eqn:E; [|done]. cbn. intros [= <-].
  apply list_find_Some in E as (Hi & Hd & _). exists e. split_and!; [by eapply list_elem_of_lookup_2|done|by apply Is_true_true].
Qed.

Lemma get_none st id e : ofproto_get_ubpf_vm st id = None -> e ∈ ubpf_vms st -> has_id id e = false.
Proof.
  unfold ofproto_get_ubpf_vm. destruct (list_find _ _) as [[i e']|] eqn:E; [done|]. intros _ He.
  apply list_find_None in E. rewrite Forall_forall in E. specialize (E e He). by destruct (has_id id e).
Qed.

Lemma set_vm_none vm_addr vms id p b : (forall e, e ∈ vms -> has_id id e = false) -> set_vm vm_addr vms id p b = Ok b.
Proof.
  induction vms as [|e vms IH]; intros H; [done|]. cbn [set_vm]. rewrite H by apply list_elem_of_here. cbn [res_bind].
  apply IH. intros e' He. apply H. by apply list_elem_of_further.
Qed.

(** The walk stores the one machine with the id. *)
Lemma set_vm_one vm_addr vms id e p b :
  NoDup ((fun e => Vm.prog_id e.1) <$> vms) -> e ∈ vms -> has_id id e = true ->
  set_vm vm_addr vms id p b = store b p (le_bytes 8 (vm_addr e.1)).
Proof.
  revert b. induction vms as [|x vms IH]; intros b Hn He Hi; [by apply elem_of_nil in He|]. rewrite fmap_cons in Hn. apply NoDup_cons in Hn as [Hx Hn].
  unfold has_id in Hi. apply Z.eqb_eq in Hi. apply elem_of_cons in He as [-> |He].
  - cbn [set_vm]. unfold has_id at 1. rewrite Hi, Z.eqb_refl. destruct (store b p _) as [b'| |]; [|done..]. cbn [res_bind].
    apply set_vm_none. intros e' He'. unfold has_id. apply Z.eqb_neq. intros E. apply Hx, list_elem_of_fmap. exists e'. split; [|done]. by rewrite Hi, E.
  - assert (has_id id x = false) as E.
    { unfold has_id. apply Z.eqb_neq. intros E. apply Hx, list_elem_of_fmap. exists e. split; [|done]. by rewrite Hi, E. }
    cbn [set_vm]. rewrite E. cbn [res_bind]. apply IH; try done. by apply Z.eqb_eq.
Qed.

Lemma read_action_vm b pre c x post : lay b pre (c ++ attr_header OVS_ACTION_ATTR_EXECUTE_PROG 8 ++ x) post -> length x = 8%nat ->
  action_vm b (Z.of_nat (length pre + length c)) = Ok (le_value x).
Proof.
  intros Hl Hx. unfold action_vm, nl_attr_get, nla_len. unfold attr_header in Hl. rewrite <- !app_assoc in Hl.
  rewrite (peek_at _ _ _ _ _ _ _ _ Hl) by (done || by rewrite length_le_bytes). cbn [res_of res_bind].
  change (NLA_HDRLEN <=? le_value (le_bytes 2 (u16 (NLA_HDRLEN + 8)))) with true. cbn [res_bind].
  rewrite (app_assoc c), (app_assoc (c ++ _)) in Hl. rewrite <- (app_nil_r x) in Hl.
  by rewrite (peek_at _ _ _ _ _ _ _ 8 Hl) by (rewrite ?length_app, ?length_le_bytes; lia).
Qed.


(** ** Round trips *)

Definition prog_action (id : Z) : bytes := [OFPACT_EXECUTE_PROG; 255; 8; 0] ++ le_bytes 2 id ++ [0; 0].

Section Actions.
Context (junk : nat -> Z).

(** An action is appended, and its id can then be set. *)
Lemma put_prog_lay b pre c post :
  lay b pre c post -> growable b 8 ->
  exists b' pre' post', ofpact_put_EXECUTE_PROG junk b = Ok (Z.of_nat (length pre' + length c), b') /\ lay b' pre' (c ++ prog_action 0) post'.
Proof.
  intros Hl Hg. unfold ofpact_put_EXECUTE_PROG, ofpact_put, sizeof_ofpact_execute_prog.
  destruct (put_uninit_lay junk b pre c post 8 Hl Hg ltac:(lia)) as (b1 & pre' & slack & post' & E & Hl1 & Hn & _). rewrite E. cbn [res_bind]. rewrite length_app.
  set (b2 := set_marks b1 _ _). assert (lay b2 pre' (c ++ slack) post') as Hl2 by (destruct Hl1; by split).
  clearbody b2. rewrite <- (app_nil_r slack) in Hl2. unfold ofpact_init.
  destruct (store_at b2 pre' c slack [] post' (Z.of_nat (length pre' + length c)) (replicate 8 0) Hl2) as (b3 & E3 & Hl3 & _); [cbn; lia|done|].
  change (replicate (Z.to_nat 8) 0) with (replicate 8 0). rewrite E3. cbn [res_bind].
  destruct (store_at b3 pre' c [0] (replicate 7 0) post' (Z.of_nat (length pre' + length c)) (le_bytes 1 (u8 OFPACT_EXECUTE_PROG)) Hl3) as (b4 & E4 & Hl4 & _); [done..|].
  rewrite E4. cbn [res_bind]. rewrite app_assoc in Hl4.
  destruct (store_at b4 pre' _ [0] (replicate 6 0) post' (Z.of_nat (length pre' + length c) + 1) (le_bytes 1 (u8 (-1))) Hl4) as (b5 & E5 & Hl5 & _);
    [done|rewrite length_app, length_le_bytes; lia|]. rewrite E5. cbn [res_bind]. rewrite app_assoc in Hl5.
  destruct (store_at b5 pre' _ [0; 0] (replicate 4 0) post' (Z.of_nat (length pre' + length c) + 2) (le_bytes 2 (u16 8)) Hl5) as (b6 & E6 & Hl6 & _);
    [done|rewrite !length_app, !length_le_bytes; lia|]. rewrite E6. cbn [res_bind]. rewrite <- !app_assoc in Hl6. by exists b6, pre', post'.
Qed.

Lemma set_prog_lay b pre c post id :
  lay b pre (c ++ prog_action 0) post ->
  exists b', store b (Z.of_nat (length pre + length c) + 4) (le_bytes 2 id) = Ok b' /\ lay b' pre (c ++ prog_action id) post.
Proof.
  unfold prog_action. rewrite !app_assoc. rewrite <- (app_assoc (c ++ _)). intros Hl.
  destruct (store_at b pre _ _ _ post (Z.of_nat (length pre + length c) + 4) (le_bytes 2 id) Hl) as (b' & E & Hl' & _);
    [by rewrite !length_le_bytes|rewrite length_app; cbn [length]; lia|]. exists b'. by rewrite <- app_assoc.
Qed.

(** The action is what [parse_EXECUTE_PROG] and the decoder leave. *)
Lemma parse_prog_lay b pre c post arg :
  lay b pre c post -> growable b 8 ->
  exists b' pre' post' r, parse_EXECUTE_PROG junk arg b = Ok (r, b') /\
    lay b' pre' (c ++ prog_action (match str_to_u16 arg "prog_id" with inl id => id | inr _ => 0 end)) post' /\
    r = match str_to_u16 arg "prog_id" with inl _ => None | inr e => Some e end.
Proof.
  intros Hl Hg. destruct (put_prog_lay b pre c post Hl Hg) as (b1 & pre' & post' & E & Hl1). unfold parse_EXECUTE_PROG. rewrite E. cbn [res_bind].
  destruct (str_to_u16 arg _) as [id|e].
  - destruct (set_prog_lay b1 pre' c post' id Hl1) as (b2 & E2 & Hl2). rewrite E2. cbn [res_bind]. by exists b2, pre', post', None.
  - by exists b1, pre', post', (Some e).
Qed.

Lemma decode_prog_lay b pre c post msg nebp id :
  lay b pre c post -> growable b 8 -> in_u 16 id -> peek msg (nebp + 10) 2 = Some (be_bytes 2 id) ->
  exists b' pre' post', decode_NXAST_RAW_EXECUTE_PROG junk msg nebp b = Ok b' /\ lay b' pre' (c ++ prog_action id) post'.
Proof.
  intros Hl Hg Hi Hp. destruct (put_prog_lay b pre c post Hl Hg) as (b1 & pre' & post' & E & Hl1). unfold decode_NXAST_RAW_EXECUTE_PROG. rewrite E. cbn [res_bind].
  rewrite Hp. cbn [res_of res_bind]. rewrite be_value_bytes by done. destruct (set_prog_lay b1 pre' c post' id Hl1) as (b2 & E2 & Hl2). by exists b2, pre', post'.
Qed.
End Actions.

(** What the generated [put_NXAST_EXECUTE_PROG] does: it appends the 16 bytes of the structure, of which the header is filled in. *)
Definition puts_nx_action (put : ofpbuf -> res unit (Z * ofpbuf)) : Prop :=
  forall b pre c post, lay b pre c post -> growable b 16 ->
    exists b' pre' hdr post', put b = Ok (Z.of_nat (length pre' + length c), b') /\ lay b' pre' (c ++ hdr) post' /\ length hdr = 16%nat.

Lemma encode_prog_lay put b pre c post id :
  puts_nx_action put -> lay b pre c post -> growable b 16 ->
  exists b' nebp, encode_EXECUTE_PROG put id b = Ok b' /\ wf_ofpbuf b' /\ ob_size b' = ob_size b + 16 /\ nebp = ob_data b' + ob_size b /\
    peek (ob_mem b') (nebp + 10) 2 = Some (be_bytes 2 id).
Proof.
  intros Hput Hl Hg. destruct (Hput b pre c post Hl Hg) as (b1 & pre' & hdr & post' & E & Hl1 & Hh).
  destruct (split_bytes hdr 10) as (h1 & h' & -> & H1); [lia|]. destruct (split_bytes h' 2) as (h2 & h3 & -> & H2); [rewrite length_app in Hh; lia|].
  rewrite !length_app in Hh. rewrite app_assoc in Hl1. unfold encode_EXECUTE_PROG. rewrite E. cbn [res_bind].
  destruct (store_at b1 pre' _ h2 h3 post' (Z.of_nat (length pre' + length c) + 10) (be_bytes 2 id) Hl1) as (b2 & E2 & Hl2 & _);
    [by rewrite length_be_bytes|rewrite length_app; lia|]. rewrite E2. pose proof Hl2 as [_ Hd Hs _ _]. pose proof Hl as [_ _ Hs0 _ _].
  rewrite !length_app, length_be_bytes in Hs. eexists b2, _. split_and!; [done|by eapply lay_wf|lia|done|].
  apply (peek_at _ _ _ _ _ _ _ _ Hl2); rewrite ?length_be_bytes, ?length_app; lia.
Qed.

Lemma read_prog_id b pre c post id : lay b pre (c ++ prog_action id) post -> in_u 16 id -> ofpact_get_prog_id b (Z.of_nat (length pre + length c)) = Ok id.
Proof.
  intros Hl Hi. unfold ofpact_get_prog_id, prog_action in *.
  rewrite (peek_at b pre c [OFPACT_EXECUTE_PROG] ([255; 8; 0] ++ le_bytes 2 id ++ [0; 0]) post _ _ Hl) by done. cbn [res_of res_bind].
  change (le_value [OFPACT_EXECUTE_PROG] =? OFPACT_EXECUTE_PROG) with true. cbv iota. rewrite app_assoc in Hl.
  rewrite (peek_at _ _ _ _ _ _ _ _ Hl) by (rewrite ?length_app, ?length_le_bytes; cbn [length]; lia). cbn [res_of res_bind]. by rewrite le_value_bytes.
Qed.

(** The id of a program survives the formats of the action: an action that is printed and parsed again, and one that is encoded into a message and
    decoded from it, is appended to the actions with the id it had. *)
Theorem prog_action_kept junk put b o id :
  puts_nx_action put -> wf_ofpbuf b -> growable b 8 -> wf_ofpbuf o -> growable o 16 -> in_u 16 id ->
  let appended b' := contents b' = contents b ++ prog_action id /\ ofpact_get_prog_id b' (ob_data b' + ob_size b) = Ok id in
  (exists arg b', format_EXECUTE_PROG EmptyString EmptyString id = ("prog:" +:+ arg)%string /\ parse_EXECUTE_PROG junk arg b = Ok (None, b') /\ appended b') /\
  (exists o' b', encode_EXECUTE_PROG put id o = Ok o' /\ decode_NXAST_RAW_EXECUTE_PROG junk (ob_mem o') (ob_data o' + ob_size o) b = Ok b' /\ appended b').
Proof.
  intros Hput Hw Hg Hwo Hgo Hi appended. destruct (wf_lay b Hw) as (pre & post & Hl). destruct (wf_lay o Hwo) as (preo & posto & Hlo).
  assert (forall b' pre' post', lay b' pre' (contents b ++ prog_action id) post' -> appended b') as Hap.
  { intros b' pre' post' H. split; [by eapply lay_contents|]. pose proof H as [_ Hd _ _ _]. pose proof Hl as [_ _ Hs _ _].
    rewrite Hd, Hs, <- Nat2Z.inj_add. by eapply read_prog_id. }
  split.
  - exists (pretty id). destruct (parse_prog_lay junk b pre _ post (pretty id) Hl Hg) as (b' & pre' & post' & r & E & Hl' & Hr).
    rewrite str_to_u16_pretty in Hl', Hr by done. subst r. exists b'. split_and!; [done|done|by eapply Hap].
  - destruct (encode_prog_lay put o preo _ posto id Hput Hlo Hgo) as (o' & nebp & E & _ & _ & -> & Hp).
    destruct (decode_prog_lay junk b pre _ post (ob_mem o') _ id Hl Hg Hi Hp) as (b' & pre' & post' & E' & Hl').
    exists o', b'. split_and!; [done|done|by eapply Hap].
Qed.

(** The structure with the header of the vendor action 50. *)
Definition put_nx_50 (b : ofpbuf) : res unit (Z * ofpbuf) :=
  ofpbuf_put (fun _ => 0) b (be_bytes 2 65535 ++ be_bytes 2 16 ++ be_bytes 4 0x2320 ++ be_bytes 2 50 ++ replicate 6 0).

Lemma put_nx_50_puts : puts_nx_action put_nx_50.
Proof.
  intros b pre c post Hl Hg. unfold put_nx_50, ofpbuf_put. set (hdr := _ ++ _). assert (length hdr = 16%nat) as Hh by done. clearbody hdr.
  destruct (put_uninit_lay (fun _ => 0) b pre c post (Z.of_nat (length hdr)) Hl) as (b' & pre' & slack & post' & E & Hl' & Hn & _); [by rewrite Hh|lia|].
  rewrite E. cbn [res_bind]. rewrite length_app. rewrite <- (app_nil_r slack) in Hl'.
  destruct (store_at b' pre' c slack [] post' (Z.of_nat (length pre' + length c)) hdr Hl') as (b2 & E2 & Hl2 & _); [lia|done|].
  rewrite E2. cbn [res_bind]. rewrite app_nil_r in Hl2. by exists b2, pre', hdr, post'.
Qed.

Definition empty_buf : ofpbuf := mk_ofpbuf 0 (replicate 8 0x5a) 0 0 8 None None OFPBUF_MALLOC.
Lemma empty_buf_wf : wf_ofpbuf empty_buf.
Proof. by split. Qed.

Lemma prog_action_kept_witness :
  exists b', parse_EXECUTE_PROG (fun _ => 0) "300" empty_buf = Ok (None, b') /\ contents b' = prog_action 300.
Proof.
  destruct (prog_action_kept (fun _ => 0) put_nx_50 empty_buf empty_buf 300 put_nx_50_puts empty_buf_wf ltac:(by split) empty_buf_wf ltac:(by split) ltac:(done))
    as [(arg & b' & Hf & Hp & Hc & _) _].
  exists b'. split; [|exact Hc]. assert (arg = "300"%string) as -> by (vm_compute in Hf; congruence). exact Hp.
Defined.

(** ** Flows whose program is gone, and the text of datapath actions *)

Definition two_programs : ctl := mk_ctl [(ubpf_create 1, None); (ubpf_create 7, None)] ∅.
Definition far_address (vm : ubpf_vm) : Z := 0x7f0000012340 + Vm.prog_id vm.


(** A flow is refused while its program is not loaded, but unloading a program does not touch the flows that use it: translating one of them
    leaves the address of the machine uninitialised, and the datapath then runs whatever machine the leftover bytes point to.  In its text form, the datapath action shows the low
    bits of the address in place of the id; and an action made from such a text is too short for the address the datapath reads. *)
Theorem prog_action_faults :
  let junk := fun _ : nat => 0x5a in
  check_execute_prog two_programs 1 = None /\
  check_execute_prog (ubpf_vms_remove two_programs 1) 1 = Some OFPERR_OFPBAC_BAD_ARGUMENT /\
  (let! b := xlate_execute_prog_action junk far_address (ubpf_vms_remove two_programs 1) empty_buf 1 in action_vm b 0) = Ok 0x5a5a5a5a5a5a5a5a /\
  (let! b := xlate_execute_prog_action junk far_address two_programs empty_buf 1 in format_odp_execute_prog b 0) = Ok "prog(9025)"%string /\
  (let! b := put_odp_execute_prog junk empty_buf 1 in nl_attr_get_size b 0) = Ok 2 /\
  (let! b := put_odp_execute_prog junk empty_buf 1 in action_vm b 0) = Undef.
Proof. split_and!; vm_compute; reflexivity. Qed.
