(* ===== verification/Mempool.v ===== *)
(** * Pools of objects (r2p2: mempool.c, mempool.h)

    R2P2 allocates connection state and buffers from pools of a fixed number of objects, which are linked
    into lists by fields in front of them.  A pool is a function from slots to objects; the pointer to an object is its slot,
    [None] is NULL.  The pointer back to the pool is left out, every operation being given the pool.  An assertion
    that fails ends the process; a search that never ends is a value too. *)

From stdpp Require Import functions.
From S2P Require Import Prelude.

Inductive stop : Set := AssertFails | Hangs.

Section Pool.
Context {A : Type}.

Record fixed_obj : Type := mk_obj { fo_taken : Z; fo_next : option Z; fo_prev : option Z; fo_elem : A }.
Record fixed_mempool : Type := mk_pool { p_size : Z; p_count : Z; p_idx : Z; p_objs : Z -> fixed_obj }.
Record fixed_linked_list : Type := mk_list { l_head : option Z; l_tail : option Z }.

(** The objects are what malloc returned. *)
Definition create_mempool (pool_size : Z) (memory : Z -> fixed_obj) : fixed_mempool := mk_pool pool_size 0 0 memory.

(** The search visits slot after slot; after [p_size] steps it starts again, so that it never ends if none of them was free. *)
Fixpoint alloc_loop (fuel : nat) (size idx : Z) (objs : Z -> fixed_obj) : option (Z * Z) :=
  match fuel with
  | O => None
  | S fuel' =>
      let i := Z.land idx (u32 (size - 1)) in
      if fo_taken (objs i) =? 0 then Some (i, u32 (idx + 1)) else alloc_loop fuel' size (u32 (idx + 1)) objs
  end.

Definition set_objs (p : fixed_mempool) (objs : Z -> fixed_obj) : fixed_mempool := mk_pool (p_size p) (p_count p) (p_idx p) objs.

Definition alloc_object (p : fixed_mempool) : res stop (option Z * fixed_mempool) :=
  if p_size p <=? p_count p then Ok (None, p)
  else
    match alloc_loop (Z.to_nat (p_size p)) (p_size p) (p_idx p) (p_objs p) with
    | None => Err Hangs
    | Some (i, idx) => Ok (Some i, mk_pool (p_size p) (u32 (p_count p + 1)) idx (<[i := mk_obj 1 None None (fo_elem (p_objs p i))]> (p_objs p)))
    end.

Definition free_object (p : fixed_mempool) (i : Z) : res stop fixed_mempool :=
  if p_count p =? 0 then Err AssertFails
  else Ok (mk_pool (p_size p) (p_count p - 1) (p_idx p) (<[i := mk_obj 0 None None (fo_elem (p_objs p i))]> (p_objs p))).

(** Writes to one field of an object. *)
Definition set_next (n : option Z) (o : fixed_obj) : fixed_obj := mk_obj (fo_taken o) n (fo_prev o) (fo_elem o).
Definition set_prev (n : option Z) (o : fixed_obj) : fixed_obj := mk_obj (fo_taken o) (fo_next o) n (fo_elem o).
Definition set_elem (a : A) (o : fixed_obj) : fixed_obj := mk_obj (fo_taken o) (fo_next o) (fo_prev o) a.

Definition add_to_list (l : fixed_linked_list) (obj : Z) (m : Z -> fixed_obj) : fixed_linked_list * (Z -> fixed_obj) :=
  let '(l, m) :=
    match l_tail l with
    | Some t =>
        let m := alter (set_next (Some obj)) t m in
        let m := alter (set_prev (Some t)) obj m in
        (mk_list (l_head l) (Some obj), m)
    | None => (mk_list (Some obj) (Some obj), alter (set_prev None) obj m)
    end in
  (l, alter (set_next None) obj m).

Definition remove_from_list (l : fixed_linked_list) (obj : Z) (m : Z -> fixed_obj) : fixed_linked_list * (Z -> fixed_obj) :=
  let l := if bool_decide (l_head l = Some obj) then mk_list (fo_next (m obj)) (l_tail l) else l in
  let l := if bool_decide (l_tail l = Some obj) then mk_list (l_head l) (fo_prev (m obj)) else l in
  let m := match fo_prev (m obj) with Some q => alter (set_next (fo_next (m obj))) q m | None => m end in
  let m := match fo_next (m obj) with Some q => alter (set_prev (fo_prev (m obj))) q m | None => m end in
  (l, m).
End Pool.

Arguments fixed_obj : clear implicits.
Arguments fixed_mempool : clear implicits.

(** ** Allocation *)

Section PoolProps.
Context {A : Type}.
Implicit Types (p : fixed_mempool A) (m : Z -> fixed_obj A).

Definition slots p : list Z := seqZ 0 (p_size p).
Definition used m (i : Z) : Prop := fo_taken (m i) <> 0.
#[export] Instance used_dec m i : Decision (used m i).
Proof. unfold used. apply _. Defined.

Record wf_pool p : Prop := {
  wp_size : exists k, 0 <= k < 32 /\ p_size p = 2 ^ k;
  wp_count : p_count p = Z.of_nat (length (filter (used (p_objs p)) (slots p)));
  wp_idx : in_u 32 (p_idx p)
}.

Lemma wf_pool_size p : wf_pool p -> 0 < p_size p < 2 ^ 32.
Proof.
  intros [(k & Hk & ->) _ _]. split; [apply Z.pow_pos_nonneg; lia|apply Z.pow_lt_mono_r; lia].
Qed.

Lemma mask_mod k idx : 0 <= k < 32 -> Z.land idx (u32 (2 ^ k - 1)) = idx mod 2 ^ k.
Proof.
  intros Hk. assert (0 < 2 ^ k < 2 ^ 32) by (split; [apply Z.pow_pos_nonneg; lia|apply Z.pow_lt_mono_r; lia]).
  rewrite wrap_small by (unfold in_u; lia). replace (2 ^ k - 1) with (Z.ones k) by (rewrite Z.ones_equiv; lia).
  apply Z.land_ones. lia.
Qed.

Lemma wrap_mod k x : 0 <= k < 32 -> (u32 x) mod 2 ^ k = x mod 2 ^ k.
Proof.
  intros Hk. unfold wrap. apply Z.mod_mod_divide.
  exists (2 ^ (32 - k)). rewrite <- Z.pow_add_r by lia. f_equal. lia.
Qed.

(** What the search finds: a free slot, or that the slots it visited are taken. *)
Lemma alloc_loop_spec k n idx m : 0 <= k < 32 ->
  match alloc_loop n (2 ^ k) idx m with
  | Some (i, idx') => 0 <= i < 2 ^ k /\ fo_taken (m i) = 0 /\ in_u 32 idx'
  | None => forall j, 0 <= j < Z.of_nat n -> used m ((idx + j) mod 2 ^ k)
  end.
Proof.
  intros Hk. assert (0 < 2 ^ k) by (apply Z.pow_pos_nonneg; lia). revert idx. induction n as [|n IH]; intros idx; cbn [alloc_loop]; [intros j Hj; lia|].
  rewrite mask_mod by done. destruct (Z.eqb_spec (fo_taken (m (idx mod 2 ^ k))) 0) as [E|E].
  - split_and!; [apply Z.mod_pos_bound; lia..|done|apply wrap_range; lia].
  - specialize (IH (u32 (idx + 1))). destruct (alloc_loop n (2 ^ k) _ m) as [[i idx']|]; [done|]. intros j Hj.
    destruct (decide (j = 0)) as [->|Hj0]; [by rewrite Z.add_0_r|].
    specialize (IH (j - 1) ltac:(lia)). rewrite <- Z.add_mod_idemp_l, wrap_mod, Z.add_mod_idemp_l in IH by lia.
    by replace (idx + 1 + (j - 1)) with (idx + j) in IH by lia.
Qed.

Lemma filter_agree (P1 P2 : Z -> Prop) `{!forall x, Decision (P1 x), !forall x, Decision (P2 x)} (l : list Z) :
  (forall x, x ∈ l -> (P1 x <-> P2 x)) -> filter P1 l = filter P2 l.
Proof.
  induction l as [|x l IH]; intros Hx; [done|]. rewrite !filter_cons, IH by (intros y Hy; apply Hx; by right).
  specialize (Hx x (list_elem_of_here _ _)). by destruct (decide (P1 x)), (decide (P2 x)); tauto.
Qed.

Lemma filter_all (P1 : Z -> Prop) `{!forall x, Decision (P1 x)} (l : list Z) : Forall P1 l -> filter P1 l = l.
Proof. induction 1; [done|]. rewrite filter_cons_True by done. by f_equal. Qed.

(** A change of one slot changes the number of used slots by one. *)
Lemma count_change m i b n :
  0 <= i < n -> (used m i <-> b = true) -> forall m', (used m' i <-> b = false) -> (forall j, j <> i -> (used m' j <-> used m j)) ->
  Z.of_nat (length (filter (used m') (seqZ 0 n))) = Z.of_nat (length (filter (used m) (seqZ 0 n))) + (if b then -1 else 1).
Proof.
  intros Hi Hb m' Hb' Hne. assert (i ∈ seqZ 0 n) as He by (apply elem_of_seqZ; lia). pose proof (NoDup_seqZ 0 n) as Hn.
  apply list_elem_of_split in He as (l1 & l2 & E). rewrite E in *.
  assert (forall l : list Z, i ∉ l -> filter (used m') l = filter (used m) l) as Hf.
  { intros l Hl. apply filter_agree. intros x Hx. apply Hne. intros ->. done. }
  assert ((i ∉ l1) /\ (i ∉ l2)) as [H1 H2].
  { apply NoDup_app in Hn as (_ & Hd & Hn). apply NoDup_cons in Hn as [Hn _]. split; [|done]. intros Hin. apply (Hd i Hin). by left. }
  rewrite !filter_app, !filter_cons, !Hf by done. destruct b.
  - rewrite (decide_False (P := used m' i)), (decide_True (P := used m i)) by (rewrite ?Hb, ?Hb'; done). rewrite !length_app. cbn [length]. lia.
  - rewrite (decide_True (P := used m' i)), (decide_False (P := used m i)) by (rewrite ?Hb, ?Hb'; done). rewrite !length_app. cbn [length]. lia.
Qed.

Lemma wf_pool_agree p m : wf_pool p -> (forall i, used m i <-> used (p_objs p) i) -> wf_pool (set_objs p m).
Proof. intros [Hs Hc Hi] H. split; [done| |done]. cbn. rewrite Hc. f_equal. f_equal. apply filter_agree. intros x _. by rewrite H. Qed.

Lemma wf_pool_count p : wf_pool p -> 0 <= p_count p <= p_size p.
Proof.
  intros Hw. pose proof (wf_pool_size p Hw). destruct Hw as [_ Hc _]. rewrite Hc. pose proof (length_filter (used (p_objs p)) (slots p)).
  unfold slots in *. rewrite length_seqZ in *. lia.
Qed.

(** A pool that is not full has a free slot, so the search ends. *)
Lemma alloc_object_ok p : wf_pool p -> p_count p < p_size p ->
  exists i p', alloc_object p = Ok (Some i, p') /\ wf_pool p' /\ 0 <= i < p_size p /\ ~ used (p_objs p) i /\
    p_size p' = p_size p /\ p_count p' = p_count p + 1 /\ p_objs p' = <[i := mk_obj 1 None None (fo_elem (p_objs p i))]> (p_objs p).
Proof.
  intros Hw Hlt. pose proof (wf_pool_size p Hw) as Hsz. pose proof (wf_pool_count p Hw) as Hcb. pose proof Hw as [(k & Hk & Es) Hc Hi].
  unfold alloc_object. rewrite (proj2 (Z.leb_gt _ _)) by lia. pose proof (alloc_loop_spec k (Z.to_nat (p_size p)) (p_idx p) (p_objs p) Hk) as H.
  rewrite <- Es in H. destruct (alloc_loop _ _ _ _) as [[i idx']|].
  - destruct H as (Hr & Ht & Hidx). eexists i, _. split; [done|]. rewrite wrap_small by (unfold in_u; lia).
    assert (~ used (p_objs p) i) as Hf by (unfold used; tauto). split_and!; try done; cbn; [|lia..].
    split; [by exists k| |done]. cbn. unfold slots in *. cbn. rewrite (count_change (p_objs p) i false); [by rewrite Hc|done|by split| |].
    + unfold used. rewrite fn_lookup_insert. done.
    + intros j Hj. unfold used. by rewrite fn_lookup_insert_ne.
  - exfalso. assert (filter (used (p_objs p)) (slots p) = slots p) as Hall.
    { apply filter_all, Forall_forall. intros i Hin. apply elem_of_seqZ in Hin.
      specialize (H ((i - p_idx p) mod p_size p)). rewrite Z.add_mod_idemp_r in H by lia.
      replace (p_idx p + (i - p_idx p)) with i in H by lia. rewrite (Z.mod_small i) in H by lia. apply H.
      pose proof (Z.mod_pos_bound (i - p_idx p) (p_size p)). lia. }
    rewrite Hall in Hc. unfold slots in Hc. rewrite length_seqZ in Hc. lia.
Qed.

Lemma wf_pool_full p : wf_pool p -> p_size p <= p_count p -> forall i, 0 <= i < p_size p -> used (p_objs p) i.
Proof.
  intros Hw Hc i Hi. destruct (decide (used (p_objs p) i)) as [Hu|Hu]; [done|]. exfalso. pose proof (wf_pool_size p Hw). destruct Hw as [_ E _]. rewrite E in Hc.
  assert (length (filter (used (p_objs p)) (slots p)) < length (slots p))%nat as Hlt.
  { apply length_filter_lt with i; [apply elem_of_seqZ; lia|done]. }
  unfold slots in *. rewrite length_seqZ in Hlt. lia.
Qed.

Lemma alloc_object_full p : p_size p <= p_count p -> alloc_object p = Ok (None, p).
Proof. intros H. unfold alloc_object. by rewrite (proj2 (Z.leb_le _ _)). Qed.

Lemma free_object_ok p i : wf_pool p -> 0 <= i < p_size p -> used (p_objs p) i ->
  exists p', free_object p i = Ok p' /\ wf_pool p' /\ p_size p' = p_size p /\ p_count p' = p_count p - 1 /\
    p_objs p' = <[i := mk_obj 0 None None (fo_elem (p_objs p i))]> (p_objs p).
Proof.
  intros Hw Hr Hu. pose proof (wf_pool_size p Hw) as Hsz. pose proof Hw as [Hs Hc Hi].
  set (m' := <[i := mk_obj 0 None None (fo_elem (p_objs p i))]> (p_objs p)).
  assert (Z.of_nat (length (filter (used m') (slots p))) = p_count p + -1) as Hcnt.
  { rewrite Hc. apply (count_change _ i true); [done|by split| |].
    - unfold used, m'. rewrite fn_lookup_insert. cbn. split; [done|discriminate].
    - intros j Hj. unfold used, m'. by rewrite fn_lookup_insert_ne. }
  unfold free_object. destruct (Z.eqb_spec (p_count p) 0) as [E|E]; [lia|]. eexists. split; [done|]. by split_and!.
Qed.

(** ** Lists *)

(** The element in front of position [i]. *)
Definition before (xs : list Z) (i : nat) : option Z := match i with O => None | S j => xs !! j end.

(** The list that starts at the head and is linked through the objects is [xs]. *)
Record linked m (l : fixed_linked_list) (xs : list Z) : Prop := {
  lk_head : l_head l = xs !! 0%nat;
  lk_tail : l_tail l = last xs;
  lk_links : forall i x, xs !! i = Some x -> fo_next (m x) = xs !! S i /\ fo_prev (m x) = before xs i;
  lk_nodup : NoDup xs
}.

(** Only the links of the objects in the list matter. *)
Lemma linked_agree m m' l xs :
  linked m l xs -> (forall x, x ∈ xs -> fo_next (m' x) = fo_next (m x) /\ fo_prev (m' x) = fo_prev (m x)) -> linked m' l xs.
Proof.
  intros [Hh Ht Hl Hn] H. split; try done. intros i x Hx. destruct (H x) as [-> ->]; [by eapply list_elem_of_lookup_2|]. by apply Hl.
Qed.

Lemma linked_nil m : linked m (mk_list None None) [].
Proof. split; try done. apply NoDup_nil_2. Qed.

(** Links change, the rest of the objects does not. *)
Definition relinks m m' : Prop := forall i, fo_taken (m' i) = fo_taken (m i) /\ fo_elem (m' i) = fo_elem (m i).

Lemma relinks_alter m m' i f : relinks m m' -> (forall o, fo_taken (f o) = fo_taken o /\ fo_elem (f o) = fo_elem o) -> relinks m (alter f i m').
Proof.
  intros H Hf j. destruct (H j) as [<- <-]. destruct (decide (i = j)) as [->|Hne]; [rewrite fn_lookup_alter; apply Hf|by rewrite fn_lookup_alter_ne].
Qed.

Lemma add_to_list_ok m l xs obj : linked m l xs -> obj ∉ xs ->
  let r := add_to_list l obj m in linked r.2 r.1 (xs ++ [obj]) /\ relinks m r.2 /\ (forall i, i ∉ xs -> i <> obj -> r.2 i = m i).
Proof.
  intros [Hh Ht Hl Hn] Ho. unfold add_to_list. rewrite Ht. assert (NoDup (xs ++ [obj])) as Hn'.
  { apply NoDup_app. split_and!; [done| |apply NoDup_singleton]. intros x Hx ->%list_elem_of_singleton. done. }
  destruct xs as [|x0 xs0] using rev_ind; [|clear IHxs0].
  - cbn. split_and!; [|by repeat apply relinks_alter|intros i _ Hi; by rewrite !fn_lookup_alter_ne]. split; try done.
    intros [|i] x; [|done]. intros [= <-]. by rewrite !fn_lookup_alter.
  - rewrite last_snoc. cbn [l_head l_tail fst snd]. assert (obj <> x0) as Hne by (intros ->; apply Ho, elem_of_app; right; by left).
    split_and!; [|by repeat apply relinks_alter|].
    + split; cbn [l_head l_tail]; [|by rewrite last_snoc| |done].
      { rewrite Hh. by destruct xs0. }
      intros i x Hx. apply lookup_app_Some in Hx as [Hx|[Hi Hx]].
      * assert (x <> obj) as Hxo by (intros ->; by apply Ho; eapply list_elem_of_lookup_2).
        destruct (Hl i x Hx) as [H1 H2]. rewrite fn_lookup_alter_ne by done. pose proof (lookup_lt_Some _ _ _ Hx) as Hlt.
        rewrite (fn_lookup_alter_ne _ _ obj x) by done. assert (before ((xs0 ++ [x0]) ++ [obj]) i = before (xs0 ++ [x0]) i) as Hb.
        { destruct i as [|i]; [done|]. cbn. rewrite lookup_app_l by lia. done. }
        rewrite Hb. destruct (decide (x0 = x)) as [->|Hx0].
        -- rewrite fn_lookup_alter. cbn. split; [|done]. assert (i = length xs0) as ->.
           { apply (NoDup_lookup _ _ _ x Hn Hx). by rewrite list_lookup_middle. }
           rewrite lookup_app_r by (rewrite length_app; cbn; lia). by replace (_ - _)%nat with 0%nat by (rewrite length_app; cbn; lia).
        -- rewrite fn_lookup_alter_ne by done. split; [|done]. rewrite H1. assert (i <> length xs0) as Hi.
           { intros ->. rewrite list_lookup_middle in Hx by done. congruence. }
           rewrite length_app in Hlt. cbn in Hlt. rewrite (lookup_app_l _ [obj]) by (rewrite length_app; cbn; lia). done.
      * apply list_lookup_singleton_Some in Hx as [Hi0 <-]. rewrite !fn_lookup_alter. cbn. rewrite length_app in *. cbn in *.
        replace i with (S (length xs0)) by lia. cbn. rewrite lookup_ge_None_2 by (rewrite !length_app; cbn; lia). split; [done|].
        rewrite <- app_assoc. cbn [app]. by rewrite list_lookup_middle.
    + intros i Hi Hio. rewrite !fn_lookup_alter_ne; [done| |done..]. intros ->. apply Hi, elem_of_app. right. by left.
Qed.

(** An object that is in no list stays out of it. *)
Lemma remove_absent m l xs obj : linked m l xs -> obj ∉ xs -> fo_next (m obj) = None -> fo_prev (m obj) = None -> remove_from_list l obj m = (l, m).
Proof.
  intros [Hh Ht _ _] Ho Hn Hp. unfold remove_from_list. cbv zeta. rewrite Hn, Hp.
  rewrite (bool_decide_false (l_head l = Some obj)) by (intros E; rewrite Hh in E; apply Ho; exact (list_elem_of_lookup_2 _ _ _ E)).
  rewrite bool_decide_false; [by rewrite Hn|]. intros E. rewrite Ht in E. apply last_Some in E as [l' ->]. apply Ho, elem_of_app. right. by left.
Qed.

(** The neighbours of an object are linked with each other. *)
Definition unlink m (a b : option Z) : Z -> fixed_obj A :=
  let m := match a with Some q => alter (set_next b) q m | None => m end in
  match b with Some q => alter (set_prev a) q m | None => m end.

Lemma unlink_spec m a b :
  (forall x, fo_next (unlink m a b x) = (if decide (a = Some x) then b else fo_next (m x)) /\
             fo_prev (unlink m a b x) = (if decide (b = Some x) then a else fo_prev (m x))) /\
  relinks m (unlink m a b) /\ (forall x, a <> Some x -> b <> Some x -> unlink m a b x = m x).
Proof.
  unfold unlink. split_and!.
  - intros x. destruct a as [p|], b as [q|]; repeat match goal with
      | |- context [alter _ ?i _ x] => destruct (decide (i = x)) as [->|?]; [rewrite fn_lookup_alter|rewrite (fn_lookup_alter_ne _ _ i x) by done]
      end; cbn; split; repeat (case_decide; simplify_eq; try done).
  - destruct a, b; by repeat apply relinks_alter.
  - intros x Ha Hb. destruct a, b; rewrite ?fn_lookup_alter_ne by congruence; done.
Qed.

(** The links of the list without [obj]: what stands before and behind it. *)
Lemma remove_from_list_ok m l xs1 obj xs2 : linked m l (xs1 ++ obj :: xs2) ->
  let r := remove_from_list l obj m in
  linked r.2 r.1 (xs1 ++ xs2) /\ relinks m r.2 /\ (forall i, i ∉ xs1 ++ obj :: xs2 -> r.2 i = m i).
Proof.
  intros [Hh Ht Hl Hn]. pose proof Hn as Hn'. apply NoDup_app in Hn' as (Hn1 & Hd & Hn2). apply NoDup_cons in Hn2 as [Ho2 Hn2].
  assert (obj ∉ xs1) as Ho1 by (intros Hin; apply (Hd obj Hin); by left).
  assert (NoDup (xs1 ++ xs2)) as Hnn by (apply NoDup_app; split_and!; try done; intros x Hx Hx2; apply (Hd x Hx); by right).
  destruct (Hl (length xs1) obj) as [Enx Epr]; [by rewrite list_lookup_middle|].
  assert (fo_next (m obj) = xs2 !! 0%nat) as Enx'.
  { rewrite Enx, lookup_app_r by lia. by replace (S _ - _)%nat with 1%nat by lia. }
  assert (fo_prev (m obj) = last xs1) as Epr'.
  { rewrite Epr, last_lookup. destruct (length xs1) as [|k] eqn:Ek; cbn; [by destruct xs1|]. by rewrite lookup_app_l by lia. }
  clear Enx Epr. assert (last xs1 <> Some obj) as Hlo by (intros E; apply last_Some in E as [l' ->]; apply Ho1, elem_of_app; right; by left).
  assert (remove_from_list l obj m = ((remove_from_list l obj m).1, unlink m (last xs1) (xs2 !! 0%nat))) as ->.
  { unfold remove_from_list, unlink. cbn. f_equal. rewrite Enx', Epr'. set (m1 := match last xs1 with Some _ => _ | None => _ end).
    assert (m1 obj = m obj) as -> by (unfold m1; destruct (last xs1); [apply fn_lookup_alter_ne; congruence|done]). by rewrite Enx', Epr'. }
  destruct (unlink_spec m (last xs1) (xs2 !! 0%nat)) as (H2 & Hr & Hun). cbn [fst snd]. unfold remove_from_list. cbv zeta. rewrite Enx', Epr'. cbn [fst].
  split_and!.
  - split; [| | |done].
    + case_bool_decide as Hb1; case_bool_decide as Hb2; cbn; rewrite ?Hh, ?Hb1 in *; destruct xs1; cbn in *; try done; simplify_eq; try done;
        exfalso; apply Ho1; left.
    + assert (l_tail l = Some obj <-> xs2 = []) as Htl.
      { rewrite Ht. destruct xs2 as [|b xs2] using rev_ind; [by rewrite last_snoc|]. rewrite app_comm_cons, app_assoc, last_snoc. split; [|by destruct xs2].
        intros [= ->]. exfalso. apply Ho2, elem_of_app. right. by left. }
      assert (l_tail (if bool_decide (l_head l = Some obj) then mk_list (xs2 !! 0%nat) (l_tail l) else l) = l_tail l) as -> by (by case_bool_decide).
      case_bool_decide as Hb; cbn.
      * apply Htl in Hb as ->. by rewrite app_nil_r.
      * replace (l_tail _) with (l_tail l) by (by case_bool_decide). rewrite Ht, !last_app. destruct xs2 as [|b xs2]; [tauto|]. cbn [last]. done.
    + intros i x Hx. destruct (H2 x) as [-> ->]. apply lookup_app_Some in Hx as [Hx|[Hi Hx]].
      * pose proof (lookup_lt_Some _ _ _ Hx) as Hlt. destruct (Hl i x) as [E1 E2]; [by apply lookup_app_l_Some|]. rewrite E1, E2.
        assert (x ∈ xs1) as Hin by (by eapply list_elem_of_lookup_2). rewrite (decide_False (P := xs2 !! 0%nat = Some x)).
        2:{ intros E. apply (Hd x Hin). right. by eapply list_elem_of_lookup_2. }
        split; [|destruct i; [done|]; cbn; by rewrite !lookup_app_l by lia].
        rewrite last_lookup. destruct (decide (S i = length xs1)) as [Hi|Hi].
        -- rewrite decide_True by (by rewrite <- Hi). rewrite lookup_app_r by lia. by rewrite Hi, Nat.sub_diag.
        -- rewrite decide_False; [by rewrite !lookup_app_l by lia|]. intros E. apply Hi.
           pose proof (NoDup_lookup _ _ _ _ Hn1 Hx E). destruct (length xs1); cbn in *; lia.
      * destruct (Hl (S i) x) as [E1 E2]; [rewrite lookup_app_r by lia; by replace (S i - length xs1)%nat with (S (i - length xs1)) by lia|].
        rewrite E1, E2. assert (x ∈ xs2) as Hin by (by eapply list_elem_of_lookup_2). rewrite (decide_False (P := last xs1 = Some x)).
        2:{ intros E. apply (Hd x); [apply last_Some in E as [l' ->]; apply elem_of_app; right; by left|by right]. }
        split; [rewrite !lookup_app_r by lia; by replace (S (S i) - length xs1)%nat with (S (S i - length xs1)) by lia|].
        destruct (decide (i = length xs1)) as [->|Hi2].
        -- rewrite Nat.sub_diag in Hx. rewrite decide_True by done. cbn. rewrite last_lookup. destruct (length xs1) eqn:Ek; cbn; [by destruct xs1|].
           by rewrite lookup_app_l by lia.
        -- rewrite decide_False; [|intros E; apply Hi2; pose proof (NoDup_lookup _ _ _ _ Hn2 Hx E); lia]. destruct i as [|i]; [lia|]. cbn.
           rewrite !lookup_app_r by lia. by replace (S i - length xs1)%nat with (S (i - length xs1)) by lia.
  - done.
  - intros i Hi. rewrite elem_of_app, elem_of_cons in Hi. apply Hun.
    + intros E'. apply last_Some in E' as [l' ->]. apply Hi. left. apply elem_of_app. right. by left.
    + intros E. apply Hi. do 2 right. by eapply list_elem_of_lookup_2.
Qed.
End PoolProps.

(** ** Histories of a pool *)

(** Memory of the allocator that is zero where it matters: no slot is marked as taken. *)
Definition untaken {A} (m : Z -> fixed_obj A) : Prop := forall i, fo_taken (m i) = 0.

Lemma untaken_pool {A} (m : Z -> fixed_obj A) (k : Z) : 0 <= k < 32 -> untaken m -> wf_pool (create_mempool (2 ^ k) m).
Proof.
  intros Hk Hm. split; [by exists k| |done]. cbn. unfold slots. cbn. rewrite (filter_agree _ (fun _ => False)) by (intros x _; unfold used; rewrite Hm; tauto).
  induction (seqZ 0 (2 ^ k)) as [|x l IH]; [done|]. by rewrite filter_cons_False by tauto.
Qed.

Lemma count_used {A} (p : fixed_mempool A) n (L : list Z) : wf_pool p -> p_size p = n -> NoDup L -> (forall i, i ∈ L <-> 0 <= i < n /\ used (p_objs p) i) ->
  p_count p = Z.of_nat (length L).
Proof.
  intros [_ Hc _] <- Hn HL. rewrite Hc. f_equal. apply Permutation_length, NoDup_Permutation; [apply NoDup_filter, NoDup_seqZ|done|].
  intros i. rewrite list_elem_of_filter, HL. unfold slots. rewrite elem_of_seqZ. split; intros [? ?]; split; try done; lia.
Qed.

(** A pool whose slots are all marked as taken in the memory that malloc returned is searched forever. *)
Lemma unzeroed_pool_hangs {A} (m : Z -> fixed_obj A) k : 0 <= k < 32 -> (forall i, used m i) -> alloc_object (create_mempool (2 ^ k) m) = Err Hangs.
Proof.
  intros Hk Hm. assert (0 < 2 ^ k) by (apply Z.pow_pos_nonneg; lia). unfold alloc_object. cbn [create_mempool p_size p_count p_idx p_objs]. rewrite (proj2 (Z.leb_gt _ _)) by lia.
  pose proof (alloc_loop_spec k (Z.to_nat (2 ^ k)) 0 m Hk) as Hl. destruct (alloc_loop _ _ _ _) as [[i idx]|]; [|done]. destruct Hl as (_ & Ht & _). by apply Hm in Ht.
Qed.

(** What became of a pool of [2 ^ k] objects; the slots in the list are handed out. *)
Inductive history {A} (k : Z) : fixed_mempool A -> list Z -> Prop :=
| created m : untaken m -> history k (create_mempool (2 ^ k) m) []
| allocated p l i p' : history k p l -> alloc_object p = Ok (Some i, p') -> history k p' (i :: l)
| freed p l i p' : history k p l -> i ∈ l -> free_object p i = Ok p' -> history k p' (filter (fun j => j <> i) l)
| written p l f i : history k p l -> history k (set_objs p (alter (fun o => set_elem (f (fo_elem o)) o) i (p_objs p))) l.

Lemma history_inv {A} k (p : fixed_mempool A) l : 0 <= k < 32 -> history k p l ->
  wf_pool p /\ p_size p = 2 ^ k /\ NoDup l /\ forall i, i ∈ l <-> 0 <= i < 2 ^ k /\ used (p_objs p) i.
Proof.
  intros Hk. induction 1 as [m Hm|p l i p' _ (Hw & Hs & Hn & Hl) E|p l i p' _ (Hw & Hs & Hn & Hl) Hi E|p l f i _ (Hw & Hs & Hn & Hl)].
  - split_and!; [by apply untaken_pool|done|by apply NoDup_nil|]. intros i. split; [by intros ?%elem_of_nil|]. intros [_ Hu]. by unfold used in Hu; rewrite Hm in Hu.
  - destruct (decide (p_count p < p_size p)) as [Hc|Hc]; [|rewrite alloc_object_full in E by lia; done]. destruct (alloc_object_ok p Hw Hc) as (j & q & E' & Hw' & Hr & Hf & Hs' & _ & Ho).
    rewrite E in E'. injection E' as <- <-. split_and!; [done|congruence|apply NoDup_cons; split; [rewrite Hl; tauto|done]|]. intros j. rewrite elem_of_cons, Hl, Ho. unfold used.
    destruct (decide (j = i)) as [->|Hne]; [rewrite fn_lookup_insert; cbn; rewrite <- Hs; split; [done|auto]|]. rewrite fn_lookup_insert_ne by done. tauto.
  - apply Hl in Hi as Hi'. destruct (free_object_ok p i Hw) as (q & E' & Hw' & Hs' & _ & Ho); [rewrite Hs; tauto|tauto|]. rewrite E in E'. injection E' as <-.
    split_and!; [done|congruence|by apply NoDup_filter|]. intros j. rewrite list_elem_of_filter, Hl, Ho. unfold used.
    destruct (decide (j = i)) as [->|Hne]; [rewrite fn_lookup_insert; cbn; tauto|]. rewrite fn_lookup_insert_ne by done. tauto.
  - assert (forall j, used (alter (fun o => set_elem (f (fo_elem o)) o) i (p_objs p)) j <-> used (p_objs p) j) as Hu.
    { intros j. unfold used. destruct (decide (i = j)) as [->|Hne]; [by rewrite fn_lookup_alter|by rewrite fn_lookup_alter_ne]. }
    split_and!; [by apply wf_pool_agree|done|done|]. intros j. cbn. by rewrite Hu, Hl.
Qed.

(** C12: a pool of [2 ^ k] objects, after any history of allocations, frees and writes to the objects, from memory in which no slot is taken.  The count is the number of slots that are handed out,
    none of them twice.  While a slot is left, the search of the allocator ends and hands out a slot that is not in use; when none is left it
    reports so; and every slot that is handed out can be freed.  From memory in which every slot is taken the first search never ends. *)
Theorem pool_allocates {A} k (p : fixed_mempool A) l : 0 <= k < 32 -> history k p l ->
  NoDup l /\ p_count p = Z.of_nat (length l) /\
  (p_count p < 2 ^ k -> exists i p', alloc_object p = Ok (Some i, p') /\ 0 <= i < 2 ^ k /\ (i ∉ l)) /\
  (p_count p = 2 ^ k -> alloc_object p = Ok (None, p)) /\
  (forall i, i ∈ l -> exists p', free_object p i = Ok p') /\
  (forall m : Z -> fixed_obj A, (forall i, used m i) -> alloc_object (create_mempool (2 ^ k) m) = Err Hangs).
Proof.
  intros Hk H. destruct (history_inv k p l Hk H) as (Hw & Hs & Hn & Hl). split_and!; [done|by apply (count_used p (2 ^ k))|..].
  - intros Hc. rewrite <- Hs in *. destruct (alloc_object_ok p Hw Hc) as (i & p' & E & _ & Hr & Hf & _). exists i, p'. split_and!; try done; [apply Hr..|]. rewrite Hl. tauto.
  - intros Hc. apply alloc_object_full. lia.
  - intros i Hi. apply Hl in Hi as [Hr Hu]. rewrite <- Hs in Hr. destruct (free_object_ok p i Hw Hr Hu) as (p' & E & _). by exists p'.
  - intros m Hm. by apply unzeroed_pool_hangs.
Qed.

Lemma pool_allocates_witness : let m := fun _ : Z => mk_obj 0 None None 0 in let p := mk_pool 2 1 1 (<[0 := mk_obj 1 None None 0]> m) in
  p_count p = 1 /\ (exists i p', alloc_object p = Ok (Some i, p') /\ 0 <= i < 2 ^ 1 /\ (i ∉ [0])) /\ exists p', free_object p 0 = Ok p'.
Proof.
  intros m p. destruct (pool_allocates 1 p [0]) as (_ & Hc & Ha & _ & Hf & _); [lia|apply (allocated 1 (create_mempool (2 ^ 1) m) []); [by apply created|reflexivity]|].
  split; [exact Hc|]. split; [apply Ha; reflexivity|apply Hf; by left].
Defined.
