(* ===== verification/R2p2.v ===== *)
(** * R2P2 endpoints (r2p2: r2p2-common.c, api-internal.h, linux-backend.c)

    A thread that sends requests and serves them over datagrams, built for Linux without Raft, router, timestamps and
    loss injection.  The state holds the pools of pairs and buffers, the lists of pending pairs, and the client sockets with
    their timers.  Pairs, buffers and sockets are named by their slots.  What the thread does to the outside
    (datagrams, calls of the application) is appended to [out]; the application answers by the API functions.  An
    operation ends with a failed assertion, a search that never ends, or behaviour that C leaves undefined, or it
    has a result.  The library calls that set up sockets are left out; [sendto_ok] tells whether the kernel takes a
    datagram. *)

From stdpp Require Import functions.
From S2P Require Import Prelude.
From S2P Require Import MapDef.
From S2P Require Import OfpBuf.
From S2P Require Import OfpMsgs.
From S2P Require Import Mempool.

(** ** Data *)

Record r2p2_host_tuple : Set := mk_host { ip : Z; port : Z }.
#[export] Instance host_eq_dec : EqDecision r2p2_host_tuple.
Proof. solve_decision. Defined.

Definition LB_ROUTE : Z := 0.
Definition FIXED_ROUTE : Z := 1.
Definition REPLICATED_ROUTE : Z := 2.
Definition REPLICATED_ROUTE_NO_SE : Z := 3.
Definition ERR_NO_SOCKET : Z := 1.
Definition ERR_DROP_MSG : Z := 2.
Definition SIZEOF_HEADER : Z := 8.
Definition PAYLOAD_SIZE : Z := 1472 - SIZEOF_HEADER.
Definition MIN_PAYLOAD_SIZE : Z := 22 - SIZEOF_HEADER.
Definition F_FLAG : Z := 0x80.
Definition L_FLAG : Z := 0x40.
Definition MAGIC : Z := 0xCC.
Definition REQUEST_MSG : Z := 0.
Definition RESPONSE_MSG : Z := 1.
Definition ACK_MSG : Z := 3.
Definition DROP_MSG : Z := 4.
Definition RAFT_REQ : Z := 5.
Definition RAFT_REP : Z := 6.
Definition RAFT_MSG : Z := 7.
Definition BUFPOOL_SIZE : Z := 1024.
Definition SOCKPOOL_SIZE : Z := 128.
Definition BUFLEN : Z := 2048.
Definition POOL_SIZE : Z := 65536.
(** What an object of the pool of buffers holds behind its 16 bytes of [linux_buf_hdr]. *)
Definition PAYLOAD_ROOM : Z := BUFLEN - 16.

Record r2p2_ctx : Set := mk_ctx { ctx_arg : Z; timeout : Z; routing_policy : Z; destination : r2p2_host_tuple }.

(** The fields of the header as the host reads them. *)
Record r2p2_header : Set := mk_header { magic : Z; header_size : Z; type_policy : Z; flags : Z; h_rid : Z; p_order : Z }.

Record r2p2_msg : Set := mk_msg { sender : r2p2_host_tuple; req_id : Z; head_buffer : option Z; tail_buffer : option Z }.

Inductive client_state : Set := R2P2_W_ACK | R2P2_W_RESPONSE.
#[export] Instance client_state_eq_dec : EqDecision client_state.
Proof. solve_decision. Defined.

(** [impl_data] is the socket; [cp_timer] its timer, and [on_free] tells whether the callback is set. *)
Record r2p2_client_pair : Set := mk_cp {
  cp_request : r2p2_msg; cp_reply : r2p2_msg; reply_expected_packets : Z; reply_received_packets : Z;
  cp_ctx : option r2p2_ctx; cp_state : client_state; cp_timer : option Z; impl_data : option Z; on_free : bool
}.

Record r2p2_server_pair : Set := mk_sp {
  sp_request : r2p2_msg; sp_reply : r2p2_msg; request_expected_packets : Z; request_received_packets : Z
}.

(** [b_payload] is the room behind the header. *)
Record linux_buf : Set := mk_buf { payload_size : Z; b_next : option Z; b_payload : bytes }.

(** [s_timer] is what is left of the timer, 0 when it is disarmed. *)
Record r2p2_socket : Set := mk_socket { local_host : r2p2_host_tuple; s_taken : Z; s_cp : option Z; s_timer : Z }.

(** [sock] is the client socket, or [None] for the server socket. *)
Inductive event : Set :=
| Datagram (sock : option Z) (dest : r2p2_host_tuple) (data : bytes)
| RecvFn (handle : Z) (iov : list bytes)
| SuccessCb (handle arg : Z) (iov : list bytes)
| ErrorCb (arg err : Z)
| TimeoutCb (arg : Z).

Record r2p2 : Type := mk_r2p2 {
  client_pairs : fixed_mempool r2p2_client_pair;
  server_pairs : fixed_mempool r2p2_server_pair;
  buf_pool : fixed_mempool linux_buf;
  pending_client_pairs : fixed_linked_list;
  pending_server_pairs : fixed_linked_list;
  rid : Z;
  sockets : Z -> r2p2_socket;
  sock_count : Z;
  sock_idx : Z;
  rfn : bool;
  afc_fn : option Z;
  out : list event
}.

Definition zero_host : r2p2_host_tuple := mk_host 0 0.
Definition zero_msg : r2p2_msg := mk_msg zero_host 0 None None.
Definition zero_cp : r2p2_client_pair := mk_cp zero_msg zero_msg 0 0 None R2P2_W_ACK None None false.
Definition zero_sp : r2p2_server_pair := mk_sp zero_msg zero_msg 0 0.

(** Updates. *)
Definition set_cps (p : fixed_mempool r2p2_client_pair) (s : r2p2) : r2p2 :=
  mk_r2p2 p (server_pairs s) (buf_pool s) (pending_client_pairs s) (pending_server_pairs s) (rid s) (sockets s) (sock_count s) (sock_idx s) (rfn s) (afc_fn s) (out s).
Definition set_sps (p : fixed_mempool r2p2_server_pair) (s : r2p2) : r2p2 :=
  mk_r2p2 (client_pairs s) p (buf_pool s) (pending_client_pairs s) (pending_server_pairs s) (rid s) (sockets s) (sock_count s) (sock_idx s) (rfn s) (afc_fn s) (out s).
Definition set_bufs (p : fixed_mempool linux_buf) (s : r2p2) : r2p2 :=
  mk_r2p2 (client_pairs s) (server_pairs s) p (pending_client_pairs s) (pending_server_pairs s) (rid s) (sockets s) (sock_count s) (sock_idx s) (rfn s) (afc_fn s) (out s).
Definition set_pending_cps (l : fixed_linked_list) (s : r2p2) : r2p2 :=
  mk_r2p2 (client_pairs s) (server_pairs s) (buf_pool s) l (pending_server_pairs s) (rid s) (sockets s) (sock_count s) (sock_idx s) (rfn s) (afc_fn s) (out s).
Definition set_pending_sps (l : fixed_linked_list) (s : r2p2) : r2p2 :=
  mk_r2p2 (client_pairs s) (server_pairs s) (buf_pool s) (pending_client_pairs s) l (rid s) (sockets s) (sock_count s) (sock_idx s) (rfn s) (afc_fn s) (out s).
Definition set_rid (r : Z) (s : r2p2) : r2p2 :=
  mk_r2p2 (client_pairs s) (server_pairs s) (buf_pool s) (pending_client_pairs s) (pending_server_pairs s) r (sockets s) (sock_count s) (sock_idx s) (rfn s) (afc_fn s) (out s).
Definition set_sockets (m : Z -> r2p2_socket) (n i : Z) (s : r2p2) : r2p2 :=
  mk_r2p2 (client_pairs s) (server_pairs s) (buf_pool s) (pending_client_pairs s) (pending_server_pairs s) (rid s) m n i (rfn s) (afc_fn s) (out s).
Definition set_callbacks (r : bool) (a : option Z) (s : r2p2) : r2p2 :=
  mk_r2p2 (client_pairs s) (server_pairs s) (buf_pool s) (pending_client_pairs s) (pending_server_pairs s) (rid s) (sockets s) (sock_count s) (sock_idx s) r a (out s).
Definition set_out (o : list event) (s : r2p2) : r2p2 :=
  mk_r2p2 (client_pairs s) (server_pairs s) (buf_pool s) (pending_client_pairs s) (pending_server_pairs s) (rid s) (sockets s) (sock_count s) (sock_idx s) (rfn s) (afc_fn s) o.

(** ** The monad of operations *)

Definition M (A : Type) : Type := r2p2 -> res stop (A * r2p2).
#[export] Instance M_ret : MRet M := fun A a s => Ok (a, s).
#[export] Instance M_bind : MBind M := fun A B f m s => match m s with Ok (a, s') => f a s' | Err e => Err e | Undef => Undef end.

Definition undefined {A} : M A := fun _ => Undef.
Definition fails {A} (e : stop) : M A := fun _ => Err e.
Definition assert (b : bool) : M unit := fun s => if b then Ok (tt, s) else Err AssertFails.
Definition gets {A} (f : r2p2 -> A) : M A := fun s => Ok (f s, s).
Definition modify (f : r2p2 -> r2p2) : M unit := fun s => Ok (tt, f s).
Definition emit (e : event) : M unit := modify (fun s => set_out (out s ++ [e]) s).
Definition lift_opt {A} (o : option A) : M A := match o with Some a => mret a | None => undefined end.

(** Operations on the pools. *)
Definition on_pool {A B} (get : r2p2 -> fixed_mempool A) (set : fixed_mempool A -> r2p2 -> r2p2)
    (f : fixed_mempool A -> res stop (B * fixed_mempool A)) : M B :=
  fun s => match f (get s) with Ok (b, p) => Ok (b, set p s) | Err e => Err e | Undef => Undef end.
Definition with_cps {B} (f : fixed_mempool r2p2_client_pair -> res stop (B * fixed_mempool r2p2_client_pair)) : M B := on_pool client_pairs set_cps f.
Definition with_sps {B} (f : fixed_mempool r2p2_server_pair -> res stop (B * fixed_mempool r2p2_server_pair)) : M B := on_pool server_pairs set_sps f.
Definition with_bufs {B} (f : fixed_mempool linux_buf -> res stop (B * fixed_mempool linux_buf)) : M B := on_pool buf_pool set_bufs f.

(** [alloc_object], and the assertion on its result. *)
Definition alloc_asserted {A} (p : fixed_mempool A) : res stop (Z * fixed_mempool A) :=
  let! (r, p) := alloc_object p in match r with Some i => Ok (i, p) | None => Err AssertFails end.
Definition free_slot {A} (i : Z) (p : fixed_mempool A) : res stop (unit * fixed_mempool A) :=
  let! p := free_object p i in Ok (tt, p).
Definition upd_elem {A} (f : A -> A) (i : Z) (p : fixed_mempool A) : fixed_mempool A :=
  set_objs p (alter (fun o => set_elem (f (fo_elem o)) o) i (p_objs p)).
Definition elem_at {A} (p : fixed_mempool A) (i : Z) : A := fo_elem (p_objs p i).

Definition cp_at (i : Z) : M r2p2_client_pair := gets (fun s => elem_at (client_pairs s) i).
Definition sp_at (i : Z) : M r2p2_server_pair := gets (fun s => elem_at (server_pairs s) i).
Definition upd_cp (f : r2p2_client_pair -> r2p2_client_pair) (i : Z) : M unit := modify (fun s => set_cps (upd_elem f i (client_pairs s)) s).
Definition upd_sp (f : r2p2_server_pair -> r2p2_server_pair) (i : Z) : M unit := modify (fun s => set_sps (upd_elem f i (server_pairs s)) s).
Definition upd_buf (f : linux_buf -> linux_buf) (i : Z) : M unit := modify (fun s => set_bufs (upd_elem f i (buf_pool s)) s).

(** ** Buffers (linux-backend.c) *)

Definition get_buffer : M Z :=
  gb ← with_bufs alloc_asserted;
  upd_buf (fun b => mk_buf 0 None (b_payload b)) gb;;
  mret gb.

Definition free_buffer (gb : Z) : M unit := with_bufs (free_slot gb).
Definition get_buffer_payload_size (gb : Z) : M Z := gets (fun s => payload_size (elem_at (buf_pool s) gb)).
Definition set_buffer_payload_size (gb size : Z) : M unit := upd_buf (fun b => mk_buf (u32 size) (b_next b) (b_payload b)) gb.
Definition chain_buffers (first : Z) (second : option Z) : M unit := upd_buf (fun b => mk_buf (payload_size b) second (b_payload b)) first.
Definition get_buffer_next (gb : Z) : M (option Z) := gets (fun s => b_next (elem_at (buf_pool s) gb)).

(** Bytes of the payload, from an offset on. *)
Definition buf_read (gb off n : Z) : M bytes := fun s =>
  match peek (b_payload (elem_at (buf_pool s) gb)) off n with Some bs => Ok (bs, s) | None => Undef end.
Definition buf_write (gb off : Z) (bs : bytes) : M unit := fun s =>
  match poke (b_payload (elem_at (buf_pool s) gb)) off bs with
  | Some mem => upd_buf (fun b => mk_buf (payload_size b) (b_next b) mem) gb s
  | None => Undef
  end.

(** The loops that free and that send a chain of buffers; [fuel] exceeds the number of buffers, so that a chain that uses it up is
    a cycle. *)
Definition CHAIN : nat := Z.to_nat (BUFPOOL_SIZE + 1).

Fixpoint free_chain (fuel : nat) (gb : option Z) : M unit :=
  match gb, fuel with
  | None, _ => mret tt
  | Some _, O => fails Hangs
  | Some b, S fuel' => free_buffer b;; n ← get_buffer_next b; free_chain fuel' n
  end.

Section Endpoint.
Context (sendto_ok : r2p2_host_tuple -> bytes -> bool).

Fixpoint send_chain (fuel : nat) (gb : option Z) (dest : r2p2_host_tuple) (sock : option Z) : M unit :=
  match gb, fuel with
  | None, _ => mret tt
  | Some _, O => fails Hangs
  | Some b, S fuel' =>
      buflen ← get_buffer_payload_size b;
      data ← buf_read b 0 buflen;
      emit (Datagram sock dest data);;
      if sendto_ok dest data then n ← get_buffer_next b; send_chain fuel' n dest sock else mret tt
  end.

(** Its result is used nowhere. *)
Definition buf_list_send (first_buf : option Z) (dest : r2p2_host_tuple) (socket_info : option Z) : M unit :=
  send_chain CHAIN first_buf dest socket_info.

(** ** Sockets and timers *)

Definition upd_socket (f : r2p2_socket -> r2p2_socket) (i : Z) : M unit :=
  modify (fun s => set_sockets (alter f i (sockets s)) (sock_count s) (sock_idx s) s).

Fixpoint socket_loop (fuel : nat) (idx : Z) (m : Z -> r2p2_socket) : option Z :=
  match fuel with
  | O => None
  | S fuel' => if s_taken (m (Z.land idx (SOCKPOOL_SIZE - 1))) =? 0 then Some (u32 (idx + 1)) else socket_loop fuel' (u32 (idx + 1)) m
  end.

Definition get_socket : M (option Z) := fun s =>
  if SOCKPOOL_SIZE <=? sock_count s then Ok (None, s)
  else
    match socket_loop (Z.to_nat SOCKPOOL_SIZE) (sock_idx s) (sockets s) with
    | None => Err Hangs
    | Some idx' =>
        let idx := Z.land (u32 (idx' - 1)) (SOCKPOOL_SIZE - 1) in
        Ok (Some idx, set_sockets (alter (fun k => mk_socket (local_host k) 1 (s_cp k) (s_timer k)) idx (sockets s)) (u32 (sock_count s + 1)) idx' s)
    end.

Definition disarm_timer (sock : Z) : M unit := upd_socket (fun k => mk_socket (local_host k) (s_taken k) (s_cp k) 0) sock.

Definition free_socket (sock : Z) : M unit :=
  upd_socket (fun k => mk_socket (local_host k) 0 None (s_timer k)) sock;;
  modify (fun s => set_sockets (sockets s) (u32 (sock_count s - 1)) (sock_idx s) s).

Definition linux_on_client_pair_free (sock : Z) : M unit := disarm_timer sock;; free_socket sock.

(** A negative timeout is refused by [timerfd_settime]. *)
Definition prepare_to_send (cp : Z) : M bool :=
  p ← cp_at cp;
  ctx ← lift_opt (cp_ctx p);
  s ← get_socket;
  match s with
  | None => emit (ErrorCb (ctx_arg ctx) (- ERR_NO_SOCKET));; mret false
  | Some k =>
      upd_socket (fun x => mk_socket (local_host x) (s_taken x) (Some cp) (s_timer x)) k;;
      assert (0 <=? timeout ctx);;
      upd_socket (fun x => mk_socket (local_host x) (s_taken x) (s_cp x) (timeout ctx)) k;;
      sk ← gets (fun s => sockets s k);
      upd_cp (fun p => mk_cp (mk_msg (local_host sk) (req_id (cp_request p)) (head_buffer (cp_request p)) (tail_buffer (cp_request p)))
        (cp_reply p) (reply_expected_packets p) (reply_received_packets p) (cp_ctx p) (cp_state p) (Some k) (Some k) true) cp;;
      mret true
  end.

(** ** Headers *)

Definition swap16 (x : Z) : Z := be_value (le_bytes 2 x).
Definition swap32 (x : Z) : Z := be_value (le_bytes 4 x).

Definition header_bytes (h : r2p2_header) : bytes :=
  [magic h; header_size h; type_policy h; flags h] ++ le_bytes 2 (h_rid h) ++ le_bytes 2 (p_order h).
Definition header_of (bs : bytes) : option r2p2_header :=
  match bs with
  | m :: s :: t :: f :: r0 :: r1 :: p0 :: p1 :: _ => Some (mk_header m s t f (le_value [r0; r1]) (le_value [p0; p1]))
  | _ => None
  end.
Definition read_header (gb : Z) : M r2p2_header := bs ← buf_read gb 0 SIZEOF_HEADER; lift_opt (header_of bs).
Definition write_header (gb : Z) (h : r2p2_header) : M unit := buf_write gb 0 (header_bytes h).

Definition type_is (h : r2p2_header) (t : Z) : bool := Z.land (type_policy h) 0xF0 =? Z.shiftl t 4.
Definition is_response (h : r2p2_header) : bool := type_is h RESPONSE_MSG || type_is h ACK_MSG || type_is h DROP_MSG || type_is h RAFT_REP.
Definition is_first (h : r2p2_header) : bool := negb (Z.land (flags h) F_FLAG =? 0).
Definition is_last (h : r2p2_header) : bool := negb (Z.land (flags h) L_FLAG =? 0).
Definition is_raft_single_msg (h : r2p2_header) : bool := type_is h RAFT_MSG.
Definition is_raft_msg (h : r2p2_header) : bool := type_is h RAFT_REQ || type_is h RAFT_REP || type_is h RAFT_MSG.
Definition get_policy (h : r2p2_header) : Z := Z.land (type_policy h) 0xF.
Definition get_msg_type (h : r2p2_header) : Z := Z.shiftr (Z.land (type_policy h) 0xF0) 4.
Definition is_replicated_req (h : r2p2_header) : bool := (get_policy h =? REPLICATED_ROUTE) || (get_policy h =? REPLICATED_ROUTE_NO_SE).

(** ** Messages *)

Definition r2p2_msg_add_payload (msg : r2p2_msg) (gb : Z) : M r2p2_msg :=
  match tail_buffer msg with
  | Some t => chain_buffers t (Some gb);; mret (mk_msg (sender msg) (req_id msg) (head_buffer msg) (Some gb))
  | None => assert (bool_decide (head_buffer msg = None));; mret (mk_msg (sender msg) (req_id msg) (Some gb) (Some gb))
  end.

Definition len (v : bytes) : Z := Z.of_nat (length v).

Fixpoint single_packet (total : Z) (iov : list bytes) : bool :=
  match iov with
  | [] => true
  | v :: iov' => let total := u32 (total + len v) in if PAYLOAD_SIZE <? total then false else single_packet total iov'
  end.

(** The variables of the loop of [r2p2_prepare_msg]. *)
Record frag : Set := mk_frag { f_gb : option Z; f_target : Z; f_left : Z; f_copied : Z; f_cnt : Z; f_first : bool }.

Definition new_header (req_type policy rid cnt : Z) : r2p2_header :=
  mk_header MAGIC SIZEOF_HEADER (u8 (Z.lor (Z.shiftl req_type 4) (Z.land 0x0F policy))) 0 (swap16 rid) (swap16 (u16 cnt)).

(** A new buffer for the rest of the message. *)
Definition next_buffer (small : bool) (req_type policy req_id : Z) (f : frag) (msg : r2p2_msg) : M (frag * r2p2_msg) :=
  match f_gb f with
  | Some gb => set_buffer_payload_size gb ((if f_first f && small then MIN_PAYLOAD_SIZE else PAYLOAD_SIZE) + SIZEOF_HEADER)
  | None => mret tt
  end;;
  let first := match f_gb f with Some _ => f_first f && negb small | None => f_first f end in
  new_gb ← get_buffer;
  msg ← r2p2_msg_add_payload msg new_gb;
  write_header new_gb (new_header req_type policy req_id (f_cnt f));;
  mret (mk_frag (Some new_gb) SIZEOF_HEADER (if first && small then MIN_PAYLOAD_SIZE else PAYLOAD_SIZE) (f_copied f) (f_cnt f + 1) first, msg).

Fixpoint prepare_loop (fuel : nat) (small : bool) (req_type policy req_id : Z) (iov : list bytes) (f : frag) (msg : r2p2_msg) : M (frag * r2p2_msg) :=
  match iov, fuel with
  | [], _ => mret (f, msg)
  | _ :: _, O => fails Hangs
  | v :: iov', S fuel' =>
      r ← (if f_left f =? 0 then next_buffer small req_type policy req_id f msg else mret (f, msg));
      let '(f, msg) := r in
      let tocopy := Z.min (f_left f) (s32 (len v - f_copied f)) in
      if tocopy <? 0 then undefined
      else
        gb ← lift_opt (f_gb f);
        buf_write gb (f_target f) (take (Z.to_nat tocopy) (drop (Z.to_nat (f_copied f)) v));;
        let copied := f_copied f + tocopy in
        let next := copied =? s32 (len v) in
        let f := mk_frag (f_gb f) (f_target f + tocopy) (f_left f - tocopy) (if next then 0 else copied) (f_cnt f) (f_first f) in
        prepare_loop fuel' small req_type policy req_id (if next then iov' else iov) f msg
  end.

(** The headers of the first and of the last packet. *)
Definition complete_headers (cnt : Z) (msg : r2p2_msg) : M unit :=
  hd ← lift_opt (head_buffer msg);
  h ← read_header hd;
  write_header hd (mk_header (magic h) (header_size h) (type_policy h) (Z.lor (flags h) F_FLAG) (h_rid h) (swap16 (u16 cnt)));;
  tl ← lift_opt (tail_buffer msg);
  h ← read_header tl;
  write_header tl (mk_header (magic h) (header_size h) (type_policy h) (Z.lor (flags h) L_FLAG) (h_rid h) (p_order h)).

(** Every round of the loop copies a byte or goes on to the next part. *)
Definition r2p2_prepare_msg (msg : r2p2_msg) (iov : list bytes) (req_type policy req_id : Z) : M r2p2_msg :=
  let msg := mk_msg (sender msg) req_id (head_buffer msg) (tail_buffer msg) in
  let small := negb (single_packet 0 iov) && (req_type =? REQUEST_MSG) in
  r ← prepare_loop (length (concat iov) + length iov) small req_type policy req_id iov (mk_frag None 0 0 0 0 true) msg;
  let '(f, msg) := r in
  gb ← lift_opt (f_gb f);
  set_buffer_payload_size gb (PAYLOAD_SIZE + SIZEOF_HEADER - f_left f);;
  complete_headers (f_cnt f) msg;;
  mret msg.

(** The parts of a message that the application sees. *)
Fixpoint app_iovec (fuel : nat) (gb : option Z) (iovcnt : Z) : M (list bytes) :=
  match gb, fuel with
  | None, _ => mret []
  | Some _, O => fails Hangs
  | Some b, S fuel' =>
      len ← get_buffer_payload_size b;
      v ← buf_read b SIZEOF_HEADER (len - SIZEOF_HEADER);
      n ← get_buffer_next b;
      assert (iovcnt + 1 <? 0xFF);;
      rest ← app_iovec fuel' n (iovcnt + 1);
      mret (v :: rest)
  end.

Definition prepare_to_app_iovec (msg : r2p2_msg) : M (list bytes) :=
  assert (bool_decide (head_buffer msg <> None));;
  app_iovec CHAIN (head_buffer msg) 0.

(** ** Pairs *)

Definition alloc_client_pair : M Z :=
  cp ← with_cps alloc_asserted;
  upd_cp (fun _ => zero_cp) cp;;
  mret cp.

Definition free_client_pair (cp : Z) : M unit :=
  p ← cp_at cp;
  free_chain CHAIN (head_buffer (cp_reply p));;
  free_chain CHAIN (head_buffer (cp_request p));;
  (if on_free p then k ← lift_opt (impl_data p); linux_on_client_pair_free k else mret tt);;
  with_cps (free_slot cp).

Definition alloc_server_pair : M Z :=
  sp ← with_sps alloc_asserted;
  upd_sp (fun _ => zero_sp) sp;;
  mret sp.

Definition free_server_pair (sp : Z) : M unit :=
  p ← sp_at sp;
  free_chain CHAIN (head_buffer (sp_request p));;
  free_chain CHAIN (head_buffer (sp_reply p));;
  with_sps (free_slot sp).

(** Lists of pending pairs. *)
Definition on_cp_list (f : fixed_linked_list -> (Z -> fixed_obj r2p2_client_pair) -> fixed_linked_list * (Z -> fixed_obj r2p2_client_pair)) : M unit :=
  modify (fun s => let '(l, m) := f (pending_client_pairs s) (p_objs (client_pairs s)) in set_pending_cps l (set_cps (set_objs (client_pairs s) m) s)).
Definition on_sp_list (f : fixed_linked_list -> (Z -> fixed_obj r2p2_server_pair) -> fixed_linked_list * (Z -> fixed_obj r2p2_server_pair)) : M unit :=
  modify (fun s => let '(l, m) := f (pending_server_pairs s) (p_objs (server_pairs s)) in set_pending_sps l (set_sps (set_objs (server_pairs s) m) s)).

Definition add_to_pending_client_pairs (cp : Z) : M unit := on_cp_list (fun l m => add_to_list l cp m).
Definition add_to_pending_server_pairs (sp : Z) : M unit := on_sp_list (fun l m => add_to_list l sp m).
Definition remove_from_pending_server_pairs (sp : Z) : M unit := on_sp_list (fun l m => remove_from_list l sp m).
Definition remove_from_pending_client_pairs (cp : Z) : M unit := on_cp_list (fun l m => remove_from_list l cp m).

(** The first object of a list with a property; [fuel] exceeds the number of objects. *)
Fixpoint find_linked {A} (fuel : nat) (test : A -> bool) (m : Z -> fixed_obj A) (fo : option Z) : res stop (option Z) :=
  match fo, fuel with
  | None, _ => Ok None
  | Some _, O => Err Hangs
  | Some i, S fuel' => if test (fo_elem (m i)) then Ok (Some i) else find_linked fuel' test m (fo_next (m i))
  end.

Definition POOL : nat := Z.to_nat (POOL_SIZE + 1).

Definition find_in_pending_server_pairs (id : Z) (from : r2p2_host_tuple) : M (option Z) := fun s =>
  let! r := find_linked POOL (fun p => bool_decide (sender (sp_request p) = from) && (req_id (sp_request p) =? id))
              (p_objs (server_pairs s)) (l_head (pending_server_pairs s)) in Ok (r, s).

(** The address is not compared. *)
Definition find_in_pending_client_pairs (id : Z) (from : r2p2_host_tuple) : M (option Z) := fun s =>
  let! r := find_linked POOL (fun p => (port (sender (cp_request p)) =? port from) && (req_id (cp_request p) =? id))
              (p_objs (client_pairs s)) (l_head (pending_client_pairs s)) in Ok (r, s).

(** ** Incoming packets *)

Definition set_cp_request (m : r2p2_msg) (p : r2p2_client_pair) : r2p2_client_pair :=
  mk_cp m (cp_reply p) (reply_expected_packets p) (reply_received_packets p) (cp_ctx p) (cp_state p) (cp_timer p) (impl_data p) (on_free p).
Definition set_cp_reply (m : r2p2_msg) (p : r2p2_client_pair) : r2p2_client_pair :=
  mk_cp (cp_request p) m (reply_expected_packets p) (reply_received_packets p) (cp_ctx p) (cp_state p) (cp_timer p) (impl_data p) (on_free p).
Definition set_cp_packets (expected received : Z) (p : r2p2_client_pair) : r2p2_client_pair :=
  mk_cp (cp_request p) (cp_reply p) expected received (cp_ctx p) (cp_state p) (cp_timer p) (impl_data p) (on_free p).
Definition set_cp_state (st : client_state) (p : r2p2_client_pair) : r2p2_client_pair :=
  mk_cp (cp_request p) (cp_reply p) (reply_expected_packets p) (reply_received_packets p) (cp_ctx p) st (cp_timer p) (impl_data p) (on_free p).
Definition set_cp_ctx (c : r2p2_ctx) (p : r2p2_client_pair) : r2p2_client_pair :=
  mk_cp (cp_request p) (cp_reply p) (reply_expected_packets p) (reply_received_packets p) (Some c) (cp_state p) (cp_timer p) (impl_data p) (on_free p).
Definition set_sp_request (m : r2p2_msg) (p : r2p2_server_pair) : r2p2_server_pair :=
  mk_sp m (sp_reply p) (request_expected_packets p) (request_received_packets p).
Definition set_sp_reply (m : r2p2_msg) (p : r2p2_server_pair) : r2p2_server_pair :=
  mk_sp (sp_request p) m (request_expected_packets p) (request_received_packets p).
Definition set_sp_packets (expected received : Z) (p : r2p2_server_pair) : r2p2_server_pair :=
  mk_sp (sp_request p) (sp_reply p) expected received.

(** [r2p2_msg_add_payload] to the reply of a client pair, and to the request of a server pair. *)
Definition add_reply_payload (cp gb : Z) : M unit :=
  p ← cp_at cp; m ← r2p2_msg_add_payload (cp_reply p) gb; upd_cp (set_cp_reply m) cp.
Definition add_request_payload (sp gb : Z) : M unit :=
  p ← sp_at sp; m ← r2p2_msg_add_payload (sp_request p) gb; upd_sp (set_sp_request m) sp.

Definition drop_client_pair (cp : Z) : M unit := remove_from_pending_client_pairs cp;; free_client_pair cp.

Definition handle_drop_msg (cp : Z) : M unit :=
  p ← cp_at cp; ctx ← lift_opt (cp_ctx p);
  emit (ErrorCb (ctx_arg ctx) (- ERR_DROP_MSG));;
  drop_client_pair cp.

Definition forward_request (sp : Z) : M unit :=
  p ← sp_at sp;
  iov ← prepare_to_app_iovec (sp_request p);
  emit (RecvFn sp iov).

(** A message of one part that is sent at once and freed. *)
Definition send_control (payload : bytes) (type id : Z) (dest : r2p2_host_tuple) : M unit :=
  m ← r2p2_prepare_msg zero_msg [payload] type FIXED_ROUTE id;
  buf_list_send (head_buffer m) dest None;;
  gb ← lift_opt (head_buffer m);
  free_buffer gb.

Definition ack_payload : bytes := [65; 67; 75].
Definition drop_payload : bytes := [68; 82; 79; 80].

Definition should_keep_req : M bool := a ← gets afc_fn; mret (match a with Some v => negb (v =? 0) | None => true end).

Definition send_drop_msg (sp : Z) : M unit :=
  p ← sp_at sp; send_control drop_payload DROP_MSG (req_id (sp_request p)) (sender (sp_request p)).

(** An error in the reply: the application is told, and the pair is given up. *)
Definition reply_error (cp : Z) (ctx : r2p2_ctx) : M unit := emit (ErrorCb (ctx_arg ctx) (-1));; drop_client_pair cp.

(** A complete reply is handed to the application. *)
Definition finish_reply (cp : Z) (ctx : r2p2_ctx) : M unit :=
  p ← cp_at cp;
  if negb (reply_received_packets p =? reply_expected_packets p) then reply_error cp ctx
  else
    match cp_timer p with Some k => disarm_timer k | None => mret tt end;;
    iov ← prepare_to_app_iovec (cp_reply p);
    emit (SuccessCb cp (ctx_arg ctx) iov).

Definition handle_response_msg (cp gb size : Z) (h : r2p2_header) : M unit :=
  p ← cp_at cp; ctx ← lift_opt (cp_ctx p);
  assert (bool_decide (cp_state p = R2P2_W_RESPONSE));;
  set_buffer_payload_size gb size;;
  add_reply_payload cp gb;;
  if is_first h then
    upd_cp (set_cp_packets (p_order h) 1) cp;;
    if is_last h then finish_reply cp ctx else mret tt
  else
    upd_cp (set_cp_packets (reply_expected_packets p) (u16 (reply_received_packets p + 1))) cp;;
    if negb (p_order h =? reply_received_packets p) then reply_error cp ctx
    else if is_last h then finish_reply cp ctx else mret tt.

Definition handle_ack (cp gb size : Z) : M unit :=
  p ← cp_at cp;
  assert (bool_decide (cp_state p = R2P2_W_ACK));;
  assert (size =? SIZEOF_HEADER + 3);;
  free_buffer gb;;
  hd ← lift_opt (head_buffer (cp_request p));
  rest_to_send ← get_buffer_next hd;
  buf_list_send rest_to_send (sender (cp_reply p)) (impl_data p);;
  upd_cp (set_cp_state R2P2_W_RESPONSE) cp.

Definition handle_response (gb size : Z) (h : r2p2_header) (source local : r2p2_host_tuple) : M unit :=
  r ← find_in_pending_client_pairs (h_rid h) local;
  match r with
  | None => free_buffer gb
  | Some cp =>
      upd_cp (fun p => set_cp_reply (mk_msg (mk_host (swap32 (ip source)) (swap16 (port source))) (req_id (cp_reply p))
        (head_buffer (cp_reply p)) (tail_buffer (cp_reply p))) p) cp;;
      let t := get_msg_type h in
      if t =? RAFT_REP then fails AssertFails
      else if t =? RESPONSE_MSG then handle_response_msg cp gb size h
      else if t =? ACK_MSG then handle_ack cp gb size
      else if t =? DROP_MSG then handle_drop_msg cp;; free_buffer gb
      else fails AssertFails
  end.

(** A packet is added to the request of a server pair; the request is handed to the application when it is complete. *)
Definition request_packet (sp gb size : Z) (h : r2p2_header) (was_in_pending_sp : bool) : M unit :=
  set_buffer_payload_size gb size;;
  add_request_payload sp gb;;
  if negb (is_last h) then mret tt
  else
    p ← sp_at sp;
    if negb (request_received_packets p =? request_expected_packets p) then
      remove_from_pending_server_pairs sp;; free_server_pair sp
    else
      (if was_in_pending_sp then remove_from_pending_server_pairs sp else mret tt);;
      if is_raft_msg h then fails AssertFails
      else if is_replicated_req h then fails AssertFails
      else
        r ← gets rfn;
        assert r;;
        forward_request sp.

Definition handle_request (gb size : Z) (h : r2p2_header) (source : r2p2_host_tuple) : M unit :=
  if is_first h then
    sp ← alloc_server_pair;
    upd_sp (fun p => mk_sp (mk_msg source (h_rid h) (head_buffer (sp_request p)) (tail_buffer (sp_request p))) (sp_reply p) (p_order h) 1) sp;;
    keep ← (if get_msg_type h =? REQUEST_MSG then should_keep_req else mret true);
    if negb keep then
      set_buffer_payload_size gb size;;
      add_request_payload sp gb;;
      send_drop_msg sp;;
      free_server_pair sp
    else
      (if negb (is_last h) then
         add_to_pending_server_pairs sp;;
         (if negb (is_raft_msg h) then send_control ack_payload ACK_MSG (h_rid h) source else mret tt)
       else mret tt);;
      request_packet sp gb size h false
  else
    r ← find_in_pending_server_pairs (h_rid h) source;
    match r with
    | None => free_buffer gb
    | Some sp =>
        p ← sp_at sp;
        upd_sp (set_sp_packets (request_expected_packets p) (u16 (request_received_packets p + 1))) sp;;
        if negb (p_order h =? request_received_packets p) then
          remove_from_pending_server_pairs sp;; free_buffer gb;; free_server_pair sp
        else request_packet sp gb size h true
    end.

Definition handle_incoming_pck (gb size : Z) (source local : r2p2_host_tuple) : M unit :=
  assert (SIZEOF_HEADER <=? size);;
  h ← read_header gb;
  let h := mk_header (magic h) (header_size h) (type_policy h) (flags h) (swap16 (h_rid h)) (swap16 (p_order h)) in
  write_header gb h;;
  if is_raft_single_msg h then fails AssertFails
  else if is_response h then handle_response gb size h source local
  else handle_request gb size h source.

(** ** Events of the socket layer *)

(** A datagram is read from a client socket or from the server socket, whose [local_host] is never set; up to [BUFLEN] bytes of it are
    copied.  [None] is a failed read. *)
Definition poll_recv (sock : option Z) (source : r2p2_host_tuple) (data : option bytes) : M unit :=
  gb ← get_buffer;
  match data with
  | None => free_buffer gb
  | Some d =>
      let d := take (Z.to_nat BUFLEN) d in
      buf_write gb 0 d;;
      local ← gets (fun s => match sock with Some k => local_host (sockets s k) | None => zero_host end);
      handle_incoming_pck gb (len d) source local
  end.

Definition timer_triggered (cp : Z) : M unit :=
  t ← gets (fun s => fo_taken (p_objs (client_pairs s) cp));
  if t =? 0 then mret tt
  else
    p ← cp_at cp; ctx ← lift_opt (cp_ctx p);
    emit (TimeoutCb (ctx_arg ctx));;
    drop_client_pair cp.

(** The timer of a socket expires. *)
Definition handle_timer_for_socket (k : Z) : M unit :=
  disarm_timer k;;
  s ← gets (fun s => sockets s k);
  if s_taken s =? 0 then mret tt else cp ← lift_opt (s_cp s); timer_triggered cp.

(** ** API *)

Definition r2p2_send_response (sp : Z) (iov : list bytes) : M unit :=
  p ← sp_at sp;
  hd ← lift_opt (head_buffer (sp_request p));
  h ← read_header hd;
  if is_replicated_req h then fails AssertFails
  else
    m ← r2p2_prepare_msg (sp_reply p) iov RESPONSE_MSG FIXED_ROUTE (req_id (sp_request p));
    upd_sp (set_sp_reply m) sp;;
    buf_list_send (head_buffer m) (sender (sp_request p)) None;;
    free_server_pair sp.

Definition r2p2_send_req (iov : list bytes) (ctx : r2p2_ctx) : M unit :=
  cp ← alloc_client_pair;
  upd_cp (set_cp_ctx ctx) cp;;
  ready ← prepare_to_send cp;
  if negb ready then free_client_pair cp
  else
    modify (fun s => set_rid (u16 (rid s + 1)) s);;
    id ← gets rid;
    p ← cp_at cp;
    m ← r2p2_prepare_msg (cp_request p) iov REQUEST_MSG (routing_policy ctx) id;
    upd_cp (set_cp_request m) cp;;
    add_to_pending_client_pairs cp;;
    upd_cp (set_cp_state (if bool_decide (head_buffer m = tail_buffer m) then R2P2_W_RESPONSE else R2P2_W_ACK)) cp;;
    hd ← lift_opt (head_buffer m);
    second_buffer ← get_buffer_next hd;
    chain_buffers hd None;;
    buf_list_send (head_buffer m) (destination ctx) (impl_data p);;
    chain_buffers hd second_buffer.

Definition r2p2_recv_resp_done (cp : Z) : M unit := drop_client_pair cp.

Definition r2p2_set_recv_cb (fn : bool) : M unit := modify (fun s => set_callbacks fn (afc_fn s) s).
Definition r2p2_set_app_flow_control_fn (fn : option Z) : M unit := modify (fun s => set_callbacks (rfn s) fn s).

End Endpoint.

(** ** Start

    The pools come from malloc; the static variables are zero.  Socket [i] of core [core_id] of [core_count] has the port below. *)
Definition ephemeral_port (core_id core_count i : Z) : Z := u16 (33000 + i * core_count + core_id).

Definition r2p2_init_per_core (core_id core_count : Z) (cps : Z -> fixed_obj r2p2_client_pair) (sps : Z -> fixed_obj r2p2_server_pair)
    (bufs : Z -> fixed_obj linux_buf) : r2p2 :=
  mk_r2p2 (create_mempool POOL_SIZE cps) (create_mempool POOL_SIZE sps) (create_mempool BUFPOOL_SIZE bufs) (mk_list None None) (mk_list None None) 0
    (fun i => mk_socket (mk_host 0 (ephemeral_port core_id core_count i)) 0 None 0) 0 0 false None [].
