(* ===== verification/R2p2Bufs.v ===== *)
(** * Messages in buffers

    Which buffers belong to which message is told by a function [own] from buffers to keys that only the proofs know; since a
    buffer has one owner, messages do not share buffers, and what is done to one leaves the others alone.  Then the readers of
    messages, and the packets that [r2p2_prepare_msg] makes. *)

From stdpp Require Import functions.
From S2P Require Import Prelude MapDef OfpBuf OfpBufProps OfpMsgs Mempool R2p2 OfpMsgsProps.

(** The request and the reply of a client pair and of a server pair, a control message, a buffer that was just allocated, and the one that
    holds the packet that is being treated. *)
Inductive key : Set := CReq (i : Z) | CRep (i : Z) | SReq (i : Z) | SRep (i : Z) | Ctl | Fresh | Hand.
#[export] Instance key_eq_dec : EqDecision key.
Proof. solve_decision. Defined.

Abbreviation pool := (fixed_mempool linux_buf).
Abbreviation owner := (Z -> option key).

Implicit Types (p : pool) (own : owner) (k : key) (d : bytes) (ds : list bytes) (ps : list Z).

Record bufs_ok p own : Prop := {
  bo_wf : wf_pool p;
  bo_size : p_size p = BUFPOOL_SIZE;
  bo_used : forall b, 0 <= b < BUFPOOL_SIZE -> used (p_objs p) b <-> own b <> None;
  bo_range : forall b, own b <> None -> 0 <= b < BUFPOOL_SIZE;
  bo_room : forall b, len (b_payload (elem_at p b)) = PAYLOAD_ROOM
}.

(** Buffer [b] holds packet [d] and is followed by [nx]. *)
Record holds p (b : Z) d (nx : option Z) : Prop := {
  ho_size : payload_size (elem_at p b) = len d;
  ho_next : b_next (elem_at p b) = nx;
  ho_data : take (length d) (b_payload (elem_at p b)) = d;
  ho_len : SIZEOF_HEADER <= len d <= PAYLOAD_ROOM
}.

(** The chain from [hd] through the buffers [ps] to [nx] holds the packets [ds]. *)
Fixpoint seg p (hd : option Z) ps ds (nx : option Z) : Prop :=
  match ps, ds with
  | [], [] => hd = nx
  | b :: ps', d :: ds' => hd = Some b /\ exists n, holds p b d n /\ seg p n ps' ds' nx
  | _, _ => False
  end.

Definition msg_at p own k (hd tl : option Z) ds : Prop :=
  exists ps, seg p hd ps ds None /\ tl = last ps /\ NoDup ps /\ forall b, b ∈ ps <-> own b = Some k.

(** Only the messages of the keys [ks] change. *)
Definition only (ks : list key) p own p' own' : Prop :=
  forall k b, k ∉ ks -> (own' b = Some k <-> own b = Some k) /\ (own b = Some k -> elem_at p' b = elem_at p b).

Lemma only_refl ks p own : only ks p own p own.
Proof. done. Qed.

Lemma only_trans ks p1 o1 p2 o2 p3 o3 : only ks p1 o1 p2 o2 -> only ks p2 o2 p3 o3 -> only ks p1 o1 p3 o3.
Proof.
  intros H1 H2 k b Hk. destruct (H1 k b Hk) as [E1 F1], (H2 k b Hk) as [E2 F2]. split; [by rewrite E2|]. intros Ho. rewrite F2, F1; [done..|by apply E1].
Qed.

Lemma only_weaken ks ks' p own p' own' : ks ⊆ ks' -> only ks p own p' own' -> only ks' p own p' own'.
Proof. intros Hs H k b Hk. apply H. set_solver. Qed.

(** ** Running the monad *)

Lemma bind_ok {A B} (m : M A) (f : A -> M B) s a s' : m s = Ok (a, s') -> (m ≫= f) s = f a s'.
Proof. unfold mbind, M_bind. by intros ->. Qed.
Lemma bind_fails {A B} (m : M A) (f : A -> M B) s e : m s = Err e -> (m ≫= f) s = Err e.
Proof. unfold mbind, M_bind. by intros ->. Qed.
Lemma bind_gets {A B} (g : r2p2 -> A) (f : A -> M B) s : (gets g ≫= f) s = f (g s) s.
Proof. done. Qed.
Lemma bind_modify {B} g (f : unit -> M B) s : (modify g ≫= f) s = f tt (g s).
Proof. done. Qed.
Lemma bind_ret {A B} (a : A) (f : A -> M B) s : (mret (M := M) a ≫= f) s = f a s.
Proof. done. Qed.
Lemma bind_some {A B} (a : A) (f : A -> M B) s : (lift_opt (Some a) ≫= f) s = f a s.
Proof. done. Qed.
Lemma bind_assert {B} b (f : unit -> M B) s : b = true -> (assert b ≫= f) s = f tt s.
Proof. by intros ->. Qed.
Lemma bind_emit {B} e (f : unit -> M B) s : (emit e ≫= f) s = f tt (set_out (out s ++ [e]) s).
Proof. done. Qed.
Lemma bind_upd_cp {B} g i (f : unit -> M B) s : (upd_cp g i ≫= f) s = f tt (set_cps (upd_elem g i (client_pairs s)) s).
Proof. done. Qed.
Lemma bind_bind {A B C} (m : M A) (g : A -> M B) (f : B -> M C) s : ((m ≫= g) ≫= f) s = (m ≫= (fun a => g a ≫= f)) s.
Proof. unfold mbind, M_bind. by destruct (m s) as [[a s']| |]. Qed.

(** One statement that is known to succeed. *)
Ltac mrun E := erewrite bind_ok by exact E.

(** ** Chains *)

Lemma holds_agree p p' b d nx : elem_at p' b = elem_at p b -> holds p b d nx -> holds p' b d nx.
Proof. intros E [H1 H2 H3 H4]. split; by rewrite ?E. Qed.

Lemma seg_agree p p' hd ps ds nx : (forall b, b ∈ ps -> elem_at p' b = elem_at p b) -> seg p hd ps ds nx -> seg p' hd ps ds nx.
Proof.
  revert hd ds. induction ps as [|b ps IH]; intros hd [|d ds] H; cbn; try done. intros [-> (n & Hh & Hs)]. split; [done|]. exists n. split.
  - eapply holds_agree; [|done]. apply H. by left.
  - apply IH; [|done]. intros b' Hb'. apply H. by right.
Qed.

Lemma seg_length p hd ps ds nx : seg p hd ps ds nx -> length ps = length ds.
Proof. revert hd ds. induction ps as [|b ps IH]; intros hd [|d ds]; cbn; try done. intros [_ (n & _ & Hs)]. f_equal. by eapply IH. Qed.

Lemma seg_snoc p hd ps ds b d nx : seg p hd (ps ++ [b]) (ds ++ [d]) nx <-> seg p hd ps ds (Some b) /\ holds p b d nx.
Proof.
  revert hd ds. induction ps as [|b' ps IH]; intros hd [|d' ds]; cbn.
  - split; [intros [-> (n & H & ->)]; done|intros [-> H]]. split; [done|]. by exists nx.
  - split; [intros [-> (n & H & Hs)]|by intros [[] _]]. destruct ds; cbn in Hs; by destruct Hs.
  - split; [intros [-> (n & H & Hs)]|by intros [[] _]]. destruct ps; cbn in Hs; by destruct Hs.
  - split; [intros [-> (n & H & Hs)]; apply IH in Hs as [Hs Hb]; split; [|done]; split; [done|]; by exists n|].
    intros [[-> (n & H & Hs)] Hb]. split; [done|]. exists n. split; [done|]. by apply IH.
Qed.

Lemma msg_only ks p own p' own' k hd tl ds : only ks p own p' own' -> k ∉ ks -> msg_at p own k hd tl ds -> msg_at p' own' k hd tl ds.
Proof.
  intros Ho Hk (ps & Hs & Ht & Hn & Hps). exists ps. split_and!; [|done|done|intros b; rewrite Hps; symmetry; by apply Ho].
  eapply seg_agree; [|done]. intros b Hb. by eapply (Ho k b Hk), Hps.
Qed.

Lemma msg_length p own k hd tl ds : bufs_ok p own -> msg_at p own k hd tl ds -> Z.of_nat (length ds) <= BUFPOOL_SIZE.
Proof.
  intros [_ _ _ Hr _] (ps & Hs & _ & Hn & Hps). rewrite <- (seg_length _ _ _ _ _ Hs).
  assert (ps ⊆+ seqZ 0 BUFPOOL_SIZE) as Hsub.
  { apply NoDup_submseteq; [done|]. intros b Hb. apply elem_of_seqZ. apply Hps in Hb. specialize (Hr b ltac:(by rewrite Hb)). lia. }
  apply submseteq_length in Hsub. rewrite length_seqZ in Hsub. unfold BUFPOOL_SIZE in *. lia.
Qed.

Lemma msg_nil p own k : (forall b, own b <> Some k) -> msg_at p own k None None [].
Proof. intros H. exists []. split_and!; try done; [apply NoDup_nil_2|]. intros b. split; [by intros ?%elem_of_nil|by intros ?%H]. Qed.

Lemma msg_nil_inv p own k hd tl : msg_at p own k hd tl [] -> hd = None /\ tl = None /\ forall b, own b <> Some k.
Proof. intros (ps & Hs & -> & _ & Hps). destruct ps; [|done]. cbn in Hs. split_and!; try done. intros b Hb. apply Hps in Hb. by apply elem_of_nil in Hb. Qed.

(** ** Operations on one buffer *)

Lemma upd_elem_wf {A} (q : fixed_mempool A) f i : wf_pool q -> wf_pool (upd_elem f i q).
Proof.
  intros Hw. apply wf_pool_agree; [done|]. intros j. unfold used. destruct (decide (i = j)) as [->|Hne];
    [by rewrite fn_lookup_alter|by rewrite fn_lookup_alter_ne].
Qed.

Lemma elem_upd {A} (q : fixed_mempool A) f i : elem_at (upd_elem f i q) i = f (elem_at q i).
Proof. unfold elem_at, upd_elem. cbn. by rewrite fn_lookup_alter. Qed.
Lemma elem_upd_ne {A} (q : fixed_mempool A) f i j : i <> j -> elem_at (upd_elem f i q) j = elem_at q j.
Proof. intros H. unfold elem_at, upd_elem. cbn. by rewrite fn_lookup_alter_ne. Qed.
Lemma used_upd {A} (q : fixed_mempool A) f i j : used (p_objs (upd_elem f i q)) j <-> used (p_objs q) j.
Proof. unfold used, upd_elem. cbn. destruct (decide (i = j)) as [->|H]; [by rewrite fn_lookup_alter|by rewrite fn_lookup_alter_ne]. Qed.

(** A write to the buffer of a key. *)
Lemma upd_buf_ok p own f b k : bufs_ok p own -> own b = Some k -> (forall x, len (b_payload x) = PAYLOAD_ROOM -> len (b_payload (f x)) = PAYLOAD_ROOM) ->
  bufs_ok (upd_elem f b p) own /\ only [k] p own (upd_elem f b p) own.
Proof.
  intros [Hw Hs Hu Hr Hm] Hb Hf. split.
  - split; [by apply upd_elem_wf|done|intros j Hj; by rewrite used_upd, Hu|done|].
    intros j. destruct (decide (b = j)) as [->|Hne]; [rewrite elem_upd; apply Hf, Hm|by rewrite elem_upd_ne].
  - intros k' j Hk'. split; [done|]. intros Hj. apply elem_upd_ne. intros ->. apply Hk'. rewrite Hb in Hj. injection Hj as ->. by left.
Qed.

Lemma get_buffer_ok k own s : bufs_ok (buf_pool s) own -> p_count (buf_pool s) < BUFPOOL_SIZE ->
  exists gb p', get_buffer s = Ok (gb, set_bufs p' s) /\ own gb = None /\ bufs_ok p' (<[gb := Some k]> own) /\
    only [k] (buf_pool s) own p' (<[gb := Some k]> own) /\ p_count p' = p_count (buf_pool s) + 1 /\
    (forall b, b <> gb -> elem_at p' b = elem_at (buf_pool s) b) /\
    payload_size (elem_at p' gb) = 0 /\ b_next (elem_at p' gb) = None.
Proof.
  intros [Hw Hs Hu Hr Hm] Hc. rewrite <- Hs in Hc. destruct (alloc_object_ok _ Hw Hc) as (i & q & E & Hw' & Hi & Hf & Hsz & Hcnt & Ho).
  exists i, (upd_elem (fun b => mk_buf 0 None (b_payload b)) i q). rewrite Hs in Hi.
  assert (own i = None) as Hoi by (destruct (own i) eqn:Eo; [|done]; exfalso; apply Hf, Hu; [done|by rewrite Eo]).
  assert (forall b, b <> i -> elem_at q b = elem_at (buf_pool s) b) as Hne by (intros b Hb; unfold elem_at; by rewrite Ho, fn_lookup_insert_ne).
  assert (elem_at q i = elem_at (buf_pool s) i) as Heq by (unfold elem_at; by rewrite Ho, fn_lookup_insert).
  assert (forall b, b <> i -> elem_at (upd_elem (fun b => mk_buf 0 None (b_payload b)) i q) b = elem_at (buf_pool s) b) as Hne'.
  { intros b Hb. rewrite elem_upd_ne by done. by apply Hne. }
  split_and!; try done; [|split| |by rewrite elem_upd..].
  - unfold get_buffer, with_bufs, on_pool, alloc_asserted, mbind, M_bind. by rewrite E.
  - by apply upd_elem_wf.
  - cbn. by rewrite Hsz.
  - intros b Hb. rewrite used_upd. unfold used. rewrite Ho. destruct (decide (i = b)) as [->|Hib]; [by rewrite !fn_lookup_insert|].
    rewrite !fn_lookup_insert_ne by done. by apply Hu.
  - intros b Hb. destruct (decide (i = b)) as [->|Hib]; [done|]. rewrite fn_lookup_insert_ne in Hb by done. by apply Hr.
  - intros b. destruct (decide (i = b)) as [->|Hib]; [rewrite elem_upd; cbn; by rewrite Heq|by rewrite Hne'].
  - intros k' b Hk'. destruct (decide (i = b)) as [->|Hib]; [rewrite fn_lookup_insert, Hoi|].
    + split; [|done]. split; [|done]. intros [= <-]. exfalso. apply Hk'. by left.
    + rewrite fn_lookup_insert_ne by done. split; [done|]. intros _. by apply Hne'.
Qed.

Lemma free_buffer_ok own s b k : bufs_ok (buf_pool s) own -> own b = Some k ->
  exists p', free_buffer b s = Ok (tt, set_bufs p' s) /\ bufs_ok p' (<[b := None]> own) /\ only [k] (buf_pool s) own p' (<[b := None]> own) /\
    p_count p' = p_count (buf_pool s) - 1 /\ (forall j, elem_at p' j = elem_at (buf_pool s) j).
Proof.
  intros [Hw Hs Hu Hr Hm] Hb. assert (0 <= b < BUFPOOL_SIZE) as Hi by (apply Hr; by rewrite Hb).
  destruct (free_object_ok _ b Hw) as (q & E & Hw' & Hsz & Hcnt & Ho); [by rewrite Hs|apply Hu; [done|by rewrite Hb]|].
  assert (forall j, elem_at q j = elem_at (buf_pool s) j) as He.
  { intros j. unfold elem_at. rewrite Ho. destruct (decide (b = j)) as [->|Hne]; [by rewrite fn_lookup_insert|by rewrite fn_lookup_insert_ne]. }
  exists q. split_and!; try done; [| |].
  - unfold free_buffer, with_bufs, on_pool, free_slot. by rewrite E.
  - split; [done|by rewrite Hsz| | |intros j; by rewrite He].
    + intros j Hj. unfold used. rewrite Ho. destruct (decide (b = j)) as [->|Hne]; [rewrite !fn_lookup_insert; cbn; tauto|].
      rewrite !fn_lookup_insert_ne by done. by apply Hu.
    + intros j Hj. destruct (decide (b = j)) as [->|Hne]; [done|]. rewrite fn_lookup_insert_ne in Hj by done. by apply Hr.
  - intros k' j Hk'. split; [|done]. destruct (decide (b = j)) as [->|Hne]; [|by rewrite fn_lookup_insert_ne].
    rewrite fn_lookup_insert, Hb. split; [done|]. intros [= ->]. exfalso. apply Hk'. by left.
Qed.

(** Reading and writing the payload. *)
Lemma buf_read_ok s b off n : len (b_payload (elem_at (buf_pool s) b)) = PAYLOAD_ROOM -> 0 <= off -> 0 <= n -> off + n <= PAYLOAD_ROOM ->
  buf_read b off n s = Ok (take (Z.to_nat n) (drop (Z.to_nat off) (b_payload (elem_at (buf_pool s) b))), s).
Proof.
  intros Hl Ho Hn Hr. unfold buf_read, peek, len in *. rewrite (proj2 (Z.leb_le 0 off)), (proj2 (Z.leb_le 0 n)), (proj2 (Z.leb_le (off + n) _)) by lia. done.
Qed.

Definition write_at (off : Z) (bs : bytes) (x : linux_buf) : linux_buf :=
  mk_buf (payload_size x) (b_next x) (take (Z.to_nat off) (b_payload x) ++ bs ++ drop (Z.to_nat off + length bs) (b_payload x)).

Lemma buf_write_ok s b off bs : len (b_payload (elem_at (buf_pool s) b)) = PAYLOAD_ROOM -> 0 <= off -> off + len bs <= PAYLOAD_ROOM ->
  exists f, buf_write b off bs s = Ok (tt, set_bufs (upd_elem f b (buf_pool s)) s) /\ f (elem_at (buf_pool s) b) = write_at off bs (elem_at (buf_pool s) b) /\
    forall x, len (b_payload (f x)) = PAYLOAD_ROOM.
Proof.
  intros Hl Ho Hr. unfold buf_write, poke, len in *. rewrite (proj2 (Z.leb_le 0 off)), (proj2 (Z.leb_le (off + _) _)) by lia. cbn [andb].
  eexists. split; [unfold upd_buf, modify; reflexivity|]. split; [done|]. intros x. cbn. rewrite !length_app, length_take, length_drop. lia.
Qed.

(** What a write leaves in front of its end. *)
Lemma take_write off bs x : len (b_payload x) = PAYLOAD_ROOM -> 0 <= off -> off + len bs <= PAYLOAD_ROOM ->
  take (Z.to_nat off + length bs) (b_payload (write_at off bs x)) = take (Z.to_nat off) (b_payload x) ++ bs.
Proof.
  intros Hl Ho Hr. unfold len in *. cbn. rewrite app_assoc. rewrite take_app_le by (rewrite length_app, length_take; lia).
  apply take_ge. rewrite length_app, length_take. lia.
Qed.

(** A buffer gets a successor. *)
Definition next_is (n : option Z) (x : linux_buf) : linux_buf := mk_buf (payload_size x) n (b_payload x).

Lemma link_seg p hd ps ds t d nx n : seg p hd ps ds (Some t) -> holds p t d nx -> t ∉ ps -> seg (upd_elem (next_is n) t p) hd (ps ++ [t]) (ds ++ [d]) n.
Proof.
  intros Hs [H1 H2 H3 H4] Ht. apply seg_snoc. split.
  - eapply seg_agree; [|done]. intros b Hb. apply elem_upd_ne. intros ->. done.
  - split; rewrite ?elem_upd; done.
Qed.

(** ** Whole chains *)

Lemma free_chain_seg fuel hd ps ds k : forall own s, seg (buf_pool s) hd ps ds None -> NoDup ps -> (forall b, b ∈ ps -> own b = Some k) ->
  bufs_ok (buf_pool s) own -> (length ps <= fuel)%nat ->
  exists p' own', free_chain fuel hd s = Ok (tt, set_bufs p' s) /\ bufs_ok p' own' /\ only [k] (buf_pool s) own p' own' /\
    p_count p' = p_count (buf_pool s) - Z.of_nat (length ps) /\ (forall j, elem_at p' j = elem_at (buf_pool s) j) /\
    (forall b, own' b = if decide (b ∈ ps) then None else own b).
Proof.
  revert hd ds fuel. induction ps as [|b ps IH]; intros hd [|d ds] fuel own s Hs Hn Hps Hok Hf; cbn in Hs; try done.
  - subst hd. exists (buf_pool s), own. split_and!; try done; [by destruct fuel, s|cbn; lia].
  - destruct Hs as [-> (n & [_ Hnx _ _] & Hs)]. apply NoDup_cons in Hn as [Hb Hn]. destruct fuel as [|fuel]; [cbn in Hf; lia|].
    destruct (free_buffer_ok own s b k Hok) as (p1 & E1 & Hok1 & Ho1 & Hc1 & He1); [apply Hps; by left|].
    destruct (IH n ds fuel (<[b := None]> own) (set_bufs p1 s)) as (p' & own' & E2 & Hok2 & Ho2 & Hc2 & He2 & Hown); try done.
    { eapply seg_agree; [|done]. intros j _. apply He1. }
    { intros j Hj. rewrite fn_lookup_insert_ne by (intros ->; done). apply Hps. by right. }
    { cbn in Hf. lia. }
    exists p', own'. split_and!; [| done | by eapply only_trans | cbn in *; lia | intros j; cbn in *; by rewrite He2 |].
    + cbn [free_chain]. unfold mbind, M_bind. rewrite E1. unfold get_buffer_next, gets. cbn [buf_pool set_bufs]. rewrite (He1 b), Hnx. exact E2.
    + intros j. rewrite Hown. destruct (decide (b = j)) as [->|Hne].
      * rewrite fn_lookup_insert. rewrite (decide_True (P := j ∈ j :: ps)) by (by left). by destruct (decide _).
      * rewrite fn_lookup_insert_ne by done. destruct (decide (j ∈ ps)); [rewrite decide_True by (by right)|rewrite decide_False]; try done.
        intros [->|?]%elem_of_cons; done.
Qed.

Lemma free_msg_ok own s k hd tl ds : bufs_ok (buf_pool s) own -> msg_at (buf_pool s) own k hd tl ds ->
  exists p' own', free_chain CHAIN hd s = Ok (tt, set_bufs p' s) /\ bufs_ok p' own' /\ only [k] (buf_pool s) own p' own' /\
    p_count p' = p_count (buf_pool s) - Z.of_nat (length ds) /\ (forall b, own' b <> Some k).
Proof.
  intros Hok Hm. pose proof (msg_length _ _ _ _ _ _ Hok Hm) as Hl. destruct Hm as (ps & Hs & Ht & Hn & Hps). pose proof (seg_length _ _ _ _ _ Hs) as Hlen.
  destruct (free_chain_seg CHAIN hd ps ds k own s Hs Hn) as (p' & own' & E & Hok' & Ho & Hc & _ & Hown); try done; [intros b; by apply Hps|unfold CHAIN; lia|].
  exists p', own'. split_and!; try done; [by rewrite <- Hlen|]. intros b. rewrite Hown. case_decide as Hb; [done|]. by intros ?%Hps.
Qed.

Section Send.
Context (sendto_ok : r2p2_host_tuple -> bytes -> bool) (Hsend : forall dest d, sendto_ok dest d = true).

Definition datagrams (sock : option Z) (dest : r2p2_host_tuple) ds : list event := Datagram sock dest <$> ds.

Lemma send_seg fuel hd ps ds dest sock : forall s, seg (buf_pool s) hd ps ds None -> (forall b, len (b_payload (elem_at (buf_pool s) b)) = PAYLOAD_ROOM) ->
  (length ps <= fuel)%nat -> send_chain sendto_ok fuel hd dest sock s = Ok (tt, set_out (out s ++ datagrams sock dest ds) s).
Proof using Hsend.
  revert hd ds fuel. induction ps as [|b ps IH]; intros hd [|d ds] fuel s Hs Hr Hf; cbn in Hs; try done.
  - subst hd. destruct fuel; unfold datagrams; cbn; rewrite app_nil_r; by destruct s.
  - destruct Hs as [-> (n & [H1 H2 H3 H4] & Hs)]. destruct fuel as [|fuel]; [cbn in Hf; lia|]. cbn [send_chain].
    unfold mbind, M_bind, get_buffer_payload_size, gets, emit, modify. rewrite buf_read_ok by (rewrite ?H1; first [done|unfold len, SIZEOF_HEADER in *; lia]).
    rewrite H1. unfold len. rewrite Nat2Z.id. cbn [Z.to_nat]. rewrite drop_0, H3, Hsend. unfold get_buffer_next, gets. cbn [buf_pool set_out]. rewrite H2.
    rewrite (IH n ds fuel (set_out (out s ++ [Datagram sock dest d]) s) Hs Hr) by (cbn in Hf; lia). cbn. by rewrite <- app_assoc.
Qed.

Lemma send_msg_ok own s k hd tl ds dest sock : bufs_ok (buf_pool s) own -> msg_at (buf_pool s) own k hd tl ds ->
  buf_list_send sendto_ok hd dest sock s = Ok (tt, set_out (out s ++ datagrams sock dest ds) s).
Proof using Hsend.
  intros Hok Hm. pose proof (msg_length _ _ _ _ _ _ Hok Hm) as Hl. destruct Hm as (ps & Hs & _ & _ & _). unfold buf_list_send. eapply send_seg; [done|apply Hok|].
  rewrite (seg_length _ _ _ _ _ Hs). unfold CHAIN. lia.
Qed.
End Send.

(** What the application sees of a packet. *)
Definition content d : bytes := drop 8 d.

Lemma app_iovec_seg fuel hd ps ds n : forall s, seg (buf_pool s) hd ps ds None -> (forall b, len (b_payload (elem_at (buf_pool s) b)) = PAYLOAD_ROOM) ->
  (length ps <= fuel)%nat -> n + Z.of_nat (length ps) < 255 -> app_iovec fuel hd n s = Ok (content <$> ds, s).
Proof.
  revert hd ds fuel n. induction ps as [|b ps IH]; intros hd [|d ds] fuel n s Hs Hr Hf Hn; cbn in Hs; try done.
  - subst hd. by destruct fuel.
  - destruct Hs as [-> (nx & [H1 H2 H3 H4] & Hs)]. destruct fuel as [|fuel]; [cbn in Hf; lia|]. cbn [app_iovec length] in *.
    unfold mbind, M_bind, get_buffer_payload_size, gets. unfold SIZEOF_HEADER, len in *. rewrite buf_read_ok by (rewrite ?H1; unfold len; done || lia). rewrite H1.
    unfold get_buffer_next, gets, assert. cbn [buf_pool]. rewrite H2, (proj2 (Z.ltb_lt _ _)) by lia. rewrite (IH nx ds fuel (n + 1) s Hs Hr) by lia.
    unfold mret, M_ret, content. cbn. do 3 f_equal. rewrite <- H3 at 2. rewrite take_drop_commute.
    by replace (Z.to_nat 8 + Z.to_nat (Z.of_nat (length d) - 8))%nat with (length d) by lia.
Qed.

Lemma app_iovec_ok own s k m ds : bufs_ok (buf_pool s) own -> msg_at (buf_pool s) own k (head_buffer m) (tail_buffer m) ds -> ds <> [] ->
  Z.of_nat (length ds) < 255 -> prepare_to_app_iovec m s = Ok (content <$> ds, s).
Proof.
  intros Hok (ps & Hs & _ & _ & _) Hd Hn. unfold prepare_to_app_iovec, mbind, M_bind, assert. pose proof (seg_length _ _ _ _ _ Hs) as Hl.
  destruct ps as [|b ps]; [by destruct ds|]. destruct ds as [|d ds]; [done|]. assert (head_buffer m = Some b) as Eh by apply Hs. rewrite Eh in *.
  rewrite bool_decide_true by done. eapply app_iovec_seg; [exact Hs|apply Hok|..]; unfold CHAIN, BUFPOOL_SIZE in *; lia.
Qed.

(** A message of more parts than the application can be given. *)
Lemma app_iovec_long fuel hd ps ds n : forall s, seg (buf_pool s) hd ps ds None -> (forall b, len (b_payload (elem_at (buf_pool s) b)) = PAYLOAD_ROOM) ->
  (length ps <= fuel)%nat -> n < 255 <= n + Z.of_nat (length ps) -> app_iovec fuel hd n s = Err AssertFails.
Proof.
  revert hd ds fuel n. induction ps as [|b ps IH]; intros hd [|d ds] fuel n s Hs Hr Hf Hn; cbn in Hs; try done; [cbn in Hn; lia|].
  destruct Hs as [-> (nx & [H1 H2 H3 H4] & Hs)]. destruct fuel as [|fuel]; [cbn in Hf; lia|]. cbn [app_iovec length] in *.
  unfold mbind, M_bind, get_buffer_payload_size, gets. unfold SIZEOF_HEADER, len in *. rewrite buf_read_ok by (rewrite ?H1; unfold len; done || lia).
  unfold get_buffer_next, gets, assert. rewrite H2. destruct (Z.ltb_spec (n + 1) 255) as [Hlt|Hge]; [|done]. rewrite (IH _ ds fuel (n + 1) s Hs Hr) by lia. done.
Qed.

Lemma app_iovec_fails own s k m ds : bufs_ok (buf_pool s) own -> msg_at (buf_pool s) own k (head_buffer m) (tail_buffer m) ds ->
  255 <= Z.of_nat (length ds) -> prepare_to_app_iovec m s = Err AssertFails.
Proof.
  intros Hok Hm Hn. pose proof (msg_length _ _ _ _ _ _ Hok Hm) as Hb. destruct Hm as (ps & Hs & _ & _ & _). unfold prepare_to_app_iovec, mbind, M_bind, assert.
  pose proof (seg_length _ _ _ _ _ Hs) as Hl. case_bool_decide; [|done]. eapply app_iovec_long; [exact Hs|apply Hok|..]; unfold CHAIN, BUFPOOL_SIZE in *; lia.
Qed.

(** ** Reading a message byte by byte (r2p2: gbuffer_read, gbuffer_skip)

    A reader stands at a byte of a chain of buffers.  It reads and skips over the ends of the buffers, whose headers it leaves out. *)

Record gbuffer_reader : Set := mk_reader { current_buffer : option Z; left_in_buffer : Z }.

Definition gbuffer_reader_init (gb : Z) : M gbuffer_reader :=
  n ← get_buffer_payload_size gb; mret (mk_reader (Some gb) (s32 (n - SIZEOF_HEADER))).

(** The next buffer if this one is used up; [None] is the end of the chain. *)
Definition reader_next (r : gbuffer_reader) : M (gbuffer_reader * bool) :=
  if left_in_buffer r =? 0 then
    cur ← lift_opt (current_buffer r);
    n ← get_buffer_next cur;
    match n with
    | None => mret (mk_reader None 0, false)
    | Some b => sz ← get_buffer_payload_size b; mret (mk_reader (Some b) (s32 (sz - SIZEOF_HEADER)), true)
    end
  else mret (r, true).

(** Every round copies a byte or goes on to the next buffer. *)
Fixpoint read_loop (fuel : nat) (r : gbuffer_reader) (left_to_copy : Z) (dst : bytes) : M (bytes * gbuffer_reader) :=
  if left_to_copy =? 0 then mret (dst, r)
  else
    match fuel with
    | O => fails Hangs
    | S fuel' =>
        x ← reader_next r;
        let '(r, more) := x in
        if negb more then mret (dst, r)
        else
          let to_copy := Z.min (left_in_buffer r) left_to_copy in
          if to_copy <? 0 then undefined
          else
            cur ← lift_opt (current_buffer r);
            sz ← get_buffer_payload_size cur;
            bs ← buf_read cur (sz - left_in_buffer r) to_copy;
            read_loop fuel' (mk_reader (current_buffer r) (left_in_buffer r - to_copy)) (left_to_copy - to_copy) (dst ++ bs)
    end.

Definition gbuffer_read (r : gbuffer_reader) (size : Z) : M (bytes * gbuffer_reader) := read_loop (Z.to_nat size + CHAIN) r size [].

Fixpoint skip_loop (fuel : nat) (r : gbuffer_reader) (left_to_skip : Z) : M (Z * gbuffer_reader) :=
  if left_to_skip =? 0 then mret (0, r)
  else
    match fuel with
    | O => fails Hangs
    | S fuel' =>
        x ← reader_next r;
        let '(r, more) := x in
        if negb more then mret (left_to_skip, r)
        else if left_in_buffer r <? left_to_skip then skip_loop fuel' (mk_reader (current_buffer r) 0) (left_to_skip - left_in_buffer r)
        else skip_loop fuel' (mk_reader (current_buffer r) (left_in_buffer r - left_to_skip)) 0
    end.

(** The number of bytes that were skipped. *)
Definition gbuffer_skip (r : gbuffer_reader) (size : Z) : M (Z * gbuffer_reader) :=
  x ← skip_loop (Z.to_nat size + CHAIN) r size; let '(n, r) := x in mret (size - n, r).

(** ** What is left to read *)

Record reads (p : pool) (r : gbuffer_reader) (bs : bytes) (k : nat) : Prop := mk_reads {
  rd_at : exists b d n ps ds, current_buffer r = Some b /\ holds p b d n /\ seg p n ps ds None /\ 0 <= left_in_buffer r <= len d - 8 /\
    bs = drop (Z.to_nat (len d - left_in_buffer r)) d ++ concat (content <$> ds) /\ k = length ps
}.

Lemma take_prefix (n : nat) (l d : bytes) x m : take n l = d -> (x + m <= n)%nat -> take m (drop x l) = take m (drop x d).
Proof. intros <- H. rewrite skipn_firstn_comm, take_take. f_equal. lia. Qed.

Section Reader.
Context (s : r2p2) (Hroom : forall b, len (b_payload (elem_at (buf_pool s) b)) = PAYLOAD_ROOM).
Abbreviation p := (buf_pool s).

Lemma content_size b d n : holds p b d n -> 8 <= len d <= 2032 /\ s32 (len d - SIZEOF_HEADER) = len d - 8.
Proof using. intros [_ _ _ Hl]. unfold SIZEOF_HEADER, PAYLOAD_ROOM, BUFLEN in *. split; [lia|]. apply sext_small; unfold in_s; lia. Qed.

Lemma reader_starts b d n ps ds : holds p b d n -> seg p n ps ds None ->
  exists r, gbuffer_reader_init b s = Ok (r, s) /\ reads p r (concat (content <$> d :: ds)) (length ps).
Proof using.
  intros Hh Hs. pose proof (content_size b d n Hh) as [Hl E]. exists (mk_reader (Some b) (len d - 8)). split.
  - unfold gbuffer_reader_init, get_buffer_payload_size. rewrite bind_gets, (ho_size _ _ _ _ Hh), E. done.
  - split. exists b, d, n, ps, ds. cbn [current_buffer left_in_buffer]. split_and!; try done; try lia. cbn [fmap list_fmap concat]. f_equal. unfold content. f_equal. lia.
Qed.

(** The next buffer with something to read, or the end. *)
Lemma reader_next_ok r bs j : reads p r bs j ->
  (exists r' j', reader_next r s = Ok ((r', true), s) /\ reads p r' bs j' /\ (j' <= j)%nat /\ (left_in_buffer r' = 0 -> (j' < j)%nat)) \/
  (bs = [] /\ reader_next r s = Ok ((mk_reader None 0, false), s)).
Proof using.
  intros [(b & d & n & ps & ds & Ec & Hh & Hs & Hl & Eb & Ek)]. unfold reader_next. destruct (Z.eqb_spec (left_in_buffer r) 0) as [E0|E0].
  - rewrite Ec, bind_some. unfold get_buffer_next. rewrite bind_gets, (ho_next _ _ _ _ Hh). rewrite E0 in Eb. unfold len in Eb. rewrite drop_ge in Eb by lia.
    destruct ps as [|b' ps], ds as [|d' ds]; try done; cbn [seg] in Hs.
    + right. subst n. split; [by rewrite Eb|done].
    + left. destruct Hs as [-> (n' & Hh' & Hs')]. pose proof (content_size b' d' n' Hh') as [Hl' E']. exists (mk_reader (Some b') (len d' - 8)), (length ps).
      split_and!; [|split; exists b', d', n', ps, ds; cbn [current_buffer left_in_buffer]; split_and!; try done; try lia|cbn in Ek; lia|cbn in Ek; lia].
      * unfold get_buffer_payload_size. rewrite bind_gets, (ho_size _ _ _ _ Hh'), E'. done.
      * rewrite Eb. cbn [fmap list_fmap concat app]. f_equal. unfold content. f_equal. lia.
  - left. exists r, j. split_and!; try done. split. by exists b, d, n, ps, ds.
Qed.

(** A copy out of the buffer. *)
Lemma reader_copy r bs j m : reads p r bs j -> 0 <= m <= left_in_buffer r -> exists b sz, current_buffer r = Some b /\ payload_size (elem_at p b) = sz /\
  buf_read b (sz - left_in_buffer r) m s = Ok (take (Z.to_nat m) bs, s) /\ reads p (mk_reader (current_buffer r) (left_in_buffer r - m)) (drop (Z.to_nat m) bs) j /\ m <= len bs.
Proof using Hroom.
  intros [(b & d & n & ps & ds & Ec & Hh & Hs & Hl & Eb & Ek)] Hm. exists b, (len d). pose proof (content_size b d n Hh) as [Hd _]. pose proof Hh as [H1 H2 H3 H4].
  assert (length (drop (Z.to_nat (len d - left_in_buffer r)) d) = Z.to_nat (left_in_buffer r)) as Hlen by (rewrite length_drop; unfold len in *; lia).
  split_and!; try done.
  - rewrite buf_read_ok by (done || unfold PAYLOAD_ROOM, BUFLEN; lia). do 2 f_equal. rewrite Eb, take_app_le by lia.
    apply (take_prefix (length d)); [done|unfold len in *; lia].
  - split. exists b, d, n, ps, ds. cbn [current_buffer left_in_buffer]. split_and!; try done; try lia. rewrite Eb, drop_app_le by lia. rewrite drop_drop. f_equal. f_equal. lia.
  - rewrite Eb. unfold len in *. rewrite length_app. lia.
Qed.

Lemma read_loop_ok fuel : forall r bs j size dst, reads p r bs j -> 0 <= size -> (Z.to_nat size + j <= fuel)%nat ->
  exists r', read_loop fuel r size dst s = Ok ((dst ++ take (Z.to_nat size) bs, r'), s) /\
    if size <=? len bs then exists j', reads p r' (drop (Z.to_nat size) bs) j' else current_buffer r' = None.
Proof using Hroom.
  induction fuel as [|fuel IH]; intros r bs j size dst Hr Hs Hf; cbn [read_loop]; destruct (Z.eqb_spec size 0) as [->|Hs0]; try lia.
  1, 2: exists r; rewrite (proj2 (Z.leb_le _ _)) by (unfold len; lia); cbn; rewrite app_nil_r; eauto.
  destruct (reader_next_ok r bs j Hr) as [(r1 & j1 & E1 & Hr1 & Hk1 & Hz)|[-> E1]]; mrun E1; cbv beta iota; cbn [negb].
  - assert (0 <= left_in_buffer r1) as Hl1 by (destruct Hr1 as [(? & ? & ? & ? & ? & _ & _ & _ & ? & _)]; lia). set (m := Z.min (left_in_buffer r1) size). cbv zeta.
    rewrite (proj2 (Z.ltb_ge m 0)) by lia. destruct (reader_copy r1 bs j1 m Hr1) as (b & sz & Ec & Esz & Erd & Hr2 & Hml); [lia|]. rewrite Ec, bind_some. unfold get_buffer_payload_size.
    rewrite bind_gets, Esz. mrun Erd. rewrite <- Ec. destruct (IH _ _ _ (size - m) (dst ++ take (Z.to_nat m) bs) Hr2) as (r3 & E3 & H3); [lia| |].
    { destruct (decide (left_in_buffer r1 = 0)) as [E0|]; [specialize (Hz E0)|]; lia. }
    exists r3. rewrite E3, <- app_assoc. split.
    + do 3 f_equal. f_equal. rewrite <- (take_drop (Z.to_nat m) (take (Z.to_nat size) bs)). rewrite take_take, skipn_firstn_comm. f_equal; f_equal; lia.
    + unfold len in *. rewrite length_drop in H3. destruct (Z.leb_spec size (Z.of_nat (length bs))) as [Hle|Hgt].
      * rewrite (proj2 (Z.leb_le _ _)) in H3 by lia. destruct H3 as (j' & H3). rewrite drop_drop in H3. exists j'. by replace (Z.to_nat m + Z.to_nat (size - m))%nat with (Z.to_nat size) in H3 by lia.
      * by rewrite (proj2 (Z.leb_gt _ _)) in H3 by lia.
  - exists (mk_reader None 0). rewrite take_nil, app_nil_r. split; [done|]. rewrite (proj2 (Z.leb_gt _ _)) by (unfold len; cbn; lia). done.
Qed.

(** A skip within the buffer. *)
Lemma reader_forward r bs j m : reads p r bs j -> 0 <= m <= left_in_buffer r -> reads p (mk_reader (current_buffer r) (left_in_buffer r - m)) (drop (Z.to_nat m) bs) j /\ m <= len bs.
Proof using Hroom. intros Hr Hm. by destruct (reader_copy r bs j m Hr Hm) as (b & sz & _ & _ & _ & H). Qed.

Lemma skip_loop_ok fuel : forall r bs j size, reads p r bs j -> 0 <= size -> (Z.to_nat size + j <= fuel)%nat ->
  exists r', skip_loop fuel r size s = Ok ((Z.max 0 (size - len bs), r'), s) /\
    if size <=? len bs then exists j', reads p r' (drop (Z.to_nat size) bs) j' else current_buffer r' = None.
Proof using Hroom.
  induction fuel as [|fuel IH]; intros r bs j size Hr Hs Hf; cbn [skip_loop]; destruct (Z.eqb_spec size 0) as [->|Hs0]; try lia.
  1, 2: exists r; split; [replace (Z.max 0 (0 - len bs)) with 0 by (unfold len; lia); done|rewrite (proj2 (Z.leb_le _ _)) by (unfold len; lia); cbn; by eauto].
  destruct (reader_next_ok r bs j Hr) as [(r1 & j1 & E1 & Hr1 & Hk1 & Hz)|[-> E1]]; mrun E1; cbv beta iota; cbn [negb].
  - assert (0 <= left_in_buffer r1) as Hl1 by (destruct Hr1 as [(? & ? & ? & ? & ? & _ & _ & _ & ? & _)]; lia).
    assert (forall m, m = Z.min (left_in_buffer r1) size -> exists r', skip_loop fuel (mk_reader (current_buffer r1) (left_in_buffer r1 - m)) (size - m) s = Ok ((Z.max 0 (size - len bs), r'), s) /\
      (if size <=? len bs then exists j', reads p r' (drop (Z.to_nat size) bs) j' else current_buffer r' = None)) as H.
    { intros m Em. destruct (reader_forward r1 bs j1 m Hr1) as [Hr2 Hml]; [lia|]. destruct (IH _ _ _ (size - m) Hr2) as (r3 & E3 & H3); [lia| |].
      { destruct (decide (left_in_buffer r1 = 0)) as [E0|]; [specialize (Hz E0)|]; lia. }
      exists r3. unfold len in *. rewrite length_drop in E3, H3. split; [rewrite E3; do 2 f_equal; f_equal; lia|].
      destruct (Z.leb_spec size (Z.of_nat (length bs))) as [Hle|Hgt].
      - rewrite (proj2 (Z.leb_le _ _)) in H3 by lia. destruct H3 as (j' & H3). rewrite drop_drop in H3. exists j'. by replace (Z.to_nat m + Z.to_nat (size - m))%nat with (Z.to_nat size) in H3 by lia.
      - by rewrite (proj2 (Z.leb_gt _ _)) in H3 by lia. }
    destruct (Z.ltb_spec (left_in_buffer r1) size) as [Hlt|Hge].
    + destruct (H (left_in_buffer r1)) as (r' & E & Hr'); [lia|]. rewrite Z.sub_diag in E. by exists r'.
    + destruct (H size) as (r' & E & Hr'); [lia|]. rewrite Z.sub_diag in E. by exists r'.
  - exists (mk_reader None 0). split; [replace (Z.max 0 (size - len [])) with size by (unfold len; cbn; lia); done|]. rewrite (proj2 (Z.leb_gt _ _)) by (unfold len; cbn; lia). done.
Qed.

(** Reading gives the next bytes of the message, as many as there are; skipping passes over them.  A reader that came to the end must not be used again. *)
Lemma gbuffer_read_ok r bs j size : reads p r bs j -> 0 <= size -> (j <= CHAIN)%nat ->
  exists r', gbuffer_read r size s = Ok ((take (Z.to_nat size) bs, r'), s) /\
    if size <=? len bs then exists j', reads p r' (drop (Z.to_nat size) bs) j' else current_buffer r' = None.
Proof using Hroom. intros Hr Hs Hk. destruct (read_loop_ok (Z.to_nat size + CHAIN) r bs j size [] Hr Hs) as (r' & E & H); [lia|]. by exists r'. Qed.

Lemma gbuffer_skip_ok r bs j size : reads p r bs j -> 0 <= size -> (j <= CHAIN)%nat ->
  exists r', gbuffer_skip r size s = Ok ((Z.min size (len bs), r'), s) /\
    if size <=? len bs then exists j', reads p r' (drop (Z.to_nat size) bs) j' else current_buffer r' = None.
Proof using Hroom.
  intros Hr Hs Hk. destruct (skip_loop_ok (Z.to_nat size + CHAIN) r bs j size Hr Hs) as (r' & E & H); [lia|]. exists r'. unfold gbuffer_skip. mrun E. split; [|done].
  unfold mret, M_ret. do 3 f_equal. lia.
Qed.
End Reader.

(** ** Fragmentation

    [r2p2_prepare_msg] cuts what the application sends into packets; here is which ones, and that the buffers hold them. *)

#[local] Arguments header_bytes : simpl never.
Implicit Types (v : bytes) (vs : list bytes).

(** ** The packets of a message *)

(** Parts of [n] bytes, the last one possibly shorter. *)
Fixpoint chunks_go (fuel : nat) (n : nat) (l : bytes) : list bytes :=
  match l, fuel with
  | [], _ | _, O => []
  | _, S fuel' => take n l :: chunks_go fuel' n (drop n l)
  end.
Definition chunks (l : bytes) : list bytes := chunks_go (length l) (Z.to_nat PAYLOAD_SIZE) l.

(** The contents of the packets: a large request starts with a packet of 14 bytes. *)
Definition fragments (small : bool) (l : bytes) : list bytes :=
  if small then take (Z.to_nat MIN_PAYLOAD_SIZE) l :: chunks (drop (Z.to_nat MIN_PAYLOAD_SIZE) l) else chunks l.

Definition flags_of (n i : nat) : Z := Z.lor (if (i =? 0)%nat then F_FLAG else 0) (if (S i =? n)%nat then L_FLAG else 0).

(** Packet [i] of [n], in the byte order of the network. *)
Definition packet (req_type policy id : Z) (n i : nat) v : bytes :=
  header_bytes (mk_header MAGIC SIZEOF_HEADER (u8 (Z.lor (Z.shiftl req_type 4) (Z.land 0x0F policy))) (flags_of n i) (swap16 id)
    (swap16 (u16 (Z.of_nat (if (i =? 0)%nat then n else i))))) ++ v.
Definition packets (req_type policy id : Z) vs : list bytes := imap (packet req_type policy id (length vs)) vs.

(** What the loop leaves: no flags yet, and the first packet has number 0. *)
Definition raw_packet (req_type policy id : Z) (i : nat) v : bytes := header_bytes (new_header req_type policy id (Z.of_nat i)) ++ v.
Definition raw_packets (req_type policy id : Z) vs : list bytes := imap (raw_packet req_type policy id) vs.

Definition is_small (req_type : Z) (iov : list bytes) : bool := negb (single_packet 0 iov) && (req_type =? REQUEST_MSG).

Lemma chunks_fuel n : (0 < n)%nat -> forall f g l, (length l <= f)%nat -> (length l <= g)%nat -> chunks_go f n l = chunks_go g n l.
Proof.
  intros Hn. induction f as [|f IH]; intros g l Hf Hg; [by destruct l, g; cbn in *; try lia|].
  destruct l as [|x l]; [by destruct g|]. destruct g as [|g]; [cbn in Hg; lia|]. cbn [chunks_go]. f_equal. apply IH; rewrite length_drop; cbn in *; lia.
Qed.

Lemma chunks_step l : l <> [] -> chunks l = take (Z.to_nat PAYLOAD_SIZE) l :: chunks (drop (Z.to_nat PAYLOAD_SIZE) l).
Proof.
  intros Hl. unfold chunks. destruct l as [|x l]; [done|]. cbn [length chunks_go]. f_equal.
  apply chunks_fuel; [change (Z.to_nat PAYLOAD_SIZE) with 1464%nat; lia|rewrite length_drop; change (Z.to_nat PAYLOAD_SIZE) with 1464%nat; cbn; lia|lia].
Qed.

Lemma chunks_concat l : concat (chunks l) = l.
Proof.
  unfold chunks. assert (forall f l, (length l <= f)%nat -> concat (chunks_go f (Z.to_nat PAYLOAD_SIZE) l) = l) as H; [|by apply H].
  induction f as [|f IH]; intros [|x l'] Hf; try done; [cbn in Hf; lia|]. cbn [chunks_go concat]. rewrite IH; [by rewrite take_drop|].
  rewrite length_drop. change (Z.to_nat PAYLOAD_SIZE) with 1464%nat. cbn in *. lia.
Qed.

Lemma fragments_concat small l : concat (fragments small l) = l.
Proof. unfold fragments. destruct small; cbn [concat]; rewrite chunks_concat; [by rewrite take_drop|done]. Qed.

Lemma length_header h : length (header_bytes h) = 8%nat.
Proof. done. Qed.

Lemma header_of_bytes h v : in_u 16 (h_rid h) -> in_u 16 (p_order h) -> header_of (header_bytes h ++ v) = Some h.
Proof.
  intros H1 H2. destruct h as [m s t f r o]. cbn [h_rid p_order] in *.
  change (header_of _) with (Some (mk_header m s t f (le_value (le_bytes 2 r)) (le_value (le_bytes 2 o)))). by rewrite !le_value_bytes.
Qed.

Lemma swap16_value x : swap16 x = (x / 256) mod 256 + 256 * (x mod 256).
Proof. unfold swap16, be_value. cbn. unfold wrap. change (2 ^ 8) with 256. lia. Qed.
Lemma swap16_range x : in_u 16 (swap16 x).
Proof. rewrite swap16_value. unfold in_u. pose proof (Z.mod_pos_bound (x / 256) 256). pose proof (Z.mod_pos_bound x 256). lia. Qed.
Lemma swap16_swap16 x : in_u 16 x -> swap16 (swap16 x) = x.
Proof. intros Hx. unfold in_u in Hx. rewrite !swap16_value. Z.to_euclidean_division_equations. lia. Qed.

(** ** Headers in buffers *)

Lemma read_header_ok s b h v nx : holds (buf_pool s) b (header_bytes h ++ v) nx -> len (b_payload (elem_at (buf_pool s) b)) = PAYLOAD_ROOM ->
  in_u 16 (h_rid h) -> in_u 16 (p_order h) -> read_header b s = Ok (h, s).
Proof.
  intros [H1 H2 H3 H4] Hr Hi Ho. unfold read_header, mbind, M_bind. rewrite buf_read_ok by (done || unfold SIZEOF_HEADER, PAYLOAD_ROOM, BUFLEN; lia).
  rewrite drop_0. assert (take 8 (b_payload (elem_at (buf_pool s) b)) = header_bytes h ++ []) as E.
  { apply (f_equal (take 8)) in H3. rewrite take_take in H3. rewrite length_app, length_header in H3. replace (8 `min` (8 + length v))%nat with 8%nat in H3 by lia.
    rewrite H3, app_nil_r. by apply take_app_length'. }
  change (Z.to_nat SIZEOF_HEADER) with 8%nat. rewrite E, header_of_bytes by done. done.
Qed.

(** A new header for packet [j] of a chain. *)
Lemma write_header_seg s own k hd ps ds nx j b h0 h v : seg (buf_pool s) hd ps ds nx -> NoDup ps -> bufs_ok (buf_pool s) own -> own b = Some k ->
  ps !! j = Some b -> ds !! j = Some (header_bytes h0 ++ v) ->
  exists p', write_header b h s = Ok (tt, set_bufs p' s) /\ bufs_ok p' own /\ only [k] (buf_pool s) own p' own /\ p_count p' = p_count (buf_pool s) /\
    seg p' hd ps (<[j := header_bytes h ++ v]> ds) nx.
Proof.
  intros Hs Hn Hok Hb Hj Hd. pose proof (bo_room _ _ Hok b) as Hr.
  destruct (buf_write_ok s b 0 (header_bytes h) Hr) as (f & E & Hf & Hfl); [done..|].
  exists (upd_elem f b (buf_pool s)). destruct (upd_buf_ok _ _ f b k Hok Hb) as [Hok' Ho]; [intros; apply Hfl|].
  split_and!; try done; clear E Hok' Ho Hok Hb.
  revert hd ds j Hs Hj Hd. induction ps as [|b' ps IH]; intros hd [|d ds] [|j] Hs Hj Hd; cbn in Hs; try done.
  - destruct Hs as [-> (n & [H1 H2 H3 H4] & Hs)]. injection Hj as ->. apply (inj Some) in Hd. subst d. apply NoDup_cons in Hn as [Hb Hn]. cbn. split; [done|]. exists n. split.
    + assert (length (header_bytes h ++ v) = length (header_bytes h0 ++ v)) as El by (by rewrite !length_app).
      split; rewrite ?elem_upd, ?Hf; [cbn [write_at payload_size]; rewrite H1; unfold len; by rewrite El|done| |unfold len in *; by rewrite El].
      cbn. change (Z.to_nat 0 + length (header_bytes h))%nat with 8%nat. change (Z.to_nat 0) with 0%nat. rewrite take_0. cbn [app]. rewrite take_app_ge by (rewrite ?length_app, ?length_header; lia).
      f_equal. rewrite length_app, !length_header. replace (8 + length v - 8)%nat with (length v) by lia.
      rewrite length_app, length_header in H3. rewrite take_drop_commute, H3. by apply drop_app_length'.
    + eapply seg_agree; [|done]. intros x Hx. apply elem_upd_ne. intros ->. done.
  - destruct Hs as [-> (n & Hh & Hs)]. apply NoDup_cons in Hn as [Hb Hn]. cbn. split; [done|]. exists n. split; [|by apply IH].
    eapply holds_agree; [|done]. apply elem_upd_ne. intros ->. apply Hb. by eapply list_elem_of_lookup_2.
Qed.

(** ** The loop *)

Section Prepare.
Context (small : bool) (req_type policy id : Z) (k : key).

Abbreviation raws := (raw_packets req_type policy id).

(** How much goes into the next packet, when [vs] are complete. *)
Definition capacity vs : Z := if small && bool_decide (vs = []) then MIN_PAYLOAD_SIZE else PAYLOAD_SIZE.

(** The packets [vs] are complete and the next one, in buffer [gb], holds [c] so far. *)
Record building p own (m : r2p2_msg) (f : frag) ps (gb : Z) vs (c : bytes) : Prop := {
  bu_seg : seg p (head_buffer m) ps (raws vs) (Some gb);
  bu_gb : f_gb f = Some gb;
  bu_tail : tail_buffer m = Some gb;
  bu_nodup : NoDup (ps ++ [gb]);
  bu_own : forall b, b ∈ ps ++ [gb] <-> own b = Some k;
  bu_next : b_next (elem_at p gb) = None;
  bu_data : take (8 + length c) (b_payload (elem_at p gb)) = raw_packet req_type policy id (length vs) c;
  bu_target : f_target f = 8 + len c;
  bu_left : f_left f = capacity vs - len c;
  bu_pos : 0 <= f_left f;
  bu_cnt : f_cnt f = Z.of_nat (S (length vs));
  bu_first : f_first f && small = small && bool_decide (vs = [])
}.

Lemma length_raws vs : length (raws vs) = length vs.
Proof. apply length_imap. Qed.

Lemma raws_snoc vs v : raws (vs ++ [v]) = raws vs ++ [raw_packet req_type policy id (length vs) v].
Proof. unfold raw_packets. rewrite imap_app. cbn. by rewrite Nat.add_0_r. Qed.

Lemma capacity_bounds vs : 14 <= capacity vs <= 1464.
Proof. unfold capacity, MIN_PAYLOAD_SIZE, PAYLOAD_SIZE, SIZEOF_HEADER. destruct (_ && _); lia. Qed.

Lemma length_raw i v : length (raw_packet req_type policy id i v) = (8 + length v)%nat.
Proof. unfold raw_packet. by rewrite length_app, length_header. Qed.

(** Bytes are copied into the packet. *)
Lemma building_copy s own m f ps gb vs c x : building (buf_pool s) own m f ps gb vs c -> bufs_ok (buf_pool s) own -> len x <= f_left f ->
  exists p', buf_write gb (f_target f) x s = Ok (tt, set_bufs p' s) /\ bufs_ok p' own /\ only [k] (buf_pool s) own p' own /\ p_count p' = p_count (buf_pool s) /\
    forall cp, building p' own m (mk_frag (f_gb f) (f_target f + len x) (f_left f - len x) cp (f_cnt f) (f_first f)) ps gb vs (c ++ x).
Proof.
  intros [H1 H2 H3 H4 H5 H6 H7 H8 H9 H10 H11 H12] Hok Hx. pose proof (capacity_bounds vs) as Hc. pose proof (bo_room _ _ Hok gb) as Hr.
  assert (own gb = Some k) as Hgb by (apply H5, elem_of_app; right; by left). unfold len in *.
  destruct (buf_write_ok s gb (f_target f) x Hr) as (g & E & Hg & Hgl); [lia|unfold len, PAYLOAD_ROOM, BUFLEN; lia|].
  destruct (upd_buf_ok _ _ g gb k Hok Hgb) as [Hok' Ho]; [intros; apply Hgl|]. exists (upd_elem g gb (buf_pool s)). split_and!; try done. intros cp.
  split; cbn [f_gb f_target f_left f_cnt f_first]; rewrite ?elem_upd, ?Hg, ?length_app, ?Nat2Z.inj_add; unfold len; rewrite ?length_app; try done; try lia.
  - eapply seg_agree; [|done]. intros b Hb. apply elem_upd_ne. intros ->. apply NoDup_app in H4 as (_ & H4 & _). apply (H4 b Hb). by left.
  - pose proof (take_write (f_target f) x (elem_at (buf_pool s) gb) Hr) as Ht. rewrite H8 in Ht. unfold len in *.
    replace (Z.to_nat (8 + Z.of_nat (length c)) + length x)%nat with (8 + (length c + length x))%nat in Ht by lia.
    rewrite H8. unfold len. rewrite Ht by (unfold PAYLOAD_ROOM, BUFLEN; lia). replace (Z.to_nat _) with (8 + length c)%nat by lia. rewrite H7. unfold raw_packet. by rewrite app_assoc.
Qed.

(** The header of a new packet. *)
Lemma new_header_ok s own gb cnt : bufs_ok (buf_pool s) own -> own gb = Some k ->
  exists p', write_header gb (new_header req_type policy id cnt) s = Ok (tt, set_bufs p' s) /\ bufs_ok p' own /\ only [k] (buf_pool s) own p' own /\
    p_count p' = p_count (buf_pool s) /\ (forall b, b <> gb -> elem_at p' b = elem_at (buf_pool s) b) /\
    b_next (elem_at p' gb) = b_next (elem_at (buf_pool s) gb) /\ take 8 (b_payload (elem_at p' gb)) = header_bytes (new_header req_type policy id cnt).
Proof.
  intros Hok Hgb. pose proof (bo_room _ _ Hok gb) as Hr. destruct (buf_write_ok s gb 0 (header_bytes (new_header req_type policy id cnt)) Hr) as (g & E & Hg & Hgl); [done..|].
  destruct (upd_buf_ok _ _ g gb k Hok Hgb) as [Hok' Ho]; [intros; apply Hgl|]. exists (upd_elem g gb (buf_pool s)).
  split_and!; try done; [intros b Hb; by apply elem_upd_ne|by rewrite elem_upd, Hg|]. rewrite elem_upd, Hg.
  apply (take_write 0 (header_bytes (new_header req_type policy id cnt)) _ Hr); done.
Qed.

Definition start (m : r2p2_msg) (f : frag) : Prop := head_buffer m = None /\ tail_buffer m = None /\ f_gb f = None /\ f_left f = 0 /\ f_cnt f = 0 /\ f_first f = true.

Lemma first_buffer_ok s own m f : start m f -> (forall b, own b <> Some k) -> bufs_ok (buf_pool s) own -> p_count (buf_pool s) < BUFPOOL_SIZE ->
  exists p' own' m' f' gb, next_buffer small req_type policy id f m s = Ok ((f', m'), set_bufs p' s) /\ bufs_ok p' own' /\ only [k] (buf_pool s) own p' own' /\
    p_count p' = p_count (buf_pool s) + 1 /\ building p' own' m' f' [] gb [] [] /\ f_copied f' = f_copied f /\ sender m' = sender m /\ req_id m' = req_id m.
Proof.
  intros (Hh & Ht & Hgb & Hl & Hcn & Hfi) Hk Hok Hc. destruct (get_buffer_ok k own s Hok Hc) as (gb & p1 & E1 & Hn1 & Hok1 & Ho1 & Hc1 & He1 & _ & Hx1).
  destruct (new_header_ok (set_bufs p1 s) (<[gb := Some k]> own) gb 0 Hok1) as (p2 & E2 & Hok2 & Ho2 & Hc2 & He2 & Hx2 & Ht2); [by rewrite fn_lookup_insert|].
  eexists p2, (<[gb := Some k]> own), _, _, gb. split.
  { unfold next_buffer. rewrite Hgb, Hcn, Hfi. unfold mbind, M_bind, mret, M_ret. rewrite E1. unfold r2p2_msg_add_payload, assert, mbind, M_bind, mret, M_ret. rewrite Ht, Hh, bool_decide_true by done. cbv beta iota zeta. rewrite E2. reflexivity. }
  split; [done|]. split; [by eapply only_trans|]. split; [cbn in *; lia|]. split; [|done]. split; try done.
  - apply NoDup_singleton.
  - intros b. cbn. rewrite list_elem_of_singleton. destruct (decide (gb = b)) as [->|Hne]; [by rewrite fn_lookup_insert|].
    rewrite fn_lookup_insert_ne by done. split; [by intros ->|by intros ?%Hk].
  - by rewrite Hx2.
  - cbn [f_left]. unfold capacity. rewrite andb_comm. destruct small; done.
  - cbn [f_left]. destruct (true && small); done.
  - cbn. by rewrite andb_true_r.
Qed.

Lemma next_buffer_ok s own m f ps gb vs c : building (buf_pool s) own m f ps gb vs c -> f_left f = 0 -> bufs_ok (buf_pool s) own -> p_count (buf_pool s) < BUFPOOL_SIZE ->
  exists p' own' m' f' gb', next_buffer small req_type policy id f m s = Ok ((f', m'), set_bufs p' s) /\ bufs_ok p' own' /\ only [k] (buf_pool s) own p' own' /\
    p_count p' = p_count (buf_pool s) + 1 /\ building p' own' m' f' (ps ++ [gb]) gb' (vs ++ [c]) [] /\ f_copied f' = f_copied f /\ sender m' = sender m /\ req_id m' = req_id m.
Proof.
  intros [H1 H2 H3 H4 H5 H6 H7 H8 H9 H10 H11 H12] Hl Hok Hc. pose proof (capacity_bounds vs) as Hcap. assert (len c = capacity vs) as Hlc by lia.
  assert (own gb = Some k) as Hgb by (apply H5, elem_of_app; right; by left).
  set (f1 := fun b => mk_buf (u32 ((if f_first f && small then MIN_PAYLOAD_SIZE else PAYLOAD_SIZE) + SIZEOF_HEADER)) (b_next b) (b_payload b)).
  destruct (upd_buf_ok _ _ f1 gb k Hok Hgb) as [Hok0 Ho0]; [done|]. set (p0 := upd_elem f1 gb (buf_pool s)) in *.
  destruct (get_buffer_ok k own (set_bufs p0 s) Hok0 Hc) as (g & p1 & E1 & Hn1 & Hok1 & Ho1 & Hc1 & He1 & _ & Hx1). cbn [buf_pool set_bufs] in *.
  assert (gb <> g) as Hne by (intros ->; congruence).
  destruct (upd_buf_ok _ _ (next_is (Some g)) gb k Hok1) as [Hok2 Ho2]; [by rewrite fn_lookup_insert_ne|done|]. set (p2 := upd_elem (next_is (Some g)) gb p1) in *.
  destruct (new_header_ok (set_bufs p2 s) (<[g := Some k]> own) g (f_cnt f) Hok2) as (p3 & E3 & Hok3 & Ho3 & Hc3 & He3 & Hx3 & Ht3); [by rewrite fn_lookup_insert|].
  cbn [buf_pool set_bufs] in *. pose proof H4 as Hnd. apply NoDup_app in Hnd as (Hn & Hd & _).
  assert (g ∉ ps ++ [gb]) as Hg by (intros ?%H5; congruence).
  assert (holds p1 gb (raw_packet req_type policy id (length vs) c) None) as Hh.
  { apply (holds_agree p0); [by apply He1|]. unfold p0. split; rewrite ?elem_upd; cbn [f1 payload_size b_next b_payload]; [|done|by rewrite length_raw|].
    - rewrite H12. change (if small && _ then _ else _) with (capacity vs). unfold len. rewrite length_raw. unfold len in Hlc. rewrite wrap_small; unfold in_u, SIZEOF_HEADER; lia.
    - unfold len in *. rewrite length_raw. unfold SIZEOF_HEADER, PAYLOAD_ROOM, BUFLEN. lia. }
  eexists p3, (<[g := Some k]> own), _, _, g. split.
  { unfold next_buffer. rewrite H2. unfold mbind, M_bind, mret, M_ret, set_buffer_payload_size, upd_buf, modify. fold f1. fold p0. rewrite E1.
    unfold r2p2_msg_add_payload. rewrite H3. unfold chain_buffers, mbind, M_bind, mret, M_ret, upd_buf, modify. cbv beta iota zeta.
    change (set_bufs _ (set_bufs p1 _)) with (set_bufs p2 s). rewrite E3. reflexivity. }
  split; [done|]. split; [|split; [cbn in *; lia|]].
  { eapply only_trans; [exact Ho0|]. eapply only_trans; [exact Ho1|]. by eapply only_trans. }
  split; [|done]. split; cbn [f_gb f_target f_left f_cnt f_first head_buffer tail_buffer]; try done.
  - rewrite raws_snoc. apply (seg_agree p2); [intros b Hb; apply He3; by intros ->|]. apply (link_seg _ _ _ _ _ _ None); [|done|intros Hin; apply (Hd gb Hin); by left].
    apply (seg_agree (buf_pool s)); [|done]. intros b Hb. rewrite He1 by (intros ->; apply Hg, elem_of_app; by left). apply elem_upd_ne. intros ->. apply (Hd b Hb). by left.
  - apply NoDup_app. split_and!; [done| |apply NoDup_singleton]. intros b Hb ->%list_elem_of_singleton. done.
  - intros b. rewrite elem_of_app, list_elem_of_singleton. destruct (decide (g = b)) as [->|Hgb']; [rewrite fn_lookup_insert; tauto|].
    rewrite fn_lookup_insert_ne by done. rewrite H5. split; [intros [?| ->]; done|tauto].
  - rewrite Hx3. unfold p2. by rewrite elem_upd_ne.
  - change (8 + length [])%nat with 8%nat. rewrite Ht3, H11, length_app. unfold raw_packet. rewrite app_nil_r. do 3 f_equal. cbn. lia.
  - unfold capacity. rewrite (bool_decide_false (vs ++ [c] = [])) by (by destruct vs). rewrite andb_false_r. cbn.
    assert (f_first f && negb small && small = false) as -> by (destruct small; by rewrite ?andb_false_r). done.
  - assert (f_first f && negb small && small = false) as -> by (destruct small; by rewrite ?andb_false_r). done.
  - rewrite length_app. cbn. rewrite H11. lia.
  - rewrite (bool_decide_false (vs ++ [c] = [])) by (by destruct vs). destruct small; by rewrite ?andb_false_r.
Qed.

(** ** What the loop leaves *)

Definition part_ok v : Prop := v <> [] /\ len v < 2 ^ 31.

(** The bytes that are not copied yet. *)
Definition rest (iov : list bytes) (f : frag) : bytes := drop (Z.to_nat (f_copied f)) (concat iov).
Definition position (iov : list bytes) (f : frag) : Prop := match iov with [] => f_copied f = 0 | v :: _ => 0 <= f_copied f < len v end.

(** The packets when [rest] is added to the open packet [c] behind [vs]. *)
Definition finished vs (c : bytes) (left : Z) (r : bytes) : list bytes := vs ++ (c ++ take (Z.to_nat left) r) :: chunks (drop (Z.to_nat left) r).

(** The loop ends with these packets, the last of which is still open. *)
Definition loop_ends (fuel : nat) (iov : list bytes) (f : frag) (m : r2p2_msg) (s : r2p2) own (all : list bytes) (n : Z) : Prop :=
  exists p' own' m' f' ps' gb' vs' c', prepare_loop fuel small req_type policy id iov f m s = Ok ((f', m'), set_bufs p' s) /\ bufs_ok p' own' /\
    only [k] (buf_pool s) own p' own' /\ p_count p' = p_count (buf_pool s) + n /\ building p' own' m' f' ps' gb' vs' c' /\ vs' ++ [c'] = all /\
    sender m' = sender m /\ req_id m' = req_id m.

(** One round of the loop, with room in the packet. *)
Lemma copy_round fuel v iov s own m f ps gb vs c :
  (forall iov s own m f ps gb vs c, building (buf_pool s) own m f ps gb vs c -> bufs_ok (buf_pool s) own -> Forall part_ok iov -> position iov f ->
    (length (rest iov f) + length iov <= fuel)%nat -> p_count (buf_pool s) + Z.of_nat (length (chunks (drop (Z.to_nat (f_left f)) (rest iov f)))) <= BUFPOOL_SIZE ->
    loop_ends fuel iov f m s own (finished vs c (f_left f) (rest iov f)) (Z.of_nat (length (chunks (drop (Z.to_nat (f_left f)) (rest iov f)))))) ->
  building (buf_pool s) own m f ps gb vs c -> bufs_ok (buf_pool s) own -> Forall part_ok (v :: iov) -> position (v :: iov) f -> 0 < f_left f ->
  (length (rest (v :: iov) f) + length (v :: iov) <= S fuel)%nat ->
  p_count (buf_pool s) + Z.of_nat (length (chunks (drop (Z.to_nat (f_left f)) (rest (v :: iov) f)))) <= BUFPOOL_SIZE ->
  loop_ends (S fuel) (v :: iov) f m s own (finished vs c (f_left f) (rest (v :: iov) f)) (Z.of_nat (length (chunks (drop (Z.to_nat (f_left f)) (rest (v :: iov) f))))).
Proof.
  intros IH Hb Hok Hp Hpos Hl Hf Hc. cbn [position] in Hpos. apply Forall_cons in Hp as Hp'. destruct Hp' as [[Hv Hv31] Hiov].
  set (n := Z.min (f_left f) (len v - f_copied f)). assert (0 < n) by lia. unfold len in *.
  set (x := take (Z.to_nat n) (drop (Z.to_nat (f_copied f)) v)). assert (len x = n) as Hx by (unfold len, x; rewrite length_take, length_drop; lia).
  destruct (building_copy s own m f ps gb vs c x Hb Hok ltac:(lia)) as (p1 & E1 & Hok1 & Ho1 & Hc1 & Hb1).
  set (nx := f_copied f + n =? Z.of_nat (length v)).
  set (f1 := mk_frag (f_gb f) (f_target f + n) (f_left f - n) (if nx then 0 else f_copied f + n) (f_cnt f) (f_first f)).
  set (iov1 := if nx then iov else v :: iov).
  assert (rest iov1 f1 = drop (Z.to_nat n) (rest (v :: iov) f)) as HR.
  { unfold rest, iov1, f1, nx. cbn [f_copied concat]. rewrite drop_drop. destruct (Z.eqb_spec (f_copied f + n) (Z.of_nat (length v))) as [E|E].
    - rewrite drop_0. by rewrite drop_app_length' by lia.
    - cbn [concat]. f_equal. lia. }
  assert (take (Z.to_nat (f_left f)) (rest (v :: iov) f) = x ++ take (Z.to_nat (f_left f1)) (rest iov1 f1)) as HT.
  { rewrite HR. unfold f1. cbn [f_left]. replace (Z.to_nat (f_left f)) with (Z.to_nat n + Z.to_nat (f_left f - n))%nat by lia. rewrite <- take_take_drop. f_equal.
    unfold x, rest. cbn [concat]. rewrite drop_app_le by lia. rewrite take_app_le; [done|]. rewrite length_drop. lia. }
  assert (drop (Z.to_nat (f_left f)) (rest (v :: iov) f) = drop (Z.to_nat (f_left f1)) (rest iov1 f1)) as HD.
  { rewrite HR, drop_drop. unfold f1. cbn [f_left]. f_equal. lia. }
  assert (length (rest iov1 f1) < length (rest (v :: iov) f))%nat as Hdec.
  { rewrite HR, length_drop. unfold rest. rewrite length_drop. cbn [concat]. rewrite length_app. lia. }
  destruct (IH iov1 (set_bufs p1 s) own m f1 ps gb vs (c ++ x)) as (p' & own' & m' & f' & ps' & gb' & vs' & c' & E & Hok' & Ho' & Hc' & Hb' & Hall & Hs & Hr).
  { rewrite Hx in Hb1. apply Hb1. }
  { done. }
  { unfold iov1. by destruct nx. }
  { unfold position, iov1, f1, nx. cbn [f_copied]. destruct (Z.eqb_spec (f_copied f + n) (Z.of_nat (length v))) as [E|E]; [|unfold len; lia].
    destruct iov as [|w iov]; [done|]. apply Forall_cons in Hiov as [[Hw _] _]. unfold len. destruct w; [done|cbn [length]; lia]. }
  { assert (length iov1 <= length (v :: iov))%nat by (unfold iov1; destruct nx; cbn; lia). lia. }
  { cbn [buf_pool set_bufs]. rewrite <- HD. lia. }
  exists p', own', m', f', ps', gb', vs', c'. split; [|split; [done|split; [by eapply only_trans|split; [rewrite HD; cbn in *; lia|split; [done|split; [|done]]]]]].
  - cbn [prepare_loop]. rewrite (proj2 (Z.eqb_neq (f_left f) 0)) by lia. rewrite bind_ret. cbv beta iota.
    assert (s32 (len v - f_copied f) = len v - f_copied f) as -> by (apply sext_small; unfold in_s, len; lia). unfold len at 1 2. fold n. rewrite (proj2 (Z.ltb_ge n 0)) by lia.
    rewrite (bu_gb _ _ _ _ _ _ _ _ Hb), bind_some. fold x. mrun E1. cbv zeta.
    assert (s32 (len v) = Z.of_nat (length v)) as -> by (apply sext_small; unfold in_s, len; lia). fold nx. rewrite <- (bu_gb _ _ _ _ _ _ _ _ Hb). exact E.
  - rewrite Hall. unfold finished. rewrite HT, HD. by rewrite app_assoc.
Qed.

Lemma prepare_loop_ok fuel : forall iov s own m f ps gb vs c, building (buf_pool s) own m f ps gb vs c -> bufs_ok (buf_pool s) own -> Forall part_ok iov -> position iov f ->
  (length (rest iov f) + length iov <= fuel)%nat -> p_count (buf_pool s) + Z.of_nat (length (chunks (drop (Z.to_nat (f_left f)) (rest iov f)))) <= BUFPOOL_SIZE ->
  loop_ends fuel iov f m s own (finished vs c (f_left f) (rest iov f)) (Z.of_nat (length (chunks (drop (Z.to_nat (f_left f)) (rest iov f))))).
Proof.
  induction fuel as [|fuel IH]; intros [|v iov] s own m f ps gb vs c Hb Hok Hp Hpos Hf Hc; [|cbn [length] in Hf; lia| |].
  1, 2: assert (rest [] f = []) as -> by (unfold rest; apply drop_nil); rewrite ?take_nil, ?drop_nil in *;
    exists (buf_pool s), own, m, f, ps, gb, vs, c; unfold finished; rewrite take_nil, drop_nil, app_nil_r; split_and!; try done; [by destruct s|cbn; lia].
  destruct (decide (f_left f = 0)) as [Hl|Hl]; [|apply (copy_round fuel v iov s own m f ps gb vs c IH Hb Hok Hp Hpos); [pose proof (bu_pos _ _ _ _ _ _ _ _ Hb); lia|done|done]].
  assert (rest (v :: iov) f <> []) as Hne.
  { intros E. apply (f_equal length) in E. unfold rest in E. rewrite length_drop in E. cbn [concat length position] in *. rewrite length_app in E. unfold len in *. lia. }
  rewrite Hl in Hc. cbn [Z.to_nat] in Hc. rewrite drop_0, chunks_step in Hc by done. cbn [length] in Hc.
  destruct (next_buffer_ok s own m f ps gb vs c Hb Hl Hok ltac:(lia)) as (p1 & own1 & m1 & f1 & gb1 & E1 & Hok1 & Ho1 & Hc1 & Hb1 & Hcp1 & Hs1 & Hr1).
  assert (f_left f1 = PAYLOAD_SIZE) as Hl1.
  { rewrite (bu_left _ _ _ _ _ _ _ _ Hb1). unfold capacity. rewrite (bool_decide_false (vs ++ [c] = [])) by (by destruct vs). rewrite andb_false_r. done. }
  assert (rest (v :: iov) f1 = rest (v :: iov) f) as HR by (unfold rest; by rewrite Hcp1).
  destruct (copy_round fuel v iov (set_bufs p1 s) own1 m1 f1 (ps ++ [gb]) gb1 (vs ++ [c]) [] IH Hb1 Hok1 Hp)
    as (p' & own' & m' & f' & ps' & gb' & vs' & c' & E & Hok' & Ho' & Hc' & Hb' & Hall & Hs & Hr).
  { cbn [position] in *. by rewrite Hcp1. }
  { by rewrite Hl1. }
  { by rewrite HR. }
  { rewrite HR, Hl1. cbn [buf_pool set_bufs]. lia. }
  rewrite HR, Hl1 in Hc', Hall. exists p', own', m', f', ps', gb', vs', c'. split_and!; try done; [|by eapply only_trans| | |by rewrite Hs|by rewrite Hr].
  - cbn [prepare_loop] in *. rewrite Hl, Z.eqb_refl. mrun E1. rewrite (proj2 (Z.eqb_neq (f_left f1) 0)) in E by (by rewrite Hl1). exact E.
  - rewrite Hl, drop_0, chunks_step by done. cbn [length] in *. cbn in Hc'. lia.
  - rewrite Hall. unfold finished. rewrite Hl, drop_0, take_0, app_nil_r. rewrite (chunks_step (rest (v :: iov) f)) by done. by rewrite <- app_assoc.
Qed.
End Prepare.

(** ** The message *)

Lemma seg_lookup p hd ps ds nx j b d : seg p hd ps ds nx -> ps !! j = Some b -> ds !! j = Some d -> exists n, holds p b d n.
Proof.
  revert hd ds j. induction ps as [|b' ps IH]; intros hd [|d' ds] [|j] Hs Hb Hd; cbn in *; try done; destruct Hs as [-> (n & Hh & Hs)]; [|by eapply IH].
  simplify_eq. by exists n.
Qed.

Lemma seg_head p hd ps ds nx b : seg p hd ps ds nx -> ps !! 0%nat = Some b -> hd = Some b.
Proof. destruct ps, ds; cbn; try done. intros [-> _] [= ->]. done. Qed.

(** The message fits into one packet unless it is longer than its payload. *)
Lemma single_packet_spec iov : forall t, 0 <= t <= PAYLOAD_SIZE -> Forall part_ok iov -> single_packet t iov = (t + len (concat iov) <=? PAYLOAD_SIZE).
Proof.
  unfold PAYLOAD_SIZE, SIZEOF_HEADER. induction iov as [|v iov IH]; intros t Ht Hp; cbn [single_packet concat].
  - unfold len. cbn. symmetry. apply Z.leb_le. lia.
  - apply Forall_cons in Hp as [[_ Hv] Hp]. unfold len, PAYLOAD_SIZE, SIZEOF_HEADER in *. rewrite wrap_small by (unfold in_u; lia). rewrite length_app, Nat2Z.inj_add.
    destruct (Z.ltb_spec (1472 - 8) (t + Z.of_nat (length v))) as [H|H]; [symmetry; apply Z.leb_gt; lia|]. rewrite IH by (done || lia). f_equal. lia.
Qed.

Lemma is_small_long req_type iov : Forall part_ok iov -> is_small req_type iov = true -> 1464 < len (concat iov).
Proof.
  intros Hp H. unfold is_small in H. apply andb_true_iff in H as [H _]. rewrite single_packet_spec in H by done. apply negb_true_iff, Z.leb_gt in H. unfold PAYLOAD_SIZE, SIZEOF_HEADER in H. lia.
Qed.

Lemma packets_lookup req_type policy id vs i : packets req_type policy id vs !! i = packet req_type policy id (length vs) i <$> vs !! i.
Proof. unfold packets. apply list_lookup_imap. Qed.

Lemma length_packets req_type policy id vs : length (packets req_type policy id vs) = length vs.
Proof. apply length_imap. Qed.

Section Message.
Context (req_type policy id : Z) (k : key) (Hid : in_u 16 id).

Definition first_header (n : nat) : r2p2_header :=
  mk_header MAGIC SIZEOF_HEADER (u8 (Z.lor (Z.shiftl req_type 4) (Z.land 0x0F policy))) (Z.lor 0 F_FLAG) (swap16 id) (swap16 (u16 (Z.of_nat n))).
Definition last_header (h : r2p2_header) : r2p2_header := mk_header (magic h) (header_size h) (type_policy h) (Z.lor (flags h) L_FLAG) (h_rid h) (p_order h).

(** The two headers that are completed after the loop. *)
Lemma complete_packets vs v0 c vl : vs ++ [c] = v0 :: vl ->
  let n := length (v0 :: vl) in
  let ds := <[0%nat := header_bytes (first_header n) ++ v0]> (raw_packets req_type policy id (v0 :: vl)) in
  exists h, ds !! length vs = Some (header_bytes h ++ c) /\ in_u 16 (h_rid h) /\ in_u 16 (p_order h) /\
    <[length vs := header_bytes (last_header h) ++ c]> ds = packets req_type policy id (v0 :: vl).
Proof using.
  intros E n ds. assert (n = S (length vs)) as Hn by (unfold n; rewrite <- E, length_app; cbn; lia).
  assert (forall i, raw_packets req_type policy id (v0 :: vl) !! i = raw_packet req_type policy id i <$> (v0 :: vl) !! i) as Hraw by (intros i; apply list_lookup_imap).
  assert ((v0 :: vl) !! length vs = Some c) as Hl by (rewrite <- E; by apply list_lookup_middle).
  exists (if (length vs =? 0)%nat then first_header n else new_header req_type policy id (Z.of_nat (length vs))). split_and!.
  - unfold ds. destruct (Nat.eqb_spec (length vs) 0) as [E0|E0].
    + rewrite E0 in *. cbn in Hl. injection Hl as ->. done.
    + rewrite list_lookup_insert_ne by done. rewrite Hraw, Hl. done.
  - destruct (_ =? _)%nat; apply swap16_range.
  - destruct (_ =? _)%nat; apply swap16_range.
  - apply list_eq. intros i. rewrite packets_lookup. fold n. unfold packet, flags_of. destruct (decide (i = length vs)) as [->|Hi].
    + rewrite list_lookup_insert_eq by (unfold ds; rewrite length_insert; unfold raw_packets; rewrite length_imap; fold n; lia). rewrite Hl. cbn [fmap option_fmap option_map].
      rewrite Hn, Nat.eqb_refl. do 2 f_equal. unfold last_header. destruct (Nat.eqb_spec (length vs) 0) as [E0|E0]; [by rewrite E0|]. done.
    + rewrite list_lookup_insert_ne by done. unfold ds. rewrite Hn. destruct (Nat.eqb_spec (S i) (S (length vs))); [lia|]. destruct i as [|i].
      * done.
      * rewrite list_lookup_insert_ne by done. rewrite Hraw. done.
Qed.

(** The loop from its start. *)
Lemma loop_from_start small s own m iov : bufs_ok (buf_pool s) own -> (forall b, own b <> Some k) -> head_buffer m = None -> tail_buffer m = None ->
  iov <> [] -> Forall part_ok iov -> let vs := fragments small (concat iov) in p_count (buf_pool s) + Z.of_nat (length vs) <= BUFPOOL_SIZE ->
  loop_ends small req_type policy id k (length (concat iov) + length iov) iov (mk_frag None 0 0 0 0 true) m s own vs (Z.of_nat (length vs)).
Proof using.
  intros Hok Hk Hh Ht Hi Hp vs Hc. destruct iov as [|v iov]; [done|].
  assert (concat (v :: iov) <> []) as Hne by (apply Forall_cons in Hp as [[Hv _] _]; cbn; by destruct v).
  set (cap := Z.to_nat (capacity small [])). assert (vs = take cap (concat (v :: iov)) :: chunks (drop cap (concat (v :: iov)))) as Evs.
  { unfold vs, fragments, cap, capacity. rewrite bool_decide_true by done. rewrite andb_true_r. destruct small; [done|by apply chunks_step]. }
  destruct (first_buffer_ok small req_type policy id k s own m (mk_frag None 0 0 0 0 true)) as (p1 & own1 & m1 & f1 & gb & E1 & Hok1 & Ho1 & Hc1 & Hb1 & Hcp1 & Hs1 & Hr1); try done.
  { rewrite Evs in Hc. cbn [length] in Hc. lia. }
  assert (rest (v :: iov) f1 = concat (v :: iov)) as HR by (unfold rest; by rewrite Hcp1).
  assert (f_left f1 = capacity small []) as Hl1.
  { rewrite (bu_left _ _ _ _ _ _ _ _ _ _ _ _ _ Hb1). unfold len. cbn. lia. }
  pose proof (capacity_bounds small []) as Hcap. remember (length (concat (v :: iov)) + length iov)%nat as fuel eqn:Hfuel.
  destruct (copy_round small req_type policy id k fuel v iov (set_bufs p1 s) own1 m1 f1 [] gb [] [] (prepare_loop_ok _ _ _ _ _ fuel) Hb1 Hok1 Hp)
    as (p' & own' & m' & f' & ps' & gb' & vs' & c' & E & Hok' & Ho' & Hc' & Hb' & Hall & Hs & Hr).
  { cbn [position]. rewrite Hcp1. apply Forall_cons in Hp as [[Hv _] _]. cbn [f_copied]. unfold len. destruct v; [done|cbn [length]; lia]. }
  { lia. }
  { rewrite HR. cbn [length]. lia. }
  { rewrite HR, Hl1. fold cap. rewrite Evs in Hc. cbn [length buf_pool set_bufs] in *. lia. }
  replace (length (concat (v :: iov)) + length (v :: iov))%nat with (S fuel) by (cbn [length]; lia).
  rewrite HR, Hl1 in Hall, Hc'. fold cap in Hall, Hc'. exists p', own', m', f', ps', gb', vs', c'. split_and!; try done; [|by eapply only_trans| |by rewrite Hall, Evs|by rewrite Hs|by rewrite Hr].
  - cbn [prepare_loop f_left] in *. change (0 =? 0) with true. cbv iota. mrun E1. rewrite (proj2 (Z.eqb_neq (f_left f1) 0)) in E by lia. exact E.
  - rewrite Evs. cbn [length buf_pool set_bufs] in *. lia.
Qed.

Lemma complete_headers_ok s own m ps gb vs c v0 vl :
  seg (buf_pool s) (head_buffer m) (ps ++ [gb]) (raw_packets req_type policy id (v0 :: vl)) None -> tail_buffer m = Some gb -> vs ++ [c] = v0 :: vl ->
  NoDup (ps ++ [gb]) -> (forall b, b ∈ ps ++ [gb] <-> own b = Some k) -> bufs_ok (buf_pool s) own ->
  exists p', complete_headers (Z.of_nat (length (v0 :: vl))) m s = Ok (tt, set_bufs p' s) /\ bufs_ok p' own /\ only [k] (buf_pool s) own p' own /\
    p_count p' = p_count (buf_pool s) /\ seg p' (head_buffer m) (ps ++ [gb]) (packets req_type policy id (v0 :: vl)) None.
Proof using.
  intros Hseg Ht Hall Hn Hown Hok. destruct (complete_packets vs v0 c vl Hall) as (h & Hh1 & Hh2 & Hh3 & Hh4).
  assert (own gb = Some k) as Hgb by (apply Hown, elem_of_app; right; by left).
  set (n := length (v0 :: vl)) in *. assert (length (ps ++ [gb]) = n) as Hln by (rewrite (seg_length _ _ _ _ _ Hseg); apply length_imap).
  destruct ((ps ++ [gb]) !! 0%nat) as [b0|] eqn:Eb0; [|apply lookup_ge_None in Eb0; unfold n in Hln; cbn in Hln; lia].
  assert (own b0 = Some k) as Hb0 by (eapply Hown, list_elem_of_lookup_2; done).
  destruct (seg_lookup _ _ _ _ _ 0 b0 (raw_packet req_type policy id 0 v0) Hseg Eb0) as (nx0 & Hho); [done|].
  destruct (write_header_seg s own k _ _ _ _ 0 b0 (new_header req_type policy id 0) (first_header n) v0 Hseg Hn Hok Hb0 Eb0) as (p3 & E3 & Hok3 & Ho3 & Hc3 & Hseg3); [done|].
  assert ((ps ++ [gb]) !! length vs = Some gb) as Egb.
  { replace (length vs) with (length ps); [by apply list_lookup_middle|]. unfold n in Hln. rewrite <- Hall, !length_app in Hln. cbn in Hln. lia. }
  destruct (seg_lookup _ _ _ _ _ _ gb _ Hseg3 Egb Hh1) as (nx1 & Hho1).
  destruct (write_header_seg (set_bufs p3 s) own k _ _ _ _ _ gb h (last_header h) c Hseg3 Hn Hok3 Hgb Egb Hh1) as (p4 & E4 & Hok4 & Ho4 & Hc4 & Hseg4).
  cbn [buf_pool set_bufs] in *. rewrite Hh4 in Hseg4. exists p4. split_and!; try done; [|by eapply only_trans|by rewrite Hc4].
  unfold complete_headers. rewrite (seg_head _ _ _ _ _ b0 Hseg Eb0), bind_some.
  erewrite bind_ok by (eapply read_header_ok; [exact Hho|apply Hok|apply swap16_range..]). mrun E3. rewrite Ht, bind_some.
  erewrite bind_ok by (eapply read_header_ok; [exact Hho1|apply Hok3|done..]). exact E4.
Qed.

Lemma prepare_msg_ok s own m iov : bufs_ok (buf_pool s) own -> (forall b, own b <> Some k) -> head_buffer m = None -> tail_buffer m = None ->
  iov <> [] -> Forall part_ok iov ->
  let vs := fragments (is_small req_type iov) (concat iov) in
  p_count (buf_pool s) + Z.of_nat (length vs) <= BUFPOOL_SIZE ->
  exists p' own' m', r2p2_prepare_msg m iov req_type policy id s = Ok (m', set_bufs p' s) /\ bufs_ok p' own' /\ only [k] (buf_pool s) own p' own' /\
    p_count p' = p_count (buf_pool s) + Z.of_nat (length vs) /\ msg_at p' own' k (head_buffer m') (tail_buffer m') (packets req_type policy id vs) /\
    sender m' = sender m /\ req_id m' = id.
Proof using.
  intros Hok Hk Hh Ht Hi Hp vs Hc.
  destruct (loop_from_start (is_small req_type iov) s own (mk_msg (sender m) id (head_buffer m) (tail_buffer m)) iov Hok Hk Hh Ht Hi Hp Hc)
    as (p1 & own1 & m1 & f1 & ps & gb & vs0 & c & E1 & Hok1 & Ho1 & Hc1 & [H1 H2 H3 H4 H5 H6 H7 H8 H9 H10 H11 H12] & Hall & Hs1 & Hr1). fold vs in Hall, Hc1.
  assert (capacity (is_small req_type iov) vs0 = PAYLOAD_SIZE) as Hcap.
  { unfold capacity. destruct (is_small req_type iov) eqn:Es; [|done]. pose proof (is_small_long _ _ Hp Es) as Hlong. case_bool_decide as H0; [|done]. exfalso.
    subst vs0. unfold vs, fragments in Hall. apply (f_equal length) in Hall. cbn [length app] in Hall. unfold len in Hlong. rewrite chunks_step in Hall; [cbn in Hall; lia|].
    intros E. apply (f_equal length) in E. rewrite length_drop in E. change (Z.to_nat MIN_PAYLOAD_SIZE) with 14%nat in E. cbn [length] in E. lia. }
  rewrite Hcap in H9. assert (own1 gb = Some k) as Hgb by (apply H5, elem_of_app; right; by left). unfold PAYLOAD_SIZE, SIZEOF_HEADER in H9.
  set (f2 := fun b => mk_buf (u32 (PAYLOAD_SIZE + SIZEOF_HEADER - f_left f1)) (b_next b) (b_payload b)).
  destruct (upd_buf_ok _ _ f2 gb k Hok1 Hgb) as [Hok2 Ho2]; [done|].
  assert (seg (upd_elem f2 gb p1) (head_buffer m1) (ps ++ [gb]) (raw_packets req_type policy id vs) None) as Hseg.
  { rewrite <- Hall, raws_snoc. apply seg_snoc. split.
    - apply (seg_agree p1); [|done]. intros b Hb. apply elem_upd_ne. intros ->. apply NoDup_app in H4 as (_ & Hd & _). apply (Hd b Hb). by left.
    - split; rewrite ?elem_upd; cbn [f2 payload_size b_next b_payload]; [|done|by rewrite length_raw|].
      + unfold len in *. rewrite length_raw. rewrite wrap_small; unfold in_u, PAYLOAD_SIZE, SIZEOF_HEADER; lia.
      + unfold len in *. rewrite length_raw. unfold SIZEOF_HEADER, PAYLOAD_ROOM, BUFLEN. lia. }
  destruct vs as [|v0 vl] eqn:Evs; [by destruct vs0|].
  destruct (complete_headers_ok (set_bufs (upd_elem f2 gb p1) s) own1 m1 ps gb vs0 c v0 vl Hseg H3 Hall H4 H5 Hok2) as (p3 & E3 & Hok3 & Ho3 & Hc3 & Hseg3).
  cbn [buf_pool set_bufs] in *. exists p3, own1, m1. split_and!; try done; [| | |].
  - unfold r2p2_prepare_msg. cbv zeta. mrun E1. cbv beta iota. rewrite H2, bind_some. unfold set_buffer_payload_size, upd_buf. fold f2. rewrite bind_modify.
    rewrite H11. replace (S (length vs0)) with (length (v0 :: vl)) by (rewrite <- Hall, length_app; cbn; lia). mrun E3. done.
  - eapply only_trans; [exact Ho1|]. by eapply only_trans.
  - rewrite Hc3. cbn in *. lia.
  - exists (ps ++ [gb]). rewrite last_snoc. by split_and!.
Qed.
End Message.
