(* ===== verification/R2p2Spec.v ===== *)
(** * What an endpoint promises

    The abstract endpoint keeps values where the code keeps pointers: the calls that wait for their replies, the requests of which packets are
    missing, and the requests that the application has.  Its operations are the protocol: which packet belongs where, when the application is
    called, what is sent.  [None] is a failed assertion.  Then the relation [sim] between the code and this endpoint, and the packet that is
    being treated. *)

From stdpp Require Import functions.
From S2P Require Import Prelude MapDef OfpBuf OfpMsgs Mempool R2p2 R2p2Bufs.

(** [c_sock] is the socket, [c_timer] what its timer is set to, [c_from] where the last reply seemed to come from. *)
Record call : Type := mk_call {
  c_ctx : r2p2_ctx; c_sock : Z; c_timer : Z; c_state : client_state; c_id : Z; c_req : list bytes; c_rep : list bytes; c_exp : Z; c_rcv : Z;
  c_from : r2p2_host_tuple
}.
Record request : Type := mk_request { q_from : r2p2_host_tuple; q_id : Z; q_pkts : list bytes; q_exp : Z; q_rcv : Z }.

(** Calls and incomplete requests in the order of their lists; [e_hosts] are the addresses of the client sockets. *)
Record endpoint : Type := mk_endpoint {
  e_calls : list (Z * call); e_partial : list (Z * request); e_served : gmap Z request; e_rid : Z; e_hosts : Z -> r2p2_host_tuple; e_rfn : bool; e_afc : option Z
}.

Definition set_calls (l : list (Z * call)) (e : endpoint) : endpoint := mk_endpoint l (e_partial e) (e_served e) (e_rid e) (e_hosts e) (e_rfn e) (e_afc e).
Definition set_requests (l : list (Z * request)) (m : gmap Z request) (e : endpoint) : endpoint := mk_endpoint (e_calls e) l m (e_rid e) (e_hosts e) (e_rfn e) (e_afc e).

(** Entries of association lists. *)
Definition assoc_set {A} (i : Z) (a : A) (l : list (Z * A)) : list (Z * A) := (fun x => if decide (x.1 = i) then (i, a) else x) <$> l.
Definition assoc_del {A} (i : Z) (l : list (Z * A)) : list (Z * A) := filter (fun x => x.1 <> i) l.

Definition set_call (i : Z) (c : call) (e : endpoint) : endpoint := set_calls (assoc_set i c (e_calls e)) e.
Definition del_call (i : Z) (e : endpoint) : endpoint := set_calls (assoc_del i (e_calls e)) e.

Definition with_reply (d : list bytes) (exp rcv : Z) (c : call) : call :=
  mk_call (c_ctx c) (c_sock c) (c_timer c) (c_state c) (c_id c) (c_req c) d exp rcv (c_from c).
Definition with_state (st : client_state) (c : call) : call :=
  mk_call (c_ctx c) (c_sock c) (c_timer c) st (c_id c) (c_req c) (c_rep c) (c_exp c) (c_rcv c) (c_from c).
Definition with_from (h : r2p2_host_tuple) (c : call) : call :=
  mk_call (c_ctx c) (c_sock c) (c_timer c) (c_state c) (c_id c) (c_req c) (c_rep c) (c_exp c) (c_rcv c) h.
Definition with_timer (t : Z) (c : call) : call :=
  mk_call (c_ctx c) (c_sock c) t (c_state c) (c_id c) (c_req c) (c_rep c) (c_exp c) (c_rcv c) (c_from c).

Abbreviation result := (option (endpoint * list event)).

(** The header of a packet in the byte order of the host, and the packet as it is kept. *)
Definition host_header (h : r2p2_header) : r2p2_header := mk_header (magic h) (header_size h) (type_policy h) (flags h) (swap16 (h_rid h)) (swap16 (p_order h)).
Definition stored (h : r2p2_header) (d : bytes) : bytes := header_bytes h ++ drop 8 d.

(** ** Calls *)

Definition spec_reply_error (i : Z) (c : call) (e : endpoint) : result := Some (del_call i e, [ErrorCb (ctx_arg (c_ctx c)) (-1)]).

Definition spec_finish (i : Z) (c : call) (e : endpoint) : result :=
  if negb (c_rcv c =? c_exp c) then spec_reply_error i c e
  else if Z.of_nat (length (c_rep c)) <? 255 then Some (set_call i (with_timer 0 c) e, [SuccessCb i (ctx_arg (c_ctx c)) (content <$> c_rep c)])
  else None.

Definition spec_reply (i : Z) (c : call) (h : r2p2_header) (d : bytes) (e : endpoint) : result :=
  if bool_decide (c_state c = R2P2_W_RESPONSE) then
    if is_first h then
      let c := with_reply (c_rep c ++ [d]) (p_order h) 1 c in
      if is_last h then spec_finish i c e else Some (set_call i c e, [])
    else
      let c' := with_reply (c_rep c ++ [d]) (c_exp c) (u16 (c_rcv c + 1)) c in
      if negb (p_order h =? c_rcv c) then spec_reply_error i c' e
      else if is_last h then spec_finish i c' e else Some (set_call i c' e, [])
  else None.

Definition spec_ack (i : Z) (c : call) (size : Z) (e : endpoint) : result :=
  if bool_decide (c_state c = R2P2_W_ACK) && (size =? 11)
  then Some (set_call i (with_state R2P2_W_RESPONSE c) e, datagrams (Some (c_sock c)) (c_from c) (drop 1 (c_req c))) else None.

Definition find_call (id port_ : Z) (e : endpoint) : option (Z * call) :=
  snd <$> list_find (fun x => (port (e_hosts e (c_sock x.2)) =? port_) && (c_id x.2 =? id)) (e_calls e).

Definition spec_response (h : r2p2_header) (d : bytes) (source local : r2p2_host_tuple) (e : endpoint) : result :=
  match find_call (h_rid h) (port local) e with
  | None => Some (e, [])
  | Some (i, c) =>
      let c := with_from (mk_host (swap32 (ip source)) (swap16 (port source))) c in
      let t := get_msg_type h in
      if t =? RAFT_REP then None
      else if t =? RESPONSE_MSG then spec_reply i c h (stored h d) e
      else if t =? ACK_MSG then spec_ack i c (len d) e
      else if t =? DROP_MSG then Some (del_call i e, [ErrorCb (ctx_arg (c_ctx c)) (- ERR_DROP_MSG)])
      else None
  end.

(** ** Requests *)

Definition control_packet (payload : bytes) (type id : Z) : bytes := packet type FIXED_ROUTE id 1 0 payload.

Definition add_packet (d : bytes) (q : request) : request := mk_request (q_from q) (q_id q) (q_pkts q ++ [d]) (q_exp q) (q_rcv q).

(** A packet that belongs to request [i]; the packets so far are in [e_partial] if there are any. *)
Definition spec_packet (i : Z) (q : request) (h : r2p2_header) (d : bytes) (e : endpoint) : result :=
  let q := add_packet d q in
  if negb (is_last h) then Some (set_requests (assoc_set i q (e_partial e)) (e_served e) e, [])
  else
    let gone := assoc_del i (e_partial e) in
    if negb (q_rcv q =? q_exp q) then Some (set_requests gone (e_served e) e, [])
    else if is_raft_msg h || is_replicated_req h || negb (e_rfn e) || (255 <=? Z.of_nat (length (q_pkts q))) then None
    else Some (set_requests gone (<[i := q]> (e_served e)) e, [RecvFn i (content <$> q_pkts q)]).

Definition find_partial (id : Z) (from : r2p2_host_tuple) (e : endpoint) : option (Z * request) :=
  snd <$> list_find (fun x => bool_decide (q_from x.2 = from) && (q_id x.2 =? id)) (e_partial e).

(** [i] is the slot of a new request. *)
Definition spec_request (i : Z) (h : r2p2_header) (d : bytes) (source : r2p2_host_tuple) (e : endpoint) : result :=
  if is_first h then
    let q := mk_request source (h_rid h) [] (p_order h) 1 in
    if (get_msg_type h =? REQUEST_MSG) && bool_decide (e_afc e = Some 0)
    then Some (e, [Datagram None source (control_packet drop_payload DROP_MSG (h_rid h))])
    else if is_last h then spec_packet i q h (stored h d) e
    else
      let ack := if is_raft_msg h then [] else [Datagram None source (control_packet ack_payload ACK_MSG (h_rid h))] in
      r ← spec_packet i q h (stored h d) (set_requests (e_partial e ++ [(i, q)]) (e_served e) e);
      Some (r.1, ack ++ r.2)
  else
    match find_partial (h_rid h) source e with
    | None => Some (e, [])
    | Some (j, q) =>
        if negb (p_order h =? q_rcv q) then Some (set_requests (assoc_del j (e_partial e)) (e_served e) e, [])
        else spec_packet j (mk_request (q_from q) (q_id q) (q_pkts q) (q_exp q) (u16 (q_rcv q + 1))) h (stored h d) e
    end.

(** A datagram. *)
Definition spec_recv (i : Z) (sock : option Z) (source : r2p2_host_tuple) (d : bytes) (e : endpoint) : result :=
  h ← host_header <$> header_of d;
  let local := match sock with Some k => e_hosts e k | None => zero_host end in
  if is_raft_single_msg h then None
  else if is_response h then spec_response h d source local e
  else spec_request i h d source e.

(** ** The application and the timers *)

(** [i] is the slot of the new call and [k] its socket, if there is one. *)
Definition spec_send_req (i : Z) (k : option Z) (iov : list bytes) (ctx : r2p2_ctx) (e : endpoint) : result :=
  match k with
  | None => Some (e, [ErrorCb (ctx_arg ctx) (- ERR_NO_SOCKET)])
  | Some n =>
      if 0 <=? timeout ctx then
        let id := u16 (e_rid e + 1) in
        let ds := packets REQUEST_MSG (routing_policy ctx) id (fragments (is_small REQUEST_MSG iov) (concat iov)) in
        let st := if bool_decide (length ds = 1%nat) then R2P2_W_RESPONSE else R2P2_W_ACK in
        Some (mk_endpoint (e_calls e ++ [(i, mk_call ctx n (timeout ctx) st id ds [] 0 0 zero_host)]) (e_partial e) (e_served e) id (e_hosts e) (e_rfn e) (e_afc e),
              datagrams (Some n) (destination ctx) (take 1 ds))
      else None
  end.

Definition spec_send_response (i : Z) (iov : list bytes) (e : endpoint) : result :=
  q ← e_served e !! i;
  d ← head (q_pkts q);
  h ← header_of d;
  if is_replicated_req h then None
  else Some (set_requests (e_partial e) (delete i (e_served e)) e,
             datagrams None (q_from q) (packets RESPONSE_MSG FIXED_ROUTE (q_id q) (fragments false (concat iov)))).

(** The timer of socket [n]. *)
Definition spec_timer (n : Z) (e : endpoint) : result :=
  match snd <$> list_find (fun x => c_sock x.2 = n) (e_calls e) with
  | Some (i, c) => Some (del_call i e, [TimeoutCb (ctx_arg (c_ctx c))])
  | None => Some (e, [])
  end.

Definition set_fns (r : bool) (a : option Z) (e : endpoint) : endpoint := mk_endpoint (e_calls e) (e_partial e) (e_served e) (e_rid e) (e_hosts e) r a.

(** What happens to an endpoint, and what it does then. *)
Inductive op : Type :=
| Recv (sock : option Z) (source : r2p2_host_tuple) (d : bytes)
| RecvFails (sock : option Z) (source : r2p2_host_tuple)
| TimerExpires (n : Z)
| SendReq (iov : list bytes) (ctx : r2p2_ctx)
| SendResponse (i : Z) (iov : list bytes)
| RecvRespDone (i : Z)
| SetRecvCb (r : bool)
| SetFlowControl (a : option Z).

Definition run (sendto_ok : r2p2_host_tuple -> bytes -> bool) (o : op) : M unit :=
  match o with
  | Recv sock source d => poll_recv sendto_ok sock source (Some d)
  | RecvFails sock source => poll_recv sendto_ok sock source None
  | TimerExpires n => handle_timer_for_socket n
  | SendReq iov ctx => r2p2_send_req sendto_ok iov ctx
  | SendResponse i iov => r2p2_send_response sendto_ok i iov
  | RecvRespDone i => r2p2_recv_resp_done i
  | SetRecvCb r => r2p2_set_recv_cb r
  | SetFlowControl a => r2p2_set_app_flow_control_fn a
  end.

(** [i] is a free slot and [k] a free socket. *)
Definition spec_op (i : Z) (k : option Z) (o : op) (e : endpoint) : result :=
  match o with
  | Recv sock source d => spec_recv i sock source d e
  | RecvFails _ _ => Some (e, [])
  | TimerExpires n => spec_timer n e
  | SendReq iov ctx => spec_send_req i k iov ctx e
  | SendResponse j iov => spec_send_response j iov e
  | RecvRespDone j => Some (del_call j e, [])
  | SetRecvCb r => Some (set_fns r (e_afc e) e, [])
  | SetFlowControl a => Some (set_fns (e_rfn e) a e, [])
  end.

(** The application names calls and requests that there are, and sends messages whose parts are not empty. *)
Definition iov_ok (iov : list bytes) : Prop := iov <> [] /\ Forall part_ok iov.

Definition legal (e : endpoint) (o : op) : Prop :=
  match o with
  | Recv _ _ d => len d <= PAYLOAD_ROOM
  | RecvFails _ _ | SetRecvCb _ | SetFlowControl _ => True
  | TimerExpires n => 0 <= n < SOCKPOOL_SIZE
  | SendReq iov _ => iov_ok iov
  | SendResponse i iov => is_Some (e_served e !! i) /\ iov_ok iov
  | RecvRespDone i => i ∈ (e_calls e).*1
  end.

(** The buffers and the slots in use: one buffer per packet. *)
Definition messages (e : endpoint) : list (key * list bytes) :=
  concat ((fun x => [(CReq x.1, c_req x.2); (CRep x.1, c_rep x.2)]) <$> e_calls e) ++ ((fun x => (SReq x.1, q_pkts x.2)) <$> e_partial e ++ map_to_list (e_served e)).
Definition buffers (e : endpoint) : Z := Z.of_nat (length (concat (messages e).*2)).
Definition requests (e : endpoint) : Z := Z.of_nat (length (e_partial e) + size (e_served e)).

(** The buffers and slots that an operation takes. *)
Definition room (e : endpoint) (o : op) : Prop :=
  match o with
  | Recv _ _ _ => buffers e + 2 <= BUFPOOL_SIZE /\ requests e < POOL_SIZE
  | RecvFails _ _ => buffers e < BUFPOOL_SIZE
  | SendReq iov _ => Z.of_nat (length (e_calls e)) < POOL_SIZE /\ buffers e + Z.of_nat (length (fragments (is_small REQUEST_MSG iov) (concat iov))) <= BUFPOOL_SIZE
  | SendResponse _ iov => buffers e + Z.of_nat (length (fragments false (concat iov))) <= BUFPOOL_SIZE
  | _ => True
  end.

(** Requests have numbers of 16 bits, and those that are complete have packets. *)
Record wf_endpoint (e : endpoint) : Prop := {
  we_partial : forall i q, (i, q) ∈ e_partial e -> in_u 16 (q_id q);
  we_served : forall i q, e_served e !! i = Some q -> in_u 16 (q_id q) /\ q_pkts q <> []
}.

Definition init_endpoint (hosts : Z -> r2p2_host_tuple) : endpoint := mk_endpoint [] [] ∅ 0 hosts false None.

(** ** The relation between the code and its specification

    [sim] relates a state of the code to an abstract endpoint: the used pairs are the calls and requests, in the order of their lists, each with
    its messages in buffers of its own; and every used buffer belongs to one of them, or to the operation that is running. *)

Implicit Types (own : owner) (k : key) (s : r2p2) (e : endpoint) (c : call) (q : request).

(** ** Pools of pairs *)

Record tracks {A} (p : fixed_mempool A) (P : Z -> Prop) : Prop := {
  tr_wf : wf_pool p;
  tr_size : p_size p = POOL_SIZE;
  tr_used : forall i, P i <-> 0 <= i < POOL_SIZE /\ used (p_objs p) i
}.

Lemma tracks_iff {A} (p : fixed_mempool A) (P P' : Z -> Prop) : tracks p P -> (forall i, P i <-> P' i) -> tracks p P'.
Proof. intros [H1 H2 H3] H. split; [done..|]. intros i. by rewrite <- H, H3. Qed.

Lemma tracks_upd {A} (p : fixed_mempool A) P f i : tracks p P -> tracks (upd_elem f i p) P.
Proof. intros [H1 H2 H3]. split; [by apply upd_elem_wf|done|]. intros j. by rewrite used_upd, H3. Qed.

Lemma tracks_relink {A} (p : fixed_mempool A) P m : tracks p P -> relinks (p_objs p) m -> tracks (set_objs p m) P.
Proof.
  intros [H1 H2 H3] Hr. assert (forall i, used m i <-> used (p_objs p) i) as Hu by (intros i; unfold used; by destruct (Hr i) as [-> _]).
  split; [by apply wf_pool_agree|done|]. intros i. cbn. by rewrite Hu, H3.
Qed.

Lemma elem_relink {A} (p : fixed_mempool A) m i : relinks (p_objs p) m -> elem_at (set_objs p m) i = elem_at p i.
Proof. intros Hr. apply Hr. Qed.

Lemma tracks_alloc {A} (p : fixed_mempool A) P : tracks p P -> p_count p < POOL_SIZE ->
  exists i p', alloc_asserted p = Ok (i, p') /\ ~ P i /\ tracks p' (fun j => P j \/ j = i) /\ p_count p' = p_count p + 1 /\
    (forall j, j <> i -> p_objs p' j = p_objs p j) /\ fo_next (p_objs p' i) = None /\ fo_prev (p_objs p' i) = None.
Proof.
  intros [H1 H2 H3] Hc. rewrite <- H2 in Hc. destruct (alloc_object_ok p H1 Hc) as (i & p' & E & Hw & Hi & Hf & Hs & Hn & Ho). rewrite H2 in *.
  exists i, p'. assert (forall j, j <> i -> p_objs p' j = p_objs p j) as Hne by (intros j Hj; rewrite Ho; by apply fn_lookup_insert_ne).
  split_and!; try done; [unfold alloc_asserted; by rewrite E|rewrite H3; tauto| |by rewrite Ho, fn_lookup_insert..].
  split; [done|done|]. intros j. rewrite H3. unfold used. destruct (decide (j = i)) as [->|Hj]; [|rewrite Hne by done; tauto].
  rewrite Ho, fn_lookup_insert. cbn. lia.
Qed.

Lemma tracks_free {A} (p : fixed_mempool A) (P : Z -> Prop) i : tracks p P -> P i ->
  exists p', free_slot i p = Ok (tt, p') /\ tracks p' (fun j => P j /\ j <> i) /\ p_count p' = p_count p - 1 /\ (forall j, j <> i -> p_objs p' j = p_objs p j).
Proof.
  intros [H1 H2 H3] Hp. apply H3 in Hp as [Hi Hu]. destruct (free_object_ok p i H1) as (p' & E & Hw & Hs & Hn & Ho); [by rewrite H2|done|].
  assert (forall j, j <> i -> p_objs p' j = p_objs p j) as Hne by (intros j Hj; rewrite Ho; by apply fn_lookup_insert_ne).
  exists p'. split_and!; try done; [unfold free_slot; by rewrite E|]. split; [done|by rewrite Hs|]. intros j. rewrite H3. unfold used.
  destruct (decide (j = i)) as [->|Hj]; [|rewrite Hne by done; tauto]. rewrite Ho, fn_lookup_insert. cbn. tauto.
Qed.

(** ** Sockets *)

(** The sockets as a pool. *)
Definition sock_pool (m : Z -> r2p2_socket) (count idx : Z) : fixed_mempool unit := mk_pool SOCKPOOL_SIZE count idx (fun i => mk_obj (s_taken (m i)) None None tt).

Lemma socket_loop_alloc fuel idx m : socket_loop fuel idx m = snd <$> alloc_loop fuel SOCKPOOL_SIZE idx (fun i => mk_obj (s_taken (m i)) None None tt).
Proof.
  revert idx. induction fuel as [|fuel IH]; intros idx; [done|]. cbn [socket_loop alloc_loop fo_taken]. change (u32 (SOCKPOOL_SIZE - 1)) with (SOCKPOOL_SIZE - 1).
  destruct (s_taken _ =? 0); [done|apply IH].
Qed.

(** ** The relation *)

Definition cp_rep (hosts : Z -> r2p2_host_tuple) c (h1 t1 h2 t2 : option Z) : r2p2_client_pair :=
  mk_cp (mk_msg (hosts (c_sock c)) (c_id c) h1 t1) (mk_msg (c_from c) 0 h2 t2) (c_exp c) (c_rcv c) (Some (c_ctx c)) (c_state c) (Some (c_sock c)) (Some (c_sock c)) true.

Definition call_ok (hosts : Z -> r2p2_host_tuple) (p : pool) own (x : r2p2_client_pair) (i : Z) c : Prop :=
  exists h1 t1 h2 t2, x = cp_rep hosts c h1 t1 h2 t2 /\ msg_at p own (CReq i) h1 t1 (c_req c) /\ msg_at p own (CRep i) h2 t2 (c_rep c) /\ c_req c <> [].

Definition sp_rep q (h1 t1 : option Z) : r2p2_server_pair := mk_sp (mk_msg (q_from q) (q_id q) h1 t1) zero_msg (q_exp q) (q_rcv q).

Definition request_ok (p : pool) own (x : r2p2_server_pair) (i : Z) q : Prop :=
  exists h1 t1, x = sp_rep q h1 t1 /\ msg_at p own (SReq i) h1 t1 (q_pkts q).

Definition is_call e (i : Z) : Prop := i ∈ (e_calls e).*1.
Definition is_request e (i : Z) : Prop := i ∈ (e_partial e).*1 \/ is_Some (e_served e !! i).

Definition key_live e k : Prop :=
  match k with
  | CReq i | CRep i => is_call e i
  | SReq i => is_request e i
  | _ => False
  end.

(** The sockets in use are those of the calls. *)
Record socks_ok (m : Z -> r2p2_socket) (count idx : Z) (hosts : Z -> r2p2_host_tuple) (calls : list (Z * call)) : Prop := {
  so_wf : wf_pool (sock_pool m count idx);
  so_host : forall n, local_host (m n) = hosts n;
  so_used : forall n, 0 <= n < SOCKPOOL_SIZE -> s_taken (m n) <> 0 -> exists i c, (i, c) ∈ calls /\ c_sock c = n;
  so_call : forall i c, (i, c) ∈ calls -> 0 <= c_sock c < SOCKPOOL_SIZE /\ m (c_sock c) = mk_socket (hosts (c_sock c)) 1 (Some i) (c_timer c)
}.

Record clients_ok (cps : fixed_mempool r2p2_client_pair) (l : fixed_linked_list) (hosts : Z -> r2p2_host_tuple) (p : pool) own (calls : list (Z * call)) : Prop := {
  cl_pool : tracks cps (fun i => i ∈ calls.*1);
  cl_list : linked (p_objs cps) l calls.*1;
  cl_calls : forall i c, (i, c) ∈ calls -> call_ok hosts p own (elem_at cps i) i c
}.

(** Request [i] is [q]; it is incomplete, or the application has it. *)
Definition has_request (partial : list (Z * request)) (served : gmap Z request) (i : Z) q : Prop := (i, q) ∈ partial \/ served !! i = Some q.

Record servers_ok (sps : fixed_mempool r2p2_server_pair) (l : fixed_linked_list) (p : pool) own (partial : list (Z * request)) (served : gmap Z request) : Prop := {
  sv_pool : tracks sps (fun i => i ∈ partial.*1 \/ is_Some (served !! i));
  sv_list : linked (p_objs sps) l partial.*1;
  sv_disj : forall i, i ∈ partial.*1 -> served !! i = None;
  sv_requests : forall i q, has_request partial served i q -> request_ok p own (elem_at sps i) i q
}.

(** [hand] are the keys of the operation that is running. *)
Record sim (hand : list key) own s e : Prop := {
  si_bufs : bufs_ok (buf_pool s) own;
  si_own : forall b k, own b = Some k -> k ∈ hand \/ key_live e k;
  si_clients : clients_ok (client_pairs s) (pending_client_pairs s) (e_hosts e) (buf_pool s) own (e_calls e);
  si_servers : servers_ok (server_pairs s) (pending_server_pairs s) (buf_pool s) own (e_partial e) (e_served e);
  si_socks : socks_ok (sockets s) (sock_count s) (sock_idx s) (e_hosts e) (e_calls e);
  si_rid : rid s = e_rid e;
  si_rfn : rfn s = e_rfn e;
  si_afc : afc_fn s = e_afc e
}.

Lemma sim_out hand own s e o : sim hand own s e -> sim hand own (set_out o s) e.
Proof. intros []. by split. Qed.

(** ** Frames *)

Lemma call_frame hosts p own p' own' ks x i c : only ks p own p' own' -> CReq i ∉ ks -> CRep i ∉ ks -> call_ok hosts p own x i c -> call_ok hosts p' own' x i c.
Proof. intros Ho H1 H2 (h1 & t1 & h2 & t2 & E & M1 & M2 & Hne). exists h1, t1, h2, t2. split_and!; try done; by eapply msg_only. Qed.

Lemma request_frame p own p' own' ks x i q : only ks p own p' own' -> SReq i ∉ ks -> request_ok p own x i q -> request_ok p' own' x i q.
Proof. intros Ho H1 (h1 & t1 & E & M1). exists h1, t1. split; [done|]. by eapply msg_only. Qed.

(** Keys that belong to no call, and keys that belong to no request. *)
Definition server_key k : Prop := match k with CReq _ | CRep _ => False | _ => True end.
Definition client_key k : Prop := match k with SReq _ => False | _ => True end.

Lemma clients_frame cps l hosts p own calls ks p' own' : clients_ok cps l hosts p own calls -> only ks p own p' own' -> Forall server_key ks ->
  clients_ok cps l hosts p' own' calls.
Proof.
  intros [H1 H2 H3] Ho Hk. rewrite Forall_forall in Hk. split; try done. intros i c Hc. eapply call_frame; [done|..|by apply H3]; intros H; by apply Hk in H.
Qed.

Lemma servers_frame sps l p own partial served ks p' own' : servers_ok sps l p own partial served -> only ks p own p' own' -> Forall client_key ks ->
  servers_ok sps l p' own' partial served.
Proof.
  intros [H1 H2 H3 H4] Ho Hk. rewrite Forall_forall in Hk. split; try done. intros i q Hq. eapply request_frame; [done|..|by apply H4]. intros H; by apply Hk in H.
Qed.

(** A change of buffers that belong to no call and no request. *)
Lemma sim_bufs hand hand' ks own own' s e p' : sim hand own s e -> bufs_ok p' own' -> only ks (buf_pool s) own p' own' ->
  Forall server_key ks -> Forall client_key ks -> (forall b k, own' b = Some k -> k ∈ ks -> k ∈ hand') ->
  (forall k, k ∈ hand -> k ∈ ks \/ k ∈ hand') -> sim hand' own' (set_bufs p' s) e.
Proof.
  intros [H1 H2 H3 H4 H5 H6 H7 H8] Hok Ho Hs Hc Hh Hh'. split; try done; [|by eapply clients_frame|by eapply servers_frame].
  intros b k Hb. destruct (decide (k ∈ ks)) as [Hk|Hk]; [left; by eapply Hh|]. apply (Ho k b Hk) in Hb. apply H2 in Hb as [Hb|Hb]; [|by right].
  destruct (Hh' k Hb); [done|by left].
Qed.

(** ** The packet that is being treated

    A datagram is read into a buffer of its own, its header is turned into the byte order of the host, and the buffer becomes part of a message or
    is freed. *)

#[local] Arguments header_bytes : simpl never.

(** Membership in lists that are written out. *)
Ltac listed := try intros ?x; rewrite ?elem_of_app, ?elem_of_cons; tauto.
Ltac unlisted := rewrite ?elem_of_app, ?elem_of_cons, ?elem_of_nil; intuition congruence.
Ltac keys := repeat (apply Forall_cons; split; [done|]); by apply Forall_nil.

Record in_hand (p : pool) own (gb : Z) (d : bytes) : Prop := {
  ih_own : forall b, own b = Some Hand <-> b = gb;
  ih_next : b_next (elem_at p gb) = None;
  ih_data : take (length d) (b_payload (elem_at p gb)) = d;
  ih_len : SIZEOF_HEADER <= len d <= PAYLOAD_ROOM
}.

Lemma in_hand_only ks p own p' own' gb d : only ks p own p' own' -> Hand ∉ ks -> in_hand p own gb d -> in_hand p' own' gb d.
Proof.
  intros Ho Hk [H1 H2 H3 H4]. destruct (Ho Hand gb Hk) as [_ Hf]. rewrite (H1 gb) in Hf. specialize (Hf eq_refl).
  split; rewrite ?Hf; try done. intros b. rewrite <- H1. by apply Ho.
Qed.

Lemma in_hand_gb p own gb d : in_hand p own gb d -> own gb = Some Hand.
Proof. intros H. by apply H. Qed.

Lemma set_bufs_id s : set_bufs (buf_pool s) s = s.
Proof. by destruct s. Qed.

(** ** A buffer passes to another message *)

Lemma bufs_ok_move p own gb k0 k : bufs_ok p own -> own gb = Some k0 -> bufs_ok p (<[gb := Some k]> own).
Proof.
  intros [H1 H2 H3 H4 H5] Hg. split; try done.
  - intros b Hb. rewrite H3 by done. destruct (decide (b = gb)) as [->|Hne]; [by rewrite fn_lookup_insert, Hg|by rewrite fn_lookup_insert_ne].
  - intros b. destruct (decide (b = gb)) as [->|Hne]; [intros _; apply H4; by rewrite Hg|rewrite fn_lookup_insert_ne by done; apply H4].
Qed.

Lemma only_move ks p own p' gb k0 k : only ks p own p' own -> own gb = Some k0 -> k0 ∈ ks -> k ∈ ks -> only ks p own p' (<[gb := Some k]> own).
Proof.
  intros Ho Hg H0 H1 k' b Hk'. destruct (Ho k' b Hk') as [_ Hf]. split; [|done].
  destruct (decide (b = gb)) as [->|Hne]; [|by rewrite fn_lookup_insert_ne]. rewrite fn_lookup_insert, Hg. split; intros [= <-]; done.
Qed.

Lemma add_payload_ok s own k m ds gb d : bufs_ok (buf_pool s) own -> own gb = Some Hand -> holds (buf_pool s) gb d None -> k <> Hand ->
  msg_at (buf_pool s) own k (head_buffer m) (tail_buffer m) ds ->
  exists p' m', r2p2_msg_add_payload m gb s = Ok (m', set_bufs p' s) /\ bufs_ok p' (<[gb := Some k]> own) /\
    only [k; Hand] (buf_pool s) own p' (<[gb := Some k]> own) /\ p_count p' = p_count (buf_pool s) /\
    msg_at p' (<[gb := Some k]> own) k (head_buffer m') (tail_buffer m') (ds ++ [d]) /\ sender m' = sender m /\ req_id m' = req_id m.
Proof.
  intros Hok Hg Hh Hk (ps & Hs & Ht & Hn & Hps). pose proof (seg_length _ _ _ _ _ Hs) as Hl.
  assert (gb ∉ ps) as Hgp by (rewrite Hps, Hg; congruence).
  assert (forall b, b ∈ ps ++ [gb] <-> <[gb := Some k]> own b = Some k) as Hps'.
  { intros b. rewrite elem_of_app, list_elem_of_singleton, Hps. destruct (decide (b = gb)) as [->|Hne]; [rewrite fn_lookup_insert; tauto|].
    rewrite fn_lookup_insert_ne by done. tauto. }
  assert (NoDup (ps ++ [gb])) as Hn'.
  { apply NoDup_app. split_and!; [done| |apply NoDup_singleton]. intros x Hx ->%list_elem_of_singleton. done. }
  unfold r2p2_msg_add_payload. destruct ps as [|t ps] using rev_ind; [|clear IHps].
  - destruct ds; [|done]. cbn in Hs, Ht. rewrite Ht, Hs. rewrite bind_assert by done. exists (buf_pool s). eexists. split; [by rewrite set_bufs_id|].
    split_and!; try done; [by eapply bufs_ok_move|eapply only_move; [apply only_refl|done|listed..]|]. exists [gb]. split_and!; try done. cbn. split; [done|]. by exists None.
  - rewrite last_snoc in Ht. rewrite Ht. destruct ds as [|dt ds] using rev_ind; [rewrite length_app in Hl; cbn in Hl; lia|clear IHds].
    apply seg_snoc in Hs as [Hs Hht]. assert (own t = Some k) as Hot by (apply Hps, elem_of_app; right; by left).
    assert (t <> gb) as Htg by (intros ->; congruence).
    destruct (upd_buf_ok (buf_pool s) own (next_is (Some gb)) t k Hok Hot) as [Hok' Ho']; [done|].
    exists (upd_elem (next_is (Some gb)) t (buf_pool s)). eexists. split; [done|].
    split_and!; try done; [by eapply bufs_ok_move|eapply only_move; [eapply only_weaken; [|done]; listed|done|listed..]|].
    exists ((ps ++ [t]) ++ [gb]). cbn [head_buffer tail_buffer]. split_and!; try done; [|by rewrite last_snoc]. apply seg_snoc. split.
    + eapply link_seg; try done. apply NoDup_app in Hn as (_ & Hd & _). intros H. apply (Hd t H). by left.
    + eapply holds_agree; [|done]. by apply elem_upd_ne.
Qed.

(** ** The packet in the hand *)

Lemma hand_size_ok s own gb d : bufs_ok (buf_pool s) own -> in_hand (buf_pool s) own gb d ->
  exists p', set_buffer_payload_size gb (len d) s = Ok (tt, set_bufs p' s) /\ bufs_ok p' own /\ only [Hand] (buf_pool s) own p' own /\
    p_count p' = p_count (buf_pool s) /\ in_hand p' own gb d /\ holds p' gb d None.
Proof.
  intros Hok Hh. pose proof Hh as [H1 H2 H3 H4]. pose proof (in_hand_gb _ _ _ _ Hh) as Hg.
  destruct (upd_buf_ok (buf_pool s) own (fun b => mk_buf (u32 (len d)) (b_next b) (b_payload b)) gb Hand Hok Hg) as [Hok' Ho']; [done|].
  eexists. split; [unfold set_buffer_payload_size, upd_buf, modify; reflexivity|]. split_and!; try done; split; rewrite ?elem_upd; try done.
  cbn. rewrite wrap_small; [done|]. unfold in_u, PAYLOAD_ROOM, BUFLEN, SIZEOF_HEADER in *. lia.
Qed.

(** [only] composes over the keys of both steps. *)
Lemma only_app ks ks' p1 o1 p2 o2 p3 o3 : only ks p1 o1 p2 o2 -> only ks' p2 o2 p3 o3 -> only (ks ++ ks') p1 o1 p3 o3.
Proof. intros H1 H2. eapply only_trans; [eapply only_weaken; [|exact H1]|eapply only_weaken; [|exact H2]]; listed. Qed.

(** The packet becomes the last of a message. *)
Lemma hand_add_ok s own k m ds gb d : bufs_ok (buf_pool s) own -> in_hand (buf_pool s) own gb d -> holds (buf_pool s) gb d None -> k <> Hand ->
  msg_at (buf_pool s) own k (head_buffer m) (tail_buffer m) ds ->
  exists p' own' m', r2p2_msg_add_payload m gb s = Ok (m', set_bufs p' s) /\ bufs_ok p' own' /\
    only [k; Hand] (buf_pool s) own p' own' /\ p_count p' = p_count (buf_pool s) /\ (forall b, own' b <> Some Hand) /\
    msg_at p' own' k (head_buffer m') (tail_buffer m') (ds ++ [d]) /\ sender m' = sender m /\ req_id m' = req_id m.
Proof.
  intros Hok Hh Hd Hk Hm. destruct (add_payload_ok s own k m ds gb d Hok (in_hand_gb _ _ _ _ Hh) Hd Hk Hm) as (p' & m' & E & H1 & H2 & H3 & H4 & H5).
  exists p', (<[gb := Some k]> own), m'. split_and!; try done; [|apply H5..]. intros b. destruct (decide (b = gb)) as [->|Hne]; [rewrite fn_lookup_insert; congruence|].
  rewrite fn_lookup_insert_ne by done. rewrite (ih_own _ _ _ _ Hh). congruence.
Qed.

Lemma hand_free_ok s own gb d : bufs_ok (buf_pool s) own -> in_hand (buf_pool s) own gb d ->
  exists p' own', free_buffer gb s = Ok (tt, set_bufs p' s) /\ bufs_ok p' own' /\ only [Hand] (buf_pool s) own p' own' /\ (forall b, own' b <> Some Hand) /\
    p_count p' = p_count (buf_pool s) - 1.
Proof.
  intros Hok Hh. destruct (free_buffer_ok own s gb Hand Hok (in_hand_gb _ _ _ _ Hh)) as (p' & E & H1 & H2 & H3 & _).
  exists p', (<[gb := None]> own). split_and!; try done. intros b. destruct (decide (b = gb)) as [->|Hne]; [by rewrite fn_lookup_insert|].
  rewrite fn_lookup_insert_ne by done. rewrite (ih_own _ _ _ _ Hh). congruence.
Qed.

Lemma header_of_app d : 8 <= len d -> header_of d = header_of (take 8 d) /\ exists h, header_of d = Some h.
Proof.
  unfold len. intros H. do 8 (destruct d as [|? d]; [cbn in H; lia|]). split; [done|]. eexists. reflexivity.
Qed.

(** A datagram is copied into a new buffer, and its header is read and turned around. *)
Lemma hand_write_ok s own gb d : bufs_ok (buf_pool s) own -> (forall b, own b = Some Hand <-> b = gb) -> b_next (elem_at (buf_pool s) gb) = None ->
  SIZEOF_HEADER <= len d <= PAYLOAD_ROOM ->
  exists p', buf_write gb 0 d s = Ok (tt, set_bufs p' s) /\ bufs_ok p' own /\ only [Hand] (buf_pool s) own p' own /\ p_count p' = p_count (buf_pool s) /\ in_hand p' own gb d.
Proof.
  intros Hok Hg Hn Hd. pose proof (bo_room _ _ Hok gb) as Hr. destruct (buf_write_ok s gb 0 d Hr) as (f & E & Hf & Hfl); [done|unfold SIZEOF_HEADER in *; lia|].
  destruct (upd_buf_ok (buf_pool s) own f gb Hand Hok) as [Hok' Ho']; [by apply Hg|done|]. eexists. split; [exact E|]. split_and!; try done.
  split; rewrite ?elem_upd, ?Hf; try done. pose proof (take_write 0 d (elem_at (buf_pool s) gb) Hr ltac:(done) ltac:(lia)) as Ht. exact Ht.
Qed.

Lemma hand_read_ok s own gb d h : bufs_ok (buf_pool s) own -> in_hand (buf_pool s) own gb d -> header_of d = Some h -> read_header gb s = Ok (h, s).
Proof.
  intros Hok [H1 H2 H3 H4] Hh. pose proof (bo_room _ _ Hok gb) as Hr. unfold read_header, mbind, M_bind.
  rewrite buf_read_ok by (done || unfold SIZEOF_HEADER, PAYLOAD_ROOM, BUFLEN; lia). rewrite drop_0. change (Z.to_nat SIZEOF_HEADER) with 8%nat.
  assert (take 8 (b_payload (elem_at (buf_pool s) gb)) = take 8 d) as ->.
  { rewrite <- H3, take_take. unfold len, SIZEOF_HEADER in *. by replace (8 `min` length d)%nat with 8%nat by lia. }
  destruct (header_of_app d) as [E _]; [unfold SIZEOF_HEADER in *; lia|]. rewrite <- E, Hh. done.
Qed.

Lemma hand_header_ok s own gb d h : bufs_ok (buf_pool s) own -> in_hand (buf_pool s) own gb d ->
  exists p', write_header gb h s = Ok (tt, set_bufs p' s) /\ bufs_ok p' own /\ only [Hand] (buf_pool s) own p' own /\ p_count p' = p_count (buf_pool s) /\
    in_hand p' own gb (stored h d).
Proof.
  intros Hok Hh. pose proof Hh as [H1 H2 H3 H4]. pose proof (bo_room _ _ Hok gb) as Hr. unfold len, SIZEOF_HEADER, PAYLOAD_ROOM, BUFLEN in *.
  destruct (buf_write_ok s gb 0 (header_bytes h) Hr) as (f & E & Hf & Hfl); [done|unfold len; by rewrite length_header|].
  destruct (upd_buf_ok (buf_pool s) own f gb Hand Hok) as [Hok' Ho']; [by apply H1|done|]. eexists. split; [exact E|]. split_and!; try done.
  assert (length (stored h d) = length d) as Hl by (unfold stored; rewrite length_app, length_header, length_drop; lia).
  split; rewrite ?elem_upd, ?Hf; try done; [|unfold len; rewrite Hl; done]. rewrite Hl. cbn [write_at b_payload]. change (Z.to_nat 0) with 0%nat. rewrite take_0, length_header.
  cbn [app Nat.add]. unfold stored. rewrite take_app, length_header, take_ge by (rewrite length_header; lia). f_equal.
  rewrite <- H3 at 2. rewrite take_drop_commute. f_equal. f_equal. lia.
Qed.
