(* ===== verification/R2p2Server.v ===== *)
(** * Requests at the server

    What the operations on server pairs do to the incomplete requests and to those that the application has. *)

From stdpp Require Import functions.
From S2P Require Import Prelude MapDef OfpBuf OfpMsgs Mempool R2p2 R2p2Bufs R2p2Spec.

Implicit Types (own : owner) (k : key) (s : r2p2) (e : endpoint) (q : request).
#[local] Arguments header_bytes : simpl never.

(** ** Association lists *)

Section Assoc.
Context {A : Type}.
Implicit Types (l : list (Z * A)) (a : A).

Lemma assoc_set_keys i a l : (assoc_set i a l).*1 = l.*1.
Proof. unfold assoc_set. rewrite <- list_fmap_compose. apply list_fmap_ext. intros n [j b] _. cbn. by case_decide. Qed.

Lemma elem_of_keys i l : i ∈ l.*1 <-> exists a, (i, a) ∈ l.
Proof. rewrite list_elem_of_fmap. split; [intros ([j a] & -> & H); by exists a|intros [a H]; by exists (i, a)]. Qed.

Lemma elem_of_set i a l j b : (j, b) ∈ assoc_set i a l <-> (j <> i /\ (j, b) ∈ l) \/ (j = i /\ b = a /\ i ∈ l.*1).
Proof.
  unfold assoc_set. rewrite list_elem_of_fmap. split.
  - intros ([x y] & E & H). cbn in E. case_decide; simplify_eq; [right|left; done]. split_and!; try done. apply elem_of_keys. by exists y.
  - intros [[Hne H]|(-> & -> & [b' H]%elem_of_keys)]; [exists (j, b)|exists (i, b')]; cbn; split; try done; by case_decide.
Qed.

Lemma elem_of_del i l j b : (j, b) ∈ assoc_del i l <-> j <> i /\ (j, b) ∈ l.
Proof. unfold assoc_del. rewrite list_elem_of_filter. done. Qed.

Lemma elem_of_del_keys i l j : j ∈ (assoc_del i l).*1 <-> j <> i /\ j ∈ l.*1.
Proof. rewrite !elem_of_keys. setoid_rewrite elem_of_del. firstorder. Qed.

Lemma assoc_del_absent i l : i ∉ l.*1 -> assoc_del i l = l.
Proof.
  induction l as [|[j b] l IH]; [done|]. cbn [fmap list_fmap fst]. intros H. rewrite elem_of_cons in H. unfold assoc_del. rewrite filter_cons_True by (cbn; intros ->; tauto).
  f_equal. apply IH. tauto.
Qed.

Lemma assoc_set_absent i a l : i ∉ l.*1 -> assoc_set i a l = l.
Proof.
  induction l as [|[j b] l IH]; [done|]. cbn [fmap list_fmap fst]. intros H. rewrite elem_of_cons in H. unfold assoc_set. cbn. rewrite decide_False by (intros ->; tauto).
  f_equal. apply IH. tauto.
Qed.

Lemma assoc_del_split i l xs1 xs2 : NoDup l.*1 -> l.*1 = xs1 ++ i :: xs2 -> (assoc_del i l).*1 = xs1 ++ xs2.
Proof.
  intros Hn E. assert ((assoc_del i l).*1 = filter (fun x => x <> i) l.*1) as ->.
  { clear. induction l as [|[j b] l IH]; [done|]. unfold assoc_del. cbn [fmap list_fmap fst]. rewrite !filter_cons. cbn [fst]. case_decide; cbn [fmap list_fmap fst]; f_equal; exact IH. }
  rewrite E in *. apply NoDup_app in Hn as (_ & Hd & [H2 _]%NoDup_cons). rewrite filter_app, filter_cons_False by tauto. f_equal; apply filter_all, Forall_forall; intros x Hx ->.
  - apply (Hd i Hx). by left.
  - done.
Qed.

Lemma assoc_unique l i a b : NoDup l.*1 -> (i, a) ∈ l -> (i, b) ∈ l -> a = b.
Proof.
  intros Hn [n Ha]%list_elem_of_lookup [m Hb]%list_elem_of_lookup. assert (n = m) as ->; [|congruence].
  apply (NoDup_lookup _ _ _ i Hn); rewrite list_lookup_fmap; [by rewrite Ha|by rewrite Hb].
Qed.
End Assoc.

(** ** Server pairs *)

Section Servers.
Context (sps : fixed_mempool r2p2_server_pair) (l : fixed_linked_list) (p : pool) (own : owner) (partial : list (Z * request)) (served : gmap Z request).
Context (Hok : servers_ok sps l p own partial served).

Lemma servers_nodup : NoDup partial.*1.
Proof. apply Hok. Qed.

Lemma has_unique i q q' : has_request partial served i q -> has_request partial served i q' -> q = q'.
Proof.
  intros [H|H] [H'|H']; [by eapply assoc_unique; [apply servers_nodup|..]|exfalso..|congruence]; [rename H into Hp, H' into Hs|rename H' into Hp, H into Hs];
    (rewrite (sv_disj _ _ _ _ _ _ Hok i) in Hs; [done|]); apply elem_of_keys; eauto.
Qed.

(** One pair changes, with its buffers. *)
Lemma servers_upd i f q q' ks p' own' : has_request partial served i q -> only ks p own p' own' -> (forall k, k ∈ ks -> client_key k \/ k = SReq i) ->
  request_ok p' own' (f (elem_at sps i)) i q' -> servers_ok (upd_elem f i sps) l p' own' (assoc_set i q' partial) (alter (fun _ => q') i served).
Proof using Hok.
  intros Hq Ho Hk Hr. destruct Hok as [H1 H2 H3 H4]. assert (forall j, is_Some (alter (fun _ => q') i served !! j) <-> is_Some (served !! j)) as Hs.
  { intros j. destruct (decide (i = j)) as [->|Hne]; [by rewrite lookup_alter_eq, fmap_is_Some|by rewrite lookup_alter_ne]. }
  split; rewrite ?assoc_set_keys.
  - eapply tracks_iff; [by apply tracks_upd|]. intros j. cbn. by rewrite Hs.
  - eapply linked_agree; [done|]. intros x _. unfold upd_elem. cbn. destruct (decide (i = x)) as [->|Hne]; [by rewrite fn_lookup_alter|by rewrite fn_lookup_alter_ne].
  - intros j Hj. specialize (H3 j Hj). apply eq_None_not_Some. rewrite Hs, H3. by intros [].
  - intros j q2 Hj. destruct (decide (i = j)) as [->|Hne].
    + assert (q2 = q') as ->; [|by rewrite elem_upd]. destruct Hj as [Hj|Hj]; [apply elem_of_set in Hj as [[? _]|(_ & ? & _)]; congruence|].
      rewrite lookup_alter_eq in Hj. by apply fmap_Some in Hj as (? & _ & ->).
    + rewrite elem_upd_ne by done. eapply request_frame; [done| |apply H4].
      * intros [Hc|[= ->]]%Hk; done.
      * destruct Hj as [Hj|Hj]; [left; apply elem_of_set in Hj as [[_ ?]|[? _]]; [done|congruence]|right; by rewrite lookup_alter_ne in Hj].
Qed.

(** A new pair; its links are unset. *)
Lemma servers_new : p_count sps < POOL_SIZE -> (forall i b, own b = Some (SReq i) -> i ∈ partial.*1 \/ is_Some (served !! i)) ->
  exists i sps', alloc_asserted sps = Ok (i, sps') /\ (i ∉ partial.*1) /\ served !! i = None /\ fo_next (p_objs sps' i) = None /\ fo_prev (p_objs sps' i) = None /\
    servers_ok (upd_elem (fun _ => zero_sp) i sps') l p own partial (<[i := mk_request zero_host 0 [] 0 0]> served).
Proof using Hok.
  intros Hc Hown. destruct Hok as [H1 H2 H3 H4]. destruct (tracks_alloc sps _ H1 Hc) as (i & sps' & E & Hi & Ht & _ & Hne & Hn & Hp).
  assert (served !! i = None) as Hsi by (apply eq_None_not_Some; tauto). exists i, sps'. split_and!; try done; [tauto|].
  assert (i ∉ partial.*1) as Hip by tauto.
  split.
  - eapply tracks_iff; [apply tracks_upd, Ht|]. intros j. cbn. rewrite lookup_insert_is_Some'. split; [intros [[?| ?]| ->]|intros [?|[->|?]]]; tauto.
  - eapply linked_agree; [done|]. intros x Hx. unfold upd_elem. cbn. rewrite fn_lookup_alter_ne by (intros ->; done). rewrite Hne by (intros ->; done). done.
  - intros j Hj. rewrite lookup_insert_ne; [by apply H3|intros ->; done].
  - intros j q [Hj|Hj].
    + assert (j <> i) as Hji by (intros ->; apply Hip, elem_of_keys; by exists q). rewrite elem_upd_ne by done. unfold elem_at. rewrite Hne by done. apply H4. by left.
    + apply lookup_insert_Some in Hj as [[<- <-]|[Hji Hj]].
      * rewrite elem_upd. exists None, None. split; [done|]. apply msg_nil. intros b Hb. apply Hown in Hb. tauto.
      * rewrite elem_upd_ne by done. unfold elem_at. rewrite Hne by done. apply H4. by right.
Qed.

(** A pair enters the list of incomplete requests, and leaves it. *)
Lemma servers_pend i q : served !! i = Some q ->
  let r := add_to_list l i (p_objs sps) in servers_ok (set_objs sps r.2) r.1 p own (partial ++ [(i, q)]) (delete i served).
Proof using Hok.
  intros Hq r. destruct Hok as [H1 H2 H3 H4]. assert (i ∉ partial.*1) as Hi by (intros H; rewrite H3 in Hq; done).
  destruct (add_to_list_ok _ _ _ i H2 Hi) as (Hl & Hr & _). assert ((partial ++ [(i, q)]).*1 = partial.*1 ++ [i]) as Hsn by (by rewrite fmap_app). split.
  - eapply tracks_iff; [by apply tracks_relink|]. intros j. cbv beta. rewrite Hsn, elem_of_app, list_elem_of_singleton, lookup_delete_is_Some. split.
    + intros [?|?]; [tauto|]. destruct (decide (j = i)); [tauto|right; split; [congruence|done]].
    + intros [[?| ->]|[? ?]]; [tauto|right; by exists q|tauto].
  - by rewrite Hsn.
  - intros j. rewrite Hsn, elem_of_app, list_elem_of_singleton. intros [Hj| ->]; [|by apply lookup_delete_eq].
    rewrite lookup_delete_ne; [by apply H3|intros ->; done].
  - intros j q' Hj. rewrite (elem_relink _ _ _ Hr). apply H4. destruct Hj as [Hj|Hj].
    + apply elem_of_app in Hj as [Hj|Hj]; [by left|]. apply list_elem_of_singleton in Hj. simplify_eq. by right.
    + apply lookup_delete_Some in Hj as [_ Hj]. by right.
Qed.

Lemma servers_unpend i q : (i, q) ∈ partial ->
  let r := remove_from_list l i (p_objs sps) in servers_ok (set_objs sps r.2) r.1 p own (assoc_del i partial) (<[i := q]> served).
Proof using Hok.
  intros Hq r. destruct Hok as [H1 H2 H3 H4]. assert (i ∈ partial.*1) as Hi by (apply elem_of_keys; by exists q).
  pose proof Hi as (xs1 & xs2 & Es)%list_elem_of_split. rewrite Es in H2. destruct (remove_from_list_ok _ _ _ _ _ H2) as (Hl & Hr & _).
  rewrite <- Es in H2. split.
  - eapply tracks_iff; [by apply tracks_relink|]. intros j. cbn. rewrite elem_of_del_keys, lookup_insert_is_Some'. split.
    + intros [?|?]; [destruct (decide (j = i)) as [->|]; tauto|tauto].
    + intros [[? ?]|[<-|?]]; tauto.
  - rewrite (assoc_del_split i partial xs1 xs2); [exact Hl|apply servers_nodup|done].
  - intros j [Hne Hj]%elem_of_del_keys. rewrite lookup_insert_ne by done. by apply H3.
  - intros j q' Hj. rewrite (elem_relink _ _ _ Hr). apply H4. destruct Hj as [Hj|Hj]; [apply elem_of_del in Hj; left; tauto|].
    apply lookup_insert_Some in Hj as [[<- <-]|[_ Hj]]; [by left|by right].
Qed.

(** The slot of a request is freed, after its buffers; only the pair itself may have changed before. *)
Lemma servers_free sps1 i q ks p' own' : served !! i = Some q -> only ks p own p' own' -> (forall k, k ∈ ks -> client_key k \/ k = SReq i) ->
  tracks sps1 (fun j => j ∈ partial.*1 \/ is_Some (served !! j)) -> (forall j, j <> i -> p_objs sps1 j = p_objs sps j) ->
  exists sps', free_slot i sps1 = Ok (tt, sps') /\ servers_ok sps' l p' own' partial (delete i served).
Proof using Hok.
  intros Hq Ho Hk H1 Hne1. destruct Hok as [_ H2 H3 H4]. assert (i ∉ partial.*1) as Hi by (intros H; rewrite H3 in Hq; done).
  destruct (tracks_free sps1 _ i H1) as (sps' & E & Ht & _ & Hne); [right; by exists q|]. exists sps'. split; [done|]. split.
  - eapply tracks_iff; [exact Ht|]. intros j. cbn. rewrite lookup_delete_is_Some. split; [intros [[?|?] ?]; [tauto|right; split; [congruence|done]]|].
    intros [?|[? ?]]; [split; [tauto|intros ->; done]|split; [tauto|congruence]].
  - eapply linked_agree; [done|]. intros x Hx. rewrite Hne, Hne1 by (intros ->; done). done.
  - intros j Hj. rewrite lookup_delete_ne; [by apply H3|intros ->; done].
  - intros j q' Hj. assert (j <> i) as Hji.
    { intros ->. destruct Hj as [Hj|Hj]; [apply Hi, elem_of_keys; by exists q'|by rewrite lookup_delete_eq in Hj]. }
    unfold elem_at. rewrite Hne, Hne1 by done. eapply request_frame; [done| |apply H4]; [intros [?|[= ->]]%Hk; done|].
    destruct Hj as [Hj|Hj]; [by left|right; by rewrite lookup_delete_ne in Hj].
Qed.
End Servers.

(** ** Operations *)

(** Nothing changes but server pairs, buffers and what was sent. *)
Definition same_clients s s' : Prop :=
  client_pairs s' = client_pairs s /\ pending_client_pairs s' = pending_client_pairs s /\ sockets s' = sockets s /\ sock_count s' = sock_count s /\
  sock_idx s' = sock_idx s /\ rid s' = rid s /\ rfn s' = rfn s /\ afc_fn s' = afc_fn s.

Lemma sim_servers hand hand' ks own own' s s' e partial served : let e' := set_requests partial served e in
  sim hand own s e -> same_clients s s' -> bufs_ok (buf_pool s') own' -> only ks (buf_pool s) own (buf_pool s') own' -> Forall server_key ks ->
  servers_ok (server_pairs s') (pending_server_pairs s') (buf_pool s') own' partial served ->
  (forall b k, own' b = Some k -> k ∈ ks -> k ∈ hand' \/ key_live e' k) -> (forall k, k ∈ hand -> k ∈ ks \/ k ∈ hand') ->
  (forall i, is_request e i -> SReq i ∈ ks \/ is_request e' i) -> sim hand' own' s' e'.
Proof.
  intros e' [H1 H2 H3 H4 H5 H6 H7 H8] (E1 & E2 & E3 & E4 & E5 & E6 & E7 & E8) Hb Ho Hk Hs Hl Hh Hr.
  split; rewrite ?E1, ?E2, ?E3, ?E4, ?E5, ?E6, ?E7, ?E8; try done; [|by eapply clients_frame].
  intros b k Hbk. destruct (decide (k ∈ ks)) as [Hin|Hin]; [by eapply Hl|]. apply (Ho k b Hin) in Hbk. apply H2 in Hbk as [Hbk|Hbk].
  - left. by destruct (Hh k Hbk).
  - right. destruct k; try done. by destruct (Hr i Hbk).
Qed.

Definition set_req (i : Z) q e : endpoint := set_requests (assoc_set i q (e_partial e)) (alter (fun _ => q) i (e_served e)) e.

Lemma is_request_set i q e j : is_request (set_req i q e) j <-> is_request e j.
Proof.
  unfold is_request. cbn. rewrite assoc_set_keys. destruct (decide (i = j)) as [->|Hne]; [by rewrite lookup_alter_eq, fmap_is_Some|by rewrite lookup_alter_ne].
Qed.

Lemma set_bufs_sps p sps s : set_sps sps (set_bufs p s) = set_bufs p (set_sps sps s).
Proof. done. Qed.

(** The fields of a pair other than its packets are set. *)
Lemma sim_upd_sp hand own s e i q q' f : sim hand own s e -> has_request (e_partial e) (e_served e) i q -> (forall h t, f (sp_rep q h t) = sp_rep q' h t) ->
  q_pkts q' = q_pkts q -> sim hand own (set_sps (upd_elem f i (server_pairs s)) s) (set_req i q' e).
Proof.
  intros Hsim Hq Hf Hp. pose proof Hsim as [H1 H2 H3 H4 H5 H6 H7 H8]. destruct (sv_requests _ _ _ _ _ _ H4 i q Hq) as (h & t & E & Hm).
  apply (sim_servers hand hand [] own own s _ e); [done|done|done|apply only_refl|by apply Forall_nil| |by intros ? ? ? ?%elem_of_nil|auto|intros j Hj; right; by apply is_request_set].
  apply (servers_upd _ _ _ _ _ _ H4 i f q q' []); [done|apply only_refl|by intros ? ?%elem_of_nil|]. exists h, t. split; [cbn; rewrite E; apply Hf|by rewrite Hp].
Qed.

Lemma sim_new_sp hand own s e : sim hand own s e -> (forall i, SReq i ∉ hand) -> p_count (server_pairs s) < POOL_SIZE ->
  exists i p', alloc_server_pair s = Ok (i, set_sps p' s) /\ ~ is_request e i /\ fo_next (p_objs p' i) = None /\ fo_prev (p_objs p' i) = None /\
    sim hand own (set_sps p' s) (set_requests (e_partial e) (<[i := mk_request zero_host 0 [] 0 0]> (e_served e)) e).
Proof.
  intros Hsim Hh Hc. pose proof Hsim as [H1 H2 H3 H4 H5 H6 H7 H8].
  destruct (servers_new _ _ _ _ _ _ H4 Hc) as (i & sps' & E & Hi & Hs & Hn & Hp & Hok).
  { intros i b Hb. apply H2 in Hb as [Hb|Hb]; [by apply Hh in Hb|done]. }
  exists i, (upd_elem (fun _ => zero_sp) i sps'). split_and!.
  - unfold alloc_server_pair, with_sps, on_pool, mbind, M_bind. rewrite E. done.
  - intros [?|[]]; [done|congruence].
  - unfold upd_elem. cbn. by rewrite fn_lookup_alter.
  - unfold upd_elem. cbn. by rewrite fn_lookup_alter.
  - apply (sim_servers hand hand [] own own s _ e); [done|done|done|apply only_refl|by apply Forall_nil|done|by intros ? ? ? ?%elem_of_nil|auto|]. intros j [Hj|Hj]; right; [by left|right].
    cbn. rewrite lookup_insert_is_Some'. by right.
Qed.

(** The packet in the hand is added to a request. *)
Lemma sim_add_request own s e i q gb d : sim [Hand] own s e -> in_hand (buf_pool s) own gb d -> has_request (e_partial e) (e_served e) i q ->
  exists s1 s' own', set_buffer_payload_size gb (len d) s = Ok (tt, s1) /\ add_request_payload i gb s1 = Ok (tt, s') /\ sim [] own' s' (set_req i (add_packet d q) e) /\
    p_count (buf_pool s') = p_count (buf_pool s) /\ out s' = out s /\ pending_server_pairs s' = pending_server_pairs s /\
    (forall j, fo_next (p_objs (server_pairs s') j) = fo_next (p_objs (server_pairs s) j) /\ fo_prev (p_objs (server_pairs s') j) = fo_prev (p_objs (server_pairs s) j)).
Proof.
  intros Hsim Hh Hq. pose proof Hsim as [H1 H2 H3 H4 H5 H6 H7 H8]. destruct (hand_size_ok s own gb d H1 Hh) as (p1 & E1 & Hok1 & Ho1 & Hc1 & Hh1 & Hd1).
  destruct (sv_requests _ _ _ _ _ _ H4 i q Hq) as (h & t & Ei & Hm). set (m := mk_msg (q_from q) (q_id q) h t).
  destruct (hand_add_ok (set_bufs p1 s) own (SReq i) m (q_pkts q) gb d Hok1 Hh1 Hd1) as (p2 & own' & m' & E2 & Hok2 & Ho2 & Hc2 & Hn2 & Hm2 & Hs2 & Hr2); [done|eapply msg_only; [exact Ho1|unlisted|done]|].
  exists (set_bufs p1 s), (set_sps (upd_elem (set_sp_request m') i (server_pairs s)) (set_bufs p2 s)), own'. split; [done|]. split_and!; try done.
  - unfold add_request_payload, sp_at. rewrite bind_gets. cbn [set_bufs server_pairs]. rewrite Ei. cbn [sp_rep sp_request]. mrun E2. done.
  - pose proof (only_app _ _ _ _ _ _ _ _ Ho1 Ho2) as Ho.
    apply (sim_servers [Hand] [] ([Hand] ++ [SReq i; Hand]) own own' s _ e); [done|done|done|done|keys| | |intros k ?; left; apply elem_of_app; by left|intros j Hj; right; by apply is_request_set].
    + eapply servers_upd; [done..| |].
      * intros k. rewrite elem_of_app, !elem_of_cons, elem_of_nil. intros [[->|[]]|[->|[->|[]]]]; auto; by left.
      * cbn [set_sps set_bufs server_pairs]. rewrite Ei. exists (head_buffer m'), (tail_buffer m'). split; [|done]. unfold sp_rep, set_sp_request, add_packet. cbn.
        destruct m' as [sd rq h' t']. cbn in Hs2, Hr2 |- *. by subst.
    + intros b k Hb. rewrite elem_of_app, !elem_of_cons, elem_of_nil. intros [[->|[]]|[->|[->|[]]]]; [by apply Hn2 in Hb| |by apply Hn2 in Hb].
      right. apply is_request_set. destruct Hq as [Hq|Hq]; [left; apply elem_of_keys; by exists q|right; by exists q].
  - cbn. by rewrite Hc2.
  - intros j. cbn. destruct (decide (i = j)) as [->|Hne]; [by rewrite fn_lookup_alter|by rewrite fn_lookup_alter_ne].
Qed.

Lemma sim_pend hand own s e i q : sim hand own s e -> e_served e !! i = Some q ->
  exists s', add_to_pending_server_pairs i s = Ok (tt, s') /\ sim hand own s' (set_requests (e_partial e ++ [(i, q)]) (delete i (e_served e)) e) /\
    buf_pool s' = buf_pool s /\ out s' = out s.
Proof.
  intros Hsim Hq. pose proof (servers_pend _ _ _ _ _ _ (si_servers _ _ _ _ Hsim) i q Hq) as Hok. cbv zeta in Hok.
  unfold add_to_pending_server_pairs, on_sp_list, modify. destruct (add_to_list _ _ _) as [l m]. eexists. split; [done|]. split_and!; try done.
  apply (sim_servers hand hand [] own own s _ e); [done|done|apply Hsim|apply only_refl|by apply Forall_nil|done|by intros ? ? ? ?%elem_of_nil|auto|].
  intros j [Hj|Hj]; right; unfold is_request; cbn; rewrite fmap_app, elem_of_app; [tauto|]. destruct (decide (i = j)) as [->|Hne]; [left; right; by left|].
  right. by rewrite lookup_delete_ne.
Qed.

Lemma sim_unpend hand own s e i q : sim hand own s e -> (i, q) ∈ e_partial e ->
  exists s', remove_from_pending_server_pairs i s = Ok (tt, s') /\ sim hand own s' (set_requests (assoc_del i (e_partial e)) (<[i := q]> (e_served e)) e) /\
    buf_pool s' = buf_pool s /\ out s' = out s.
Proof.
  intros Hsim Hq. pose proof (servers_unpend _ _ _ _ _ _ (si_servers _ _ _ _ Hsim) i q Hq) as Hok. cbv zeta in Hok.
  unfold remove_from_pending_server_pairs, on_sp_list, modify. destruct (remove_from_list _ _ _) as [l m]. eexists. split; [done|]. split_and!; try done.
  apply (sim_servers hand hand [] own own s _ e); [done|done|apply Hsim|apply only_refl|by apply Forall_nil|done|by intros ? ? ? ?%elem_of_nil|auto|].
  intros j Hj; right. unfold is_request in *; cbn. rewrite elem_of_del_keys, lookup_insert_is_Some'. destruct (decide (i = j)); [tauto|]. destruct Hj; [left; split; [congruence|done]|tauto].
Qed.

(** A pair that is in no list. *)
Lemma unpend_absent hand own s e i : sim hand own s e -> i ∉ (e_partial e).*1 -> fo_next (p_objs (server_pairs s) i) = None -> fo_prev (p_objs (server_pairs s) i) = None ->
  remove_from_pending_server_pairs i s = Ok (tt, s).
Proof.
  intros Hsim Hi Hn Hp. unfold remove_from_pending_server_pairs, on_sp_list, modify.
  rewrite (remove_absent _ _ _ _ (sv_list _ _ _ _ _ _ (si_servers _ _ _ _ Hsim)) Hi Hn Hp). by destruct s as [? [] ? ? ? ? ? ? ? ? ? ?].
Qed.

(** A pair is freed; its reply may have been filled in before. *)
Lemma free_sp_ok hand own s s1 own1 e i q m1 m2 x r ds2 : sim hand own s e -> e_served e !! i = Some q -> same_clients s s1 -> bufs_ok (buf_pool s1) own1 ->
  only [SRep i] (buf_pool s) own (buf_pool s1) own1 -> pending_server_pairs s1 = pending_server_pairs s -> tracks (server_pairs s1) (is_request e) ->
  (forall j, j <> i -> p_objs (server_pairs s1) j = p_objs (server_pairs s) j) -> elem_at (server_pairs s1) i = mk_sp m1 m2 x r ->
  msg_at (buf_pool s1) own1 (SReq i) (head_buffer m1) (tail_buffer m1) (q_pkts q) -> msg_at (buf_pool s1) own1 (SRep i) (head_buffer m2) (tail_buffer m2) ds2 -> SRep i ∉ hand ->
  exists s' own', free_server_pair i s1 = Ok (tt, s') /\ sim hand own' s' (set_requests (e_partial e) (delete i (e_served e)) e) /\ out s' = out s1 /\
    only [SReq i; SRep i] (buf_pool s) own (buf_pool s') own'.
Proof.
  intros Hsim Hq Hsame Hok1 Ho1 Hl1 Ht1 Hne1 Ei Hm1 Hm2 Hh. unfold free_server_pair, sp_at. rewrite bind_gets, Ei. cbn [sp_request sp_reply].
  destruct (free_msg_ok own1 s1 (SReq i) _ _ _ Hok1 Hm1) as (p2 & own2 & E2 & Hok2 & Ho2 & _ & Hn2). mrun E2.
  destruct (free_msg_ok own2 (set_bufs p2 s1) (SRep i) (head_buffer m2) (tail_buffer m2) ds2 Hok2) as (p3 & own3 & E3 & Hok3 & Ho3 & _ & Hn3); [eapply msg_only; [exact Ho2|unlisted|done]|].
  mrun E3. assert (only [SReq i; SRep i] (buf_pool s) own p3 own3) as Ho.
  { eapply only_trans; [eapply only_weaken; [|exact Ho1]|eapply only_trans; [eapply only_weaken; [|exact Ho2]|eapply only_weaken; [|exact Ho3]]]; listed. }
  assert (forall b, own3 b <> Some (SReq i)) as Hn3'.
  { intros b Hb. apply (Ho3 (SReq i) b) in Hb; [by apply Hn2 in Hb|unlisted]. }
  destruct (servers_free _ _ _ _ _ _ (si_servers _ _ _ _ Hsim) (server_pairs s1) i q [SReq i; SRep i] p3 own3) as (sps' & E4 & Hsv); try done.
  { intros k. rewrite !elem_of_cons, elem_of_nil. intros [->|[->|[]]]; [by right|by left]. }
  exists (set_sps sps' (set_bufs p3 s1)), own3. split_and!; try done; [unfold with_sps, on_pool; cbn [set_bufs server_pairs]; by rewrite E4|].
  destruct Hsame as (F1 & F2 & F3 & F4 & F5 & F6 & F7 & F8).
  apply (sim_servers hand hand [SReq i; SRep i] own own3 s _ e); [done|by split_and!|done|done|keys|cbn; by rewrite Hl1| |auto|].
  - intros b k Hb. rewrite !elem_of_cons, elem_of_nil. intros [->|[->|[]]]; [by apply Hn3' in Hb|by apply Hn3 in Hb].
  - intros j Hj. destruct (decide (i = j)) as [->|Hne]; [left; by left|right]. destruct Hj as [Hj|Hj]; [by left|right]. cbn. by rewrite lookup_delete_ne.
Qed.

Lemma sim_free_sp hand own s e i q : sim hand own s e -> e_served e !! i = Some q -> SRep i ∉ hand ->
  exists s' own', free_server_pair i s = Ok (tt, s') /\ sim hand own' s' (set_requests (e_partial e) (delete i (e_served e)) e) /\ out s' = out s /\
    only [SReq i; SRep i] (buf_pool s) own (buf_pool s') own'.
Proof.
  intros Hsim Hq Hh. pose proof Hsim as [H1 H2 H3 H4 H5 H6 H7 H8]. destruct (sv_requests _ _ _ _ _ _ H4 i q) as (h & t & Ei & Hm); [by right|].
  eapply (free_sp_ok hand own s s own e i q _ zero_msg _ _ []); [done|done|done|done|done|done|apply H4|done|exact Ei|done| |done]. apply msg_nil. intros b Hb. by apply H2 in Hb as [Hb|Hb].
Qed.

(** ** Packets of requests *)

(** ** Searches *)

Lemma find_from {A B} (m : Z -> fixed_obj A) (l : list (Z * B)) (test : A -> bool) (g : Z * B -> bool) :
  (forall n x, l.*1 !! n = Some x -> fo_next (m x) = l.*1 !! S n) -> (forall i b, (i, b) ∈ l -> test (fo_elem (m i)) = g (i, b)) ->
  forall l2 l1 fuel, l = l1 ++ l2 -> (length l2 <= fuel)%nat ->
  find_linked fuel test m (l2.*1 !! 0%nat) = Ok ((fun r => r.2.1) <$> list_find g l2).
Proof.
  intros Hn Ht. induction l2 as [|[i b] l2 IH]; intros l1 fuel E Hf; [by destruct fuel|]. destruct fuel as [|fuel]; [cbn in Hf; lia|]. cbn [fmap list_fmap fst].
  cbn [lookup list_lookup find_linked]. rewrite (Ht i b) by (rewrite E; apply elem_of_app; right; by left). cbn [list_find]. case_decide as Hd.
  - by rewrite (Is_true_true_1 _ Hd).
  - rewrite (Is_true_false_1 _ Hd). rewrite (Hn (length l1) i) by (rewrite E, fmap_app; apply list_lookup_middle; by rewrite length_fmap).
    assert (l.*1 !! S (length l1) = l2.*1 !! 0%nat) as ->.
    { rewrite E, fmap_app. cbn [fmap list_fmap fst]. rewrite lookup_app_r by (rewrite length_fmap; lia). by rewrite length_fmap, Nat.sub_succ_l, Nat.sub_diag. }
    rewrite (IH (l1 ++ [(i, b)]) fuel); [|by rewrite <- app_assoc|cbn in Hf; lia]. by destruct (list_find g l2) as [[? [? ?]]|].
Qed.

Lemma find_in_list {A B} (m : Z -> fixed_obj A) lst (l : list (Z * B)) (test : A -> bool) (g : Z * B -> bool) fuel :
  linked m lst l.*1 -> (forall i b, (i, b) ∈ l -> test (fo_elem (m i)) = g (i, b)) -> (length l <= fuel)%nat ->
  find_linked fuel test m (l_head lst) = Ok (fst <$> (snd <$> list_find g l)).
Proof.
  intros [Hh _ Hl _] Ht Hf. rewrite Hh. rewrite (find_from m l test g) with (l1 := []); try done; [by destruct (list_find g l) as [[? [? ?]]|]|].
  intros n x Hx. by apply Hl.
Qed.

Lemma keys_bound {A} (p : fixed_mempool A) (P : Z -> Prop) (xs : list Z) : tracks p P -> NoDup xs -> (forall i, i ∈ xs -> P i) -> (length xs <= POOL)%nat.
Proof.
  intros [_ _ Ht] Hn Hx. assert (xs ⊆+ seqZ 0 POOL_SIZE) as Hs.
  { apply NoDup_submseteq; [done|]. intros i Hi. apply elem_of_seqZ. apply Hx, Ht in Hi. lia. }
  apply submseteq_length in Hs. rewrite length_seqZ in Hs. unfold POOL, POOL_SIZE in *. lia.
Qed.

Lemma find_partial_ok hand own s e id from : sim hand own s e ->
  find_in_pending_server_pairs id from s = Ok (fst <$> find_partial id from e, s).
Proof.
  intros Hsim. destruct (si_servers _ _ _ _ Hsim) as [H1 H2 H3 H4]. unfold find_in_pending_server_pairs, find_partial.
  rewrite (find_in_list _ _ (e_partial e) _ (fun x => bool_decide (q_from x.2 = from) && (q_id x.2 =? id))); try done.
  - intros i q Hq. destruct (H4 i q (or_introl Hq)) as (h & t & E & _). unfold elem_at in E. by rewrite E.
  - rewrite <- (length_fmap fst (e_partial e)). eapply keys_bound; [exact H1|apply H2|]. by left.
Qed.

Lemma list_find_elem {A} (P : A -> Prop) `{!forall x, Decision (P x)} (l : list A) x : snd <$> list_find P l = Some x -> x ∈ l /\ P x.
Proof. intros Hx. apply fmap_Some in Hx as ([n y] & Hf & ->). apply list_find_Some in Hf as (H1 & H2 & _). split; [|done]. by eapply list_elem_of_lookup_2. Qed.

(** The code does what the specification says: it ends in a state that stands for the next endpoint and has added the events, or it stops. *)
Definition agrees (r : result) s (x : res stop (unit * r2p2)) : Prop :=
  match r with
  | Some (e', evs) => exists s' own', x = Ok (tt, s') /\ sim [] own' s' e' /\ out s' = out s ++ evs
  | None => x = Err AssertFails
  end.

Lemma agrees_out r s s1 x : out s1 = out s -> agrees r s1 x -> agrees r s x.
Proof. unfold agrees. by intros ->. Qed.

Lemma set_req_partial i q e : e_served e !! i = None -> set_req i q e = set_requests (assoc_set i q (e_partial e)) (e_served e) e.
Proof. intros H. unfold set_req. f_equal. apply map_eq. intros j. destruct (decide (i = j)) as [->|Hne]; [by rewrite lookup_alter_eq, H|by rewrite lookup_alter_ne]. Qed.

Lemma set_req_served i q q' partial served e : i ∉ partial.*1 ->
  set_req i q' (set_requests partial (<[i := q]> served) e) = set_requests partial (<[i := q']> served) e.
Proof. intros H. unfold set_req. cbn [e_partial e_served set_requests]. rewrite assoc_set_absent, alter_insert_eq by done. done. Qed.

Lemma assoc_del_set {A} i (a : A) l : assoc_del i (assoc_set i a l) = assoc_del i l.
Proof.
  induction l as [|[j b] l IH]; [done|]. unfold assoc_del, assoc_set in *. cbn [fmap list_fmap fst]. destruct (decide (j = i)) as [->|Hne].
  - rewrite !filter_cons_False by tauto. exact IH.
  - rewrite !filter_cons_True by done. f_equal. exact IH.
Qed.

Lemma assoc_set_set {A} i (a b : A) l : assoc_set i a (assoc_set i b l) = assoc_set i a l.
Proof. unfold assoc_set. rewrite <- list_fmap_compose. apply list_fmap_ext. intros n [j c] _. cbn. destruct (decide (j = i)); cbn; by case_decide. Qed.

Lemma spec_packet_set i q0 q h d e : spec_packet i q h d (set_requests (assoc_set i q0 (e_partial e)) (e_served e) e) = spec_packet i q h d e.
Proof. unfold spec_packet. cbn [e_partial e_served set_requests e_calls e_rid e_hosts e_rfn e_afc]. by rewrite assoc_del_set, assoc_set_set. Qed.

Lemma is_Some_delete_fresh (m : gmap Z request) i q : m !! i = None -> delete i (<[i := q]> m) = m.
Proof. intros H. by apply delete_insert_id. Qed.

Section Requests.
Context (sendto_ok : r2p2_host_tuple -> bytes -> bool) (Hsend : forall h d, sendto_ok h d = true).

(** ** Control messages *)

Lemma chunks_single v : 0 < len v <= PAYLOAD_SIZE -> chunks v = [v].
Proof.
  unfold PAYLOAD_SIZE, SIZEOF_HEADER, len. intros Hv. rewrite chunks_step by (intros ->; cbn in Hv; lia). change (Z.to_nat PAYLOAD_SIZE) with 1464%nat.
  rewrite take_ge, drop_ge by lia. done.
Qed.

Lemma packets_single type policy id v : packets type policy id [v] = [packet type policy id 1 0 v].
Proof. done. Qed.

Lemma control_ok hand own s e payload type id dest : sim hand own s e -> Ctl ∉ hand -> p_count (buf_pool s) < BUFPOOL_SIZE -> in_u 16 id ->
  0 < len payload <= PAYLOAD_SIZE -> type <> REQUEST_MSG ->
  exists p' own', let s' := set_out (out s ++ [Datagram None dest (control_packet payload type id)]) (set_bufs p' s) in
    send_control sendto_ok payload type id dest s = Ok (tt, s') /\ sim hand own' s' e /\ only [Ctl] (buf_pool s) own p' own'.
Proof using Hsend.
  intros Hsim Hh Hc Hid Hp Ht. pose proof Hsim as [H1 H2 _ _ _ _ _ _]. assert (forall b, own b <> Some Ctl) as Hno by (intros b Hb; by apply H2 in Hb as [Hb|Hb]).
  assert (fragments (is_small type [payload]) (concat [payload]) = [payload]) as Hf.
  { unfold is_small. rewrite (proj2 (Z.eqb_neq _ _) Ht), andb_false_r. cbn [concat]. rewrite app_nil_r. by apply chunks_single. }
  assert (part_ok payload) as Hpo.
  { unfold len, PAYLOAD_SIZE, SIZEOF_HEADER in *. split; [intros ->; cbn in Hp; lia|unfold len; lia]. }
  destruct (prepare_msg_ok type FIXED_ROUTE id Ctl s own zero_msg [payload] H1 Hno) as (p1 & own1 & m & E1 & Hok1 & Ho1 & _ & Hm & _); try done.
  { keys. }
  { rewrite Hf. cbn. lia. }
  rewrite Hf, packets_single in Hm. unfold send_control. mrun E1. mrun (send_msg_ok sendto_ok Hsend own1 (set_bufs p1 s) Ctl _ _ _ dest None Hok1 Hm).
  destruct Hm as (ps & Hs & _ & _ & Hps). destruct ps as [|b [|b' ps]]; [done| |by destruct Hs as [_ (n & _ & [])]].
  destruct Hs as [-> (n & _ & ->)]. rewrite bind_some. cbn [out set_bufs].
  set (s2 := set_out _ (set_bufs p1 s)). assert (own1 b = Some Ctl) as Hb by (apply Hps; by left).
  destruct (free_buffer_ok own1 s2 b Ctl Hok1 Hb) as (p2 & E2 & Hok2 & Ho2 & _). exists p2, (<[b := None]> own1). split_and!; [exact E2| |].
  - apply sim_out, (sim_bufs hand hand [Ctl] own); [done|done| |keys|keys| |auto].
    + eapply only_trans; [exact Ho1|exact Ho2].
    + intros b' k Hb' ->%list_elem_of_singleton. exfalso. destruct (decide (b' = b)) as [->|Hne]; [by rewrite fn_lookup_insert in Hb'|].
      rewrite fn_lookup_insert_ne in Hb' by done. apply Hps, list_elem_of_singleton in Hb'. done.
  - eapply only_trans; [exact Ho1|exact Ho2].
Qed.

(** ** One packet *)

(** The last packet came and all are there: the request goes to the application. *)
Lemma deliver_ok own s e i q h : sim [] own s e -> e_served e !! i = Some q -> q_pkts q <> [] ->
  agrees (if is_raft_msg h || is_replicated_req h || negb (e_rfn e) || (255 <=? Z.of_nat (length (q_pkts q))) then None else Some (e, [RecvFn i (content <$> q_pkts q)])) s
    ((if is_raft_msg h then fails AssertFails
      else if is_replicated_req h then fails AssertFails
      else r ← gets rfn; assert r;; forward_request i) s).
Proof using.
  intros Hsim Hq Hne. destruct (is_raft_msg h); [done|]. destruct (is_replicated_req h); [done|]. cbn [orb]. rewrite bind_gets.
  rewrite (si_rfn _ _ _ _ Hsim). destruct (e_rfn e); [|done]. rewrite bind_assert by done. cbn [orb negb]. unfold forward_request, sp_at. rewrite bind_gets.
  destruct (sv_requests _ _ _ _ _ _ (si_servers _ _ _ _ Hsim) i q) as (hd & tl & Ei & Hm); [by right|]. rewrite Ei. pose proof (si_bufs _ _ _ _ Hsim) as Hok.
  destruct (Z.leb_spec 255 (Z.of_nat (length (q_pkts q)))) as [Hl|Hl].
  - cbn [agrees]. apply bind_fails. by eapply (app_iovec_fails own s (SReq i)).
  - mrun (app_iovec_ok own s (SReq i) (sp_request (sp_rep q hd tl)) (q_pkts q) Hok Hm Hne Hl).
    cbn [agrees]. eexists _, own. split; [reflexivity|]. split; [by apply sim_out|done].
Qed.

Lemma sp_elem hand own s e i q : sim hand own s e -> has_request (e_partial e) (e_served e) i q -> exists hd tl, elem_at (server_pairs s) i = sp_rep q hd tl.
Proof. intros Hsim Hq. destruct (sv_requests _ _ _ _ _ _ (si_servers _ _ _ _ Hsim) i q Hq) as (hd & tl & Ei & _). eauto. Qed.

(** A packet of an incomplete request. *)
Lemma packet_pending own s e i q gb d h was : sim [Hand] own s e -> in_hand (buf_pool s) own gb d -> (i, q) ∈ e_partial e -> was = true \/ is_last h = false ->
  agrees (spec_packet i q h d e) s (request_packet i gb (len d) h was s).
Proof using.
  intros Hsim Hh Hq Hwas. assert (i ∈ (e_partial e).*1) as Hi by (apply elem_of_keys; by exists q).
  pose proof (sv_disj _ _ _ _ _ _ (si_servers _ _ _ _ Hsim) i Hi) as Hsv.
  destruct (sim_add_request own s e i q gb d Hsim Hh (or_introl Hq)) as (s1 & s2 & own2 & E1 & E2 & Hsim2 & _ & Hout & _ & _).
  unfold request_packet. mrun E1. mrun E2. rewrite set_req_partial in Hsim2 by done. set (q1 := add_packet d q) in *. unfold spec_packet. fold q1. cbv zeta.
  destruct (is_last h) eqn:El; cbn [negb]; [|exists s2, own2; by rewrite app_nil_r]. destruct Hwas as [->|]; [|done].
  assert ((i, q1) ∈ assoc_set i q1 (e_partial e)) as Hq1 by (apply elem_of_set; by right).
  destruct (sp_elem _ _ _ _ i q1 Hsim2 (or_introl Hq1)) as (hd & tl & Ei). unfold sp_at. rewrite bind_gets, Ei. cbn [sp_rep request_received_packets request_expected_packets].
  destruct (sim_unpend _ _ _ _ i q1 Hsim2 Hq1) as (s3 & E3 & Hsim3 & _ & Hout3). cbn [e_partial e_served set_requests e_calls e_rid e_hosts e_rfn e_afc] in Hsim3.
  rewrite assoc_del_set in Hsim3. assert (<[i := q1]> (e_served e) !! i = Some q1) as Hl by apply lookup_insert_eq. destruct (negb (q_rcv q1 =? q_exp q1)).
  - mrun E3. destruct (sim_free_sp _ _ _ _ i q1 Hsim3 Hl) as (s4 & own4 & E4 & Hsim4 & Hout4 & _); [by apply not_elem_of_nil|].
    exists s4, own4. split; [done|]. cbn [e_partial e_served set_requests] in Hsim4. rewrite is_Some_delete_fresh in Hsim4 by done.
    split; [done|]. rewrite app_nil_r. congruence.
  - mrun E3. eapply agrees_out; [by rewrite Hout3|]. refine (deliver_ok own2 s3 _ i q1 h Hsim3 Hl _). cbn. by destruct (q_pkts q).
Qed.

(** The only packet of a new request. *)
Lemma packet_fresh own s e i q gb d h : sim [Hand] own s (set_requests (e_partial e) (<[i := q]> (e_served e)) e) -> in_hand (buf_pool s) own gb d -> ~ is_request e i ->
  fo_next (p_objs (server_pairs s) i) = None -> fo_prev (p_objs (server_pairs s) i) = None -> is_last h = true ->
  agrees (spec_packet i q h d e) s (request_packet i gb (len d) h false s).
Proof using.
  intros Hsim Hh Hi Hn Hp El. assert (i ∉ (e_partial e).*1) as Hip by (intros H; apply Hi; by left).
  assert (e_served e !! i = None) as His by (apply eq_None_not_Some; intros H; apply Hi; by right).
  destruct (sim_add_request own s _ i q gb d Hsim Hh) as (s1 & s2 & own2 & E1 & E2 & Hsim2 & _ & Hout & _ & Hlk); [right; apply lookup_insert_eq|].
  rewrite set_req_served in Hsim2 by done. set (q1 := add_packet d q) in *. unfold request_packet, spec_packet. fold q1. mrun E1. mrun E2. cbv zeta.
  rewrite El. cbn [negb]. assert (<[i := q1]> (e_served e) !! i = Some q1) as Hl by apply lookup_insert_eq.
  destruct (sp_elem _ _ _ _ i q1 Hsim2 (or_intror Hl)) as (hd & tl & Ei). unfold sp_at. rewrite bind_gets, Ei. cbn [sp_rep request_received_packets request_expected_packets].
  rewrite assoc_del_absent by done. destruct (Hlk i) as [Hn2 Hp2]. destruct (negb (q_rcv q1 =? q_exp q1)).
  - mrun (unpend_absent _ _ _ _ i Hsim2 Hip (eq_trans Hn2 Hn) (eq_trans Hp2 Hp)).
    destruct (sim_free_sp _ _ _ _ i q1 Hsim2 Hl) as (s4 & own4 & E4 & Hsim4 & Hout4 & _); [by apply not_elem_of_nil|].
    exists s4, own4. split; [done|]. cbn [e_partial e_served set_requests] in Hsim4. rewrite is_Some_delete_fresh in Hsim4 by done.
    split; [by destruct e|]. rewrite app_nil_r. congruence.
  - rewrite bind_ret. eapply agrees_out; [exact Hout|]. refine (deliver_ok own2 s2 _ i q1 h Hsim2 Hl _). cbn. by destruct (q_pkts q).
Qed.

(** ** All packets of requests *)

Lemma keep_ok hand own s e (t : bool) : sim hand own s e ->
  (if t then should_keep_req else mret true) s = Ok (negb (t && bool_decide (e_afc e = Some 0)), s).
Proof using.
  intros Hsim. destruct t; [|done]. unfold should_keep_req. rewrite bind_gets, (si_afc _ _ _ _ Hsim). unfold mret, M_ret. do 2 f_equal.
  destruct (e_afc e) as [v|]; cbn [andb]; [|by rewrite bool_decide_false]. destruct (Z.eqb_spec v 0) as [->|Hne]; [by rewrite bool_decide_true|].
  rewrite bool_decide_false; [done|]. congruence.
Qed.

(** The application does not take the request: the client is told. *)
Lemma drop_request_ok own s e i gb d source id n : let q := mk_request source id [] n 1 in
  sim [Hand] own s (set_requests (e_partial e) (<[i := q]> (e_served e)) e) -> in_hand (buf_pool s) own gb d -> ~ is_request e i ->
  p_count (buf_pool s) < BUFPOOL_SIZE -> in_u 16 id ->
  agrees (Some (e, [Datagram None source (control_packet drop_payload DROP_MSG id)])) s
    ((set_buffer_payload_size gb (len d);; add_request_payload i gb;; send_drop_msg sendto_ok i;; free_server_pair i) s).
Proof using Hsend.
  intros q Hsim Hh Hi Hc Hid. assert (i ∉ (e_partial e).*1) as Hip by (intros H; apply Hi; by left).
  assert (e_served e !! i = None) as His by (apply eq_None_not_Some; intros H; apply Hi; by right).
  destruct (sim_add_request own s _ i q gb d Hsim Hh) as (s1 & s2 & own2 & E1 & E2 & Hsim2 & Hc2 & Hout & _ & _); [right; apply lookup_insert_eq|].
  rewrite set_req_served in Hsim2 by done. mrun E1. mrun E2. set (q1 := add_packet d q) in *. assert (<[i := q1]> (e_served e) !! i = Some q1) as Hl by apply lookup_insert_eq.
  destruct (sp_elem _ _ _ _ i q1 Hsim2 (or_intror Hl)) as (hd & tl & Ei). unfold send_drop_msg, sp_at. rewrite bind_bind, bind_gets, Ei. cbn [sp_rep sp_request req_id sender].
  destruct (control_ok [] own2 s2 _ drop_payload DROP_MSG id source Hsim2) as (p3 & own3 & E3 & Hsim3 & _); [apply not_elem_of_nil|by rewrite Hc2|done|done|done|].
  mrun E3. destruct (sim_free_sp _ _ _ _ i q1 Hsim3 Hl) as (s4 & own4 & E4 & Hsim4 & Hout4 & _); [by apply not_elem_of_nil|].
  exists s4, own4. split; [done|]. cbn [e_partial e_served set_requests] in Hsim4. rewrite is_Some_delete_fresh in Hsim4 by done. split; [by destruct e|].
  rewrite Hout4. cbn. by rewrite Hout.
Qed.

(** The first of several packets. *)
Lemma first_packet_ok own s e i q gb d h source : sim [Hand] own s (set_requests (e_partial e) (<[i := q]> (e_served e)) e) -> in_hand (buf_pool s) own gb d -> ~ is_request e i ->
  p_count (buf_pool s) < BUFPOOL_SIZE -> in_u 16 (h_rid h) -> is_last h = false ->
  let ack := if is_raft_msg h then [] else [Datagram None source (control_packet ack_payload ACK_MSG (h_rid h))] in
  agrees (r ← spec_packet i q h d (set_requests (e_partial e ++ [(i, q)]) (e_served e) e); Some (r.1, ack ++ r.2)) s
    (((add_to_pending_server_pairs i;; (if negb (is_raft_msg h) then send_control sendto_ok ack_payload ACK_MSG (h_rid h) source else mret tt));;
      request_packet i gb (len d) h false) s).
Proof using Hsend.
  intros Hsim Hh Hi Hc Hid El ack. assert (e_served e !! i = None) as His by (apply eq_None_not_Some; intros H; apply Hi; by right).
  destruct (sim_pend _ _ _ _ i q Hsim) as (s1 & E1 & Hsim1 & Hb1 & Ho1); [apply lookup_insert_eq|].
  cbn [e_partial e_served set_requests e_calls e_rid e_hosts e_rfn e_afc] in Hsim1. rewrite is_Some_delete_fresh in Hsim1 by done.
  set (e1 := set_requests (e_partial e ++ [(i, q)]) (e_served e) e) in *. rewrite bind_bind. mrun E1.
  assert (exists s2 own2, (if negb (is_raft_msg h) then send_control sendto_ok ack_payload ACK_MSG (h_rid h) source else mret tt) s1 = Ok (tt, s2) /\
    sim [Hand] own2 s2 e1 /\ in_hand (buf_pool s2) own2 gb d /\ out s2 = out s ++ ack) as (s2 & own2 & E2 & Hsim2 & Hh2 & Ho2).
  { subst ack. destruct (is_raft_msg h); cbn [negb]; [exists s1, own; split_and!; [done|done|by rewrite Hb1|by rewrite Ho1, app_nil_r]|].
    destruct (control_ok [Hand] own s1 _ ack_payload ACK_MSG (h_rid h) source Hsim1) as (p3 & own3 & E3 & Hsim3 & Hon); [unlisted|by rewrite Hb1|done|done|done|].
    eexists _, own3. split; [exact E3|]. split_and!; [done|eapply in_hand_only; [exact Hon|unlisted|by rewrite Hb1]|cbn; by rewrite Ho1]. }
  mrun E2. assert ((i, q) ∈ e_partial e1) as Hq by (apply elem_of_app; right; by left).
  pose proof (packet_pending own2 s2 e1 i q gb d h false Hsim2 Hh2 Hq (or_intror El)) as H. unfold agrees in *.
  destruct (spec_packet i q h d e1) as [[e' evs]|]; [|done]. cbn [mbind option_bind fst snd]. destruct H as (s' & own' & E & Hs & Ho).
  exists s', own'. split_and!; try done. by rewrite Ho, Ho2, app_assoc.
Qed.

Lemma stored_length h d : 8 <= len d -> len (stored h d) = len d.
Proof. unfold stored, len. intros H. rewrite length_app, length_header, length_drop. lia. Qed.

Lemma free_hand_ok own s e gb d : sim [Hand] own s e -> in_hand (buf_pool s) own gb d ->
  exists s' own', free_buffer gb s = Ok (tt, s') /\ sim [] own' s' e /\ out s' = out s /\ client_pairs s' = client_pairs s.
Proof using.
  intros Hsim Hh. destruct (hand_free_ok s own gb d (si_bufs _ _ _ _ Hsim) Hh) as (p' & own' & E & Hok & Ho & Hn & _).
  eexists _, own'. split; [exact E|]. split; [|done]. eapply (sim_bufs [Hand] [] [Hand]); [done|done|exact Ho|keys|keys| |intros k; by left].
  intros b k Hb ->%list_elem_of_singleton. by apply Hn in Hb.
Qed.

Lemma handle_request_ok own s e gb d h source : sim [Hand] own s e -> 8 <= len d -> in_hand (buf_pool s) own gb (stored h d) ->
  p_count (buf_pool s) < BUFPOOL_SIZE -> p_count (server_pairs s) < POOL_SIZE -> in_u 16 (h_rid h) ->
  exists i, ~ is_request e i /\ agrees (spec_request i h d source e) s (handle_request sendto_ok gb (len d) h source s).
Proof using Hsend.
  intros Hsim Hd Hh Hc Hcs Hid. destruct (sim_new_sp _ _ _ _ Hsim) as (i & p1 & E1 & Hi & Hn1 & Hp1 & Hsim1); [intros j; unlisted|done|].
  exists i. split; [done|]. assert (i ∉ (e_partial e).*1) as Hip by (intros H; apply Hi; by left).
  rewrite <- (stored_length h d) by done. unfold handle_request, spec_request. destruct (is_first h).
  - set (q := mk_request source (h_rid h) [] (p_order h) 1). cbv zeta. mrun E1. unfold upd_sp. rewrite bind_modify. cbn [set_sps server_pairs].
    set (f := fun p : r2p2_server_pair => _). pose proof (fun Hq => sim_upd_sp _ _ _ _ i (mk_request zero_host 0 [] 0 0) q f Hsim1 Hq (fun _ _ => eq_refl) eq_refl) as Hsim2. specialize (Hsim2 (or_intror (lookup_insert_eq _ _ _))).
    rewrite set_req_served in Hsim2 by done. set (s2 := set_sps (upd_elem f i p1) (set_sps p1 s)) in *. mrun (keep_ok _ _ _ _ (get_msg_type h =? REQUEST_MSG) Hsim2). cbn [e_afc set_requests]. rewrite negb_involutive.
    destruct ((get_msg_type h =? REQUEST_MSG) && bool_decide (e_afc e = Some 0)).
    { eapply (agrees_out _ _ s2); [done|]. by eapply drop_request_ok. }
    destruct (is_last h) eqn:El; cbn [negb].
    + rewrite bind_ret. eapply (agrees_out _ _ s2); [done|]. eapply (packet_fresh own s2 e i q); try done; unfold s2; cbn; by rewrite fn_lookup_alter.
    + eapply (agrees_out _ _ s2); [done|]. by eapply (first_packet_ok own s2 e i q).
  - mrun (find_partial_ok _ _ _ _ (h_rid h) source Hsim). destruct (find_partial (h_rid h) source e) as [[j q]|] eqn:Ef; cbn [fmap option_fmap option_map fst].
    + apply list_find_elem in Ef as [Hj _]. destruct (sp_elem _ _ _ _ j q Hsim (or_introl Hj)) as (hd & tl & Ei). unfold sp_at. rewrite bind_gets, Ei.
      cbn [sp_rep request_expected_packets request_received_packets]. unfold upd_sp. rewrite bind_modify. set (q' := mk_request (q_from q) (q_id q) (q_pkts q) (q_exp q) (u16 (q_rcv q + 1))).
      assert (e_served e !! j = None) as Hjs by (apply (sv_disj _ _ _ _ _ _ (si_servers _ _ _ _ Hsim)), elem_of_keys; by exists q).
      pose proof (sim_upd_sp _ _ _ _ j q q' (set_sp_packets (q_exp q) (u16 (q_rcv q + 1))) Hsim (or_introl Hj) (fun _ _ => eq_refl) eq_refl) as Hsim2.
      rewrite set_req_partial in Hsim2 by done. set (s2 := set_sps (upd_elem (set_sp_packets (q_exp q) (u16 (q_rcv q + 1))) j (server_pairs s)) s) in *.
      assert ((j, q') ∈ assoc_set j q' (e_partial e)) as Hj' by (apply elem_of_set; right; split_and!; try done; apply elem_of_keys; by exists q).
      destruct (negb (p_order h =? q_rcv q)).
      * destruct (sim_unpend _ _ _ _ j q' Hsim2 Hj') as (s3 & E3 & Hsim3 & Hb3 & Ho3). mrun E3.
        cbn [e_partial e_served set_requests e_calls e_rid e_hosts e_rfn e_afc] in Hsim3. rewrite assoc_del_set in Hsim3.
        destruct (free_hand_ok own s3 _ gb (stored h d) Hsim3) as (s4 & own4 & E4 & Hsim4 & Ho4 & _); [by rewrite Hb3|]. mrun E4.
        destruct (sim_free_sp _ _ _ _ j q' Hsim4) as (s5 & own5 & E5 & Hsim5 & Ho5 & _); [apply lookup_insert_eq|apply not_elem_of_nil|].
        cbn [e_partial e_served set_requests e_calls e_rid e_hosts e_rfn e_afc] in Hsim5. rewrite is_Some_delete_fresh in Hsim5 by done.
        exists s5, own5. split_and!; try done. rewrite app_nil_r. etrans; [exact Ho5|]. by rewrite Ho4, Ho3.
      * rewrite <- (spec_packet_set j q' q'). eapply (agrees_out _ _ s2); [done|]. by eapply packet_pending; [exact Hsim2|..|left].
    + destruct (free_hand_ok own s e gb (stored h d) Hsim Hh) as (s' & own' & E & Hs & Ho & _). exists s', own'. by rewrite app_nil_r.
Qed.
End Requests.
