(* ===== verification/R2p2Client.v ===== *)
(** * Calls at the client

    What the operations on client pairs, their sockets and timers do to the calls. *)

From stdpp Require Import functions.
From S2P Require Import Prelude MapDef OfpBuf OfpMsgs Mempool R2p2 R2p2Bufs R2p2Spec.
From S2P Require Import R2p2Server.

Implicit Types (own : owner) (k : key) (s : r2p2) (e : endpoint) (c : call).
#[local] Arguments header_bytes : simpl never.

(** ** Sockets *)

Definition call_timer (t : Z) (k : r2p2_socket) : r2p2_socket := mk_socket (local_host k) (s_taken k) (s_cp k) t.
Definition released (k : r2p2_socket) : r2p2_socket := mk_socket (local_host k) 0 None (s_timer k).

Section Sockets.
Context (m : Z -> r2p2_socket) (count idx : Z) (hosts : Z -> r2p2_host_tuple) (calls : list (Z * call)).
Context (Hok : socks_ok m count idx hosts calls) (Hnd : NoDup calls.*1).

(** A socket belongs to one call. *)
Lemma socket_unique i c j c' : (i, c) ∈ calls -> (j, c') ∈ calls -> c_sock c = c_sock c' -> i = j.
Proof using Hok. intros H1 H2 E. destruct (so_call _ _ _ _ _ Hok _ _ H1) as [_ E1], (so_call _ _ _ _ _ Hok _ _ H2) as [_ E2]. rewrite E in E1. rewrite E1 in E2. by injection E2. Qed.

Lemma socks_set i c c' : (i, c) ∈ calls -> c_sock c' = c_sock c -> c_timer c' = c_timer c -> socks_ok m count idx hosts (assoc_set i c' calls).
Proof using Hok Hnd.
  intros Hi Es Et. pose proof Hok as [H1 H2 H3 H4]. split; try done.
  - intros n Hn Hu. destruct (H3 n Hn Hu) as (j & c2 & Hj & E2). destruct (decide (j = i)) as [->|Hne].
    + exists i, c'. rewrite (assoc_unique _ _ _ _ Hnd Hj Hi) in E2. split; [apply elem_of_set; right; split_and!; try done; apply elem_of_keys; eauto|congruence].
    + exists j, c2. split; [apply elem_of_set; by left|done].
  - intros j c2 [[_ Hj]|(-> & -> & _)]%elem_of_set; [by apply H4|]. rewrite Es, Et. by apply H4.
Qed.

Lemma socks_timer i c t : (i, c) ∈ calls -> socks_ok (alter (call_timer t) (c_sock c) m) count idx hosts (assoc_set i (with_timer t c) calls).
Proof using Hok Hnd.
  intros Hi. pose proof Hok as [H1 H2 H3 H4].
  assert (forall n, s_taken (alter (call_timer t) (c_sock c) m n) = s_taken (m n) /\ local_host (alter (call_timer t) (c_sock c) m n) = local_host (m n)) as He.
  { intros n. destruct (decide (c_sock c = n)) as [->|Hne]; [by rewrite fn_lookup_alter|by rewrite fn_lookup_alter_ne]. }
  split.
  - apply (wf_pool_agree (sock_pool m count idx)); [done|]. intros n. unfold used. cbn. by rewrite (proj1 (He n)).
  - intros n. rewrite (proj2 (He n)). done.
  - intros n Hn. rewrite (proj1 (He n)). intros Hu. destruct (H3 n Hn Hu) as (j & c2 & Hj & E2). destruct (decide (j = i)) as [->|Hne].
    + exists i, (with_timer t c). rewrite (assoc_unique _ _ _ _ Hnd Hj Hi) in E2. split; [apply elem_of_set; right; split_and!; try done; apply elem_of_keys; eauto|done].
    + exists j, c2. split; [apply elem_of_set; by left|done].
  - intros j c2 [[Hne Hj]|(-> & -> & _)]%elem_of_set.
    + rewrite fn_lookup_alter_ne; [by apply H4|]. intros E. apply Hne. symmetry. by eapply socket_unique.
    + cbn [with_timer c_sock c_timer]. destruct (H4 _ _ Hi) as [Hr E]. split; [done|]. by rewrite fn_lookup_alter, E.
Qed.

Lemma socks_free i c : (i, c) ∈ calls ->
  socks_ok (alter released (c_sock c) (alter (call_timer 0) (c_sock c) m)) (u32 (count - 1)) idx hosts (assoc_del i calls).
Proof using Hok Hnd.
  intros Hi. pose proof Hok as [H1 H2 H3 H4]. destruct (H4 _ _ Hi) as [Hr Em]. set (m' := alter _ _ (alter _ _ m)).
  assert (forall n, n <> c_sock c -> m' n = m n) as Hne by (intros n Hn; unfold m'; by rewrite !fn_lookup_alter_ne by congruence).
  assert (m' (c_sock c) = mk_socket (hosts (c_sock c)) 0 None 0) as Hs by (unfold m'; by rewrite !fn_lookup_alter, Em).
  split.
  - destruct (free_object_ok (sock_pool m count idx) (c_sock c) H1) as (p' & E & Hw & _ & Hc & _); [done|unfold used; cbn; by rewrite Em|].
    pose proof (wf_pool_count _ H1) as Hb. unfold free_object in E. cbn in E, Hb. destruct (Z.eqb_spec count 0) as [|Hc0]; [done|]. injection E as <-.
    rewrite wrap_small by (unfold in_u, SOCKPOOL_SIZE in *; lia). refine (wf_pool_agree _ _ Hw _). intros n. unfold used. cbn.
    destruct (decide (n = c_sock c)) as [->|Hn]; [by rewrite fn_lookup_insert, Hs|by rewrite fn_lookup_insert_ne, Hne].
  - intros n. destruct (decide (n = c_sock c)) as [->|Hn]; [by rewrite Hs|by rewrite Hne].
  - intros n Hn. destruct (decide (n = c_sock c)) as [->|Hnc]; [by rewrite Hs|]. rewrite Hne by done. intros Hu. destruct (H3 n Hn Hu) as (j & c2 & Hj & E2).
    exists j, c2. split; [|done]. apply elem_of_del. split; [|done]. intros ->. rewrite (assoc_unique _ _ _ _ Hnd Hj Hi) in E2. done.
  - intros j c2 [Hji Hj]%elem_of_del. rewrite Hne; [by apply H4|]. intros E. apply Hji. by eapply socket_unique.
Qed.

(** A free socket is given to a new call. *)
Lemma socks_add m' count' idx' i c : wf_pool (sock_pool m' count' idx') -> 0 <= c_sock c < SOCKPOOL_SIZE -> s_taken (m (c_sock c)) = 0 ->
  (forall n, n <> c_sock c -> m' n = m n) -> m' (c_sock c) = mk_socket (hosts (c_sock c)) 1 (Some i) (c_timer c) -> socks_ok m' count' idx' hosts (calls ++ [(i, c)]).
Proof using Hok.
  intros Hw Hr Hf Hne Hc. pose proof Hok as [H1 H2 H3 H4]. split; [done|..].
  - intros n. destruct (decide (n = c_sock c)) as [->|Hn]; [by rewrite Hc|by rewrite Hne].
  - intros n Hn Hu. destruct (decide (n = c_sock c)) as [->|Hnc]; [exists i, c; split; [apply elem_of_app; right; by left|done]|].
    rewrite Hne in Hu by done. destruct (H3 n Hn Hu) as (j & c2 & Hj & E). exists j, c2. split; [apply elem_of_app; by left|done].
  - intros j c2 Hj. apply elem_of_app in Hj as [Hj|Hj].
    + destruct (H4 j c2 Hj) as [Hr2 E2]. rewrite Hne; [done|]. intros E. rewrite <- E, E2 in Hf. done.
    + apply list_elem_of_singleton in Hj. by simplify_eq.
Qed.
End Sockets.

(** ** Client pairs *)

Section Clients.
Context (cps : fixed_mempool r2p2_client_pair) (l : fixed_linked_list) (hosts : Z -> r2p2_host_tuple) (p : pool) (own : owner) (calls : list (Z * call)).
Context (Hok : clients_ok cps l hosts p own calls).

Lemma clients_nodup : NoDup calls.*1.
Proof using Hok. apply Hok. Qed.

Lemma clients_upd i f c c' ks p' own' : (i, c) ∈ calls -> only ks p own p' own' -> (forall k, k ∈ ks -> server_key k \/ k = CReq i \/ k = CRep i) ->
  call_ok hosts p' own' (f (elem_at cps i)) i c' -> clients_ok (upd_elem f i cps) l hosts p' own' (assoc_set i c' calls).
Proof using Hok.
  intros Hi Ho Hk Hc. destruct Hok as [H1 H2 H3]. split; rewrite ?assoc_set_keys.
  - by apply tracks_upd.
  - eapply linked_agree; [done|]. intros x _. unfold upd_elem. cbn. destruct (decide (i = x)) as [->|Hne]; [by rewrite fn_lookup_alter|by rewrite fn_lookup_alter_ne].
  - intros j c2 [[Hne Hj]|(-> & -> & _)]%elem_of_set; [|by rewrite elem_upd]. rewrite elem_upd_ne by done.
    eapply call_frame; [done|..|by apply H3]; intros [?|[[= ->]|[= ->]]]%Hk; done.
Qed.

(** A pair leaves the list, and its slot is freed after its buffers. *)
Lemma clients_del i ks p' own' : i ∈ calls.*1 -> only ks p own p' own' -> (forall k, k ∈ ks -> server_key k \/ k = CReq i \/ k = CRep i) ->
  let r := remove_from_list l i (p_objs cps) in
  exists cps', free_slot i (set_objs cps r.2) = Ok (tt, cps') /\ clients_ok cps' r.1 hosts p' own' (assoc_del i calls).
Proof using Hok.
  intros Hi Ho Hk. pose proof clients_nodup as Hn. destruct Hok as [H1 H2 H3]. pose proof Hi as (xs1 & xs2 & Es)%list_elem_of_split. rewrite Es in H2.
  destruct (remove_from_list_ok _ _ _ _ _ H2) as (Hl & Hr & _). intros r. change (remove_from_list l i (p_objs cps)) with r in Hl, Hr.
  destruct (tracks_free (set_objs cps r.2) _ i (tracks_relink _ _ _ H1 Hr) Hi) as (cps' & E & Ht & _ & Hne). exists cps'. split; [done|]. split.
  - eapply tracks_iff; [exact Ht|]. intros j. cbn. rewrite elem_of_del_keys. tauto.
  - rewrite (assoc_del_split i calls xs1 xs2) by done. eapply linked_agree; [exact Hl|]. intros x Hx. rewrite Hne; [done|]. intros ->.
    rewrite Es in Hn. apply NoDup_app in Hn as (_ & Hd & [Hn2 _]%NoDup_cons). apply elem_of_app in Hx as [Hx|Hx]; [|done]. apply (Hd i Hx). by left.
  - intros j c [Hji Hj]%elem_of_del. unfold elem_at. rewrite Hne by done. change (fo_elem (p_objs (set_objs cps r.2) j)) with (elem_at (set_objs cps r.2) j).
    rewrite elem_relink by done. eapply call_frame; [done|..|by apply H3]; intros [?|[[= ->]|[= ->]]]%Hk; done.
Qed.

(** A new pair enters the list. *)
Lemma clients_add cps1 i f c ks p' own' : i ∉ calls.*1 -> tracks cps1 (fun j => j ∈ calls.*1 \/ j = i) -> (forall j, j <> i -> p_objs cps1 j = p_objs cps j) ->
  only ks p own p' own' -> (forall k, k ∈ ks -> server_key k \/ k = CReq i \/ k = CRep i) -> call_ok hosts p' own' (f (elem_at cps1 i)) i c ->
  let r := add_to_list l i (p_objs cps1) in clients_ok (upd_elem f i (set_objs cps1 r.2)) r.1 hosts p' own' (calls ++ [(i, c)]).
Proof using Hok.
  intros Hi Ht Hne Ho Hk Hc r. destruct Hok as [H1 H2 H3]. assert (linked (p_objs cps1) l calls.*1) as Hl1.
  { eapply linked_agree; [done|]. intros x Hx. rewrite Hne by (intros ->; done). done. }
  destruct (add_to_list_ok _ _ _ i Hl1 Hi) as (Hl & Hr & _). fold r in Hl, Hr. assert ((calls ++ [(i, c)]).*1 = calls.*1 ++ [i]) as Hsn by (by rewrite fmap_app). split.
  - eapply tracks_iff; [by apply tracks_upd, tracks_relink|]. intros j. cbv beta. by rewrite Hsn, elem_of_app, list_elem_of_singleton.
  - rewrite Hsn. eapply linked_agree; [exact Hl|]. intros x _. unfold upd_elem. cbn. destruct (decide (i = x)) as [->|Hx]; [by rewrite fn_lookup_alter|by rewrite fn_lookup_alter_ne].
  - intros j c2 Hj. apply elem_of_app in Hj as [Hj|Hj].
    + assert (j <> i) as Hji by (intros ->; apply Hi, elem_of_keys; by exists c2). rewrite elem_upd_ne by done. rewrite elem_relink by done. unfold elem_at. rewrite Hne by done.
      eapply call_frame; [done|..|by apply H3]; intros [?|[[= ->]|[= ->]]]%Hk; done.
    + apply list_elem_of_singleton in Hj. simplify_eq. rewrite elem_upd, elem_relink by done. done.
Qed.

(** A new pair is freed at once. *)
Lemma clients_refree cps1 i : i ∉ calls.*1 -> tracks cps1 (fun j => j ∈ calls.*1 \/ j = i) -> (forall j, j <> i -> p_objs cps1 j = p_objs cps j) ->
  exists cps', free_slot i cps1 = Ok (tt, cps') /\ clients_ok cps' l hosts p own calls.
Proof using Hok.
  intros Hi Ht Hne1. destruct Hok as [H1 H2 H3]. destruct (tracks_free cps1 _ i Ht) as (cps' & E & Ht' & _ & Hne); [by right|]. exists cps'. split; [done|]. split.
  - eapply tracks_iff; [exact Ht'|]. intros j. cbv beta. split; [tauto|]. intros Hj. split; [by left|intros ->; done].
  - eapply linked_agree; [done|]. intros x Hx. rewrite Hne, Hne1 by (intros ->; done). done.
  - intros j c Hj. assert (j <> i) as Hji by (intros ->; apply Hi, elem_of_keys; by exists c). unfold elem_at. rewrite Hne, Hne1 by done. by apply H3.
Qed.
End Clients.

(** ** Operations *)

(** Nothing changes but client pairs, sockets, buffers and what was sent. *)
Definition same_servers s s' : Prop :=
  server_pairs s' = server_pairs s /\ pending_server_pairs s' = pending_server_pairs s /\ rid s' = rid s /\ rfn s' = rfn s /\ afc_fn s' = afc_fn s.

Lemma sim_clients hand hand' ks own own' s s' e calls : let e' := set_calls calls e in
  sim hand own s e -> same_servers s s' -> bufs_ok (buf_pool s') own' -> only ks (buf_pool s) own (buf_pool s') own' -> Forall client_key ks ->
  clients_ok (client_pairs s') (pending_client_pairs s') (e_hosts e) (buf_pool s') own' calls -> socks_ok (sockets s') (sock_count s') (sock_idx s') (e_hosts e) calls ->
  (forall b k, own' b = Some k -> k ∈ ks -> k ∈ hand' \/ key_live e' k) -> (forall k, k ∈ hand -> k ∈ ks \/ k ∈ hand') ->
  (forall i, is_call e i -> (CReq i ∈ ks /\ CRep i ∈ ks) \/ is_call e' i) -> sim hand' own' s' e'.
Proof.
  intros e' [H1 H2 H3 H4 H5 H6 H7 H8] (E1 & E2 & E3 & E4 & E5) Hb Ho Hk Hs Hso Hl Hh Hr.
  split; rewrite ?E1, ?E2, ?E3, ?E4, ?E5; try done; [|by eapply servers_frame].
  intros b k Hbk. destruct (decide (k ∈ ks)) as [Hin|Hin]; [by eapply Hl|]. apply (Ho k b Hin) in Hbk. apply H2 in Hbk as [Hbk|Hbk].
  - left. by destruct (Hh k Hbk).
  - right. destruct k; try done; by destruct (Hr i Hbk) as [[? ?]|?].
Qed.

Lemma is_call_set i c e j : is_call (set_call i c e) j <-> is_call e j.
Proof. unfold is_call. cbn. by rewrite assoc_set_keys. Qed.

Lemma is_call_in i c e : (i, c) ∈ e_calls e -> is_call e i.
Proof. intros H. apply elem_of_keys. by exists c. Qed.

Lemma calls_nodup hand own s e : sim hand own s e -> NoDup (e_calls e).*1.
Proof. intros Hsim. apply (cl_list _ _ _ _ _ _ (si_clients _ _ _ _ Hsim)). Qed.

Lemma call_in_set i c c' e : (i, c) ∈ e_calls e -> (i, c') ∈ e_calls (set_call i c' e).
Proof. intros H. apply elem_of_set. right. split_and!; try done. by eapply is_call_in. Qed.

(** The fields of a pair other than its messages and its socket are set. *)
Lemma sim_upd_cp hand own s e i c c' f : sim hand own s e -> (i, c) ∈ e_calls e ->
  (forall h1 t1 h2 t2, f (cp_rep (e_hosts e) c h1 t1 h2 t2) = cp_rep (e_hosts e) c' h1 t1 h2 t2) -> c_req c' = c_req c -> c_rep c' = c_rep c ->
  c_sock c' = c_sock c -> c_timer c' = c_timer c -> sim hand own (set_cps (upd_elem f i (client_pairs s)) s) (set_call i c' e).
Proof.
  intros Hsim Hi Hf Eq Er Es Et. pose proof (calls_nodup _ _ _ _ Hsim) as Hnd. pose proof Hsim as [H1 H2 H3 H4 H5 H6 H7 H8].
  destruct (cl_calls _ _ _ _ _ _ H3 i c Hi) as (h1 & t1 & h2 & t2 & E & M1 & M2 & Hne).
  apply (sim_clients hand hand [] own own s _ e); [done|done|done|apply only_refl|by apply Forall_nil| |by eapply socks_set|by intros ? ? ? ?%elem_of_nil|auto|intros j Hj; right; by apply is_call_set].
  apply (clients_upd _ _ _ _ _ _ H3 i f c c' []); [done|apply only_refl|by intros ? ?%elem_of_nil|]. exists h1, t1, h2, t2. rewrite Eq, Er. split_and!; try done. cbn. by rewrite E.
Qed.

Definition add_reply (d : bytes) c : call := with_reply (c_rep c ++ [d]) (c_exp c) (c_rcv c) c.

(** The packet in the hand is added to a reply. *)
Lemma sim_add_reply own s e i c gb d : sim [Hand] own s e -> in_hand (buf_pool s) own gb d -> (i, c) ∈ e_calls e ->
  exists s1 s' own', set_buffer_payload_size gb (len d) s = Ok (tt, s1) /\ add_reply_payload i gb s1 = Ok (tt, s') /\ sim [] own' s' (set_call i (add_reply d c) e) /\
    out s' = out s.
Proof.
  intros Hsim Hh Hi. pose proof (calls_nodup _ _ _ _ Hsim) as Hnd. pose proof Hsim as [H1 H2 H3 H4 H5 H6 H7 H8].
  destruct (hand_size_ok s own gb d H1 Hh) as (p1 & E1 & Hok1 & Ho1 & Hc1 & Hh1 & Hd1).
  destruct (cl_calls _ _ _ _ _ _ H3 i c Hi) as (h1 & t1 & h2 & t2 & Ei & M1 & M2 & Hne). set (m := mk_msg (c_from c) 0 h2 t2).
  destruct (hand_add_ok (set_bufs p1 s) own (CRep i) m (c_rep c) gb d Hok1 Hh1 Hd1) as (p2 & own' & m' & E2 & Hok2 & Ho2 & Hc2 & Hn2 & Hm2 & Hs2 & Hr2); [done|eapply msg_only; [exact Ho1|unlisted|done]|].
  exists (set_bufs p1 s), (set_cps (upd_elem (set_cp_reply m') i (client_pairs s)) (set_bufs p2 s)), own'. split; [done|]. pose proof (only_app _ _ _ _ _ _ _ _ Ho1 Ho2) as Ho. split_and!; try done.
  - unfold add_reply_payload, cp_at. rewrite bind_gets. cbn [set_bufs client_pairs]. rewrite Ei. cbn [cp_rep cp_reply]. mrun E2. done.
  - apply (sim_clients [Hand] [] ([Hand] ++ [CRep i; Hand]) own own' s _ e);
      [done|done|done|done|keys| |by eapply socks_set| |intros k ?; left; apply elem_of_app; by left|intros j Hj; right; by apply is_call_set].
    + eapply (clients_upd _ _ _ _ _ _ H3 i _ c); [done|exact Ho| |].
      * intros k. rewrite elem_of_app, !elem_of_cons, elem_of_nil. intros [[->|[]]|[->|[->|[]]]]; auto; by left.
      * cbn [set_cps set_bufs client_pairs buf_pool]. rewrite Ei. exists h1, t1, (head_buffer m'), (tail_buffer m').
        split_and!; [|eapply msg_only; [exact Ho|unlisted|done]|done|done]. unfold cp_rep, set_cp_reply. cbn. destruct m' as [sd rq h' t']. cbn in Hs2, Hr2 |- *. by subst.
    + intros b k Hb. rewrite elem_of_app, !elem_of_cons, elem_of_nil. intros [[->|[]]|[->|[->|[]]]]; [by apply Hn2 in Hb| |by apply Hn2 in Hb].
      right. apply is_call_set. by eapply is_call_in.
Qed.

(** The pair of a call is given up: it leaves the list, and its buffers, its socket and its slot are freed. *)
Lemma sim_drop_cp hand own s e i c : sim hand own s e -> (i, c) ∈ e_calls e ->
  exists s' own', drop_client_pair i s = Ok (tt, s') /\ sim hand own' s' (del_call i e) /\ out s' = out s /\ only [CRep i; CReq i] (buf_pool s) own (buf_pool s') own'.
Proof.
  intros Hsim Hi. pose proof (calls_nodup _ _ _ _ Hsim) as Hnd. pose proof Hsim as [H1 H2 H3 H4 H5 H6 H7 H8].
  destruct (cl_calls _ _ _ _ _ _ H3 i c Hi) as (h1 & t1 & h2 & t2 & Ei & M1 & M2 & Hne). pose proof (cl_list _ _ _ _ _ _ H3) as Hlk.
  pose proof (is_call_in _ _ _ Hi) as Hic. pose proof (clients_del _ _ _ _ _ _ H3 i ([CRep i] ++ [CReq i])) as Hdel. cbv zeta in Hdel.
  pose proof Hic as (xs1 & xs2 & Es)%list_elem_of_split. rewrite Es in Hlk. destruct (remove_from_list_ok _ _ _ _ _ Hlk) as (_ & Hrl & _).
  unfold drop_client_pair, remove_from_pending_client_pairs, on_cp_list. rewrite bind_modify. destruct (remove_from_list _ _ _) as [l m]. cbn [fst snd] in *.
  set (s1 := set_pending_cps l _). unfold free_client_pair, cp_at. rewrite bind_gets. replace (elem_at (client_pairs s1) i) with (cp_rep (e_hosts e) c h1 t1 h2 t2)
    by (rewrite <- Ei; symmetry; by apply elem_relink). cbn [cp_rep cp_reply cp_request head_buffer on_free impl_data].
  destruct (free_msg_ok own s1 (CRep i) _ _ _ H1 M2) as (p1 & own1 & E1 & Hok1 & Ho1 & _ & Hn1). mrun E1.
  destruct (free_msg_ok own1 (set_bufs p1 s1) (CReq i) h1 t1 (c_req c) Hok1) as (p2 & own2 & E2 & Hok2 & Ho2 & _ & Hn2); [eapply msg_only; [exact Ho1|unlisted|done]|].
  mrun E2. pose proof (only_app _ _ _ _ _ _ _ _ Ho1 Ho2) as Ho. destruct (Hdel p2 own2 Hic Ho) as (cps' & E3 & Hcl).
  { intros k. rewrite elem_of_app, !elem_of_cons, elem_of_nil. intros [[->|[]]|[->|[]]]; auto. }
  rewrite bind_bind, bind_some. unfold linux_on_client_pair_free, disarm_timer, free_socket, upd_socket. rewrite !bind_bind, bind_modify, bind_bind, !bind_modify.
  unfold with_cps, on_pool. cbn [set_sockets set_bufs client_pairs]. replace (client_pairs s1) with (set_objs (client_pairs s) m) by done. rewrite E3.
  eexists _, own2. split; [reflexivity|]. split; [|done].
  apply (sim_clients hand hand ([CRep i] ++ [CReq i]) own own2 s _ e); [done|done|done|done|keys|done|by eapply socks_free| |auto|].
  - intros b k Hb. rewrite elem_of_app, !elem_of_cons, elem_of_nil. intros [[->|[]]|[->|[]]]; [|by apply Hn2 in Hb]. apply (Ho2 (CRep i) b) in Hb; [by apply Hn1 in Hb|unlisted].
  - intros j Hj. destruct (decide (j = i)) as [->|Hji]; [left; split; listed|right]. apply elem_of_del_keys. done.
Qed.

(** The timer of a call is set. *)
Lemma sim_timer hand own s e i c t : sim hand own s e -> (i, c) ∈ e_calls e ->
  sim hand own (set_sockets (alter (call_timer t) (c_sock c) (sockets s)) (sock_count s) (sock_idx s) s) (set_call i (with_timer t c) e).
Proof.
  intros Hsim Hi. pose proof (calls_nodup _ _ _ _ Hsim) as Hnd. pose proof Hsim as [H1 H2 H3 H4 H5 H6 H7 H8].
  apply (sim_clients hand hand [] own own s _ e); [done|done|done|apply only_refl|by apply Forall_nil| |by apply socks_timer|by intros ? ? ? ?%elem_of_nil|auto|intros j Hj; right; by apply is_call_set].
  destruct H3 as [A1 A2 A3]. split; rewrite ?assoc_set_keys; try done. intros j c2 [[_ Hj]|(-> & -> & _)]%elem_of_set; [by apply A3|].
  destruct (A3 i c Hi) as (h1 & t1 & h2 & t2 & Ei & M). by exists h1, t1, h2, t2.
Qed.

(** ** Packets of replies *)

Lemma find_call_ok hand own s e id from : sim hand own s e -> find_in_pending_client_pairs id from s = Ok (fst <$> find_call id (port from) e, s).
Proof.
  intros Hsim. destruct (si_clients _ _ _ _ Hsim) as [H1 H2 H3]. unfold find_in_pending_client_pairs, find_call.
  rewrite (find_in_list _ _ (e_calls e) _ (fun x => (port (e_hosts e (c_sock x.2)) =? port from) && (c_id x.2 =? id))); try done.
  - intros i c Hc. destruct (H3 i c Hc) as (h1 & t1 & h2 & t2 & E & _). unfold elem_at in E. by rewrite E.
  - rewrite <- (length_fmap fst (e_calls e)). eapply keys_bound; [exact H1|apply H2|]. done.
Qed.

Lemma cp_elem hand own s e i c : sim hand own s e -> (i, c) ∈ e_calls e -> exists h1 t1 h2 t2, elem_at (client_pairs s) i = cp_rep (e_hosts e) c h1 t1 h2 t2.
Proof. intros Hsim Hc. destruct (cl_calls _ _ _ _ _ _ (si_clients _ _ _ _ Hsim) i c Hc) as (h1 & t1 & h2 & t2 & E & _). eauto. Qed.

Lemma del_set_call i c e : del_call i (set_call i c e) = del_call i e.
Proof. unfold del_call, set_call, set_calls. cbn [e_calls e_partial e_served e_rid e_hosts e_rfn e_afc]. by rewrite assoc_del_set. Qed.

Lemma set_set_call i c c' e : set_call i c' (set_call i c e) = set_call i c' e.
Proof. unfold set_call, set_calls. cbn [e_calls e_partial e_served e_rid e_hosts e_rfn e_afc]. by rewrite assoc_set_set. Qed.

Lemma spec_finish_set i c0 c e : spec_finish i c (set_call i c0 e) = spec_finish i c e.
Proof. unfold spec_finish, spec_reply_error. by rewrite del_set_call, set_set_call. Qed.

(** A call is given up with an error. *)
Lemma give_up_ok own s e i c ev : sim [] own s e -> (i, c) ∈ e_calls e -> agrees (Some (del_call i e, [ev])) s ((emit ev;; drop_client_pair i) s).
Proof.
  intros Hsim Hi. rewrite bind_emit. destruct (sim_drop_cp [] own _ e i c (sim_out _ _ _ _ (out s ++ [ev]) Hsim) Hi) as (s' & own' & E & Hs & Ho & _).
  exists s', own'. by rewrite E, Ho.
Qed.

Lemma finish_ok own s e i c : sim [] own s e -> (i, c) ∈ e_calls e -> c_rep c <> [] -> agrees (spec_finish i c e) s (finish_reply i (c_ctx c) s).
Proof.
  intros Hsim Hi Hne. destruct (cp_elem _ _ _ _ i c Hsim Hi) as (h1 & t1 & h2 & t2 & Ei). unfold finish_reply, spec_finish, cp_at. rewrite bind_gets, Ei.
  cbn [cp_rep reply_received_packets reply_expected_packets cp_timer cp_reply]. destruct (negb (c_rcv c =? c_exp c)); [by eapply give_up_ok|].
  unfold disarm_timer, upd_socket. rewrite bind_modify. pose proof (sim_timer _ _ _ _ i c 0 Hsim Hi) as Hsim2. set (s2 := set_sockets _ _ _ s) in *.
  destruct (cl_calls _ _ _ _ _ _ (si_clients _ _ _ _ Hsim) i c Hi) as (g1 & u1 & g2 & u2 & Ei' & M1 & M2 & _).
  rewrite Ei' in Ei. injection Ei as -> -> -> ->. pose proof (si_bufs _ _ _ _ Hsim) as Hok. destruct (Z.ltb_spec (Z.of_nat (length (c_rep c))) 255) as [Hl|Hl].
  - mrun (app_iovec_ok own s2 (CRep i) (mk_msg (c_from c) 0 h2 t2) (c_rep c) Hok M2 Hne Hl). eexists _, own. split; [reflexivity|]. split; [by apply sim_out|done].
  - apply bind_fails. by eapply (app_iovec_fails own s2 (CRep i)).
Qed.

Lemma set_packets_ok own s e i c exp rcv : sim [] own s e -> (i, c) ∈ e_calls e ->
  sim [] own (set_cps (upd_elem (set_cp_packets exp rcv) i (client_pairs s)) s) (set_call i (with_reply (c_rep c) exp rcv c) e).
Proof. intros Hsim Hi. by eapply (sim_upd_cp [] own s e i c). Qed.

Lemma response_msg_ok own s e i c gb d h : sim [Hand] own s e -> in_hand (buf_pool s) own gb d -> (i, c) ∈ e_calls e ->
  agrees (spec_reply i c h d e) s (handle_response_msg i gb (len d) h s).
Proof.
  intros Hsim Hh Hi. destruct (cp_elem _ _ _ _ i c Hsim Hi) as (h1 & t1 & h2 & t2 & Ei). unfold handle_response_msg, spec_reply, cp_at. rewrite bind_gets, Ei.
  cbn [cp_rep cp_ctx cp_state reply_received_packets reply_expected_packets]. rewrite bind_some. destruct (bool_decide (c_state c = R2P2_W_RESPONSE)) eqn:Est; [|done].
  rewrite bind_assert by done. destruct (sim_add_reply own s e i c gb d Hsim Hh Hi) as (s1 & s2 & own2 & E1 & E2 & Hsim2 & Hout). mrun E1. mrun E2.
  pose proof (call_in_set i c (add_reply d c) e Hi) as Hi2. unfold upd_cp.
  assert (forall exp rcv, let c' := with_reply (c_rep c ++ [d]) exp rcv c in let s3 := set_cps (upd_elem (set_cp_packets exp rcv) i (client_pairs s2)) s2 in
    sim [] own2 s3 (set_call i c' e) /\ (i, c') ∈ e_calls (set_call i c' e) /\ c_rep c' <> []) as Hset.
  { intros exp rcv c' s3. split_and!; [|by eapply call_in_set|cbn; by destruct (c_rep c)].
    pose proof (set_packets_ok own2 s2 _ i _ exp rcv Hsim2 Hi2) as H. by rewrite set_set_call in H. }
  destruct (is_first h); rewrite bind_modify.
  - destruct (Hset (p_order h) 1) as (Hs3 & Hi3 & Hne). cbv zeta. destruct (is_last h).
    + eapply agrees_out; [exact Hout|]. rewrite <- (spec_finish_set i (with_reply (c_rep c ++ [d]) (p_order h) 1 c)). refine (agrees_out _ _ _ _ _ (finish_ok own2 _ _ i _ Hs3 Hi3 Hne)); done.
    + eexists _, own2. split; [reflexivity|]. split; [done|]. by rewrite app_nil_r.
  - destruct (Hset (c_exp c) (u16 (c_rcv c + 1))) as (Hs3 & Hi3 & Hne). cbv zeta. destruct (negb (p_order h =? c_rcv c)); [|destruct (is_last h)].
    + eapply agrees_out; [exact Hout|]. unfold spec_reply_error. rewrite <- (del_set_call i (with_reply (c_rep c ++ [d]) (c_exp c) (u16 (c_rcv c + 1)) c)). refine (agrees_out _ _ _ _ _ (give_up_ok own2 _ _ i _ _ Hs3 Hi3)); done.
    + eapply agrees_out; [exact Hout|]. rewrite <- (spec_finish_set i (with_reply (c_rep c ++ [d]) (c_exp c) (u16 (c_rcv c + 1)) c)). refine (agrees_out _ _ _ _ _ (finish_ok own2 _ _ i _ Hs3 Hi3 Hne)); done.
    + eexists _, own2. split; [reflexivity|]. split; [done|]. by rewrite app_nil_r.
Qed.

Section Responses.
Context (sendto_ok : r2p2_host_tuple -> bytes -> bool) (Hsend : forall h d, sendto_ok h d = true).

(** The rest of the request is sent when the server has taken its first packet. *)
Lemma ack_ok own s e i c gb d : sim [Hand] own s e -> in_hand (buf_pool s) own gb d -> (i, c) ∈ e_calls e ->
  agrees (spec_ack i c (len d) e) s (handle_ack sendto_ok i gb (len d) s).
Proof using Hsend.
  intros Hsim Hh Hi. destruct (cp_elem _ _ _ _ i c Hsim Hi) as (h1 & t1 & h2 & t2 & Ei). unfold handle_ack, spec_ack, cp_at. rewrite bind_gets, Ei.
  cbn [cp_rep cp_state cp_request cp_reply head_buffer sender impl_data]. destruct (bool_decide (c_state c = R2P2_W_ACK)) eqn:Est; [|done].
  rewrite bind_assert by done. change (SIZEOF_HEADER + 3) with 11. cbn [andb]. destruct (len d =? 11); [|done]. rewrite bind_assert by done.
  destruct (free_hand_ok own s e gb d Hsim Hh) as (s1 & own1 & E1 & Hsim1 & Ho1 & Hc1). mrun E1.
  destruct (cl_calls _ _ _ _ _ _ (si_clients _ _ _ _ Hsim1) i c Hi) as (g1 & u1 & g2 & u2 & Ei' & M1 & M2 & Hne).
  pose proof (si_bufs _ _ _ _ Hsim1) as Hok. pose proof (msg_length _ _ _ _ _ _ Hok M1) as Hlen. destruct M1 as (ps & Hsg & _).
  assert (g1 = h1) as ->; [rewrite Hc1, Ei in Ei'; by injection Ei'|]. destruct (c_req c) as [|d0 ds] eqn:Ereq; [done|]. destruct ps as [|b ps]; [done|].
  destruct Hsg as [-> (n & [_ Hnx _ _] & Hsg)]. rewrite bind_some. unfold get_buffer_next. rewrite bind_gets, Hnx.
  assert (length ps <= CHAIN)%nat as Hlen' by (rewrite (seg_length _ _ _ _ _ Hsg); cbn in Hlen; unfold CHAIN; lia).
  mrun (send_seg sendto_ok Hsend CHAIN n ps ds (c_from c) (Some (c_sock c)) s1 Hsg (bo_room _ _ Hok) Hlen').
  eexists _, own1. split; [reflexivity|]. split; [|cbn; by rewrite Ho1]. eapply (sim_upd_cp [] own1 _ e i c); try done. by apply sim_out.
Qed.

Lemma spec_reply_set i c0 c h d e : spec_reply i c h d (set_call i c0 e) = spec_reply i c h d e.
Proof using. unfold spec_reply, spec_reply_error. by rewrite !spec_finish_set, !del_set_call, !set_set_call. Qed.

Lemma spec_ack_set i c0 c n e : spec_ack i c n (set_call i c0 e) = spec_ack i c n e.
Proof using. unfold spec_ack. by rewrite !set_set_call. Qed.

Lemma handle_response_ok own s e gb d h source local : sim [Hand] own s e -> 8 <= len d -> in_hand (buf_pool s) own gb (stored h d) ->
  agrees (spec_response h d source local e) s (handle_response sendto_ok gb (len d) h source local s).
Proof using Hsend.
  intros Hsim Hd Hh. unfold handle_response, spec_response. mrun (find_call_ok _ _ _ _ (h_rid h) local Hsim).
  destruct (find_call (h_rid h) (port local) e) as [[i c]|] eqn:Ef; cbn [fmap option_fmap option_map fst].
  2:{ destruct (free_hand_ok own s e gb (stored h d) Hsim Hh) as (s' & own' & E & Hs & Ho & _). exists s', own'. by rewrite app_nil_r. }
  apply list_find_elem in Ef as [Hi _]. unfold upd_cp. rewrite bind_modify. set (from := mk_host (swap32 (ip source)) (swap16 (port source))). set (f := fun p : r2p2_client_pair => _).
  pose proof (sim_upd_cp _ _ _ _ i c (with_from from c) f Hsim Hi (fun _ _ _ _ => eq_refl) eq_refl eq_refl eq_refl eq_refl) as Hsim1. set (s1 := set_cps _ s) in *.
  pose proof (call_in_set i c (with_from from c) e Hi) as Hi1. cbv zeta. set (c1 := with_from from c) in *.
  destruct (get_msg_type h =? RAFT_REP); [done|]. destruct (get_msg_type h =? RESPONSE_MSG).
  { rewrite <- (spec_reply_set i c1). rewrite <- (stored_length h d) by done. refine (agrees_out _ _ s1 _ _ _); [done|]. by eapply response_msg_ok. }
  destruct (get_msg_type h =? ACK_MSG).
  { rewrite <- (spec_ack_set i c1). rewrite <- (stored_length h d) by done. refine (agrees_out _ _ s1 _ _ _); [done|]. by eapply ack_ok. }
  destruct (get_msg_type h =? DROP_MSG); [|done].
  destruct (cp_elem _ _ _ _ i c1 Hsim1 Hi1) as (h1 & t1 & h2 & t2 & Ei). unfold handle_drop_msg, cp_at. rewrite !bind_bind, bind_gets, Ei. cbn [cp_rep cp_ctx].
  rewrite bind_bind, bind_some, bind_bind, bind_emit.
  destruct (sim_drop_cp [Hand] own _ _ i c1 (sim_out _ _ _ _ (out s1 ++ [ErrorCb (ctx_arg (c_ctx c1)) (- ERR_DROP_MSG)]) Hsim1) Hi1) as (s2 & own2 & E2 & Hsim2 & Ho2 & On2).
  mrun E2. rewrite del_set_call in Hsim2. destruct (free_hand_ok own2 s2 _ gb (stored h d) Hsim2) as (s3 & own3 & E3 & Hsim3 & Ho3 & _).
  { eapply in_hand_only; [exact On2|unlisted|done]. }
  exists s3, own3. split_and!; try done. by rewrite Ho3, Ho2.
Qed.

(** ** Datagrams *)

Lemma take_room d : len d <= PAYLOAD_ROOM -> take (Z.to_nat BUFLEN) d = d.
Proof using. unfold len, PAYLOAD_ROOM, BUFLEN. intros H. apply take_ge. lia. Qed.

Lemma header_short d : len d < 8 -> header_of d = None.
Proof using. unfold len. intros H. do 8 (destruct d as [|? d]; [done|]). cbn in H. lia. Qed.

Lemma get_hand_ok own s e : sim [] own s e -> p_count (buf_pool s) < BUFPOOL_SIZE ->
  exists gb p' own', get_buffer s = Ok (gb, set_bufs p' s) /\ sim [Hand] own' (set_bufs p' s) e /\ (forall b, own' b = Some Hand <-> b = gb) /\
    b_next (elem_at p' gb) = None /\ p_count p' = p_count (buf_pool s) + 1.
Proof using.
  intros Hsim Hc. pose proof Hsim as [H1 H2 _ _ _ _ _ _]. destruct (get_buffer_ok Hand own s H1 Hc) as (gb & p' & E & Hn & Hok & Ho & Hcn & _ & _ & Hnx).
  exists gb, p', (<[gb := Some Hand]> own). split_and!; try done.
  - eapply (sim_bufs [] [Hand] [Hand]); [done|done|exact Ho|keys|keys|intros b k _ ->%list_elem_of_singleton; by left|by intros k ?%elem_of_nil].
  - intros b. destruct (decide (b = gb)) as [->|Hne]; [by rewrite fn_lookup_insert|]. rewrite fn_lookup_insert_ne by done. split; [|done].
    intros Hb. apply H2 in Hb as [Hb|Hb]; [by apply elem_of_nil in Hb|done].
Qed.

(** A change of the packet in the hand. *)
Lemma sim_hand own s e p' : sim [Hand] own s e -> bufs_ok p' own -> only [Hand] (buf_pool s) own p' own -> sim [Hand] own (set_bufs p' s) e.
Proof using. intros Hsim Hok Ho. eapply (sim_bufs [Hand] [Hand] [Hand]); [done|done|exact Ho|keys|keys|done|auto]. Qed.

Lemma poll_recv_ok own s e sock source d : sim [] own s e -> len d <= PAYLOAD_ROOM -> p_count (buf_pool s) + 2 <= BUFPOOL_SIZE -> p_count (server_pairs s) < POOL_SIZE ->
  exists i, ~ is_request e i /\ agrees (spec_recv i sock source d e) s (poll_recv sendto_ok sock source (Some d) s).
Proof using Hsend.
  intros Hsim Hl Hc Hcs. destruct (get_hand_ok own s e Hsim) as (gb & p1 & own1 & E1 & Hsim1 & Hg & Hn1 & Hc1); [lia|]. unfold poll_recv. mrun E1. rewrite take_room by done.
  pose proof (si_bufs _ _ _ _ Hsim1) as Hok1. destruct (Z.lt_ge_cases (len d) 8) as [Hs|Hd].
  - destruct (sim_new_sp _ _ _ _ Hsim) as (i & _ & _ & Hi & _); [by intros ? ?%elem_of_nil|done|]. exists i. split; [done|]. unfold spec_recv. rewrite header_short by done.
    destruct (buf_write_ok (set_bufs p1 s) gb 0 d (bo_room _ _ Hok1 gb)) as (f & E & _); [done|unfold len in *; lia|]. mrun E. rewrite bind_gets.
    unfold handle_incoming_pck, mbind, M_bind, assert. assert ((SIZEOF_HEADER <=? len d) = false) as -> by (by apply Z.leb_gt). done.
  - destruct (hand_write_ok (set_bufs p1 s) own1 gb d Hok1 Hg Hn1) as (p2 & E2 & Hok2 & Ho2 & Hc2 & Hh2); [unfold SIZEOF_HEADER; lia|]. mrun E2. rewrite bind_gets.
    pose proof (sim_hand _ _ _ _ Hsim1 Hok2 Ho2) as Hsim2. destruct (header_of_app d Hd) as [_ [h0 Hh0]]. unfold spec_recv. rewrite Hh0. cbn [fmap option_fmap option_map mbind option_bind].
    unfold handle_incoming_pck. rewrite bind_assert by (apply Z.leb_le; done). mrun (hand_read_ok (set_bufs p2 (set_bufs p1 s)) own1 gb d h0 Hok2 Hh2 Hh0). cbv zeta.
    change (mk_header (magic h0) (header_size h0) (type_policy h0) (flags h0) (swap16 (h_rid h0)) (swap16 (p_order h0))) with (host_header h0). set (h := host_header h0).
    destruct (hand_header_ok (set_bufs p2 (set_bufs p1 s)) own1 gb d h Hok2 Hh2) as (p3 & E3 & Hok3 & Ho3 & Hc3 & Hh3). mrun E3. pose proof (sim_hand _ _ _ _ Hsim2 Hok3 Ho3) as Hsim3.
    set (s3 := set_bufs p3 _) in *. destruct (sim_new_sp _ _ _ _ Hsim) as (i0 & _ & _ & Hi0 & _); [by intros ? ?%elem_of_nil|done|].
    destruct (is_raft_single_msg h); [by exists i0|]. destruct (is_response h).
    + exists i0. split; [done|]. refine (agrees_out _ _ s3 _ _ _); [done|]. destruct sock as [n|]; [|by eapply handle_response_ok].
      assert (local_host (sockets s n) = e_hosts e n) as <- by apply Hsim. by eapply handle_response_ok.
    + destruct (handle_request_ok sendto_ok Hsend own1 s3 e gb d h source Hsim3 Hd Hh3) as (i & Hi & Ha); [unfold s3; cbn; rewrite Hc3; cbn; rewrite Hc2; cbn; lia|done|apply swap16_range|].
      by exists i.
Qed.
End Responses.
