(* ===== verification/R2p2Props.v ===== *)
(** * R2P2 endpoints: the code implements its specification

    What the application and the timers do, what is in use, and the theorems on all reachable states of an endpoint. *)

From stdpp Require Import functions.
From S2P Require Import Prelude MapDef OfpBuf OfpMsgs Mempool R2p2 R2p2Bufs R2p2Spec.
From S2P Require Import R2p2Server R2p2Client.

(** ** What the application and the timers do *)

Implicit Types (own : owner) (k : key) (s : r2p2) (e : endpoint) (c : call).
#[local] Arguments header_bytes : simpl never.

(** ** Timers *)

(** The timer of a free socket does not matter. *)
Lemma socks_timer_free m count idx hosts calls n t : socks_ok m count idx hosts calls -> s_taken (m n) = 0 -> socks_ok (alter (call_timer t) n m) count idx hosts calls.
Proof.
  intros [H1 H2 H3 H4] Hn.
  assert (forall x, s_taken (alter (call_timer t) n m x) = s_taken (m x) /\ local_host (alter (call_timer t) n m x) = local_host (m x)) as He.
  { intros x. destruct (decide (n = x)) as [->|Hne]; [by rewrite fn_lookup_alter|by rewrite fn_lookup_alter_ne]. }
  split.
  - apply (wf_pool_agree (sock_pool m count idx)); [done|]. intros x. unfold used. cbn. by rewrite (proj1 (He x)).
  - intros x. by rewrite (proj2 (He x)).
  - intros x Hx. rewrite (proj1 (He x)). by apply H3.
  - intros i c Hc. destruct (H4 i c Hc) as [Hr E]. rewrite fn_lookup_alter_ne; [done|]. intros ->. by rewrite E in Hn.
Qed.

Lemma timer_ok own s e n : sim [] own s e -> 0 <= n < SOCKPOOL_SIZE -> agrees (spec_timer n e) s (handle_timer_for_socket n s).
Proof.
  intros Hsim Hn. unfold handle_timer_for_socket, disarm_timer, upd_socket, spec_timer. rewrite bind_modify, bind_gets. cbn [set_sockets sockets]. rewrite fn_lookup_alter. cbn [s_taken s_cp].
  pose proof (si_socks _ _ _ _ Hsim) as Hso. destruct (Z.eqb_spec (s_taken (sockets s n)) 0) as [Ht|Ht].
  - assert (list_find (fun x => c_sock x.2 = n) (e_calls e) = None) as ->.
    { apply list_find_None, Forall_forall. intros [i c] Hi E. cbn in E. subst n. destruct (so_call _ _ _ _ _ Hso i c Hi) as [_ E]. by rewrite E in Ht. }
    eexists _, own. split; [reflexivity|]. split; [|by rewrite app_nil_r]. destruct Hsim as [H1 H2 H3 H4 H5 H6 H7 H8]. split; try done. by apply socks_timer_free.
  - destruct (so_used _ _ _ _ _ Hso n Hn Ht) as (i & c & Hi & En).
    destruct (list_find (fun x => c_sock x.2 = n) (e_calls e)) as [[j [i' c']]|] eqn:Ef.
    2:{ apply list_find_None in Ef. rewrite Forall_forall in Ef. by apply (Ef (i, c)) in Hi. }
    apply list_find_Some in Ef as (Hj & En' & _). apply list_elem_of_lookup_2 in Hj. cbn in En'. assert (i' = i) as -> by (eapply socket_unique; [done..|congruence]).
    assert (c' = c) as -> by (eapply assoc_unique; [by eapply calls_nodup|done..]). cbn [fmap option_fmap option_map snd]. subst n.
    destruct (so_call _ _ _ _ _ Hso i c Hi) as [_ Es]. rewrite Es. cbn [s_cp]. rewrite bind_some. unfold timer_triggered. rewrite bind_gets. cbn [set_sockets client_pairs].
    assert (fo_taken (p_objs (client_pairs s) i) <> 0) as Hu.
    { apply (tr_used _ _ (cl_pool _ _ _ _ _ _ (si_clients _ _ _ _ Hsim)) i). by eapply is_call_in. }
    rewrite (proj2 (Z.eqb_neq _ _) Hu). destruct (cp_elem _ _ _ _ i c Hsim Hi) as (h1 & t1 & h2 & t2 & Ei). unfold cp_at. rewrite bind_gets. cbn [set_sockets client_pairs]. rewrite Ei.
    cbn [cp_rep cp_ctx]. rewrite bind_some. rewrite <- (del_set_call i (with_timer 0 c)). refine (agrees_out _ _ _ _ _ (give_up_ok own _ _ i _ _ (sim_timer _ _ _ _ i c 0 Hsim Hi) _)); [done|].
    by eapply call_in_set.
Qed.

(** ** Replies *)

Lemma read_holds_ok s own b d nx h : bufs_ok (buf_pool s) own -> holds (buf_pool s) b d nx -> header_of d = Some h -> read_header b s = Ok (h, s).
Proof.
  intros Hok [H1 H2 H3 H4] Hh. pose proof (bo_room _ _ Hok b) as Hr. unfold read_header, mbind, M_bind.
  rewrite buf_read_ok by (done || unfold SIZEOF_HEADER, PAYLOAD_ROOM, BUFLEN; lia). rewrite drop_0. change (Z.to_nat SIZEOF_HEADER) with 8%nat.
  assert (take 8 (b_payload (elem_at (buf_pool s) b)) = take 8 d) as ->.
  { rewrite <- H3, take_take. unfold len, SIZEOF_HEADER in *. by replace (8 `min` length d)%nat with 8%nat by lia. }
  destruct (header_of_app d) as [E _]; [unfold SIZEOF_HEADER in *; lia|]. rewrite <- E, Hh. done.
Qed.

Lemma fragments_nonempty small iov : iov <> [] -> Forall part_ok iov -> length (fragments small (concat iov)) = 0%nat -> False.
Proof.
  intros Hi Hp H. destruct small; [done|]. cbn in H. destruct iov as [|v iov]; [done|]. apply Forall_cons in Hp as [[Hv _] _]. rewrite chunks_step in H; [done|]. cbn. by destruct v.
Qed.

Section Api.
Context (sendto_ok : r2p2_host_tuple -> bytes -> bool) (Hsend : forall h d, sendto_ok h d = true).

Lemma send_response_ok own s e i q iov : sim [] own s e -> e_served e !! i = Some q -> in_u 16 (q_id q) -> q_pkts q <> [] -> iov_ok iov ->
  p_count (buf_pool s) + Z.of_nat (length (fragments false (concat iov))) <= BUFPOOL_SIZE ->
  agrees (spec_send_response i iov e) s (r2p2_send_response sendto_ok i iov s).
Proof using Hsend.
  intros Hsim Hq Hid Hne [Hi Hp] Hc. pose proof Hsim as [H1 H2 H3 H4 H5 H6 H7 H8]. destruct (sv_requests _ _ _ _ _ _ H4 i q) as (hd & tl & Ei & Hm); [by right|].
  unfold r2p2_send_response, spec_send_response, sp_at. rewrite bind_gets, Ei, Hq. cbn [mbind option_bind sp_rep sp_request sp_reply head_buffer req_id sender].
  pose proof Hm as (ps & Hsg & _ & _ & _). destruct (q_pkts q) as [|d ds] eqn:Eq; [done|]. destruct ps as [|b ps]; [done|]. destruct Hsg as [-> (n & Hh & _)]. cbn [head]. rewrite bind_some.
  destruct (header_of_app d) as [_ [h Hhd]]; [apply Hh|]. cbn [mbind option_bind]. rewrite Hhd. mrun (read_holds_ok s own b d n h H1 Hh Hhd). cbn [mbind option_bind]. destruct (is_replicated_req h); [done|].
  assert (forall b, own b <> Some (SRep i)) as Hno by (intros x Hx; apply H2 in Hx as [Hx|Hx]; [by apply elem_of_nil in Hx|done]).
  assert (is_small RESPONSE_MSG iov = false) as Hsm by (unfold is_small; apply andb_false_r).
  destruct (prepare_msg_ok RESPONSE_MSG FIXED_ROUTE (q_id q) (SRep i) s own zero_msg iov H1 Hno) as (p1 & own1 & m & E1 & Hok1 & Ho1 & _ & Hm1 & _); try done.
  { by rewrite Hsm. }
  rewrite Hsm in Hm1. mrun E1. unfold upd_sp. rewrite bind_modify. set (s1 := set_sps _ (set_bufs p1 s)).
  mrun (send_msg_ok sendto_ok Hsend own1 s1 (SRep i) _ _ _ (q_from q) None Hok1 Hm1). set (s2 := set_out _ s1).
  assert (msg_at p1 own1 (SReq i) (Some b) tl (d :: ds)) as Hm' by (eapply msg_only; [exact Ho1|unlisted|done]). rewrite <- Eq in Hm'.
  assert (Ei2 : elem_at (server_pairs s2) i = mk_sp (mk_msg (q_from q) (q_id q) (Some b) tl) m (q_exp q) (q_rcv q)).
  { unfold s2, s1. cbn [set_out set_sps server_pairs set_bufs]. by rewrite elem_upd, Ei. }
  edestruct (free_sp_ok [] own s s2 own1 e i q) as (s' & own' & E & Hs & Ho & _); [done|done|done|exact Hok1|exact Ho1|done| | |exact Ei2|exact Hm'|exact Hm1|..].
  - apply tracks_upd, H4.
  - intros j Hj. unfold s2, s1. cbn. by rewrite fn_lookup_alter_ne by congruence.
  - apply not_elem_of_nil.
  - exists s', own'. by split_and!.
Qed.

(** ** Requests *)

(** Only the first packet is sent at first; the chain is as before then. *)
Lemma send_first_ok own s k hd tl d ds dest sock : bufs_ok (buf_pool s) own -> msg_at (buf_pool s) own k hd tl (d :: ds) ->
  exists p', (x ← lift_opt hd; second ← get_buffer_next x; chain_buffers x None;; buf_list_send sendto_ok hd dest sock;; chain_buffers x second) s =
    Ok (tt, set_out (out s ++ [Datagram sock dest d]) (set_bufs p' s)) /\ bufs_ok p' own /\ only [k] (buf_pool s) own p' own /\ msg_at p' own k hd tl (d :: ds).
Proof using Hsend.
  intros Hok (ps & Hs & Ht & Hn & Hps). destruct ps as [|b ps]; [done|]. destruct Hs as [-> (n & Hh & Hs)]. pose proof Hh as [A1 A2 A3 A4].
  assert (own b = Some k) as Hb by (apply Hps; by left). rewrite bind_some. unfold get_buffer_next. rewrite bind_gets, A2. 
  mrun (eq_refl : chain_buffers b None s = Ok (tt, set_bufs (upd_elem (next_is None) b (buf_pool s)) s)).
  destruct (upd_buf_ok _ own (next_is None) b k Hok Hb) as [Hok1 Ho1]; [done|].
  set (s1 := set_bufs _ s). assert (seg (buf_pool s1) (Some b) [b] [d] None) as Hs1.
  { cbn. split; [done|]. exists None. split; [|done]. split; unfold s1; cbn [set_bufs buf_pool]; rewrite ?elem_upd; done. }
  mrun (send_seg sendto_ok Hsend CHAIN (Some b) [b] [d] dest sock s1 Hs1 (bo_room _ _ Hok1) ltac:(unfold CHAIN, BUFPOOL_SIZE; cbn; lia)).
  destruct (upd_buf_ok _ own (next_is n) b k Hok1 Hb) as [Hok2 Ho2]; [done|]. set (p2 := upd_elem (next_is n) b _) in *. exists p2. split_and!; [reflexivity|done|by eapply only_trans|].
  assert (forall x, elem_at p2 x = elem_at (buf_pool s) x) as He.
  { intros x. unfold p2. destruct (decide (b = x)) as [<-|Hne]; [|by rewrite !elem_upd_ne]. rewrite !elem_upd. destruct (elem_at (buf_pool s) b). cbn in *. by subst. }
  exists (b :: ps). split_and!; try done. split; [done|]. exists n. split; [eapply holds_agree; [apply He|done]|eapply seg_agree; [|done]; by intros x _].
Qed.

(** A socket for a new call. *)
Lemma alloc_loop_index fuel (k : Z) idx m i idx' : 0 <= k < 32 -> alloc_loop (A := unit) fuel (2 ^ k) idx m = Some (i, idx') -> i = (u32 (idx' - 1)) mod 2 ^ k.
Proof using.
  intros Hk. revert idx. induction fuel as [|fuel IH]; intros idx; [done|]. cbn [alloc_loop]. rewrite mask_mod by done. destruct (_ =? 0); [|apply IH].
  intros [= <- <-]. rewrite wrap_mod by done. rewrite <- Zminus_mod_idemp_l, wrap_mod, Zminus_mod_idemp_l by done. f_equal. lia.
Qed.

Definition take_socket (k : r2p2_socket) : r2p2_socket := mk_socket (local_host k) 1 (s_cp k) (s_timer k).

Lemma get_socket_ok s hosts calls : socks_ok (sockets s) (sock_count s) (sock_idx s) hosts calls ->
  (SOCKPOOL_SIZE <= sock_count s /\ get_socket s = Ok (None, s) /\ forall n, 0 <= n < SOCKPOOL_SIZE -> exists i c, (i, c) ∈ calls /\ c_sock c = n) \/
  (exists n idx', get_socket s = Ok (Some n, set_sockets (alter take_socket n (sockets s)) (u32 (sock_count s + 1)) idx' s) /\ 0 <= n < SOCKPOOL_SIZE /\
    s_taken (sockets s n) = 0 /\ wf_pool (sock_pool (alter take_socket n (sockets s)) (u32 (sock_count s + 1)) idx')).
Proof using.
  intros [H1 H2 H3 H4]. unfold get_socket. destruct (Z.leb_spec SOCKPOOL_SIZE (sock_count s)) as [Hc|Hc].
  - left. split_and!; try done. intros n Hn. apply H3; [done|]. apply (wf_pool_full _ H1 Hc n Hn).
  - right. destruct (alloc_object_ok _ H1 Hc) as (n & p' & E & Hw & Hn & Hf & _ & _ & Ho). unfold alloc_object in E. cbn [sock_pool p_size p_count p_idx p_objs] in E.
    rewrite (proj2 (Z.leb_gt _ _) Hc) in E. rewrite socket_loop_alloc. destruct (alloc_loop _ _ _ _) as [[i idx']|] eqn:El; [|done]. cbn [fmap option_fmap option_map snd].
    injection E as <- <-. assert (0 <= 7 < 32) as H7 by lia. assert (i = Z.land (u32 (idx' - 1)) (SOCKPOOL_SIZE - 1)) as <-.
    { rewrite (alloc_loop_index _ 7 _ _ _ _ H7 El). symmetry. exact (mask_mod 7 _ H7). }
    exists i, idx'. split; [done|]. split; [exact Hn|]. split; [apply dec_stable; exact Hf|]. refine (wf_pool_agree _ _ Hw _). intros j. unfold used. cbn.
    destruct (decide (i = j)) as [->|Hne]; [by rewrite fn_lookup_insert, fn_lookup_alter|by rewrite fn_lookup_insert_ne, fn_lookup_alter_ne].
Qed.

(** The pair of a call that has a socket and no messages yet. *)
Definition armed (host : r2p2_host_tuple) (ctx : r2p2_ctx) (n : Z) : r2p2_client_pair :=
  mk_cp (mk_msg host 0 None None) zero_msg 0 0 (Some ctx) R2P2_W_ACK (Some n) (Some n) true.
Definition arm (i t : Z) (k : r2p2_socket) : r2p2_socket := mk_socket (local_host k) 1 (Some i) t.

Lemma prepare_to_send_ok s hosts calls i ctx : socks_ok (sockets s) (sock_count s) (sock_idx s) hosts calls -> elem_at (client_pairs s) i = set_cp_ctx ctx zero_cp ->
  (prepare_to_send i s = Ok (false, set_out (out s ++ [ErrorCb (ctx_arg ctx) (- ERR_NO_SOCKET)]) s) /\
    forall n, 0 <= n < SOCKPOOL_SIZE -> exists i c, (i, c) ∈ calls /\ c_sock c = n) \/
  (exists n, 0 <= n < SOCKPOOL_SIZE /\ s_taken (sockets s n) = 0 /\
    if 0 <=? timeout ctx then
      exists f m' idx', prepare_to_send i s = Ok (true, set_cps (upd_elem f i (client_pairs s)) (set_sockets m' (u32 (sock_count s + 1)) idx' s)) /\
        f (elem_at (client_pairs s) i) = armed (hosts n) ctx n /\ wf_pool (sock_pool m' (u32 (sock_count s + 1)) idx') /\
        (forall x, x <> n -> m' x = sockets s x) /\ m' n = mk_socket (hosts n) 1 (Some i) (timeout ctx)
    else prepare_to_send i s = Err AssertFails).
Proof using.
  intros Hso Ei. unfold prepare_to_send, cp_at. rewrite bind_gets, Ei. cbn [set_cp_ctx cp_ctx]. rewrite bind_some.
  destruct (get_socket_ok s hosts calls Hso) as [(_ & E & Hall)|(n & idx' & E & Hn & Hf & Hw)]; [left; split; [|done]; mrun E; reflexivity|].
  right. exists n. split; [done|]. split; [done|]. mrun E. unfold upd_socket. rewrite bind_modify. destruct (0 <=? timeout ctx); [|done]. rewrite bind_assert by done. rewrite bind_modify, bind_gets.
  cbn [set_sockets sockets sock_count sock_idx]. set (m' := alter _ n (alter _ n (alter _ n _))).
  assert (forall x, x <> n -> m' x = sockets s x) as Hne by (intros x Hx; unfold m'; by rewrite !fn_lookup_alter_ne by congruence).
  assert (m' n = mk_socket (hosts n) 1 (Some i) (timeout ctx)) as Hm by (unfold m'; rewrite !fn_lookup_alter; cbn; by rewrite (so_host _ _ _ _ _ Hso)).
  eexists _, m', idx'. split; [reflexivity|]. split; [cbv beta; rewrite Hm; done|]. split; [|done]. refine (wf_pool_agree _ _ Hw _). intros x. unfold used. cbn.
  destruct (decide (n = x)) as [<-|Hx]; [by rewrite Hm, fn_lookup_alter|by rewrite Hne, fn_lookup_alter_ne].
Qed.

Lemma alloc_cp_ok own s e : sim [] own s e -> p_count (client_pairs s) < POOL_SIZE ->
  exists i p', alloc_client_pair s = Ok (i, set_cps p' s) /\ ~ is_call e i /\ tracks p' (fun j => is_call e j \/ j = i) /\
    (forall j, j <> i -> p_objs p' j = p_objs (client_pairs s) j) /\ elem_at p' i = zero_cp.
Proof using.
  intros Hsim Hc. destruct (tracks_alloc _ _ (cl_pool _ _ _ _ _ _ (si_clients _ _ _ _ Hsim)) Hc) as (i & p' & E & Hi & Ht & _ & Hne & _).
  exists i, (upd_elem (fun _ => zero_cp) i p'). split_and!; [|done|by apply tracks_upd| |by rewrite elem_upd].
  - unfold alloc_client_pair, with_cps, on_pool, mbind, M_bind. by rewrite E.
  - intros j Hj. unfold upd_elem. cbn. rewrite fn_lookup_alter_ne by congruence. by apply Hne.
Qed.

Lemma no_socket_ok own s e i p1 ctx : sim [] own s e -> ~ is_call e i -> tracks p1 (fun j => is_call e j \/ j = i) ->
  (forall j, j <> i -> p_objs p1 j = p_objs (client_pairs s) j) -> elem_at p1 i = set_cp_ctx ctx zero_cp ->
  exists s', free_client_pair i (set_cps p1 s) = Ok (tt, s') /\ sim [] own s' e /\ out s' = out s.
Proof using.
  intros Hsim Hi Ht Hne Ei. pose proof Hsim as [H1 H2 H3 H4 H5 H6 H7 H8]. unfold free_client_pair, cp_at. rewrite bind_gets. cbn [set_cps client_pairs]. rewrite Ei.
  cbn [set_cp_ctx cp_request cp_reply zero_cp zero_msg head_buffer on_free]. mrun (eq_refl : free_chain CHAIN None (set_cps p1 s) = Ok (tt, set_cps p1 s)).
  mrun (eq_refl : free_chain CHAIN None (set_cps p1 s) = Ok (tt, set_cps p1 s)). rewrite bind_ret. destruct (clients_refree _ _ _ _ _ _ H3 p1 i Hi Ht Hne) as (cps' & E & Hcl).
  unfold with_cps, on_pool. cbn [set_cps client_pairs]. rewrite E. eexists. split; [reflexivity|]. split; [|done]. by split.
Qed.

(** A message is one packet if its first and its last buffer are the same. *)
Lemma head_tail p own k hd tl ds : msg_at p own k hd tl ds -> ds <> [] -> bool_decide (hd = tl) = bool_decide (length ds = 1%nat).
Proof using.
  intros (ps & Hs & -> & Hn & _) Hds. pose proof (seg_length _ _ _ _ _ Hs) as Hl. destruct ps as [|b ps]; [by destruct ds|]. assert (hd = Some b) as -> by (destruct ds; [done|apply Hs]).
  apply bool_decide_ext. rewrite <- Hl. destruct ps as [|b' ps] using rev_ind; [done|]. rewrite app_comm_cons, last_snoc. cbn. rewrite length_app. cbn. split; [|lia].
  intros [= ->]. exfalso. apply NoDup_cons in Hn as [Hn _]. apply Hn, elem_of_app. right. by left.
Qed.

Lemma send_req_ok own s e iov ctx : sim [] own s e -> iov_ok iov -> p_count (client_pairs s) < POOL_SIZE ->
  p_count (buf_pool s) + Z.of_nat (length (fragments (is_small REQUEST_MSG iov) (concat iov))) <= BUFPOOL_SIZE ->
  exists i n, ~ is_call e i /\ match n with Some n => 0 <= n < SOCKPOOL_SIZE /\ forall j c, (j, c) ∈ e_calls e -> c_sock c <> n | None => forall n, 0 <= n < SOCKPOOL_SIZE -> exists j c, (j, c) ∈ e_calls e /\ c_sock c = n end /\
    agrees (spec_send_req i n iov ctx e) s (r2p2_send_req sendto_ok iov ctx s).
Proof using Hsend.
  intros Hsim [Hiov Hp] Hcc Hc. pose proof Hsim as [H1 H2 H3 H4 H5 H6 H7 H8]. destruct (alloc_cp_ok own s e Hsim Hcc) as (i & p0 & E0 & Hi & Ht0 & Hne0 & Ei0).
  unfold r2p2_send_req. mrun E0. rewrite bind_upd_cp. cbn [set_cps client_pairs]. set (p1 := upd_elem (set_cp_ctx ctx) i p0).
  assert (tracks p1 (fun j => is_call e j \/ j = i)) as Ht1 by (by apply tracks_upd). assert (elem_at p1 i = set_cp_ctx ctx zero_cp) as Ei1 by (unfold p1; by rewrite elem_upd, Ei0).
  assert (forall j, j <> i -> p_objs p1 j = p_objs (client_pairs s) j) as Hne1 by (intros j Hj; unfold p1, upd_elem; cbn; rewrite fn_lookup_alter_ne by congruence; by apply Hne0).
  set (s1 := set_cps p1 (set_cps p0 s)). exists i.
  destruct (prepare_to_send_ok s1 (e_hosts e) (e_calls e) i ctx H5 Ei1) as [[E Hall]|(n & Hn & Hfree & Hprep)].
  { exists None. split_and!; try done. mrun E. cbn [negb spec_send_req].
    destruct (no_socket_ok own (set_out (out s ++ [ErrorCb (ctx_arg ctx) (- ERR_NO_SOCKET)]) s) e i p1 ctx) as (s' & E' & Hs & Ho); [by apply sim_out|done..|]. by exists s', own. }
  exists (Some n). split; [done|]. split; [split; [done|]; intros j c Hj <-; destruct (so_call _ _ _ _ _ H5 j c Hj) as [_ E]; change (sockets s1) with (sockets s) in Hfree; by rewrite E in Hfree|].
  cbn [spec_send_req]. destruct (0 <=? timeout ctx); [|cbn [agrees]; by apply bind_fails]. destruct Hprep as (f & m' & idx' & E & Ef & Hw & Hmn & Hm). mrun E. cbn [negb].
  rewrite bind_modify, bind_gets. cbn [set_rid rid set_cps set_sockets]. unfold cp_at. rewrite bind_gets. cbn [set_rid set_cps client_pairs].
  replace (rid s1) with (e_rid e) by done. set (id := u16 (e_rid e + 1)). change (client_pairs s1) with p1. rewrite elem_upd. change (elem_at (client_pairs s1) i) with (elem_at p1 i) in Ef. rewrite Ef.
  set (p2 := upd_elem f i p1). set (s2 := set_rid id _). cbn [armed cp_request impl_data].
  assert (forall b, own b <> Some (CReq i)) as Hno by (intros b Hb; apply H2 in Hb as [Hb|Hb]; [by apply elem_of_nil in Hb|done]).
  assert (forall b, own b <> Some (CRep i)) as Hno2 by (intros b Hb; apply H2 in Hb as [Hb|Hb]; [by apply elem_of_nil in Hb|done]).
  destruct (prepare_msg_ok REQUEST_MSG (routing_policy ctx) id (CReq i) s2 own (mk_msg (e_hosts e n) 0 None None) iov H1 Hno) as (p3 & own3 & m & E3 & Hok3 & Ho3 & _ & Hm3 & Hsd & Hrq); try done.
  set (ds := packets _ _ _ _) in *. mrun E3. rewrite bind_upd_cp. unfold add_to_pending_client_pairs, on_cp_list. rewrite bind_modify. cbn [set_cps client_pairs set_bufs pending_client_pairs].
  change (client_pairs s2) with p2. change (pending_client_pairs s2) with (pending_client_pairs s). set (p4 := upd_elem (set_cp_request m) i p2).
  assert (ds <> []) as Hds by (unfold ds; intros E'; apply (f_equal length) in E'; rewrite length_packets in E'; by eapply fragments_nonempty).
  rewrite (head_tail _ _ _ _ _ _ Hm3 Hds). set (st := if bool_decide (length ds = 1%nat) then _ else _). set (c := mk_call ctx n (timeout ctx) st id ds [] 0 0 zero_host).
  pose proof (fun p' own' => clients_add _ _ _ _ _ _ H3 p4 i (set_cp_state st) c [CReq i] p' own') as Hadd. cbv zeta in Hadd.
  destruct (add_to_list (pending_client_pairs s) i (p_objs p4)) as [l5 m5]. cbn [fst snd] in Hadd. rewrite bind_upd_cp. set (s5 := set_cps (upd_elem (set_cp_state st) i _) _).
  destruct ds as [|d ds'] eqn:Eds; [done|]. destruct (send_first_ok own3 s5 (CReq i) _ _ d ds' (destination ctx) (Some n) Hok3 Hm3) as (p6 & E6 & Hok6 & Ho6 & Hm6).
  pose proof (only_trans _ _ _ _ _ _ _ Ho3 Ho6) as Ho. eexists _, own3. split; [exact E6|]. split; [|done].
  split; try done.
  - intros b k Hb. right. destruct (decide (k = CReq i)) as [->|Hk]; [unfold key_live, is_call; cbn; rewrite fmap_app, elem_of_app; right; by left|].
    apply (Ho k b) in Hb; [|unlisted]. apply H2 in Hb as [Hb|Hb]; [by apply elem_of_nil in Hb|]. destruct k; try done; unfold key_live, is_call in *; cbn; rewrite fmap_app, elem_of_app; by left.
  - apply Hadd; try done.
    + by repeat apply tracks_upd.
    + intros j Hj. rewrite <- (Hne1 j Hj). unfold p4, p2, upd_elem. cbn [set_objs p_objs]. by rewrite !fn_lookup_alter_ne by congruence.
    + intros k ->%list_elem_of_singleton. tauto.
    + unfold p4, p2. rewrite !elem_upd, Ef. exists (head_buffer m), (tail_buffer m), None, None. split_and!; try done.
      * unfold cp_rep, set_cp_state, set_cp_request, armed. cbn. destruct m as [sd rq h' t']. cbn in Hsd, Hrq |- *. by subst.
      * apply msg_nil. intros b Hb. apply (Ho (CRep i) b) in Hb; [by apply Hno2 in Hb|unlisted].
  - eapply servers_frame; [exact H4|exact Ho|keys].
  - by eapply (socks_add _ _ _ _ _ H5).
Qed.
End Api.

(** ** What is in use

    The buffers and slots that are in use are those of the calls and requests: nothing leaks. *)

(** The buffers of several messages. *)
Lemma messages_buffers p own (l : list (key * list bytes)) : NoDup l.*1 -> (forall k ds, (k, ds) ∈ l -> exists hd tl, msg_at p own k hd tl ds) ->
  exists L, NoDup L /\ length L = length (concat l.*2) /\ forall b, b ∈ L <-> exists k, k ∈ l.*1 /\ own b = Some k.
Proof.
  induction l as [|[k ds] l IH]; intros Hn Hm.
  - exists []. split_and!; [by apply NoDup_nil|done|]. intros b. split; [by intros ?%elem_of_nil|by intros (k & ?%elem_of_nil & _)].
  - cbn [fmap list_fmap fst snd] in Hn |- *. apply NoDup_cons in Hn as [Hk Hn]. destruct IH as (L & HL & Hlen & HLb); [done|intros k' ds' H; apply Hm; by right|].
    destruct (Hm k ds) as (hd & tl & ps & Hs & _ & Hps & Hown); [by left|]. exists (ps ++ L). split_and!.
    + apply NoDup_app. split_and!; try done. intros b Hb Hb2. apply Hown in Hb. apply HLb in Hb2 as (k' & Hk' & E). rewrite Hb in E. injection E as <-. done.
    + cbn [concat]. by rewrite !length_app, Hlen, (seg_length _ _ _ _ _ Hs).
    + intros b. rewrite elem_of_app, Hown, HLb. setoid_rewrite elem_of_cons. split; [intros [H|(k' & H & E)]; eauto|]. intros (k' & [->|H] & E); eauto.
Qed.

Section Count.
Context (own : owner) (s : r2p2) (e : endpoint) (Hsim : sim [] own s e).

Lemma served_keys i : i ∈ (map_to_list (e_served e)).*1 <-> is_Some (e_served e !! i).
Proof using. rewrite elem_of_keys. split; [intros [q Hq%elem_of_map_to_list]; by exists q|intros [q Hq]; exists q; by apply elem_of_map_to_list]. Qed.

Lemma request_keys : NoDup (e_partial e ++ map_to_list (e_served e)).*1 /\ forall i, i ∈ (e_partial e ++ map_to_list (e_served e)).*1 <-> is_request e i.
Proof using Hsim.
  destruct (si_servers _ _ _ _ Hsim) as [H1 H2 H3 H4]. rewrite fmap_app. split.
  - apply NoDup_app. split_and!; [apply H2| |apply NoDup_fst_map_to_list]. intros i Hi Hs%served_keys. rewrite H3 in Hs by done. by destruct Hs.
  - intros i. by rewrite elem_of_app, served_keys.
Qed.

Lemma message_keys k : k ∈ (messages e).*1 <-> key_live e k.
Proof using Hsim.
  unfold messages. rewrite fmap_app, elem_of_app. destruct request_keys as [_ Hr]. split.
  - intros [(x & -> & H)%list_elem_of_fmap|H].
    + apply list_elem_of_In, in_concat in H as (l & (y & <- & Hy)%in_map_iff & H). apply list_elem_of_In in Hy.
      destruct H as [<-|[<-|[]]]; cbn; apply list_elem_of_fmap; eauto.
    + rewrite <- list_fmap_compose in H. apply list_elem_of_fmap in H as (x & -> & H). cbn. apply Hr, list_elem_of_fmap. eauto.
  - destruct k; cbn; try done.
    1, 2: intros (x & -> & H)%list_elem_of_fmap; left; apply list_elem_of_fmap.
    1: exists (CReq x.1, c_req x.2). 2: exists (CRep x.1, c_rep x.2).
    1, 2: split; [done|]; apply list_elem_of_In, in_concat; eexists; split; [apply in_map_iff; exists x; split; [reflexivity|by apply list_elem_of_In]|cbn; tauto].
    intros H%Hr. right. rewrite <- list_fmap_compose. apply list_elem_of_fmap in H as (x & -> & H). apply list_elem_of_fmap. by exists x.
Qed.

Lemma call_keys_nodup (calls : list (Z * call)) : NoDup calls.*1 -> NoDup (concat ((fun x : Z * call => [(CReq x.1, c_req x.2); (CRep x.1, c_rep x.2)]) <$> calls)).*1.
Proof using.
  induction calls as [|[i c] l IH]; [by constructor|]. cbn [fmap list_fmap fst snd concat app]. intros [Hi Hn]%NoDup_cons.
  assert (forall k, k ∈ (concat ((fun x : Z * call => [(CReq x.1, c_req x.2); (CRep x.1, c_rep x.2)]) <$> l)).*1 -> exists j, j ∈ l.*1 /\ (k = CReq j \/ k = CRep j)) as Hk.
  { intros k (x & -> & H)%list_elem_of_fmap. apply list_elem_of_In, in_concat in H as (l' & (y & <- & Hy)%in_map_iff & H). apply list_elem_of_In in Hy.
    exists y.1. split; [apply list_elem_of_fmap; eauto|]. destruct H as [<-|[<-|[]]]; [by left|by right]. }
  apply NoDup_cons. split; [|apply NoDup_cons; split; [|by apply IH]].
  - rewrite elem_of_cons. intros [?|(j & Hj & [[= ->]|?])%Hk]; done.
  - intros (j & Hj & [?|[= ->]])%Hk; done.
Qed.

Lemma message_nodup : NoDup (messages e).*1.
Proof using Hsim.
  unfold messages. rewrite fmap_app. apply NoDup_app. split_and!.
  - apply call_keys_nodup. by eapply calls_nodup.
  - intros k (x & -> & H)%list_elem_of_fmap Hk. apply list_elem_of_In, in_concat in H as (l' & (y & <- & Hy)%in_map_iff & H).
    rewrite <- list_fmap_compose in Hk. apply list_elem_of_fmap in Hk as (z & E & _). by destruct H as [<-|[<-|[]]].
  - rewrite <- list_fmap_compose. change ((fst ∘ (fun x : Z * request => (SReq x.1, q_pkts x.2)))) with (SReq ∘ (@fst Z request)). rewrite list_fmap_compose.
    apply NoDup_fmap_2; [by intros i j [= ->]|apply request_keys].
Qed.

Lemma buffers_used : p_count (buf_pool s) = buffers e.
Proof using Hsim.
  pose proof Hsim as [H1 H2 H3 H4 _ _ _ _]. destruct (messages_buffers (buf_pool s) own (messages e) message_nodup) as (L & HL & Hlen & Hb).
  { intros k ds H. unfold messages in H. apply elem_of_app in H as [H|H].
    - apply list_elem_of_In, in_concat in H as (l & ([i c] & <- & Hy)%in_map_iff & H). apply list_elem_of_In in Hy.
      destruct (cl_calls _ _ _ _ _ _ H3 i c Hy) as (h1 & t1 & h2 & t2 & _ & M1 & M2 & _). cbn in H. destruct H as [H|[H|[]]]; simplify_eq; eauto.
    - apply list_elem_of_fmap in H as ([i q] & [= -> ->] & H). destruct (sv_requests _ _ _ _ _ _ H4 i q) as (hd & tl & _ & Hm); [|eauto].
      apply elem_of_app in H as [H|H]; [by left|right; by apply elem_of_map_to_list]. }
  unfold buffers. rewrite <- Hlen. eapply count_used; [apply H1|apply H1|done|]. intros b. rewrite Hb. setoid_rewrite message_keys. split.
  - intros (k & _ & E). assert (own b <> None) as Hne by congruence. split; [by apply H1|]. apply H1; [by apply H1|done].
  - intros [Hr Hu]. apply H1 in Hu; [|done]. destruct (own b) as [k|] eqn:E; [|done]. exists k. split; [|done]. apply H2 in E as [E|E]; [by apply elem_of_nil in E|done].
Qed.

Lemma requests_used : p_count (server_pairs s) = requests e.
Proof using Hsim.
  destruct (sv_pool _ _ _ _ _ _ (si_servers _ _ _ _ Hsim)) as [H1 H2 H3]. destruct request_keys as [Hn Hk]. unfold requests.
  rewrite (count_used _ POOL_SIZE (e_partial e ++ map_to_list (e_served e)).*1 H1 H2 Hn); [|intros i; by rewrite Hk, <- H3]. by rewrite length_fmap, length_app, length_map_to_list.
Qed.

Lemma calls_used : p_count (client_pairs s) = Z.of_nat (length (e_calls e)).
Proof using Hsim.
  destruct (cl_pool _ _ _ _ _ _ (si_clients _ _ _ _ Hsim)) as [H1 H2 H3]. rewrite (count_used _ POOL_SIZE (e_calls e).*1 H1 H2); [by rewrite length_fmap|by eapply calls_nodup|].
  intros i. by rewrite <- H3.
Qed.
End Count.

(** ** R2P2 endpoints: the code implements its specification *)

Implicit Types (q : request).

(** ** Endpoints stay well-formed *)

Definition same_requests e e' : Prop := e_partial e' = e_partial e /\ e_served e' = e_served e.

Lemma wf_same e e' : wf_endpoint e -> same_requests e e' -> wf_endpoint e'.
Proof. intros [H1 H2] [E1 E2]. split; by rewrite ?E1, ?E2. Qed.

Lemma wf_packet i q h d e e' evs : wf_endpoint e -> in_u 16 (q_id q) -> spec_packet i q h d e = Some (e', evs) -> wf_endpoint e'.
Proof.
  intros [H1 H2] Hq. unfold spec_packet. cbv zeta. destruct (negb (is_last h)).
  - intros [= <- <-]. split; [|done]. intros j q' [[_ Hj]|(_ & -> & _)]%elem_of_set; [by eapply H1|done].
  - destruct (negb (q_rcv _ =? q_exp _)).
    + intros [= <- <-]. split; [|done]. intros j q' [_ Hj]%elem_of_del. by eapply H1.
    + destruct (_ || _); [done|]. intros [= <- <-]. split.
      * intros j q' [_ Hj]%elem_of_del. by eapply H1.
      * intros j q' Hj. cbn [e_served set_requests] in Hj. apply lookup_insert_Some in Hj as [[<- <-]|[_ Hj]]; [split; [done|]; cbn; by destruct (q_pkts q)|by eapply H2].
Qed.

Lemma wf_request i h d source e e' evs : wf_endpoint e -> in_u 16 (h_rid h) -> spec_request i h d source e = Some (e', evs) -> wf_endpoint e'.
Proof.
  intros Hw Hid. unfold spec_request. cbv zeta. destruct (is_first h).
  - destruct (_ && _); [by intros [= <- <-]|]. destruct (is_last h); [by apply wf_packet|]. destruct (spec_packet _ _ _ _ _) as [[e1 evs1]|] eqn:E; [|done].
    intros [= <- <-]. cbn. refine (wf_packet _ _ _ _ _ _ _ _ _ E); [|done]. destruct Hw as [H1 H2]. split; [|done].
    intros j q [Hj|Hj]%elem_of_app; [by eapply H1|]. apply list_elem_of_singleton in Hj. by simplify_eq.
  - destruct (find_partial _ _ _) as [[j q]|] eqn:Ef; [|by intros [= <- <-]]. apply list_find_elem in Ef as [Hj _]. pose proof (we_partial _ Hw j q Hj) as Hq.
    destruct (negb _); [|by apply wf_packet]. intros [= <- <-]. destruct Hw as [H1 H2]. split; [|done]. intros x y [_ Hx]%elem_of_del. by eapply H1.
Qed.

Lemma spec_response_requests h d source local e e' evs : spec_response h d source local e = Some (e', evs) -> same_requests e e'.
Proof.
  unfold spec_response, spec_reply, spec_finish, spec_reply_error, spec_ack. cbv zeta. destruct (find_call _ _ _) as [[i c]|]; [|by intros [= <- <-]].
  repeat case_match; intros; simplify_eq; done.
Qed.

Lemma wf_op i n o e e' evs : wf_endpoint e -> spec_op i n o e = Some (e', evs) -> wf_endpoint e'.
Proof.
  intros Hw. destruct o as [sock source d|sock source|m|iov ctx|j iov|j|r|a]; cbn [spec_op].
  - unfold spec_recv. destruct (header_of d) as [h|]; [|done]. cbn. destruct (is_raft_single_msg _); [done|]. destruct (is_response _).
    + intros E%spec_response_requests. by eapply wf_same.
    + apply wf_request; [done|apply swap16_range].
  - by intros [= <- <-].
  - unfold spec_timer. destruct (snd <$> _) as [[j c]|]; intros [= <- <-]; [|done]. by eapply wf_same.
  - unfold spec_send_req. destruct n; [|by intros [= <- <-]]. destruct (0 <=? timeout ctx); [|done]. intros [= <- <-]. by eapply wf_same.
  - unfold spec_send_response. destruct (e_served e !! j) as [q|] eqn:Eq; [|done]. cbn. destruct (head (q_pkts q)) as [d|]; [|done]. cbn. destruct (header_of d) as [h|]; [|done]. cbn.
    destruct (is_replicated_req h); [done|]. intros [= <- <-]. destruct Hw as [H1 H2]. split; [done|]. intros x y Hx. cbn [e_served set_requests] in Hx. apply lookup_delete_Some in Hx as [_ Hx]. by eapply H2.
  - intros [= <- <-]. by eapply wf_same.
  - intros [= <- <-]. by eapply wf_same.
  - intros [= <- <-]. by eapply wf_same.
Qed.

(** ** Refinement *)

(** [s] is a state of the code for the endpoint [e]. *)
Definition stands_for s e : Prop := wf_endpoint e /\ exists own, sim [] own s e.

(** What the slot and the socket of an operation may be. *)
Definition fresh e (o : op) (i : Z) (n : option Z) : Prop :=
  match o with
  | Recv _ _ _ => ~ is_request e i
  | SendReq _ _ => ~ is_call e i /\
      match n with
      | Some n => 0 <= n < SOCKPOOL_SIZE /\ forall j c, (j, c) ∈ e_calls e -> c_sock c <> n
      | None => forall n, 0 <= n < SOCKPOOL_SIZE -> exists j c, (j, c) ∈ e_calls e /\ c_sock c = n
      end
  | _ => True
  end.

Definition refines (r : result) s (x : res stop (unit * r2p2)) : Prop :=
  match r with
  | Some (e', evs) => exists s', x = Ok (tt, s') /\ stands_for s' e' /\ out s' = out s ++ evs
  | None => x = Err AssertFails
  end.

Lemma agrees_refines (i : Z) n o s e x : wf_endpoint e -> agrees (spec_op i n o e) s x -> refines (spec_op i n o e) s x.
Proof.
  intros Hw. unfold agrees, refines. destruct (spec_op i n o e) as [[e' evs]|] eqn:E; [|done]. intros (s' & own' & Hx & Hs & Ho). exists s'. split_and!; try done. split; [by eapply wf_op|eauto].
Qed.

Section Refinement.
Context (sendto_ok : r2p2_host_tuple -> bytes -> bool) (Hsend : forall h d, sendto_ok h d = true).

Lemma recv_fails_ok own s e sock source : sim [] own s e -> p_count (buf_pool s) < BUFPOOL_SIZE -> agrees (Some (e, [])) s (poll_recv sendto_ok sock source None s).
Proof using.
  intros Hsim Hc. destruct (get_hand_ok own s e Hsim Hc) as (gb & p1 & own1 & E1 & Hsim1 & Hg & Hn1 & Hc1). unfold poll_recv. mrun E1.
  destruct (free_buffer_ok own1 (set_bufs p1 s) gb Hand (si_bufs _ _ _ _ Hsim1)) as (p2 & E2 & Hok2 & Ho2 & _); [by apply Hg|]. cbn [agrees].
  eexists _, _. split; [exact E2|]. split; [|by rewrite app_nil_r]. eapply (sim_bufs [Hand] [] [Hand] own1 _ (set_bufs p1 s)); [done|done|exact Ho2|keys|keys| |intros k; by left].
  intros b k Hb ->%list_elem_of_singleton. exfalso. destruct (decide (b = gb)) as [->|Hne]; [by rewrite fn_lookup_insert in Hb|].
  rewrite fn_lookup_insert_ne in Hb by done. by apply Hg in Hb.
Qed.

Lemma run_refines s e o : stands_for s e -> legal e o -> room e o -> exists i n, fresh e o i n /\ refines (spec_op i n o e) s (run sendto_ok o s).
Proof using Hsend.
  intros [Hw [own Hsim]] Hl Hr.
  assert ((exists i n, fresh e o i n /\ agrees (spec_op i n o e) s (run sendto_ok o s)) -> exists i n, fresh e o i n /\ refines (spec_op i n o e) s (run sendto_ok o s)) as Hlift.
  { intros (i & n & Hf & Ha). exists i, n. split; [done|]. by apply agrees_refines. }
  apply Hlift. clear Hlift. destruct o as [sock source d|sock source|m|iov ctx|j iov|j|r|a]; cbn [legal room run spec_op fresh] in *.
  - rewrite <- (buffers_used _ _ _ Hsim), <- (requests_used _ _ _ Hsim) in Hr. destruct (poll_recv_ok sendto_ok Hsend own s e sock source d Hsim Hl (proj1 Hr) (proj2 Hr)) as (i & Hi & Ha).
    by exists i, None.
  - rewrite <- (buffers_used _ _ _ Hsim) in Hr. exists 0, None. split; [done|]. by eapply recv_fails_ok.
  - exists 0, None. split; [done|]. by eapply timer_ok.
  - rewrite <- (buffers_used _ _ _ Hsim), <- (calls_used _ _ _ Hsim) in Hr.
    destruct (send_req_ok sendto_ok Hsend own s e iov ctx Hsim Hl (proj1 Hr) (proj2 Hr)) as (i & n & Hi & Hn & Ha). by exists i, n.
  - rewrite <- (buffers_used _ _ _ Hsim) in Hr. destruct Hl as [[q Hq] Hiov]. destruct (we_served _ Hw j q Hq) as [Hid Hne]. exists 0, None. split; [done|]. by eapply send_response_ok.
  - exists 0, None. split; [done|]. apply elem_of_keys in Hl as [c Hc]. destruct (sim_drop_cp [] own s e j c Hsim Hc) as (s' & own' & E & Hs & Ho & _). exists s', own'. by rewrite app_nil_r.
  - exists 0, None. split; [done|]. eexists _, own. split; [reflexivity|]. split; [|by rewrite app_nil_r]. destruct Hsim. by split.
  - exists 0, None. split; [done|]. eexists _, own. split; [reflexivity|]. split; [|by rewrite app_nil_r]. destruct Hsim. by split.
Qed.
End Refinement.

(** ** Start *)

Lemma untaken_tracks {A} (m : Z -> fixed_obj A) (P : Z -> Prop) : untaken m -> (forall i, ~ P i) -> tracks (create_mempool POOL_SIZE m) P.
Proof.
  intros Hm HP. split; [apply (untaken_pool m 16); [lia|done]|done|]. intros i. split; [by intros ?%HP|]. intros [_ Hu]. unfold used in Hu. by rewrite Hm in Hu.
Qed.

Lemma init_stands core n cps sps bufs : untaken cps -> untaken sps -> untaken bufs -> (forall i, len (b_payload (fo_elem (bufs i))) = PAYLOAD_ROOM) ->
  stands_for (r2p2_init_per_core core n cps sps bufs) (init_endpoint (fun i => mk_host 0 (ephemeral_port core n i))).
Proof.
  intros Hc Hs Hb Hr. split; [split; [by intros i q ?%elem_of_nil|intros i q H; cbn [e_served init_endpoint] in H; by rewrite lookup_empty in H]|]. exists (fun _ => None). split; try done.
  - split; cbn; try done; [apply (untaken_pool bufs 10); [lia|done]|]. intros b _. unfold used. rewrite Hb. tauto.
  - split; [apply untaken_tracks; [done|by intros i ?%elem_of_nil]|apply linked_nil|by intros i c ?%elem_of_nil].
  - split; [apply untaken_tracks; [done|]|apply linked_nil|by intros i ?%elem_of_nil|].
    + intros i [H%elem_of_nil|H]; [done|]. cbn [e_served init_endpoint] in H. rewrite lookup_empty in H. by destruct H.
    + intros i q [H%elem_of_nil|H]; [done|]. cbn [e_served init_endpoint] in H. by rewrite lookup_empty in H.
  - split; cbn; try done; [|by intros i c ?%elem_of_nil]. apply (untaken_pool (fun _ => mk_obj 0 None None tt) 7); [lia|done].
Qed.

(** ** Theorems *)


(** An endpoint whose memory is zero. *)
Definition blank_buf : linux_buf := mk_buf 0 None (replicate (Z.to_nat PAYLOAD_ROOM) 0).
Definition blank_endpoint : r2p2 :=
  r2p2_init_per_core 0 1 (fun _ => mk_obj 0 None None zero_cp) (fun _ => mk_obj 0 None None zero_sp) (fun _ => mk_obj 0 None None blank_buf).
Definition blank_hosts : Z -> r2p2_host_tuple := fun i => mk_host 0 (ephemeral_port 0 1 i).

Lemma blank_stands : stands_for blank_endpoint (init_endpoint blank_hosts).
Proof. by apply init_stands. Qed.


(** States that an endpoint can come to: it starts with memory in which no slot is taken, and operations come that are legal and for which there is room. *)
Inductive reachable (sendto_ok : r2p2_host_tuple -> bytes -> bool) : r2p2 -> Prop :=
| reach_init core n cps sps bufs : untaken cps -> untaken sps -> untaken bufs -> (forall i, len (b_payload (fo_elem (bufs i))) = PAYLOAD_ROOM) ->
    reachable sendto_ok (r2p2_init_per_core core n cps sps bufs)
| reach_op s o s' : reachable sendto_ok s -> (forall e, stands_for s e -> legal e o /\ room e o) -> run sendto_ok o s = Ok (tt, s') -> reachable sendto_ok s'.

Lemma reachable_stands sendto_ok s : (forall h d, sendto_ok h d = true) -> reachable sendto_ok s -> exists e, stands_for s e.
Proof.
  intros Hsend. induction 1 as [core n cps sps bufs H1 H2 H3 H4|s o s' _ [e He] Hlr E]; [eexists; by apply init_stands|]. destruct (Hlr e He) as [Hl Hr].
  destruct (run_refines sendto_ok Hsend s e o He Hl Hr) as (i & n & _ & Ha). unfold refines in Ha. destruct (spec_op i n o e) as [[e' evs]|]; [|congruence].
  destruct Ha as (s2 & E2 & Hs & _). rewrite E in E2. injection E2 as <-. by exists e'.
Qed.

(** The sockets in use are as many as the calls. *)
Lemma sockets_used own s e : sim [] own s e -> sock_count s = Z.of_nat (length (e_calls e)).
Proof.
  intros Hsim. pose proof (calls_nodup _ _ _ _ Hsim) as Hn. pose proof (si_socks _ _ _ _ Hsim) as Hso. pose proof Hso as [H1 H2 H3 H4].
  change (sock_count s) with (p_count (sock_pool (sockets s) (sock_count s) (sock_idx s))). rewrite (count_used _ SOCKPOOL_SIZE (c_sock <$> (e_calls e).*2) H1 eq_refl).
  - by rewrite !length_fmap.
  - rewrite <- list_fmap_compose. assert (forall l, l ⊆ e_calls e -> NoDup l.*1 -> NoDup ((c_sock ∘ snd) <$> l)) as H; [|by apply H].
    induction l as [|[i c] l IH]; intros Hl Hnl; [by constructor|]. cbn [fmap list_fmap fst snd compose] in *. apply NoDup_cons in Hnl as [Hi Hnl]. apply NoDup_cons. split.
    + intros ([j c2] & E & Hj)%list_elem_of_fmap. cbn in E. assert (i = j) as ->; [|apply Hi, elem_of_keys; by exists c2].
      eapply (socket_unique _ _ _ _ _ Hso i c j c2); [apply Hl; by left|apply Hl; by right|done].
    + apply IH; [|done]. intros x Hx. apply Hl. by right.
  - intros n. rewrite list_elem_of_fmap. split.
    + intros (c & -> & ([i c'] & -> & Hi)%list_elem_of_fmap). cbn. destruct (H4 i c' Hi) as [Hr E]. split; [done|]. unfold used. cbn. by rewrite E.
    + intros [Hr Hu]. destruct (H3 n Hr Hu) as (i & c & Hi & <-). exists c. split; [done|]. apply list_elem_of_fmap. by exists (i, c).
Qed.


