(* ===== verification/R2p2Rpc.v ===== *)
(** * A remote call

    Requests and replies as they arrive, packet by packet; then two endpoints of the code and the datagrams between them: the request
    reaches the application of the server, and the reply that of the client. *)

From stdpp Require Import functions.
From S2P Require Import Prelude MapDef OfpBuf OfpMsgs Mempool R2p2 R2p2Bufs R2p2Spec.
From S2P Require Import R2p2Server R2p2Client R2p2Props.

(** ** Requests and replies from end to end *)

Implicit Types (s : r2p2) (e : endpoint) (c : call) (q : request) (vs : list bytes).
#[local] Arguments header_bytes : simpl never.

(** ** The header that arrives *)

Definition wire_header (t policy id : Z) (n i : nat) : r2p2_header :=
  mk_header MAGIC SIZEOF_HEADER (u8 (Z.lor (Z.shiftl t 4) (Z.land 0x0F policy))) (flags_of n i) id (u16 (Z.of_nat (if (i =? 0)%nat then n else i))).

Lemma packet_header t policy id n i v : in_u 16 id -> host_header <$> header_of (packet t policy id n i v) = Some (wire_header t policy id n i).
Proof.
  intros Hid. unfold packet. rewrite header_of_bytes by apply swap16_range. cbn [fmap option_fmap option_map]. f_equal. unfold host_header, wire_header.
  cbn [magic header_size type_policy flags h_rid p_order]. rewrite !swap16_swap16; [done|apply wrap_range; lia|done].
Qed.

Lemma content_stored h t policy id n i v : content (stored h (packet t policy id n i v)) = v.
Proof. unfold content, stored, packet. by rewrite !drop_app_length' by done. Qed.

Lemma first_wire t policy id n i : is_first (wire_header t policy id n i) = (i =? 0)%nat.
Proof. unfold is_first, wire_header, flags_of. cbn [flags]. destruct (i =? 0)%nat, (S i =? n)%nat; reflexivity. Qed.
Lemma last_wire t policy id n i : is_last (wire_header t policy id n i) = (S i =? n)%nat.
Proof. unfold is_last, wire_header, flags_of. cbn [flags]. destruct (i =? 0)%nat, (S i =? n)%nat; reflexivity. Qed.

Definition plain (policy : Z) : Prop := policy = LB_ROUTE \/ policy = FIXED_ROUTE.

Lemma request_wire policy id n i : plain policy -> let h := wire_header REQUEST_MSG policy id n i in
  is_raft_single_msg h = false /\ is_response h = false /\ is_raft_msg h = false /\ is_replicated_req h = false /\ get_msg_type h = REQUEST_MSG.
Proof. intros [->| ->]; by vm_compute. Qed.

Lemma response_wire id n i : let h := wire_header RESPONSE_MSG FIXED_ROUTE id n i in
  is_raft_single_msg h = false /\ is_response h = true /\ get_msg_type h = RESPONSE_MSG.
Proof. by vm_compute. Qed.

(** The packets as they are kept. *)
Definition kept (t policy id : Z) (n : nat) (i : nat) v : bytes := stored (wire_header t policy id n i) (packet t policy id n i v).

Lemma content_kept t policy id n vs f : content <$> imap (fun i => kept t policy id n (f i)) vs = vs.
Proof. apply list_eq. intros j. rewrite list_lookup_fmap, list_lookup_imap. by destruct (vs !! j). Qed.

Lemma packet_length t policy id n i v : len (packet t policy id n i v) = 8 + len v.
Proof. unfold packet, len. rewrite length_app, length_header. lia. Qed.

(** ** Counting *)

Lemma buffers_partial l i q m e : buffers (set_requests (l ++ [(i, q)]) m e) = buffers (set_requests l m e) + Z.of_nat (length (q_pkts q)).
Proof.
  unfold buffers, messages. cbn [e_calls e_partial e_served set_requests]. rewrite <- app_assoc, !fmap_app, !concat_app, !length_app. cbn [app fmap list_fmap concat snd].
  rewrite !length_app. cbn. lia.
Qed.

Lemma requests_partial l i q m e : requests (set_requests (l ++ [(i, q)]) m e) = requests (set_requests l m e) + 1.
Proof. unfold requests. cbn. rewrite length_app. cbn. lia. Qed.

Definition weight (x : Z * call) : nat := length (c_req x.2) + length (c_rep x.2).

Lemma buffers_calls l e : buffers (set_calls l e) = Z.of_nat (sum_list_with weight l) + buffers (set_calls [] e).
Proof.
  unfold buffers, messages. cbn [e_calls e_partial e_served set_calls]. rewrite !fmap_app, !concat_app, !length_app. cbn [fmap list_fmap concat length]. rewrite Nat2Z.inj_add. f_equal. f_equal.
  induction l as [|[i c] l IH]; [done|]. change (sum_list_with weight ((i, c) :: l)) with (length (c_req c) + length (c_rep c) + sum_list_with weight l)%nat.
  rewrite <- IH. cbn [fmap list_fmap concat snd fst app]. rewrite !length_app. lia.
Qed.

Lemma weight_set i c c' l : NoDup l.*1 -> (i, c) ∈ l -> (sum_list_with weight (assoc_set i c' l) + weight (i, c) = sum_list_with weight l + weight (i, c'))%nat.
Proof.
  induction l as [|[j b] l IH]; [by intros _ ?%elem_of_nil|]. cbn [fmap list_fmap fst]. intros [Hj Hn]%NoDup_cons Hi. apply elem_of_cons in Hi as [[= <- <-]|Hi].
  - cbn [assoc_set fmap list_fmap]. unfold assoc_set. cbn [fmap list_fmap fst]. rewrite decide_True by done. change (_ <$> l) with (assoc_set i c' l). rewrite assoc_set_absent by done. cbn. lia.
  - unfold assoc_set. cbn [fmap list_fmap fst]. rewrite decide_False by (intros ->; apply Hj, elem_of_keys; by exists c). change (_ <$> l) with (assoc_set i c' l). cbn [sum_list_with].
    specialize (IH Hn Hi). lia.
Qed.

Lemma buffers_set_call i c c' e : NoDup (e_calls e).*1 -> (i, c) ∈ e_calls e ->
  buffers (set_call i c' e) + Z.of_nat (weight (i, c)) = buffers e + Z.of_nat (weight (i, c')).
Proof.
  intros Hn Hi. unfold set_call. rewrite buffers_calls. replace (buffers e) with (buffers (set_calls (e_calls e) e)) by (by destruct e). rewrite (buffers_calls (e_calls e)).
  pose proof (weight_set i c c' (e_calls e) Hn Hi). lia.
Qed.

(** ** A request at the server *)

Lemma assoc_set_last {A} i (a b : A) l : i ∉ l.*1 -> assoc_set i b (l ++ [(i, a)]) = l ++ [(i, b)].
Proof. intros Hi. unfold assoc_set. rewrite fmap_app. change (_ <$> l) with (assoc_set i b l). rewrite assoc_set_absent by done. cbn. by rewrite decide_True. Qed.

Lemma assoc_del_last {A} i (a : A) l : i ∉ l.*1 -> assoc_del i (l ++ [(i, a)]) = l.
Proof.
  intros Hi. unfold assoc_del. rewrite filter_app. change (filter (fun x => x.1 <> i) l) with (assoc_del i l). rewrite assoc_del_absent by done.
  rewrite filter_cons_False by (cbn; tauto). apply app_nil_r.
Qed.

Lemma small_order (k : nat) : (k < 256)%nat -> u16 (Z.of_nat k) = Z.of_nat k.
Proof. intros H. apply wrap_small. unfold in_u. lia. Qed.

Section Requests.
Context (policy id : Z) (src : r2p2_host_tuple) (n : nat) (e : endpoint).
Context (Hpol : plain policy) (Hid : in_u 16 id) (Hn : (0 < n < 255)%nat) (Hfn : e_rfn e = true) (Hafc : e_afc e <> Some 0) (Hnew : find_partial id src e = None).

(** The request of which the packets [vs] are there. *)
Definition gathered (vs : list bytes) : request := mk_request src id (imap (kept REQUEST_MSG policy id n) vs) (Z.of_nat n) (Z.of_nat (length vs)).
Definition gathering (i : Z) vs : endpoint := set_requests (e_partial e ++ [(i, gathered vs)]) (e_served e) e.
Definition delivered (i : Z) vs : endpoint := set_requests (e_partial e) (<[i := gathered vs]> (e_served e)) e.

Lemma kept_snoc vs v : imap (kept REQUEST_MSG policy id n) (vs ++ [v]) = imap (kept REQUEST_MSG policy id n) vs ++ [kept REQUEST_MSG policy id n (length vs) v].
Proof using. rewrite imap_app. cbn. by rewrite Nat.add_0_r. Qed.

Lemma content_gathered vs : content <$> q_pkts (gathered vs) = vs.
Proof using. apply (content_kept REQUEST_MSG policy id n vs (fun i => i)). Qed.

(** The header of packet [i]. *)
Lemma recv_wire j sock i v x : spec_recv i sock src (packet REQUEST_MSG policy id n j v) x =
  spec_request i (wire_header REQUEST_MSG policy id n j) (packet REQUEST_MSG policy id n j v) src x.
Proof using Hpol Hid.
  destruct (request_wire policy id n j Hpol) as (W1 & W2 & _). unfold spec_recv. rewrite packet_header by done. cbn [mbind option_bind]. by rewrite W1, W2.
Qed.

Lemma deliver_packet x i j v q : S j = n -> q_rcv q = Z.of_nat n -> q_exp q = Z.of_nat n -> length (q_pkts q) = j -> e_rfn x = true ->
  spec_packet i q (wire_header REQUEST_MSG policy id n j) (kept REQUEST_MSG policy id n j v) x =
  Some (set_requests (assoc_del i (e_partial x)) (<[i := add_packet (kept REQUEST_MSG policy id n j v) q]> (e_served x)) x,
        [RecvFn i (content <$> q_pkts q ++ [kept REQUEST_MSG policy id n j v])]).
Proof using Hpol Hn.
  intros Hj Hr He Hl Hx. destruct (request_wire policy id n j Hpol) as (_ & _ & W3 & W4 & _). unfold spec_packet. cbv zeta. rewrite last_wire. rewrite (proj2 (Nat.eqb_eq _ _) Hj). cbn [negb].
  cbn [add_packet q_rcv q_exp q_pkts]. rewrite Hr, He, Z.eqb_refl, W3, W4, Hx. cbn [negb orb]. rewrite (proj2 (Z.leb_gt _ _)) by (rewrite length_app; cbn; lia). done.
Qed.

Lemma gather_packet x i j v q : S j <> n -> spec_packet i q (wire_header REQUEST_MSG policy id n j) (kept REQUEST_MSG policy id n j v) x =
  Some (set_requests (assoc_set i (add_packet (kept REQUEST_MSG policy id n j v) q) (e_partial x)) (e_served x) x, []).
Proof using. intros Hj. unfold spec_packet. cbv zeta. rewrite last_wire. by rewrite (proj2 (Nat.eqb_neq _ _) Hj). Qed.

(** The only packet, the first packet of several, and a packet behind it. *)
Lemma recv_only i sock v : i ∉ (e_partial e).*1 -> n = 1%nat -> spec_recv i sock src (packet REQUEST_MSG policy id n 0 v) e = Some (delivered i [v], [RecvFn i [v]]).
Proof using Hpol Hid Hn Hfn Hafc.
  intros Hi H1. rewrite recv_wire. unfold spec_request. rewrite first_wire, last_wire. rewrite bool_decide_false, andb_false_r by done.
  rewrite (proj2 (Nat.eqb_eq 1 n)) by done. cbn [Nat.eqb]. fold (kept REQUEST_MSG policy id n 0 v). pose proof (small_order n ltac:(lia)) as Ho.
  cbv zeta. cbn [wire_header h_rid p_order Nat.eqb]. rewrite Ho. rewrite deliver_packet by (done || cbn; lia). rewrite assoc_del_absent by done.
  cbn [q_pkts app]. rewrite <- (content_gathered [v]) at 2. unfold delivered, gathered, add_packet. by subst n.
Qed.

Lemma recv_first i sock v : i ∉ (e_partial e).*1 -> (1 < n)%nat ->
  spec_recv i sock src (packet REQUEST_MSG policy id n 0 v) e = Some (gathering i [v], [Datagram None src (control_packet ack_payload ACK_MSG id)]).
Proof using Hpol Hid Hn Hafc.
  intros Hi H1. destruct (request_wire policy id n 0 Hpol) as (_ & _ & W3 & _). rewrite recv_wire. unfold spec_request. rewrite first_wire, last_wire. rewrite bool_decide_false, andb_false_r by done.
  rewrite (proj2 (Nat.eqb_neq 1 n)) by lia. cbn [Nat.eqb]. fold (kept REQUEST_MSG policy id n 0 v). pose proof (small_order n ltac:(lia)) as Ho. cbv zeta.
  rewrite W3. cbn [wire_header h_rid p_order Nat.eqb]. rewrite Ho. rewrite gather_packet by lia. cbn [mbind option_bind fst snd e_partial e_served set_requests]. rewrite assoc_set_last by done. done.
Qed.

Lemma find_gathering i vs : find_partial id src (gathering i vs) = Some (i, gathered vs).
Proof using Hnew.
  unfold find_partial, gathering in *. cbn [e_partial set_requests]. set (P := fun x : Z * request => _) in *.
  destruct (list_find P (e_partial e)) as [[? ?]|] eqn:E; [done|]. rewrite list_find_app_r by done. cbn [list_find]. rewrite decide_True; [done|].
  unfold P. cbn. by rewrite bool_decide_true, Z.eqb_refl.
Qed.

Lemma recv_next i i' sock vs v : i ∉ (e_partial e).*1 -> vs <> [] -> (length vs < n)%nat ->
  spec_recv i' sock src (packet REQUEST_MSG policy id n (length vs) v) (gathering i vs) =
  if decide (S (length vs) = n) then Some (delivered i (vs ++ [v]), [RecvFn i (vs ++ [v])]) else Some (gathering i (vs ++ [v]), []).
Proof using Hpol Hid Hn Hfn Hnew.
  intros Hi Hvs Hl. rewrite recv_wire. unfold spec_request. rewrite first_wire. rewrite (proj2 (Nat.eqb_neq (length vs) 0)) by (by destruct vs).
  change (h_rid (wire_header REQUEST_MSG policy id n (length vs))) with id. rewrite find_gathering. fold (kept REQUEST_MSG policy id n (length vs) v).
  assert (p_order (wire_header REQUEST_MSG policy id n (length vs)) = Z.of_nat (length vs)) as Ho.
  { cbn [wire_header p_order]. rewrite (proj2 (Nat.eqb_neq (length vs) 0)) by (by destruct vs). apply small_order. lia. }
  rewrite Ho. cbn [gathered q_rcv q_from q_id q_pkts q_exp]. rewrite Z.eqb_refl. cbn [negb].
  replace (u16 (Z.of_nat (length vs) + 1)) with (Z.of_nat (S (length vs))) by (rewrite <- (small_order (S (length vs))) at 1 by lia; f_equal; lia).
  set (q := mk_request _ _ _ _ _). assert (add_packet (kept REQUEST_MSG policy id n (length vs) v) q = gathered (vs ++ [v])) as Hq.
  { unfold add_packet, q, gathered. cbn. rewrite kept_snoc, length_app. cbn. f_equal. lia. }
  case_decide as Hd.
  - rewrite deliver_packet; [|done|cbn; lia|done|unfold q; cbn; apply length_imap|done]. rewrite Hq. cbn [e_partial e_served gathering set_requests]. rewrite assoc_del_last by done.
    unfold q. cbn [q_pkts]. rewrite <- kept_snoc. by rewrite (content_kept REQUEST_MSG policy id n _ (fun i => i)).
  - rewrite gather_packet by done. rewrite Hq. cbn [e_partial e_served gathering set_requests]. by rewrite assoc_set_last.
Qed.
End Requests.

(** ** A reply at the client *)

Lemma find_assoc_set {A} (g : Z * A -> bool) i (a a' : A) l :
  snd <$> list_find g l = Some (i, a) -> g (i, a') = true -> snd <$> list_find g (assoc_set i a' l) = Some (i, a').
Proof.
  intros Hf Hg. induction l as [|[j b] l IH]; [done|]. unfold assoc_set. cbn [fmap list_fmap fst]. change (_ <$> l) with (assoc_set i a' l). cbn [list_find] in *.
  destruct (decide (j = i)) as [->|Hne]; [rewrite decide_True; [done|by rewrite Hg]|]. case_decide as Hd; [by simplify_eq/=|].
  destruct (list_find g l) as [[m x]|]; [|done]. cbn in Hf. specialize (IH Hf). destruct (list_find g (assoc_set i a' l)) as [[m' y]|]; done.
Qed.

Lemma find_call_set id p e i c c' : find_call id p e = Some (i, c) -> c_sock c' = c_sock c -> c_id c' = c_id c -> find_call id p (set_call i c' e) = Some (i, c').
Proof.
  unfold find_call. cbn [e_calls e_hosts set_call set_calls]. intros Hf Hs Hi. eapply (find_assoc_set (fun x => (port (e_hosts e (c_sock x.2)) =? p) && (c_id x.2 =? id))); [exact Hf|].
  apply list_find_elem in Hf as [_ Hc]. cbn in *. rewrite Hs, Hi. by apply Is_true_true.
Qed.

Section Replies.
Context (id k : Z) (src : r2p2_host_tuple) (n : nat) (e : endpoint) (i : Z) (c : call).
Context (Hid : in_u 16 id) (Hn : (0 < n < 255)%nat) (Hc : find_call id (port (e_hosts e k)) e = Some (i, c)) (Hst : c_state c = R2P2_W_RESPONSE) (Hrep : c_rep c = []).

Definition replied (vs : list bytes) : call :=
  with_from (mk_host (swap32 (ip src)) (swap16 (port src))) (with_reply (imap (kept RESPONSE_MSG FIXED_ROUTE id n) vs) (Z.of_nat n) (Z.of_nat (length vs)) c).
Definition waiting vs : endpoint := set_call i (replied vs) e.
Definition answered vs : endpoint := set_call i (with_timer 0 (replied vs)) e.

Lemma kept_reply_snoc vs v :
  imap (kept RESPONSE_MSG FIXED_ROUTE id n) (vs ++ [v]) = imap (kept RESPONSE_MSG FIXED_ROUTE id n) vs ++ [kept RESPONSE_MSG FIXED_ROUTE id n (length vs) v].
Proof using. rewrite imap_app. cbn. by rewrite Nat.add_0_r. Qed.

Lemma finish_reply_spec x vs : length vs = n -> spec_finish i (replied vs) x = Some (set_call i (with_timer 0 (replied vs)) x, [SuccessCb i (ctx_arg (c_ctx c)) vs]).
Proof using Hn.
  intros Hl. unfold spec_finish. cbn [replied with_from with_reply c_rcv c_exp c_rep]. rewrite Hl, Z.eqb_refl. cbn [negb]. rewrite (proj2 (Z.ltb_lt _ _)) by (rewrite length_imap; lia).
  by rewrite (content_kept RESPONSE_MSG FIXED_ROUTE id n _ (fun i => i)).
Qed.

Lemma recv_reply_wire j i' v x : spec_recv i' (Some k) src (packet RESPONSE_MSG FIXED_ROUTE id n j v) x =
  spec_response (wire_header RESPONSE_MSG FIXED_ROUTE id n j) (packet RESPONSE_MSG FIXED_ROUTE id n j v) src (e_hosts x k) x.
Proof using Hid.
  destruct (response_wire id n j) as (W1 & W2 & _). unfold spec_recv. rewrite packet_header by done. cbn [mbind option_bind]. by rewrite W1, W2.
Qed.

Lemma response_found j x i0 c0 d : find_call id (port (e_hosts x k)) x = Some (i0, c0) ->
  spec_response (wire_header RESPONSE_MSG FIXED_ROUTE id n j) d src (e_hosts x k) x =
  spec_reply i0 (with_from (mk_host (swap32 (ip src)) (swap16 (port src))) c0) (wire_header RESPONSE_MSG FIXED_ROUTE id n j) (stored (wire_header RESPONSE_MSG FIXED_ROUTE id n j) d) x.
Proof using.
  intros Hf. destruct (response_wire id n j) as (_ & _ & W3). unfold spec_response. change (h_rid (wire_header RESPONSE_MSG FIXED_ROUTE id n j)) with id. rewrite Hf. cbv zeta. by rewrite W3.
Qed.

Lemma reply_first i' v : spec_recv i' (Some k) src (packet RESPONSE_MSG FIXED_ROUTE id n 0 v) e =
  if decide (n = 1%nat) then Some (answered [v], [SuccessCb i (ctx_arg (c_ctx c)) [v]]) else Some (waiting [v], []).
Proof using Hid Hn Hc Hst Hrep.
  rewrite recv_reply_wire, (response_found 0 e i c) by done. unfold spec_reply. cbn [with_from c_state]. rewrite bool_decide_true by done. rewrite first_wire, last_wire. set (lst := (1 =? n)%nat). cbn [Nat.eqb].
  fold (kept RESPONSE_MSG FIXED_ROUTE id n 0 v). cbn [wire_header p_order Nat.eqb]. rewrite (small_order n) by lia. cbv zeta.
  cbn [with_reply with_from c_rep c_ctx c_sock c_timer c_state c_id c_req c_from]. rewrite Hrep. cbn [app].
  match goal with |- context [spec_finish i ?x e] => change x with (replied [v]) end. unfold lst. case_decide as Hd.
  - rewrite (proj2 (Nat.eqb_eq 1 n)) by done. by rewrite finish_reply_spec.
  - by rewrite (proj2 (Nat.eqb_neq 1 n)) by lia.
Qed.

Lemma reply_next i' vs v : vs <> [] -> (length vs < n)%nat -> spec_recv i' (Some k) src (packet RESPONSE_MSG FIXED_ROUTE id n (length vs) v) (waiting vs) =
  if decide (S (length vs) = n) then Some (answered (vs ++ [v]), [SuccessCb i (ctx_arg (c_ctx c)) (vs ++ [v])]) else Some (waiting (vs ++ [v]), []).
Proof using Hid Hn Hc Hst.
  intros Hvs Hl. rewrite recv_reply_wire. rewrite (response_found _ (waiting vs) i (replied vs)) by (by apply (find_call_set _ _ _ _ c)).
  unfold spec_reply. cbn [with_from c_state replied with_reply]. rewrite bool_decide_true by done. rewrite first_wire, last_wire. rewrite (proj2 (Nat.eqb_neq (length vs) 0)) by (by destruct vs).
  fold (kept RESPONSE_MSG FIXED_ROUTE id n (length vs) v). cbn [wire_header p_order]. rewrite (proj2 (Nat.eqb_neq (length vs) 0)) by (by destruct vs). rewrite (small_order (length vs)) by lia. cbv zeta.
  cbn [with_reply with_from c_rep c_ctx c_sock c_timer c_state c_id c_req c_from c_rcv c_exp]. rewrite Z.eqb_refl. cbn [negb].
  match goal with |- context [spec_finish i ?x _] => assert (x = replied (vs ++ [v])) as -> end.
  { unfold replied. rewrite kept_reply_snoc. unfold with_reply, with_from. cbn. f_equal. rewrite length_app. cbn [length]. rewrite <- (small_order (length vs + 1)) by lia. f_equal. lia. }
  unfold waiting. rewrite spec_finish_set, !set_set_call. case_decide as Hd.
  - rewrite (proj2 (Nat.eqb_eq _ _)) by done. rewrite finish_reply_spec; [done|]. rewrite length_app. cbn. lia.
  - rewrite (proj2 (Nat.eqb_neq _ _)) by done. done.
Qed.
End Replies.

(** ** Sequences of packets *)

Fixpoint recv_all (sendto_ok : r2p2_host_tuple -> bytes -> bool) (sock : option Z) (source : r2p2_host_tuple) (ds : list bytes) : M unit :=
  match ds with
  | [] => mret tt
  | d :: ds' => poll_recv sendto_ok sock source (Some d);; recv_all sendto_ok sock source ds'
  end.

Section Deliver.
Context (sendto_ok : r2p2_host_tuple -> bytes -> bool) (Hsend : forall h d, sendto_ok h d = true).

Lemma recv_step s x sock src d : stands_for s x -> len d <= PAYLOAD_ROOM -> buffers x + 2 <= BUFPOOL_SIZE -> requests x < POOL_SIZE ->
  exists i, ~ is_request x i /\ refines (spec_recv i sock src d x) s (poll_recv sendto_ok sock src (Some d) s).
Proof using Hsend. intros Hs Hd Hb Hr. destruct (run_refines sendto_ok Hsend s x (Recv sock src d) Hs Hd (conj Hb Hr)) as (i & m & Hi & H). by exists i. Qed.

Definition small_part v : Prop := len v <= PAYLOAD_SIZE.

Lemma packet_room t policy id n i v : small_part v -> len (packet t policy id n i v) <= PAYLOAD_ROOM.
Proof using. unfold small_part. rewrite packet_length. unfold PAYLOAD_SIZE, PAYLOAD_ROOM, BUFLEN, SIZEOF_HEADER. lia. Qed.

Lemma set_requests_id e : set_requests (e_partial e) (e_served e) e = e.
Proof using. by destruct e. Qed.

Section Server.
Context (policy id : Z) (src : r2p2_host_tuple) (sock : option Z) (n : nat) (e : endpoint).
Context (Hpol : plain policy) (Hid : in_u 16 id) (Hn : (0 < n < 255)%nat) (Hfn : e_rfn e = true) (Hafc : e_afc e <> Some 0) (Hnew : find_partial id src e = None).
Context (Hb : buffers e + Z.of_nat n + 2 <= BUFPOOL_SIZE) (Hr : requests e + 1 < POOL_SIZE).

Lemma recv_rest i vs2 : i ∉ (e_partial e).*1 -> forall s vs1, vs1 <> [] -> vs2 <> [] -> (length vs1 + length vs2 = n)%nat -> Forall small_part vs2 ->
  stands_for s (gathering policy id src n e i vs1) ->
  exists s', recv_all sendto_ok sock src (imap (fun j => packet REQUEST_MSG policy id n (length vs1 + j)) vs2) s = Ok (tt, s') /\
    stands_for s' (delivered policy id src n e i (vs1 ++ vs2)) /\ out s' = out s ++ [RecvFn i (vs1 ++ vs2)].
Proof using Hpol Hid Hn Hfn Hnew Hb Hr Hsend.
  intros Hi. induction vs2 as [|v vs2 IH]; intros s vs1 H1 H2 Hl Hp Hs; [done|]. apply Forall_cons in Hp as [Hv Hp]. cbn [imap recv_all]. rewrite Nat.add_0_r. cbn [length] in Hl.
  destruct (recv_step s (gathering policy id src n e i vs1) sock src (packet REQUEST_MSG policy id n (length vs1) v) Hs) as (i' & _ & Ha).
  { by apply packet_room. }
  { unfold gathering. rewrite buffers_partial, set_requests_id. cbn [gathered q_pkts]. rewrite length_imap. lia. }
  { unfold gathering. rewrite requests_partial, set_requests_id. lia. }
  rewrite recv_next in Ha by (done || lia). destruct vs2 as [|v' vs2].
  - rewrite decide_True in Ha by (cbn in Hl; lia). destruct Ha as (s' & E & Hs' & Ho). exists s'. mrun E. done.
  - rewrite decide_False in Ha by (cbn in Hl; lia). destruct Ha as (s' & E & Hs' & Ho). destruct (IH s' (vs1 ++ [v])) as (s2 & E2 & Hs2 & Ho2); try done.
    { by destruct vs1. }
    { rewrite length_app. cbn in *. lia. }
    exists s2. mrun E. split_and!; [|by rewrite <- app_assoc in Hs2|rewrite Ho2, Ho, app_nil_r, <- app_assoc; done].
    rewrite <- E2. f_equal. apply imap_ext. intros j x _. cbn. f_equal. rewrite length_app. cbn. lia.
Qed.

Lemma recv_request s vs : length vs = n -> Forall small_part vs -> stands_for s e ->
  exists s' i, recv_all sendto_ok sock src (packets REQUEST_MSG policy id vs) s = Ok (tt, s') /\ ~ is_request e i /\ stands_for s' (delivered policy id src n e i vs) /\
    out s' = out s ++ (if bool_decide (n = 1%nat) then [] else [Datagram None src (control_packet ack_payload ACK_MSG id)]) ++ [RecvFn i vs].
Proof using Hpol Hid Hn Hfn Hafc Hnew Hb Hr Hsend.
  intros Hl Hp Hs. destruct vs as [|v vs]; [cbn in Hl; lia|]. apply Forall_cons in Hp as [Hv Hp]. unfold packets. rewrite Hl. cbn [imap recv_all].
  destruct (recv_step s e sock src (packet REQUEST_MSG policy id n 0 v) Hs) as (i & Hi & Ha); [by apply packet_room|lia|lia|].
  assert (i ∉ (e_partial e).*1) as Hip by (intros H; apply Hi; by left). destruct (decide (n = 1%nat)) as [H1|H1].
  - rewrite recv_only in Ha by done. destruct Ha as (s' & E & Hs' & Ho). destruct vs; [|cbn in Hl; lia]. exists s', i. mrun E. rewrite bool_decide_true by done. done.
  - rewrite recv_first in Ha by (done || lia). destruct Ha as (s' & E & Hs' & Ho). destruct (recv_rest i vs Hip s' [v]) as (s2 & E2 & Hs2 & Ho2); try done.
    { intros ->. cbn in Hl. lia. }
    exists s2, i. mrun E. rewrite bool_decide_false by done. split_and!; try done. by rewrite Ho2, Ho, <- app_assoc.
Qed.
End Server.

Section Client.
Context (id k : Z) (src : r2p2_host_tuple) (n : nat) (e : endpoint) (i : Z) (c : call).
Context (Hid : in_u 16 id) (Hn : (0 < n < 255)%nat) (Hc : find_call id (port (e_hosts e k)) e = Some (i, c)) (Hst : c_state c = R2P2_W_RESPONSE) (Hrep : c_rep c = []).
Context (Hnd : NoDup (e_calls e).*1) (Hb : buffers e + Z.of_nat n + 2 <= BUFPOOL_SIZE) (Hr : requests e < POOL_SIZE).

Lemma waiting_buffers vs : buffers (waiting id src n e i c vs) = buffers e + Z.of_nat (length vs).
Proof using Hc Hn Hrep Hnd.
  assert ((i, c) ∈ e_calls e) as Hi by (by apply list_find_elem in Hc as [? _]). pose proof (buffers_set_call i c (replied id src n c vs) e Hnd Hi) as H. unfold waiting.
  unfold weight in H. cbn [snd replied with_from with_reply c_req c_rep] in H. rewrite Hrep, length_imap in H. cbn [length] in H. lia.
Qed.

Lemma reply_rest vs2 : forall s vs1, vs1 <> [] -> vs2 <> [] -> (length vs1 + length vs2 = n)%nat -> Forall small_part vs2 -> stands_for s (waiting id src n e i c vs1) ->
  exists s', recv_all sendto_ok (Some k) src (imap (fun j => packet RESPONSE_MSG FIXED_ROUTE id n (length vs1 + j)) vs2) s = Ok (tt, s') /\
    stands_for s' (answered id src n e i c (vs1 ++ vs2)) /\ out s' = out s ++ [SuccessCb i (ctx_arg (c_ctx c)) (vs1 ++ vs2)].
Proof using Hid Hn Hc Hst Hrep Hnd Hb Hr Hsend.
  induction vs2 as [|v vs2 IH]; intros s vs1 H1 H2 Hl Hp Hs; [done|]. apply Forall_cons in Hp as [Hv Hp]. cbn [imap recv_all]. rewrite Nat.add_0_r. cbn [length] in Hl.
  destruct (recv_step s (waiting id src n e i c vs1) (Some k) src (packet RESPONSE_MSG FIXED_ROUTE id n (length vs1) v) Hs) as (i' & _ & Ha);
    [by apply packet_room|rewrite waiting_buffers; lia|done|].
  rewrite reply_next in Ha by (done || lia). destruct vs2 as [|v' vs2].
  - rewrite decide_True in Ha by (cbn in Hl; lia). destruct Ha as (s' & E & Hs' & Ho). exists s'. mrun E. done.
  - rewrite decide_False in Ha by (cbn in Hl; lia). destruct Ha as (s' & E & Hs' & Ho). destruct (IH s' (vs1 ++ [v])) as (s2 & E2 & Hs2 & Ho2); try done.
    { by destruct vs1. }
    { rewrite length_app. cbn in *. lia. }
    exists s2. mrun E. split_and!; [|by rewrite <- app_assoc in Hs2|rewrite Ho2, Ho, app_nil_r, <- app_assoc; done].
    rewrite <- E2. f_equal. apply imap_ext. intros j x _. cbn. f_equal. rewrite length_app. cbn. lia.
Qed.

Lemma recv_reply s vs : length vs = n -> Forall small_part vs -> stands_for s e ->
  exists s', recv_all sendto_ok (Some k) src (packets RESPONSE_MSG FIXED_ROUTE id vs) s = Ok (tt, s') /\ stands_for s' (answered id src n e i c vs) /\
    out s' = out s ++ [SuccessCb i (ctx_arg (c_ctx c)) vs].
Proof using Hid Hn Hc Hst Hrep Hnd Hb Hr Hsend.
  intros Hl Hp Hs. destruct vs as [|v vs]; [cbn in Hl; lia|]. apply Forall_cons in Hp as [Hv Hp]. unfold packets. rewrite Hl. cbn [imap recv_all].
  destruct (recv_step s e (Some k) src (packet RESPONSE_MSG FIXED_ROUTE id n 0 v) Hs) as (i' & _ & Ha); [by apply packet_room|lia|lia|].
  rewrite (reply_first id k src n e i c) in Ha by done. destruct (decide (n = 1%nat)) as [H1|H1]; destruct Ha as (s' & E & Hs' & Ho).
  - destruct vs; [|cbn in Hl; lia]. exists s'. mrun E. done.
  - destruct (reply_rest vs s' [v]) as (s2 & E2 & Hs2 & Ho2); try done.
    { intros ->. cbn in Hl. lia. }
    exists s2. mrun E. split_and!; try done. by rewrite Ho2, Ho, app_nil_r.
Qed.
End Client.
End Deliver.

(** ** A remote call

    Two endpoints of the code and the datagrams between them: the request reaches the application of the server, and the reply that of the client. *)

(** ** Fragments *)

Lemma chunks_small l : Forall small_part (chunks l).
Proof.
  unfold chunks. generalize (length l). intros f. revert l. induction f as [|f IH]; intros [|x l]; try (by apply Forall_nil). cbn [chunks_go]. apply Forall_cons. split; [|apply IH].
  unfold small_part, len. rewrite length_take. change (Z.to_nat PAYLOAD_SIZE) with 1464%nat. unfold PAYLOAD_SIZE, SIZEOF_HEADER. lia.
Qed.

Lemma fragments_small small l : Forall small_part (fragments small l).
Proof.
  unfold fragments. destruct small; [|apply chunks_small]. apply Forall_cons. split; [|apply chunks_small].
  unfold small_part, len. rewrite length_take. unfold MIN_PAYLOAD_SIZE, PAYLOAD_SIZE, SIZEOF_HEADER. lia.
Qed.

Lemma fragments_some small iov : iov_ok iov -> (0 < length (fragments small (concat iov)))%nat.
Proof. intros [Hi Hp]. destruct (length (fragments small (concat iov))) eqn:E; [|lia]. exfalso. by eapply fragments_nonempty. Qed.

(** ** Counting *)

Lemma length_concat_perm {A} (l1 l2 : list (list A)) : l1 ≡ₚ l2 -> length (concat l1) = length (concat l2).
Proof. induction 1; cbn [concat]; rewrite ?length_app; lia. Qed.

Lemma buffers_served l i q m e : m !! i = None -> buffers (set_requests l (<[i := q]> m) e) = buffers (set_requests l m e) + Z.of_nat (length (q_pkts q)).
Proof.
  intros Hi. unfold buffers, messages. cbn [e_calls e_partial e_served set_requests]. rewrite !fmap_app, !concat_app, !length_app.
  rewrite (length_concat_perm ((fun x : Z * request => (SReq x.1, q_pkts x.2)) <$> map_to_list (<[i := q]> m)).*2 (q_pkts q :: ((fun x : Z * request => (SReq x.1, q_pkts x.2)) <$> map_to_list m).*2)) by (rewrite map_to_list_insert by done; done).
  cbn [concat]. rewrite length_app. lia.
Qed.

(** ** The steps of the call *)

Definition swapped (h : r2p2_host_tuple) : r2p2_host_tuple := mk_host (swap32 (ip h)) (swap16 (port h)).

(** The sockets of the client can be told apart by their ports, and one of them is free. *)
Record client_ready e (nreq nrep : nat) : Prop := {
  cr_ports : forall a b, 0 <= a < SOCKPOOL_SIZE -> 0 <= b < SOCKPOOL_SIZE -> port (e_hosts e a) = port (e_hosts e b) -> a = b;
  cr_socket : exists n, 0 <= n < SOCKPOOL_SIZE /\ forall j c, (j, c) ∈ e_calls e -> c_sock c <> n;
  cr_pairs : Z.of_nat (length (e_calls e)) < POOL_SIZE /\ requests e < POOL_SIZE;
  cr_buffers : buffers e + Z.of_nat nreq + Z.of_nat nrep + 2 <= BUFPOOL_SIZE
}.

(** The server takes requests, and has no part of another one with the same number from the same client. *)
Record server_ready e (client : r2p2_host_tuple) (id : Z) (nreq nrep : nat) : Prop := {
  sr_fn : e_rfn e = true;
  sr_afc : e_afc e <> Some 0;
  sr_new : find_partial id client e = None;
  sr_pairs : requests e + 1 < POOL_SIZE;
  sr_buffers : buffers e + Z.of_nat nreq + Z.of_nat nrep + 2 <= BUFPOOL_SIZE
}.

Section Rpc.
Context (sendto_ok : r2p2_host_tuple -> bytes -> bool) (Hsend : forall h d, sendto_ok h d = true).

(** The call that waits for its reply. *)
Definition new_call (ctx : r2p2_ctx) (n id : Z) (ds : list bytes) : call :=
  mk_call ctx n (timeout ctx) (if bool_decide (length ds = 1%nat) then R2P2_W_RESPONSE else R2P2_W_ACK) id ds [] 0 0 zero_host.
Definition called e (ctx : r2p2_ctx) (j n : Z) (ds : list bytes) : endpoint :=
  let id := u16 (e_rid e + 1) in mk_endpoint (e_calls e ++ [(j, new_call ctx n id ds)]) (e_partial e) (e_served e) id (e_hosts e) (e_rfn e) (e_afc e).

Lemma send_step (c0 : r2p2) e iov ctx nrep : let req := fragments (is_small REQUEST_MSG iov) (concat iov) in
  let ds := packets REQUEST_MSG (routing_policy ctx) (u16 (e_rid e + 1)) req in
  stands_for c0 e -> iov_ok iov -> 0 <= timeout ctx -> client_ready e (length req) nrep ->
  exists j n (c1 : r2p2), 0 <= n < SOCKPOOL_SIZE /\ (forall i c, (i, c) ∈ e_calls e -> c_sock c <> n) /\ r2p2_send_req sendto_ok iov ctx c0 = Ok (tt, c1) /\ stands_for c1 (called e ctx j n ds) /\
    out c1 = out c0 ++ datagrams (Some n) (destination ctx) (take 1 ds).
Proof using Hsend.
  intros req ds Hs Hiov Ht [_ (n0 & Hn0 & Hf0) [Hp _] Hb]. destruct (run_refines sendto_ok Hsend c0 e (SendReq iov ctx) Hs Hiov) as (j & n & [_ Hn] & H).
  { split; [done|]. fold req. lia. }
  destruct n as [n|]; [|exfalso; destruct (Hn n0 Hn0) as (i & c & Hi & E); by apply (Hf0 i c)]. cbn [spec_op spec_send_req run] in H. rewrite (proj2 (Z.leb_le _ _) Ht) in H.
  destruct H as (c1 & E & Hs1 & Ho). destruct Hn as [Hn Hf]. exists j, n, c1. split_and!; try done; apply Hn.
Qed.

Lemma find_called own s e ctx j n ds : sim [] own s e -> (forall a b, 0 <= a < SOCKPOOL_SIZE -> 0 <= b < SOCKPOOL_SIZE -> port (e_hosts e a) = port (e_hosts e b) -> a = b) ->
  0 <= n < SOCKPOOL_SIZE -> (forall i c, (i, c) ∈ e_calls e -> c_sock c <> n) ->
  find_call (u16 (e_rid e + 1)) (port (e_hosts e n)) (called e ctx j n ds) = Some (j, new_call ctx n (u16 (e_rid e + 1)) ds).
Proof using.
  intros Hsim Hports Hn Hf. unfold find_call, called. cbn [e_calls e_hosts]. rewrite list_find_app_r.
  - cbn [list_find]. rewrite decide_True; [done|]. cbn. by rewrite !Z.eqb_refl.
  - apply list_find_None, Forall_forall. intros [i c] Hi Hx. cbn in Hx. apply Is_true_true, andb_true_iff in Hx as [Hx _]. apply Z.eqb_eq in Hx.
    apply (Hf i c Hi), Hports; [|done..]. by apply (so_call _ _ _ _ _ (si_socks _ _ _ _ Hsim) i c).
Qed.

Lemma ack_step (c1 : r2p2) x server id n j c : stands_for c1 x -> find_call id (port (e_hosts x n)) x = Some (j, c) -> c_state c = R2P2_W_ACK -> in_u 16 id ->
  buffers x + 2 <= BUFPOOL_SIZE -> requests x < POOL_SIZE ->
  exists c2 : r2p2, poll_recv sendto_ok (Some n) server (Some (control_packet ack_payload ACK_MSG id)) c1 = Ok (tt, c2) /\
    stands_for c2 (set_call j (with_state R2P2_W_RESPONSE (with_from (swapped server) c)) x) /\
    out c2 = out c1 ++ datagrams (Some (c_sock c)) (swapped server) (drop 1 (c_req c)).
Proof using Hsend.
  intros Hs Hf Hst Hid Hb Hr. destruct (recv_step sendto_ok Hsend c1 x (Some n) server (control_packet ack_payload ACK_MSG id) Hs) as (i & _ & Ha); [|done|done|].
  { by apply packet_room. }
  unfold spec_recv, control_packet in Ha. rewrite packet_header in Ha by done. cbn [mbind option_bind] in Ha. set (h := wire_header ACK_MSG FIXED_ROUTE id 1 0) in *.
  assert (is_raft_single_msg h = false /\ is_response h = true /\ get_msg_type h = ACK_MSG) as (W1 & W2 & W3) by (by vm_compute). rewrite W1, W2 in Ha. unfold spec_response in Ha.
  change (h_rid h) with id in Ha. rewrite Hf in Ha. cbv zeta in Ha. rewrite W3 in Ha. cbn [ACK_MSG RAFT_REP RESPONSE_MSG Z.eqb] in Ha. unfold spec_ack in Ha. rewrite packet_length in Ha.
  cbn [with_from c_state] in Ha. rewrite bool_decide_true in Ha by done. exact Ha.
Qed.

Lemma delete_delivered policy id src n e i vs : e_served e !! i = None -> set_requests (e_partial e) (delete i (e_served (delivered policy id src n e i vs))) (delivered policy id src n e i vs) = e.
Proof using. intros Hi. unfold delivered. cbn. rewrite is_Some_delete_fresh by done. by destruct e. Qed.

Lemma send_delivered policy id src n e i v vs iov : e_served e !! i = None -> plain policy -> in_u 16 id ->
  spec_send_response i iov (delivered policy id src n e i (v :: vs)) =
  Some (e, datagrams None src (packets RESPONSE_MSG FIXED_ROUTE id (fragments false (concat iov)))).
Proof using.
  intros Hi Hpol Hid. destruct (request_wire policy id n 0 Hpol) as (_ & _ & _ & W & _). unfold spec_send_response.
  assert (e_served (delivered policy id src n e i (v :: vs)) !! i = Some (gathered policy id src n (v :: vs))) as -> by apply lookup_insert_eq.
  cbn [mbind option_bind]. assert (head (q_pkts (gathered policy id src n (v :: vs))) = Some (kept REQUEST_MSG policy id n 0 v)) as -> by done. cbn [mbind option_bind].
  assert (header_of (kept REQUEST_MSG policy id n 0 v) = Some (wire_header REQUEST_MSG policy id n 0)) as ->.
  { unfold kept, stored. apply header_of_bytes; [done|]. apply wrap_range. lia. }
  cbn [mbind option_bind]. rewrite W. change (e_partial (delivered policy id src n e i (v :: vs))) with (e_partial e). by rewrite delete_delivered.
Qed.

Lemma response_step v1 e policy id client n i vs iov : let rep := fragments false (concat iov) in
  stands_for v1 (delivered policy id client n e i vs) -> e_served e !! i = None -> plain policy -> in_u 16 id -> vs <> [] -> iov_ok iov ->
  buffers e + Z.of_nat (length vs) + Z.of_nat (length rep) <= BUFPOOL_SIZE ->
  exists v2, r2p2_send_response sendto_ok i iov v1 = Ok (tt, v2) /\ stands_for v2 e /\ out v2 = out v1 ++ datagrams None client (packets RESPONSE_MSG FIXED_ROUTE id rep).
Proof using Hsend.
  intros rep Hs Hi Hpol Hid Hvs Hiov Hb. destruct vs as [|v vs]; [done|].
  destruct (run_refines sendto_ok Hsend v1 _ (SendResponse i iov) Hs) as (i0 & n0 & _ & Ha).
  { split; [|done]. cbn. rewrite lookup_insert_eq. by eexists. }
  { cbn [room]. fold rep. unfold delivered. rewrite buffers_served, set_requests_id by done. cbn [gathered q_pkts]. rewrite length_imap. lia. }
  cbn [spec_op run] in Ha. rewrite send_delivered in Ha by done. exact Ha.
Qed.
Lemma stands_nodup s e : stands_for s e -> NoDup (e_calls e).*1.
Proof using. intros [_ [own Hsim]]. by eapply calls_nodup. Qed.

Lemma buffers_called e ctx j n ds : buffers (called e ctx j n ds) = buffers e + Z.of_nat (length ds).
Proof using.
  change (buffers (called e ctx j n ds)) with (buffers (set_calls (e_calls e ++ [(j, new_call ctx n (u16 (e_rid e + 1)) ds)]) e)). rewrite buffers_calls.
  replace (buffers e) with (buffers (set_calls (e_calls e) e)) by (by destruct e). rewrite (buffers_calls (e_calls e)), sum_list_with_app. unfold weight at 2. cbn. lia.
Qed.

(** The client has sent all and waits for the reply. *)
Lemma client_waits (c0 : r2p2) e ctx j n ds server (c1 : r2p2) : let id := u16 (e_rid e + 1) in
  stands_for c0 e -> stands_for c1 (called e ctx j n ds) ->
  (forall a b, 0 <= a < SOCKPOOL_SIZE -> 0 <= b < SOCKPOOL_SIZE -> port (e_hosts e a) = port (e_hosts e b) -> a = b) ->
  0 <= n < SOCKPOOL_SIZE -> (forall i c, (i, c) ∈ e_calls e -> c_sock c <> n) -> buffers e + Z.of_nat (length ds) + 2 <= BUFPOOL_SIZE -> requests e < POOL_SIZE ->
  exists (c2 : r2p2) x c,
    (if bool_decide (length ds = 1%nat) then c2 = c1
     else poll_recv sendto_ok (Some n) server (Some (control_packet ack_payload ACK_MSG id)) c1 = Ok (tt, c2) /\ out c2 = out c1 ++ datagrams (Some n) (swapped server) (drop 1 ds)) /\
    stands_for c2 x /\ find_call id (port (e_hosts e n)) x = Some (j, c) /\ c_state c = R2P2_W_RESPONSE /\ c_rep c = [] /\ c_ctx c = ctx /\
    buffers x = buffers e + Z.of_nat (length ds) /\ requests x = requests e /\ e_hosts x = e_hosts e.
Proof using Hsend.
  intros id [_ [own Hsim]] Hc1 Hports Hn Hfree Hb Hr. pose proof (find_called own c0 e ctx j n ds Hsim Hports Hn Hfree) as Hf. pose proof (buffers_called e ctx j n ds) as Hbc.
  destruct (bool_decide (length ds = 1%nat)) eqn:E1.
  - exists c1, (called e ctx j n ds), (new_call ctx n id ds). split_and!; try done. cbn. by rewrite E1.
  - assert (c_state (new_call ctx n id ds) = R2P2_W_ACK) as Hst by (cbn; by rewrite E1).
    destruct (ack_step c1 (called e ctx j n ds) server id n j _ Hc1 Hf Hst) as (c2 & E & Hc2 & Ho); [apply wrap_range; lia|lia|done|].
    eexists c2, _, _. split; [by split|]. split; [exact Hc2|]. split; [by apply (find_call_set _ _ _ _ (new_call ctx n id ds))|]. split_and!; try done.
    pose proof Hf as [Hi _]%list_find_elem. pose proof (buffers_set_call j _ (with_state R2P2_W_RESPONSE (with_from (swapped server) (new_call ctx n id ds))) _ (stands_nodup _ _ Hc1) Hi) as H.
    unfold weight in H. cbn [snd with_state with_from new_call c_req c_rep] in H. subst id. lia.
Qed.
End Rpc.


(** ** Witness *)

Definition blank_server : r2p2 := set_callbacks true None blank_endpoint.
Definition blank_peer : endpoint := set_fns true None (init_endpoint blank_hosts).

Lemma blank_server_stands : stands_for blank_server blank_peer.
Proof. destruct blank_stands as [Hw [own Hsim]]. split; [by eapply wf_same|]. exists own. destruct Hsim. by split. Qed.

Lemma blank_ports a b : 0 <= a < SOCKPOOL_SIZE -> 0 <= b < SOCKPOOL_SIZE -> port (blank_hosts a) = port (blank_hosts b) -> a = b.
Proof. unfold SOCKPOOL_SIZE, blank_hosts, ephemeral_port. cbn [port]. intros Ha Hb. rewrite !wrap_small by (unfold in_u; lia). lia. Qed.


(** ** Datagrams that end the process *)

(** What cannot be treated: a datagram without a header; a single message of Raft; a request of one packet that is replicated or of Raft, or any that comes while there is
    no application; and a reply to a call that waits for the server to take its request, or the other way round. *)
Definition hostile_header e (p : Z) (h : r2p2_header) : Prop :=
  is_raft_single_msg h = true \/
  (is_response h = false /\ is_first h = true /\ is_last h = true /\ p_order h = 1 /\ ~ (get_msg_type h = REQUEST_MSG /\ e_afc e = Some 0) /\
    (is_raft_msg h = true \/ is_replicated_req h = true \/ e_rfn e = false)) \/
  (is_response h = true /\ exists i c, find_call (h_rid h) p e = Some (i, c) /\
    (get_msg_type h = RAFT_REP \/ (get_msg_type h = ACK_MSG /\ c_state c = R2P2_W_RESPONSE) \/ (get_msg_type h = RESPONSE_MSG /\ c_state c = R2P2_W_ACK))).

Definition hostile e (sock : option Z) (d : bytes) : Prop :=
  len d < SIZEOF_HEADER \/ exists h, host_header <$> header_of d = Some h /\ hostile_header e (port (match sock with Some k => e_hosts e k | None => zero_host end)) h.

Lemma hostile_spec e sock src d i : hostile e sock d -> spec_recv i sock src d e = None.
Proof.
  intros [Hd|(h & Hh & Hx)]; unfold spec_recv; [by rewrite header_short|]. rewrite Hh. cbn [mbind option_bind]. destruct (is_raft_single_msg h) eqn:E0; [done|].
  destruct Hx as [?|[(E1 & E2 & E3 & E4 & E5 & E6)|(E1 & j & c & Ef & Hx)]]; [congruence|..].
  - rewrite E1. unfold spec_request. rewrite E2. replace ((get_msg_type h =? REQUEST_MSG) && bool_decide (e_afc e = Some 0)) with false.
    2:{ symmetry. apply andb_false_iff. destruct (Z.eqb_spec (get_msg_type h) REQUEST_MSG) as [Et|Et]; [right; apply bool_decide_false; tauto|by left]. }
    rewrite E3. unfold spec_packet. rewrite E3. cbn [negb add_packet q_rcv q_exp]. rewrite E4. cbn [Z.eqb negb].
    destruct E6 as [->|[->| ->]]; cbn [orb negb]; rewrite ?orb_true_r; done.
  - rewrite E1. unfold spec_response. rewrite Ef. cbv zeta. destruct Hx as [Et|[[Et Es]|[Et Es]]]; rewrite Et; cbn [RAFT_REP RESPONSE_MSG ACK_MSG Z.eqb]; [done|..].
    + unfold spec_ack. cbn [with_from c_state]. by rewrite Es.
    + unfold spec_reply. cbn [with_from c_state]. by rewrite Es.
Qed.

(** C11: one datagram ends the process.  Whatever an endpoint is doing, a datagram of less than 8 bytes, a single message of Raft, a request of one packet
    with a replicated route or of Raft, and an acknowledgement that comes twice or a reply that comes too early make an assertion fail; and a datagram of more
    than 2032 bytes is written over the end of its buffer. *)
Theorem hostile_datagrams sendto_ok s e sock src d : (forall h d, sendto_ok h d = true) -> stands_for s e -> buffers e + 2 <= BUFPOOL_SIZE -> requests e < POOL_SIZE ->
  (PAYLOAD_ROOM < len d -> poll_recv sendto_ok sock src (Some d) s = Undef) /\
  (len d <= PAYLOAD_ROOM -> hostile e sock d -> poll_recv sendto_ok sock src (Some d) s = Err AssertFails).
Proof.
  intros Hsend Hs Hb Hr. split.
  - intros Hd. destruct Hs as [_ [own Hsim]]. rewrite <- (buffers_used _ _ _ Hsim) in Hb. destruct (get_hand_ok own s e Hsim) as (gb & p1 & own1 & E1 & Hsim1 & _); [lia|].
    unfold poll_recv. mrun E1. pose proof (bo_room _ _ (si_bufs _ _ _ _ Hsim1) gb) as Hroom. unfold mbind, M_bind, buf_write, poke. unfold len, PAYLOAD_ROOM, BUFLEN in *.
    rewrite (proj2 (Z.leb_gt (0 + _) _)); [done|]. rewrite length_take. lia.
  - intros Hd Hx. destruct (recv_step sendto_ok Hsend s e sock src d Hs Hd Hb Hr) as (i & _ & Ha). by rewrite hostile_spec in Ha.
Qed.

Lemma hostile_datagrams_witness :
  (forall sock src, poll_recv (fun _ _ => true) sock src (Some [0xCC; 8; 0]) blank_endpoint = Err AssertFails) /\
  poll_recv (fun _ _ => true) None (mk_host 1 2) (Some (packet REQUEST_MSG REPLICATED_ROUTE 5 1 0 [1])) blank_server = Err AssertFails /\
  poll_recv (fun _ _ => true) None (mk_host 1 2) (Some (replicate 2033 0)) blank_endpoint = Undef.
Proof.
  split_and!.
  - intros sock src. apply (hostile_datagrams _ _ (init_endpoint blank_hosts)); [done|apply blank_stands|by vm_compute|by vm_compute|by vm_compute|by left].
  - apply (hostile_datagrams _ _ blank_peer); [done|apply blank_server_stands|by vm_compute|by vm_compute|by vm_compute|]. right.
    exists (wire_header REQUEST_MSG REPLICATED_ROUTE 5 1 0). split; [by vm_compute|]. right. left. split_and!; try (by vm_compute); [by intros [_ ?]|right; left; by vm_compute].
  - apply (hostile_datagrams _ _ (init_endpoint blank_hosts)); [done|apply blank_stands|by vm_compute|by vm_compute|by vm_compute].
Defined.
