(* ===== verification/StpState.v ===== *)
(** * State of the spanning tree protocol (lib/stp.c, lib/stp.h)

    A bridge is a record; its ports are a list, and a pointer to a port is its index.  The fields
    that the code assigns together are records of their own.  [int] arithmetic that overflows is
    [None]; the counters of BPDUs are taken to be unbounded. *)

From S2P Require Import Prelude MapDef OfpBuf DpPacket OfpMsgs.

Definition STP_DEFAULT_BRIDGE_PRIORITY : Z := 32768.
Definition STP_DEFAULT_PORT_PRIORITY : Z := 128.
Definition STP_DEFAULT_MAX_AGE : Z := 20000.
Definition STP_DEFAULT_HELLO_TIME : Z := 2000.
Definition STP_DEFAULT_FWD_DELAY : Z := 15000.
Definition STP_MAX_PORTS : nat := 255.
Definition STP_PROTOCOL_ID : Z := 0.
Definition STP_PROTOCOL_VERSION : Z := 0.
Definition STP_TYPE_CONFIG : Z := 0.
Definition STP_TYPE_TCN : Z := 128.
Definition STP_CONFIG_TOPOLOGY_CHANGE_ACK : Z := 128.
Definition STP_CONFIG_TOPOLOGY_CHANGE : Z := 1.
Definition MESSAGE_AGE_INCREMENT : Z := 1.

(** [STP_NONE] is the zero of fresh memory. *)
Inductive stp_state : Set :=
| STP_NONE
| STP_DISABLED
| STP_LISTENING
| STP_LEARNING
| STP_FORWARDING
| STP_BLOCKING.

#[export] Instance stp_state_eq_dec : EqDecision stp_state.
Proof. solve_decision. Defined.

(** The bit of a state. *)
Definition state_bit (s : stp_state) : Z :=
  match s with
  | STP_NONE => 0
  | STP_DISABLED => 1
  | STP_LISTENING => 2
  | STP_LEARNING => 4
  | STP_FORWARDING => 8
  | STP_BLOCKING => 16
  end.

(** [state & (a | b | ...)]. *)
Definition state_in (s : stp_state) (mask : list stp_state) : bool :=
  negb (Z.land (state_bit s) (foldr (fun a m => Z.lor (state_bit a) m) 0 mask) =? 0).

Inductive stp_role : Set := STP_ROLE_ROOT | STP_ROLE_DESIGNATED | STP_ROLE_ALTERNATE | STP_ROLE_DISABLED.

Record stp_timer : Set := mk_timer { active : bool; value : Z }.

(** What a port knows of the bridge designated for its segment. *)
Record port_info : Set := mk_info {
  designated_root : Z;
  designated_cost : Z;
  designated_bridge : Z;
  designated_port : Z
}.

(** Three times: of the root, of this bridge, and as requested. *)
Record stp_times : Set := mk_times { max_age : Z; hello_time : Z; forward_delay : Z }.

Record stp_port : Set := mk_port {
  port_name : option string;
  aux : option Z;
  port_id : Z;
  state : stp_state;
  path_cost : Z;
  info : port_info;
  topology_change_ack : bool;
  config_pending : bool;
  change_detection_enabled : bool;
  message_age_timer : stp_timer;
  forward_delay_timer : stp_timer;
  hold_timer : stp_timer;
  tx_count : Z;
  rx_count : Z;
  error_count : Z;
  state_changed : bool
}.

(** [sent] are the packets handed to the client's [send_bpdu], the last one first. *)
Record stp : Set := mk_stp {
  name : string;
  bridge_id : Z;
  times : stp_times;
  bridge_times : stp_times;
  rq_times : stp_times;
  elapsed_remainder : Z;
  stp_designated_root : Z;
  root_path_cost : Z;
  root_port : option nat;
  topology_change_detected : bool;
  topology_change : bool;
  hello_timer : stp_timer;
  tcn_timer : stp_timer;
  topology_change_timer : stp_timer;
  ports : list stp_port;
  fdb_needs_flush : bool;
  first_changed_port : nat;
  sent : list (nat * dp_packet)
}.

(** ** Assignments *)

Definition put_port_name (v : option string) (p : stp_port) : stp_port :=
  mk_port
    v (aux p) (port_id p) (state p) (path_cost p) (info p) (topology_change_ack p) (config_pending p)
    (change_detection_enabled p) (message_age_timer p) (forward_delay_timer p) (hold_timer p) (tx_count p)
    (rx_count p) (error_count p) (state_changed p).
Definition put_aux (v : option Z) (p : stp_port) : stp_port :=
  mk_port
    (port_name p) v (port_id p) (state p) (path_cost p) (info p) (topology_change_ack p) (config_pending p)
    (change_detection_enabled p) (message_age_timer p) (forward_delay_timer p) (hold_timer p) (tx_count p)
    (rx_count p) (error_count p) (state_changed p).
Definition put_port_id (v : Z) (p : stp_port) : stp_port :=
  mk_port
    (port_name p) (aux p) v (state p) (path_cost p) (info p) (topology_change_ack p) (config_pending p)
    (change_detection_enabled p) (message_age_timer p) (forward_delay_timer p) (hold_timer p) (tx_count p)
    (rx_count p) (error_count p) (state_changed p).
Definition put_path_cost (v : Z) (p : stp_port) : stp_port :=
  mk_port
    (port_name p) (aux p) (port_id p) (state p) v (info p) (topology_change_ack p) (config_pending p)
    (change_detection_enabled p) (message_age_timer p) (forward_delay_timer p) (hold_timer p) (tx_count p)
    (rx_count p) (error_count p) (state_changed p).
Definition put_info (v : port_info) (p : stp_port) : stp_port :=
  mk_port
    (port_name p) (aux p) (port_id p) (state p) (path_cost p) v (topology_change_ack p) (config_pending p)
    (change_detection_enabled p) (message_age_timer p) (forward_delay_timer p) (hold_timer p) (tx_count p)
    (rx_count p) (error_count p) (state_changed p).
Definition put_topology_change_ack (v : bool) (p : stp_port) : stp_port :=
  mk_port
    (port_name p) (aux p) (port_id p) (state p) (path_cost p) (info p) v (config_pending p)
    (change_detection_enabled p) (message_age_timer p) (forward_delay_timer p) (hold_timer p) (tx_count p)
    (rx_count p) (error_count p) (state_changed p).
Definition put_config_pending (v : bool) (p : stp_port) : stp_port :=
  mk_port
    (port_name p) (aux p) (port_id p) (state p) (path_cost p) (info p) (topology_change_ack p) v
    (change_detection_enabled p) (message_age_timer p) (forward_delay_timer p) (hold_timer p) (tx_count p)
    (rx_count p) (error_count p) (state_changed p).
Definition put_change_detection_enabled (v : bool) (p : stp_port) : stp_port :=
  mk_port
    (port_name p) (aux p) (port_id p) (state p) (path_cost p) (info p) (topology_change_ack p) (config_pending
    p) v (message_age_timer p) (forward_delay_timer p) (hold_timer p) (tx_count p) (rx_count p) (error_count
    p) (state_changed p).
Definition put_message_age_timer (v : stp_timer) (p : stp_port) : stp_port :=
  mk_port
    (port_name p) (aux p) (port_id p) (state p) (path_cost p) (info p) (topology_change_ack p) (config_pending
    p) (change_detection_enabled p) v (forward_delay_timer p) (hold_timer p) (tx_count p) (rx_count p)
    (error_count p) (state_changed p).
Definition put_forward_delay_timer (v : stp_timer) (p : stp_port) : stp_port :=
  mk_port
    (port_name p) (aux p) (port_id p) (state p) (path_cost p) (info p) (topology_change_ack p) (config_pending
    p) (change_detection_enabled p) (message_age_timer p) v (hold_timer p) (tx_count p) (rx_count p)
    (error_count p) (state_changed p).
Definition put_hold_timer (v : stp_timer) (p : stp_port) : stp_port :=
  mk_port
    (port_name p) (aux p) (port_id p) (state p) (path_cost p) (info p) (topology_change_ack p) (config_pending
    p) (change_detection_enabled p) (message_age_timer p) (forward_delay_timer p) v (tx_count p) (rx_count p)
    (error_count p) (state_changed p).
Definition put_tx_count (v : Z) (p : stp_port) : stp_port :=
  mk_port
    (port_name p) (aux p) (port_id p) (state p) (path_cost p) (info p) (topology_change_ack p) (config_pending
    p) (change_detection_enabled p) (message_age_timer p) (forward_delay_timer p) (hold_timer p) v (rx_count
    p) (error_count p) (state_changed p).
Definition put_rx_count (v : Z) (p : stp_port) : stp_port :=
  mk_port
    (port_name p) (aux p) (port_id p) (state p) (path_cost p) (info p) (topology_change_ack p) (config_pending
    p) (change_detection_enabled p) (message_age_timer p) (forward_delay_timer p) (hold_timer p) (tx_count p)
    v (error_count p) (state_changed p).
Definition put_error_count (v : Z) (p : stp_port) : stp_port :=
  mk_port
    (port_name p) (aux p) (port_id p) (state p) (path_cost p) (info p) (topology_change_ack p) (config_pending
    p) (change_detection_enabled p) (message_age_timer p) (forward_delay_timer p) (hold_timer p) (tx_count p)
    (rx_count p) v (state_changed p).
Definition put_state_changed (v : bool) (p : stp_port) : stp_port :=
  mk_port
    (port_name p) (aux p) (port_id p) (state p) (path_cost p) (info p) (topology_change_ack p) (config_pending
    p) (change_detection_enabled p) (message_age_timer p) (forward_delay_timer p) (hold_timer p) (tx_count p)
    (rx_count p) (error_count p) v.
Definition put_state (v : stp_state) (p : stp_port) : stp_port :=
  mk_port
    (port_name p) (aux p) (port_id p) v (path_cost p) (info p) (topology_change_ack p) (config_pending p)
    (change_detection_enabled p) (message_age_timer p) (forward_delay_timer p) (hold_timer p) (tx_count p)
    (rx_count p) (error_count p) (state_changed p).

Definition assign_bridge_id (v : Z) (s : stp) : stp :=
  mk_stp
    (name s) v (times s) (bridge_times s) (rq_times s) (elapsed_remainder s) (stp_designated_root s)
    (root_path_cost s) (root_port s) (topology_change_detected s) (topology_change s) (hello_timer s)
    (tcn_timer s) (topology_change_timer s) (ports s) (fdb_needs_flush s) (first_changed_port s) (sent s).
Definition set_times (v : stp_times) (s : stp) : stp :=
  mk_stp
    (name s) (bridge_id s) v (bridge_times s) (rq_times s) (elapsed_remainder s) (stp_designated_root s)
    (root_path_cost s) (root_port s) (topology_change_detected s) (topology_change s) (hello_timer s)
    (tcn_timer s) (topology_change_timer s) (ports s) (fdb_needs_flush s) (first_changed_port s) (sent s).
Definition set_bridge_times (v : stp_times) (s : stp) : stp :=
  mk_stp
    (name s) (bridge_id s) (times s) v (rq_times s) (elapsed_remainder s) (stp_designated_root s)
    (root_path_cost s) (root_port s) (topology_change_detected s) (topology_change s) (hello_timer s)
    (tcn_timer s) (topology_change_timer s) (ports s) (fdb_needs_flush s) (first_changed_port s) (sent s).
Definition set_rq_times (v : stp_times) (s : stp) : stp :=
  mk_stp
    (name s) (bridge_id s) (times s) (bridge_times s) v (elapsed_remainder s) (stp_designated_root s)
    (root_path_cost s) (root_port s) (topology_change_detected s) (topology_change s) (hello_timer s)
    (tcn_timer s) (topology_change_timer s) (ports s) (fdb_needs_flush s) (first_changed_port s) (sent s).
Definition set_elapsed_remainder (v : Z) (s : stp) : stp :=
  mk_stp
    (name s) (bridge_id s) (times s) (bridge_times s) (rq_times s) v (stp_designated_root s) (root_path_cost
    s) (root_port s) (topology_change_detected s) (topology_change s) (hello_timer s) (tcn_timer s)
    (topology_change_timer s) (ports s) (fdb_needs_flush s) (first_changed_port s) (sent s).
Definition set_topology_change_detected (v : bool) (s : stp) : stp :=
  mk_stp
    (name s) (bridge_id s) (times s) (bridge_times s) (rq_times s) (elapsed_remainder s) (stp_designated_root
    s) (root_path_cost s) (root_port s) v (topology_change s) (hello_timer s) (tcn_timer s)
    (topology_change_timer s) (ports s) (fdb_needs_flush s) (first_changed_port s) (sent s).
Definition set_topology_change (v : bool) (s : stp) : stp :=
  mk_stp
    (name s) (bridge_id s) (times s) (bridge_times s) (rq_times s) (elapsed_remainder s) (stp_designated_root
    s) (root_path_cost s) (root_port s) (topology_change_detected s) v (hello_timer s) (tcn_timer s)
    (topology_change_timer s) (ports s) (fdb_needs_flush s) (first_changed_port s) (sent s).
Definition set_hello_timer (v : stp_timer) (s : stp) : stp :=
  mk_stp
    (name s) (bridge_id s) (times s) (bridge_times s) (rq_times s) (elapsed_remainder s) (stp_designated_root
    s) (root_path_cost s) (root_port s) (topology_change_detected s) (topology_change s) v (tcn_timer s)
    (topology_change_timer s) (ports s) (fdb_needs_flush s) (first_changed_port s) (sent s).
Definition set_tcn_timer (v : stp_timer) (s : stp) : stp :=
  mk_stp
    (name s) (bridge_id s) (times s) (bridge_times s) (rq_times s) (elapsed_remainder s) (stp_designated_root
    s) (root_path_cost s) (root_port s) (topology_change_detected s) (topology_change s) (hello_timer s) v
    (topology_change_timer s) (ports s) (fdb_needs_flush s) (first_changed_port s) (sent s).
Definition set_topology_change_timer (v : stp_timer) (s : stp) : stp :=
  mk_stp
    (name s) (bridge_id s) (times s) (bridge_times s) (rq_times s) (elapsed_remainder s) (stp_designated_root
    s) (root_path_cost s) (root_port s) (topology_change_detected s) (topology_change s) (hello_timer s)
    (tcn_timer s) v (ports s) (fdb_needs_flush s) (first_changed_port s) (sent s).
Definition set_ports (v : list stp_port) (s : stp) : stp :=
  mk_stp
    (name s) (bridge_id s) (times s) (bridge_times s) (rq_times s) (elapsed_remainder s) (stp_designated_root
    s) (root_path_cost s) (root_port s) (topology_change_detected s) (topology_change s) (hello_timer s)
    (tcn_timer s) (topology_change_timer s) v (fdb_needs_flush s) (first_changed_port s) (sent s).
Definition set_fdb_needs_flush (v : bool) (s : stp) : stp :=
  mk_stp
    (name s) (bridge_id s) (times s) (bridge_times s) (rq_times s) (elapsed_remainder s) (stp_designated_root
    s) (root_path_cost s) (root_port s) (topology_change_detected s) (topology_change s) (hello_timer s)
    (tcn_timer s) (topology_change_timer s) (ports s) v (first_changed_port s) (sent s).
Definition set_first_changed_port (v : nat) (s : stp) : stp :=
  mk_stp
    (name s) (bridge_id s) (times s) (bridge_times s) (rq_times s) (elapsed_remainder s) (stp_designated_root
    s) (root_path_cost s) (root_port s) (topology_change_detected s) (topology_change s) (hello_timer s)
    (tcn_timer s) (topology_change_timer s) (ports s) (fdb_needs_flush s) v (sent s).
Definition set_sent (v : list (nat * dp_packet)) (s : stp) : stp :=
  mk_stp
    (name s) (bridge_id s) (times s) (bridge_times s) (rq_times s) (elapsed_remainder s) (stp_designated_root
    s) (root_path_cost s) (root_port s) (topology_change_detected s) (topology_change s) (hello_timer s)
    (tcn_timer s) (topology_change_timer s) (ports s) (fdb_needs_flush s) (first_changed_port s) v.
Definition set_root (id : Z) (cost : Z) (port : option nat) (s : stp) : stp :=
  mk_stp
    (name s) (bridge_id s) (times s) (bridge_times s) (rq_times s) (elapsed_remainder s) id cost port
    (topology_change_detected s) (topology_change s) (hello_timer s) (tcn_timer s) (topology_change_timer s)
    (ports s) (fdb_needs_flush s) (first_changed_port s) (sent s).

(** ** Configuration messages *)

Record stp_config_bpdu : Set := mk_config {
  cf_flags : Z;
  cf_root_id : Z;
  cf_root_path_cost : Z;
  cf_bridge_id : Z;
  cf_port_id : Z;
  cf_message_age : Z;
  cf_max_age : Z;
  cf_hello_time : Z;
  cf_forward_delay : Z
}.

(** [struct stp_bpdu_header]. *)
Definition stp_bpdu_header (bpdu_type : Z) : bytes := be_bytes 2 STP_PROTOCOL_ID ++ [STP_PROTOCOL_VERSION; bpdu_type].

(** The 35 bytes of a configuration message, and the 4 bytes of a notification. *)
Definition config_bytes (c : stp_config_bpdu) : bytes :=
  stp_bpdu_header STP_TYPE_CONFIG ++ [cf_flags c] ++ be_bytes 8 (cf_root_id c) ++ be_bytes 4 (cf_root_path_cost c) ++
  be_bytes 8 (cf_bridge_id c) ++ be_bytes 2 (cf_port_id c) ++ be_bytes 2 (cf_message_age c) ++ be_bytes 2 (cf_max_age c) ++
  be_bytes 2 (cf_hello_time c) ++ be_bytes 2 (cf_forward_delay c).
Definition tcn_bytes : bytes := stp_bpdu_header STP_TYPE_TCN.

Definition config_of_bytes (b : bytes) : option stp_config_bpdu :=
  flags ← be_field b 4 1; root ← be_field b 5 8; cost ← be_field b 13 4; bridge ← be_field b 17 8; port ← be_field b 25 2;
  age ← be_field b 27 2; maxa ← be_field b 29 2; hello ← be_field b 31 2; delay ← be_field b 33 2;
  Some (mk_config flags root cost bridge port age maxa hello delay).
