(* ===== verification/Stp.v ===== *)
(** * The spanning tree protocol (lib/stp.c)

    Every function takes the bridge and gives the bridge it leaves; [None] leaves the C semantics
    (an [int] that overflows, an index outside the ports).  The client's [send_bpdu] receives the packet and
    does not call back into the bridge.  Locks, log messages and the sequence number that wakes up
    other threads are left out. *)

From S2P Require Import Prelude MapDef OfpBuf DpPacket OfpMsgs StpState.

(** ** Integers and timers *)

Definition int_ok (x : Z) : bool := (- 2 ^ 31 <=? x) && (x <? 2 ^ 31).
Definition add_int (x y : Z) : option Z := if int_ok (x + y) then Some (x + y) else None.

Definition clamp (x min max : Z) : Z := if x <? min then min else if max <? x then max else x.
Definition ms_to_timer (ms : Z) : option Z := if int_ok (ms * 256) then Some (Z.quot (ms * 256) 1000) else None.
Definition timer_to_ms (timer : Z) : option Z := if int_ok (timer * 1000) then Some (Z.quot (timer * 1000) 256) else None.

Definition stp_start_timer (value : Z) : stp_timer := mk_timer true value.
Definition stp_stop_timer (t : stp_timer) : stp_timer := mk_timer false (value t).
Definition stp_timer_expired (t : stp_timer) (elapsed timeout : Z) : option (bool * stp_timer) :=
  if active t then
    v ← add_int (value t) elapsed;
    Some (if timeout <=? v then (true, mk_timer false v) else (false, mk_timer true v))
  else Some (false, t).

(** ** Ports *)

Definition upd_port (i : nat) (f : stp_port -> stp_port) (s : stp) : stp := set_ports (alter f i (ports s)) s.

Definition enabled (p : stp_port) : bool := negb (bool_decide (state p = STP_DISABLED)).

(** [FOR_EACH_ENABLED_PORT], over the ports from here on. *)
Fixpoint for_enabled (body : nat -> stp -> option stp) (l : list nat) (s : stp) : option stp :=
  match l with
  | [] => Some s
  | i :: l' =>
      p ← ports s !! i;
      s ← (if enabled p then body i s else Some s);
      for_enabled body l' s
  end.
Definition all_ports : list nat := seq 0 STP_MAX_PORTS.

Definition stp_is_root_bridge (s : stp) : bool := bridge_id s =? stp_designated_root s.

Definition stp_is_designated_port (s : stp) (p : stp_port) : bool :=
  (designated_bridge (info p) =? bridge_id s) && (designated_port (info p) =? port_id p).

(** The cost is converted from [unsigned int]. *)
Definition own_info (s : stp) (p : stp_port) : port_info :=
  mk_info (stp_designated_root s) (sext 32 (root_path_cost s)) (bridge_id s) (port_id p).
Definition stp_become_designated_port (i : nat) (s : stp) : stp := upd_port i (fun p => put_info (own_info s p) p) s.

Definition stp_set_port_state (i : nat) (st : stp_state) (s : stp) : option stp :=
  p ← ports s !! i;
  let s := if negb (bool_decide (st = state p)) && negb (state_changed p)
           then let s := upd_port i (put_state_changed true) s in
                if (i <? first_changed_port s)%nat then set_first_changed_port i s else s
           else s in
  Some (upd_port i (put_state st) s).

Section Stp.
(** Fresh memory, as in dp-packet.c. *)
Context (junk : nat -> Z) (stale : dp_packet) (md0 : bytes).

(** ** Sending *)

Definition LLC_HEADER_LEN : Z := 3.
Definition eth_addr_stp : bytes := [1; 128; 194; 0; 0; 0].
Definition STP_LLC_SSAP : Z := 66.
Definition STP_LLC_DSAP : Z := 66.
Definition STP_LLC_CNTL : Z := 3.

(** A write through a pointer into block [blk], which must still be the block of the packet. *)
Definition store_through (blk : nat) (pkt : dp_packet) (p : Z) (bs : bytes) : res unit dp_packet :=
  if bool_decide (dp_block pkt = blk) then dp_store pkt p bs else Undef.

(** The packet that carries a BPDU: [eth] and [llc] are pointers into it. *)
Definition bpdu_packet (bpdu : bytes) : res unit dp_packet :=
  let pkt := dp_packet_new junk stale md0 (u64 (ETH_HEADER_LEN + LLC_HEADER_LEN + Z.of_nat (length bpdu))) in
  let! (eth, pkt) := dp_packet_put_zeros junk pkt ETH_HEADER_LEN in
  let eth_block := dp_block pkt in
  let! (llc, pkt) := dp_packet_put_zeros junk pkt LLC_HEADER_LEN in
  let llc_block := dp_block pkt in
  let pkt := dp_packet_reset_offsets pkt in
  let! (l3, pkt) := dp_packet_put junk pkt bpdu in
  let! pkt := res_of (dp_packet_set_l3 pkt (Some l3)) in
  let! pkt := store_through eth_block pkt eth eth_addr_stp in
  let! pkt := store_through eth_block pkt (eth + 12) (be_bytes 2 (u16 (dp_packet_size pkt - ETH_HEADER_LEN))) in
  let! pkt := store_through llc_block pkt llc [STP_LLC_DSAP] in
  let! pkt := store_through llc_block pkt (llc + 1) [STP_LLC_SSAP] in
  store_through llc_block pkt (llc + 2) [STP_LLC_CNTL].

Definition stp_send_bpdu (i : nat) (bpdu : bytes) (s : stp) : option stp :=
  match bpdu_packet bpdu with
  | Ok pkt => Some (upd_port i (fun p => put_tx_count (tx_count p + 1) p) (set_sent ((i, pkt) :: sent s) s))
  | _ => None
  end.

(** The message that port [p] sends. *)
Definition config_message (s : stp) (p : stp_port) (message_age : Z) : stp_config_bpdu :=
  mk_config
    (Z.lor (if topology_change_ack p then STP_CONFIG_TOPOLOGY_CHANGE_ACK else 0) (if topology_change s then STP_CONFIG_TOPOLOGY_CHANGE else 0))
    (stp_designated_root s) (root_path_cost s) (bridge_id s) (u16 (port_id p)) message_age
    (u16 (max_age (times s))) (u16 (hello_time (times s))) (u16 (forward_delay (times s))).

Definition stp_transmit_config (i : nat) (s : stp) : option stp :=
  p ← ports s !! i;
  let root := stp_is_root_bridge s in
  if negb root && bool_decide (root_port s = None) then Some s
  else if active (hold_timer p) then Some (upd_port i (put_config_pending true) s)
  else
    message_age ← (if root then Some 0
                   else r ← root_port s; q ← ports s !! r;
                        v ← add_int (value (message_age_timer q)) MESSAGE_AGE_INCREMENT; Some (u16 v));
    if message_age <? max_age (times s) then
      let config := config_message s p message_age in
      let s := upd_port i (put_config_pending false ∘ put_topology_change_ack false) s in
      s ← stp_send_bpdu i (config_bytes config) s;
      Some (upd_port i (put_hold_timer (stp_start_timer 0)) s)
    else Some s.

Definition stp_config_bpdu_generation (s : stp) : option stp :=
  for_enabled (fun i s => p ← ports s !! i; if stp_is_designated_port s p then stp_transmit_config i s else Some s) all_ports s.

Definition stp_transmit_tcn (s : stp) : option stp :=
  match root_port s with
  | None => Some s
  | Some r => stp_send_bpdu r tcn_bytes s
  end.

Definition stp_topology_change_detection (s : stp) : option stp :=
  s ← (if stp_is_root_bridge s then Some (set_topology_change_timer (stp_start_timer 0) (set_topology_change true s))
       else if negb (topology_change_detected s) then s ← stp_transmit_tcn s; Some (set_tcn_timer (stp_start_timer 0) s)
       else Some s);
  Some (set_topology_change_detected true (set_fdb_needs_flush true s)).

Definition stp_topology_change_acknowledged (s : stp) : stp :=
  set_tcn_timer (stp_stop_timer (tcn_timer s)) (set_topology_change_detected false s).

Definition stp_acknowledge_topology_change (i : nat) (s : stp) : option stp :=
  stp_transmit_config i (upd_port i (put_topology_change_ack true) s).

(** ** Selecting roots, designated ports and states *)

(** The comparison of an [unsigned] with an [int] is unsigned. *)
Definition stp_supersedes_port_info (s : stp) (p : stp_port) (config : stp_config_bpdu) : bool :=
  let f := info p in
  if negb (cf_root_id config =? designated_root f) then cf_root_id config <? designated_root f
  else if negb (cf_root_path_cost config =? u32 (designated_cost f)) then cf_root_path_cost config <? u32 (designated_cost f)
  else if negb (cf_bridge_id config =? designated_bridge f) then cf_bridge_id config <? designated_bridge f
  else negb (cf_bridge_id config =? bridge_id s) || (cf_port_id config <=? designated_port f).

Definition record_info (config : stp_config_bpdu) (p : stp_port) : stp_port :=
  put_message_age_timer (stp_start_timer (cf_message_age config))
    (put_info (mk_info (cf_root_id config) (sext 32 (cf_root_path_cost config)) (cf_bridge_id config) (cf_port_id config)) p).
Definition stp_record_config_information (i : nat) (config : stp_config_bpdu) (s : stp) : stp := upd_port i (record_info config) s.

Definition stp_record_config_timeout_values (config : stp_config_bpdu) (s : stp) : stp :=
  set_topology_change (negb (Z.land (cf_flags config) STP_CONFIG_TOPOLOGY_CHANGE =? 0))
    (set_times (mk_times (cf_max_age config) (cf_hello_time config) (cf_forward_delay config)) s).

Definition path_sum (p : stp_port) : option Z := add_int (designated_cost (info p)) (path_cost p).

Definition stp_supersedes_root (root p : stp_port) : option bool :=
  p_cost ← path_sum p;
  root_cost ← path_sum root;
  let f := info p in let g := info root in
  Some (if negb (designated_root f =? designated_root g) then designated_root f <? designated_root g
        else if negb (p_cost =? root_cost) then p_cost <? root_cost
        else if negb (designated_bridge f =? designated_bridge g) then designated_bridge f <? designated_bridge g
        else if negb (designated_port f =? designated_port g) then designated_port f <? designated_port g
        else port_id p <? port_id root).

(** The loop of [stp_root_selection], over the ports from here on. *)
Fixpoint root_loop (s : stp) (l : list nat) (root : option nat) : option (option nat) :=
  match l with
  | [] => Some root
  | i :: l' =>
      p ← ports s !! i;
      if negb (enabled p) || stp_is_designated_port s p || (bridge_id s <=? designated_root (info p)) then root_loop s l' root
      else
        better ← match root with
                 | None => Some true
                 | Some r => q ← ports s !! r; stp_supersedes_root q p
                 end;
        root_loop s l' (if better : bool then Some i else root)
  end.

Definition stp_root_selection (s : stp) : option stp :=
  root ← root_loop s all_ports None;
  match root with
  | None => Some (set_root (bridge_id s) 0 None s)
  | Some r =>
      p ← ports s !! r;
      c ← path_sum p;
      Some (set_root (designated_root (info p)) (u32 c) (Some r) s)
  end.

(** Whether this bridge is the better one for the segment of [p]; [root_path_cost] is unsigned. *)
Definition wins_segment (s : stp) (p : stp_port) : bool :=
  let f := info p in
  stp_is_designated_port s p
  || negb (designated_root f =? stp_designated_root s)
  || (root_path_cost s <? u32 (designated_cost f))
  || ((root_path_cost s =? u32 (designated_cost f)) &&
      ((bridge_id s <? designated_bridge f) || ((bridge_id s =? designated_bridge f) && (port_id p <=? designated_port f)))).

Definition stp_designated_port_selection (s : stp) : option stp :=
  for_enabled (fun i s => p ← ports s !! i; Some (if wins_segment s p then stp_become_designated_port i s else s)) all_ports s.

Definition stp_configuration_update (s : stp) : option stp :=
  s ← stp_root_selection s; stp_designated_port_selection s.

Definition stp_make_forwarding (i : nat) (s : stp) : option stp :=
  p ← ports s !! i;
  if bool_decide (state p = STP_BLOCKING) then
    s ← stp_set_port_state i STP_LISTENING s;
    Some (upd_port i (put_forward_delay_timer (stp_start_timer 0)) s)
  else Some s.

Definition stop_forward_delay (p : stp_port) : stp_port := put_forward_delay_timer (stp_stop_timer (forward_delay_timer p)) p.
Definition stop_message_age (p : stp_port) : stp_port := put_message_age_timer (stp_stop_timer (message_age_timer p)) p.

Definition stp_make_blocking (i : nat) (s : stp) : option stp :=
  p ← ports s !! i;
  if negb (state_in (state p) [STP_DISABLED; STP_BLOCKING]) then
    s ← (if state_in (state p) [STP_FORWARDING; STP_LEARNING] && change_detection_enabled p
         then stp_topology_change_detection s else Some s);
    s ← stp_set_port_state i STP_BLOCKING s;
    Some (upd_port i stop_forward_delay s)
  else Some s.

Definition select_state (i : nat) (s : stp) : option stp :=
  p ← ports s !! i;
  if bool_decide (root_port s = Some i) then
    stp_make_forwarding i (upd_port i (put_topology_change_ack false ∘ put_config_pending false) s)
  else if stp_is_designated_port s p then stp_make_forwarding i (upd_port i stop_message_age s)
  else stp_make_blocking i (upd_port i (put_topology_change_ack false ∘ put_config_pending false) s).

Definition stp_port_state_selection (s : stp) : option stp := for_enabled select_state all_ports s.

Definition stp_become_root_bridge (s : stp) : option stp :=
  s ← stp_topology_change_detection (set_times (bridge_times s) s);
  s ← stp_config_bpdu_generation (set_tcn_timer (stp_stop_timer (tcn_timer s)) s);
  Some (set_hello_timer (stp_start_timer 0) s).

(** The end of every operation that may make the bridge the root. *)
Definition reselect (root : bool) (s : stp) : option stp :=
  s ← stp_configuration_update s;
  s ← stp_port_state_selection s;
  if stp_is_root_bridge s && negb root then stp_become_root_bridge s else Some s.

(** ** Times *)

Definition stp_update_bridge_timers (s : stp) : option stp :=
  let ht := clamp (hello_time (rq_times s)) 1000 10000 in
  let ma := clamp (max_age (rq_times s)) (Z.max (2 * (ht + 1000)) 6000) 40000 in
  let fd := clamp (forward_delay (rq_times s)) (Z.quot ma 2 + 1000) 30000 in
  h ← ms_to_timer ht; m ← ms_to_timer ma; f ← ms_to_timer fd;
  let s := set_bridge_times (mk_times m h f) s in
  Some (if stp_is_root_bridge s then set_times (bridge_times s) s else s).

Definition stp_set_hello_time (ms : Z) (s : stp) : option stp :=
  let r := rq_times s in stp_update_bridge_timers (set_rq_times (mk_times (max_age r) ms (forward_delay r)) s).
Definition stp_set_max_age (ms : Z) (s : stp) : option stp :=
  let r := rq_times s in stp_update_bridge_timers (set_rq_times (mk_times ms (hello_time r) (forward_delay r)) s).
Definition stp_set_forward_delay (ms : Z) (s : stp) : option stp :=
  let r := rq_times s in stp_update_bridge_timers (set_rq_times (mk_times (max_age r) (hello_time r) ms) s).

(** ** Creation *)

(** The assertion holds in every call. *)
Definition stp_initialize_port (i : nat) (st : stp_state) (s : stp) : option stp :=
  if state_in st [STP_DISABLED; STP_BLOCKING] then
    let s := stp_become_designated_port i s in
    p ← ports s !! i;
    s ← (if bool_decide (state p = STP_NONE) && bool_decide (st = STP_DISABLED) then Some (upd_port i (put_state st) s)
         else stp_set_port_state i st s);
    Some (upd_port i (fun p =>
      put_tx_count 0 (put_rx_count 0 (put_error_count 0
        (put_hold_timer (stp_stop_timer (hold_timer p)) (stop_forward_delay (stop_message_age
          (put_aux None (put_change_detection_enabled true (put_config_pending false (put_topology_change_ack false p)))))))))) s)
  else None.

Definition null_timer : stp_timer := mk_timer false 0.
Definition null_times : stp_times := mk_times 0 0 0.
Definition null_port : stp_port :=
  mk_port None None 0 STP_NONE 0 (mk_info 0 0 0 0) false false false null_timer null_timer null_timer 0 0 0 false.

Fixpoint create_ports (l : list nat) (s : stp) : option stp :=
  match l with
  | [] => Some s
  | i :: l' =>
      s ← stp_initialize_port i STP_DISABLED
            (upd_port i (put_path_cost 19 ∘ put_port_id (Z.lor (Z.of_nat i + 1) (Z.shiftl STP_DEFAULT_PORT_PRIORITY 8))) s);
      create_ports l' s
  end.

Definition stp_create (nm : string) (id : Z) : option stp :=
  let id := if Z.shiftr id 48 =? 0 then Z.lor id (Z.shiftl STP_DEFAULT_BRIDGE_PRIORITY 48) else id in
  s ← stp_update_bridge_timers
        (mk_stp nm id null_times null_times (mk_times STP_DEFAULT_MAX_AGE STP_DEFAULT_HELLO_TIME STP_DEFAULT_FWD_DELAY) 0 0 0 None
           false false null_timer null_timer null_timer (replicate STP_MAX_PORTS null_port) false 0 []);
  let s := set_root (bridge_id s) 0 None (set_times (bridge_times s) s) in
  let s := set_hello_timer (stp_start_timer (hello_time (times s))) s in
  create_ports all_ports (set_first_changed_port STP_MAX_PORTS s).

(** ** Timers that expire *)

Definition stp_hello_timer_expiry (s : stp) : option stp :=
  s ← stp_config_bpdu_generation s; Some (set_hello_timer (stp_start_timer 0) s).

Definition stp_message_age_timer_expiry (i : nat) (s : stp) : option stp :=
  let root := stp_is_root_bridge s in reselect root (stp_become_designated_port i s).

Definition stp_is_designated_for_some_port (s : stp) : bool :=
  existsb (fun p => enabled p && (designated_bridge (info p) =? bridge_id s)) (ports s).

Definition stp_forward_delay_timer_expiry (i : nat) (s : stp) : option stp :=
  p ← ports s !! i;
  match state p with
  | STP_LISTENING =>
      s ← stp_set_port_state i STP_LEARNING s;
      Some (upd_port i (put_forward_delay_timer (stp_start_timer 0)) s)
  | STP_LEARNING =>
      s ← stp_set_port_state i STP_FORWARDING s;
      if stp_is_designated_for_some_port s && change_detection_enabled p then stp_topology_change_detection s else Some s
  | _ => Some s
  end.

Definition stp_tcn_timer_expiry (s : stp) : option stp :=
  s ← stp_transmit_tcn s; Some (set_tcn_timer (stp_start_timer 0) s).

Definition stp_topology_change_timer_expiry (s : stp) : stp :=
  set_topology_change false (set_topology_change_detected false s).

Definition stp_hold_timer_expiry (i : nat) (s : stp) : option stp :=
  p ← ports s !! i; if config_pending p then stp_transmit_config i s else Some s.

(** One round of [stp_tick] for a port, in its two loops. *)
Definition tick_message_age (elapsed : Z) (i : nat) (s : stp) : option stp :=
  p ← ports s !! i;
  r ← stp_timer_expired (message_age_timer p) elapsed (max_age (times s));
  let s := upd_port i (put_message_age_timer r.2) s in
  if r.1 : bool then stp_message_age_timer_expiry i s else Some s.

Definition tick_forward_delay (elapsed : Z) (i : nat) (s : stp) : option stp :=
  p ← ports s !! i;
  r ← stp_timer_expired (forward_delay_timer p) elapsed (forward_delay (times s));
  let s := upd_port i (put_forward_delay_timer r.2) s in
  if r.1 : bool then stp_forward_delay_timer_expiry i s else Some s.

Definition tick_hold (elapsed : Z) (i : nat) (s : stp) : option stp :=
  p ← ports s !! i;
  second ← ms_to_timer 1000;
  r ← stp_timer_expired (hold_timer p) elapsed second;
  let s := upd_port i (put_hold_timer r.2) s in
  if r.1 : bool then stp_hold_timer_expiry i s else Some s.

Definition tick_bridge (elapsed : Z) (s : stp) : option stp :=
  r ← stp_timer_expired (hello_timer s) elapsed (hello_time (times s));
  let s := set_hello_timer r.2 s in
  s ← (if r.1 : bool then stp_hello_timer_expiry s else Some s);
  r ← stp_timer_expired (tcn_timer s) elapsed (hello_time (bridge_times s));
  let s := set_tcn_timer r.2 s in
  s ← (if r.1 : bool then stp_tcn_timer_expiry s else Some s);
  r ← stp_timer_expired (topology_change_timer s) elapsed (max_age (times s) + forward_delay (times s));
  let s := set_topology_change_timer r.2 s in
  Some (if r.1 : bool then stp_topology_change_timer_expiry s else s).

(** The ticks in [ms] milliseconds, and the milliseconds left over.  [INT_MAX - 1000 + elapsed_remainder] does not
    overflow, the conversion to ticks may. *)
Definition tick_ms (ms elapsed_remainder : Z) : option (Z * Z) :=
  ms ← add_int (clamp ms 0 (2 ^ 31 - 1 - 1000)) elapsed_remainder;
  elapsed ← ms_to_timer ms;
  back ← timer_to_ms elapsed;
  Some (elapsed, ms - back).

Definition tick_timers (elapsed : Z) (s : stp) : option stp :=
  if elapsed =? 0 then Some s
  else
    s ← tick_bridge elapsed s;
    s ← for_enabled (tick_message_age elapsed) all_ports s;
    for_enabled (fun i s => s ← tick_forward_delay elapsed i s; tick_hold elapsed i s) all_ports s.

Definition stp_tick (ms : Z) (s : stp) : option stp :=
  r ← tick_ms ms (elapsed_remainder s);
  tick_timers r.1 (set_elapsed_remainder r.2 s).

(** ** Messages *)

Definition stp_received_config_bpdu (i : nat) (config : stp_config_bpdu) (s : stp) : option stp :=
  p ← ports s !! i;
  if cf_max_age config <=? cf_message_age config then Some s
  else if enabled p then
    let root := stp_is_root_bridge s in
    if stp_supersedes_port_info s p config then
      s ← stp_configuration_update (stp_record_config_information i config s);
      s ← stp_port_state_selection s;
      s ← (if negb (stp_is_root_bridge s) && root then
             let s := set_hello_timer (stp_stop_timer (hello_timer s)) s in
             if topology_change_detected s then
               s ← stp_transmit_tcn (set_topology_change_timer (stp_stop_timer (topology_change_timer s)) s);
               Some (set_tcn_timer (stp_start_timer 0) s)
             else Some s
           else Some s);
      if bool_decide (root_port s = Some i) then
        s ← stp_config_bpdu_generation (stp_record_config_timeout_values config s);
        let s := if Z.land (cf_flags config) STP_CONFIG_TOPOLOGY_CHANGE_ACK =? 0 then s else stp_topology_change_acknowledged s in
        Some (if Z.land (cf_flags config) STP_CONFIG_TOPOLOGY_CHANGE =? 0 then s else set_fdb_needs_flush true s)
      else Some s
    else if stp_is_designated_port s p then stp_transmit_config i s else Some s
  else Some s.

Definition stp_received_tcn_bpdu (i : nat) (s : stp) : option stp :=
  p ← ports s !! i;
  if enabled p && stp_is_designated_port s p then
    s ← stp_topology_change_detection s; stp_acknowledge_topology_change i s
  else Some s.

Definition count_error (i : nat) (s : stp) : stp := upd_port i (fun p => put_error_count (error_count p + 1) p) s.
Definition count_rx (i : nat) (s : stp) : stp := upd_port i (fun p => put_rx_count (rx_count p + 1) p) s.

Definition stp_received_bpdu (i : nat) (bpdu : bytes) (s : stp) : option stp :=
  p ← ports s !! i;
  if negb (enabled p) then Some s
  else if Z.of_nat (length bpdu) <? 4 then Some (count_error i s)
  else
    protocol_id ← be_field bpdu 0 2;
    bpdu_type ← be_field bpdu 3 1;
    if negb (protocol_id =? STP_PROTOCOL_ID) then Some (count_error i s)
    else if bpdu_type =? STP_TYPE_CONFIG then
      if Z.of_nat (length bpdu) <? 35 then Some (count_error i s)
      else config ← config_of_bytes bpdu; s ← stp_received_config_bpdu i config s; Some (count_rx i s)
    else if bpdu_type =? STP_TYPE_TCN then
      if negb (Z.of_nat (length bpdu) =? 4) then Some (count_error i s)
      else s ← stp_received_tcn_bpdu i s; Some (count_rx i s)
    else Some (count_error i s).

(** ** Management *)

Definition set_bridge_id (new_bridge_id : Z) (s : stp) : option stp :=
  if new_bridge_id =? bridge_id s then Some s
  else
    let root := stp_is_root_bridge s in
    s ← for_enabled (fun i s => p ← ports s !! i;
          Some (if stp_is_designated_port s p
                then upd_port i (put_info (mk_info (designated_root (info p)) (designated_cost (info p)) new_bridge_id (designated_port (info p)))) s
                else s)) all_ports s;
    reselect root (assign_bridge_id new_bridge_id s).

Definition mac_bits : Z := 2 ^ 48 - 1.
Definition stp_set_bridge_id (id : Z) (s : stp) : option stp :=
  set_bridge_id (Z.lor (Z.land (bridge_id s) (u64 (Z.lnot mac_bits))) (Z.land id mac_bits)) s.
Definition stp_set_bridge_priority (new_priority : Z) (s : stp) : option stp :=
  set_bridge_id (Z.lor (Z.land (bridge_id s) mac_bits) (Z.shiftl new_priority 48)) s.

Definition stp_check_and_reset_fdb_flush (s : stp) : bool * stp := (fdb_needs_flush s, set_fdb_needs_flush false s).

(** The loop from [first_changed_port] on. *)
Fixpoint changed_loop (l : list nat) (s : stp) : option nat * stp :=
  match l with
  | [] => (None, set_first_changed_port STP_MAX_PORTS s)
  | i :: l' =>
      match ports s !! i with
      | Some p =>
          if state_changed p then (Some i, set_first_changed_port (S i) (upd_port i (put_state_changed false) s))
          else changed_loop l' s
      | None => changed_loop l' s
      end
  end.
Definition stp_get_changed_port (s : stp) : option nat * stp :=
  changed_loop (seq (first_changed_port s) (STP_MAX_PORTS - first_changed_port s)) s.

Definition stp_port_disable (i : nat) (s : stp) : option stp :=
  p ← ports s !! i;
  if enabled p then
    let root := stp_is_root_bridge s in
    s ← stp_set_port_state i STP_DISABLED (stp_become_designated_port i s);
    let s := upd_port i (stop_forward_delay ∘ stop_message_age ∘ put_config_pending false ∘ put_topology_change_ack false) s in
    s ← reselect root s;
    Some (upd_port i (put_aux None) s)
  else Some s.

Definition stp_port_enable (i : nat) (s : stp) : option stp :=
  p ← ports s !! i;
  if enabled p then Some s
  else s ← stp_initialize_port i STP_BLOCKING s; stp_port_state_selection s.

Definition stp_port_set_priority (i : nat) (new_priority : Z) (s : stp) : option stp :=
  p ← ports s !! i;
  let new_port_id := u16 (Z.lor (Z.land (port_id p) 255) (Z.shiftl new_priority 8)) in
  if port_id p =? new_port_id then Some s
  else
    let f := info p in
    let f := if stp_is_designated_port s p then mk_info (designated_root f) (designated_cost f) (designated_bridge f) new_port_id else f in
    let p := put_port_id new_port_id (put_info f p) in
    let s := upd_port i (fun _ => p) s in
    if (bridge_id s =? designated_bridge f) && (new_port_id <? designated_port f)
    then stp_port_state_selection (stp_become_designated_port i s)
    else Some s.

Definition stp_convert_speed_to_cost (speed : Z) : Z :=
  if 10000 <=? speed then 2
  else if 1000 <=? speed then 4
  else if 100 <=? speed then 19
  else if 16 <=? speed then 62
  else if 10 <=? speed then 100
  else if 4 <=? speed then 250
  else 19.

Definition stp_port_set_path_cost (i : nat) (cost : Z) (s : stp) : option stp :=
  p ← ports s !! i;
  if path_cost p =? cost then Some s
  else s ← stp_configuration_update (upd_port i (put_path_cost cost) s); stp_port_state_selection s.
Definition stp_port_set_speed (i : nat) (speed : Z) (s : stp) : option stp :=
  stp_port_set_path_cost i (stp_convert_speed_to_cost speed) s.

Definition stp_port_enable_change_detection (i : nat) (s : stp) : stp := upd_port i (put_change_detection_enabled true) s.
Definition stp_port_disable_change_detection (i : nat) (s : stp) : stp := upd_port i (put_change_detection_enabled false) s.
Definition stp_port_set_name (i : nat) (nm : string) (s : stp) : stp := upd_port i (put_port_name (Some nm)) s.
Definition stp_port_set_aux (i : nat) (a : option Z) (s : stp) : stp := upd_port i (put_aux a) s.

(** ** Queries *)

Definition stp_port_get_role (s : stp) (p : stp_port) : option stp_role :=
  root ← (match root_port s with None => Some false | Some r => q ← ports s !! r; Some (port_id q =? port_id p) end);
  Some (if root : bool then STP_ROLE_ROOT
        else if stp_is_designated_port s p then STP_ROLE_DESIGNATED
        else if bool_decide (state p = STP_DISABLED) then STP_ROLE_DISABLED
        else STP_ROLE_ALTERNATE).

Definition stp_forward_in_state (st : stp_state) : bool := state_in st [STP_FORWARDING].
Definition stp_learn_in_state (st : stp_state) : bool := state_in st [STP_LEARNING; STP_FORWARDING].
Definition stp_should_forward_bpdu (st : stp_state) : bool := state_in st [STP_DISABLED; STP_LISTENING; STP_LEARNING; STP_FORWARDING].
Definition stp_get_hello_time (s : stp) : option Z := timer_to_ms (hello_time (bridge_times s)).
Definition stp_get_max_age (s : stp) : option Z := timer_to_ms (max_age (bridge_times s)).
Definition stp_get_forward_delay (s : stp) : option Z := timer_to_ms (forward_delay (bridge_times s)).

End Stp.
