(* ===== verification/StpBase.v ===== *)
(** * What the sending side of the spanning tree protocol leaves alone

    [s ≡ s'] compares what decides the roles and states of the ports: identifiers, costs, the
    information of the ports, their states and the timers that drive them.  Sending, counting and the
    notification of topology changes do not change it, and keep the bridge [sane]. *)

From S2P Require Import Prelude MapDef OfpBuf OfpBufProps DpPacket DpPacketProps OfpMsgs.
From S2P Require Import StpState Stp.

(** ** Erasure *)

Definition perase (p : stp_port) : stp_port :=
  mk_port None None (port_id p) (state p) (path_cost p) (info p) false false false (message_age_timer p) (forward_delay_timer p)
    null_timer 0 0 0 false.
Definition serase (s : stp) : stp :=
  mk_stp EmptyString (bridge_id s) (times s) (bridge_times s) null_times 0 (stp_designated_root s) (root_path_cost s) (root_port s)
    false false (hello_timer s) null_timer null_timer (perase <$> ports s) false 0 [].

#[export] Instance stp_equiv : Equiv stp := fun s s' => serase s = serase s'.
#[export] Instance stp_equivalence : Equivalence (≡@{stp}).
Proof. split; [done|by intros ??|intros ??? H1 H2; exact (eq_trans H1 H2)]. Qed.

(** A change of a port that the erasure sees as [g], or does not see. *)
Lemma alter_erase (f g : stp_port -> stp_port) (i : nat) (l : list stp_port) :
  (forall p, perase (f p) = g (perase p)) -> perase <$> alter f i l = alter g i (perase <$> l).
Proof.
  intros H. apply list_eq. intros j. rewrite list_lookup_fmap. destruct (decide (i = j)) as [<-|Hn].
  - rewrite !list_lookup_alter_eq, list_lookup_fmap. destruct (l !! i); cbn; [by rewrite H|done].
  - by rewrite !list_lookup_alter_ne, list_lookup_fmap.
Qed.

Lemma upd_port_erase f g i s : (forall p, perase (f p) = g (perase p)) -> serase (upd_port i f s) = upd_port i g (serase s).
Proof. intros H. unfold serase, upd_port, set_ports. cbn. by rewrite (alter_erase f g). Qed.

Lemma alter_id_list {A} (l : list A) (i : nat) : alter id i l = l.
Proof. apply list_eq. intros j. destruct (decide (i = j)) as [<-|Hn]; [rewrite list_lookup_alter_eq; by destruct (l !! i)|by rewrite list_lookup_alter_ne]. Qed.

Lemma upd_port_quiet f i s : (forall p, perase (f p) = perase p) -> upd_port i f s ≡ s.
Proof.
  intros H. unfold equiv, stp_equiv. rewrite (upd_port_erase f id) by done. unfold upd_port, set_ports. cbn. by rewrite alter_id_list.
Qed.

#[export] Instance upd_port_put_state_proper st i : Proper ((≡) ==> (≡)) (upd_port i (put_state st)).
Proof. intros s s' H. unfold equiv, stp_equiv in *. rewrite !(upd_port_erase _ (put_state st)) by done. by rewrite H. Qed.

(** ** Bounds *)

Definition timer_sane (t : stp_timer) : Prop := 0 <= value t < 2 ^ 22 /\ (active t = true -> value t < 2 ^ 17).
Definition times_sane (t : stp_times) : Prop := in_u 16 (max_age t) /\ in_u 16 (hello_time t) /\ in_u 16 (forward_delay t).

Record port_sane (p : stp_port) : Prop := {
  ps_message_age : timer_sane (message_age_timer p);
  ps_forward_delay : timer_sane (forward_delay_timer p);
  ps_hold : timer_sane (hold_timer p)
}.

(** [sn_changed]: the ports to be reported are found from [first_changed_port] on. *)
Record sane (s : stp) : Prop := {
  sn_length : length (ports s) = STP_MAX_PORTS;
  sn_root_port : forall r, root_port s = Some r -> (r < STP_MAX_PORTS)%nat;
  sn_times : times_sane (times s);
  sn_bridge_times : times_sane (bridge_times s);
  sn_hello : timer_sane (hello_timer s);
  sn_tcn : timer_sane (tcn_timer s);
  sn_topology : timer_sane (topology_change_timer s);
  sn_remainder : 0 <= elapsed_remainder s <= 4;
  sn_ports : Forall port_sane (ports s);
  sn_changed : forall i p, ports s !! i = Some p -> state_changed p = true -> (first_changed_port s <= i)%nat
}.

Lemma timer_sane_start v : 0 <= v < 2 ^ 17 -> timer_sane (stp_start_timer v).
Proof. intros H. split; cbn; lia. Qed.
Lemma timer_sane_stop t : timer_sane t -> timer_sane (stp_stop_timer t).
Proof. intros [H1 H2]. split; cbn; [done|discriminate]. Qed.

Create HintDb stp.
#[export] Hint Resolve timer_sane_start timer_sane_stop : stp.
#[export] Hint Extern 1 (0 <= 0 < _) => lia : stp.

Lemma sane_lookup s i p : sane s -> ports s !! i = Some p -> (i < STP_MAX_PORTS)%nat /\ port_sane p.
Proof. intros [] H. split; [apply lookup_lt_Some in H; lia|by eapply Forall_lookup_1]. Qed.

Lemma sane_port s i : sane s -> (i < STP_MAX_PORTS)%nat -> exists p, ports s !! i = Some p.
Proof. intros [] Hi. apply lookup_lt_is_Some. lia. Qed.

(** A change of a port that keeps its timers sane and marks nothing. *)
Lemma sane_upd_port i f s :
  sane s -> (forall p, ports s !! i = Some p -> port_sane p -> port_sane (f p) /\ (state_changed (f p) = true -> state_changed p = true)) ->
  sane (upd_port i f s).
Proof.
  intros [] Hf. split; cbn; try done; [by rewrite length_alter| |].
  - apply Forall_lookup. intros j p. destruct (decide (i = j)) as [<-|Hn].
    + rewrite list_lookup_alter_eq. intros (q & Hq & ->)%fmap_Some. apply (Hf q Hq). by eapply Forall_lookup_1.
    + rewrite list_lookup_alter_ne by done. intros Hp. by eapply Forall_lookup_1.
  - intros j p. destruct (decide (i = j)) as [<-|Hn].
    + rewrite list_lookup_alter_eq. intros (q & Hq & ->)%fmap_Some Hc. apply (sn_changed0 i q Hq), (Hf q Hq); [by eapply Forall_lookup_1|done].
    + rewrite list_lookup_alter_ne by done. apply sn_changed0.
Qed.

(** ** Sending *)

(** Appending where there is room moves nothing. *)
Lemma dp_put_fits junk b pre c old post p :
  dlay b pre c (old ++ post) -> length old = length p ->
  exists b', dp_packet_put junk b p = Ok (Z.of_nat (length (pre ++ c)), b') /\ dlay b' pre (c ++ p) post /\
    dp_block b' = dp_block b /\ carried b' = carried b.
Proof.
  intros Hl Ho. destruct (dlay_rooms _ _ _ _ Hl) as (_ & Hr & Ht). pose proof Hl as [_ _ Ed Es Ea Eu]. autounfold with consts in *.
  unfold dp_packet_put, dp_packet_put_uninit, dp_packet_prealloc_tailroom. rewrite Hr. cbn [res_of res_bind].
  rewrite (proj2 (Z.ltb_ge _ _)) by (rewrite length_app; lia). cbn [res_bind]. rewrite Ht. cbn [res_of res_bind].
  assert (dlay (dp_packet_set_size b (size_ b + Z.of_nat (length p))) pre (c ++ old ++ []) post) as Hl'.
  { rewrite app_nil_r. pose proof (dlay_borders b pre c (old ++ post) pre (c ++ old) post Hl ltac:(by rewrite <- app_assoc)) as H.
    unfold dp_packet_set_size. rewrite wrap_small by (unfold in_u; rewrite !length_app in *; lia).
    replace (data_ofs b) with (Z.of_nat (length pre)) by lia.
    replace (size_ b + Z.of_nat (length p)) with (Z.of_nat (length (c ++ old))) by (rewrite length_app; lia). exact H. }
  unfold dp_store. rewrite <- length_app. rewrite (dl_mem _ _ _ _ Hl').
  replace (pre ++ (c ++ old ++ []) ++ post) with ((pre ++ c) ++ old ++ post) by (by rewrite app_nil_r, <- !app_assoc).
  rewrite poke_app by done. cbn [res_of res_bind]. eexists. split; [reflexivity|]. split_and!; [|done|done].
  destruct Hl' as [? ? Hd' Hs' Ha' Hu']. rewrite app_nil_r in Hs', Ha'. rewrite length_app in Hs', Ha'.
  split; [done|cbn; by rewrite <- !app_assoc|exact Hd'|rewrite length_app; cbn [size_ set_dp_mem]; lia|rewrite length_app; cbn [allocated_ set_dp_mem]; lia|exact Hu'].
Qed.

Section Packet.
Context (junk : nat -> Z) (stale : dp_packet) (md0 : bytes).

(** A write through a pointer that is not stale. *)
Lemma store_through_lay blk b pre c1 old c2 post bs at_ :
  dp_block b = blk -> dlay b pre (c1 ++ old ++ c2) post -> length bs = length old -> at_ = Z.of_nat (length pre + length c1) ->
  exists b', store_through blk b at_ bs = Ok b' /\ dlay b' pre (c1 ++ bs ++ c2) post /\ dp_block b' = blk /\ carried b' = carried b.
Proof using.
  intros Hb Hl Hbs ->. unfold store_through. rewrite bool_decide_true, <- length_app by done.
  unfold dp_store. rewrite (dl_mem _ _ _ _ Hl).
  replace (pre ++ (c1 ++ old ++ c2) ++ post) with ((pre ++ c1) ++ old ++ (c2 ++ post)) by (by rewrite <- !app_assoc).
  rewrite poke_app by done. cbn [res_of res_bind]. eexists. split; [reflexivity|]. split_and!; [|done|done].
  destruct Hl. split; cbn; rewrite ?length_app in *; try (lia || done); by rewrite <- !app_assoc.
Qed.

Definition frame_of (bpdu : bytes) : bytes :=
  eth_addr_stp ++ replicate 6 0 ++ be_bytes 2 (LLC_HEADER_LEN + Z.of_nat (length bpdu)) ++ [STP_LLC_DSAP; STP_LLC_SSAP; STP_LLC_CNTL] ++ bpdu.

Lemma bpdu_packet_spec bpdu : (length bpdu <= 1000)%nat ->
  exists pkt, bpdu_packet junk stale md0 bpdu = Ok pkt /\ wf_dp pkt /\ dcontents pkt = frame_of bpdu /\
    l3_ofs (dp_lay pkt) = 17 /\ l2_5_ofs (dp_lay pkt) = UINT16_MAX /\ l4_ofs (dp_lay pkt) = UINT16_MAX.
Proof.
  intros Hn. set (n := ETH_HEADER_LEN + LLC_HEADER_LEN + Z.of_nat (length bpdu)).
  assert (n = 17 + Z.of_nat (length bpdu)) as En by (unfold n, ETH_HEADER_LEN, LLC_HEADER_LEN; lia).
  unfold bpdu_packet. fold n. rewrite wrap_small by (unfold in_u; lia).
  destruct (dp_new_lay junk stale md0 n) as (Hl & _ & _); [unfold UINT16_MAX; lia|]. set (b0 := dp_packet_new _ _ _ _) in *.
  set (m := xmalloc junk n) in *. assert (length m = (17 + length bpdu)%nat) as Hm by (unfold m; rewrite length_xmalloc; lia).
  destruct (dp_put_fits junk b0 [] [] (take 14 m) (drop 14 m) (replicate 14 0)) as (b1 & E1 & Hl1 & Hb1 & Hc1);
    [by rewrite take_drop|rewrite length_take, length_replicate; lia|].
  rewrite dp_put_zeros_eq by (vm_compute; congruence). change (Z.to_nat ETH_HEADER_LEN) with 14%nat. rewrite E1. cbn [res_bind].
  destruct (dp_put_fits junk b1 [] (replicate 14 0) (take 3 (drop 14 m)) (drop 3 (drop 14 m)) (replicate 3 0)) as (b2 & E2 & Hl2 & Hb2 & Hc2);
    [by rewrite take_drop|rewrite length_take, length_replicate, length_drop; lia|].
  rewrite dp_put_zeros_eq by (vm_compute; congruence). change (Z.to_nat LLC_HEADER_LEN) with 3%nat. rewrite E2. cbn [res_bind].
  set (b3 := dp_packet_reset_offsets b2). assert (dlay b3 [] (replicate 14 0 ++ replicate 3 0) (drop 3 (drop 14 m) ++ [])) as Hl3.
  { rewrite app_nil_r. destruct Hl2. by split. }
  destruct (dp_put_fits junk b3 [] (replicate 14 0 ++ replicate 3 0) _ _ bpdu Hl3) as (b4 & E4 & Hl4 & Hb4 & Hc4);
    [rewrite !length_drop; lia|]. rewrite E4. cbn [res_bind].
  unfold dp_packet_set_l3, layer_ofs. rewrite (proj1 (dlay_addr _ _ _ _ Hl4)). cbn [mbind option_bind].
  match goal with |- context [u16 ?x] => replace (u16 x) with 17 by reflexivity end. cbn [res_of res_bind]. set (b5 := set_dp_lay b4 _).
  assert (dlay b5 [] (replicate 14 0 ++ replicate 3 0 ++ bpdu) []) as Hl5 by (rewrite app_assoc; destruct Hl4; by split).
  assert (dp_block b5 = dp_block b1) as Hblk by (unfold b5; cbn; rewrite Hb4; unfold b3; cbn; congruence).
  assert (dp_block b5 = dp_block b2) as Hblk2 by congruence.
  change (dp_block b3) with (dp_block b2).
  assert (Z.of_nat (length ([] ++ [] : bytes)) = 0) as -> by done.
  assert (Z.of_nat (length ([] ++ replicate 14 0)) = 14) as -> by done.
  destruct (store_through_lay (dp_block b1) b5 [] [] (replicate 6 0) (replicate 8 0 ++ replicate 3 0 ++ bpdu) [] eth_addr_stp 0)
    as (b6 & -> & Hl6 & Hb6 & Hc6); [done|exact Hl5|done|done|]. cbn [res_bind].
  pose proof (dl_size _ _ _ _ Hl6) as Hs6. rewrite !length_app, !length_replicate in Hs6. cbn [length eth_addr_stp] in Hs6.
  unfold dp_packet_size. replace (u16 (size_ b6 - ETH_HEADER_LEN)) with (LLC_HEADER_LEN + Z.of_nat (length bpdu))
    by (rewrite wrap_small; unfold in_u, ETH_HEADER_LEN, LLC_HEADER_LEN; lia).
  change (0 + 12) with 12. change (14 + 1) with 15. change (14 + 2) with 16.
  set (ty := be_bytes 2 _). assert (length ty = 2%nat) as Hty by done.
  destruct (store_through_lay (dp_block b1) b6 [] (eth_addr_stp ++ replicate 6 0) (replicate 2 0) (replicate 3 0 ++ bpdu) [] ty 12)
    as (b7 & -> & Hl7 & Hb7 & Hc7); [done|exact Hl6|done|done|]. cbn [res_bind].
  destruct (store_through_lay (dp_block b2) b7 [] (eth_addr_stp ++ replicate 6 0 ++ ty) [0] (replicate 2 0 ++ bpdu) [] [STP_LLC_DSAP] 14)
    as (b8 & -> & Hl8 & Hb8 & Hc8); [congruence|rewrite <- !app_assoc in *; exact Hl7|done|done|]. cbn [res_bind].
  destruct (store_through_lay (dp_block b2) b8 [] (eth_addr_stp ++ replicate 6 0 ++ ty ++ [STP_LLC_DSAP]) [0] ([0] ++ bpdu) [] [STP_LLC_SSAP] 15)
    as (b9 & -> & Hl9 & Hb9 & Hc9); [congruence|rewrite <- !app_assoc in *; exact Hl8|done|done|]. cbn [res_bind].
  destruct (store_through_lay (dp_block b2) b9 [] (eth_addr_stp ++ replicate 6 0 ++ ty ++ [STP_LLC_DSAP; STP_LLC_SSAP]) [0] bpdu [] [STP_LLC_CNTL] 16)
    as (b10 & -> & Hl10 & Hb10 & Hc10); [congruence|rewrite <- !app_assoc in *; exact Hl9|done|done|].
  exists b10. split; [done|].
  assert (carried b10 = carried b5) as Hc by congruence. injection Hc as Hc _ _ _. injection Hc4 as Hc4 _ _ _.
  assert (dp_lay b10 = mk_layers 0 UINT16_MAX 17 UINT16_MAX (cutlen (dp_lay b3)) (packet_type (dp_lay b3)) (dp_md (dp_lay b3))) as ->
    by (rewrite Hc; unfold b5; cbn; by rewrite Hc4).
  split; [eapply dlay_wf; [done|]; rewrite Hc; unfold b5; cbn; rewrite Hc4; cbn; lia|]. split; [|done].
  rewrite (dlay_contents _ _ _ _ Hl10). unfold frame_of. fold ty. by rewrite <- !app_assoc.
Qed.
End Packet.

Lemma length_config_bytes c : length (config_bytes c) = 35%nat.
Proof. reflexivity. Qed.

(** ** Quiet steps *)

(** [o] succeeds, and leaves a sane bridge with the same roles and states as [s]. *)
Definition quietly (s : stp) (o : option stp) : Prop := exists s', o = Some s' /\ s' ≡ s /\ sane s'.

Lemma quietly_some s s' : s' ≡ s -> sane s' -> quietly s (Some s').
Proof. by exists s'. Qed.

Lemma quietly_bind s o k : quietly s o -> (forall s', s' ≡ s -> sane s' -> quietly s (k s')) -> quietly s (o ≫= k).
Proof. intros (s' & -> & He & Hs) Hk. by apply Hk. Qed.

Lemma quietly_trans s s1 o : s1 ≡ s -> quietly s1 o -> quietly s o.
Proof. intros He (s' & -> & He' & Hs). apply quietly_some; [by rewrite He'|done]. Qed.

(** Closes [sane] of an assignment. *)
Ltac sane_set := match goal with H : sane ?s |- sane (_ ?s) => destruct H; split; cbn; eauto with stp end.

(** A change of a port that is neither seen nor unsane. *)
Lemma quiet_upd_port i f s : sane s ->
  (forall p, perase (f p) = perase p) -> (forall p, state_changed (f p) = state_changed p) ->
  (forall p, timer_sane (hold_timer p) -> timer_sane (hold_timer (f p))) ->
  upd_port i f s ≡ s /\ sane (upd_port i f s).
Proof.
  intros Hs He Hc Hh. split; [by apply upd_port_quiet|]. apply sane_upd_port; [done|]. intros p _ [H1 H2 H3]. rewrite Hc.
  split; [|done]. pose proof (He p) as E. injection E as _ _ _ _ E1 E2. split; [by rewrite E1|by rewrite E2|by apply Hh].
Qed.

Section Quiet.
Context (junk : nat -> Z) (stale : dp_packet) (md0 : bytes).

Lemma send_quiet i bpdu s : (length bpdu <= 1000)%nat -> sane s -> quietly s (stp_send_bpdu junk stale md0 i bpdu s).
Proof.
  intros Hl Hs. unfold stp_send_bpdu. destruct (bpdu_packet_spec junk stale md0 bpdu Hl) as (pkt & -> & _).
  assert (sane (set_sent ((i, pkt) :: sent s) s)) as Hs1 by sane_set.
  destruct (quiet_upd_port i (fun p => put_tx_count (tx_count p + 1) p) _ Hs1) as [H1 H2]; try done. apply quietly_some; [by rewrite H1|done].
Qed.

Lemma transmit_config_quiet i s : sane s -> (i < STP_MAX_PORTS)%nat -> quietly s (stp_transmit_config junk stale md0 i s).
Proof.
  intros Hs Hi. unfold stp_transmit_config. destruct (sane_port _ _ Hs Hi) as [p ->]. cbn [mbind option_bind].
  destruct (negb (stp_is_root_bridge s) && bool_decide (root_port s = None)) eqn:E; [by apply quietly_some|].
  destruct (active (hold_timer p)).
  { destruct (quiet_upd_port i (put_config_pending true) s Hs) as [H1 H2]; try done. by apply quietly_some. }
  assert (exists a, (if stp_is_root_bridge s then Some 0
    else r ← root_port s; q ← ports s !! r; v ← add_int (value (message_age_timer q)) MESSAGE_AGE_INCREMENT; Some (u16 v)) = Some a) as [a ->].
  { destruct (stp_is_root_bridge s); [by eexists|]. destruct (root_port s) as [r|] eqn:Er; [|done]. cbn [mbind option_bind].
    destruct (sane_port s r Hs) as [q Hq]; [by apply (sn_root_port _ Hs)|]. rewrite Hq. cbn [mbind option_bind].
    destruct (sane_lookup _ _ _ Hs Hq) as [_ [[Hv _] _ _]]. unfold add_int, int_ok, MESSAGE_AGE_INCREMENT.
    rewrite (proj2 (Z.leb_le _ _)), (proj2 (Z.ltb_lt _ _)) by lia. by eexists. }
  cbn [mbind option_bind]. destruct (_ <? _); [|by apply quietly_some].
  destruct (quiet_upd_port i (put_config_pending false ∘ put_topology_change_ack false) s Hs) as [H1 H2]; try done.
  apply (quietly_trans _ _ _ H1), quietly_bind; [apply send_quiet; [|done]|].
  - rewrite length_config_bytes. lia.
  - intros s' He Hs'. destruct (quiet_upd_port i (put_hold_timer (stp_start_timer 0)) s' Hs') as [H3 H4]; try done.
    apply quietly_some; [by rewrite H3|done].
Qed.

Lemma transmit_tcn_quiet s : sane s -> quietly s (stp_transmit_tcn junk stale md0 s).
Proof. intros Hs. unfold stp_transmit_tcn. destruct (root_port s); [apply send_quiet; [change (length tcn_bytes) with 4%nat; lia|done]|by apply quietly_some]. Qed.

Lemma topology_change_quiet s : sane s -> quietly s (stp_topology_change_detection junk stale md0 s).
Proof.
  intros Hs. unfold stp_topology_change_detection. apply quietly_bind.
  - destruct (stp_is_root_bridge s); [apply quietly_some; [done|]; destruct Hs; split; cbn; eauto with stp|].
    destruct (negb _); [|by apply quietly_some]. apply quietly_bind; [by apply transmit_tcn_quiet|]. intros s' He Hs'.
    apply quietly_some; [by rewrite <- He|sane_set].
  - intros s' He Hs'. apply quietly_some; [by rewrite <- He|destruct Hs'; split; cbn; eauto with stp].
Qed.

(** Quiet bodies make quiet loops. *)
Lemma for_enabled_quiet body s :
  (forall i s', (i < STP_MAX_PORTS)%nat -> sane s' -> quietly s' (body i s')) ->
  sane s -> quietly s (for_enabled body all_ports s).
Proof.
  intros Hb. unfold all_ports. assert (forall i, i ∈ seq 0 STP_MAX_PORTS -> (i < STP_MAX_PORTS)%nat) as Hin by (intros i [_ H]%elem_of_seq; lia).
  revert s Hin. induction (seq 0 STP_MAX_PORTS) as [|i l IH]; intros s Hin Hs; [by apply quietly_some|].
  cbn [for_enabled]. destruct (sane_port s i Hs) as [p ->]; [apply Hin; left|]. cbn [mbind option_bind].
  apply quietly_bind; [destruct (enabled p); [apply Hb; [apply Hin; left|done]|by apply quietly_some]|].
  intros s' He Hs'. apply (quietly_trans _ _ _ He), IH; [|done]. intros j Hj. apply Hin. by right.
Qed.

Lemma generation_quiet s : sane s -> quietly s (stp_config_bpdu_generation junk stale md0 s).
Proof.
  apply for_enabled_quiet. intros i s' Hi Hs'. destruct (sane_port s' i Hs' Hi) as [p ->]. cbn [mbind option_bind].
  destruct (stp_is_designated_port s' p); [by apply transmit_config_quiet|by apply quietly_some].
Qed.

Lemma acknowledge_quiet i s : sane s -> (i < STP_MAX_PORTS)%nat -> quietly s (stp_acknowledge_topology_change junk stale md0 i s).
Proof.
  intros Hs Hi. unfold stp_acknowledge_topology_change.
  destruct (quiet_upd_port i (put_topology_change_ack true) s Hs) as [H1 H2]; try done.
  apply (quietly_trans _ _ _ H1). by apply transmit_config_quiet.
Qed.
End Quiet.
