(* ===== verification/StpSelect.v ===== *)
(** * Root, designated ports and states: what the selections compute

    The root port is the least candidate in the order of the standard; after the selections every
    enabled port either carries the information of this bridge or better one from its segment, and it is
    blocked exactly when it is neither the root port nor designated. *)

From S2P Require Import Prelude MapDef OfpBuf DpPacket OfpMsgs StpState Stp StpBase.

(** ** Lexicographic order *)

Fixpoint lex_ltb (a b : list Z) : bool :=
  match a, b with
  | x :: a', y :: b' => if x =? y then lex_ltb a' b' else x <? y
  | _, _ => false
  end.

Lemma lex_ltb_trans a : forall b c, length a = length b -> length b = length c ->
  lex_ltb a b = true -> lex_ltb b c = true -> lex_ltb a c = true.
Proof.
  induction a as [|x a IH]; intros [|y b] [|z c] H1 H2 Hab Hbc; cbn in *; try done.
  destruct (Z.eqb_spec x y), (Z.eqb_spec y z), (Z.eqb_spec x z); subst; try lia; eauto.
Qed.

Lemma lex_ltb_irrefl a : lex_ltb a a = false.
Proof. induction a as [|x a IH]; cbn; [done|]. by rewrite Z.eqb_refl. Qed.

(** Paths to the root, from best to worst: root, cost, bridge, port, and the receiving port. *)
Definition path_key (p : stp_port) : list Z :=
  [designated_root (info p); designated_cost (info p) + path_cost p; designated_bridge (info p); designated_port (info p); port_id p].

(** Sums of costs that stay in an [int]. *)
Definition cost_ok (p : stp_port) : Prop := 0 <= designated_cost (info p) <= 2 ^ 31 - 1 - 65535 /\ 0 <= path_cost p <= 65535.

Lemma path_sum_ok p : cost_ok p -> path_sum p = Some (designated_cost (info p) + path_cost p).
Proof.
  intros [H1 H2]. unfold path_sum, add_int, int_ok. rewrite (proj2 (Z.leb_le _ _)), (proj2 (Z.ltb_lt _ _)) by lia. done.
Qed.

Lemma supersedes_root_key root p : cost_ok root -> cost_ok p ->
  stp_supersedes_root root p = Some (lex_ltb (path_key p) (path_key root)).
Proof.
  intros H1 H2. unfold stp_supersedes_root. rewrite !path_sum_ok by done. cbn [mbind option_bind]. apply (f_equal Some).
  cbn [lex_ltb path_key]. repeat (case_match; cbn [negb]; try done). apply Z.ltb_ge. lia.
Qed.

(** ** The root port *)

Definition candidate (s : stp) (p : stp_port) : Prop :=
  enabled p = true /\ stp_is_designated_port s p = false /\ designated_root (info p) < bridge_id s.

(** [root] is the best candidate among the ports [l]. *)
Definition best_of (s : stp) (l : list nat) (root : option nat) : Prop :=
  match root with
  | None => forall i p, i ∈ l -> ports s !! i = Some p -> ~ candidate s p
  | Some r => r ∈ l /\ exists q, ports s !! r = Some q /\ candidate s q /\
      forall i p, i ∈ l -> ports s !! i = Some p -> candidate s p -> lex_ltb (path_key p) (path_key q) = false
  end.

Definition costs_ok (s : stp) : Prop :=
  forall i p, ports s !! i = Some p -> enabled p = true -> stp_is_designated_port s p = false -> cost_ok p.

Lemma not_candidate s p :
  negb (enabled p) || stp_is_designated_port s p || (bridge_id s <=? designated_root (info p)) = true <-> ~ candidate s p.
Proof.
  unfold candidate. destruct (enabled p), (stp_is_designated_port s p); cbn [negb orb]; rewrite ?Z.leb_le; split; try done; try tauto; try lia.
Qed.

Lemma root_loop_best s l : forall seen root,
  costs_ok s -> (forall i, i ∈ seen ++ l -> is_Some (ports s !! i)) -> best_of s seen root ->
  exists root', root_loop s l root = Some root' /\ best_of s (seen ++ l) root'.
Proof.
  induction l as [|i l IH]; intros seen root Hc Hp Hb; [exists root; by rewrite app_nil_r|].
  cbn [root_loop]. destruct (Hp i) as [p E]; [rewrite elem_of_app; right; left|]. rewrite E. cbn [mbind option_bind].
  assert (seen ++ i :: l = (seen ++ [i]) ++ l) as El by (by rewrite <- app_assoc). rewrite El in *.
  destruct (negb (enabled p) || _ || _) eqn:Ec.
  - apply not_candidate in Ec. apply IH; [done|done|]. destruct root as [r|]; cbn [best_of] in *.
    + destruct Hb as (Hr & q & Eq & Hq & Hbest). split; [apply elem_of_app; by left|]. exists q. split_and!; try done.
      intros j p' [Hj|Hj]%elem_of_app Ep' Hcand; [by eapply Hbest|]. apply list_elem_of_singleton in Hj as ->. naive_solver.
    + intros j p' [Hj|Hj]%elem_of_app Ep'; [by eapply Hb|]. apply list_elem_of_singleton in Hj as ->. naive_solver.
  - assert (candidate s p) as Hcp. { apply dec_stable. intros Hn. apply not_candidate in Hn. congruence. }
    pose proof Hcp as (He & Hd & Hr).
    destruct root as [r|]; cbn [best_of] in Hb.
    + destruct Hb as (Hrin & q & Eq & Hq & Hbest). rewrite Eq. cbn [mbind option_bind].
      pose proof Hq as (He' & Hd' & _). rewrite supersedes_root_key by (by eapply Hc). cbn [mbind option_bind].
      apply IH; [done|done|]. destruct (lex_ltb (path_key p) (path_key q)) eqn:El'; cbn [best_of].
      * split; [apply elem_of_app; right; left|]. exists p. split_and!; try done.
        intros j p' [Hj|Hj]%elem_of_app Ep' Hcand.
        -- destruct (lex_ltb (path_key p') (path_key p)) eqn:E'; [|done].
           pose proof (lex_ltb_trans (path_key p') (path_key p) (path_key q) eq_refl eq_refl E' El') as Ht. by rewrite (Hbest j p') in Ht.
        -- apply list_elem_of_singleton in Hj as ->. rewrite E in Ep'. injection Ep' as <-. apply lex_ltb_irrefl.
      * split; [apply elem_of_app; by left|]. exists q. split_and!; try done.
        intros j p' [Hj|Hj]%elem_of_app Ep' Hcand; [by eapply Hbest|]. apply list_elem_of_singleton in Hj as ->. naive_solver.
    + cbn [mbind option_bind]. apply IH; [done|done|]. split; [apply elem_of_app; right; left|]. exists p. split_and!; try done.
      intros j p' [Hj|Hj]%elem_of_app Ep' Hcand; [by destruct (Hb j p' Hj Ep')|]. apply list_elem_of_singleton in Hj as ->.
      rewrite E in Ep'. injection Ep' as <-. apply lex_ltb_irrefl.
Qed.

(** Either this bridge is the root, or its root port leads to a better one. *)
Definition root_inv (s : stp) : Prop :=
  match root_port s with
  | None => stp_designated_root s = bridge_id s /\ root_path_cost s = 0
  | Some r => exists q, ports s !! r = Some q /\ candidate s q /\ cost_ok q /\
      stp_designated_root s = designated_root (info q) /\ root_path_cost s = designated_cost (info q) + path_cost q
  end.

Lemma root_selection_spec s : length (ports s) = STP_MAX_PORTS -> costs_ok s ->
  exists id cost port, stp_root_selection s = Some (set_root id cost port s) /\ root_inv (set_root id cost port s) /\
    best_of s all_ports port.
Proof.
  intros Hl Hc. destruct (root_loop_best s all_ports [] None Hc) as (root & E & Hb).
  { intros i Hi. apply lookup_lt_is_Some. rewrite Hl. apply elem_of_seq in Hi. lia. }
  { intros i p Hi. by apply not_elem_of_nil in Hi. }
  unfold stp_root_selection. rewrite E. cbn [mbind option_bind]. cbn [app] in Hb. destruct root as [r|].
  - pose proof Hb as (Hr & q & Eq & Hq & _). pose proof Hq as (He & Hd & Hlt). rewrite Eq. cbn [mbind option_bind].
    pose proof (Hc r q Eq He Hd) as Hcq. rewrite path_sum_ok by done. cbn [mbind option_bind]. pose proof Hcq as [H1 H2].
    rewrite wrap_small by (unfold in_u; lia). eexists _, _, _. split; [reflexivity|]. split; [|done]. by exists q.
  - eexists _, _, _. split; [reflexivity|]. by split_and!.
Qed.

(** ** Loops that change each port by itself *)

Lemma for_enabled_map body f s :
  length (ports s) = STP_MAX_PORTS ->
  (forall i s' p, set_ports [] s' = set_ports [] s -> ports s' !! i = Some p -> enabled p = true ->
     body i s' = Some (upd_port i (fun _ => f p) s')) ->
  for_enabled body all_ports s = Some (set_ports ((fun p => if enabled p then f p else p) <$> ports s) s).
Proof.
  intros Hl Hb. set (g := fun p => if enabled p then f p else p).
  assert (forall n k s', set_ports [] s' = set_ports [] s -> (k + n)%nat = length (ports s') ->
    for_enabled body (seq k n) s' = Some (set_ports (take k (ports s') ++ (g <$> drop k (ports s'))) s')) as H.
  { induction n as [|n IH]; intros k s' He Hk; cbn [seq for_enabled].
    - rewrite drop_ge, take_ge, app_nil_r by lia. by destruct s'.
    - destruct (lookup_lt_is_Some_2 (ports s') k) as [p Ep]; [lia|]. rewrite Ep. cbn [mbind option_bind].
      assert ((if enabled p then body k s' else Some s') = Some (set_ports (<[k := g p]> (ports s')) s')) as ->.
      { unfold g. destruct (enabled p) eqn:Een.
        - rewrite (Hb _ _ _ He Ep Een). unfold upd_port. do 2 f_equal. apply list_eq. intros j.
          destruct (decide (k = j)) as [<-|Hn]; [|by rewrite list_lookup_alter_ne, list_lookup_insert_ne].
          rewrite list_lookup_alter_eq, list_lookup_insert_eq by (apply lookup_lt_Some in Ep; lia). by rewrite Ep.
        - rewrite list_insert_id by done. by destruct s'. }
      cbn [mbind option_bind]. rewrite IH; [|done|cbn; rewrite length_insert; lia].
      apply (f_equal Some). cbn [ports set_ports]. apply lookup_lt_Some in Ep as Hlt.
      rewrite (take_S_r _ _ (g p)) by (by rewrite list_lookup_insert_eq). rewrite take_insert_ge, drop_insert_lt by lia.
      rewrite (drop_S (ports s') p k) by done. rewrite fmap_cons, <- app_assoc. done. }
  unfold all_ports. rewrite H by (done || lia). done.
Qed.

(** ** Designated ports *)

Lemma designated_selection_spec s : length (ports s) = STP_MAX_PORTS ->
  stp_designated_port_selection s =
    Some (set_ports ((fun p => if enabled p then if wins_segment s p then put_info (own_info s p) p else p else p) <$> ports s) s).
Proof.
  intros Hl. apply for_enabled_map; [done|]. intros i s' p He Ep _. rewrite Ep. cbn [mbind option_bind]. apply (f_equal Some).
  assert (bridge_id s' = bridge_id s /\ stp_designated_root s' = stp_designated_root s /\ root_path_cost s' = root_path_cost s) as (E1 & E2 & E3)
    by (injection He; by intros).
  assert (wins_segment s' p = wins_segment s p) as -> by (unfold wins_segment, stp_is_designated_port; by rewrite E1, E2, E3).
  assert (own_info s' p = own_info s p) as Eo by (unfold own_info; by rewrite E1, E2, E3).
  assert (forall f g : stp_port -> stp_port, f p = g p -> upd_port i f s' = upd_port i g s') as Hext.
  { intros f g Hfg. unfold upd_port. f_equal. apply list_eq. intros j. destruct (decide (i = j)) as [<-|]; [|by rewrite !list_lookup_alter_ne].
    rewrite !list_lookup_alter_eq, Ep. cbn. by rewrite Hfg. }
  destruct (wins_segment s p).
  - unfold stp_become_designated_port. apply Hext. by rewrite Eo.
  - rewrite <- (Hext id (fun _ => p)) by done. unfold upd_port. rewrite alter_id_list. by destruct s'.
Qed.

(** ** Loops that change each port by itself, up to quiet steps *)

Lemma enabled_perase p : enabled (perase p) = enabled p.
Proof. done. Qed.

Lemma serase_ports s i : ports (serase s) !! i = perase <$> ports s !! i.
Proof. apply list_lookup_fmap. Qed.

Lemma set_ports_twice l l' s : set_ports l (set_ports l' s) = set_ports l s.
Proof. done. Qed.

Lemma imap_id_list {A} (l : list A) : imap (fun _ x => x) l = l.
Proof. apply list_eq. intros i. rewrite list_lookup_imap. by destruct (l !! i). Qed.

Lemma for_enabled_erased body (f : nat -> stp_port -> stp_port) s :
  sane s ->
  (forall i s' p, sane s' -> set_ports [] (serase s') = set_ports [] (serase s) -> ports s' !! i = Some p -> enabled p = true ->
     exists s'', body i s' = Some s'' /\ sane s'' /\ serase s'' = upd_port i (f i) (serase s')) ->
  exists s', for_enabled body all_ports s = Some s' /\ sane s' /\
    serase s' = set_ports (imap (fun i p => if enabled p then f i p else p) (ports (serase s))) (serase s).
Proof.
  intros Hs Hb. remember (serase s) as E eqn:HEq. set (g := fun i p => if enabled p then f i p else p).
  assert (length (ports E) = STP_MAX_PORTS) as HE by (rewrite HEq; cbn; rewrite length_fmap; apply Hs).
  assert (forall n k s', (k + n)%nat = STP_MAX_PORTS -> sane s' ->
    serase s' = set_ports (imap (fun i p => if (i <? k)%nat then g i p else p) (ports E)) E ->
    exists s'', for_enabled body (seq k n) s' = Some s'' /\ sane s'' /\ serase s'' = set_ports (imap g (ports E)) E) as H.
  { induction n as [|n IH]; intros k s' Hk Hs' He; cbn [seq for_enabled].
    - exists s'. split_and!; [done|done|]. rewrite He. f_equal. apply imap_ext. intros i p Hp.
      apply lookup_lt_Some in Hp. by rewrite (proj2 (Nat.ltb_lt _ _)) by lia.
    - destruct (sane_port s' k Hs') as [p Ep]; [lia|]. rewrite Ep. cbn [mbind option_bind].
      assert (ports E !! k = Some (perase p)) as EE.
      { assert (ports (serase s') !! k = Some (perase p)) as H1 by (by rewrite serase_ports, Ep).
        rewrite He in H1. cbn [ports set_ports] in H1. rewrite list_lookup_imap in H1. destruct (ports E !! k) as [q|]; cbn [fmap option_fmap option_map] in H1; [|done].
        rewrite Nat.ltb_irrefl in H1. done. }
      assert (exists s1, (if enabled p then body k s' else Some s') = Some s1 /\ sane s1 /\
        serase s1 = set_ports (imap (fun i p => if (i <? S k)%nat then g i p else p) (ports E)) E) as (s1 & -> & Hs1 & He1).
      { assert (forall F : stp_port -> stp_port, F (perase p) = g k (perase p) ->
          upd_port k F (serase s') = set_ports (imap (fun i p => if (i <? S k)%nat then g i p else p) (ports E)) E) as Hupd.
        { intros F HF. rewrite He. unfold upd_port. rewrite set_ports_twice. cbn [ports set_ports]. f_equal. apply list_eq. intros j.
          destruct (decide (k = j)) as [<-|Hn].
          - rewrite list_lookup_alter_eq, !list_lookup_imap, EE. cbn [fmap option_fmap option_map compose]. rewrite Nat.ltb_irrefl, (proj2 (Nat.ltb_lt _ _)) by lia. by rewrite HF.
          - rewrite list_lookup_alter_ne, !list_lookup_imap by done. destruct (ports E !! j); cbn [fmap option_fmap option_map compose]; [|done].
            by replace (j <? S k)%nat with (j <? k)%nat by (destruct (Nat.ltb_spec j k), (Nat.ltb_spec j (S k)); lia || done). }
        destruct (enabled p) eqn:Een.
        - destruct (Hb k s' p Hs') as (s1 & E1 & Hs1 & He1); [by rewrite He|done|done|]. exists s1. split_and!; [done|done|].
          rewrite He1. apply Hupd. unfold g. by rewrite enabled_perase, Een.
        - exists s'. split_and!; [done|done|]. rewrite <- (Hupd id); [unfold upd_port; rewrite alter_id_list; by destruct s'|].
          unfold g. by rewrite enabled_perase, Een. }
      cbn [mbind option_bind]. apply IH; [lia|done|done]. }
  destruct (H STP_MAX_PORTS 0%nat s eq_refl Hs) as (s' & E' & Hs' & He'); [|by exists s'].
  rewrite <- HEq. rewrite (imap_ext _ (fun _ p => p)) by done. rewrite imap_id_list. by destruct E.
Qed.

(** ** States *)

Lemma upd_port_ext i f g s : (forall p, ports s !! i = Some p -> f p = g p) -> upd_port i f s = upd_port i g s.
Proof.
  intros H. unfold upd_port. f_equal. apply list_eq. intros j. destruct (decide (i = j)) as [<-|]; [|by rewrite !list_lookup_alter_ne].
  rewrite !list_lookup_alter_eq. destruct (ports s !! i); cbn; [by rewrite H|done].
Qed.

Lemma upd_port_compose i f g s : upd_port i f (upd_port i g s) = upd_port i (f ∘ g) s.
Proof.
  unfold upd_port. cbn. rewrite set_ports_twice. f_equal. apply list_eq. intros j.
  destruct (decide (i = j)) as [<-|]; [|by rewrite !list_lookup_alter_ne]. rewrite !list_lookup_alter_eq. by destruct (ports s !! i).
Qed.

Lemma upd_port_id i s : upd_port i id s = s.
Proof. unfold upd_port. rewrite alter_id_list. by destruct s. Qed.

Lemma port_upd_port i f s p : ports s !! i = Some p -> ports (upd_port i f s) !! i = Some (f p).
Proof. intros H. cbn. by rewrite list_lookup_alter_eq, H. Qed.

(** [o] succeeds, leaves a sane bridge, and is seen as [g] on port [i] of [s]. *)
Definition acts (i : nat) (g : stp_port -> stp_port) (s : stp) (o : option stp) : Prop :=
  exists s', o = Some s' /\ sane s' /\ serase s' = upd_port i g (serase s).

Lemma acts_quiet i s o : quietly s o -> acts i id s o.
Proof. intros (s' & -> & He & Hs). exists s'. split_and!; [done|done|]. rewrite upd_port_id. exact He. Qed.

Lemma acts_bind i f g s o k :
  acts i f s o -> (forall s', sane s' -> serase s' = upd_port i f (serase s) -> acts i g s' (k s')) -> acts i (g ∘ f) s (o ≫= k).
Proof.
  intros (s1 & -> & Hs1 & He1) Hk. destruct (Hk s1 Hs1 He1) as (s2 & E2 & Hs2 & He2). exists s2. split_and!; [done|done|].
  by rewrite He2, He1, upd_port_compose.
Qed.

Lemma acts_upd i f g s : sane s ->
  (forall p, perase (f p) = g (perase p)) ->
  (forall p, port_sane p -> port_sane (f p) /\ state_changed (f p) = state_changed p) -> acts i g s (Some (upd_port i f s)).
Proof.
  intros Hs He Hp. eexists. split_and!; [reflexivity| |by apply upd_port_erase]. apply sane_upd_port; [done|].
  intros p _ Hps. destruct (Hp p Hps) as [H1 H2]. by rewrite H2.
Qed.

Lemma acts_ext i f g s o : (forall p, ports s !! i = Some p -> f (perase p) = g (perase p)) -> acts i f s o -> acts i g s o.
Proof.
  intros H (s' & -> & Hs & He). exists s'. split_and!; [done|done|]. rewrite He. apply upd_port_ext. intros p.
  rewrite serase_ports. intros (q & Hq & ->)%fmap_Some. by apply H.
Qed.

Lemma set_port_state_acts i st s : sane s -> (i < STP_MAX_PORTS)%nat -> acts i (put_state st) s (stp_set_port_state i st s).
Proof.
  intros Hs Hi. unfold stp_set_port_state. destruct (sane_port s i Hs Hi) as [p Ep]. rewrite Ep. cbn [mbind option_bind].
  destruct (negb _ && negb _).
  - set (s1 := if (i <? _)%nat then _ else _).
    assert (serase s1 = serase s) as E1.
    { unfold s1. destruct (i <? _)%nat; exact (upd_port_quiet (put_state_changed true) i s ltac:(done)). }
    assert (sane s1) as Hs1.
    { assert (forall k, (k <= first_changed_port s)%nat -> (k <= i)%nat -> sane (set_first_changed_port k (upd_port i (put_state_changed true) s))) as H.
      { intros k Hk1 Hk2. pose proof (sn_ports _ Hs) as Hps. pose proof (sn_changed _ Hs) as Hch. destruct Hs. split; cbn; try done; [by rewrite length_alter| |].
        - apply Forall_lookup. intros j q. destruct (decide (i = j)) as [<-|Hn].
          + rewrite list_lookup_alter_eq, Ep. intros [= <-]. pose proof (proj1 (Forall_lookup _ _) Hps i p Ep) as []. by split.
          + rewrite list_lookup_alter_ne by done. intros Hq. exact (proj1 (Forall_lookup _ _) Hps j q Hq).
        - intros j q. destruct (decide (i = j)) as [<-|Hn]; [done|]. rewrite list_lookup_alter_ne by done. intros Hq Hc.
          specialize (Hch j q Hq Hc). lia. }
      unfold s1. cbn [first_changed_port upd_port set_ports]. destruct (Nat.ltb_spec i (first_changed_port s)); [apply H; lia|].
      apply (H (first_changed_port s)); lia. }
    destruct (acts_upd i (put_state st) (put_state st) s1 Hs1) as (s' & E' & Hs' & He'); [done|intros q []; by split_and!|].
    exists s'. split_and!; [done|done|]. by rewrite He', E1.
  - apply acts_upd; [done|done|]. intros q []. by split_and!.
Qed.

(** What the selections do to the state of a port. *)
Definition fwd (p : stp_port) : stp_port :=
  if bool_decide (state p = STP_BLOCKING) then put_forward_delay_timer (stp_start_timer 0) (put_state STP_LISTENING p) else p.
Definition blk (p : stp_port) : stp_port :=
  if negb (state_in (state p) [STP_DISABLED; STP_BLOCKING]) then stop_forward_delay (put_state STP_BLOCKING p) else p.
Definition sel (s : stp) (i : nat) (p : stp_port) : stp_port :=
  if bool_decide (root_port s = Some i) then fwd p
  else if stp_is_designated_port s p then fwd (stop_message_age p)
  else blk p.

Section States.
Context (junk : nat -> Z) (stale : dp_packet) (md0 : bytes).

Lemma make_forwarding_acts i s : sane s -> (i < STP_MAX_PORTS)%nat -> acts i fwd s (stp_make_forwarding i s).
Proof using.
  intros Hs Hi. unfold stp_make_forwarding. destruct (sane_port s i Hs Hi) as [p Ep]. rewrite Ep. cbn [mbind option_bind].
  case_bool_decide as Hb.
  - apply (acts_ext _ (put_forward_delay_timer (stp_start_timer 0) ∘ put_state STP_LISTENING)).
    { intros q Eq. rewrite Ep in Eq. injection Eq as <-. unfold fwd. by rewrite bool_decide_true. }
    apply acts_bind; [by apply set_port_state_acts|]. intros s' Hs' _. apply acts_upd; [done|done|].
    intros q []. split_and!; [split; try done; by apply timer_sane_start|done].
  - apply (acts_ext _ id); [|apply acts_quiet, quietly_some; done].
    intros q Eq. rewrite Ep in Eq. injection Eq as <-. unfold fwd. by rewrite bool_decide_false.
Qed.

Lemma make_blocking_acts i s : sane s -> (i < STP_MAX_PORTS)%nat -> acts i blk s (stp_make_blocking junk stale md0 i s).
Proof.
  intros Hs Hi. unfold stp_make_blocking. destruct (sane_port s i Hs Hi) as [p Ep]. rewrite Ep. cbn [mbind option_bind].
  destruct (negb _) eqn:Eb.
  - apply (acts_ext _ (stop_forward_delay ∘ put_state STP_BLOCKING ∘ id)).
    { intros q Eq. rewrite Ep in Eq. injection Eq as <-. unfold blk. cbn [state perase]. by rewrite Eb. }
    apply acts_bind; [apply acts_quiet; destruct (_ && _); [by apply topology_change_quiet|by apply quietly_some]|].
    intros s' Hs' _. apply acts_bind; [by apply set_port_state_acts|]. intros s2 Hs2 _. apply acts_upd; [done|done|].
    intros q []. split_and!; [split; try done; by apply timer_sane_stop|done].
  - apply (acts_ext _ id); [|apply acts_quiet, quietly_some; done].
    intros q Eq. rewrite Ep in Eq. injection Eq as <-. unfold blk. cbn [state perase]. by rewrite Eb.
Qed.

Lemma select_state_acts i s : sane s -> (i < STP_MAX_PORTS)%nat -> acts i (sel s i) s (select_state junk stale md0 i s).
Proof.
  intros Hs Hi. unfold select_state. destruct (sane_port s i Hs Hi) as [p Ep]. rewrite Ep. cbn [mbind option_bind].
  assert (forall f g h o, sane s -> (forall p, perase (f p) = g (perase p)) ->
    (forall p, port_sane p -> port_sane (f p) /\ state_changed (f p) = state_changed p) ->
    (forall s', sane s' -> acts i h s' (o s')) -> acts i (h ∘ g) s (o (upd_port i f s))) as H.
  { intros f g h o _ H1 H2 H3. destruct (acts_upd i f g s Hs H1 H2) as (s1 & [= <-] & Hs1 & He1).
    destruct (H3 _ Hs1) as (s2 & E2 & Hs2 & He2). exists s2. split_and!; [done|done|]. by rewrite He2, He1, upd_port_compose. }
  assert (forall q, ports s !! i = Some q -> q = p) as Hq by (intros q Eq; congruence).
  unfold sel. case_bool_decide as Hr; [|destruct (stp_is_designated_port s p) eqn:Ed].
  - apply (acts_ext _ (fwd ∘ id)); [done|]. apply H; [done|done|intros q []; by split_and!|].
    intros s' Hs'. by apply make_forwarding_acts.
  - apply (acts_ext _ (fwd ∘ stop_message_age)).
    { intros q ->%Hq. change (stp_is_designated_port s (perase p)) with (stp_is_designated_port s p). by rewrite Ed. }
    apply H; [done|done| |intros s' Hs'; by apply make_forwarding_acts].
    intros q []. split_and!; [split; try done; by apply timer_sane_stop|done].
  - apply (acts_ext _ (blk ∘ id)).
    { intros q ->%Hq. change (stp_is_designated_port s (perase p)) with (stp_is_designated_port s p). by rewrite Ed. }
    apply H; [done|done|intros q []; by split_and!|]. intros s' Hs'. by apply make_blocking_acts.
Qed.

Lemma state_selection_spec s : sane s ->
  exists s', stp_port_state_selection junk stale md0 s = Some s' /\ sane s' /\
    serase s' = set_ports (imap (fun i p => if enabled p then sel s i p else p) (ports (serase s))) (serase s).
Proof.
  intros Hs. apply for_enabled_erased; [done|]. intros i s' p Hs' He Ep _.
  destruct (sane_lookup _ _ _ Hs' Ep) as [Hi _]. destruct (select_state_acts i s' Hs' Hi) as (s2 & E2 & Hs2 & He2).
  exists s2. split_and!; [done|done|]. rewrite He2. apply upd_port_ext. intros q _. injection He as E1 _ _ _ _ E3 _.
  unfold sel, stp_is_designated_port. by rewrite E1, E3.
Qed.
End States.
