(* ===== verification/StpInv.v ===== *)
(** * The invariant of a bridge

    Whatever is received, however time passes and whatever the management changes: all enabled ports
    agree on the root, a port is blocked exactly when it is neither the root port nor designated, and
    the timers that move it on are running. *)

From S2P Require Import Prelude MapDef OfpBuf DpPacket OfpMsgs StpState Stp StpBase StpSelect.

(** ** The invariant *)

Record port_base (i : nat) (p : stp_port) : Prop := {
  pb_id : in_u 16 (port_id p) /\ port_id p mod 256 = Z.of_nat i + 1;
  pb_cost : 1 <= path_cost p <= 65535;
  pb_state : state p <> STP_NONE;
  pb_forward_delay : active (forward_delay_timer p) = state_in (state p) [STP_LISTENING; STP_LEARNING]
}.

(** Before the selections. *)
Record port_pre (s : stp) (i : nat) (p : stp_port) : Prop := {
  pp_base : port_base i p;
  pp_learnt : enabled p = true -> stp_is_designated_port s p = false -> active (message_age_timer p) = true /\ cost_ok p;
  pp_disabled : enabled p = false -> active (message_age_timer p) = false
}.

(** After them.  [pv_info]: a designated port carries the information of this bridge, any other port
    better information about the same root.  [pv_role]: only root and designated ports are not blocked. *)
Record port_inv (s : stp) (i : nat) (p : stp_port) : Prop := {
  pv_pre : port_pre s i p;
  pv_info : enabled p = true -> if stp_is_designated_port s p then info p = own_info s p else wins_segment s p = false;
  pv_role : enabled p = true -> state p = STP_BLOCKING <-> root_port s <> Some i /\ stp_is_designated_port s p = false;
  pv_message_age : stp_is_designated_port s p = true -> active (message_age_timer p) = false
}.

Definition ports_inv (s : stp) : Prop := forall i p, ports s !! i = Some p -> port_inv s i p.
Definition ports_pre (s : stp) : Prop := forall i p, ports s !! i = Some p -> port_pre s i p.

Record inv (s : stp) : Prop := {
  inv_sane : sane s;
  inv_root : root_inv s;
  inv_hello : stp_is_root_bridge s = true -> active (hello_timer s) = true;
  inv_ports : ports_inv s
}.

(** ** What the invariant depends on *)

Definition berase (s : stp) : stp := set_hello_timer null_timer (set_times null_times (set_bridge_times null_times (serase s))).
Definition same_body (s s' : stp) : Prop := berase s = berase s'.

Lemma quiet_body s s' : s' ≡ s -> same_body s s'.
Proof. intros H. unfold same_body, berase. by rewrite H. Qed.

Lemma body_lookup s s' i p : same_body s s' -> ports s' !! i = Some p -> exists q, ports s !! i = Some q /\ perase q = perase p.
Proof.
  intros H Hp. assert (perase <$> ports s = perase <$> ports s') as E by (injection H; done).
  assert (perase <$> ports s !! i = Some (perase p)) as Ei by (by rewrite <- list_lookup_fmap, E, list_lookup_fmap, Hp).
  apply fmap_Some in Ei as (q & Hq & Eq). by exists q.
Qed.

Lemma body_fields s s' : same_body s s' ->
  bridge_id s' = bridge_id s /\ stp_designated_root s' = stp_designated_root s /\ root_path_cost s' = root_path_cost s /\ root_port s' = root_port s.
Proof. intros H. injection H. by intros. Qed.

Lemma port_pre_erase s s' i p q : bridge_id s' = bridge_id s -> perase q = perase p -> port_pre s i q -> port_pre s' i p.
Proof.
  intros Eb Ep [[H1 H2 H3 H4] H5 H6]. injection Ep as E1 E2 E3 E4 E5 E6. unfold enabled, stp_is_designated_port, cost_ok in *.
  rewrite E1, E2, E3, E4, E5, E6, <- ?Eb in *. split; [by split|done|done].
Qed.

Lemma port_inv_erase s s' i p q :
  bridge_id s' = bridge_id s /\ stp_designated_root s' = stp_designated_root s /\ root_path_cost s' = root_path_cost s /\ root_port s' = root_port s ->
  perase q = perase p -> port_inv s i q -> port_inv s' i p.
Proof.
  intros (E1 & E2 & E3 & E4) Ep [H1 H2 H3 H4].
  split; [by eapply port_pre_erase|..]; injection Ep as F1 F2 F3 F4 F5 F6;
    unfold enabled, stp_is_designated_port, wins_segment, stp_is_designated_port, own_info in *; rewrite ?F1, ?F2, ?F3, ?F4, ?F5, ?F6, <- ?E1, <- ?E2, <- ?E3, <- ?E4 in *; done.
Qed.

Lemma body_ports s s' : same_body s s' -> ports_inv s -> ports_inv s'.
Proof. intros Hb H i p Hp. destruct (body_lookup _ _ _ _ Hb Hp) as (q & Hq & Ep). eapply port_inv_erase; [by apply body_fields|done|by apply H]. Qed.

Lemma body_root s s' : same_body s s' -> root_inv s -> root_inv s'.
Proof.
  intros Hb H. destruct (body_fields _ _ Hb) as (E1 & E2 & E3 & E4). unfold root_inv in *. rewrite E1, E2, E3, E4.
  destruct (root_port s) as [r|]; [|done]. destruct H as (q & Hq & Hc & Hok & H1 & H2).
  destruct (body_lookup s' s r q) as (p & Hp & Ep); [by symmetry|done|]. exists p. split; [done|].
  injection Ep as F1 F2 F3 F4 F5 F6. unfold candidate, cost_ok, enabled, stp_is_designated_port in *.
  by rewrite E1, F1, F2, F3, F4.
Qed.

(** A step that keeps the body keeps the invariant, if the root bridge still sends. *)
Lemma inv_body s s' : inv s -> same_body s s' -> sane s' -> (stp_is_root_bridge s' = true -> active (hello_timer s') = true) -> inv s'.
Proof. intros [] Hb Hs Hh. split; [done|by eapply body_root|done|by eapply body_ports]. Qed.

Lemma inv_quiet s s' : inv s -> s' ≡ s -> sane s' -> inv s'.
Proof.
  intros Hi He Hs. apply (inv_body s); [done|by apply quiet_body|done|].
  assert (stp_is_root_bridge s' = stp_is_root_bridge s /\ hello_timer s' = hello_timer s) as [-> ->]; [|apply Hi].
  unfold stp_is_root_bridge. injection He. intros. split; congruence.
Qed.

Lemma root_no_port s : root_inv s -> stp_is_root_bridge s = true -> root_port s = None.
Proof.
  unfold root_inv, stp_is_root_bridge. intros H Hr%Z.eqb_eq. destruct (root_port s) as [r|]; [|done].
  destruct H as (q & _ & (_ & _ & Hlt) & _ & E & _). lia.
Qed.

(** ** The selections establish it *)

(** The fields that the selections do not touch. *)
Definition kept (s s' : stp) : Prop :=
  bridge_id s' = bridge_id s /\ times s' = times s /\ bridge_times s' = bridge_times s /\ hello_timer s' = hello_timer s.

(** Between the two selections. *)
Record port_mid (s : stp) (i : nat) (p : stp_port) : Prop := {
  pm_pre : port_pre s i p;
  pm_info : enabled p = true -> if stp_is_designated_port s p then info p = own_info s p else wins_segment s p = false
}.

Lemma own_designated s p : stp_is_designated_port s (put_info (own_info s p) p) = true.
Proof. unfold stp_is_designated_port. cbn. by rewrite !Z.eqb_refl. Qed.

Lemma configuration_update_mid s : sane s -> ports_pre s ->
  exists s', stp_configuration_update s = Some s' /\ sane s' /\ root_inv s' /\ kept s s' /\
    (root_port s' = None -> forall i p, ports s !! i = Some p -> ~ candidate s p) /\
    forall i p, ports s' !! i = Some p -> port_mid s' i p.
Proof.
  intros Hs Hp. destruct (root_selection_spec s) as (id & cost & port & E & Hr & Hbest); [apply Hs|intros i p Ep He Hd; by apply (Hp i p Ep)|].
  unfold stp_configuration_update. rewrite E. cbn [mbind option_bind]. set (s0 := set_root id cost port s) in *.
  rewrite designated_selection_spec by apply Hs.
  set (F := fun p => if enabled p then if wins_segment s0 p then put_info (own_info s0 p) p else p else p). eexists. split; [reflexivity|].
  assert (forall i q, (F <$> ports s0) !! i = Some q -> exists p, ports s !! i = Some p /\ q = F p) as HF.
  { intros i q. rewrite list_lookup_fmap. intros (p & Ep & ->)%fmap_Some. by exists p. }
  assert (forall p, F p = p \/ F p = put_info (own_info s0 p) p) as Hcase by (intros p; unfold F; repeat case_match; auto).
  split_and!; try done.
  - pose proof (sn_changed _ Hs) as Hch. destruct Hs. split; cbn; try done; [by rewrite length_fmap| | |].
    + intros r Er. subst port. unfold root_inv in Hr. cbn in Hr. destruct Hr as (q & Hq & _). apply lookup_lt_Some in Hq. lia.
    + apply Forall_fmap. eapply Forall_impl; [done|]. intros p []. destruct (Hcase p) as [H|H]; cbn; rewrite H; by split.
    + intros i q (p & Ep & ->)%HF. intros Hc. apply (Hch i p Ep). by destruct (Hcase p) as [H|H]; rewrite H in Hc.
  - unfold root_inv in *. cbn [root_port set_ports s0 set_root] in *. destruct port as [r|]; [|done].
    destruct Hr as (q & Hq & Hc & Hok & H1 & H2). exists q. split_and!; try done. cbn [ports set_ports]. rewrite list_lookup_fmap. cbn [ports s0 set_root].
    cbn [ports s0 set_root] in Hq. rewrite Hq. apply (f_equal Some). unfold F. destruct (enabled q); [|done].
    replace (wins_segment s0 q) with false; [done|]. symmetry. destruct Hc as (_ & Hd & _), Hok as [Hdc Hpc].
    pose proof (pb_cost _ _ (pp_base _ _ _ (Hp r q Hq))) as Hpb.
    unfold wins_segment. rewrite Hd, H1, H2, Z.eqb_refl, wrap_small by (unfold in_u; lia). cbn [negb orb].
    rewrite (proj2 (Z.ltb_ge _ _)), (proj2 (Z.eqb_neq _ _)) by lia. done.
  - cbn. intros -> i p Ep. apply (Hbest i p); [|done]. apply elem_of_seq. apply lookup_lt_Some in Ep. rewrite (sn_length _ Hs) in Ep. lia.
  - intros i q (p & Ep & ->)%HF. pose proof (Hp i p Ep) as Hpre.
    unfold F. destruct (enabled p) eqn:Een; [|split; [by eapply port_pre_erase; [| |exact Hpre]|congruence]].
    destruct (wins_segment s0 p) eqn:Ew.
    + destruct Hpre as [[H1 H2 H3 H4] H5 H6]. split.
      * split; [by split| |done]. intros _. change (stp_is_designated_port (set_ports _ s0) ?p) with (stp_is_designated_port s0 p).
        by rewrite own_designated.
      * intros _. change (stp_is_designated_port (set_ports _ s0) ?p) with (stp_is_designated_port s0 p). by rewrite own_designated.
    + split; [by eapply port_pre_erase; [| |exact Hpre]|]. intros _.
      change (stp_is_designated_port (set_ports _ s0) p) with (stp_is_designated_port s0 p).
      change (wins_segment (set_ports _ s0) p) with (wins_segment s0 p).
      destruct (stp_is_designated_port s0 p) eqn:Ed; [|done]. unfold wins_segment in Ew. by rewrite Ed in Ew.
Qed.

(** A port that differs from [p] in its state and timers only. *)
Lemma port_inv_intro s i p q :
  port_mid s i p -> enabled p = true ->
  port_id q = port_id p /\ path_cost q = path_cost p /\ info q = info p ->
  state q <> STP_NONE /\ state q <> STP_DISABLED ->
  active (forward_delay_timer q) = state_in (state q) [STP_LISTENING; STP_LEARNING] ->
  (stp_is_designated_port s p = false -> active (message_age_timer q) = true) ->
  (state q = STP_BLOCKING <-> root_port s <> Some i /\ stp_is_designated_port s p = false) ->
  (stp_is_designated_port s p = true -> active (message_age_timer q) = false) ->
  port_inv s i q.
Proof.
  intros [[[H1 H2 H3 H4] H5 H6] H7] He (E1 & E2 & E3) [Hn Hd] Hf Hma Hrole Hmi.
  assert (enabled q = true) as Heq by (unfold enabled; by rewrite bool_decide_false).
  assert (stp_is_designated_port s q = stp_is_designated_port s p) as Ed by (unfold stp_is_designated_port; by rewrite E1, E3).
  assert (wins_segment s q = wins_segment s p) as Ew by (unfold wins_segment; by rewrite Ed, E1, E3).
  split.
  - split; [split; rewrite ?E1, ?E2; done| |congruence]. intros _ Hdq. rewrite Ed in Hdq. split; [by apply Hma|].
    destruct (H5 He Hdq) as [_ [H8 H9]]. split; [by rewrite E3|by rewrite E2].
  - intros _. rewrite Ed, Ew. specialize (H7 He). unfold own_info in *. rewrite E1, E3. done.
  - intros _. by rewrite Ed.
  - by rewrite Ed.
Qed.

Lemma sel_inv s i p : port_mid s i p -> (root_port s = Some i -> stp_is_designated_port s p = false) -> enabled p = true ->
  port_inv s i (sel s i p).
Proof.
  intros Hm Hrd He. pose proof Hm as [[[H1 H2 H3 H4] H5 H6] H7].
  assert (state p <> STP_DISABLED) as Hnd by (intros E; unfold enabled in He; by rewrite E in He).
  unfold sel. case_bool_decide as Hr; [|destruct (stp_is_designated_port s p) eqn:Ed].
  - specialize (Hrd Hr). unfold fwd.
    case_bool_decide as Hb; (apply (port_inv_intro s i p); [done|done|done|done|done|by intros _; apply H5| |congruence]); [|by split; [|intros [? _]]].
    split; [done|]. by intros [? _].
  - unfold fwd. cbn [state stop_message_age put_message_age_timer].
    case_bool_decide as Hb; (apply (port_inv_intro s i p); [done|done|done|done|done|congruence| |done]); rewrite Ed; by split; [|intros [_ ?]].
  - unfold blk. destruct (state_in (state p) [STP_DISABLED; STP_BLOCKING]) eqn:Eb; cbn [negb].
    + assert (state p = STP_BLOCKING) as Est by (by destruct (state p)).
      apply (port_inv_intro s i p); try done; [by intros _; apply H5|congruence].
    + apply (port_inv_intro s i p); try done; [by intros _; apply H5|congruence].
Qed.

Lemma sel_perase s i p : perase (sel s i p) = sel s i (perase p).
Proof.
  unfold sel, fwd, blk. change (stp_is_designated_port s (perase p)) with (stp_is_designated_port s p).
  cbn [state perase stop_message_age put_message_age_timer]. by repeat case_match.
Qed.

Section Ops.
Context (junk : nat -> Z) (stale : dp_packet) (md0 : bytes).

Lemma state_selection_inv s : sane s -> root_inv s -> (forall i p, ports s !! i = Some p -> port_mid s i p) ->
  exists s', stp_port_state_selection junk stale md0 s = Some s' /\ sane s' /\ root_inv s' /\ ports_inv s' /\ kept s s'.
Proof.
  intros Hs Hr Hm. destruct (state_selection_spec junk stale md0 s Hs) as (s' & E & Hs' & He).
  exists s'. set (L := imap _ _) in He.
  assert (forall i p, ports s' !! i = Some p -> exists q, ports s !! i = Some q /\ perase p = perase (if enabled q then sel s i q else q)) as Hport.
  { intros i p Ep. assert (L !! i = Some (perase p)) as EL.
    { pose proof (f_equal (fun x => ports x !! i) He) as H. cbn [ports set_ports] in H. by rewrite <- H, serase_ports, Ep. }
    unfold L in EL. rewrite list_lookup_imap, serase_ports in EL. apply fmap_Some in EL as (q & Eq & Ep').
    apply fmap_Some in Eq as (q0 & Eq0 & ->). exists q0. split; [done|]. rewrite Ep', enabled_perase. by destruct (enabled q0); [rewrite sel_perase|]. }
  assert (bridge_id s' = bridge_id s /\ stp_designated_root s' = stp_designated_root s /\ root_path_cost s' = root_path_cost s /\ root_port s' = root_port s)
    as (E1 & E2 & E3 & E4) by (injection He; by intros).
  split_and!; try done.
  - unfold root_inv in *. rewrite E1, E2, E3, E4. destruct (root_port s) as [r|] eqn:Er; [|done].
    destruct Hr as (q & Hq & (Hce & Hcd & Hcb) & Hok & H1 & H2). destruct (sane_lookup _ _ _ Hs Hq) as [Hlt _].
    destruct (sane_port s' r Hs' Hlt) as [p Hp]. exists p. destruct (Hport r p Hp) as (q' & Hq' & Ep). rewrite Hq in Hq'. injection Hq' as <-.
    rewrite Hce in Ep. assert (sel s r q = fwd q) as Esel by (unfold sel; by rewrite Er, bool_decide_true). rewrite Esel in Ep.
    assert (port_id p = port_id q /\ path_cost p = path_cost q /\ info p = info q /\ enabled p = true) as (F1 & F2 & F3 & F4).
    { unfold fwd in Ep. unfold enabled in *. case_bool_decide; injection Ep as -> -> -> -> _ _; done. }
    unfold candidate, cost_ok, stp_is_designated_port in *. by rewrite F1, F2, F3, F4, E1.
  - intros i p Ep. destruct (Hport i p Ep) as (q & Eq & Hpe). specialize (Hm i q Eq).
    destruct (enabled q) eqn:Een.
    + apply (port_inv_erase s s' i p (sel s i q)); [done|done|]. apply sel_inv; [done| |done].
      intros Hri. unfold root_inv in Hr. rewrite Hri in Hr. destruct Hr as (q' & Hq' & (_ & Hd & _) & _). congruence.
    + apply (port_inv_erase s s' i p q); [done|done|]. destruct Hm as [Hp _]. pose proof (pp_disabled _ _ _ Hp Een). split; congruence || done.
  - unfold kept. injection He as -> -> -> _ _ _ -> _. done.
Qed.

(** Both selections. *)
Lemma select_inv s : sane s -> ports_pre s ->
  exists s1 s', stp_configuration_update s = Some s1 /\ stp_port_state_selection junk stale md0 s1 = Some s' /\
    sane s' /\ root_inv s' /\ ports_inv s' /\ kept s s' /\ (stp_is_root_bridge s' = true -> forall i p, ports s !! i = Some p -> ~ candidate s p).
Proof.
  intros Hs Hp. destruct (configuration_update_mid s Hs Hp) as (s1 & E1 & Hs1 & Hr1 & Hk1 & Hno & Hm).
  destruct (state_selection_inv s1 Hs1 Hr1 Hm) as (s' & E2 & Hs' & Hr' & Hp' & Hk2). exists s1, s'. split_and!; try done.
  - destruct Hk1 as (? & ? & ? & ?), Hk2 as (? & ? & ? & ?). split_and!; congruence.
  - intros Hroot. apply Hno. assert (root_port s' = root_port s1) as <-.
    { destruct (state_selection_spec junk stale md0 s1 Hs1) as (s2 & E3 & _ & He). rewrite E2 in E3. injection E3 as <-. by injection He. }
    by apply root_no_port.
Qed.

(** ** Operations *)

Definition keeps (o : option stp) : Prop := exists s', o = Some s' /\ inv s'.

Lemma keeps_some s : inv s -> keeps (Some s).
Proof using. by exists s. Qed.

Lemma keeps_quiet s o : inv s -> quietly s o -> keeps o.
Proof using. intros Hi (s' & -> & He & Hs). exists s'. split; [done|]. by eapply inv_quiet. Qed.

Lemma stp_keeps_bind o k : keeps o -> (forall s, inv s -> keeps (k s)) -> keeps (o ≫= k).
Proof using. intros (s & -> & Hi) Hk. by apply Hk. Qed.

Lemma become_root_keeps s : sane s -> root_inv s -> ports_inv s -> keeps (stp_become_root_bridge junk stale md0 s).
Proof.
  intros Hs Hr Hp. unfold stp_become_root_bridge.
  assert (sane (set_times (bridge_times s) s)) as Hs0 by sane_set.
  destruct (topology_change_quiet junk stale md0 _ Hs0) as (s1 & -> & He1 & Hs1). cbn [mbind option_bind].
  assert (sane (set_tcn_timer (stp_stop_timer (tcn_timer s1)) s1)) as Hs1' by sane_set.
  destruct (generation_quiet junk stale md0 _ Hs1') as (s2 & -> & He2 & Hs2). cbn [mbind option_bind].
  eexists. split; [reflexivity|].
  assert (same_body s (set_hello_timer (stp_start_timer 0) s2)) as Hb.
  { transitivity (berase s1); [exact (quiet_body _ _ He1)|exact (quiet_body _ _ He2)]. }
  split; [sane_set|by eapply body_root|done|by eapply body_ports].
Qed.

Lemma reselect_keeps root s :
  sane s -> ports_pre s -> (root = true -> active (hello_timer s) = true) -> keeps (reselect junk stale md0 root s).
Proof.
  intros Hs Hp Hh. destruct (select_inv s Hs Hp) as (s1 & s' & E1 & E2 & Hs' & Hr & Hpi & (_ & _ & _ & Hk) & _).
  unfold reselect. rewrite E1. cbn [mbind option_bind]. rewrite E2. cbn [mbind option_bind].
  destruct (stp_is_root_bridge s') eqn:Er, root; cbn [andb negb].
  - apply keeps_some. split; [done|done| |done]. intros _. rewrite Hk. by apply Hh.
  - by apply become_root_keeps.
  - apply keeps_some. split; congruence || done.
  - apply keeps_some. split; congruence || done.
Qed.

(** A bridge that was root or has a root port keeps sending when it selects without becoming root. *)
Lemma hello_kept s s' (s0 : stp) :
  inv s0 -> stp_is_root_bridge s' = true -> hello_timer s' = hello_timer s0 ->
  (forall i p, ports s !! i = Some p -> ~ candidate s p) ->
  (forall r q, root_port s0 = Some r -> ports s0 !! r = Some q -> candidate s0 q -> exists p, ports s !! r = Some p /\ candidate s p) ->
  active (hello_timer s') = true.
Proof using.
  intros Hi Hr -> Hno Hroot. apply (inv_hello _ Hi). unfold stp_is_root_bridge. pose proof (inv_root _ Hi) as H. unfold root_inv in H.
  destruct (root_port s0) as [r|] eqn:Er; [|apply Z.eqb_eq; lia].
  destruct H as (q & Hq & Hc & _). destruct (Hroot r q eq_refl Hq Hc) as (p & Ep & Hcp). by destruct (Hno r p Ep).
Qed.

(** ** Changes of one port *)

Lemma ports_pre_upd s i f : ports_inv s ->
  (forall p, ports s !! i = Some p -> port_pre s i (f p)) -> ports_pre (upd_port i f s).
Proof using.
  intros Hp Hf j q. cbn. destruct (decide (i = j)) as [<-|Hn].
  - rewrite list_lookup_alter_eq. intros (p & Ep & ->)%fmap_Some. specialize (Hf p Ep). by eapply port_pre_erase; [| |exact Hf].
  - rewrite list_lookup_alter_ne by done. intros Hq. eapply port_pre_erase; [| |exact (pv_pre _ _ _ (Hp j q Hq))]; done.
Qed.

(** [reselect] after a change of port [i] that keeps its timers sane. *)
Lemma upd_reselect_keeps s i f : inv s -> sane (upd_port i f s) ->
  (forall p, ports s !! i = Some p -> port_pre s i (f p)) -> keeps (reselect junk stale md0 (stp_is_root_bridge s) (upd_port i f s)).
Proof. intros Hi Hs Hf. apply reselect_keeps; [done|by apply ports_pre_upd; [apply Hi|]|apply Hi]. Qed.

(** What a change of port [i] must respect if it is the root port. *)
Definition root_respects (s : stp) (i : nat) (f : stp_port -> stp_port) : Prop :=
  forall p, ports s !! i = Some p -> root_port s = Some i ->
    info (f p) = info p /\ path_cost (f p) = path_cost p /\ stp_is_designated_port s (f p) = stp_is_designated_port s p /\ enabled (f p) = enabled p.

Lemma root_upd_port s i f : root_inv s -> root_respects s i f -> root_inv (upd_port i f s).
Proof using.
  intros H Hroot. unfold root_inv, root_respects in *. cbn. destruct (root_port s) as [r|]; [|done].
  destruct H as (q & Hq & Hc & Hok & H1 & H2). destruct (decide (i = r)) as [<-|Hn].
  - exists (f q). rewrite list_lookup_alter_eq, Hq. destruct (Hroot q Hq eq_refl) as (E1 & E2 & E3 & E4). split; [done|].
    unfold candidate, cost_ok in *. change (stp_is_designated_port (upd_port i f s) ?p) with (stp_is_designated_port s p). cbn [bridge_id upd_port set_ports].
    by rewrite E1, E2, E3, E4.
  - exists q. by rewrite list_lookup_alter_ne.
Qed.

Lemma upd_port_parts s i f : inv s -> (forall p, ports s !! i = Some p -> port_inv s i (f p)) -> root_respects s i f ->
  root_inv (upd_port i f s) /\ ports_inv (upd_port i f s).
Proof using.
  intros Hi Hf Hroot. split; [apply root_upd_port; [apply Hi|done]|]. intros j q. cbn. destruct (decide (i = j)) as [<-|Hn].
  - rewrite list_lookup_alter_eq. intros (p & Ep & ->)%fmap_Some. by eapply port_inv_erase; [| |apply Hf].
  - rewrite list_lookup_alter_ne by done. intros Hq. by eapply port_inv_erase; [| |apply (inv_ports _ Hi)].
Qed.

Lemma inv_upd_port s i f : inv s -> sane (upd_port i f s) ->
  (forall p, ports s !! i = Some p -> port_inv s i (f p)) -> root_respects s i f -> inv (upd_port i f s).
Proof using. intros Hi Hs Hf Hroot. destruct (upd_port_parts s i f Hi Hf Hroot). split; [done|done|apply Hi|done]. Qed.

Lemma acts_keeps i g s o : inv s -> (forall p, perase (g p) = g (perase p)) ->
  (forall p, ports s !! i = Some p -> port_inv s i (g p)) -> root_respects s i g -> acts i g s o -> keeps o.
Proof using.
  intros Hi He Hg Hr (s' & -> & Hs' & E). destruct (upd_port_parts s i g Hi Hg Hr) as [H1 H2]. apply keeps_some.
  assert (s' ≡ upd_port i g s) as Hq by (unfold equiv, stp_equiv; by rewrite (upd_port_erase g g)). apply quiet_body in Hq as Hb.
  split; [done|by eapply body_root| |by eapply body_ports].
  assert (stp_is_root_bridge s' = stp_is_root_bridge s /\ hello_timer s' = hello_timer s) as [-> ->]; [|apply Hi].
  unfold stp_is_root_bridge. injection E. intros. split; congruence.
Qed.

Lemma for_enabled_keeps body s :
  (forall i s' p, inv s' -> ports s' !! i = Some p -> enabled p = true -> keeps (body i s')) -> inv s -> keeps (for_enabled body all_ports s).
Proof using.
  intros Hb. unfold all_ports. assert (forall i, i ∈ seq 0 STP_MAX_PORTS -> (i < STP_MAX_PORTS)%nat) as Hin by (intros i [_ H]%elem_of_seq; lia).
  revert s Hin. induction (seq 0 STP_MAX_PORTS) as [|i l IH]; intros s Hin Hs; [by apply keeps_some|].
  cbn [for_enabled]. destruct (sane_port s i (inv_sane _ Hs)) as [p Ep]; [apply Hin; left|]. rewrite Ep. cbn [mbind option_bind].
  apply stp_keeps_bind; [destruct (enabled p) eqn:He; [by eapply Hb|by apply keeps_some]|].
  intros s' Hs'. apply IH; [|done]. intros j Hj. apply Hin. by right.
Qed.

End Ops.
