(* ===== verification/StpSteps.v ===== *)
(** * What happens to a bridge keeps the invariant

    Time, messages, management, creation and the report of changed ports; conversions between milliseconds and ticks. *)

From S2P Require Import Prelude MapDef OfpBuf DpPacket OfpMsgs StpState Stp StpBase StpSelect.
From S2P Require Import StpInv.

(** ** Time

    [stp_tick] keeps the invariant; conversions between milliseconds and ticks; the times of the bridge. *)

(** ** Timers *)

Lemma timer_expired_spec t elapsed timeout :
  timer_sane t -> 0 <= elapsed <= 2147483 -> timeout <= 131070 ->
  exists b t', stp_timer_expired t elapsed timeout = Some (b, t') /\ timer_sane t' /\
    (if active t then active t' = negb b else b = false /\ t' = t).
Proof.
  intros Hts He Ht. pose proof Hts as [H1 H2]. unfold stp_timer_expired. destruct (active t) eqn:Ea; [|by exists false, t].
  specialize (H2 eq_refl). unfold add_int, int_ok. rewrite (proj2 (Z.leb_le _ _)), (proj2 (Z.ltb_lt _ _)) by lia. cbn [andb mbind option_bind].
  destruct (Z.leb_spec timeout (value t + elapsed)); (eexists _, _; split; [reflexivity|]; split; [|done]; split; cbn; [lia|]); [done|lia].
Qed.

(** Port invariants see a timer only as running or not. *)
Lemma port_inv_active s i p q :
  port_id q = port_id p /\ path_cost q = path_cost p /\ info q = info p /\ state q = state p ->
  active (message_age_timer q) = active (message_age_timer p) -> active (forward_delay_timer q) = active (forward_delay_timer p) ->
  port_inv s i p -> port_inv s i q.
Proof.
  intros (E1 & E2 & E3 & E4) Ea Ef [[[H1 H2 H3 H4] H5 H6] H7 H8 H9].
  unfold wins_segment, enabled, stp_is_designated_port, own_info, cost_ok in *.
  split; [split; [split|..]|..]; unfold wins_segment, enabled, stp_is_designated_port, own_info, cost_ok; rewrite ?E1, ?E2, ?E3, ?E4, ?Ea, ?Ef; done.
Qed.

Section Ticks.
Context (junk : nat -> Z) (stale : dp_packet) (md0 : bytes) (elapsed : Z).
Hypothesis Helapsed : 0 <= elapsed <= 2147483.

Lemma tick_bridge_keeps s : inv s -> keeps (tick_bridge junk stale md0 elapsed s).
Proof.
  intros Hi. pose proof (inv_sane _ Hi) as Hs. unfold tick_bridge.
  destruct (sn_times _ Hs) as (Hma & Hht & Hfd). destruct (sn_bridge_times _ Hs) as (_ & Hbh & _). unfold in_u in *.
  destruct (timer_expired_spec (hello_timer s) elapsed (hello_time (times s))) as (b & t & -> & Ht & Hb); [apply Hs|done|lia|].
  cbn [mbind option_bind fst snd]. set (s1 := set_hello_timer t s). assert (sane s1) as Hs1 by (unfold s1; sane_set).
  assert (keeps (if b then stp_hello_timer_expiry junk stale md0 s1 else Some s1)) as (s2 & E2 & Hi2).
  { destruct b.
    - unfold stp_hello_timer_expiry. destruct (generation_quiet junk stale md0 s1 Hs1) as (s2 & -> & He2 & Hs2). cbn [mbind option_bind].
      apply keeps_some. apply (inv_body s); [done|exact (quiet_body _ _ He2)|sane_set|done].
    - apply keeps_some. apply (inv_body s); [done|done|done|]. intros Hr. pose proof (inv_hello _ Hi Hr) as Ha. rewrite Ha in Hb. done. }
  rewrite E2. cbn [mbind option_bind]. pose proof (inv_sane _ Hi2) as Hs2.
  destruct (sn_times _ Hs2) as (Hma2 & _ & Hfd2). destruct (sn_bridge_times _ Hs2) as (_ & Hbh2 & _). unfold in_u in *.
  destruct (timer_expired_spec (tcn_timer s2) elapsed (hello_time (bridge_times s2))) as (b2 & t2 & -> & Ht2 & _); [apply Hs2|done|lia|].
  cbn [mbind option_bind fst snd]. set (s3 := set_tcn_timer t2 s2). assert (sane s3) as Hs3 by (unfold s3; sane_set).
  assert (quietly s2 (if b2 then stp_tcn_timer_expiry junk stale md0 s3 else Some s3)) as (s4 & -> & He4 & Hs4).
  { destruct b2; [|by apply quietly_some]. unfold stp_tcn_timer_expiry. apply (quietly_trans _ s3); [done|]. apply quietly_bind; [by apply transmit_tcn_quiet|].
    intros s' He' Hs'. apply quietly_some; [by rewrite <- He'|sane_set]. }
  cbn [mbind option_bind]. assert (inv s4) as Hi4 by (by eapply inv_quiet).
  destruct (sn_times _ Hs4) as (Hma4 & _ & Hfd4). unfold in_u in *.
  destruct (timer_expired_spec (topology_change_timer s4) elapsed (max_age (times s4) + forward_delay (times s4))) as (b3 & t3 & -> & Ht3 & _);
    [apply Hs4|done|lia|].
  cbn [mbind option_bind fst snd]. apply (keeps_quiet s4); [done|].
  apply quietly_some; [by destruct b3|]. destruct Hs4. destruct b3; split; cbn; done.
Qed.

Lemma tick_message_age_keeps i s p : inv s -> ports s !! i = Some p -> enabled p = true -> keeps (tick_message_age junk stale md0 elapsed i s).
Proof.
  intros Hi Ep He. pose proof (inv_sane _ Hi) as Hs. unfold tick_message_age. rewrite Ep. cbn [mbind option_bind].
  destruct (sn_times _ Hs) as (Hma & _ & _). unfold in_u in *. destruct (sane_lookup _ _ _ Hs Ep) as [Hlt Hps].
  destruct (timer_expired_spec (message_age_timer p) elapsed (max_age (times s))) as (b & t & -> & Ht & Hb); [apply Hps|done|lia|].
  cbn [mbind option_bind fst snd]. destruct b.
  - unfold stp_message_age_timer_expiry, stp_become_designated_port. rewrite upd_port_compose.
    change (stp_is_root_bridge (upd_port _ _ s)) with (stp_is_root_bridge s). apply upd_reselect_keeps; [done| |].
    + apply sane_upd_port; [done|]. intros q _ []. by split_and!.
    + intros q Eq. rewrite Ep in Eq. injection Eq as <-. destruct (inv_ports _ Hi i p Ep) as [[[H1 H2 H3 H4] H5 H6] _ _ _].
      split; [by split| |unfold enabled in *; cbn; congruence]. intros _. unfold stp_is_designated_port. cbn. by rewrite !Z.eqb_refl.
  - apply keeps_some, inv_upd_port; [done| | |].
    + apply sane_upd_port; [done|]. intros q Eq []. by split_and!.
    + intros q Eq. rewrite Ep in Eq. injection Eq as <-. apply (port_inv_active s i p); [done| |done|by apply (inv_ports _ Hi)].
      cbn. destruct (active (message_age_timer p)) eqn:Ea; [by rewrite Hb|by destruct Hb as [_ ->]].
    + done.
Qed.

Lemma tick_forward_delay_keeps i s p : inv s -> ports s !! i = Some p -> enabled p = true -> keeps (tick_forward_delay junk stale md0 elapsed i s).
Proof.
  intros Hi Ep He. pose proof (inv_sane _ Hi) as Hs. unfold tick_forward_delay. rewrite Ep. cbn [mbind option_bind].
  destruct (sn_times _ Hs) as (_ & _ & Hfd). unfold in_u in *. destruct (sane_lookup _ _ _ Hs Ep) as [Hlt Hps].
  destruct (timer_expired_spec (forward_delay_timer p) elapsed (forward_delay (times s))) as (b & t & -> & Ht & Hb); [apply Hps|done|lia|].
  cbn [mbind option_bind fst snd]. set (s1 := upd_port i (put_forward_delay_timer t) s).
  assert (sane s1) as Hs1. { apply sane_upd_port; [done|]. intros q _ []. by split_and!. }
  pose proof (inv_ports _ Hi i p Ep) as Hpi. destruct b.
  - pose proof (pb_forward_delay _ _ (pp_base _ _ _ (pv_pre _ _ _ Hpi))) as Hf.
    destruct (active (forward_delay_timer p)) eqn:Ea; [|by destruct Hb].
    assert (acts i (put_forward_delay_timer t) s (Some s1)) as Ha1 by (apply acts_upd; [done|done|intros q []; by split_and!]).
    assert (forall st u, state_in st [STP_LISTENING; STP_LEARNING; STP_FORWARDING] = true -> active u = state_in st [STP_LISTENING; STP_LEARNING] ->
      port_inv s i (put_forward_delay_timer u (put_state st (put_forward_delay_timer t p)))) as Hnew.
    { intros st u Hst Hu. pose proof Hpi as [Hpre Hinfo Hrole Hmsg]. specialize (Hrole He).
      apply (port_inv_intro s i p); [by split|done|done|by destruct st|done|by intros Hd; apply Hpre| |done].
      cbn [state put_forward_delay_timer put_state]. rewrite <- Hrole. by split; [destruct st|destruct (state p)]. }
    assert (forall st u, st <> STP_DISABLED -> root_respects s i (put_forward_delay_timer u ∘ put_state st ∘ put_forward_delay_timer t)) as Hroot.
    { intros st u Hst q Eq _. rewrite Ep in Eq. injection Eq as <-. split_and!; try done. rewrite He. unfold enabled. cbn. by rewrite bool_decide_false. }
    unfold stp_forward_delay_timer_expiry. assert (ports s1 !! i = Some (put_forward_delay_timer t p)) as -> by (by apply port_upd_port).
    cbn [mbind option_bind state put_forward_delay_timer]. destruct (state p) eqn:Est; try done.
    + apply (acts_keeps i (put_forward_delay_timer (stp_start_timer 0) ∘ put_state STP_LEARNING ∘ put_forward_delay_timer t) s); [done|done| |by apply Hroot|].
      { intros q Eq. rewrite Ep in Eq. injection Eq as <-. by apply Hnew. }
      apply (acts_bind i _ _ s (Some s1) (fun s => _) Ha1). intros s' Hs' _. apply acts_bind; [by apply set_port_state_acts|].
      intros s2 Hs2 _. apply acts_upd; [done|done|]. intros q []. split_and!; [split; try done; by apply timer_sane_start|done].
    + apply (acts_keeps i (id ∘ put_state STP_FORWARDING ∘ put_forward_delay_timer t) s); [done|done| |by apply (Hroot STP_FORWARDING t)|].
      { intros q Eq. rewrite Ep in Eq. injection Eq as <-. by apply (Hnew STP_FORWARDING t). }
      apply (acts_bind i _ _ s (Some s1) (fun s => _) Ha1). intros s' Hs' _. apply acts_bind; [by apply set_port_state_acts|].
      intros s2 Hs2 _. apply acts_quiet. destruct (_ && _); [by apply topology_change_quiet|by apply quietly_some].
  - apply keeps_some, inv_upd_port; [done|done| |done].
    intros q Eq. rewrite Ep in Eq. injection Eq as <-. apply (port_inv_active s i p); [done|done| |done].
    cbn. destruct (active (forward_delay_timer p)) eqn:Ea; [by rewrite Hb|by destruct Hb as [_ ->]].
Qed.

Lemma tick_hold_quiet i s p : sane s -> ports s !! i = Some p -> quietly s (tick_hold junk stale md0 elapsed i s).
Proof.
  intros Hs Ep. unfold tick_hold. rewrite Ep. cbn [mbind option_bind]. change (ms_to_timer 1000) with (Some 256). cbn [mbind option_bind].
  destruct (sane_lookup _ _ _ Hs Ep) as [Hlt Hps].
  destruct (timer_expired_spec (hold_timer p) elapsed 256) as (b & t & -> & Ht & _); [apply Hps|done|lia|]. cbn [mbind option_bind fst snd].
  destruct (quiet_upd_port i (put_hold_timer t) s Hs) as [He1 Hs1]; try done.
  apply (quietly_trans _ _ _ He1). destruct b; [|by apply quietly_some]. unfold stp_hold_timer_expiry.
  rewrite (port_upd_port i _ s p) by done. cbn [mbind option_bind]. destruct (config_pending _); [by apply transmit_config_quiet|by apply quietly_some].
Qed.
End Ticks.

(** ** Milliseconds and ticks *)

Lemma ms_to_timer_small ms : 0 <= ms <= 8388607 -> ms_to_timer ms = Some (ms * 256 / 1000).
Proof.
  intros H. unfold ms_to_timer, int_ok. rewrite (proj2 (Z.leb_le _ _)), (proj2 (Z.ltb_lt _ _)) by lia. cbn [andb].
  by rewrite Z.quot_div_nonneg by lia.
Qed.

Lemma timer_to_ms_small t : 0 <= t <= 2147483 -> timer_to_ms t = Some (t * 1000 / 256).
Proof.
  intros H. unfold timer_to_ms, int_ok. rewrite (proj2 (Z.leb_le _ _)), (proj2 (Z.ltb_lt _ _)) by lia. cbn [andb].
  by rewrite Z.quot_div_nonneg by lia.
Qed.

Lemma ticks_bounds ms : 0 <= ms <= 8388607 ->
  0 <= ms * 256 / 1000 <= 2147483 /\ 0 <= ms - ms * 256 / 1000 * 1000 / 256 <= 4.
Proof. intros H. Z.div_mod_to_equations. lia. Qed.

Section Tick.
Context (junk : nat -> Z) (stale : dp_packet) (md0 : bytes).

Lemma tick_ms_ok ms rem : ms <= 8388603 -> 0 <= rem <= 4 ->
  let total := Z.max ms 0 + rem in let e := total * 256 / 1000 in
  tick_ms ms rem = Some (e, total - e * 1000 / 256) /\ 0 <= e <= 2147483 /\ 0 <= total - e * 1000 / 256 <= 4.
Proof using.
  intros Hm Hr total e. unfold tick_ms. assert (clamp ms 0 (2 ^ 31 - 1 - 1000) = Z.max ms 0) as -> by (unfold clamp; repeat case_match; lia).
  unfold add_int, int_ok. rewrite (proj2 (Z.leb_le _ _)), (proj2 (Z.ltb_lt _ _)) by lia. cbn [andb mbind option_bind].
  destruct (ticks_bounds total) as [He Hb]; [lia|]. fold total. rewrite ms_to_timer_small by lia. cbn [mbind option_bind]. fold e.
  rewrite timer_to_ms_small by exact He. done.
Qed.

Lemma tick_keeps ms s : inv s -> ms <= 8388603 -> keeps (stp_tick junk stale md0 ms s).
Proof.
  intros Hi Hm. pose proof (inv_sane _ Hi) as Hs. destruct (tick_ms_ok ms (elapsed_remainder s) Hm (sn_remainder _ Hs)) as (Et & He & Hb).
  unfold stp_tick. rewrite Et. cbn [mbind option_bind fst snd]. set (e := _ / 1000) in *. set (s1 := set_elapsed_remainder _ s). unfold tick_timers.
  assert (inv s1) as Hi1. { apply (inv_quiet s); [done|done|]. unfold s1. sane_set. }
  destruct (e =? 0); [by apply keeps_some|]. apply stp_keeps_bind; [by apply tick_bridge_keeps|]. intros s2 Hi2.
  apply stp_keeps_bind; [apply for_enabled_keeps; [|done]; intros; by eapply tick_message_age_keeps|]. intros s3 Hi3.
  apply for_enabled_keeps; [|done]. intros i s' p Hi' Ep Hen. apply stp_keeps_bind; [by eapply tick_forward_delay_keeps|].
  intros s4 Hi4. destruct (sane_port s4 i (inv_sane _ Hi4)) as [q Eq]; [by apply (sane_lookup s' i p); [apply Hi'|]|].
  apply (keeps_quiet s4); [done|]. eapply tick_hold_quiet; [done|apply Hi4|done].
Qed.
End Tick.

(** ** The times of the bridge *)

Lemma update_timers_times s :
  exists s', stp_update_bridge_timers s = Some s' /\ same_body s s' /\ hello_timer s' = hello_timer s /\ ports s' = ports s /\
    (sane s -> sane s') /\
    let ht := clamp (hello_time (rq_times s)) 1000 10000 in
    let ma := clamp (max_age (rq_times s)) (Z.max (2 * (ht + 1000)) 6000) 40000 in
    let fd := clamp (forward_delay (rq_times s)) (ma / 2 + 1000) 30000 in
    bridge_times s' = mk_times (ma * 256 / 1000) (ht * 256 / 1000) (fd * 256 / 1000).
Proof.
  unfold stp_update_bridge_timers. set (ht := clamp _ 1000 10000). set (ma := clamp _ _ 40000).
  assert (1000 <= ht <= 10000) as H1 by (unfold ht, clamp; repeat case_match; lia).
  assert (6000 <= ma <= 40000) as H2 by (unfold ma, clamp; repeat case_match; lia).
  rewrite (Z.quot_div_nonneg ma 2) by lia. set (fd := clamp _ _ 30000).
  assert (4000 <= fd <= 30000) as H3. { unfold fd, clamp. assert (3000 <= ma / 2 <= 20000) by (Z.div_mod_to_equations; lia). repeat case_match; lia. }
  rewrite !ms_to_timer_small by lia. cbn [mbind option_bind]. eexists. split; [reflexivity|].
  assert (forall x, 0 <= x <= 40000 -> in_u 16 (x * 256 / 1000)) as Hr. { intros x Hx. unfold in_u. Z.div_mod_to_equations. lia. }
  split_and!; try (by destruct (stp_is_root_bridge _)).
  intros Hs. assert (times_sane (mk_times (ma * 256 / 1000) (ht * 256 / 1000) (fd * 256 / 1000))) as Ht by (split_and!; cbn; apply Hr; lia).
  destruct (stp_is_root_bridge _); destruct Hs; by split.
Qed.

Lemma update_timers_keeps s : inv s -> keeps (stp_update_bridge_timers s).
Proof.
  intros Hi. destruct (update_timers_times s) as (s' & -> & Hb & Hh & _ & Hs & _). apply keeps_some.
  apply (inv_body s); [done|done|apply Hs, Hi|]. rewrite Hh. intros Hr. apply Hi. revert Hr. unfold stp_is_root_bridge.
  destruct (body_fields _ _ Hb) as (-> & -> & _). done.
Qed.

(** ** Messages keep the invariant *)

(** ** Fields of a message *)

Lemma be_field_some b off n : 0 <= off -> 0 <= n -> off + n <= Z.of_nat (length b) -> exists v, be_field b off n = Some v.
Proof. intros H1 H2 H3. unfold be_field, peek. rewrite !(proj2 (Z.leb_le _ _)) by lia. by eexists. Qed.

Lemma be_field_range b off n v : Forall (in_u 8) b -> be_field b off n = Some v -> in_u (8 * n) v.
Proof.
  intros Hb. unfold be_field, peek. destruct (_ && _) eqn:E; [|done]. intros [= <-].
  apply andb_true_iff in E as [E E3%Z.leb_le]. apply andb_true_iff in E as [E1%Z.leb_le E2%Z.leb_le].
  set (l := take _ _). assert (length (rev l) = Z.to_nat n) as Hl by (unfold l; rewrite length_rev, length_take, length_drop; lia).
  pose proof (le_value_range (rev l)) as H. rewrite Hl, Z2Nat.id in H by lia. apply H.
  apply Forall_rev. by apply Forall_take, Forall_drop.
Qed.

Lemma config_of_bytes_ok b : Forall (in_u 8) b -> 35 <= Z.of_nat (length b) ->
  exists c, config_of_bytes b = Some c /\ in_u 64 (cf_root_id c) /\ in_u 32 (cf_root_path_cost c) /\ in_u 16 (cf_message_age c) /\
    times_sane (mk_times (cf_max_age c) (cf_hello_time c) (cf_forward_delay c)).
Proof.
  intros Hb Hl. unfold config_of_bytes.
  repeat match goal with |- context [be_field b ?o ?n] =>
    let v := fresh "v" in let E := fresh "E" in
    destruct (be_field_some b o n) as [v E]; [lia..|]; rewrite E; apply be_field_range in E; [|done] end.
  cbn [mbind option_bind]. eexists. split; [reflexivity|]. by split_and!.
Qed.

(** ** Messages *)

Record config_ok (s : stp) (p : stp_port) (c : stp_config_bpdu) : Prop := {
  co_root : 0 <= cf_root_id c;
  co_cost : 0 <= cf_root_path_cost c <= 2 ^ 31 - 1 - 65535;
  co_age : in_u 16 (cf_message_age c);
  co_times : times_sane (mk_times (cf_max_age c) (cf_hello_time c) (cf_forward_delay c));
  co_own : ~ (cf_bridge_id c = bridge_id s /\ cf_port_id c = port_id p)
}.

Lemma supersedes_root_id s p c : stp_supersedes_port_info s p c = true -> cf_root_id c <= designated_root (info p).
Proof. unfold stp_supersedes_port_info. destruct (Z.eqb_spec (cf_root_id c) (designated_root (info p))); cbn [negb]; [lia|]. intros H%Z.ltb_lt. lia. Qed.

Section Messages.
Context (junk : nat -> Z) (stale : dp_packet) (md0 : bytes).

(** The selections after superior information. *)
Lemma record_keeps i s p c : inv s -> ports s !! i = Some p -> enabled p = true -> config_ok s p c -> stp_supersedes_port_info s p c = true ->
  exists s1 s', stp_configuration_update (stp_record_config_information i c s) = Some s1 /\
    stp_port_state_selection junk stale md0 s1 = Some s' /\ inv s'.
Proof.
  intros Hi Ep He [H1 H2 H3 H4 H5] Hsup. set (s0 := stp_record_config_information i c s). set (f := record_info c).
  assert (sane s0) as Hs0.
  { apply sane_upd_port; [apply Hi|]. intros q _ []. unfold in_u in H3. split_and!; [|done]. split; [apply timer_sane_start; cbn; lia|done|done]. }
  assert (sext 32 (cf_root_path_cost c) = cf_root_path_cost c) as Ec by (apply sext_small; unfold in_s; lia).
  assert (stp_is_designated_port s (f p) = false) as Hnd.
  { unfold stp_is_designated_port. cbn. destruct (Z.eqb_spec (cf_bridge_id c) (bridge_id s)), (Z.eqb_spec (cf_port_id c) (port_id p)); tauto. }
  assert (ports_pre s0) as Hp0.
  { apply ports_pre_upd; [apply Hi|]. intros q Eq. rewrite Ep in Eq. injection Eq as <-.
    destruct (inv_ports _ Hi i p Ep) as [[[B1 B2 B3 B4] _ _] _ _ _]. split; [by split| |unfold enabled in *; cbn; congruence].
    intros _ _. split; [done|]. unfold cost_ok. cbn. rewrite Ec. lia. }
  destruct (select_inv junk stale md0 s0 Hs0 Hp0) as (s1 & s' & E1 & E2 & Hs' & Hr & Hpi & (_ & _ & _ & Hk) & Hno).
  exists s1, s'. split_and!; [done|done|]. split; [done|done| |done]. intros Hroot.
  apply (hello_kept s0 s' s); [done|done|done|by apply Hno|]. intros r q Er Eq Hc. destruct (decide (i = r)) as [<-|Hn].
  - rewrite Ep in Eq. injection Eq as <-. exists (f p). split; [by apply port_upd_port|]. destruct Hc as (C1 & C2 & C3).
    split_and!; [done|done|]. cbn. apply supersedes_root_id in Hsup. lia.
  - exists q. split; [|done]. cbn. by rewrite list_lookup_alter_ne.
Qed.

Lemma received_config_keeps i s p c : inv s -> ports s !! i = Some p -> config_ok s p c -> keeps (stp_received_config_bpdu junk stale md0 i c s).
Proof.
  intros Hi Ep Hc. unfold stp_received_config_bpdu. rewrite Ep. cbn [mbind option_bind]. destruct (_ <=? _); [by apply keeps_some|].
  destruct (enabled p) eqn:He; [|by apply keeps_some].
  pose proof (sane_lookup _ _ _ (inv_sane _ Hi) Ep) as [Hlt _].
  destruct (stp_supersedes_port_info s p c) eqn:Hsup.
  2: { destruct (stp_is_designated_port s p); [|by apply keeps_some]. apply (keeps_quiet s); [done|]. apply transmit_config_quiet; [apply Hi|done]. }
  destruct (record_keeps i s p c Hi Ep He Hc Hsup) as (s1 & s2 & -> & E2 & Hi2). cbn [mbind option_bind]. rewrite E2. cbn [mbind option_bind].
  apply stp_keeps_bind.
  - destruct (stp_is_root_bridge s2) eqn:Er, (stp_is_root_bridge s); cbn [negb andb]; try by apply keeps_some.
    set (s3 := set_hello_timer _ s2). assert (sane s3) as Hs3 by (pose proof (inv_sane _ Hi2); unfold s3; sane_set).
    assert (inv s3) as Hi3. { apply (inv_body s2); [done|done|done|]. intros Hr. change (stp_is_root_bridge s3) with (stp_is_root_bridge s2) in Hr. congruence. }
    destruct (topology_change_detected s3); [|by apply keeps_some]. set (s4 := set_topology_change_timer _ s3).
    assert (sane s4) as Hs4 by (unfold s4; sane_set). apply (keeps_quiet s3); [done|]. apply (quietly_trans _ s4); [done|].
    apply quietly_bind; [by apply transmit_tcn_quiet|]. intros s5 He5 Hs5. apply quietly_some; [by rewrite <- He5|sane_set].
  - intros s3 Hi3. case_bool_decide as Hrp; [|by apply keeps_some].
    assert (inv (stp_record_config_timeout_values c s3)) as Hi4.
    { apply (inv_body s3); [done|done| |].
      - pose proof (inv_sane _ Hi3) as []. split; cbn; try done. apply Hc.
      - intros Hr. apply root_no_port in Hr; [|apply (body_root s3); [done|apply Hi3]]. cbn in Hr. congruence. }
    apply stp_keeps_bind; [apply (keeps_quiet _ _ Hi4), generation_quiet, Hi4|]. intros s5 Hi5. apply keeps_some, (inv_quiet s5); [done|by repeat case_match|].
    pose proof (inv_sane _ Hi5) as []. repeat case_match; split; cbn; eauto with stp.
Qed.

Lemma received_tcn_keeps i s p : inv s -> ports s !! i = Some p -> keeps (stp_received_tcn_bpdu junk stale md0 i s).
Proof.
  intros Hi Ep. unfold stp_received_tcn_bpdu. rewrite Ep. cbn [mbind option_bind]. destruct (_ && _); [|by apply keeps_some].
  apply (keeps_quiet s); [done|]. apply quietly_bind; [apply topology_change_quiet, Hi|]. intros s' He Hs'.
  apply (quietly_trans _ _ _ He), acknowledge_quiet; [done|]. by apply (sane_lookup s i p); [apply Hi|].
Qed.

Lemma count_quiet i s : sane s -> quietly s (Some (count_error i s)) /\ quietly s (Some (count_rx i s)).
Proof using.
  intros Hs. split; apply quietly_some; unfold count_error, count_rx; try (by apply upd_port_quiet);
    (apply sane_upd_port; [done|]; intros p _ []; by split_and!).
Qed.

(** What is asked of a message that arrives. *)
Definition bpdu_ok (s : stp) (p : stp_port) (bpdu : bytes) : Prop :=
  Forall (in_u 8) bpdu /\ forall c, config_of_bytes bpdu = Some c -> cf_root_path_cost c <= 2 ^ 31 - 1 - 65535 /\
    ~ (cf_bridge_id c = bridge_id s /\ cf_port_id c = port_id p).

Lemma received_bpdu_keeps i s p bpdu : inv s -> ports s !! i = Some p -> bpdu_ok s p bpdu -> keeps (stp_received_bpdu junk stale md0 i bpdu s).
Proof.
  intros Hi Ep [Hb Hok]. unfold stp_received_bpdu. rewrite Ep. cbn [mbind option_bind].
  destruct (count_quiet i s (inv_sane _ Hi)) as [Herr _]. pose proof (keeps_quiet s _ Hi Herr) as Hk.
  destruct (negb (enabled p)); [by apply keeps_some|]. destruct (Z.ltb_spec (Z.of_nat (length bpdu)) 4); [done|].
  destruct (be_field_some bpdu 0 2) as [id ->]; [lia..|]. destruct (be_field_some bpdu 3 1) as [ty ->]; [lia..|]. cbn [mbind option_bind].
  destruct (negb (id =? STP_PROTOCOL_ID)); [done|].
  assert (forall o, keeps o -> keeps (s ← o; Some (count_rx i s))) as Hrx.
  { intros o Ho. apply stp_keeps_bind; [done|]. intros s' Hs'. apply (keeps_quiet s'); [done|]. by apply count_quiet, Hs'. }
  destruct (ty =? STP_TYPE_CONFIG).
  - destruct (Z.ltb_spec (Z.of_nat (length bpdu)) 35); [done|]. destruct (config_of_bytes_ok bpdu Hb) as (c & Ec & R1 & R2 & R3 & R4); [done|].
    rewrite Ec. cbn [mbind option_bind]. destruct (Hok c Ec) as [C1 C2]. apply Hrx, (received_config_keeps i s p); [done|done|].
    unfold in_u in *. split; [lia|lia|done|done|done].
  - destruct (ty =? STP_TYPE_TCN); [|done]. destruct (negb _); [done|]. apply Hrx. by apply (received_tcn_keeps i s p).
Qed.
End Messages.

(** ** Management keeps the invariant *)

(** ** Management *)

Lemma acts_lookup i g s s1 j p1 :
  serase s1 = upd_port i g (serase s) -> (forall p, perase (g p) = g (perase p)) -> ports s1 !! j = Some p1 ->
  exists p, ports s !! j = Some p /\ perase p1 = perase (if decide (j = i) then g p else p).
Proof.
  intros E Hg Hp. assert (ports (serase s1) !! j = Some (perase p1)) as H by (by rewrite serase_ports, Hp).
  rewrite E in H. cbn [upd_port set_ports ports] in H. destruct (decide (j = i)) as [->|Hn].
  - rewrite list_lookup_alter_eq, serase_ports in H. destruct (ports s !! i) as [p|]; [|done]. exists p. split; [done|].
    cbn in H. apply (inj Some) in H. by rewrite Hg.
  - rewrite list_lookup_alter_ne, serase_ports in H by done. destruct (ports s !! j) as [p|]; [|done]. exists p. split; [done|].
    cbn in H. apply (inj Some) in H. by rewrite H.
Qed.

Lemma some_bind {A B} (x : A) (k : A -> option B) : Some x ≫= k = k x.
Proof. done. Qed.

Lemma acts_after i f g s s1 o : acts i f s (Some s1) -> (sane s1 -> acts i g s1 o) -> acts i (g ∘ f) s o.
Proof. intros H Hk. apply (acts_bind i f g s (Some s1) (fun _ => o) H). intros s' Hs' E. destruct H as (? & [= <-] & Hs1 & E1). destruct (Hk Hs1) as (s2 & -> & H2 & E2). exists s2. split_and!; [done|done|]. by rewrite E2, E1, E. Qed.

Lemma acts_fields i g s s1 : serase s1 = upd_port i g (serase s) ->
  (bridge_id s1 = bridge_id s /\ stp_designated_root s1 = stp_designated_root s /\ root_path_cost s1 = root_path_cost s /\ root_port s1 = root_port s) /\
  hello_timer s1 = hello_timer s.
Proof. intros E. injection E. by intros. Qed.

Section Management.
Context (junk : nat -> Z) (stale : dp_packet) (md0 : bytes).

Lemma set_bridge_id_keeps id s : inv s -> keeps (set_bridge_id junk stale md0 id s).
Proof.
  intros Hi. pose proof (inv_sane _ Hi) as Hs. unfold set_bridge_id. destruct (id =? bridge_id s); [by apply keeps_some|].
  set (rename := fun p => put_info (mk_info (designated_root (info p)) (designated_cost (info p)) id (designated_port (info p))) p).
  rewrite (for_enabled_map _ (fun p => if stp_is_designated_port s p then rename p else p)).
  - cbn [mbind option_bind]. set (g := fun p => if enabled p then _ else p).
    assert (forall p, g p = p \/ g p = rename p) as Hg by (intros p; unfold g; repeat case_match; auto).
    apply reselect_keeps; [| |apply Hi].
    + pose proof (sn_changed _ Hs) as Hch. destruct Hs. split; cbn; try done; [by rewrite length_fmap| |].
      * apply Forall_fmap. eapply Forall_impl; [done|]. intros p []. cbn. destruct (Hg p) as [-> | ->]; by split.
      * intros j q. rewrite list_lookup_fmap. intros (p & Ep & ->)%fmap_Some Hc. apply (Hch j p Ep). by destruct (Hg p) as [E|E]; rewrite E in Hc.
    + intros j q. cbn. rewrite list_lookup_fmap. intros (p & Ep & ->)%fmap_Some.
      destruct (inv_ports _ Hi j p Ep) as [[[H1 H2 H3 H4] H5 H6] _ _ _]. unfold g. destruct (enabled p) eqn:He.
      * destruct (stp_is_designated_port s p) eqn:Hd.
        -- split; [by split| |unfold enabled in *; cbn; congruence]. intros _. unfold stp_is_designated_port in *. cbn. apply andb_true_iff in Hd as [_ ->].
           by rewrite Z.eqb_refl.
        -- split; [by split|by intros _ _; apply H5|congruence].
      * split; [by split|congruence|by intros _; apply H6].
  - apply Hs.
  - intros i s' p E Ep _. rewrite Ep. cbn [mbind option_bind]. apply (f_equal Some).
    assert (stp_is_designated_port s' p = stp_is_designated_port s p) as -> by (unfold stp_is_designated_port; injection E; intros; congruence).
    destruct (stp_is_designated_port s p); [apply upd_port_ext; intros q Eq; rewrite Ep in Eq; by injection Eq as <-|].
    rewrite <- (upd_port_id i s') at 1. apply upd_port_ext. intros q Eq. rewrite Ep in Eq. by injection Eq as <-.
Qed.

(** A port that has been disabled. *)
Definition gone_port (s : stp) (p : stp_port) : stp_port := stop_forward_delay (stop_message_age (put_state STP_DISABLED (put_info (own_info s p) p))).

Lemma disable_acts i s : sane s -> (i < STP_MAX_PORTS)%nat -> acts i (gone_port s) s
  (s ← stp_set_port_state i STP_DISABLED (stp_become_designated_port i s);
   Some (upd_port i (stop_forward_delay ∘ stop_message_age ∘ put_config_pending false ∘ put_topology_change_ack false) s)).
Proof using.
  intros Hs Hlt. apply (acts_after i (fun p => put_info (own_info s p) p) (stop_forward_delay ∘ stop_message_age ∘ put_state STP_DISABLED) s (stp_become_designated_port i s)).
  - apply acts_upd; [done|done|intros q []; by split_and!].
  - intros Hs1. apply acts_bind; [by apply set_port_state_acts|]. intros s2 Hs2 _. apply acts_upd; [done|done|].
    intros q []. split_and!; [split; try done; by apply timer_sane_stop|done].
Qed.

Lemma gone_keeps i s s1 : inv s -> sane s1 -> serase s1 = upd_port i (gone_port s) (serase s) -> keeps (reselect junk stale md0 (stp_is_root_bridge s) s1).
Proof.
  intros Hi Hs1 He1. destruct (acts_fields _ _ _ _ He1) as [(F1 & _ & _ & _) F5]. apply reselect_keeps; [done| |rewrite F5; apply Hi].
  intros j q Eq. destruct (acts_lookup _ _ _ _ _ _ He1 (fun _ => eq_refl) Eq) as (q0 & Eq0 & Eqe).
  eapply port_pre_erase; [exact F1|symmetry; exact Eqe|].
  destruct (inv_ports _ Hi j q0 Eq0) as [Hpre _ _ _]. destruct (decide (j = i)); [|exact Hpre].
  destruct Hpre as [[B1 B2 B3 B4] _ _]. split; [split|..]; done.
Qed.

Lemma disable_keeps i s p : inv s -> ports s !! i = Some p -> keeps (stp_port_disable junk stale md0 i s).
Proof.
  intros Hi Ep. pose proof (inv_sane _ Hi) as Hs. unfold stp_port_disable. rewrite Ep.
  rewrite (some_bind p).
  destruct (enabled p) eqn:He; [|by apply keeps_some]. destruct (sane_lookup _ _ _ Hs Ep) as [Hlt _].
  pose proof (disable_acts i s Hs Hlt) as (s1 & E1 & Hs1 & He1). apply bind_Some in E1 as (s0 & E0 & E1). rewrite E0.
  apply (inj Some) in E1. rewrite (some_bind s0). cbv zeta. rewrite E1. apply stp_keeps_bind; [by apply (gone_keeps i)|].
  intros s2 Hi2. apply (keeps_quiet s2); [done|]. destruct (quiet_upd_port i (put_aux None) s2 (inv_sane _ Hi2)) as [Q1 Q2]; try done.
  by apply quietly_some.
Qed.

(** A freshly initialised port. *)
Definition fresh_port (s : stp) (st : stp_state) (p : stp_port) : stp_port :=
  stop_forward_delay (stop_message_age (put_state st (put_info (own_info s p) p))).

Lemma initialize_acts i st s p : sane s -> ports s !! i = Some p -> state_in st [STP_DISABLED; STP_BLOCKING] = true ->
  acts i (fresh_port s st) s (stp_initialize_port i st s).
Proof using.
  intros Hs Ep Hst. destruct (sane_lookup _ _ _ Hs Ep) as [Hlt _]. unfold stp_initialize_port. rewrite Hst.
  set (s1 := stp_become_designated_port i s).
  assert (acts i (fun p => put_info (own_info s p) p) s (Some s1)) as Ha1 by (apply acts_upd; [done|done|intros q []; by split_and!]).
  assert (sane s1) as Hs1 by (by destruct Ha1 as (? & [= <-] & ? & _)).
  assert (ports s1 !! i = Some (put_info (own_info s p) p)) as -> by exact (port_upd_port i (fun p => put_info (own_info s p) p) s p Ep). rewrite some_bind.
  apply (acts_after i (fun p => put_info (own_info s p) p) (stop_forward_delay ∘ stop_message_age ∘ put_state st) s s1 _ Ha1). intros _. apply acts_bind.
  - destruct (_ && _); [|by apply set_port_state_acts]. apply acts_upd; [done|done|intros q []; by split_and!].
  - intros s3 Hs3 _. apply acts_upd; [done|done|]. intros q []. split_and!; [split; cbn; by apply timer_sane_stop|done].
Qed.

(** The state selection after a change of one port. *)
Lemma port_mid_erase s s' i p q :
  bridge_id s' = bridge_id s /\ stp_designated_root s' = stp_designated_root s /\ root_path_cost s' = root_path_cost s /\ root_port s' = root_port s ->
  perase q = perase p -> port_mid s i q -> port_mid s' i p.
Proof using.
  intros (E1 & E2 & E3 & E4) Ep [H1 H2].
  split; [by eapply port_pre_erase|]; injection Ep as F1 F2 F3 F4 F5 F6;
    unfold enabled, stp_is_designated_port, wins_segment, stp_is_designated_port, own_info in *; rewrite ?F1, ?F2, ?F3, ?F4, ?F5, ?F6, <- ?E1, <- ?E2, <- ?E3, <- ?E4 in *; done.
Qed.

Lemma acts_select_keeps i g s s1 : inv s -> (forall p, perase (g p) = g (perase p)) ->
  (forall p, ports s !! i = Some p -> port_mid s i (g p)) -> root_respects s i g -> acts i g s (Some s1) ->
  keeps (stp_port_state_selection junk stale md0 s1).
Proof.
  intros Hi He Hg Hr (s0 & [= <-] & Hs1 & E). destruct (acts_fields _ _ _ _ E) as [F F5].
  assert (s1 ≡ upd_port i g s) as Hq by (unfold equiv, stp_equiv; by rewrite (upd_port_erase g g)).
  assert (root_inv s1) as Hr1 by (eapply body_root; [by apply quiet_body|]; apply root_upd_port; [apply Hi|done]).
  destruct (state_selection_inv junk stale md0 s1 Hs1 Hr1) as (s2 & E2 & Hs2 & Hr2 & Hp2 & Hk).
  - intros j q Eq. destruct (acts_lookup _ _ _ _ _ _ E He Eq) as (q0 & Eq0 & Eqe). apply (port_mid_erase s s1 j q _ F (eq_sym Eqe)).
    destruct (decide (j = i)) as [->|]; [by apply Hg|]. destruct (inv_ports _ Hi j q0 Eq0). by split.
  - exists s2. split; [done|]. destruct Hk as (K1 & _ & _ & K4). split; [done|done| |done]. rewrite K4, F5. intros Hroot.
    assert (stp_is_root_bridge s1 = true) as Hroot1.
    { apply (root_no_port _ Hr2) in Hroot. destruct (state_selection_spec junk stale md0 s1 Hs1) as (s3 & E3 & _ & He3). rewrite E2 in E3. injection E3 as <-.
      assert (root_port s1 = None) as Hn by (by rewrite <- Hroot; injection He3). unfold root_inv in Hr1. rewrite Hn in Hr1.
      unfold stp_is_root_bridge. apply Z.eqb_eq. lia. }
    apply (inv_hello _ Hi). unfold stp_is_root_bridge in *. destruct F as (F1 & F2 & _ & _). by rewrite <- F1, <- F2.
Qed.

Lemma enable_keeps i s p : inv s -> ports s !! i = Some p -> keeps (stp_port_enable junk stale md0 i s).
Proof.
  intros Hi Ep. unfold stp_port_enable. rewrite Ep, some_bind. destruct (enabled p) eqn:He; [by apply keeps_some|].
  destruct (initialize_acts i STP_BLOCKING s p (inv_sane _ Hi) Ep eq_refl) as (s1 & E1 & Hs1 & He1). rewrite E1, some_bind.
  apply (acts_select_keeps i (fresh_port s STP_BLOCKING) s); [done|done| | |by exists s1].
  - intros q Eq. destruct (inv_ports _ Hi i q Eq) as [[[B1 B2 B3 B4] _ _] _ _ _].
    assert (stp_is_designated_port s (fresh_port s STP_BLOCKING q) = true) as Hd by apply own_designated.
    split; [split; [by split|by rewrite Hd|done]|]. intros _. by rewrite Hd.
  - intros q Eq Hr. rewrite Ep in Eq. injection Eq as <-. pose proof (inv_root _ Hi) as H. unfold root_inv in H. rewrite Hr in H.
    destruct H as (q & Hq & (Hc & _) & _). congruence.
Qed.

(** ** Priorities and costs *)

Lemma new_port_id id prio : 0 <= prio -> let id' := u16 (Z.lor (Z.land id 255) (Z.shiftl prio 8)) in in_u 16 id' /\ id' mod 256 = id mod 256.
Proof using.
  intros Hp id'. split; [apply wrap_range; lia|]. unfold id'. apply Z.bits_inj'. intros k Hk. change 256 with (2 ^ 8).
  destruct (Z.ltb_spec k 8).
  - rewrite !Z.mod_pow2_bits_low by lia. unfold wrap. rewrite Z.mod_pow2_bits_low, Z.lor_spec, Z.land_spec, Z.shiftl_spec, (Z.testbit_neg_r prio) by lia.
    change 255 with (Z.ones 8). rewrite Z.ones_spec_low by lia. by rewrite andb_true_r, orb_false_r.
  - by rewrite !Z.mod_pow2_bits_high by lia.
Qed.

(** A port that is not designated and whose segment is served by another port of this bridge. *)
Definition own_segment (s : stp) (p : stp_port) : Prop :=
  stp_is_designated_port s p = false /\ designated_bridge (info p) = bridge_id s.

Lemma set_priority_keeps i prio s p : inv s -> ports s !! i = Some p -> 0 <= prio -> ~ own_segment s p ->
  keeps (stp_port_set_priority junk stale md0 i prio s).
Proof.
  intros Hi Ep Hprio Hown. unfold stp_port_set_priority. rewrite Ep, some_bind. destruct (new_port_id (port_id p) prio Hprio) as [Hr Hm].
  set (id' := u16 _) in *. cbv zeta. destruct (port_id p =? id'); [by apply keeps_some|].
  destruct (inv_ports _ Hi i p Ep) as [[[[B0 B1] B2 B3 B4] P1 P2] V1 V2 V3]. rewrite B1 in Hm.
  destruct (stp_is_designated_port s p) eqn:Hd.
  - apply andb_true_iff in Hd as Hd'. destruct Hd' as [Hd1 Hd2]. cbn [designated_bridge designated_port bridge_id upd_port set_ports].
    rewrite Z.ltb_irrefl, andb_false_r. set (q := put_port_id _ _). apply keeps_some.
    assert (stp_is_designated_port s q = true) as Hdq by (unfold stp_is_designated_port; cbn; by rewrite Hd1, Z.eqb_refl).
    apply inv_upd_port; [done| | |].
    + apply sane_upd_port; [apply Hi|]. intros p0 Ep0 [S1 S2 S3]. rewrite Ep in Ep0. injection Ep0 as <-. by split_and!.
    + intros p0 _. split.
      * split; [by split|by rewrite Hdq|done].
      * intros Hen. rewrite Hdq. specialize (V1 Hen). cbn in V1. unfold own_info in *. cbn. by rewrite V1.
      * intros Hen. rewrite Hdq. exact (V2 Hen).
      * intros _. exact (V3 eq_refl).
    + intros p0 Ep0 Hroot. rewrite Ep in Ep0. injection Ep0 as <-. pose proof (inv_root _ Hi) as H. unfold root_inv in H. rewrite Hroot in H.
      destruct H as (q0 & Hq & (_ & Hc & _) & _). congruence.
  - assert (designated_bridge (info p) <> bridge_id s) as Hne by (intros E; apply Hown; by split).
    cbn [designated_bridge designated_port bridge_id upd_port set_ports]. rewrite (proj2 (Z.eqb_neq (bridge_id s) _)) by congruence. cbn [andb].
    set (q := put_port_id _ _). apply keeps_some.
    assert (stp_is_designated_port s q = false) as Hdq by (unfold stp_is_designated_port; cbn; by rewrite (proj2 (Z.eqb_neq _ _))).
    apply inv_upd_port; [done| | |].
    + apply sane_upd_port; [apply Hi|]. intros p0 Ep0 [S1 S2 S3]. rewrite Ep in Ep0. injection Ep0 as <-. by split_and!.
    + intros p0 _. split.
      * split; [by split|by intros; apply P1|done].
      * intros Hen. rewrite Hdq. specialize (V1 Hen). unfold wins_segment in *. rewrite Hd in V1. rewrite Hdq. cbn.
        rewrite (proj2 (Z.eqb_neq (bridge_id s) _)) in * by congruence. exact V1.
      * intros Hen. rewrite Hdq. exact (V2 Hen).
      * congruence.
    + intros p0 Ep0 Hroot. rewrite Ep in Ep0. injection Ep0 as <-. split_and!; [done|done|congruence|done].
Qed.

Lemma set_path_cost_keeps i cost s p : inv s -> ports s !! i = Some p -> 1 <= cost <= 65535 -> keeps (stp_port_set_path_cost junk stale md0 i cost s).
Proof.
  intros Hi Ep Hcost. unfold stp_port_set_path_cost. rewrite Ep, some_bind. destruct (_ =? _); [by apply keeps_some|].
  set (s0 := upd_port _ _ s). assert (sane s0) as Hs0.
  { apply sane_upd_port; [apply Hi|]. intros q _ []. by split_and!. }
  assert (ports_pre s0) as Hp0.
  { apply ports_pre_upd; [apply Hi|]. intros q Eq. destruct (inv_ports _ Hi i q Eq) as [[[B1 B2 B3 B4] P1 P2] _ _ _].
    split; [by split| |done]. intros He Hd. destruct (P1 He Hd) as [A1 [A2 A3]]. split; [done|]. split; [done|cbn; lia]. }
  destruct (select_inv junk stale md0 s0 Hs0 Hp0) as (s1 & s' & -> & E2 & Hs' & Hr & Hpi & (_ & _ & _ & Hk) & Hno). rewrite some_bind.
  exists s'. split; [done|]. split; [done|done| |done]. intros Hroot.
  apply (hello_kept s0 s' s); [done|done|done|by apply Hno|]. intros r q Er Eq Hc. destruct (decide (i = r)) as [<-|Hn].
  - rewrite Ep in Eq. injection Eq as <-. exists (put_path_cost cost p). split; [by apply port_upd_port|]. exact Hc.
  - exists q. split; [|done]. cbn. by rewrite list_lookup_alter_ne.
Qed.

(** ** Notices *)

Lemma notice_keeps i f s : inv s -> (forall p, perase (f p) = perase p) -> (forall p, state_changed (f p) = state_changed p) ->
  (forall p, hold_timer (f p) = hold_timer p) -> inv (upd_port i f s).
Proof using.
  intros Hi H1 H2 H3. destruct (quiet_upd_port i f s (inv_sane _ Hi) H1 H2) as [Q1 Q2]; [intros p; by rewrite H3|]. by eapply inv_quiet.
Qed.
End Management.

(** ** Creation and the report of changed ports *)

(** ** Creation *)

Lemma port_inv_disabled s i p : port_base i p -> enabled p = false -> active (message_age_timer p) = false -> port_inv s i p.
Proof. intros H1 H2 H3. split; [by split; [|rewrite H2|]|by rewrite H2|by rewrite H2|done]. Qed.

Definition numbered (i : nat) : stp_port -> stp_port :=
  put_path_cost 19 ∘ put_port_id (Z.lor (Z.of_nat i + 1) (Z.shiftl STP_DEFAULT_PORT_PRIORITY 8)).

Lemma first_port_id i : (i < STP_MAX_PORTS)%nat -> let id := Z.lor (Z.of_nat i + 1) (Z.shiftl STP_DEFAULT_PORT_PRIORITY 8) in
  in_u 16 id /\ id mod 256 = Z.of_nat i + 1.
Proof.
  intros Hi id. assert (Forall (fun i => in_u 16 (Z.lor (Z.of_nat i + 1) (Z.shiftl STP_DEFAULT_PORT_PRIORITY 8)) /\
    Z.lor (Z.of_nat i + 1) (Z.shiftl STP_DEFAULT_PORT_PRIORITY 8) mod 256 = Z.of_nat i + 1) all_ports) as H.
  - unfold in_u. apply (bool_decide_unpack _). by vm_compute.
  - rewrite Forall_forall in H. apply H. apply elem_of_seq. lia.
Qed.

(** The ports before [k] are done. *)
Lemma create_ports_inv n : forall k s, (k + n = STP_MAX_PORTS)%nat -> sane s ->
  (forall i p, ports s !! i = Some p -> (i < k)%nat -> port_inv s i p /\ enabled p = false) ->
  exists s', create_ports (seq k n) s = Some s' /\ sane s' /\ (forall i p, ports s' !! i = Some p -> port_inv s' i p /\ enabled p = false) /\
    (bridge_id s' = bridge_id s /\ stp_designated_root s' = stp_designated_root s /\ root_path_cost s' = root_path_cost s /\ root_port s' = root_port s) /\
    hello_timer s' = hello_timer s.
Proof.
  induction n as [|n IH]; intros k s Hk Hs Hdone; cbn [seq create_ports].
  - exists s. split_and!; try done. intros i p Ep. apply Hdone; [done|]. destruct (sane_lookup _ _ _ Hs Ep). lia.
  - set (s0 := upd_port k _ s). assert (sane s0) as Hs0 by (apply sane_upd_port; [done|]; intros q _ []; by split_and!).
    destruct (sane_port s k Hs) as [p0 Ep0]; [lia|]. assert (ports s0 !! k = Some (numbered k p0)) as Ep1 by (by apply (port_upd_port k (numbered k))).
    destruct (initialize_acts k STP_DISABLED s0 _ Hs0 Ep1 eq_refl) as (s1 & -> & Hs1 & He1). rewrite some_bind.
    destruct (acts_fields _ _ _ _ He1) as [F F5]. destruct (IH (S k) s1) as (s' & E' & Hs' & Hp' & F' & F5'); [lia|done| |].
    + intros i p Ep Hi. destruct (acts_lookup _ _ _ _ _ _ He1 (fun _ => eq_refl) Ep) as (q & Eq & Ee). destruct (decide (i = k)) as [->|Hn].
      * rewrite Ep1 in Eq. injection Eq as <-. injection Ee as E1 E2 E3 E4 E5 E6.
        destruct (first_port_id k) as [I1 I2]; [lia|]. assert (enabled p = false) as Hen by (unfold enabled; by rewrite E2). split; [|done].
        apply port_inv_disabled; [|done|by rewrite E5]. split; [by rewrite E1|rewrite E3; cbn; lia|by rewrite E2|by rewrite E2, E6].
      * assert (ports s !! i = Some q) as Eqs by (by rewrite <- Eq; unfold s0; cbn; rewrite list_lookup_alter_ne). destruct (Hdone i q Eqs) as [D1 D2]; [lia|].
        split; [by apply (port_inv_erase s s1 i p q)|]. injection Ee as _ E2 _ _ _ _. unfold enabled in *. by rewrite E2.
    + exists s'. destruct F as (? & ? & ? & ?), F' as (? & ? & ? & ?). split_and!; try done; (etransitivity; [eassumption|assumption]).
Qed.

Lemma create_inv nm id : exists s, stp_create nm id = Some s /\ inv s /\ forall i p, ports s !! i = Some p -> enabled p = false.
Proof.
  unfold stp_create. set (id' := if _ =? _ then _ else _). set (s0 := mk_stp _ _ _ _ _ _ _ _ _ _ _ _ _ _ _ _ _ _).
  assert (sane s0) as Hs0.
  { split; cbn -[replicate STP_MAX_PORTS]; try done.
    - apply Forall_replicate. by split.
    - intros i p Ep. by apply lookup_replicate in Ep as [-> _]. }
  destruct (update_timers_times s0) as (s1 & -> & _ & _ & Hl & Hs1 & _). rewrite some_bind. specialize (Hs1 Hs0).
  set (s2 := set_root _ _ _ _). set (s3 := set_hello_timer _ s2). set (s4 := set_first_changed_port _ s3).
  assert (sane s4) as Hs4.
  { destruct Hs1. split; cbn; try done; [by apply timer_sane_start; unfold times_sane, in_u in *; lia|].
    intros i p Ep Hc. rewrite Hl in Ep. by apply lookup_replicate in Ep as [-> _]. }
  destruct (create_ports_inv STP_MAX_PORTS 0 s4) as (s & E & Hs & Hp & (F1 & F2 & F3 & F4) & F5); [done|done|lia|].
  exists s. split_and!; [done| |intros i p Ep; by apply (Hp i p)].
  split; [done| |intros _; by rewrite F5|intros i p Ep; by apply Hp]. unfold root_inv. by rewrite F4, F1, F2, F3.
Qed.

(** ** Reporting *)

Definition changed (s : stp) (i : nat) : bool := match ports s !! i with Some p => state_changed p | None => false end.

Lemma changed_loop_spec n : forall k s, (k + n <= STP_MAX_PORTS)%nat -> length (ports s) = STP_MAX_PORTS ->
  match changed_loop (seq k n) s with
  | (Some i, s') => (k <= i < k + n)%nat /\ changed s i = true /\ (forall j, (k <= j < i)%nat -> changed s j = false) /\
      s' = set_first_changed_port (S i) (upd_port i (put_state_changed false) s)
  | (None, s') => (forall j, (k <= j < k + n)%nat -> changed s j = false) /\ s' = set_first_changed_port STP_MAX_PORTS s
  end.
Proof.
  induction n as [|n IH]; intros k s Hk Hl; cbn [seq changed_loop]; [split; [lia|done]|].
  destruct (lookup_lt_is_Some_2 (ports s) k) as [p Ep]; [lia|]. rewrite Ep. assert (changed s k = state_changed p) as Ec by (unfold changed; by rewrite Ep).
  destruct (state_changed p) eqn:Hp; [split_and!; [lia|lia|done|lia|done]|].
  specialize (IH (S k) s ltac:(lia) Hl). destruct (changed_loop _ s) as [[i|] s'].
  - destruct IH as (H1 & H2 & H3 & H4). split_and!; [lia|lia|done| |done]. intros j Hj. destruct (decide (j = k)) as [->|]; [done|]. apply H3. lia.
  - destruct IH as [H1 H2]. split; [|done]. intros j Hj. destruct (decide (j = k)) as [->|]; [done|]. apply H1. lia.
Qed.

Lemma changed_below s j : sane s -> (j < first_changed_port s)%nat -> changed s j = false.
Proof.
  intros Hs Hj. unfold changed. destruct (ports s !! j) as [p|] eqn:Ep; [|done]. destruct (state_changed p) eqn:Hc; [|done].
  pose proof (sn_changed _ Hs j p Ep Hc). lia.
Qed.

(** Each call reports the first port that has changed. *)
Lemma get_changed_spec s : sane s ->
  match stp_get_changed_port s with
  | (Some i, s') => (i < STP_MAX_PORTS)%nat /\ changed s i = true /\ (forall j, (j < i)%nat -> changed s j = false) /\ s' ≡ s /\ sane s' /\
      first_changed_port s' = S i /\ (forall j, changed s' j = if decide (j = i) then false else changed s j)
  | (None, s') => (forall j, changed s j = false) /\ s' ≡ s /\ sane s' /\ (forall j, changed s' j = false)
  end.
Proof.
  intros Hs. unfold stp_get_changed_port. pose proof (sn_length _ Hs) as Hl. set (k := first_changed_port s).
  assert (forall j, (STP_MAX_PORTS <= j)%nat -> changed s j = false) as Hout.
  { intros j Hj. unfold changed. rewrite lookup_ge_None_2 by lia. done. }
  assert (forall j, (j < k)%nat -> changed s j = false) as Hlow by (intros j; by apply changed_below).
  destruct (decide (k <= STP_MAX_PORTS)%nat) as [Hk|Hk].
  2: { replace (STP_MAX_PORTS - k)%nat with 0%nat by lia. cbn [seq changed_loop].
    assert (forall j, changed s j = false) as Hno by (intros j; destruct (decide (j < k)%nat); [by apply Hlow|apply Hout; lia]).
    split_and!; [done|done| |done]. destruct Hs. split; cbn; try done. intros j p Ep Hc. specialize (Hno j). unfold changed in Hno. rewrite Ep in Hno. congruence. }
  pose proof (changed_loop_spec (STP_MAX_PORTS - k) k s ltac:(lia) Hl) as H. destruct (changed_loop _ s) as [[i|] s'].
  - destruct H as (H1 & H2 & H3 & ->). assert (forall j, (j < i)%nat -> changed s j = false) as Hlt.
    { intros j Hj. destruct (decide (j < k)%nat); [by apply Hlow|]. apply H3. lia. }
    assert (forall j, changed (set_first_changed_port (S i) (upd_port i (put_state_changed false) s)) j = if decide (j = i) then false else changed s j) as Hch.
    { intros j. unfold changed. cbn. destruct (decide (j = i)) as [->|Hn].
      - rewrite list_lookup_alter_eq. by destruct (ports s !! i).
      - by rewrite list_lookup_alter_ne. }
    split_and!; [lia|done|done| | |done|exact Hch].
    + exact (upd_port_quiet (put_state_changed false) i s ltac:(done)).
    + assert (sane (upd_port i (put_state_changed false) s)) as [] by (apply sane_upd_port; [done|]; intros q _ []; by split_and!).
      split; cbn; try done. intros j p Ep Hc. specialize (Hch j). unfold changed in Hch at 1. cbn in Hch. rewrite Ep, Hc in Hch.
      destruct (decide (j = i)); [done|]. destruct (decide (j < i)%nat); [rewrite Hlt in Hch by done; done|lia].
  - destruct H as [H1 ->]. assert (forall j, changed s j = false) as Hno.
    { intros j. destruct (decide (j < k)%nat); [by apply Hlow|]. destruct (decide (j < STP_MAX_PORTS)%nat); [apply H1|apply Hout]; lia. }
    split_and!; [done|done| |done]. destruct Hs. split; cbn; try done. intros j p Ep Hc. specialize (Hno j). unfold changed in Hno. rewrite Ep in Hno. congruence.
Qed.

(** The calls of a client, until one reports nothing. *)
Fixpoint drain (fuel : nat) (s : stp) : option (list nat * stp) :=
  match fuel with
  | O => None
  | S fuel =>
      match stp_get_changed_port s with
      | (None, s') => Some ([], s')
      | (Some i, s') => r ← drain fuel s'; Some (i :: r.1, r.2)
      end
  end.

Lemma filter_seq_skip (f : nat -> bool) k n : (forall j, (k <= j < k + n)%nat -> f j = false) -> List.filter f (seq k n) = [].
Proof. revert k. induction n as [|n IH]; intros k H; [done|]. cbn [seq List.filter]. rewrite H by lia. apply IH. intros j Hj. apply H. lia. Qed.

Lemma drain_spec fuel : forall k n s, (k + n = STP_MAX_PORTS)%nat -> (n < fuel)%nat -> sane s -> (forall j, (j < k)%nat -> changed s j = false) ->
  exists s', drain fuel s = Some (List.filter (changed s) (seq k n), s') /\ s' ≡ s /\ sane s' /\ forall j, changed s' j = false.
Proof.
  induction fuel as [|fuel IH]; intros k n s Hk Hf Hs Hlow; [lia|]. cbn [drain]. pose proof (get_changed_spec s Hs) as H.
  destruct (stp_get_changed_port s) as [[i|] s1].
  - destruct H as (H1 & H2 & H3 & H4 & H5 & H6 & H7).
    destruct (decide (k <= i)%nat) as [Hki|]; [|rewrite Hlow in H2 by lia; done].
    destruct (IH (S i) (STP_MAX_PORTS - S i)%nat s1) as (s' & -> & E' & Hs' & Hno); [lia|lia|done| |].
    + intros j Hj. rewrite H7. destruct (decide (j = i)); [done|]. apply H3. lia.
    + exists s'. split_and!; [|by rewrite E'|done|done]. rewrite some_bind. cbn [fst snd]. apply (f_equal (fun l => Some (l, s'))).
      replace n with ((i - k) + S (STP_MAX_PORTS - S i))%nat by lia. rewrite seq_app, List.filter_app. cbn [seq List.filter].
      rewrite (filter_seq_skip (changed s) k) by (intros j Hj; apply H3; lia). replace (k + (i - k))%nat with i by lia. rewrite H2. cbn [app]. apply (f_equal (cons i)).
      apply List.filter_ext_in. intros j [Hj _]%List.in_seq. rewrite H7. by destruct (decide (j = i)); [lia|].
  - destruct H as (H1 & H2 & H3 & H4). exists s1. rewrite filter_seq_skip; [done|]. intros j _. apply H1.
Qed.
