(* ===== verification/StpStates.v ===== *)
(** * How ports change state

    Only the expiry of the forward delay timer lets a port learn or forward, one state at a time. *)

From S2P Require Import Prelude MapDef OfpBuf DpPacket OfpMsgs StpState Stp StpBase StpSelect.

Definition port_state (s : stp) (i : nat) : option stp_state := state <$> ports s !! i.

(** A port that learns or forwards in [s'] did the same in [s]. *)
Definition cautious_at (i : nat) (s s' : stp) : Prop :=
  forall st, st = STP_LEARNING \/ st = STP_FORWARDING -> port_state s' i = Some st -> port_state s i = Some st.
Definition cautious (s s' : stp) : Prop := forall i, cautious_at i s s'.

(** A port that forwards in [s'] learnt or forwarded in [s]. *)
Definition careful_at (i : nat) (s s' : stp) : Prop :=
  port_state s' i = Some STP_FORWARDING -> port_state s i = Some STP_LEARNING \/ port_state s i = Some STP_FORWARDING.

#[export] Instance cautious_preorder : PreOrder cautious.
Proof. split; [by intros s i st|]. intros s1 s2 s3 H1 H2 i st Hst H. by apply H1, H2. Qed.

Lemma cautious_careful i s1 s2 s3 : cautious_at i s1 s2 -> careful_at i s2 s3 -> careful_at i s1 s3.
Proof. intros H1 H2 H. destruct (H2 H) as [H'|H']; [left|right]; apply H1; auto. Qed.
Lemma careful_cautious i s1 s2 s3 : careful_at i s1 s2 -> cautious_at i s2 s3 -> careful_at i s1 s3.
Proof. intros H1 H2 H. apply H1, H2; auto. Qed.
Lemma cautious_is_careful i s1 s2 : cautious_at i s1 s2 -> careful_at i s1 s2.
Proof. intros H1 H. right. apply H1; auto. Qed.

(** ** Steps *)

(** If [o] has a result, the ports were cautious. *)
Definition cautiously (s : stp) (o : option stp) : Prop := forall s', o = Some s' -> cautious s s'.

Lemma cautiously_some s s' : cautious s s' -> cautiously s (Some s').
Proof. by intros H ? [= <-]. Qed.
Lemma cautiously_none s : cautiously s None.
Proof. done. Qed.
Lemma cautiously_bind s o k : cautiously s o -> (forall s', cautious s s' -> cautiously s (k s')) -> cautiously s (o ≫= k).
Proof. intros H Hk s' (s1 & E1 & E2)%bind_Some. by apply (Hk s1); [apply H|]. Qed.
Lemma cautiously_value {A} s (o : option A) k : (forall x, o = Some x -> cautiously s (k x)) -> cautiously s (o ≫= k).
Proof. intros H s' (x & E1 & E2)%bind_Some. by apply (H x). Qed.
Lemma cautiously_trans s s1 o : cautious s s1 -> cautiously s1 o -> cautiously s o.
Proof. intros H1 H2 s' E. etransitivity; [done|by apply H2]. Qed.

Lemma cautious_upd i f s s' : cautious s s' -> (forall p, state (f p) = state p \/ state_in (state (f p)) [STP_LEARNING; STP_FORWARDING] = false) ->
  cautious s (upd_port i f s').
Proof.
  intros H Hf. etransitivity; [exact H|]. intros j st Hst. unfold port_state. cbn. destruct (decide (i = j)) as [<-|Hn]; [|by rewrite list_lookup_alter_ne].
  rewrite list_lookup_alter_eq. destruct (ports s' !! i) as [p|]; [|done]. cbn. intros [= E].
  destruct (Hf p) as [E'|E']; [by rewrite <- E'; f_equal|]. rewrite E in E'. by destruct Hst as [-> | ->].
Qed.

Create HintDb stp_states.
#[export] Hint Constants Opaque : stp_states.
#[export] Hint Extern 1 (state_in _ _ = false) => reflexivity : stp_states.

(** Closes [cautious s s'] for assignments after a cautious step, and [cautiously] for sequences of them. *)
Ltac cautious_tac :=
  lazymatch goal with
  | |- cautious ?s ?s => reflexivity
  | H : cautious ?s ?s' |- cautious ?s ?s' => exact H
  | |- cautious ?s (upd_port ?i ?f ?s') => apply cautious_upd; [cautious_tac|intros ?; first [by left | by right]]
  | |- cautious ?s (if ?b then _ else _) => destruct b; cautious_tac
  | |- cautious ?s (?f ?s') => change (cautious s s'); cautious_tac
  | |- cautious ?s (?f _ ?s') => change (cautious s s'); cautious_tac
  end.
Ltac cautiously_tac :=
  repeat lazymatch goal with
  | |- cautiously _ None => apply cautiously_none
  | |- cautiously _ (Some _) => apply cautiously_some; cautious_tac
  | |- cautiously _ (if ?b then _ else _) => destruct b
  | |- cautiously _ (match ?o with Some _ => _ | None => _ end) => destruct o
  | |- cautiously ?s (@mbind option _ stp stp _ _) => apply cautiously_bind; [|intros ? ?]
  | |- cautiously ?s (@mbind option _ _ stp _ _) => apply cautiously_value; intros ? ?
  | |- cautiously ?s (let x := _ in _) => cbv zeta
  | |- cautiously ?s (?f ?s1) => apply (cautiously_trans s s1); [cautious_tac|typeclasses eauto with stp_states]
  end.

Section States.
Context (junk : nat -> Z) (stale : dp_packet) (md0 : bytes).

Lemma set_port_state_cautious i st s : state_in st [STP_LEARNING; STP_FORWARDING] = false -> cautiously s (stp_set_port_state i st s).
Proof using.
  intros Hst. unfold stp_set_port_state. apply cautiously_value. intros p _. apply cautiously_some. apply cautious_upd; [|by right].
  repeat case_match; cautious_tac.
Qed.

Lemma for_enabled_cautious body l : (forall i s, cautiously s (body i s)) -> forall s, cautiously s (for_enabled body l s).
Proof using.
  intros Hb. induction l as [|i l IH]; intros s; cbn [for_enabled]; [cautiously_tac|]. apply cautiously_value. intros p _. apply cautiously_bind.
  - destruct (enabled p); [apply Hb|cautiously_tac].
  - intros s' H. eapply cautiously_trans; [done|apply IH].
Qed.

Lemma send_cautious i b s : cautiously s (stp_send_bpdu junk stale md0 i b s).
Proof. unfold stp_send_bpdu. destruct (bpdu_packet _ _ _ _); cautiously_tac. Qed.
Hint Resolve send_cautious : stp_states.

Lemma transmit_config_cautious i s : cautiously s (stp_transmit_config junk stale md0 i s).
Proof. unfold stp_transmit_config. cautiously_tac. Qed.
Hint Resolve transmit_config_cautious : stp_states.

Lemma transmit_tcn_cautious s : cautiously s (stp_transmit_tcn junk stale md0 s).
Proof. unfold stp_transmit_tcn. destruct (root_port s); cautiously_tac. Qed.
Hint Resolve transmit_tcn_cautious : stp_states.

Lemma generation_cautious s : cautiously s (stp_config_bpdu_generation junk stale md0 s).
Proof. apply for_enabled_cautious. intros i s'. cautiously_tac. Qed.
Hint Resolve generation_cautious : stp_states.

Lemma topology_change_cautious s : cautiously s (stp_topology_change_detection junk stale md0 s).
Proof. unfold stp_topology_change_detection. cautiously_tac. Qed.
Hint Resolve topology_change_cautious : stp_states.

Lemma acknowledge_cautious i s : cautiously s (stp_acknowledge_topology_change junk stale md0 i s).
Proof. unfold stp_acknowledge_topology_change. cautiously_tac. Qed.
Hint Resolve acknowledge_cautious : stp_states.

(** ** Selections *)

Lemma configuration_update_cautious s : cautiously s (stp_configuration_update s).
Proof using.
  unfold stp_configuration_update. apply cautiously_bind.
  - unfold stp_root_selection. apply cautiously_value. intros [r|] _; cautiously_tac.
  - intros s' H. eapply cautiously_trans; [exact H|]. apply for_enabled_cautious. intros i s1. apply cautiously_value. intros p _.
    apply cautiously_some. destruct (wins_segment s1 p); [|cautious_tac]. unfold stp_become_designated_port. cautious_tac.
Qed.
Hint Resolve configuration_update_cautious : stp_states.

Hint Resolve set_port_state_cautious : stp_states.

Lemma make_forwarding_cautious i s : cautiously s (stp_make_forwarding i s).
Proof using. unfold stp_make_forwarding. cautiously_tac. Qed.
Hint Resolve make_forwarding_cautious : stp_states.

Lemma make_blocking_cautious i s : cautiously s (stp_make_blocking junk stale md0 i s).
Proof. unfold stp_make_blocking. cautiously_tac. Qed.
Hint Resolve make_blocking_cautious : stp_states.

Lemma state_selection_cautious s : cautiously s (stp_port_state_selection junk stale md0 s).
Proof. apply for_enabled_cautious. intros i s'. unfold select_state. cautiously_tac. Qed.
Hint Resolve state_selection_cautious : stp_states.

Lemma become_root_cautious s : cautiously s (stp_become_root_bridge junk stale md0 s).
Proof. unfold stp_become_root_bridge. cautiously_tac. Qed.
Hint Resolve become_root_cautious : stp_states.

Lemma reselect_cautious root s : cautiously s (reselect junk stale md0 root s).
Proof. unfold reselect. cautiously_tac. Qed.
Hint Resolve reselect_cautious : stp_states.

(** ** Messages and management *)

Lemma received_cautious i bpdu s : cautiously s (stp_received_bpdu junk stale md0 i bpdu s).
Proof.
  unfold stp_received_bpdu, stp_received_config_bpdu, stp_received_tcn_bpdu, count_error, count_rx, stp_record_config_information,
    stp_record_config_timeout_values, stp_topology_change_acknowledged. cautiously_tac.
Qed.

Lemma set_bridge_id_cautious id s : cautiously s (set_bridge_id junk stale md0 id s).
Proof.
  unfold set_bridge_id. destruct (_ =? _); [cautiously_tac|]. apply cautiously_bind; [|intros; cautiously_tac].
  apply for_enabled_cautious. intros i s'. cautiously_tac.
Qed.

Lemma update_bridge_timers_cautious s : cautiously s (stp_update_bridge_timers s).
Proof using. unfold stp_update_bridge_timers. cautiously_tac. Qed.

Lemma disable_cautious i s : cautiously s (stp_port_disable junk stale md0 i s).
Proof. unfold stp_port_disable, stp_become_designated_port. cautiously_tac. Qed.

Lemma enable_cautious i s : cautiously s (stp_port_enable junk stale md0 i s).
Proof. unfold stp_port_enable, stp_initialize_port, stp_become_designated_port. cautiously_tac. Qed.

Lemma set_priority_cautious i prio s : cautiously s (stp_port_set_priority junk stale md0 i prio s).
Proof.
  unfold stp_port_set_priority, stp_become_designated_port. apply cautiously_value. intros p Ep. cbv zeta. destruct (_ =? _); [cautiously_tac|].
  set (id := u16 _). set (f := if stp_is_designated_port s p then _ else _).
  rewrite (upd_port_ext i (fun _ => _) (put_port_id id ∘ put_info f)) by (intros q Eq; rewrite Ep in Eq; by injection Eq as <-). cautiously_tac.
Qed.

Lemma set_path_cost_cautious i cost s : cautiously s (stp_port_set_path_cost junk stale md0 i cost s).
Proof. unfold stp_port_set_path_cost. cautiously_tac. Qed.

(** ** Time *)

Hint Resolve transmit_config_cautious : stp_states.

Lemma tick_bridge_cautious elapsed s : cautiously s (tick_bridge junk stale md0 elapsed s).
Proof. unfold tick_bridge, stp_hello_timer_expiry, stp_tcn_timer_expiry, stp_topology_change_timer_expiry. cautiously_tac. Qed.
Hint Resolve tick_bridge_cautious : stp_states.

Lemma tick_message_age_cautious elapsed i s : cautiously s (tick_message_age junk stale md0 elapsed i s).
Proof. unfold tick_message_age, stp_message_age_timer_expiry, stp_become_designated_port. cautiously_tac. Qed.

Lemma tick_hold_cautious elapsed i s : cautiously s (tick_hold junk stale md0 elapsed i s).
Proof. unfold tick_hold, stp_hold_timer_expiry. cautiously_tac. Qed.

(** The expiry of the forward delay timer of port [i] moves that port only, by one state. *)
Lemma set_port_state_at i st s s' : stp_set_port_state i st s = Some s' ->
  port_state s' i = Some st /\ forall j, j <> i -> port_state s' j = port_state s j.
Proof using.
  unfold stp_set_port_state. intros (p & Ep & E)%bind_Some. apply (inj Some) in E. subst s'. set (s1 := if _ && _ then _ else s).
  assert (forall j, port_state s1 j = port_state s j) as Hs1.
  { intros j. unfold s1. destruct (_ && _); [|done]. assert (port_state (upd_port i (put_state_changed true) s) j = port_state s j) as H.
    - unfold port_state. cbn. destruct (decide (i = j)) as [<-|]; [rewrite list_lookup_alter_eq; by destruct (ports s !! i)|by rewrite list_lookup_alter_ne].
    - destruct (i <? _)%nat; exact H. }
  unfold port_state in *. cbn. split.
  - specialize (Hs1 i). rewrite Ep in Hs1. rewrite list_lookup_alter_eq. by destruct (ports s1 !! i).
  - intros j Hj. rewrite list_lookup_alter_ne by done. apply Hs1.
Qed.

Lemma tick_forward_delay_careful elapsed i s s' : tick_forward_delay junk stale md0 elapsed i s = Some s' ->
  careful_at i s s' /\ forall j, j <> i -> cautious_at j s s'.
Proof.
  unfold tick_forward_delay. intros (p & Ep & (r & _ & E)%bind_Some)%bind_Some. set (s1 := upd_port i _ s) in E.
  assert (cautious s s1) as H1 by (unfold s1; cautious_tac). destruct r.1; [|injection E as <-; split; [apply cautious_is_careful|]; intros; apply H1].
  unfold stp_forward_delay_timer_expiry in E. apply bind_Some in E as (p1 & Ep1 & E).
  assert (port_state s i = port_state s1 i) as Eps by (unfold port_state, s1; cbn; rewrite list_lookup_alter_eq; by destruct (ports s !! i)).
  assert (port_state s1 i = Some (state p1)) as Est by (unfold port_state; by rewrite Ep1).
  assert (forall s2 st o, (st = STP_LEARNING -> state p1 = STP_LISTENING) -> (st = STP_FORWARDING -> state p1 = STP_LEARNING) -> (st = STP_LEARNING \/ st = STP_FORWARDING) ->
    stp_set_port_state i st s1 = Some s2 -> cautiously s2 o -> o = Some s' -> careful_at i s s' /\ forall j, j <> i -> cautious_at j s s') as Hmove.
  { intros s2 st o HL HF Hst E2 Ho Eo. destruct (set_port_state_at _ _ _ _ E2) as [Hi Hj]. specialize (Ho s' Eo). split.
    - apply (careful_cautious i s s2); [|apply Ho]. intros H. rewrite Hi in H. injection H as ->. left. by rewrite Eps, Est, HF.
    - intros j Hn st' Hst' H. apply H1; [done|]. rewrite <- Hj by done. by apply Ho. }
  destruct (state p1) eqn:Es; try (injection E as <-; split; [apply cautious_is_careful|]; intros; apply H1).
  - apply bind_Some in E as (s2 & E2 & E). eapply (Hmove s2); [| | |exact E2| |exact E]; auto; [done|]. cautiously_tac.
  - apply bind_Some in E as (s2 & E2 & E). eapply (Hmove s2); [| | |exact E2| |exact E]; auto; [done|]. cautiously_tac.
Qed.

Lemma second_loop_careful elapsed l : NoDup l -> forall s s',
  for_enabled (fun i s => s ← tick_forward_delay junk stale md0 elapsed i s; tick_hold junk stale md0 elapsed i s) l s = Some s' ->
  (forall i, i ∈ l -> careful_at i s s') /\ forall i, i ∉ l -> cautious_at i s s'.
Proof.
  induction l as [|i l IH]; intros Hn s s' E; cbn [for_enabled] in E.
  - injection E as <-. split; [intros i H; by apply not_elem_of_nil in H|]. by intros i _ st.
  - apply NoDup_cons in Hn as [Hi Hn]. apply bind_Some in E as (p & _ & (s1 & E1 & E)%bind_Some). destruct (IH Hn s1 s' E) as [H1 H2].
    assert (careful_at i s s1 /\ forall j, j <> i -> cautious_at j s s1) as [H3 H4].
    { destruct (enabled p); [|injection E1 as <-; split; [by right|by intros j _ st]]. apply bind_Some in E1 as (s0 & E0 & E1).
      pose proof (tick_hold_cautious elapsed i s0 s1 E1) as Hh. destruct (tick_forward_delay_careful _ _ _ _ E0) as [F1 F2]. split.
      - by apply (careful_cautious i s s0).
      - intros j Hj st Hst H. apply (F2 j Hj st Hst). by apply Hh. }
    split; intros j.
    + intros [->|Hj]%elem_of_cons; [by apply (careful_cautious i s s1); [|apply H2]|]. destruct (decide (j = i)) as [->|]; [done|].
      apply (cautious_careful j s s1); [by apply H4|by apply H1].
    + intros [Hj Hl]%not_elem_of_cons st Hst H. apply (H4 j Hj st Hst). by apply H2.
Qed.

Lemma tick_careful ms s s' : stp_tick junk stale md0 ms s = Some s' -> forall i, careful_at i s s'.
Proof.
  unfold stp_tick, tick_timers. intros ([e rem] & _ & E)%bind_Some. cbn [fst snd] in E. set (s0 := set_elapsed_remainder _ s) in E.
  destruct (e =? 0); [apply (inj Some) in E; subst s'; intros i; by right|].
  apply bind_Some in E as (s1 & E1 & (s2 & E2 & E)%bind_Some). apply tick_bridge_cautious in E1.
  apply (for_enabled_cautious (tick_message_age junk stale md0 e)) in E2; [|intros; apply tick_message_age_cautious].
  destruct (second_loop_careful e all_ports (NoDup_seq 0 STP_MAX_PORTS) s2 s' E) as [H1 H2]. intros i.
  assert (cautious_at i s s2) as H0 by (intros st Hst H; by apply (E1 i st), (E2 i st)).
  apply (cautious_careful i s s2); [done|]. destruct (decide (i ∈ all_ports)); [by apply H1|]. by apply cautious_is_careful, H2.
Qed.
End States.
