(* ===== verification/StpOps.v ===== *)
(** * A bridge in any sequence of operations *)

From S2P Require Import Prelude MapDef OfpBuf DpPacket OfpMsgs StpState Stp StpBase StpSelect.
From S2P Require Import StpInv StpSteps StpStates.

(** The operations that change a bridge, with their arguments; [OpTcn] is the command stp/tcn. *)
Inductive stp_op : Set :=
| OpTick (ms : Z)
| OpReceived (i : nat) (bpdu : bytes)
| OpSetBridgeId (id : Z)
| OpSetBridgePriority (priority : Z)
| OpSetHelloTime (ms : Z)
| OpSetMaxAge (ms : Z)
| OpSetForwardDelay (ms : Z)
| OpCheckFlush
| OpGetChanged
| OpTcn
| OpEnable (i : nat)
| OpDisable (i : nat)
| OpSetPriority (i : nat) (priority : Z)
| OpSetPathCost (i : nat) (cost : Z)
| OpSetSpeed (i : nat) (speed : Z)
| OpDetect (i : nat) (on : bool)
| OpSetName (i : nat) (nm : string)
| OpSetAux (i : nat) (a : option Z).

(** What is asked of the arguments: indices of ports, times that stay in an [int] as ticks, path costs
    other than 0, and messages that this port did not send itself and whose cost leaves room for the sums. *)
Definition op_ok (s : stp) (op : stp_op) : Prop :=
  match op with
  | OpTick ms => ms <= 8388603
  | OpReceived i bpdu => exists p, ports s !! i = Some p /\ bpdu_ok s p bpdu
  | OpEnable i | OpDisable i | OpSetSpeed i _ => (i < STP_MAX_PORTS)%nat
  | OpSetPriority i prio => 0 <= prio /\ exists p, ports s !! i = Some p /\ ~ own_segment s p
  | OpSetPathCost i cost => (i < STP_MAX_PORTS)%nat /\ 1 <= cost <= 65535
  | _ => True
  end.

Section Ops.
Context (junk : nat -> Z) (stale : dp_packet) (md0 : bytes).

Definition run_op (op : stp_op) (s : stp) : option stp :=
  match op with
  | OpTick ms => stp_tick junk stale md0 ms s
  | OpReceived i bpdu => stp_received_bpdu junk stale md0 i bpdu s
  | OpSetBridgeId id => stp_set_bridge_id junk stale md0 id s
  | OpSetBridgePriority prio => stp_set_bridge_priority junk stale md0 prio s
  | OpSetHelloTime ms => stp_set_hello_time ms s
  | OpSetMaxAge ms => stp_set_max_age ms s
  | OpSetForwardDelay ms => stp_set_forward_delay ms s
  | OpCheckFlush => Some (stp_check_and_reset_fdb_flush s).2
  | OpGetChanged => Some (stp_get_changed_port s).2
  | OpTcn => stp_topology_change_detection junk stale md0 s
  | OpEnable i => stp_port_enable junk stale md0 i s
  | OpDisable i => stp_port_disable junk stale md0 i s
  | OpSetPriority i prio => stp_port_set_priority junk stale md0 i prio s
  | OpSetPathCost i cost => stp_port_set_path_cost junk stale md0 i cost s
  | OpSetSpeed i speed => stp_port_set_speed junk stale md0 i speed s
  | OpDetect i on => Some (if on then stp_port_enable_change_detection i s else stp_port_disable_change_detection i s)
  | OpSetName i nm => Some (stp_port_set_name i nm s)
  | OpSetAux i a => Some (stp_port_set_aux i a s)
  end.

Inductive reachable : stp -> Prop :=
| reach_create nm id s : stp_create nm id = Some s -> reachable s
| reach_step s op s' : reachable s -> op_ok s op -> run_op op s = Some s' -> reachable s'.

Lemma speed_cost_range speed : 1 <= stp_convert_speed_to_cost speed <= 65535.
Proof using. unfold stp_convert_speed_to_cost. repeat case_match; lia. Qed.

Lemma requested_keeps t s : inv s -> keeps (stp_update_bridge_timers (set_rq_times t s)).
Proof using. intros Hi. apply update_timers_keeps. apply (inv_quiet s); [done|done|]. pose proof (inv_sane _ Hi). sane_set. Qed.

Lemma op_keeps op s : inv s -> op_ok s op -> keeps (run_op op s).
Proof.
  intros Hi Ho. pose proof (inv_sane _ Hi) as Hs.
  assert (forall i, (i < STP_MAX_PORTS)%nat -> exists p, ports s !! i = Some p) as Hport by (intros i; by apply sane_port).
  destruct op; cbn [run_op op_ok] in *.
  - by apply tick_keeps.
  - destruct Ho as (p & Ep & Ho). by apply (received_bpdu_keeps junk stale md0 i s p).
  - by apply set_bridge_id_keeps.
  - by apply set_bridge_id_keeps.
  - by apply requested_keeps.
  - by apply requested_keeps.
  - by apply requested_keeps.
  - apply keeps_some, (inv_quiet s); [done|done|]. cbn. sane_set.
  - apply keeps_some. pose proof (get_changed_spec s Hs) as H. destruct (stp_get_changed_port s) as [[j|] s']; cbn [snd].
    + destruct H as (_ & _ & _ & H1 & H2 & _). by apply (inv_quiet s).
    + destruct H as (_ & H1 & H2 & _). by apply (inv_quiet s).
  - by apply (keeps_quiet s), topology_change_quiet.
  - destruct (Hport i Ho) as [p Ep]. by eapply enable_keeps.
  - destruct (Hport i Ho) as [p Ep]. by eapply disable_keeps.
  - destruct Ho as (Hp & p & Ep & Ho). by eapply set_priority_keeps.
  - destruct Ho as [Hlt Hc]. destruct (Hport i Hlt) as [p Ep]. by eapply set_path_cost_keeps.
  - destruct (Hport i Ho) as [p Ep]. eapply set_path_cost_keeps; [done|done|apply speed_cost_range].
  - apply keeps_some. destruct on; by apply notice_keeps.
  - apply keeps_some. by apply notice_keeps.
  - apply keeps_some. by apply notice_keeps.
Qed.

Lemma stp_reachable_inv s : reachable s -> inv s.
Proof.
  induction 1 as [nm id s E|s op s' _ IH Ho E].
  - destruct (create_inv nm id) as (s1 & E1 & Hi & _). rewrite E1 in E. by injection E as <-.
  - destruct (op_keeps op s IH Ho) as (s1 & E1 & Hi). rewrite E1 in E. by injection E as <-.
Qed.



Lemma changed_loop_cautious l s : cautious s (changed_loop l s).2.
Proof using. induction l as [|i l IH]; cbn [changed_loop]; [by cbn; cautious_tac|]. destruct (ports s !! i) as [p|]; [|done]. destruct (state_changed p); [cbn; cautious_tac|done]. Qed.

Lemma op_states op s :
  match op with
  | OpTick _ => forall s', run_op op s = Some s' -> forall i, careful_at i s s'
  | _ => cautiously s (run_op op s)
  end.
Proof.
  destruct op; cbn [run_op].
  - intros s'. apply tick_careful.
  - apply received_cautious.
  - apply set_bridge_id_cautious.
  - apply set_bridge_id_cautious.
  - exact (update_bridge_timers_cautious (set_rq_times _ s)).
  - exact (update_bridge_timers_cautious (set_rq_times _ s)).
  - exact (update_bridge_timers_cautious (set_rq_times _ s)).
  - cbn. apply cautiously_some. cautious_tac.
  - apply cautiously_some. apply changed_loop_cautious.
  - apply topology_change_cautious.
  - apply enable_cautious.
  - apply disable_cautious.
  - apply set_priority_cautious.
  - apply set_path_cost_cautious.
  - apply set_path_cost_cautious.
  - apply cautiously_some. destruct on; [unfold stp_port_enable_change_detection|unfold stp_port_disable_change_detection]; cautious_tac.
  - apply cautiously_some. unfold stp_port_set_name. cautious_tac.
  - apply cautiously_some. unfold stp_port_set_aux. cautious_tac.
Qed.

(** C29: No operation, whatever its arguments, lets a port forward that was not learning or forwarding before; and
    no operation but the passage of time lets a port learn that was not learning before. *)
Theorem forwarding_after_learning op s s' i : run_op op s = Some s' ->
  (port_state s' i = Some STP_FORWARDING -> port_state s i = Some STP_LEARNING \/ port_state s i = Some STP_FORWARDING) /\
  ((forall ms, op <> OpTick ms) -> forall st, st = STP_LEARNING \/ st = STP_FORWARDING -> port_state s' i = Some st -> port_state s i = Some st).
Proof.
  intros E. pose proof (op_states op s) as H. rewrite E in H. destruct op; try (split; [exact (cautious_is_careful i s s' (H s' eq_refl i))|intros _; exact (H s' eq_refl i)]).
  split; [by apply (H s')|]. intros Hn. by destruct (Hn ms).
Qed.
End Ops.
