(* ===== verification/StpProps.v ===== *)
(** * Properties of the spanning tree protocol *)

From S2P Require Import Prelude MapDef OfpBuf DpPacket DpPacketProps OfpMsgs OfpMsgsProps.
From S2P Require Import StpState Stp StpBase StpSelect StpInv StpSteps StpStates StpOps.

(** ** A small bridge *)

Definition demo_run (op : stp_op) (o : option stp) : option stp := o ≫= run_op (fun _ => 0) small_packet [] op.
Definition the (o : option stp) : stp := default (mk_stp EmptyString 0 null_times null_times null_times 0 0 0 None false false null_timer null_timer null_timer [] false 0 []) o.

(** A bridge with one port, which listens; then it has learnt of a better root; or, without, it learns and forwards. *)
Definition better_config : stp_config_bpdu := mk_config 0 7 100 9 32770 256 5120 512 3840.
Definition bridge0 : option stp := stp_create "br0" 1.
Definition bridge1 : option stp := demo_run (OpEnable 0) bridge0.
Definition bridge2 : option stp := demo_run (OpReceived 0 (config_bytes better_config)) bridge1.
Definition bridge3 : option stp := demo_run (OpTick 15000) bridge1.
Definition bridge4 : option stp := demo_run (OpTick 15000) bridge3.

Definition summary (s : stp) : list Z * option nat * option stp_state :=
  ([stp_designated_root s; root_path_cost s; elapsed_remainder s], root_port s, port_state s 0).

Lemma bridge_summary : (summary <$> bridge1, summary <$> bridge2, summary <$> bridge3, summary <$> bridge4) =
  (Some ([9223372036854775809; 0; 0], None, Some STP_LISTENING), Some ([7; 119; 0], Some 0%nat, Some STP_LISTENING),
   Some ([9223372036854775809; 0; 0], None, Some STP_LEARNING), Some ([9223372036854775809; 0; 0], None, Some STP_FORWARDING)).
Proof. by vm_compute. Qed.

Definition demo_reachable : stp -> Prop := reachable (fun _ => 0) small_packet [].

Lemma demo_step op s : demo_reachable s -> op_ok s op -> exists s', demo_run op (Some s) = Some s' /\ demo_reachable s'.
Proof.
  intros Hr Ho. destruct (op_keeps (fun _ => 0) small_packet [] op s) as (s' & E & _); [by eapply stp_reachable_inv|done|].
  exists s'. split; [done|]. by eapply reach_step.
Qed.

Lemma bridge0_reachable : exists s, bridge0 = Some s /\ demo_reachable s /\ length (ports s) = STP_MAX_PORTS.
Proof. destruct (create_inv "br0" 1) as (s & E & Hi & _). exists s. split_and!; [done|by eapply reach_create|apply Hi]. Qed.

Lemma bridge1_reachable : exists s, bridge1 = Some s /\ demo_reachable s.
Proof. destruct bridge0_reachable as (s & E & Hr & _). unfold bridge1. rewrite E. apply demo_step; [done|]. cbn. unfold STP_MAX_PORTS. lia. Qed.

Lemma better_config_ok s : bridge1 = Some s -> op_ok s (OpReceived 0 (config_bytes better_config)).
Proof.
  intros E. assert (fst <$> (bridge1 ≫= fun s => p ← ports s !! 0%nat; Some (bridge_id s, p)) = Some 9223372036854775809) as H by (by vm_compute).
  rewrite E in H. cbn [mbind option_bind] in H. cbn [op_ok]. destruct (ports s !! 0%nat) as [p|]; [|done]. cbn in H. injection H as H. exists p. split; [done|].
  split; [by apply (bool_decide_unpack _); vm_compute|]. intros c Hc. assert (config_of_bytes (config_bytes better_config) = Some better_config) as Hb by (by vm_compute).
  rewrite Hb in Hc. injection Hc as <-. cbn. lia.
Qed.

Lemma bridge2_reachable : exists s, bridge2 = Some s /\ demo_reachable s.
Proof. destruct bridge1_reachable as (s & E & Hr). unfold bridge2. rewrite E. apply demo_step; [done|]. by apply better_config_ok. Qed.



Lemma bridge3_forwards : exists s s', bridge3 = Some s /\ run_op (fun _ => 0) small_packet [] (OpTick 15000) s = Some s' /\ port_state s' 0 = Some STP_FORWARDING.
Proof.
  assert ((bridge3 ≫= fun s => run_op (fun _ => 0) small_packet [] (OpTick 15000) s ≫= fun s' => Some (port_state s' 0)) = Some (Some STP_FORWARDING)) as H by (by vm_compute).
  apply bind_Some in H as (s & E3 & (s' & E & H)%bind_Some). apply (inj Some) in H. exists s, s'. split; [exact E3|split; [exact E|exact H]].
Qed.

Lemma forwarding_after_learning_witness : exists s s', bridge3 = Some s /\ run_op (fun _ => 0) small_packet [] (OpTick 15000) s = Some s' /\
  port_state s' 0 = Some STP_FORWARDING /\ (port_state s 0 = Some STP_LEARNING \/ port_state s 0 = Some STP_FORWARDING).
Proof.
  destruct bridge3_forwards as (s & s' & E3 & E4 & H). exists s, s'. split_and!; [exact E3|exact E4|exact H|].
  apply (forwarding_after_learning (fun _ => 0) small_packet [] (OpTick 15000) s s' 0); [exact E4|exact H].
Defined.

(** ** The root port *)

Lemma lex_ltb_total a : forall b, length a = length b -> a <> b -> lex_ltb b a = false -> lex_ltb a b = true.
Proof.
  induction a as [|x a IH]; intros [|y b] Hl Hn H; cbn in *; try done. rewrite Z.eqb_sym in H. destruct (Z.eqb_spec x y) as [->|]; [|lia].
  apply IH; [lia|congruence|done].
Qed.



(** ** Messages between bridges *)

Record config_fits (c : stp_config_bpdu) : Prop := {
  cfi_flags : in_u 8 (cf_flags c);
  cfi_root : in_u 64 (cf_root_id c);
  cfi_cost : in_u 32 (cf_root_path_cost c);
  cfi_bridge : in_u 64 (cf_bridge_id c);
  cfi_port : in_u 16 (cf_port_id c);
  cfi_age : in_u 16 (cf_message_age c);
  cfi_max_age : in_u 16 (cf_max_age c);
  cfi_hello : in_u 16 (cf_hello_time c);
  cfi_delay : in_u 16 (cf_forward_delay c)
}.

Lemma config_roundtrip c : config_fits c -> config_of_bytes (config_bytes c) = Some c.
Proof.
  intros []. destruct c as [a b d e f g h i j].
  cbn [cf_flags cf_root_id cf_root_path_cost cf_bridge_id cf_port_id cf_message_age cf_max_age cf_hello_time cf_forward_delay] in *.
  unfold config_of_bytes, config_bytes, stp_bpdu_header. cbn [cf_flags cf_root_id cf_root_path_cost cf_bridge_id cf_port_id cf_message_age cf_max_age cf_hello_time cf_forward_delay].
  assert (forall x, in_u 8 x -> [x] = be_bytes 1 x) as H1 by (intros x Hx; unfold be_bytes; cbn; f_equal; symmetry; by apply wrap_small).
  rewrite (H1 a) by done. change [STP_PROTOCOL_VERSION; STP_TYPE_CONFIG] with (be_bytes 2 0).
  rewrite <- (app_nil_r (be_bytes 2 j)). 
  do 9 (read_field; cbn [mbind option_bind]). done.
Qed.

(** The age that a message of this bridge carries. *)
Definition message_age_of (s : stp) : option Z :=
  if stp_is_root_bridge s then Some 0 else r ← root_port s; q ← ports s !! r; Some (u16 (value (message_age_timer q) + 1)).

Lemma flags_fit (a b : bool) : in_u 8 (Z.lor (if a then STP_CONFIG_TOPOLOGY_CHANGE_ACK else 0) (if b then STP_CONFIG_TOPOLOGY_CHANGE else 0)).
Proof. by destruct a, b. Qed.

Lemma config_message_fits s i p age : inv s -> ports s !! i = Some p -> in_u 64 (bridge_id s) -> in_u 64 (stp_designated_root s) -> in_u 16 age ->
  config_fits (config_message s p age).
Proof.
  intros Hi Ep H1 H2 H3. split; cbn; try done; try (apply wrap_range; lia); [apply flags_fit|].
  pose proof (inv_root _ Hi) as Hr. unfold root_inv in Hr. destruct (root_port s) as [r|].
  - destruct Hr as (q & Hq & _ & [C1 C2] & _ & ->). unfold in_u. lia.
  - destruct Hr as [_ ->]. done.
Qed.

Section Transmit.
Context (junk : nat -> Z) (stale : dp_packet) (md0 : bytes).

Lemma send_packet i bpdu s pkt : bpdu_packet junk stale md0 bpdu = Ok pkt ->
  stp_send_bpdu junk stale md0 i bpdu s = Some (upd_port i (fun p => put_tx_count (tx_count p + 1) p) (set_sent ((i, pkt) :: sent s) s)).
Proof. intros E. unfold stp_send_bpdu. rewrite E. reflexivity. Qed.

(** Whether a message is sent, and its age. *)
Lemma transmit_config_steps i s p age : sane s -> ports s !! i = Some p -> active (hold_timer p) = false ->
  message_age_of s = Some age -> age < max_age (times s) ->
  stp_transmit_config junk stale md0 i s =
    (stp_send_bpdu junk stale md0 i (config_bytes (config_message s p age)) (upd_port i (put_config_pending false ∘ put_topology_change_ack false) s) ≫= fun s =>
     Some (upd_port i (put_hold_timer (stp_start_timer 0)) s)).
Proof.
  intros Hs Ep Hh Ha Hlt. unfold stp_transmit_config. rewrite Ep, some_bind, Hh. cbv zeta. unfold message_age_of in Ha.
  assert (negb (stp_is_root_bridge s) && bool_decide (root_port s = None) = false) as ->.
  { destruct (stp_is_root_bridge s); [done|]. by destruct (root_port s). }
  assert ((if stp_is_root_bridge s then Some 0 else r ← root_port s; q ← ports s !! r; v ← add_int (value (message_age_timer q)) MESSAGE_AGE_INCREMENT; Some (u16 v)) = Some age) as ->.
  { destruct (stp_is_root_bridge s); [done|]. destruct (root_port s) as [r|] eqn:Erp; [|done]. rewrite some_bind in Ha |- *.
    destruct (ports s !! r) as [q|] eqn:Eq; [|done]. rewrite some_bind in Ha |- *. destruct (sane_lookup _ _ _ Hs Eq) as [_ [[Hv _] _ _]].
    unfold add_int, int_ok, MESSAGE_AGE_INCREMENT. rewrite (proj2 (Z.leb_le _ _)), (proj2 (Z.ltb_lt _ _)) by lia. done. }
  rewrite some_bind, (proj2 (Z.ltb_lt _ _) Hlt). reflexivity.
Qed.

Lemma transmit_config_sends i s p age pkt : sane s -> ports s !! i = Some p -> active (hold_timer p) = false ->
  message_age_of s = Some age -> age < max_age (times s) -> bpdu_packet junk stale md0 (config_bytes (config_message s p age)) = Ok pkt ->
  exists s', stp_transmit_config junk stale md0 i s = Some s' /\ sent s' = (i, pkt) :: sent s /\ s' ≡ s /\
    exists p', ports s' !! i = Some p' /\ hold_timer p' = mk_timer true 0 /\ config_pending p' = false.
Proof.
  intros Hs Ep Hh Ha Hlt Epkt. destruct (sane_lookup _ _ _ Hs Ep) as [Hil _].
  destruct (transmit_config_quiet junk stale md0 i s Hs Hil) as (s' & E & Hq & _). exists s'. split; [exact E|].
  rewrite (transmit_config_steps i s p age Hs Ep Hh Ha Hlt), (send_packet _ _ _ _ Epkt), some_bind in E. apply (inj Some) in E.
  split; [by rewrite <- E|]. split; [exact Hq|]. rewrite <- E. cbn [ports upd_port set_ports set_sent]. rewrite !list_lookup_alter_eq, Ep. eexists. split; [reflexivity|split; reflexivity].
Qed.

Lemma message_age_range s age : message_age_of s = Some age -> in_u 16 age.
Proof using.
  unfold message_age_of. destruct (stp_is_root_bridge s); [by intros [= <-]|]. destruct (root_port s) as [r|]; [|done]. rewrite some_bind.
  destruct (ports s !! r); [|done]. rewrite some_bind. intros [= <-]. apply wrap_range. lia.
Qed.

Lemma received_config_bytes j s q c : ports s !! j = Some q -> enabled q = true -> config_fits c ->
  stp_received_bpdu junk stale md0 j (drop (Z.to_nat 17) (frame_of (config_bytes c))) s = (s ← stp_received_config_bpdu junk stale md0 j c s; Some (count_rx j s)).
Proof.
  intros Eq He Hc. assert (drop (Z.to_nat 17) (frame_of (config_bytes c)) = config_bytes c) as -> by reflexivity. pose proof (config_roundtrip c Hc) as Hrt.
  unfold stp_received_bpdu. rewrite Eq, some_bind, He. cbn [negb]. rewrite length_config_bytes, Hrt.
  assert (be_field (config_bytes c) 0 2 = Some STP_PROTOCOL_ID) as -> by reflexivity. assert (be_field (config_bytes c) 3 1 = Some STP_TYPE_CONFIG) as -> by reflexivity. reflexivity.
Qed.

(** C31: A configuration message from one bridge to another: when nothing holds the port back, a bridge sends one packet,
    the Ethernet and LLC frame of its 35 bytes with the network layer at byte 17, and starts the hold timer;
    another bridge that is given the bytes from there on at an enabled port treats exactly the message that was meant, and counts it. *)
Theorem config_transmitted i s p age j s2 q : reachable junk stale md0 s -> ports s !! i = Some p -> active (hold_timer p) = false ->
  message_age_of s = Some age -> age < max_age (times s) -> in_u 64 (bridge_id s) -> in_u 64 (stp_designated_root s) ->
  ports s2 !! j = Some q -> enabled q = true ->
  exists pkt s', stp_transmit_config junk stale md0 i s = Some s' /\ sent s' = (i, pkt) :: sent s /\ s' ≡ s /\
    dcontents pkt = frame_of (config_bytes (config_message s p age)) /\ l3_ofs (dp_lay pkt) = 17 /\
    (exists p', ports s' !! i = Some p' /\ hold_timer p' = mk_timer true 0 /\ config_pending p' = false) /\
    stp_received_bpdu junk stale md0 j (drop (Z.to_nat (l3_ofs (dp_lay pkt))) (dcontents pkt)) s2 =
      (s ← stp_received_config_bpdu junk stale md0 j (config_message s p age) s2; Some (count_rx j s)).
Proof.
  intros Hi%stp_reachable_inv Ep Hh Ha Hlt Hb Hr Eq He. set (c := config_message s p age).
  destruct (bpdu_packet_spec junk stale md0 (config_bytes c)) as (pkt & Epkt & _ & Hc & Hl3 & _); [rewrite length_config_bytes; lia|].
  destruct (transmit_config_sends i s p age pkt (inv_sane _ Hi) Ep Hh Ha Hlt Epkt) as (s' & E & Hsent & Hq & Hp'). exists pkt, s'.
  do 6 (split; [assumption|]). rewrite Hl3, Hc.
  exact (received_config_bytes j s2 q c Eq He (config_message_fits s i p age Hi Ep Hb Hr (message_age_range s age Ha))).
Qed.
End Transmit.

Lemma bridge1_facts : exists s p, bridge1 = Some s /\ demo_reachable s /\ ports s !! 0%nat = Some p /\
  active (hold_timer p) = false /\ enabled p = true /\ message_age_of s = Some 0 /\ max_age (times s) = 5120 /\
  bridge_id s = 9223372036854775809 /\ stp_designated_root s = 9223372036854775809.
Proof.
  destruct bridge1_reachable as (s & E & Hr).
  assert ((s ← bridge1; p ← ports s !! 0%nat; Some (active (hold_timer p), enabled p, message_age_of s, max_age (times s), bridge_id s, stp_designated_root s)) =
    Some (false, true, Some 0, 5120, 9223372036854775809, 9223372036854775809)) as H by (by vm_compute).
  rewrite E, some_bind in H. apply bind_Some in H as (p & Ep & H). injection H as H1 H2 H3 H4 H5 H6. exists s, p.
  repeat (split; [assumption|]). assumption.
Qed.

Lemma config_transmitted_witness : exists s p pkt s', bridge1 = Some s /\ ports s !! 0%nat = Some p /\
  stp_transmit_config (fun _ => 0) small_packet [] 0 s = Some s' /\ sent s' = (0%nat, pkt) :: sent s /\
  stp_received_bpdu (fun _ => 0) small_packet [] 0 (drop (Z.to_nat (l3_ofs (dp_lay pkt))) (dcontents pkt)) s =
    (s0 ← stp_received_config_bpdu (fun _ => 0) small_packet [] 0 (config_message s p 0) s; Some (count_rx 0 s0)).
Proof.
  destruct bridge1_facts as (s & p & E & Hr & Ep & H1 & H2 & H3 & H4 & H5 & H6).
  destruct (config_transmitted (fun _ => 0) small_packet [] 0 s p 0 0 s p Hr Ep H1 H3) as (pkt & s' & T1 & T2 & _ & _ & _ & _ & T3);
    [rewrite H4; lia|rewrite H5; split; vm_compute; congruence|rewrite H6; split; vm_compute; congruence|exact Ep|exact H2|].
  exists s, p, pkt, s'. split; [exact E|split; [exact Ep|split; [exact T1|split; [exact T2|exact T3]]]].
Defined.

(** ** Time *)

(** The ticks of several calls of [stp_tick], and the milliseconds left over. *)
Fixpoint ticks_of (calls : list Z) (rem : Z) : option (Z * Z) :=
  match calls with
  | [] => Some (0, rem)
  | ms :: calls => r ← tick_ms ms rem; t ← ticks_of calls r.2; Some (r.1 + t.1, t.2)
  end.

Lemma ticks_of_bounds calls : forall rem, 0 <= rem <= 4 -> Forall (fun ms => 0 <= ms <= 8388603) calls ->
  exists n r, ticks_of calls rem = Some (n, r) /\ 0 <= n /\ 0 <= r <= 4 /\
    let spent := rem + foldr Z.add 0 calls - r in 256 * spent <= 1000 * n /\ 1000 * n <= 256 * spent + 255 * Z.of_nat (length calls).
Proof.
  induction calls as [|ms calls IH]; intros rem Hr Hc; cbn [ticks_of].
  - exists 0, rem. split; [done|]. cbn. lia.
  - apply Forall_cons in Hc as [Hm Hc]. destruct (tick_ms_ok ms rem) as (-> & He & Hb); [lia|lia|]. rewrite some_bind. cbn [fst snd].
    rewrite Z.max_l in * by lia. set (e := (ms + rem) * 256 / 1000) in *.
    destruct (IH (ms + rem - e * 1000 / 256) Hb Hc) as (n & r & -> & Hn & Hr' & H1 & H2). rewrite some_bind. exists (e + n), r. split; [done|].
    cbn [fst snd foldr length]. split_and!; try lia; clearbody e; Z.div_mod_to_equations; lia.
Qed.

(** The ticks that calls of [stp_tick] count for the time that passes: the calls never fall behind, and each call gains
    less than a millisecond; but the gain is real: 250 calls of 4 ms count 312 ticks, one call of a second 256.
    A call for 8388608 ms or more, which the clamp lets through, overflows an [int]. *)
Theorem stp_tick_time calls : Forall (fun ms => 0 <= ms <= 8388603) calls ->
  (exists n r, ticks_of calls 0 = Some (n, r) /\ 0 <= r <= 4 /\
     256 * (foldr Z.add 0 calls - r) <= 1000 * n <= 256 * (foldr Z.add 0 calls - r) + 255 * Z.of_nat (length calls)) /\
  ticks_of (replicate 250 4) 0 = Some (312, 2) /\ ticks_of [1000] 0 = Some (256, 0) /\
  forall junk stale md0 ms s, 8388608 <= ms -> 0 <= elapsed_remainder s <= 4 -> stp_tick junk stale md0 ms s = None.
Proof.
  intros Hc. split_and!; [|by vm_compute|by vm_compute|].
  - destruct (ticks_of_bounds calls 0 ltac:(lia) Hc) as (n & r & H & H1 & H2 & H3 & H4). exists n, r. rewrite Z.add_0_l in *. done.
  - intros junk stale md0 ms s Hm Hr. unfold stp_tick, tick_ms, add_int, int_ok, ms_to_timer, int_ok.
    assert (8388608 <= clamp ms 0 (2 ^ 31 - 1 - 1000) <= 2 ^ 31 - 1 - 1000) as Hcl by (unfold clamp; repeat case_match; lia).
    rewrite (proj2 (Z.leb_le _ _)), (proj2 (Z.ltb_lt _ _)) by lia. cbn [andb]. rewrite some_bind.
    rewrite (proj2 (Z.ltb_ge ((_ + _) * 256) _)) by lia. by rewrite andb_false_r.
Qed.

Lemma stp_tick_time_witness : (exists n r, ticks_of [4; 4] 0 = Some (n, r) /\ 0 <= r <= 4 /\ 256 * (8 - r) <= 1000 * n <= 256 * (8 - r) + 255 * 2) /\
  (forall s, elapsed_remainder s = 0 -> stp_tick (fun _ => 0) small_packet [] 8388608 s = None).
Proof.
  destruct (stp_tick_time [4; 4]) as (H1 & _ & _ & H2); [repeat constructor; lia|]. split; [exact H1|]. intros s Hs. apply H2; [lia|rewrite Hs; lia].
Defined.

(** ** Reporting *)

(** A client that asks for changed ports until there is none gets every port whose state has changed since it last asked, once,
    in ascending order, after at most 255 reports; then none is left, and nothing else of the bridge has changed. *)
Theorem changed_ports_reported junk stale md0 s : reachable junk stale md0 s ->
  exists s', drain (S STP_MAX_PORTS) s = Some (List.filter (changed s) all_ports, s') /\ s' ≡ s /\ forall j, changed s' j = false.
Proof.
  intros Hr%stp_reachable_inv. destruct (drain_spec (S STP_MAX_PORTS) 0 STP_MAX_PORTS s) as (s' & H1 & H2 & _ & H3); [lia|lia|apply Hr|lia|].
  by exists s'.
Qed.

Lemma changed_ports_reported_witness : exists s s', bridge2 = Some s /\ drain (S STP_MAX_PORTS) s = Some (List.filter (changed s) all_ports, s') /\ changed s' 0 = false.
Proof.
  destruct bridge2_reachable as (s & E & Hr). exists s. destruct (changed_ports_reported (fun _ => 0) small_packet [] s Hr) as (s' & H1 & _ & H3).
  exists s'. split; [exact E|split; [exact H1|apply H3]].
Defined.

(** ** Messages that break the rules *)

(** A message with a root path cost near 2^31 makes the sum of costs overflow an [int]. *)
Example large_cost_overflows :
  demo_run (OpReceived 0 (config_bytes (mk_config 0 7 (2 ^ 31 - 1) 9 32770 256 5120 512 3840))) bridge1 = None.
Proof. by vm_compute. Qed.

(** With path cost 0, which is accepted, the root port may be taken for a designated port as well. *)
Example zero_cost_root_designated :
  (fun s => (root_port s, stp_is_designated_port s <$> ports s !! 0%nat)) <$>
    demo_run (OpSetPathCost 0 0) (demo_run (OpReceived 0 (config_bytes (mk_config 0 7 100 (2 ^ 63 + 2) 32770 256 5120 512 3840))) bridge1) =
  Some (Some 0%nat, Some true).
Proof. by vm_compute. Qed.

(** A disabled port does not forward, against the table of states in stp.h. *)
Example disabled_does_not_forward : stp_forward_in_state STP_DISABLED = false.
Proof. reflexivity. Qed.
